(* ===== verification/_CoqProject ===== *)
-Q . S2P
Prelude.v
GoStrings.v
Float64.v
World.v
GoTime.v
Codec.v
Schema.v
AgeFormat.v
Outbox.v
ObjectStorage.v
SecretStore.v
SecretProofs.v
SecretUploads.v
RequestStore.v
RequestCleanup.v
RequestFrames.v
RequestProofs.v
RequestObjects.v
RequestFinalize.v
Reaper.v
ReaperProofs.v
Lifecycle.v
Sharing.v
SchemaProofs.v
Http.v
RateLimit.v
RateLimitProofs.v
Config.v
ConfigProofs.v
Json.v
JsonProofs.v
GoJson.v
Url.v
ClientCrypto.v
ShareLink.v
Flags.v
Files.v
Client.v
ClientJson.v
GoDuration.v
CliSend.v
CliOpen.v
Cli.v
FilesProofs.v
CliProofs.v
CliRunProofs.v
PathProofs.v
ClientProofs.v
CliWitnesses.v
HttpApi.v
HttpJson.v
Router.v
Contract.v
Deployment.v
HttpProofs.v
HttpHistory.v
Worker.v
Migrations.v
WorkerProofs.v
ConsumerProofs.v
JetStream.v
Loops.v
PipeRelay.v
PipeRelayProofs.v
PipeLifetimes.v
PipeHttp.v
Witnesses.v
SharingWitnesses.v
HttpWitnesses.v
EndToEnd.v
Service.v
ServiceWitnesses.v
