(* ===== verification/Prelude.v ===== *)
(** * Flick: a verification development of the Go services under [src/]

    Flick hands a secret from a sender to one recipient.  The ciphertext is an
    age file the server cannot read; what the server must get right is when it
    gives the file out, to whom, how often, and that it deletes it afterwards.

    ** The program

    - The API process ([cmd/flick-api]) serves HTTP ([internal/httpapi]) over a
      SQLite database ([internal/db]) and an S3-compatible bucket
      ([internal/storage]).  [internal/secrets] holds one-time secrets with the
      sender's management capability and the reaper; [internal/requests] holds
      request links, by which a recipient invites one submission;
      [internal/piperelay] pairs a live sender and receiver in memory.
    - Work outside a transaction (deleting an object) is a job event written to
      an outbox table in the same transaction as the change that needs it; a
      publisher moves it to NATS ([internal/events]).
    - The worker process ([cmd/flick-worker], [internal/worker]) consumes the
      jobs, keeps receipts, attempts and dead letters in its own database, and
      calls back into the API's internal routes.

    ** The files, in dependency order

    Ground:
    - Prelude.v: 64-bit wrap-around, durations, shared lemmas and tactics.
    - GoStrings.v, Float64.v, GoTime.v, Codec.v: what the program uses of
      [strings], [float64], [time] layouts as SQL compares them, base64 and
      SHA-256, executable and with their laws.
    - World.v: the monad [M D A] of every stateful operation.  A [World] is the
      committed database, the upload gauge and the trace of external effects;
      the class [Env] supplies clock, randomness and SQL failures by tick;
      [transaction] rolls back as [database/sql] does.

    State and collaborators:
    - Schema.v: the tables of [db.MigrateAPI] as finite maps, their constraints
      enforced by the statements.
    - AgeFormat.v: secrets/age.go.  Outbox.v: events/job.go, outbox.go,
      publisher.go, propagation.go, and the interface [OutboxSpec] the stores
      are proved against.  ObjectStorage.v: storage/*.go, and the interface
      [Objects.Spec].

    Secrets: SecretStore.v (store.go, management.go), SecretProofs.v,
    SecretUploads.v; Reaper.v (reaper.go, reconciliation.go), ReaperProofs.v.

    Requests: RequestStore.v (store.go, large.go, validation.go),
    RequestCleanup.v (cleanup.go), RequestFrames.v, RequestProofs.v,
    RequestObjects.v, RequestFinalize.v.

    Lifecycle.v: the API process as a transition system, one [op] per
    transaction, every interleaving, failure, passing of time and restart in
    its histories.  Sharing.v: the second half of [Finalize] (large.go) as the
    steps of concurrent callers over the map [finalizing] and the copy slots.
    SchemaProofs.v: the constraints of the schema in those histories.

    JSON: Json.v (texts and values), JsonProofs.v (what is written reads back),
    GoJson.v (decoding into structures by field names), HttpJson.v (the bodies
    of requests and [DecodeObject]: [json_http], [json_requests]).

    HTTP: Http.v, RateLimit.v, RateLimitProofs.v, HttpApi.v (secrets.go,
    requests.go), Router.v (router.go), HttpProofs.v, HttpHistory.v.

    Worker: Worker.v (worker/*.go, events/consumer.go), WorkerProofs.v,
    ConsumerProofs.v.  Migrations.v: [MigrateAPI] and [MigrateWorker]
    (db/migrations.go, db/requests.go).

    Processes: JetStream.v (the set-up of streams and consumers in nats.go and
    consumer.go), Loops.v (outbox_runner.go, [RunReaper], worker/runner.go),
    Service.v (cmd/flick-api/main.go, cmd/flick-worker/main.go).

    Relay: PipeRelay.v (coordinator.go; sessions in a heap, one function per
    critical section, a step relation that interleaves them),
    PipeRelayProofs.v, PipeLifetimes.v (when a code names a session), PipeHttp.v
    (httpapi/piperelay.go; a refused receive and the attempt it records are two
    critical sections with the relay's steps in between).

    Configuration: Config.v (config/*.go), ConfigProofs.v.

    Client: Url.v, GoJson.v, GoDuration.v (what it uses of [net/url],
    [encoding/json] and [time]); ClientCrypto.v (clientcrypto/*.go) over the
    class [Age]; ShareLink.v (flickcli/link.go); Flags.v (package [flag] and
    [hoistFlags]); Files.v (a Unix file system and the destinations of open.go);
    Client.v (client.go); CliSend.v (send.go); CliOpen.v (open.go); Cli.v
    (cmd/flick/main.go); FilesProofs.v (a logic of which entries and bytes the
    client owns), CliProofs.v, CliRunProofs.v, PathProofs.v, ClientProofs.v,
    CliWitnesses.v.

    Client and API together: ClientJson.v (what client.go writes and reads),
    Contract.v (that the API reads what the client writes, and the client what
    the API answers), Deployment.v (the API behind its router as the client's
    network, and a text sent and opened through it).

    Witnesses.v, SharingWitnesses.v, HttpWitnesses.v, EndToEnd.v,
    ServiceWitnesses.v: concrete
    collaborators that satisfy every interface the theorems assume, runs of the whole service on them, and the
    theorems applied to those runs.  (Outbox.v, RateLimitProofs.v,
    PipeRelayProofs.v and a few others hold their own witnesses.)

    A definition has the name of the function or method it translates; the
    doc comment before it says where the two differ in form.

    ** What the theorems show

    - One delivery.  In every history a secret and a request are delivered at
      most once and never again after that ([secret_opened_at_most_once],
      [request_opened_at_most_once]); a request accepts one attempt
      ([request_accepts_one_attempt]).  Concurrent finalizes share one copy
      ([finalize_copies_shared]), all return ([finalizes_all_return]), and are
      a history too ([shared_finalizes_refine_history]).  Every HTTP request is a path of that
      system whose deliveries are exactly what the response says
      ([serve_refines_history]), so clients get at most one 200
      ([http_secret_delivered_once]).
    - Authorization.  An open releases a row only if it was usable and the
      proof matched, gives out the inline bytes or the stream of the row's own
      object, and consumes the row in the same commit
      ([open_releases_only_authorized]); the fifth wrong proof locks it for
      good ([at_most_five_wrong_guesses]); without a credential the answer does not
      depend on the database ([no_credential_no_information]).
    - From end to end: a text sent with the client opens through its link
      exactly once ([sent_text_opens_once]), over the client, its cryptography,
      JSON in both directions, the router, the handlers and the store.
    - Round trips: create/open, submit/open, enqueue/decode, a relay code from
      Init to a connected pair, the age size functions.
    - Starting and running: a configuration that loads starts
      ([loaded_configuration_starts]), as a restart of the transition system
      with stores that keep their interfaces ([booting_refines_restart]) and
      accept what is advertised ([advertised_limits_accepted]); the publisher
      delivers every due job ([due_jobs_published]), the loops fail at nothing
      ([publisher_loop_safe], [api_fails_only_serving]), and a worker
      acknowledges only what succeeded for as long as it runs
      ([worker_acknowledges_only_success]).
    - The database keeps its constraints and the size of every inline payload
      ([database_well_typed]); an interrupted migration is completed by the next
      start ([migration_survives_interruption]).
    - Nothing leaks, nothing is lost: an object key is held until its delete
      job is queued ([no_request_object_forgotten]); jobs stay until published
      ([jobs_never_lost], [published_only_after_accept]); the reaper spares what
      is usable and reclaims what is not; reconciliation deletes orphans only;
      a finalized object has the reserved length and checksum.
    - The worker: one running attempt per job, late completions fenced, outcomes
      final, the failure budget kept, messages acknowledged only after success,
      expired leases reclaimed.
    - The limiter: the client address cannot be forged, the burst is the
      configured one in binary64 arithmetic, eviction is unobservable.
    - The relay: one sender and one receiver per session, bounded sessions and
      strikes, and the session a strike falls on, in every interleaving.
    - The client: an open overwrites nothing ([open_never_overwrites]), saves
      the whole authenticated plaintext, and otherwise leaves at most what it
      made itself ([open_saves_whole_or_nothing]), consumes only after everything that can
      fail ([open_consumes_last]), stays inside the output directory
      ([placed_inside_directory]), and accounts for what it recovered
      ([open_command_accounts]), whatever system call fails; links read back
      ([share_link_roundtrip]); flags are read in every position
      ([hoisted_flags_parse]); a body is exact ([exact_body_exact]).
    - Configuration: a loaded one satisfies its constraints and its derived
      limits are exact ([loaded_limits_exact], [trusted_proxy_exact]).
    Some theorems state behaviour the source does not intend; they carry the
    findings: [due_misses_whole_second], [max_plaintext_diverges_at_max_int64],
    [rejected_sender_overwrites], [strikes_duplicates_or_newcomers],
    [mapped_proxy_misread], [link_id_unescaped_twice], [late_terminator_kept],
    [last_flag_takes_argument], [advertised_limits_accepted],
    [reaper_interval_positive], [joined_receipt_of_another_attempt].

    ** Parameters

    Code outside [src/] is an argument, with its documented behaviour as laws:
    [Env] (clock, randomness, SQL faults; no laws, so every theorem covers every
    failure; [NoFaults] where a theorem says that an operation succeeds),
    [EventCodec] (JSON of events: a decoded value is what was encoded; the
    codecs of requests, responses and client are classes whose instances
    HttpJson.v and ClientJson.v define), the age library's parser of recipients,
    [Broker] (publishing), [JetStream] (laws [JetStreamSpec]), [Platform] and
    [Signals] (starting, cancellation), [S3] (the AWS SDK), [SqliteDate] (SQLite's
    date functions), [Internal] (the API as the worker's HTTP client sees it),
    the metrics page, the router library's path matching (law [Routes]), [Age] (the age
    library, laws [AgeSpec]), [Os] (the file system's failures, temporary names
    and resolution of paths), [Network] (the deployment as the client sees
    it, instantiated by Deployment.v), [Terminal], [Environ], [Build] and [Mime].  [StoreSpec] and
    [OptionsSpec] say that a store was built with collaborators that keep their
    interfaces; Witnesses.v builds such stores.

    ** Bounds and fuel

    - [MaxPlaintextBytes] carries the fuel [max_plaintext_inverts] proves enough
      for every limit below [2^62 - 1].
    - Trimming and splitting strings recurse with fuel equal to the length;
      parsing an IPv6 address with fuel 9, one more than its groups.
    - The JSON decoder nests at most 10000 deep, as the package does, and carries
      twice the length of the text as fuel, which JsonProofs.v proves enough.
    - A background loop takes a number of rounds; a theorem about it holds for
      every number, and [due_jobs_published] names one that is enough.
    - [Init] draws at most ten codes, and [begin] recurses once, as in the code.
    - [promptTTL] carries a step per byte of the input, which
      [prompt_ttl_answers] proves enough.
    - The limiter's theorems assume a rate below [2^52] per minute, so that every
      integer number of tokens is a float.

    ** Not modelled

    SQL parsing and query plans (each statement is a function on the tables);
    the rows of tables in an earlier format, the file name of a database and its
    pragmas; the bytes flowing through a relayed pipe; the time between rounds, signals, the
    time-outs of the HTTP server and telemetry; fused multiply-add in the
    limiter;
    the text of the messages the client prints and what package [flag] prints;
    other processes changing the client's files while it runs;
    the web front end and the deployment files, which are not Go. *)

From stdpp Require Export base tactics list gmap strings sorting.
From Stdlib Require Export ZArith Lia.

#[global] Open Scope Z_scope.

(** Names shared with the standard library that the development uses in their
    [string] sense. *)
Abbreviation strlen s := (Z.of_nat (String.length s)).

(** ** Machine integers

    Go's [int], [int64] and [time.Duration] are 64-bit two's-complement. *)
Definition wrap64 (z : Z) : Z := (z + 2 ^ 63) mod 2 ^ 64 - 2 ^ 63.

Lemma wrap64_id z : - 2 ^ 63 <= z < 2 ^ 63 -> wrap64 z = z.
Proof. intros. unfold wrap64. rewrite Z.mod_small; lia. Qed.

Lemma wrap64_range z : - 2 ^ 63 <= wrap64 z < 2 ^ 63.
Proof. unfold wrap64. pose proof (Z.mod_pos_bound (z + 2 ^ 63) (2 ^ 64)). lia. Qed.

(** ** Instants and durations

    A [time.Time] in UTC is the number of nanoseconds since the Unix epoch; a
    [time.Duration] is a 64-bit number of nanoseconds. *)
Abbreviation time := Z (only parsing).
Definition Second : Z := 1000000000.
Definition Minute : Z := 60 * Second.

(** [t.Before(u)]. *)
Definition before (t u : time) : bool := t <? u.

(** The zero [time.Time], January 1 of year 1; [t.IsZero()]. *)
Definition zero_time : time := - 62135596800 * Second.
Definition is_zero (t : time) : bool := t =? zero_time.

Lemma before_true t u : before t u = true <-> t < u.
Proof. apply Z.ltb_lt. Qed.
Lemma before_false t u : before t u = false <-> u <= t.
Proof. apply Z.ltb_ge. Qed.

(** ** Strings as byte sequences *)
Definition has_prefix (p s : string) : bool := String.prefix p s.

Lemma has_prefix_app p s : has_prefix p (p +:+ s) = true.
Proof.
  unfold has_prefix. induction p as [|c p IH]; [by destruct s|].
  simpl. by destruct (Ascii.ascii_dec c c).
Qed.

Lemma has_prefix_inv p s : has_prefix p s = true -> exists r, s = p +:+ r.
Proof.
  unfold has_prefix. revert s. induction p as [|c p IH]; intros s.
  - intros _. by exists s.
  - destruct s as [|d s]; [done|]. simpl. destruct (Ascii.ascii_dec c d) as [->|]; [|done].
    intros [r ->]%IH. by exists r.
Qed.

Lemma strlen_app (s t : string) : String.length (s +:+ t) = (String.length s + String.length t)%nat.
Proof. induction s; simpl; auto. Qed.

(** [strings.TrimSpace(s) == ""]: every rune of [s] is white space.  The bytes
    of the Unicode spaces are their UTF-8 encodings. *)
Definition chr_in (n lo hi : nat) : bool := ((lo <=? n) && (n <=? hi))%nat.
Fixpoint blank (s : string) : bool :=
  match s with
  | "" => true
  | String a r =>
      let x := Ascii.nat_of_ascii a in
      if chr_in x 9 13 || (x =? 32)%nat then blank r
      else match r with
           | String b r2 =>
               let y := Ascii.nat_of_ascii b in
               if (x =? 194)%nat && ((y =? 133)%nat || (y =? 160)%nat) then blank r2
               else match r2 with
                    | String c r3 =>
                        let z := Ascii.nat_of_ascii c in
                        if ((x =? 225) && (y =? 154) && (z =? 128))%nat
                           || ((x =? 226) && (y =? 128))%nat &&
                              (chr_in z 128 138 || chr_in z 168 169 || (z =? 175)%nat)
                           || ((x =? 226) && (y =? 129) && (z =? 159))%nat
                           || ((x =? 227) && (y =? 128) && (z =? 128))%nat
                        then blank r3 else false
                    | "" => false
                    end
           | "" => false
           end
  end.

(** ** Tactics *)

(** Split every boolean conjunction, disjunction and comparison of a hypothesis. *)
Ltac destruct_bools :=
  repeat match goal with
  | H : andb _ _ = true |- _ => apply andb_true_iff in H; destruct H
  | H : orb _ _ = false |- _ => apply orb_false_iff in H; destruct H
  | H : negb _ = true |- _ => apply negb_true_iff in H
  | H : negb _ = false |- _ => apply negb_false_iff in H
  | H : bool_decide _ = true |- _ => apply bool_decide_eq_true in H
  | H : bool_decide _ = false |- _ => apply bool_decide_eq_false in H
  | H : (_ <? _) = true |- _ => apply Z.ltb_lt in H
  | H : (_ <? _) = false |- _ => apply Z.ltb_ge in H
  | H : (_ <=? _) = true |- _ => apply Z.leb_le in H
  | H : (_ <=? _) = false |- _ => apply Z.leb_gt in H
  | H : (_ =? _) = true |- _ => apply Z.eqb_eq in H
  | H : (_ =? _) = false |- _ => apply Z.eqb_neq in H
  | H : before _ _ = true |- _ => apply before_true in H
  | H : before _ _ = false |- _ => apply before_false in H
  end.

(** The hint database of the development: closure of the frame and invariant
    predicates under the monad's combinators. *)
Create HintDb flick discriminated.
#[export] Hint Constants Opaque : flick.
