(* ===== verification/GoStrings.v ===== *)
(** * Go's [strings] package, on byte strings

    The functions of [strings] and of [net/http.Header] the program uses. *)

From S2P Require Import Prelude.

(** [strings.TrimSpace] of a byte string: leading spaces are dropped rune by
    rune, and a trailing part that is all space is cut. *)
Definition space_width (s : string) : nat :=
  match s with
  | String.String a r =>
      if blank (String.String a "") then 1
      else match r with
           | String.String b r2 =>
               if blank (String.String a (String.String b "")) then 2
               else match r2 with
                    | String.String c _ => if blank (String.String a (String.String b (String.String c ""))) then 3 else 0
                    | "" => 0
                    end
           | "" => 0
           end
  | "" => 0
  end%nat.
Fixpoint drop_bytes (n : nat) (s : string) : string :=
  match n, s with
  | S n, String.String _ r => drop_bytes n r
  | _, _ => s
  end.
Fixpoint trim_left (fuel : nat) (s : string) : string :=
  match fuel, space_width s with
  | S fuel, S n => trim_left fuel (drop_bytes (S n) s)
  | _, _ => s
  end.
Fixpoint trim_right (s : string) : string :=
  if blank s then ""
  else match s with "" => "" | String.String a r => String.String a (trim_right r) end.
Definition TrimSpace (s : string) : string := trim_right (trim_left (String.length s) s).

(** [strings.ReplaceAll(s, c, "")]. *)
Fixpoint remove_byte (c : Ascii.ascii) (s : string) : string :=
  match s with
  | "" => ""
  | String.String a r => if Ascii.eqb a c then remove_byte c r else String.String a (remove_byte c r)
  end.

(** [strings.Split(s, sep)] for a one-byte separator. *)
Fixpoint split_on (c : Ascii.ascii) (s : string) : list string :=
  match s with
  | "" => [""]
  | String.String a r =>
      if Ascii.eqb a c then "" :: split_on c r
      else match split_on c r with
           | [] => [String.String a ""]
           | x :: l => String.String a x :: l
           end
  end.

(** [strings.Cut(s, sep)] for a one-byte separator; without it the whole
    string comes first. *)
Fixpoint cut_on (c : Ascii.ascii) (s : string) : string * string * bool :=
  match s with
  | "" => ("", "", false)
  | String.String a r =>
      if Ascii.eqb a c then ("", r, true)
      else let '(x, y, found) := cut_on c r in (String.String a x, y, found)
  end.

(** [strings.TrimRight(s, c)] for a one-byte cutset. *)
Fixpoint trim_right_byte (c : Ascii.ascii) (s : string) : string :=
  match s with
  | "" => ""
  | String.String a r =>
      match trim_right_byte c r with
      | "" => if Ascii.eqb a c then "" else String.String a ""
      | r' => String.String a r'
      end
  end.

(** [strings.EqualFold(s, t)] when [t] is an ASCII text without the letters K
    and S, the only ASCII letters with a fold outside ASCII. *)
Definition lower (c : Ascii.ascii) : Ascii.ascii :=
  let n := Ascii.nat_of_ascii c in
  if chr_in n 65 90 then Ascii.ascii_of_nat (n + 32) else c.
Fixpoint to_lower (s : string) : string :=
  match s with "" => "" | String.String a r => String.String (lower a) (to_lower r) end.
Definition EqualFold (s t : string) : bool := bool_decide (to_lower s = to_lower t).

(** [strings.EqualFold(s, t)] for any ASCII [t]: the long s and the Kelvin sign
    are the only runes outside ASCII that fold to an ASCII letter. *)
Fixpoint fold_ascii (s : string) : string :=
  match s with
  | "" => ""
  | String.String a r =>
      let x := Ascii.nat_of_ascii a in
      match r with
      | String.String b r2 =>
          let y := Ascii.nat_of_ascii b in
          if ((x =? 197) && (y =? 191))%nat then String.String (Ascii.ascii_of_nat 115) (fold_ascii r2)
          else match r2 with
               | String.String c r3 =>
                   if ((x =? 226) && (y =? 132) && (Ascii.nat_of_ascii c =? 170))%nat
                   then String.String (Ascii.ascii_of_nat 107) (fold_ascii r3)
                   else String.String (lower a) (fold_ascii r)
               | "" => String.String (lower a) (fold_ascii r)
               end
      | "" => String.String (lower a) ""
      end
  end.
Definition EqualFoldASCII (s t : string) : bool := bool_decide (fold_ascii s = fold_ascii t).

(** [strings.Contains(s, c)] for one byte. *)
Fixpoint contains_byte (c : Ascii.ascii) (s : string) : bool :=
  match s with "" => false | String.String a r => Ascii.eqb a c || contains_byte c r end.

Definition comma : Ascii.ascii := Ascii.ascii_of_nat 44.
Definition slash : Ascii.ascii := Ascii.ascii_of_nat 47.
Definition space : Ascii.ascii := Ascii.ascii_of_nat 32.

(** ** Lemmas *)
Lemma split_on_app c s t : split_on c (s +:+ String.String c t) = split_on c s ++ split_on c t.
Proof.
  induction s as [|a s IH]; simpl; [by rewrite Ascii.eqb_refl|].
  rewrite IH. destruct (Ascii.eqb a c); [done|]. destruct (split_on c s) eqn:E; [|done].
  exfalso. clear IH. destruct s as [|b s]; simpl in E; [done|]. destruct (Ascii.eqb b c); [done|]. by destruct (split_on c s).
Qed.

(** ** Strings of visible ASCII have nothing to trim *)
Fixpoint graphic (s : string) : Prop :=
  match s with "" => True | String.String a r => (33 <= Ascii.nat_of_ascii a <= 127)%nat /\ graphic r end.

Lemma blank_graphic a s : (33 <= Ascii.nat_of_ascii a <= 127)%nat -> blank (String.String a s) = false.
Proof.
  intros H. cbn [blank]. unfold chr_in. revert H. generalize (Ascii.nat_of_ascii a) as x. intros x H.
  rewrite (proj2 (Nat.leb_gt x 13)), andb_false_r by lia.
  rewrite !(proj2 (Nat.eqb_neq x _)) by lia. by destruct s as [|b [|d s]].
Qed.

Lemma TrimSpace_graphic s : graphic s -> TrimSpace s = s.
Proof.
  intros Hs. unfold TrimSpace. assert (E : forall n, trim_left n s = s).
  { intros [|n]; cbn [trim_left]; [done|]. assert (Ew : space_width s = 0%nat); [|by rewrite Ew].
    destruct s as [|a [|b [|d s]]]; [done|..]; destruct Hs as [Ha _]; unfold space_width; by rewrite !blank_graphic. }
  rewrite E. clear E. induction s as [|a s IH]; [done|]. destruct Hs as [Ha Hs]. cbn [trim_right].
  by rewrite blank_graphic, IH.
Qed.
