(* ===== verification/Float64.v ===== *)
(** * Go's [float64]

    Binary64 arithmetic with round to nearest even, as the executable
    specification of the Standard Library ([SpecFloat]), at the operations the
    rate limiter uses: conversion from integers, sum, difference, product,
    quotient and comparison.

    The lemmas place a result between representable numbers: a rounded value
    is at least every representable number its exact value is at least, and at
    most every representable number its exact value is at most.  Results that
    are representable are therefore exact.  [Fin x v] says that [x] is the
    non-negative finite float whose value is [v] units of [2^-base]. *)

From S2P Require Import Prelude.
From Stdlib Require Export Floats.SpecFloat.

Abbreviation float64 := spec_float.
Definition f_prec : Z := 53.
Definition f_emax : Z := 1024.
Definition f_emin : Z := -1074.

Definition of_int (z : Z) : float64 := binary_normalize f_prec f_emax z 0 false.
Definition f_add : float64 -> float64 -> float64 := SFadd f_prec f_emax.
Definition f_sub : float64 -> float64 -> float64 := SFsub f_prec f_emax.
Definition f_mul : float64 -> float64 -> float64 := SFmul f_prec f_emax.
Definition f_div : float64 -> float64 -> float64 := SFdiv f_prec f_emax.
Definition f_lt : float64 -> float64 -> bool := SFltb.

Abbreviation fexp64 := (fexp f_prec f_emax).
Lemma fexp64_eq e : fexp64 e = Z.max (e - 53) (-1074).
Proof. done. Qed.

(** ** Digits *)
Lemma digits_bounds p : 2 ^ (Z.pos (digits2_pos p) - 1) <= Z.pos p < 2 ^ Z.pos (digits2_pos p).
Proof.
  induction p as [p IH|p IH|]; simpl digits2_pos; [| |done];
    rewrite Pos2Z.inj_succ, Z.sub_1_r, Z.pred_succ, Z.pow_succ_r by lia;
    (replace (2 ^ Z.pos (digits2_pos p)) with (2 * 2 ^ (Z.pos (digits2_pos p) - 1)) in *
      by (rewrite <- Z.pow_succ_r by lia; f_equal; lia)); lia.
Qed.
Lemma digits_ge p n : 0 <= n -> 2 ^ n <= Z.pos p -> n < Z.pos (digits2_pos p).
Proof.
  intros Hn H. pose proof (digits_bounds p) as [_ Hb].
  apply (Z.pow_lt_mono_r_iff 2); lia.
Qed.
Lemma digits_le p n : 0 <= n -> Z.pos p < 2 ^ n -> Z.pos (digits2_pos p) <= n.
Proof.
  intros Hn H. pose proof (digits_bounds p) as [Hb _].
  assert (Z.pos (digits2_pos p) - 1 < n); [|lia]. apply (Z.pow_lt_mono_r_iff 2); lia.
Qed.

(** ** Shifting right *)
Lemma iter_pos_nat {A} (f : A -> A) n x : SpecFloat.iter_pos f n x = Nat.iter (Pos.to_nat n) f x.
Proof.
  revert x. induction n as [n IH|n IH|]; intros x; cbn [SpecFloat.iter_pos]; [| |done]; rewrite !IH.
  - by rewrite Pos2Nat.inj_xI, Nat.iter_succ_r, Nat.mul_succ_l, Nat.mul_1_l, Nat.iter_add.
  - by rewrite Pos2Nat.inj_xO, Nat.mul_succ_l, Nat.mul_1_l, Nat.iter_add.
Qed.

(** What is shifted out is zero exactly if no bit of it was set. *)
Definition exact_rec (x : shr_record) : bool := negb (shr_r x) && negb (shr_s x).

Lemma shr_1_spec x :
  0 <= shr_m x ->
  shr_m (shr_1 x) = shr_m x / 2 /\ exact_rec (shr_1 x) = exact_rec x && (shr_m x mod 2 =? 0).
Proof.
  destruct x as [m r s]. simpl. intros Hm. destruct m as [|[p|p|]|p]; simpl in *; try lia.
  - split; [done|]. unfold exact_rec. simpl. by destruct r, s.
  - rewrite (Pos2Z.inj_xI p). split; [Z.div_mod_to_equations; lia|].
    replace ((2 * Z.pos p + 1) mod 2 =? 0) with false by (symmetry; apply Z.eqb_neq; Z.div_mod_to_equations; lia).
    unfold exact_rec. simpl. by rewrite andb_false_r.
  - rewrite (Pos2Z.inj_xO p). split; [Z.div_mod_to_equations; lia|].
    replace ((2 * Z.pos p) mod 2 =? 0) with true by (symmetry; apply Z.eqb_eq; Z.div_mod_to_equations; lia).
    unfold exact_rec. simpl. by destruct r, s.
  - split; [done|]. unfold exact_rec. simpl. by rewrite andb_false_r.
Qed.

Lemma shr_n_spec n x :
  0 <= shr_m x ->
  shr_m (Nat.iter n shr_1 x) = shr_m x / 2 ^ Z.of_nat n /\
  exact_rec (Nat.iter n shr_1 x) = exact_rec x && (shr_m x mod 2 ^ Z.of_nat n =? 0).
Proof.
  intros Hx. induction n as [|n [IH1 IH2]].
  - simpl. rewrite Z.div_1_r, Z.mod_1_r. by rewrite andb_true_r.
  - rewrite Nat.iter_succ, Nat2Z.inj_succ, Z.pow_succ_r by lia.
    assert (0 < 2 ^ Z.of_nat n) by (apply Z.pow_pos_nonneg; lia).
    destruct (shr_1_spec (Nat.iter n shr_1 x)) as [-> ->]; [rewrite IH1; apply Z.div_pos; lia|].
    rewrite IH1, IH2. split; [rewrite Z.div_div by lia; f_equal; lia|].
    rewrite <- andb_assoc. f_equal. rewrite (Z.mul_comm 2), Z.rem_mul_r by lia.
    pose proof (Z.mod_pos_bound (shr_m x) (2 ^ Z.of_nat n)).
    pose proof (Z.mod_pos_bound (shr_m x / 2 ^ Z.of_nat n) 2).
    destruct (Z.eqb_spec (shr_m x mod 2 ^ Z.of_nat n) 0) as [->|]; simpl.
    + destruct (Z.eqb_spec (shr_m x / 2 ^ Z.of_nat n mod 2) 0) as [->|];
        symmetry; [apply Z.eqb_eq|apply Z.eqb_neq]; nia.
    + symmetry. apply Z.eqb_neq. nia.
Qed.

Lemma shr_spec x e n :
  0 <= shr_m x ->
  let k := Z.max 0 n in
  (shr x e n).2 = e + k /\ shr_m (shr x e n).1 = shr_m x / 2 ^ k /\
  exact_rec (shr x e n).1 = exact_rec x && (shr_m x mod 2 ^ k =? 0).
Proof.
  intros Hx k. unfold shr, k. destruct n as [|n|n]; simpl.
  1,3: rewrite Z.div_1_r, Z.mod_1_r, andb_true_r; split_and!; [lia|done..].
  rewrite iter_pos_nat. destruct (shr_n_spec (Pos.to_nat n) x Hx) as [-> ->].
  rewrite positive_nat_Z. split_and!; done.
Qed.

(** ** Values, in units of [2^-base] *)
Definition base : Z := 4000.
Definition V (m e : Z) : Z := m * 2 ^ (e + base).

Lemma V_shift m e n : 0 <= n -> - base <= e -> V (m * 2 ^ n) e = V m (e + n).
Proof.
  intros. unfold V. rewrite <- Z.mul_assoc, <- Z.pow_add_r by lia. do 2 f_equal. lia.
Qed.
Lemma V_mono m m' e : m <= m' -> V m e <= V m' e.
Proof. intros. unfold V. apply Z.mul_le_mono_nonneg_r; [|done]. by apply Z.pow_nonneg. Qed.
Lemma V_cancel m m' e : - base <= e -> V m e <= V m' e -> m <= m'.
Proof. intros He. unfold V. intros H. apply Z.mul_le_mono_pos_r in H; [done|]. apply Z.pow_pos_nonneg; lia. Qed.
Lemma V_nonneg m e : 0 <= m -> 0 <= V m e.
Proof. intros. unfold V. apply Z.mul_nonneg_nonneg; [done|]. by apply Z.pow_nonneg. Qed.

(** A representable number, and the numbers below a wide mantissa. *)
Definition rep (k f : Z) : Prop := 0 <= k < 2 ^ 53 /\ -1074 <= f <= 971.

Lemma V_below k f q e : rep k f -> f < e -> 2 ^ 52 <= q -> V k f < V q e.
Proof.
  intros [Hk Hf] He Hq. apply Z.lt_le_trans with (V (2 ^ 53) f).
  - unfold V. apply Z.mul_lt_mono_pos_r; [apply Z.pow_pos_nonneg; unfold base; lia|lia].
  - rewrite <- (Z.mul_1_l (2 ^ 53)), V_shift by (unfold base; lia).
    replace (f + 53) with ((f + 1) + 52) by lia. rewrite <- V_shift by (unfold base; lia). rewrite Z.mul_1_l.
    replace e with ((f + 1) + (e - (f + 1))) by lia. rewrite <- (V_shift q) by (unfold base; lia).
    apply V_mono. assert (1 <= 2 ^ (e - (f + 1))) by (apply (Z.pow_le_mono_r 2 0); lia). nia.
Qed.

(** ** Rounding *)
Definition wide (m e : Z) : Prop := e <= fexp64 (Zdigits2 m + e).

Lemma round_ne_bounds q l :
  q <= round_nearest_even q l <= q + 1 /\ (l = loc_Exact -> round_nearest_even q l = q).
Proof.
  destruct l as [|[]]; simpl; try (split; [lia|done]). destruct (Z.even q); split; (lia || done).
Qed.

(** A wide mantissa is cut to at most 53 bits, and rounded. *)
Lemma cut_spec m e l :
  0 < m -> wide m e ->
  exists q e', 0 <= q <= 2 ^ 53 /\ e <= e' /\ -1074 <= e' /\ (e' = -1074 \/ 2 ^ 52 <= m / 2 ^ (e' - e)) /\
    (q < 2 ^ 52 -> e' = -1074) /\ m / 2 ^ (e' - e) <= q <= m / 2 ^ (e' - e) + 1 /\
    (l = loc_Exact -> m mod 2 ^ (e' - e) = 0 -> q = m / 2 ^ (e' - e)) /\
    (shr_fexp f_prec f_emax m e l).2 = e' /\
    round_nearest_even (shr_m (shr_fexp f_prec f_emax m e l).1)
      (loc_of_shr_record (shr_fexp f_prec f_emax m e l).1) = q.
Proof.
  intros Hm Hw. unfold wide in Hw. unfold shr_fexp.
  assert (Hrec : shr_m (shr_record_of_loc m l) = m /\ (l = loc_Exact -> exact_rec (shr_record_of_loc m l) = true))
    by (destruct l as [|[]]; done).
  destruct Hrec as [Hrm Hre].
  destruct (shr_spec (shr_record_of_loc m l) e (fexp64 (Zdigits2 m + e) - e)) as (He & Hq & Hx); [lia|].
  rewrite Hrm in *. set (e' := fexp64 (Zdigits2 m + e)) in *.
  rewrite (Z.max_r 0) in * by lia. rewrite Hq, He. destruct m as [|p|p]; [lia| |lia]. simpl Zdigits2 in *.
  pose proof (digits_bounds p) as [Hl Hu]. set (d := Z.pos (digits2_pos p)) in *.
  assert (He' : e' = Z.max (d + e - 53) (-1074)) by (unfold e'; rewrite fexp64_eq; lia).
  assert (H2 : 0 < 2 ^ (e' - e)) by (apply Z.pow_pos_nonneg; lia).
  set (fl := Z.pos p / 2 ^ (e' - e)) in *.
  assert (Hfl : fl < 2 ^ 53).
  { apply Z.div_lt_upper_bound; [done|]. rewrite <- Z.pow_add_r by lia.
    eapply Z.lt_le_trans; [exact Hu|]. apply Z.pow_le_mono_r; lia. }
  assert (Hfl2 : e' = -1074 \/ 2 ^ 52 <= fl).
  { destruct (decide (e' = -1074)) as [|Hne]; [by left|right]. assert (E' : e' = d + e - 53) by lia.
    apply Z.div_le_lower_bound; [done|]. rewrite <- Z.pow_add_r by lia.
    replace (e' - e + 52) with (d - 1) by lia. done. }
  assert (Hfl0 : 0 <= fl) by (apply Z.div_pos; lia).
  set (x := (shr _ _ _).1) in *.
  destruct (round_ne_bounds fl (loc_of_shr_record x)) as [Hb Hex].
  exists (round_nearest_even fl (loc_of_shr_record x)), e'.
  split_and!; try lia; try done.
  intros -> Hmod. apply Hex. rewrite Hmod, (Hre eq_refl) in Hx. unfold exact_rec in Hx. simpl in Hx.
  destruct x as [xm [] []]; simpl in *; done.
Qed.

(** The second cut of the rounded mantissa loses nothing. *)
Lemma recut_spec q e' :
  0 < q <= 2 ^ 53 -> -1074 <= e' -> (q < 2 ^ 52 -> e' = -1074) ->
  exists p er, (shr_fexp f_prec f_emax q e' loc_Exact).2 = er /\
    shr_m (shr_fexp f_prec f_emax q e' loc_Exact).1 = Z.pos p /\
    V (Z.pos p) er = V q e' /\ canonical_mantissa f_prec f_emax p er = true /\ -1074 <= er.
Proof.
  intros Hq He Hlow. unfold shr_fexp.
  destruct (shr_spec (shr_record_of_loc q loc_Exact) e' (fexp64 (Zdigits2 q + e') - e')) as (E2 & E1 & _); [simpl; lia|].
  rewrite E1, E2. clear E1 E2. simpl shr_m. destruct q as [|q|q]; [lia| |lia]. simpl Zdigits2.
  unfold canonical_mantissa. rewrite !fexp64_eq.
  destruct (decide (Z.pos q = 2 ^ 53)) as [E|E].
  - assert (q = (2 ^ 53)%positive) as -> by (apply (inj Z.pos); exact E). exists (2 ^ 52)%positive, (e' + 1).
    change (digits2_pos (2 ^ 53)) with 54%positive. change (digits2_pos (2 ^ 52)) with 53%positive.
    replace (Z.max 0 (Z.max (54 + e' - 53) (-1074) - e')) with 1 by lia.
    split_and!; [done|done| |apply Z.eqb_eq; rewrite ?fexp64_eq; lia|lia].
    change (Z.pos (2 ^ 53)) with (Z.pos (2 ^ 52) * 2 ^ 1). rewrite V_shift by (unfold base; lia). done.
  - assert (Hd : Z.pos (digits2_pos q) <= 53) by (apply digits_le; lia).
    assert (Hf : Z.max (Z.pos (digits2_pos q) + e' - 53) (-1074) = e').
    { destruct (decide (Z.pos q < 2 ^ 52)) as [Hs|Hs]; [rewrite (Hlow Hs); lia|].
      assert (52 < Z.pos (digits2_pos q)) by (apply digits_ge; lia). lia. }
    exists q, e'. rewrite Hf, Z.sub_diag, Z.max_id, Z.div_1_r, Z.add_0_r.
    split_and!; [done..| |done]. rewrite ?fexp64_eq, Hf. apply Z.eqb_refl.
Qed.

(** A float whose sign is [s] and whose magnitude is [v]. *)
Definition Mag (s : bool) (x : float64) (v : Z) : Prop :=
  match x with
  | S754_zero s' => s' = s /\ v = 0
  | S754_finite s' m e => s' = s /\ v = V (Z.pos m) e /\ canonical_mantissa f_prec f_emax m e = true /\ -1074 <= e <= 971
  | _ => False
  end.
Abbreviation Fin := (Mag false).

Lemma Mag_rep s x v : Mag s x v -> exists k f, rep k f /\ v = V k f.
Proof.
  destruct x as [s'| | |s' m e]; simpl; try done.
  - intros [_ ->]. exists 0, 0. split; [unfold rep; lia|done].
  - intros (_ & -> & Hc & He). exists (Z.pos m), e. split; [|done]. split; [|done]. split; [lia|].
    apply Z.eqb_eq in Hc. rewrite fexp64_eq in Hc. pose proof (digits_bounds m) as [_ Hu].
    eapply Z.lt_le_trans; [exact Hu|]. apply Z.pow_le_mono_r; lia.
Qed.
Lemma Mag_nonneg s x v : Mag s x v -> 0 <= v.
Proof. intros (k & f & [? _] & ->)%Mag_rep. apply V_nonneg. lia. Qed.

(** Rounding, between representable numbers. *)
Lemma round_aux_between s m e l :
  0 < m -> wide m e -> - base <= e ->
  let r := binary_round_aux f_prec f_emax s m e l in
  (exists v, Mag s r v /\ (forall k f, rep k f -> V k f <= V m e -> V k f <= v) /\
     (l = loc_Exact -> forall k f, rep k f -> V m e <= V k f -> v <= V k f)) \/
  (r = S754_infinity s /\ (l = loc_Exact -> forall k f, rep k f -> V k f < V m e)).
Proof.
  intros Hm Hw Hb r. destruct (cut_spec m e l Hm Hw) as (q & e' & Hq & Hee & He & Hwide & Hlow & Hfl & Hex & E2 & E1).
  assert (H2 : 0 < 2 ^ (e' - e)) by (apply Z.pow_pos_nonneg; lia).
  assert (HV : forall x, V x e' = V (x * 2 ^ (e' - e)) e) by (intros x; rewrite V_shift by lia; f_equal; lia).
  pose proof (Z.div_mod m (2 ^ (e' - e)) ltac:(lia)) as Hdm.
  pose proof (Z.mod_pos_bound m (2 ^ (e' - e)) H2) as Hmod.
  assert (Hlo : forall k f, rep k f -> V k f <= V m e -> V k f <= V q e').
  { intros k f Hr Hle. destruct (decide (f < e')) as [Hfe|Hfe].
    - destruct Hwide as [->|Hwide]; [unfold rep in Hr; lia|].
      apply Z.lt_le_incl, Z.lt_le_trans with (V (m / 2 ^ (e' - e)) e'); [by apply V_below|]. apply V_mono. lia.
    - assert (Ek : V k f = V (k * 2 ^ (f - e')) e') by (rewrite V_shift by (unfold base; lia); f_equal; lia).
      rewrite Ek in *. apply V_mono. rewrite HV in Hle. apply V_cancel in Hle; [|done]. nia. }
  assert (Hhi : l = loc_Exact -> forall k f, rep k f -> V m e <= V k f -> V q e' <= V k f).
  { intros El k f Hr Hle. destruct (decide (m mod 2 ^ (e' - e) = 0)) as [E0|E0].
    - rewrite HV, (Hex El E0). etrans; [|exact Hle]. apply V_mono. lia.
    - destruct (decide (f < e')) as [Hfe|Hfe].
      + destruct Hwide as [->|Hwide]; [unfold rep in Hr; lia|].
        pose proof (V_below _ _ _ _ Hr Hfe Hwide) as Hlt. rewrite HV in Hlt.
        assert (V (m / 2 ^ (e' - e) * 2 ^ (e' - e)) e <= V m e) by (apply V_mono; lia). lia.
      + assert (Ek : V k f = V (k * 2 ^ (f - e')) e') by (rewrite V_shift by (unfold base; lia); f_equal; lia).
        rewrite Ek in *. apply V_mono. rewrite HV in Hle. apply V_cancel in Hle; [|done]. nia. }
  assert (Er : r = match shr_m (shr_fexp f_prec f_emax q e' loc_Exact).1 with
                   | Z0 => S754_zero s
                   | Z.pos p => if (shr_fexp f_prec f_emax q e' loc_Exact).2 <=? 971
                                then S754_finite s p (shr_fexp f_prec f_emax q e' loc_Exact).2 else S754_infinity s
                   | Z.neg _ => S754_nan end).
  { unfold r, binary_round_aux. destruct (shr_fexp f_prec f_emax m e l) as [x1 y1]. simpl in E1, E2. subst y1. rewrite E1.
    by destruct (shr_fexp f_prec f_emax q e' loc_Exact). }
  destruct (decide (q = 0)) as [->|Hq0].
  - left. exists 0. rewrite Er. assert (Ez : shr_m (shr_fexp f_prec f_emax 0 e' loc_Exact).1 = 0).
    { unfold shr_fexp. destruct (shr_spec (shr_record_of_loc 0 loc_Exact) e' (fexp64 (Zdigits2 0 + e') - e')) as (_ & -> & _);
        [done|]. by rewrite Z.div_0_l by (apply Z.pow_nonzero; lia). }
    rewrite Ez. split_and!; [done| |]; intros; [by apply (Hlo k f)|]. apply V_nonneg. unfold rep in *. lia.
  - destruct (recut_spec q e') as (p & er & E2' & E1' & HVq & Hc & Her); [lia|done|done|].
    rewrite E1', E2' in Er. destruct (Z.leb_spec er 971) as [Hle|Hgt].
    + left. exists (V q e'). rewrite Er. split_and!; [|done|done]. simpl. split_and!; [done|congruence|done|lia..].
    + right. split; [done|]. intros El k f Hr.
      destruct (decide (V m e <= V k f)) as [Hle|]; [|lia]. specialize (Hhi El k f Hr Hle). rewrite <- HVq in Hhi.
      assert (2 ^ 52 <= Z.pos p).
      { apply Z.eqb_eq in Hc. rewrite fexp64_eq in Hc. pose proof (digits_bounds p) as [Hl _].
        etrans; [|exact Hl]. apply Z.pow_le_mono_r; lia. }
      pose proof (V_below k f (Z.pos p) er Hr). unfold rep in Hr. lia.
Qed.

(** ** Operations *)

(** [x] is at least [L], infinity included. *)
Definition AtLeast (L : Z) (x : float64) : Prop := (exists u, Fin x u /\ L <= u) \/ x = S754_infinity false.

(** [x] is the rounding of [v]. *)
Definition Rounds (v : Z) (x : float64) : Prop :=
  (exists u, Fin x u /\ (forall k f, rep k f -> V k f <= v -> V k f <= u) /\
     (forall k f, rep k f -> v <= V k f -> u <= V k f)) \/
  (x = S754_infinity false /\ forall k f, rep k f -> V k f < v).

Lemma Rounds_exact k f x : rep k f -> Rounds (V k f) x -> Fin x (V k f).
Proof.
  intros Hr [(u & Hu & Hlo & Hhi)|[_ H]]; [|specialize (H k f Hr); lia].
  specialize (Hlo k f Hr). specialize (Hhi k f Hr). replace (V k f) with u by lia. done.
Qed.
Lemma Rounds_at_least v k f x : rep k f -> V k f <= v -> Rounds v x -> AtLeast (V k f) x.
Proof. intros Hr Hle [(u & Hu & Hlo & _)|[-> _]]; [left; eauto|by right]. Qed.
Lemma Rounds_at_most v k f x : rep k f -> v <= V k f -> Rounds v x -> exists u, Fin x u /\ u <= V k f.
Proof. intros Hr Hle [(u & Hu & _ & Hhi)|[_ H]]; [eauto|specialize (H k f Hr); lia]. Qed.
Lemma Rounds_Fin x v : Fin x v -> Rounds v x.
Proof. intros H. left. eauto. Qed.

Lemma iter_xO p d : Z.pos (Pos.iter xO p d) = Z.pos p * 2 ^ Z.pos d.
Proof.
  revert p. induction d as [|d IH] using Pos.peano_ind; intros p; [simpl; lia|].
  rewrite Pos.iter_succ, Pos2Z.inj_xO, IH, Pos2Z.inj_succ, Z.pow_succ_r by lia. lia.
Qed.
Lemma digits_iter_xO p d : Z.pos (digits2_pos (Pos.iter xO p d)) = Z.pos (digits2_pos p) + Z.pos d.
Proof.
  induction d as [|d IH] using Pos.peano_ind; [simpl; lia|]. rewrite Pos.iter_succ. simpl. lia.
Qed.

Lemma shl_align_spec p e e' :
  - base <= e' ->
  let '(q, f) := shl_align p e e' in
  f = Z.min e e' /\ V (Z.pos q) f = V (Z.pos p) e /\ Z.pos (digits2_pos q) + f = Z.pos (digits2_pos p) + e.
Proof.
  intros He. unfold shl_align. destruct (e' - e) as [|d|d] eqn:E; [split_and!; [lia|done..]|split_and!; [lia|done..]|].
  split_and!; [lia| |rewrite digits_iter_xO; lia]. rewrite iter_xO, V_shift by lia. f_equal. lia.
Qed.

Lemma binary_round_spec s p e :
  - base <= e ->
  let r := binary_round f_prec f_emax s p e in
  (exists v, Mag s r v /\ (forall k f, rep k f -> V k f <= V (Z.pos p) e -> V k f <= v) /\
     (forall k f, rep k f -> V (Z.pos p) e <= V k f -> v <= V k f)) \/
  (r = S754_infinity s /\ forall k f, rep k f -> V k f < V (Z.pos p) e).
Proof.
  intros He r. unfold r, binary_round.
  pose proof (shl_align_spec p e (fexp64 (Z.pos (digits2_pos p) + e))) as H.
  destruct (shl_align _ _ _) as [q f]. destruct H as (Ef & EV & Ed); [rewrite fexp64_eq; unfold base; lia|].
  rewrite <- EV. destruct (round_aux_between s (Z.pos q) f loc_Exact) as [(v & H1 & H2 & H3)|[H1 H2]]; [lia|..].
  - unfold wide. simpl Zdigits2. rewrite Ed. lia.
  - rewrite Ef, fexp64_eq. unfold base in *. lia.
  - left. exists v. split_and!; auto.
  - right. split; auto.
Qed.

Lemma normalize_Rounds z e : 0 <= z -> - base <= e -> Rounds (V z e) (binary_normalize f_prec f_emax z e false).
Proof.
  intros Hz He. destruct z as [|p|p]; [|by apply binary_round_spec|lia]. apply Rounds_Fin. simpl. by split.
Qed.

Lemma of_int_exact z : 0 <= z < 2 ^ 53 -> Fin (of_int z) (V z 0).
Proof. intros. apply Rounds_exact; [unfold rep; lia|]. apply normalize_Rounds; [lia|unfold base; lia]. Qed.

Lemma V_align p e ez : - base <= ez <= e -> V (Z.pos (shl_align p e ez).1) ez = V (Z.pos p) e.
Proof.
  intros. pose proof (shl_align_spec p e ez) as H'. destruct (shl_align p e ez) as [q f]. simpl.
  destruct H' as (-> & <- & _); [lia|]. by rewrite Z.min_r by lia.
Qed.
Lemma V_add m n e : V (m + n) e = V m e + V n e.
Proof. unfold V. lia. Qed.
Lemma V_sub m n e : V (m - n) e = V m e - V n e.
Proof. unfold V. lia. Qed.

Lemma f_add_spec x y v w : Fin x v -> Fin y w -> Rounds (v + w) (f_add x y).
Proof.
  unfold f_add. destruct x as [s| | |s m e]; simpl; try done; destruct y as [s'| | |s' m' e']; simpl; try done.
  - intros [-> ->] [-> ->]. apply Rounds_Fin. done.
  - intros [-> ->] H. rewrite Z.add_0_l. by apply Rounds_Fin.
  - intros H [-> ->]. rewrite Z.add_0_r. by apply Rounds_Fin.
  - intros (-> & -> & _ & He) (-> & -> & _ & He'). cbn [cond_Zopp].
    rewrite <- (V_align m e (Z.min e e')), <- (V_align m' e' (Z.min e e')), <- V_add by (unfold base; lia).
    apply normalize_Rounds; [lia|unfold base; lia].
Qed.

Lemma f_sub_spec x y v w : Fin x v -> Fin y w -> w <= v -> Rounds (v - w) (f_sub x y).
Proof.
  unfold f_sub. destruct x as [s| | |s m e]; simpl; try done; destruct y as [s'| | |s' m' e']; simpl; try done.
  - intros [-> ->] [-> ->] _. apply Rounds_Fin. done.
  - intros [-> ->] (_ & -> & _ & He) H. exfalso. unfold V in H.
    assert (0 < 2 ^ (e' + base)) by (apply Z.pow_pos_nonneg; unfold base; lia). nia.
  - intros H [-> ->] _. rewrite Z.sub_0_r. by apply Rounds_Fin.
  - intros (-> & -> & _ & He) (-> & -> & _ & He') Hle. cbn [cond_Zopp].
    rewrite <- (V_align m e (Z.min e e')), <- (V_align m' e' (Z.min e e')) in Hle |- * by (unfold base; lia).
    rewrite <- V_sub. apply normalize_Rounds; [|unfold base; lia].
    apply V_cancel in Hle; [lia|unfold base; lia].
Qed.

Lemma digits_mul p q : Z.pos (digits2_pos p) + Z.pos (digits2_pos q) - 1 <= Z.pos (digits2_pos (p * q)).
Proof.
  pose proof (digits_bounds p) as [Hp _]. pose proof (digits_bounds q) as [Hq _].
  assert (Z.pos (digits2_pos p) - 1 + (Z.pos (digits2_pos q) - 1) < Z.pos (digits2_pos (p * q))); [|lia].
  apply digits_ge; [lia|]. rewrite Z.pow_add_r by lia. rewrite Pos2Z.inj_mul. apply Z.mul_le_mono_nonneg; lia.
Qed.
Lemma canonical_cases m e : canonical_mantissa f_prec f_emax m e = true ->
  Z.pos (digits2_pos m) <= 53 /\ (Z.pos (digits2_pos m) = 53 \/ e = -1074).
Proof. intros Hc%Z.eqb_eq. rewrite fexp64_eq in Hc. lia. Qed.

Lemma V_mul m e n f : - base <= e -> - base <= f -> - base <= e + f ->
  V m e * V n f = V (m * n) (e + f) * 2 ^ base.
Proof.
  intros. unfold V.
  assert (2 ^ (e + f + base) * 2 ^ base = 2 ^ (e + base) * 2 ^ (f + base)) as E.
  { rewrite <- !Z.pow_add_r by (unfold base in *; lia). f_equal. lia. }
  rewrite <- (Z.mul_assoc (m * n)), E. ring.
Qed.

Lemma f_mul_at_least x y L M k f :
  0 < L -> 0 < M -> AtLeast L x -> AtLeast M y -> rep k f -> V k f * 2 ^ base <= L * M -> AtLeast (V k f) (f_mul x y).
Proof.
  intros HL HM Hx Hy Hr Hle. unfold f_mul.
  destruct Hx as [(u & Hu & Hul)| ->], Hy as [(v & Hv & Hvl)| ->]; [| | |by right].
  2:{ destruct x as [s| | |s m e]; try done; destruct Hu; subst; [lia|]. by right. }
  2:{ destruct y as [s| | |s m e]; try done; destruct Hv; subst; [lia|]. by right. }
  destruct x as [s| | |s m e]; try done; [destruct Hu; subst; lia|].
  destruct y as [s'| | |s' m' e']; try done; [destruct Hv; subst; lia|].
  destruct Hu as (-> & -> & Hc & He), Hv as (-> & -> & Hc' & He'). simpl.
  assert (Hb : V k f <= V (Z.pos (m * m')) (e + e')).
  { assert (V (Z.pos m) e * V (Z.pos m') e' = V (Z.pos (m * m')) (e + e') * 2 ^ base) as E
      by (rewrite V_mul by (unfold base; lia); done).
    assert (0 < 2 ^ base) by done. apply (Z.mul_le_mono_pos_r _ _ (2 ^ base)); [done|]. rewrite <- E. nia. }
  apply canonical_cases in Hc as [Hd Hc], Hc' as [Hd' Hc']. pose proof (digits_mul m m').
  destruct (round_aux_between false (Z.pos (m * m')) (e + e') loc_Exact) as [(w & H1 & H2 & _)|[H1 _]];
    [lia|unfold wide; simpl Zdigits2; rewrite fexp64_eq; lia|unfold base; lia| |].
  - left. eauto.
  - right. done.
Qed.

(** Quotients of normal numbers: the rounding of a 53-bit floor. *)
Lemma f_div_spec s m1 e1 m2 e2 :
  Z.pos (digits2_pos m1) = 53 -> Z.pos (digits2_pos m2) = 53 -> -1000 <= e1 - e2 <= 1000 ->
  let r := f_div (S754_finite s m1 e1) (S754_finite false m2 e2) in
  (exists v, Mag s r v /\ forall k f, rep k f -> V k f <= V (Z.pos m1 * 2 ^ 53 / Z.pos m2) (e1 - e2 - 53) -> V k f <= v) \/
  r = S754_infinity s.
Proof.
  intros H1 H2 He. unfold f_div, SFdiv, SFdiv_core_binary. simpl Zdigits2. rewrite H1, H2, fexp64_eq.
  replace (Z.min (Z.max (53 + e1 - (53 + e2) - 53) (-1074)) (e1 - e2)) with (e1 - e2 - 53) by lia.
  replace (e1 - e2 - (e1 - e2 - 53)) with 53 by lia. rewrite Z.shiftl_mul_pow2 by lia.
  pose proof (Z.div_eucl_eq (Z.pos m1 * 2 ^ 53) (Z.pos m2) ltac:(lia)) as Hdv.
  unfold Z.div. destruct (Z.div_eucl _ _) as [q r] eqn:E.
  pose proof (Z.mod_pos_bound (Z.pos m1 * 2 ^ 53) (Z.pos m2) ltac:(lia)) as Hmod.
  unfold Z.modulo in Hmod. rewrite E in Hmod. rewrite xorb_false_r.
  pose proof (digits_bounds m1) as [Hl1 _]. pose proof (digits_bounds m2) as [_ Hu2]. rewrite H1 in Hl1. rewrite H2 in Hu2.
  assert (Hq : 2 ^ 52 <= q) by nia. destruct q as [|q|q]; [lia| |lia].
  assert (52 < Z.pos (digits2_pos q)) by (apply digits_ge; lia).
  destruct (round_aux_between s (Z.pos q) (e1 - e2 - 53) (new_location (Z.pos m2) r)) as [(w & W1 & W2 & _)|[W1 _]];
    [lia|unfold wide; simpl Zdigits2; rewrite fexp64_eq; lia|unfold base; lia| |].
  - left. exists w. split; [exact W1|]. intros k f. exact (W2 k f).
  - right. exact W1.
Qed.

Lemma Mag_normal s x z : Mag s x (V z 0) -> 0 < z < 2 ^ 53 ->
  exists m e, x = S754_finite s m e /\ Z.pos (digits2_pos m) = 53 /\ V (Z.pos m) e = V z 0 /\ -52 <= e <= 0.
Proof.
  intros H Hz. assert (Hp : 0 < V z 0) by (unfold V; apply Z.mul_pos_pos; [lia|by apply Z.pow_pos_nonneg]).
  destruct x as [s'| | |s' m e]; simpl in H; try done; [lia|]. destruct H as (-> & HV & Hc & He).
  pose proof (digits_bounds m) as [Hl Hu]. apply canonical_cases in Hc as [Hd Hc].
  assert (He0 : e <= 0).
  { destruct (decide (e <= 0)) as [|Hgt]; [done|]. destruct Hc as [Hc|]; [|lia]. rewrite Hc in Hl.
    assert (V z 0 < V (Z.pos m) e); [|lia]. apply V_below; [unfold rep; lia|lia|done]. }
  assert (Em : Z.pos m = z * 2 ^ (- e)).
  { unfold V in HV. replace (0 + base) with (- e + (e + base)) in HV by lia.
    rewrite Z.pow_add_r in HV by (unfold base; lia). assert (0 < 2 ^ (e + base)) by (apply Z.pow_pos_nonneg; unfold base; lia). nia. }
  assert (Hlt : - e < 53).
  { apply (Z.pow_lt_mono_r_iff 2); [lia..|]. eapply Z.le_lt_trans; [|eapply Z.lt_le_trans; [exact Hu|]].
    - rewrite Em. assert (0 < 2 ^ - e) by (apply Z.pow_pos_nonneg; lia). nia.
    - apply Z.pow_le_mono_r; lia. }
  exists m, e. split_and!; [done|lia|done|lia..].
Qed.

(** ** Comparison *)
Lemma canonical_lt m e m' e' :
  canonical_mantissa f_prec f_emax m e = true -> canonical_mantissa f_prec f_emax m' e' = true ->
  -1074 <= e <= 971 -> -1074 <= e' -> e < e' -> V (Z.pos m) e < V (Z.pos m') e'.
Proof.
  intros [Hd Hc]%canonical_cases [Hd' Hc']%canonical_cases He He' Hlt. apply V_below; [|done|].
  - pose proof (digits_bounds m) as [_ Hu]. split; [|lia]. split; [lia|]. eapply Z.lt_le_trans; [exact Hu|].
    apply Z.pow_le_mono_r; lia.
  - pose proof (digits_bounds m') as [Hl _]. replace (Z.pos (digits2_pos m')) with 53 in Hl by lia. done.
Qed.

Lemma V_cancel_lt m m' e : - base <= e -> m < m' -> V m e < V m' e.
Proof. intros. unfold V. apply Z.mul_lt_mono_pos_r; [apply Z.pow_pos_nonneg; lia|done]. Qed.

Lemma f_lt_spec x y v w : Fin x v -> Fin y w -> f_lt x y = (v <? w).
Proof.
  unfold f_lt, SFltb. destruct x as [s| | |s m e]; simpl; try done; destruct y as [s'| | |s' m' e']; simpl; try done.
  - intros [-> ->] [-> ->]. done.
  - intros [-> ->] (-> & -> & _ & He). symmetry. apply Z.ltb_lt. change 0 with (V 0 e'). apply V_cancel_lt; [unfold base|]; lia.
  - intros (-> & -> & _ & He) [-> ->]. symmetry. apply Z.ltb_ge. apply V_nonneg. lia.
  - intros (-> & -> & Hc & He) (-> & -> & Hc' & He'). destruct (Z.compare_spec e e') as [<-|Hlt|Hgt].
    + change (Pos.compare_cont Eq m m') with (m ?= m')%positive.
      destruct (Pos.compare_spec m m') as [<-|Hm|Hm]; symmetry; [apply Z.ltb_irrefl|apply Z.ltb_lt|apply Z.ltb_ge].
      * apply V_cancel_lt; [unfold base|]; lia.
      * apply V_mono. lia.
    + symmetry. apply Z.ltb_lt. apply canonical_lt; (done || lia).
    + symmetry. apply Z.ltb_ge. apply Z.lt_le_incl, canonical_lt; (done || lia).
Qed.

Lemma f_lt_at_least b w L x : Fin b w -> AtLeast L x -> w < L -> f_lt b x = true.
Proof.
  intros Hb [(u & Hu & Hle)| ->] Hlt; [rewrite (f_lt_spec _ _ _ _ Hb Hu); apply Z.ltb_lt; lia|].
  by destruct b.
Qed.

(** A value has one float. *)
Lemma Fin_unique x y v : Fin x v -> Fin y v -> x = y.
Proof.
  assert (Hpos : forall m e, -1074 <= e -> 0 < V (Z.pos m) e).
  { intros. change 0 with (V 0 e). apply V_cancel_lt; [unfold base|]; lia. }
  destruct x as [s| | |s m e]; simpl; try done; destruct y as [s'| | |s' m' e']; simpl; try done.
  - by intros [-> _] [-> _].
  - intros [_ ->] (_ & H & _ & He). specialize (Hpos m' e'). lia.
  - intros (_ & H & _ & He) [_ ->]. specialize (Hpos m e). lia.
  - intros (-> & -> & Hc & He) (-> & H & Hc' & He').
    destruct (Z.lt_trichotomy e e') as [Hlt|[<-|Hlt]].
    + pose proof (canonical_lt m e m' e' Hc Hc'). lia.
    + f_equal. unfold V in H. assert (0 < 2 ^ (e + base)) by (apply Z.pow_pos_nonneg; unfold base; lia).
      apply (inj Z.pos). nia.
    + pose proof (canonical_lt m' e' m e Hc' Hc). lia.
Qed.

(** ** Signs *)
Definition nonpos (x : float64) : Prop :=
  match x with S754_zero _ | S754_infinity true | S754_finite true _ _ => True | _ => False end.

Lemma nonpos_lt x : nonpos x -> f_lt (of_int 0) x = false.
Proof. intros H. by destruct x as [|[]| |[]]. Qed.
Lemma Mag_true_nonpos x v : Mag true x v -> nonpos x.
Proof. destruct x; simpl; [done|done|done|]. by intros (-> & _). Qed.

Lemma binary_round_neg p e : - base <= e -> nonpos (binary_round f_prec f_emax true p e).
Proof.
  intros He. destruct (binary_round_spec true p e He) as [(v & H & _)|[H _]]; [by eapply Mag_true_nonpos|by rewrite H].
Qed.

Lemma of_int_nonpos z : z <= 0 -> nonpos (of_int z).
Proof. intros Hz. destruct z as [|p|p]; [done|lia|]. apply binary_round_neg. unfold base. lia. Qed.

Lemma f_add_nonpos x y : 
  (nonpos x /\ match x with S754_finite _ _ e => -1074 <= e | _ => True end) ->
  (nonpos y /\ match y with S754_finite _ _ e => -1074 <= e | _ => True end) -> nonpos (f_add x y).
Proof.
  intros [Hx Ex] [Hy Ey]. destruct x as [s|[]| |[] m e]; try done; destruct y as [s'|[]| |[] m' e']; try done.
  - by destruct s, s'.
  - unfold f_add, SFadd. cbn [cond_Zopp].
    change (nonpos (binary_normalize f_prec f_emax (Z.opp (Z.pos (shl_align m e (Z.min e e')).1) + Z.opp (Z.pos (shl_align m' e' (Z.min e e')).1))
      (Z.min e e') false)).
    destruct (_ + _) as [|p|p] eqn:E; [done|lia|]. apply binary_round_neg. unfold base. lia.
Qed.
