(* ===== verification/World.v ===== *)
(** * The world the services run in

    Every operation of the Go services is a computation [M D A]: it runs in a
    [World] that holds the committed contents [D] of a SQLite database, the
    in-memory [flick_active_uploads] gauge and the trace of external effects,
    and it either returns a value or one of the program's errors.  What the
    program cannot control is an oracle of the class [Env], indexed by a tick
    that advances at every use: the clock, the random source, and the failures
    of SQL statements.  A theorem that quantifies over [Env] holds for every
    clock, every random draw and every pattern of database failures.

    [db.OpenSQLite] caps the pool at one connection
    (src/internal/db/sqlite.go), so transactions are serial: [transaction]
    runs its body on the database and restores the snapshot when the body
    returns an error, does not reach [tx.Commit], or the commit fails. *)

From S2P Require Import Prelude.

(** ** Errors (the packages' sentinel errors)

    [fmt.Errorf("...: %w", err)] keeps the identity [errors.Is] looks for, so
    wrapping is the identity; an error with no sentinel is [Fail message]. *)
Inductive secrets_error :=
  | ErrInvalidInput | ErrNotFound | ErrConsumed | ErrExpired | ErrInvalidAccess
  | ErrPayloadTooLarge | ErrUnsupportedKind | ErrUnsupportedViews
  | ErrNotPending | ErrObjectMissing
  | ErrManagementUnavailable | ErrNotCancellable.

Inductive requests_error :=
  | ErrInvalid | ErrTooLarge | ErrUnavailable | ErrConflict | ErrStorage.

Inductive events_error := ErrInvalidEvent | ErrOutboxNotFound.

Inductive worker_error :=
  | ErrInvalidJob | ErrReceiptNotFound | ErrJobDead | ErrJobProcessing | ErrStaleAttempt.

Inductive err :=
  | SecretsErr (e : secrets_error)
  | RequestsErr (e : requests_error)
  | EventsErr (e : events_error)
  | WorkerErr (e : worker_error)
  | ErrInvalidCursor
  | Fail (msg : string).

#[export] Instance secrets_error_eq : EqDecision secrets_error.
Proof. solve_decision. Defined.
#[export] Instance requests_error_eq : EqDecision requests_error.
Proof. solve_decision. Defined.
#[export] Instance events_error_eq : EqDecision events_error.
Proof. solve_decision. Defined.
#[export] Instance worker_error_eq : EqDecision worker_error.
Proof. solve_decision. Defined.
#[export] Instance err_eq : EqDecision err.
Proof. solve_decision. Defined.

Inductive result (A : Type) :=
  | Ok (a : A)
  | Err (e : err).
Arguments Ok {A} a.
Arguments Err {A} e.

Definition is_ok {A} (r : result A) : bool := match r with Ok _ => true | Err _ => false end.
Lemma is_ok_true {A} (r : result A) : is_ok r = true -> exists a, r = Ok a.
Proof. destruct r; [eauto|done]. Qed.

(** ** External effects that leave the process *)
Inductive effect :=
  | EffDelete (key : string)                  (** an object-store delete was issued *)
  | EffPut (key body : string)                (** a server-side object write was issued *)
  | EffPublish (subject payload : string)     (** the broker accepted a message *)
  | EffCleanup (secret job reason : string)   (** the internal clean-up endpoint was called *)
  | EffObjectAck (job key : string)           (** the internal acknowledgement endpoint was called *)
  | EffAck (payload : string)                 (** a delivered message was acknowledged *)
  | EffNak (payload : string)                 (** it was handed back for redelivery *)
  | EffTerm (payload : string).               (** it was terminated *)

Class Env := {
  (** the reading of [time.Now().UTC()] at a tick *)
  clk : nat -> time;
  (** whether the SQL call made at a tick fails (I/O, busy, cancelled context) *)
  db_fault : nat -> bool;
  (** [rand.Read] of a buffer of the given length *)
  rand_bytes : nat -> nat -> option string;
  rand_bytes_len : forall t n s, rand_bytes t n = Some s -> String.length s = n;
}.

Record World (D : Type) := MkWorld {
  db : D;
  tick : nat;
  active_uploads : Z;
  trace : list effect;
}.
Arguments MkWorld {D} _ _ _ _.
Arguments db {D} _.
Arguments tick {D} _.
Arguments active_uploads {D} _.
Arguments trace {D} _.

Definition bump {D} (w : World D) : World D :=
  MkWorld (db w) (S (tick w)) (active_uploads w) (trace w).
Definition set_db {D} (d : D) (w : World D) : World D :=
  MkWorld d (tick w) (active_uploads w) (trace w).
Definition add_uploads {D} (n : Z) (w : World D) : World D :=
  MkWorld (db w) (tick w) (active_uploads w + n) (trace w).
Definition add_effect {D} (e : effect) (w : World D) : World D :=
  MkWorld (db w) (tick w) (active_uploads w) (trace w ++ [e]).

(** ** The monad *)
Definition M (D A : Type) : Type := World D -> result A * World D.

Definition ret {D A} (a : A) : M D A := fun w => (Ok a, w).
Definition bind {D A B} (m : M D A) (k : A -> M D B) : M D B := fun w =>
  match m w with
  | (Ok a, w') => k a w'
  | (Err e, w') => (Err e, w')
  end.

Declare Scope flick_scope.
Delimit Scope flick_scope with flick.
Notation "'let!' x ':=' m 'in' k" := (bind m (fun x => k))
  (at level 10, x binder, m at level 100, k at level 200) : flick_scope.
Notation "'do!' m 'in' k" := (bind m (fun _ => k))
  (at level 10, m at level 100, k at level 200) : flick_scope.
#[global] Open Scope flick_scope.

Definition throw {D A} (e : err) : M D A := fun w => (Err e, w).

(** A pure, fallible step. *)
Definition lift {D A} (r : result A) : M D A := fun w => (r, w).

(** Read an oracle and advance the tick. *)
Definition ask {D A} (f : nat -> A) : M D A := fun w => (Ok (f (tick w)), bump w).

Definition emit {D} (e : effect) : M D unit := fun w => (Ok tt, add_effect e w).

(** [telemetry.ActiveUploads.Inc] / [Dec] / [Add]. *)
Definition uploads_add {D} (n : Z) : M D unit := fun w => (Ok tt, add_uploads n w).

(** Go's [if cond { return err }]. *)
Definition fail_if {D} (c : bool) (e : err) : M D unit := if c then throw e else ret tt.

(** Run a step and keep its error as a value: the caller inspects it. *)
Definition attempt {D A} (m : M D A) : M D (result A) := fun w =>
  let '(r, w') := m w in (Ok r, w').

Section env.
Context {ENV : Env} {D : Type}.

Definition now : M D time := ask clk.

Definition rand_read (n : nat) (msg : string) : M D string :=
  let! o := ask (fun t => rand_bytes t n) in
  match o with Some s => ret s | None => throw (Fail msg) end.

(** One SQL statement: it may fail ([db_fault]), it may be refused by a
    constraint ([None]), or it returns a value and the new contents. *)
Definition sql {A} (msg : string) (f : D -> option (A * D)) : M D A := fun w =>
  if db_fault (tick w) then (Err (Fail msg), bump w)
  else match f (db w) with
       | None => (Err (Fail msg), bump w)
       | Some (a, d) => (Ok a, set_db d (bump w))
       end.

Definition sql_query {A} (msg : string) (f : D -> A) : M D A :=
  sql msg (fun d => Some (f d, d)).

(** What a transaction's body ends with: [tx.Commit()], or a return that
    leaves the deferred rollback to run. *)
Inductive txout (A : Type) :=
  | Commit (a : A)
  | Rollback (a : A).
#[global] Arguments Commit {A} a.
#[global] Arguments Rollback {A} a.

Definition transaction {A} (begin_msg commit_msg : string) (body : M D (txout A)) : M D A :=
  fun w =>
    if db_fault (tick w) then (Err (Fail begin_msg), bump w)
    else match body (bump w) with
         | (Err e, w1) => (Err e, set_db (db w) w1)
         | (Ok (Rollback a), w1) => (Ok a, set_db (db w) w1)
         | (Ok (Commit a), w1) =>
             if db_fault (tick w1) then (Err (Fail commit_msg), set_db (db w) (bump w1))
             else (Ok a, bump w1)
         end.
End env.

(** No SQL call fails: the environment of the theorems that say an operation
    succeeds. *)
Class NoFaults {ENV : Env} := no_faults : forall t, db_fault t = false.

(** ** Inversion of monadic runs *)
Section inversion.
Context {ENV : Env} {D : Type}.
Implicit Types w : World D.

Lemma bind_ok {A B} (m : M D A) (k : A -> M D B) w b w' :
  bind m k w = (Ok b, w') <-> exists a w1, m w = (Ok a, w1) /\ k a w1 = (Ok b, w').
Proof.
  unfold bind. split.
  - destruct (m w) as [[a|e] w1]; [eauto|done].
  - by intros (a & w1 & -> & ?).
Qed.

Lemma bind_err {A B} (m : M D A) (k : A -> M D B) w e w' :
  bind m k w = (Err e, w') <->
  m w = (Err e, w') \/ exists a w1, m w = (Ok a, w1) /\ k a w1 = (Err e, w').
Proof.
  unfold bind. split.
  - destruct (m w) as [[a|e'] w1]; [eauto|]. intros [= -> ->]; auto.
  - intros [->|(a & w1 & -> & ?)]; auto.
Qed.

Lemma ret_ok {A} (a b : A) w w' : ret a w = (Ok b, w') <-> b = a /\ w' = w.
Proof. unfold ret. split; [by intros [= -> ->]|by intros [-> ->]]. Qed.

Lemma throw_ok {A} e (b : A) w w' : @throw D A e w = (Ok b, w') <-> False.
Proof. unfold throw. by split. Qed.

Lemma lift_ok {A} (r : result A) b w w' : lift r w = (Ok b, w') <-> r = Ok b /\ w' = w.
Proof. unfold lift. split; [by intros [= -> ->]|by intros [-> ->]]. Qed.

Lemma ask_ok {A} (f : nat -> A) b w w' :
  ask f w = (Ok b, w') <-> b = f (tick w) /\ w' = bump w.
Proof. unfold ask. split; [by intros [= -> ->]|by intros [-> ->]]. Qed.

Lemma now_ok t w w' : now w = (Ok t, w') <-> t = clk (tick w) /\ w' = bump w.
Proof. apply ask_ok. Qed.

Lemma fail_if_ok c e (u : unit) w w' :
  fail_if c e w = (Ok u, w') <-> c = false /\ w' = w.
Proof.
  unfold fail_if. destruct c, u; [by split; [|intros [? _]]|].
  unfold ret. split; [by intros [= <-]|by intros [_ ->]].
Qed.

Lemma sql_ok {A} msg (f : D -> option (A * D)) a w w' :
  sql msg f w = (Ok a, w') <->
  exists d, db_fault (tick w) = false /\ f (db w) = Some (a, d) /\ w' = set_db d (bump w).
Proof.
  unfold sql. split.
  - destruct (db_fault (tick w)); [done|].
    destruct (f (db w)) as [[a' d]|]; [|done]. intros [= -> <-]. eauto.
  - by intros (d & -> & -> & ->).
Qed.

Lemma sql_query_ok {A} msg (f : D -> A) a w w' :
  sql_query msg f w = (Ok a, w') <->
  db_fault (tick w) = false /\ a = f (db w) /\ w' = bump w.
Proof.
  unfold sql_query. rewrite sql_ok. split.
  - intros (d & ? & [= <- <-] & ->). by destruct w.
  - intros (? & -> & ->). exists (db w). by destruct w.
Qed.

Lemma attempt_ok {A} (m : M D A) r w w' : attempt m w = (Ok r, w') <-> m w = (r, w').
Proof. unfold attempt. destruct (m w). split; [by intros [= -> ->]|by intros [= -> ->]]. Qed.

Lemma rand_read_ok n msg s w w' :
  rand_read n msg w = (Ok s, w') <-> rand_bytes (tick w) n = Some s /\ w' = bump w.
Proof.
  unfold rand_read. rewrite bind_ok. setoid_rewrite ask_ok. split.
  - intros (o & w1 & [-> ->] & H). destruct (rand_bytes (tick w) n); [|done].
    by apply ret_ok in H as [-> ->].
  - intros [H ->]. eexists (Some s), _. by rewrite H.
Qed.

Lemma transaction_ok {A} bm cm (body : M D (txout A)) a w w' :
  transaction bm cm body w = (Ok a, w') <->
  db_fault (tick w) = false /\
  ((exists w1, body (bump w) = (Ok (Rollback a), w1) /\ w' = set_db (db w) w1) \/
   (exists w1, body (bump w) = (Ok (Commit a), w1) /\
      db_fault (tick w1) = false /\ w' = bump w1)).
Proof.
  unfold transaction. destruct (db_fault (tick w)) eqn:Hf.
  { split; [done|by intros [? _]]. }
  destruct (body (bump w)) as [[[b|b]|e] w1].
  - destruct (db_fault (tick w1)) eqn:Hf1.
    + split; [done|]. intros [_ [(w2 & ? & _)|(w2 & [= -> ->] & ? & _)]]; congruence.
    + split; [intros [= -> <-]; split; [done|right; eauto]|].
      by intros [_ [(w2 & ? & _)|(w2 & [= -> ->] & ? & ->)]].
  - split; [intros [= -> <-]; split; [done|left; eauto]|].
    by intros [_ [(w2 & [= -> ->] & ->)|(w2 & ? & _)]].
  - split; [done|]. by intros [_ [(w2 & ? & _)|(w2 & ? & _)]].
Qed.

(** Errors of the primitives. *)
Lemma ret_err {A} (a : A) e w w' : ret a w = (Err e, w') <-> False.
Proof. by split. Qed.
Lemma throw_err {A} e e' w w' : @throw D A e w = (Err e', w') <-> e' = e /\ w' = w.
Proof. unfold throw. split; [by intros [= -> ->]|by intros [-> ->]]. Qed.
Lemma lift_err {A} (r : result A) e w w' : lift r w = (Err e, w') <-> r = Err e /\ w' = w.
Proof. unfold lift. split; [by intros [= -> ->]|by intros [-> ->]]. Qed.
Lemma ask_err {A} (f : nat -> A) e w w' : ask f w = (Err e, w') <-> False.
Proof. by split. Qed.
Lemma now_err e w w' : now w = (Err e, w') <-> False.
Proof. by split. Qed.
Lemma attempt_err {A} (m : M D A) e w w' : attempt m w = (Err e, w') <-> False.
Proof. unfold attempt. by destruct (m w). Qed.
Lemma fail_if_err c e e' w w' : fail_if c e w = (Err e', w') <-> c = true /\ e' = e /\ w' = w.
Proof.
  unfold fail_if. destruct c; [|by split; [|intros [? _]]].
  rewrite throw_err. naive_solver.
Qed.
Lemma sql_err {A} msg (f : D -> option (A * D)) e w w' :
  sql msg f w = (Err e, w') -> e = Fail msg /\ w' = bump w.
Proof.
  unfold sql. destruct (db_fault _); [by intros [= <- <-]|].
  destruct (f (db w)) as [[a d]|]; [done|by intros [= <- <-]].
Qed.
Lemma sql_query_err {A} msg (f : D -> A) e w w' :
  sql_query msg f w = (Err e, w') -> e = Fail msg /\ w' = bump w.
Proof. apply sql_err. Qed.
Lemma rand_read_err n msg e w w' :
  rand_read n msg w = (Err e, w') -> e = Fail msg /\ w' = bump w.
Proof.
  unfold rand_read, bind, ask. destruct (rand_bytes _ _); [done|]. by intros [= <- <-].
Qed.

(** A transaction that returns an error leaves the database as it was. *)
Lemma transaction_err {A} bm cm (body : M D (txout A)) e w w' :
  transaction bm cm body w = (Err e, w') -> db w' = db w.
Proof.
  unfold transaction. destruct (db_fault (tick w)); [by intros [= <- <-]|].
  destruct (body (bump w)) as [[[b|b]|e'] w1]; [| |by intros [= <- <-]].
  - destruct (db_fault (tick w1)); [by intros [= <- <-]|done].
  - done.
Qed.
End inversion.

(** ** Running forward, when SQL answers *)
Section runs.
Context {ENV : Env} `{!NoFaults}.

Lemma sql_query_runs {D A} msg (f : D -> A) (w : World D) : sql_query msg f w = (Ok (f (db w)), bump w).
Proof. apply sql_query_ok. by rewrite no_faults. Qed.

Lemma sql_runs {D A} msg (f : D -> option (A * D)) (w : World D) a d :
  f (db w) = Some (a, d) -> sql msg f w = (Ok a, set_db d (bump w)).
Proof. intros E. apply sql_ok. rewrite no_faults. eauto. Qed.

Lemma bind_runs {D A B} (m : M D A) (k : A -> M D B) (w : World D) a w1 :
  m w = (Ok a, w1) -> bind m k w = k a w1.
Proof. unfold bind. by intros ->. Qed.

Lemma fail_if_runs {D A} c e (k : unit -> M D A) (w : World D) : c = false -> bind (fail_if c e) k w = k tt w.
Proof. by intros ->. Qed.

Lemma transaction_runs {D A} bm cm (body : M D (txout A)) (w : World D) a w1 :
  body (bump w) = (Ok (Commit a), w1) -> transaction bm cm body w = (Ok a, bump w1).
Proof. intros E. apply transaction_ok. rewrite !no_faults. eauto 10. Qed.

End runs.

(** Symbolic execution of a successful run, hypothesis by hypothesis. *)
Ltac mstep H :=
  lazymatch type of H with
  | bind _ _ _ = (Ok _, _) =>
      let a := fresh "a" in let w1 := fresh "w" in let H1 := fresh H in
      apply bind_ok in H; destruct H as (a & w1 & H1 & H); mstep H1
  | ret _ _ = (Ok _, _) => apply ret_ok in H; destruct H as [? ?]; subst
  | throw _ _ = (Ok _, _) => apply throw_ok in H; destruct H
  | lift _ _ = (Ok _, _) => apply lift_ok in H; destruct H as [H ?]; subst
  | ask _ _ = (Ok _, _) => apply ask_ok in H; destruct H as [? ?]; subst
  | now _ = (Ok _, _) => apply now_ok in H; destruct H as [? ?]; subst
  | fail_if _ _ _ = (Ok _, _) => apply fail_if_ok in H; destruct H as [H ?]; subst
  | attempt _ _ = (Ok _, _) => apply (proj1 (attempt_ok _ _ _ _)) in H
  | rand_read _ _ _ = (Ok _, _) => apply rand_read_ok in H; destruct H as [H ?]; subst
  | sql_query _ _ _ = (Ok _, _) => apply sql_query_ok in H; destruct H as (? & ? & ?); subst
  | sql _ _ _ = (Ok _, _) =>
      let d := fresh "d" in apply sql_ok in H; destruct H as (d & ? & H & ?); subst
  | _ => idtac
  end.

Ltac msteps H := repeat (progress mstep H).

(** Symbolic execution of a failing run: one goal per primitive that can fail. *)
Ltac merr H :=
  lazymatch type of H with
  | bind _ _ _ = (Err _, _) =>
      let a := fresh "a" in let w1 := fresh "w" in let H1 := fresh H in
      apply bind_err in H; destruct H as [H|(a & w1 & H1 & H)]; [|mstep H1]; merr H
  | ret _ _ = (Err _, _) => apply ret_err in H; destruct H
  | throw _ _ = (Err _, _) => apply throw_err in H; destruct H as [? ?]; subst
  | lift _ _ = (Err _, _) => apply lift_err in H; destruct H as [H ?]; subst
  | ask _ _ = (Err _, _) => apply ask_err in H; destruct H
  | now _ = (Err _, _) => apply now_err in H; destruct H
  | attempt _ _ = (Err _, _) => apply attempt_err in H; destruct H
  | fail_if _ _ _ = (Err _, _) => apply fail_if_err in H; destruct H as (H & ? & ?); subst
  | rand_read _ _ _ = (Err _, _) => apply rand_read_err in H; destruct H as [? ?]; subst
  | sql_query _ _ _ = (Err _, _) => apply sql_query_err in H; destruct H as [? ?]; subst
  | sql _ _ _ = (Err _, _) => apply sql_err in H; destruct H as [? ?]; subst
  | _ => idtac
  end.

(** Case analysis on an innermost scrutinee of a hypothesis. *)
Ltac split_match H :=
  match type of H with
  | context [match ?x with _ => _ end] =>
      lazymatch x with
      | context [match _ with _ => _ end] => fail
      | _ => destruct x eqn:?
      end
  end.

(** ** Relations every run respects

    [respects R m]: whatever [m] returns, its final world is [R]-related to
    its initial world.  For a preorder [R] the combinators preserve it, so an
    invariant or a monotonicity property of an operation reduces to the SQL
    statements it executes. *)
Definition respects {D A} (R : relation (World D)) (m : M D A) : Prop :=
  forall w, R w (m w).2.

(** A relation on database contents, seen on worlds. *)
Definition on_db {D} (R : relation D) : relation (World D) :=
  fun w w' => R (db w) (db w').

#[export] Instance on_db_refl {D} (R : relation D) `{!Reflexive R} : Reflexive (on_db R).
Proof. intros w. unfold on_db. reflexivity. Qed.
#[export] Instance on_db_trans {D} (R : relation D) `{!Transitive R} : Transitive (on_db R).
Proof. intros w1 w2 w3. unfold on_db. apply transitivity. Qed.
#[export] Instance on_db_preorder {D} (R : relation D) `{!PreOrder R} : PreOrder (on_db R).
Proof. split; apply _. Qed.

(** A relation a run may be followed with: a preorder that ignores the tick and
    holds after a rollback. *)
Class Stable {D} (R : relation (World D)) := {
  stable_preorder :: PreOrder R;
  stable_bump w : R w (bump w);
  stable_rollback w w1 : R w w1 -> R w (set_db (db w) w1);
}.

#[export] Instance on_db_stable {D} (R : relation D) `{!PreOrder R} : Stable (on_db R).
Proof.
  split; [apply _| |]; unfold on_db; simpl; intros; reflexivity.
Qed.

(** The gauge is unchanged. *)
Definition same_gauge {D} (w w' : World D) : Prop := active_uploads w' = active_uploads w.
#[export] Instance same_gauge_stable {D} : Stable (@same_gauge D).
Proof. split; [split|..]; unfold same_gauge; simpl; congruence. Qed.

(** No external effect was issued. *)
Definition same_trace {D} (w w' : World D) : Prop := trace w' = trace w.
#[export] Instance same_trace_stable {D} : Stable (@same_trace D).
Proof. split; [split|..]; unfold same_trace; simpl; congruence. Qed.

Section respects.
Context {ENV : Env} {D : Type} (R : relation (World D)) `{!Stable R}.

Lemma respects_ret {A} (a : A) : respects R (ret a).
Proof. intros w. simpl. reflexivity. Qed.
Lemma respects_throw {A} e : respects R (@throw D A e).
Proof. intros w. simpl. reflexivity. Qed.
Lemma respects_lift {A} (r : result A) : respects R (lift r).
Proof. intros w. simpl. reflexivity. Qed.
Lemma respects_ask {A} (f : nat -> A) : respects R (ask f).
Proof. intros w. apply stable_bump. Qed.
Lemma respects_now : respects R now.
Proof. apply respects_ask. Qed.

Lemma respects_bind {A B} (m : M D A) (k : A -> M D B) :
  respects R m -> (forall a, respects R (k a)) -> respects R (bind m k).
Proof.
  intros Hm Hk w. specialize (Hm w). unfold bind.
  destruct (m w) as [[a|e] w1]; simpl in *; [|done].
  specialize (Hk a w1). by etrans.
Qed.

(** The continuation may use what a successful run of the first part tells. *)
Lemma respects_bind_ok {A B} (m : M D A) (k : A -> M D B) :
  respects R m ->
  (forall a w w1, m w = (Ok a, w1) -> R w1 (k a w1).2) ->
  respects R (bind m k).
Proof.
  intros Hm Hk w. specialize (Hm w). unfold bind.
  destruct (m w) as [[a|e] w1] eqn:E; simpl in *; [|done].
  specialize (Hk a w w1 E). by etrans.
Qed.

Lemma respects_attempt {A} (m : M D A) : respects R m -> respects R (attempt m).
Proof. intros H w. specialize (H w). unfold attempt. by destruct (m w). Qed.

Lemma respects_fail_if c e : respects R (fail_if c e).
Proof. unfold fail_if. destruct c; [apply respects_throw|apply respects_ret]. Qed.

Lemma respects_rand_read n msg : respects R (rand_read n msg).
Proof.
  apply respects_bind; [apply respects_ask|].
  intros [s|]; [apply respects_ret|apply respects_throw].
Qed.

Lemma respects_sql_world {A} msg (f : D -> option (A * D)) :
  (forall w a d', f (db w) = Some (a, d') -> R w (set_db d' w)) -> respects R (sql msg f).
Proof.
  intros Hf w. unfold sql. destruct (db_fault (tick w)); [apply stable_bump|].
  destruct (f (db w)) as [[a d]|] eqn:E; simpl; [|apply stable_bump].
  transitivity (bump w); [apply stable_bump|]. by eapply Hf.
Qed.

Lemma respects_sql_query {A} msg (f : D -> A) : respects R (sql_query msg f).
Proof. apply respects_sql_world. intros [? ? ? ?] a d' [= _ <-]. reflexivity. Qed.

Lemma respects_transaction {A} bm cm (body : M D (txout A)) :
  respects R body -> respects R (transaction bm cm body).
Proof.
  intros Hb w. specialize (Hb (bump w)). unfold transaction.
  destruct (db_fault (tick w)); [apply stable_bump|].
  assert (Hw : forall w1, R (bump w) w1 -> R w w1) by (intros; etrans; [apply stable_bump|done]).
  destruct (body (bump w)) as [[[a|a]|e] w1]; simpl in *; [|by apply stable_rollback, Hw..].
  destruct (db_fault (tick w1)); simpl.
  - apply (stable_rollback w (bump w1)). apply Hw. etrans; [done|apply stable_bump].
  - apply Hw. etrans; [done|apply stable_bump].
Qed.
End respects.

(** Only committed runs count: a body that fails or does not commit is rolled
    back. *)
Lemma respects_transaction_commit {ENV : Env} {D A} (R : relation D) `{!PreOrder R} bm cm (body : M D (txout A)) :
  (forall w a w1, body w = (Ok (Commit a), w1) -> R (db w) (db w1)) ->
  respects (on_db R) (transaction bm cm body).
Proof.
  intros Hb w. unfold transaction, on_db. destruct (db_fault (tick w)); [simpl; reflexivity|].
  destruct (body (bump w)) as [[[a|a]|e] w1] eqn:E; simpl; [|reflexivity..].
  destruct (db_fault (tick w1)); simpl; [reflexivity|]. by apply Hb in E.
Qed.

Lemma respects_emit {D} (R : relation D) `{!PreOrder R} e : respects (on_db R) (emit e).
Proof. intros w. unfold on_db; simpl. reflexivity. Qed.
Lemma respects_uploads_add {D} (R : relation D) `{!PreOrder R} n : respects (on_db R) (uploads_add n).
Proof. intros w. unfold on_db; simpl. reflexivity. Qed.
Lemma gauge_emit {D} e : respects (@same_gauge D) (emit e).
Proof. done. Qed.

Lemma respects_sql {ENV : Env} {D A} (R : relation D) `{!PreOrder R} msg (f : D -> option (A * D)) :
  (forall d a d', f d = Some (a, d') -> R d d') -> respects (on_db R) (sql msg f).
Proof. intros Hf. apply respects_sql_world; [apply _|]. intros w a d'. apply Hf. Qed.
Lemma gauge_sql {ENV : Env} {D A} msg (f : D -> option (A * D)) : respects same_gauge (sql msg f).
Proof. apply respects_sql_world; [apply _|]. done. Qed.
Lemma trace_sql {ENV : Env} {D A} msg (f : D -> option (A * D)) : respects same_trace (sql msg f).
Proof. apply respects_sql_world; [apply _|]. done. Qed.


(** Walk a monadic program down to its SQL statements. *)
Ltac respects_step :=
  first
  [ progress intros
  | solve [eauto 4 with flick typeclass_instances]
  | apply respects_attempt; try solve [apply _]
  | apply respects_bind; [apply _| |]
  | apply respects_transaction; [apply _|]
  | solve [first [apply respects_ret|apply respects_throw|apply respects_lift|apply respects_now
                 |apply respects_ask|apply respects_fail_if|apply respects_rand_read
                 |apply respects_sql_query|apply respects_emit|apply respects_uploads_add
                 |apply gauge_emit|apply gauge_sql|apply trace_sql]; apply _]
  | match goal with
    | |- respects _ (match ?x with _ => _ end) => destruct x eqn:?
    | |- respects _ (if ?x then _ else _) => destruct x eqn:?
    | |- respects _ (let '_ := ?x in _) => destruct x eqn:?
    end ].
Ltac solve_respects := repeat respects_step.

(** The trivial relation "contents unchanged", for operations that only read. *)
Abbreviation reads_only m := (respects (on_db eq) m).

Lemma reads_only_db {D A} (m : M D A) w r w' :
  reads_only m -> m w = (r, w') -> db w' = db w.
Proof. intros H E. specialize (H w). rewrite E in H. done. Qed.

Lemma respects_of_reads {D A} (R : relation D) `{!Reflexive R} (m : M D A) :
  reads_only m -> respects (on_db R) m.
Proof. intros H w. specialize (H w). unfold on_db in *. rewrite H. reflexivity. Qed.

(** An invariant is the preorder "if it held before, it holds after". *)
Definition keeps {D} (I : D -> Prop) : relation D := fun d d' => I d -> I d'.
#[export] Instance keeps_preorder {D} (I : D -> Prop) : PreOrder (keeps I).
Proof. split; unfold keeps; [intros ?|intros ???]; auto. Qed.
