(* ===== verification/GoTime.v ===== *)
(** * Timestamps as SQLite sees them

    Columns hold text: [formatTime] writes [time.RFC3339Nano] (a fraction with
    its trailing zeros dropped), [managementTimeFormat] and the requests
    package's [timeFormat] write a fixed nine-digit fraction.  SQL compares the
    text byte by byte.  This file models the three texts of an instant and
    proves which comparisons agree with time:
    - the fixed-width texts always do;
    - RFC3339Nano texts do once the final [Z] is trimmed, which is what the
      reaper's claim query does;
    - untrimmed RFC3339Nano texts do not within one second, which is what the
      outbox's due query compares.

    The other files keep an instant in a column and apply the text only where
    a query compares texts; [format_nano_inj] is why nothing is lost. *)

From S2P Require Import Prelude.

(** ** Calendar (the part of package [time] that [Format] uses) *)

(** Days from January 1 of year 0 to January 1 of year [y]. *)
Definition days_before_year (y : Z) : Z :=
  365 * y + (y + 3) / 4 - (y + 99) / 100 + (y + 399) / 400.

Definition year_of_day (d : Z) : Z :=
  let y := 400 * d / 146097 in
  if d <? days_before_year y then y - 1
  else if days_before_year (y + 1) <=? d then y + 1
  else y.

Definition leap (y : Z) : bool :=
  (y mod 4 =? 0) && negb (y mod 100 =? 0) || (y mod 400 =? 0).

Definition month_lengths (y : Z) : list Z :=
  [31; if leap y then 29 else 28; 31; 30; 31; 30; 31; 31; 30; 31; 30; 31].

(** The month (from [m]) and day of the month of a zero-based day of the year. *)
Fixpoint month_day (ls : list Z) (m doy : Z) : Z * Z :=
  match ls with
  | [] => (m, doy + 1)
  | l :: ls => if doy <? l then (m, doy + 1) else month_day ls (m + 1) (doy - l)
  end.

(** January 1, 1970. *)
Definition epoch_day : Z := 719528.

Record civil := {
  c_year : Z; c_month : Z; c_day : Z; c_hour : Z; c_min : Z; c_sec : Z; c_ns : Z;
}.

Definition civil_of (t : time) : civil :=
  let s := t / Second in
  let d := s / 86400 + epoch_day in
  let sod := s mod 86400 in
  let y := year_of_day d in
  let md := month_day (month_lengths y) 1 (d - days_before_year y) in
  {| c_year := y; c_month := md.1; c_day := md.2;
     c_hour := sod / 3600; c_min := sod / 60 mod 60; c_sec := sod mod 60;
     c_ns := t mod Second |}.

(** The instants [Format] writes with a four-digit year. *)
Definition four_digit_year (t : time) : bool :=
  let d := t / Second / 86400 + epoch_day in (0 <=? d) && (d <? days_before_year 10000).

(** ** Text *)
Definition digit (n : Z) : Ascii.ascii := Ascii.ascii_of_nat (Z.to_nat (48 + n)).

(** [n] in decimal, zero-padded to [w] digits. *)
Fixpoint pad (w : nat) (n : Z) : string :=
  match w with
  | O => ""
  | S w => pad w (n / 10) +:+ String (digit (n mod 10)) ""
  end.

(** Drop the trailing zeros of a digit string. *)
Fixpoint trim_zeros (s : string) : string :=
  match s with
  | "" => ""
  | String c s =>
      match trim_zeros s with
      | "" => if decide (c = digit 0) then "" else String c ""
      | s' => String c s'
      end
  end.

Definition format_seconds (c : civil) : string :=
  pad 4 (c_year c) +:+ "-" +:+ pad 2 (c_month c) +:+ "-" +:+ pad 2 (c_day c) +:+ "T" +:+
  pad 2 (c_hour c) +:+ ":" +:+ pad 2 (c_min c) +:+ ":" +:+ pad 2 (c_sec c).

Definition nano_fraction (ns : Z) : string :=
  if ns =? 0 then "" else "." +:+ trim_zeros (pad 9 ns).

(** [formatTime]: [t.UTC().Format(time.RFC3339Nano)]. *)
Definition formatTime (t : time) : string :=
  let c := civil_of t in format_seconds c +:+ nano_fraction (c_ns c) +:+ "Z".

(** [t.UTC().Format("2006-01-02T15:04:05.000000000Z")]. *)
Definition formatFixed (t : time) : string :=
  let c := civil_of t in format_seconds c +:+ "." +:+ pad 9 (c_ns c) +:+ "Z".

(** SQLite's [rtrim(x, 'Z')]. *)
Fixpoint rtrimZ (s : string) : string :=
  match s with
  | "" => ""
  | String c s =>
      match rtrimZ s with
      | "" => if decide (c = Ascii.ascii_of_nat 90) then "" else String c ""
      | s' => String c s'
      end
  end.

(** SQLite's [<=], [<] and [>] on two texts (BINARY collation). *)
Definition text_le (a b : string) : bool :=
  match String.compare a b with Gt => false | _ => true end.
Definition text_gt (a b : string) : bool :=
  match String.compare a b with Gt => true | _ => false end.

Example formatTime_ex : formatTime 1700000000120000000 = "2023-11-14T22:13:20.12Z".
Proof. vm_compute. reflexivity. Qed.
Example formatTime_ex0 : formatTime 951782400000000000 = "2000-02-29T00:00:00Z".
Proof. vm_compute. reflexivity. Qed.
Example formatFixed_ex : formatFixed (-1) = "1969-12-31T23:59:59.999999999Z".
Proof. vm_compute. reflexivity. Qed.

(** ** Byte-wise comparison *)
Definition lex (c d : comparison) : comparison := match c with Eq => d | _ => c end.

Lemma compare_refl s : String.compare s s = Eq.
Proof.
  induction s as [|a s IH]; simpl; [done|].
  unfold Ascii.compare. by rewrite N.compare_refl.
Qed.

Lemma compare_cons a s b t :
  String.compare (String a s) (String b t) = lex (Ascii.compare a b) (String.compare s t).
Proof. simpl. by destruct (Ascii.compare a b). Qed.

Lemma compare_app_eqlen p q s t :
  String.length p = String.length q ->
  String.compare (p +:+ s) (q +:+ t) = lex (String.compare p q) (String.compare s t).
Proof.
  revert q. induction p as [|a p IH]; intros [|b q]; simpl; intros Hl; try done.
  rewrite (IH q) by congruence. by destruct (Ascii.compare a b).
Qed.

Lemma compare_app_same p s t : String.compare (p +:+ s) (p +:+ t) = String.compare s t.
Proof. rewrite compare_app_eqlen by done. by rewrite compare_refl. Qed.

Lemma ascii_compare_digit a b :
  0 <= a < 10 -> 0 <= b < 10 -> Ascii.compare (digit a) (digit b) = (a ?= b).
Proof.
  intros Ha Hb.
  assert (forallb (fun a => forallb (fun b =>
    bool_decide (Ascii.compare (digit a) (digit b) = (a ?= b))) (seqZ 0 10)) (seqZ 0 10) = true) as F
    by (vm_compute; reflexivity).
  rewrite forallb_forall in F. specialize (F a). rewrite <-list_elem_of_In, elem_of_seqZ in F.
  specialize (F ltac:(lia)). rewrite forallb_forall in F. specialize (F b).
  rewrite <-list_elem_of_In, elem_of_seqZ in F.
  exact (bool_decide_eq_true_1 _ (F ltac:(lia))).
Qed.

Lemma length_pad w n : String.length (pad w n) = w.
Proof. revert n. induction w; intros n; simpl; [done|]. rewrite strlen_app, IHw. simpl. lia. Qed.

Lemma compare_pad w n m :
  0 <= n < 10 ^ Z.of_nat w -> 0 <= m < 10 ^ Z.of_nat w ->
  String.compare (pad w n) (pad w m) = (n ?= m).
Proof.
  revert n m. induction w as [|w IH]; intros n m Hn Hm.
  { change (10 ^ Z.of_nat 0) with 1 in *. assert (n = 0) as -> by lia. by assert (m = 0) as -> by lia. }
  rewrite Nat2Z.inj_succ, Z.pow_succ_r in Hn, Hm by lia. cbn [pad].
  assert (0 <= n / 10 < 10 ^ Z.of_nat w) by (split; [apply Z.div_pos|apply Z.div_lt_upper_bound]; lia).
  assert (0 <= m / 10 < 10 ^ Z.of_nat w) by (split; [apply Z.div_pos|apply Z.div_lt_upper_bound]; lia).
  pose proof (Z.mod_pos_bound n 10). pose proof (Z.mod_pos_bound m 10).
  pose proof (Z.div_mod n 10). pose proof (Z.div_mod m 10).
  rewrite compare_app_eqlen by (by rewrite !length_pad).
  rewrite IH by done. rewrite compare_cons, ascii_compare_digit by lia.
  cbn [String.compare]. unfold lex.
  destruct (Z.compare_spec (n / 10) (m / 10)), (Z.compare_spec (n mod 10) (m mod 10)),
    (Z.compare_spec n m); try done; lia.
Qed.

(** ** Calendar order *)
Lemma days_before_year_mono y z : y <= z -> days_before_year y <= days_before_year z.
Proof.
  intros H. unfold days_before_year.
  pose proof (Z.div_mod (y + 3) 4). pose proof (Z.mod_pos_bound (y + 3) 4).
  pose proof (Z.div_mod (z + 3) 4). pose proof (Z.mod_pos_bound (z + 3) 4).
  pose proof (Z.div_mod (y + 99) 100). pose proof (Z.mod_pos_bound (y + 99) 100).
  pose proof (Z.div_mod (z + 99) 100). pose proof (Z.mod_pos_bound (z + 99) 100).
  pose proof (Z.div_le_mono (y + 399) (z + 399) 400).
  lia.
Qed.

(** The year found is the one whose days contain [d]. *)
Lemma year_of_day_spec d :
  days_before_year (year_of_day d) <= d < days_before_year (year_of_day d + 1).
Proof.
  unfold year_of_day. set (y := 400 * d / 146097).
  pose proof (Z.div_mod (400 * d) 146097 ltac:(lia)) as Hd. fold y in Hd.
  pose proof (Z.mod_pos_bound (400 * d) 146097 ltac:(lia)) as Hm.
  assert (days_before_year (y - 1) <= d /\ d < days_before_year (y + 2)) as [Hlo Hhi].
  { unfold days_before_year.
    pose proof (Z.div_mod (y - 1 + 3) 4). pose proof (Z.mod_pos_bound (y - 1 + 3) 4).
    pose proof (Z.div_mod (y - 1 + 99) 100). pose proof (Z.mod_pos_bound (y - 1 + 99) 100).
    pose proof (Z.div_mod (y - 1 + 399) 400). pose proof (Z.mod_pos_bound (y - 1 + 399) 400).
    pose proof (Z.div_mod (y + 2 + 3) 4). pose proof (Z.mod_pos_bound (y + 2 + 3) 4).
    pose proof (Z.div_mod (y + 2 + 99) 100). pose proof (Z.mod_pos_bound (y + 2 + 99) 100).
    pose proof (Z.div_mod (y + 2 + 399) 400). pose proof (Z.mod_pos_bound (y + 2 + 399) 400).
    lia. }
  destruct (Z.ltb_spec d (days_before_year y)).
  - replace (y - 1 + 1) with y by lia. lia.
  - destruct (Z.leb_spec (days_before_year (y + 1)) d); [|lia].
    replace (y + 1 + 1) with (y + 2) by lia. lia.
Qed.

Lemma year_of_day_mono d e : d <= e -> year_of_day d <= year_of_day e.
Proof.
  intros H. destruct (Z.le_gt_cases (year_of_day d) (year_of_day e)) as [|Hlt]; [done|].
  pose proof (year_of_day_spec d). pose proof (year_of_day_spec e).
  pose proof (days_before_year_mono (year_of_day e + 1) (year_of_day d)). lia.
Qed.

Lemma month_day_ge ls m doy : m <= (month_day ls m doy).1.
Proof.
  revert m doy. induction ls as [|l ls IH]; intros m doy; simpl; [lia|].
  destruct (doy <? l); simpl; [lia|]. specialize (IH (m + 1) (doy - l)). lia.
Qed.

Lemma month_day_mono ls m a b :
  a < b ->
  let p := month_day ls m a in let q := month_day ls m b in
  p.1 < q.1 \/ (p.1 = q.1 /\ p.2 < q.2).
Proof.
  revert m a b. induction ls as [|l ls IH]; intros m a b Hab; simpl; [lia|].
  destruct (Z.ltb_spec a l), (Z.ltb_spec b l); simpl; try lia.
  - pose proof (month_day_ge ls (m + 1) (b - l)). lia.
  - apply IH. lia.
Qed.

Lemma month_day_bounds ls m doy :
  Forall (fun l => l <= 31) ls -> 0 <= doy < foldr Z.add 0 ls ->
  let p := month_day ls m doy in
  p.1 < m + Z.of_nat (length ls) /\ 1 <= p.2 <= 31.
Proof.
  intros Hl. revert m doy. induction Hl as [|l ls Hle Hl IH]; intros m doy; cbn; [lia|].
  intros Hd. destruct (Z.ltb_spec doy l); cbn; [lia|].
  specialize (IH (m + 1) (doy - l)). cbn in IH. lia.
Qed.

(** The months of year [y] cover exactly its days. *)
Lemma month_lengths_sum y :
  days_before_year (y + 1) - days_before_year y = foldr Z.add 0 (month_lengths y).
Proof.
  assert (forall k n : Z, 0 < k ->
    (y + n + 1) / k - (y + n) / k = if (y + n + 1) mod k =? 0 then 1 else 0) as Hstep.
  { intros k n Hk. pose proof (Z.div_mod (y + n + 1) k). pose proof (Z.div_mod (y + n) k).
    pose proof (Z.mod_pos_bound (y + n + 1) k Hk). pose proof (Z.mod_pos_bound (y + n) k Hk).
    destruct (Z.eqb_spec ((y + n + 1) mod k) 0); nia. }
  pose proof (Hstep 4 3 ltac:(lia)) as H4. pose proof (Hstep 100 99 ltac:(lia)) as H100.
  pose proof (Hstep 400 399 ltac:(lia)) as H400.
  assert (forall k, 0 < k -> (y + (k - 1) + 1) mod k = y mod k) as Hmod.
  { intros k Hk. replace (y + (k - 1) + 1) with (y + 1 * k) by lia. apply Z.mod_add. lia. }
  change (y + 3 + 1) with (y + (4 - 1) + 1) in H4 at 2.
  change (y + 99 + 1) with (y + (100 - 1) + 1) in H100 at 2.
  change (y + 399 + 1) with (y + (400 - 1) + 1) in H400 at 2.
  rewrite (Hmod 4 ltac:(lia)) in H4. rewrite (Hmod 100 ltac:(lia)) in H100.
  rewrite (Hmod 400 ltac:(lia)) in H400.
  unfold days_before_year, month_lengths, leap. cbn [foldr].
  replace (y + 1 + 3) with (y + 3 + 1) by lia. replace (y + 1 + 99) with (y + 99 + 1) by lia.
  replace (y + 1 + 399) with (y + 399 + 1) by lia.
  assert (y mod 400 = 0 -> y mod 100 = 0).
  { pose proof (Z.div_mod y 400). pose proof (Z.div_mod y 100).
    pose proof (Z.mod_pos_bound y 100). lia. }
  assert (y mod 100 = 0 -> y mod 4 = 0).
  { pose proof (Z.div_mod y 100). pose proof (Z.div_mod y 4).
    pose proof (Z.mod_pos_bound y 4). lia. }
  destruct (Z.eqb_spec (y mod 4) 0), (Z.eqb_spec (y mod 100) 0), (Z.eqb_spec (y mod 400) 0);
    cbn; lia.
Qed.

#[local] Arguments month_lengths : simpl never.
#[local] Arguments year_of_day : simpl never.
#[local] Arguments days_before_year : simpl never.
#[local] Arguments Z.div : simpl never.
#[local] Arguments Z.modulo : simpl never.

(** The fields of an instant with a four-digit year fit their widths. *)
Lemma civil_bounds t :
  four_digit_year t = true ->
  let c := civil_of t in
  0 <= c_year c < 10000 /\ 0 <= c_month c < 100 /\ 0 <= c_day c < 100 /\
  0 <= c_hour c < 100 /\ 0 <= c_min c < 100 /\ 0 <= c_sec c < 100 /\
  0 <= c_ns c < Second.
Proof.
  unfold four_digit_year, civil_of. cbn. set (d := t / Second / 86400 + epoch_day).
  intros Hv. destruct_bools. set (y := year_of_day d).
  pose proof (year_of_day_spec d) as Hy. fold y in Hy.
  assert (0 <= y < 10000).
  { change 0 with (days_before_year 0) in H. split.
    - destruct (Z.le_gt_cases 0 y); [done|].
      pose proof (days_before_year_mono (y + 1) 0). lia.
    - destruct (Z.lt_ge_cases y 10000); [done|].
      pose proof (days_before_year_mono 10000 y). lia. }
  pose proof (month_lengths_sum y) as Hs.
  pose proof (month_day_bounds (month_lengths y) 1 (d - days_before_year y)) as Hb.
  pose proof (month_day_ge (month_lengths y) 1 (d - days_before_year y)).
  change (length (month_lengths y)) with 12%nat in Hb. cbn zeta in Hb.
  destruct Hb as [? ?]; [unfold month_lengths; destruct (leap y); repeat constructor; lia|lia|].
  pose proof (Z.mod_pos_bound (t / Second) 86400). set (sod := (t / Second) mod 86400) in *.
  pose proof (Z.mod_pos_bound (sod / 60) 60). pose proof (Z.mod_pos_bound sod 60).
  pose proof (Z.mod_pos_bound t Second ltac:(unfold Second; lia)).
  pose proof (Z.div_pos sod 3600). pose proof (Z.div_lt_upper_bound sod 3600 100). lia.
Qed.

(** ** Order of the texts *)

(** The comparison the date and time fields of a text decide. *)
Definition civil_lex (a b : civil) : comparison :=
  lex (c_year a ?= c_year b) (lex (c_month a ?= c_month b) (lex (c_day a ?= c_day b)
  (lex (c_hour a ?= c_hour b) (lex (c_min a ?= c_min b) (c_sec a ?= c_sec b))))).

Lemma lex_assoc a b c : lex (lex a b) c = lex a (lex b c).
Proof. by destruct a. Qed.

Lemma format_seconds_length c : String.length (format_seconds c) = 19%nat.
Proof. unfold format_seconds. rewrite !strlen_app, !length_pad. done. Qed.

Lemma compare_format_seconds t u s s' :
  four_digit_year t = true -> four_digit_year u = true ->
  String.compare (format_seconds (civil_of t) +:+ s) (format_seconds (civil_of u) +:+ s') =
  lex (civil_lex (civil_of t) (civil_of u)) (String.compare s s').
Proof.
  intros (?&?&?&?&?&?&_)%civil_bounds (?&?&?&?&?&?&_)%civil_bounds.
  rewrite compare_app_eqlen by (by rewrite !format_seconds_length). f_equal.
  unfold format_seconds, civil_lex.
  rewrite !compare_app_eqlen by (rewrite ?strlen_app, ?length_pad; done).
  rewrite !compare_pad by (change (10 ^ Z.of_nat 4) with 10000; change (10 ^ Z.of_nat 2) with 100; lia).
  rewrite !compare_refl. done.
Qed.

Lemma civil_lex_same t u : t / Second = u / Second -> civil_lex (civil_of t) (civil_of u) = Eq.
Proof. intros H. unfold civil_lex, civil_of. rewrite H. cbn. by rewrite !Z.compare_refl. Qed.

Lemma civil_lex_lt t u : t / Second < u / Second -> civil_lex (civil_of t) (civil_of u) = Lt.
Proof.
  intros Hs. unfold civil_lex, civil_of. cbn. set (s := t / Second) in *. set (r := u / Second) in *.
  pose proof (Z.div_le_mono s r 86400). set (d := s / 86400 + epoch_day). set (e := r / 86400 + epoch_day).
  pose proof (year_of_day_mono d e ltac:(lia)). destruct (Z.lt_ge_cases d e) as [Hd|Hd].
  - destruct (Z.lt_ge_cases (year_of_day d) (year_of_day e)) as [Hy|Hy].
    + apply Z.compare_lt_iff in Hy. by rewrite Hy.
    + assert (year_of_day e = year_of_day d) as -> by lia. rewrite Z.compare_refl.
      destruct (month_day_mono (month_lengths (year_of_day d)) 1
        (d - days_before_year (year_of_day d)) (e - days_before_year (year_of_day d)))
        as [Hm|[Hm Hd']]; [lia|..].
      * apply Z.compare_lt_iff in Hm. cbn. by rewrite Hm.
      * cbn. rewrite Hm, Z.compare_refl. cbn. apply Z.compare_lt_iff in Hd'. by rewrite Hd'.
  - assert (s / 86400 = r / 86400) as Hday by (unfold d, e in *; lia).
    assert (e = d) as -> by (unfold d, e; lia). rewrite !Z.compare_refl. cbn.
    pose proof (Z.div_mod s 86400). pose proof (Z.div_mod r 86400).
    set (a := s mod 86400) in *. set (b := r mod 86400) in *. assert (a < b) by lia.
    pose proof (Z.div_mod a 3600). pose proof (Z.mod_pos_bound a 3600).
    pose proof (Z.div_mod b 3600). pose proof (Z.mod_pos_bound b 3600).
    pose proof (Z.div_mod a 60). pose proof (Z.mod_pos_bound a 60).
    pose proof (Z.div_mod b 60). pose proof (Z.mod_pos_bound b 60).
    pose proof (Z.div_mod (a / 60) 60). pose proof (Z.mod_pos_bound (a / 60) 60).
    pose proof (Z.div_mod (b / 60) 60). pose proof (Z.mod_pos_bound (b / 60) 60).
    assert (a / 60 / 60 = a / 3600) by (by rewrite Z.div_div by lia).
    assert (b / 60 / 60 = b / 3600) by (by rewrite Z.div_div by lia).
    destruct (Z.compare_spec (a / 3600) (b / 3600)); cbn; [|done|lia].
    destruct (Z.compare_spec ((a / 60) mod 60) ((b / 60) mod 60)); cbn; [|done|lia].
    destruct (Z.compare_spec (a mod 60) (b mod 60)); cbn; [lia|done|lia].
Qed.

(** Seconds and nanoseconds order instants. *)
Lemma compare_split t u :
  (t ?= u) = lex (t / Second ?= u / Second) (t mod Second ?= u mod Second).
Proof.
  unfold Second.
  pose proof (Z.div_mod t 1000000000). pose proof (Z.mod_pos_bound t 1000000000).
  pose proof (Z.div_mod u 1000000000). pose proof (Z.mod_pos_bound u 1000000000).
  destruct (Z.compare_spec (t / 1000000000) (u / 1000000000)); cbn;
    destruct (Z.compare_spec t u); try done; try lia;
    destruct (Z.compare_spec (t mod 1000000000) (u mod 1000000000)); try done; lia.
Qed.

Lemma civil_lex_seconds t u : civil_lex (civil_of t) (civil_of u) = (t / Second ?= u / Second).
Proof.
  destruct (Z.compare_spec (t / Second) (u / Second)) as [H|H|H].
  - by apply civil_lex_same.
  - by apply civil_lex_lt.
  - apply civil_lex_lt in H. revert H. unfold civil_lex.
    rewrite (Z.compare_antisym (c_year (civil_of u))), (Z.compare_antisym (c_month (civil_of u))),
      (Z.compare_antisym (c_day (civil_of u))), (Z.compare_antisym (c_hour (civil_of u))),
      (Z.compare_antisym (c_min (civil_of u))), (Z.compare_antisym (c_sec (civil_of u))).
    repeat (match goal with |- context [CompOpp (?a ?= ?b)] => destruct (a ?= b) end; cbn; try done).
Qed.

(** Trailing zeros do not change the order of equally long digit strings. *)
Definition is_digit (c : Ascii.ascii) : Prop := exists n, 0 <= n < 10 /\ c = digit n.
Fixpoint all_digits (s : string) : Prop :=
  match s with "" => True | String c s => is_digit c /\ all_digits s end.

Lemma all_digits_app s t : all_digits s -> all_digits t -> all_digits (s +:+ t).
Proof. induction s; simpl; [done|naive_solver]. Qed.

Lemma pad_digits w n : all_digits (pad w n).
Proof.
  revert n. induction w as [|w IH]; intros n; simpl; [done|].
  apply all_digits_app; [apply IH|]. split; [|done].
  exists (n mod 10). split; [apply Z.mod_pos_bound; lia|done].
Qed.

Lemma compare_trim_zeros s t :
  all_digits s -> all_digits t -> String.length s = String.length t ->
  String.compare (trim_zeros s) (trim_zeros t) = String.compare s t.
Proof.
  revert t. induction s as [|a s IH]; intros [|b t]; try done.
  intros [(n & Hn & ->) Hs] [(m & Hm & ->) Ht] [= Hl].
  specialize (IH t Hs Ht Hl). rewrite compare_cons, <-IH, ascii_compare_digit by done.
  cbn [trim_zeros].
  assert (forall k, 0 <= k < 10 -> digit k = digit 0 -> k = 0) as Hinj.
  { intros k Hk E. pose proof (ascii_compare_digit k 0 Hk ltac:(lia)) as Hc.
    rewrite E in Hc. unfold Ascii.compare in Hc. rewrite N.compare_refl in Hc.
    symmetry in Hc. by apply Z.compare_eq in Hc. }
  destruct (trim_zeros s) as [|c s'] eqn:Es, (trim_zeros t) as [|d t'] eqn:Et;
    repeat case_decide; rewrite ?compare_cons, ?ascii_compare_digit by done;
    repeat match goal with H : digit _ = digit 0 |- _ => apply Hinj in H; [|done]; subst end;
    repeat match goal with |- context [?x ?= ?y] => destruct (Z.compare_spec x y) end;
    try done; subst; try done; try lia.
Qed.

Lemma trim_zeros_nonempty w n : 0 < n < 10 ^ Z.of_nat w -> trim_zeros (pad w n) <> "".
Proof.
  intros Hn E. assert (String.compare (trim_zeros (pad w n)) (trim_zeros (pad w 0)) = Gt) as Hc.
  { rewrite compare_trim_zeros; [|apply pad_digits..|by rewrite !length_pad].
    rewrite compare_pad by lia. apply Z.compare_gt_iff. lia. }
  rewrite E in Hc. by destruct (trim_zeros (pad w 0)).
Qed.

Lemma compare_nano_fraction n m :
  0 <= n < Second -> 0 <= m < Second ->
  String.compare (nano_fraction n) (nano_fraction m) = (n ?= m).
Proof.
  intros Hn Hm. unfold nano_fraction, Second in *.
  destruct (Z.eqb_spec n 0) as [->|Hn0], (Z.eqb_spec m 0) as [->|Hm0]; [done|..].
  - by assert ((0 ?= m) = Lt) as -> by (apply Z.compare_lt_iff; lia).
  - by assert ((n ?= 0) = Gt) as -> by (apply Z.compare_gt_iff; lia).
  - rewrite compare_app_same, compare_trim_zeros by (rewrite ?length_pad; auto using pad_digits).
    by rewrite compare_pad by lia.
Qed.

(** [rtrim] removes the one [Z] that [formatTime] ends with. *)
Fixpoint no_Z (s : string) : Prop :=
  match s with "" => True | String c s => c <> Ascii.ascii_of_nat 90 /\ no_Z s end.

Lemma no_Z_app s t : no_Z s -> no_Z t -> no_Z (s +:+ t).
Proof. induction s; simpl; [done|naive_solver]. Qed.

Lemma no_Z_digits s : all_digits s -> no_Z s.
Proof.
  induction s as [|c s IH]; simpl; [done|]. intros [(n & Hn & ->) Hs]. split; [|auto].
  unfold digit. intros E%(f_equal Ascii.nat_of_ascii).
  rewrite !Ascii.nat_ascii_embedding in E by lia. lia.
Qed.

Lemma no_Z_trim_zeros s : no_Z s -> no_Z (trim_zeros s).
Proof.
  induction s as [|c s IH]; simpl; [done|]. intros [Hc Hs]. specialize (IH Hs).
  destruct (trim_zeros s); [case_decide; simpl; auto|done].
Qed.

Lemma rtrimZ_no_Z s : no_Z s -> rtrimZ (s +:+ "Z") = s.
Proof.
  induction s as [|c s IH]; [done|]. intros [Hc Hs]. specialize (IH Hs).
  change (String c s +:+ "Z") with (String c (s +:+ "Z")). cbn [rtrimZ]. rewrite IH.
  destruct s; [by rewrite decide_False|done].
Qed.

Lemma no_Z_format c : no_Z (format_seconds c +:+ nano_fraction (c_ns c)).
Proof.
  apply no_Z_app.
  - unfold format_seconds. repeat first
      [ apply no_Z_digits, pad_digits
      | apply no_Z_app
      | solve [vm_compute; split; [discriminate|done]] ].
  - unfold nano_fraction. destruct (c_ns c =? 0); [done|].
    apply no_Z_app; [vm_compute; split; [discriminate|done]|].
    apply no_Z_trim_zeros, no_Z_digits, pad_digits.
Qed.

Lemma strapp_assoc (a b c : string) : (a +:+ b) +:+ c = a +:+ (b +:+ c).
Proof. induction a as [|x a IH]; [done|exact (f_equal (String x) IH)]. Qed.

Lemma rtrimZ_formatTime t :
  rtrimZ (formatTime t) = format_seconds (civil_of t) +:+ nano_fraction (c_ns (civil_of t)).
Proof.
  unfold formatTime. rewrite <-strapp_assoc. apply rtrimZ_no_Z, no_Z_format.
Qed.

(** Comparing RFC3339Nano texts with the final [Z] trimmed is comparing instants. *)
Lemma compare_rtrimZ t u :
  four_digit_year t = true -> four_digit_year u = true ->
  String.compare (rtrimZ (formatTime t)) (rtrimZ (formatTime u)) = (t ?= u).
Proof.
  intros Ht Hu. rewrite !rtrimZ_formatTime, compare_format_seconds, civil_lex_seconds by done.
  pose proof (civil_bounds t Ht) as (_&_&_&_&_&_&?).
  pose proof (civil_bounds u Hu) as (_&_&_&_&_&_&?).
  rewrite compare_nano_fraction by done. by rewrite (compare_split t u).
Qed.

(** Comparing fixed-width texts is comparing instants. *)
Lemma compare_formatFixed t u :
  four_digit_year t = true -> four_digit_year u = true ->
  String.compare (formatFixed t) (formatFixed u) = (t ?= u).
Proof.
  intros Ht Hu. unfold formatFixed. rewrite compare_format_seconds, civil_lex_seconds by done.
  pose proof (civil_bounds t Ht) as (_&_&_&_&_&_&?).
  pose proof (civil_bounds u Hu) as (_&_&_&_&_&_&?).
  rewrite compare_app_same, compare_app_eqlen by (by rewrite !length_pad).
  rewrite compare_pad, compare_refl by (change (10 ^ Z.of_nat 9) with Second; lia).
  change (c_ns (civil_of t)) with (t mod Second). change (c_ns (civil_of u)) with (u mod Second).
  rewrite (compare_split t u).
  by destruct (t / Second ?= u / Second), (t mod Second ?= u mod Second).
Qed.

(** Untrimmed RFC3339Nano texts order instants of different seconds. *)
Lemma compare_formatTime_seconds t u :
  four_digit_year t = true -> four_digit_year u = true ->
  t / Second <> u / Second ->
  String.compare (formatTime t) (formatTime u) = (t ?= u).
Proof.
  intros Ht Hu Hne. unfold formatTime. rewrite compare_format_seconds, civil_lex_seconds by done.
  rewrite (compare_split t u). by destruct (Z.compare_spec (t / Second) (u / Second)).
Qed.

(** The text determines the instant, so a column may be read as an instant. *)
Lemma format_nano_inj t u :
  four_digit_year t = true -> four_digit_year u = true ->
  formatTime t = formatTime u -> t = u.
Proof.
  intros Ht Hu E. apply Z.compare_eq. rewrite <-compare_rtrimZ by done.
  rewrite E. apply compare_refl.
Qed.

(** ** The comparisons the queries make *)

(** [rtrim(a, 'Z') <= rtrim(b, 'Z')] on RFC3339Nano columns. *)
Definition sql_le_trimmed (a b : time) : bool :=
  text_le (rtrimZ (formatTime a)) (rtrimZ (formatTime b)).
(** [a <= b] on RFC3339Nano columns, untrimmed. *)
Definition sql_le_nano (a b : time) : bool := text_le (formatTime a) (formatTime b).
(** [a <= b] and [a > b] on fixed-width columns. *)
Definition sql_le_fixed (a b : time) : bool := text_le (formatFixed a) (formatFixed b).
Definition sql_gt_fixed (a b : time) : bool := text_gt (formatFixed a) (formatFixed b).

Lemma sql_le_trimmed_spec a b :
  four_digit_year a = true -> four_digit_year b = true -> sql_le_trimmed a b = (a <=? b).
Proof. intros. unfold sql_le_trimmed, text_le. by rewrite compare_rtrimZ. Qed.

Lemma sql_le_fixed_spec a b :
  four_digit_year a = true -> four_digit_year b = true -> sql_le_fixed a b = (a <=? b).
Proof. intros. unfold sql_le_fixed, text_le. by rewrite compare_formatFixed. Qed.

Lemma sql_gt_fixed_spec a b :
  four_digit_year a = true -> four_digit_year b = true -> sql_gt_fixed a b = (b <? a).
Proof.
  intros. unfold sql_gt_fixed, text_gt. rewrite compare_formatFixed by done.
  rewrite Z.ltb_compare, (Z.compare_antisym a b). by destruct (a ?= b).
Qed.
