(* ===== verification/Codec.v ===== *)
(** * Standard-library codecs the services use

    [encoding/base64] (the standard padded and the raw URL alphabets, with and
    without [Strict]) and [crypto/sha256], as executable functions on byte
    strings, with the round trips and lengths the stores rely on. *)

From S2P Require Import Prelude.

(** ** Bytes *)
Definition byte_val (c : Ascii.ascii) : Z := Z.of_N (Ascii.N_of_ascii c).
Definition byte_of (z : Z) : Ascii.ascii := Ascii.ascii_of_N (Z.to_N z).

Lemma byte_val_range c : 0 <= byte_val c < 256.
Proof. unfold byte_val. pose proof (Ascii.N_ascii_bounded c). lia. Qed.
Lemma byte_of_val c : byte_of (byte_val c) = c.
Proof. unfold byte_of, byte_val. rewrite N2Z.id. apply Ascii.ascii_N_embedding. Qed.
Lemma byte_val_of z : 0 <= z < 256 -> byte_val (byte_of z) = z.
Proof. intros. unfold byte_of, byte_val. rewrite Ascii.N_ascii_embedding; lia. Qed.

(** ** base64 *)
Module Base64.
Record encoding := {
  alphabet : string;
  padded : bool;
  strict : bool;
}.

Definition std_alphabet : string :=
  "ABCDEFGHIJKLMNOPQRSTUVWXYZabcdefghijklmnopqrstuvwxyz0123456789+/".
Definition url_alphabet : string :=
  "ABCDEFGHIJKLMNOPQRSTUVWXYZabcdefghijklmnopqrstuvwxyz0123456789-_".

Definition StdEncoding := {| alphabet := std_alphabet; padded := true; strict := false |}.
Definition RawURLEncoding := {| alphabet := url_alphabet; padded := false; strict := false |}.
Definition Strict (e : encoding) :=
  {| alphabet := alphabet e; padded := padded e; strict := true |}.

Definition pad_char : Ascii.ascii := Ascii.ascii_of_nat 61.

Definition sextet (e : encoding) (n : Z) : Ascii.ascii :=
  match String.get (Z.to_nat n) (alphabet e) with Some c => c | None => pad_char end.

Fixpoint index_of (c : Ascii.ascii) (s : string) (i : Z) : option Z :=
  match s with
  | "" => None
  | String d s => if decide (c = d) then Some i else index_of c s (i + 1)
  end.
Definition value (e : encoding) (c : Ascii.ascii) : option Z := index_of c (alphabet e) 0.

(** [EncodeToString]. *)
Fixpoint encode (e : encoding) (s : string) : string :=
  match s with
  | "" => ""
  | String a "" =>
      let v := byte_val a * 65536 in
      String (sextet e (v / 262144)) (String (sextet e (v / 4096 mod 64))
        (if padded e then String pad_char (String pad_char "") else ""))
  | String a (String b "") =>
      let v := byte_val a * 65536 + byte_val b * 256 in
      String (sextet e (v / 262144)) (String (sextet e (v / 4096 mod 64))
        (String (sextet e (v / 64 mod 64))
          (if padded e then String pad_char "" else "")))
  | String a (String b (String c r)) =>
      let v := byte_val a * 65536 + byte_val b * 256 + byte_val c in
      String (sextet e (v / 262144)) (String (sextet e (v / 4096 mod 64))
        (String (sextet e (v / 64 mod 64)) (String (sextet e (v mod 64)) (encode e r))))
  end.

(** The decoder skips carriage returns and newlines wherever they stand. *)
Fixpoint skip_newlines (s : string) : string :=
  match s with
  | "" => ""
  | String c r =>
      if bool_decide (c = Ascii.ascii_of_nat 10) || bool_decide (c = Ascii.ascii_of_nat 13)
      then skip_newlines r else String c (skip_newlines r)
  end.

(** A final group of two digits (one byte) or three digits (two bytes);
    [Strict] requires the unused bits to be zero. *)
Definition tail2 (e : encoding) (a b : Ascii.ascii) : option string :=
  match value e a, value e b with
  | Some x, Some y =>
      let v := x * 262144 + y * 4096 in
      if strict e && negb (v / 256 mod 256 =? 0) then None
      else Some (String (byte_of (v / 65536)) "")
  | _, _ => None
  end.
Definition tail3 (e : encoding) (a b c : Ascii.ascii) : option string :=
  match value e a, value e b, value e c with
  | Some x, Some y, Some z =>
      let v := x * 262144 + y * 4096 + z * 64 in
      if strict e && negb (v mod 256 =? 0) then None
      else Some (String (byte_of (v / 65536)) (String (byte_of (v / 256 mod 256)) ""))
  | _, _, _ => None
  end.

Fixpoint decode_quanta (e : encoding) (s : string) : option string :=
  match s with
  | "" => Some ""
  | String a "" => None
  | String a (String b "") => if padded e then None else tail2 e a b
  | String a (String b (String c "")) => if padded e then None else tail3 e a b c
  | String a (String b (String c (String d r))) =>
      if padded e && bool_decide (c = pad_char)
      then (if bool_decide (d = pad_char) && bool_decide (r = "") then tail2 e a b else None)
      else if padded e && bool_decide (d = pad_char)
      then (if bool_decide (r = "") then tail3 e a b c else None)
      else match value e a, value e b, value e c, value e d with
           | Some x, Some y, Some z, Some u =>
               let v := x * 262144 + y * 4096 + z * 64 + u in
               match decode_quanta e r with
               | Some t =>
                   Some (String (byte_of (v / 65536)) (String (byte_of (v / 256 mod 256))
                     (String (byte_of (v mod 256)) t)))
               | None => None
               end
           | _, _, _, _ => None
           end
  end.

(** [DecodeString]. *)
Definition decode (e : encoding) (s : string) : option string :=
  decode_quanta e (skip_newlines s).

(** [EncodedLen] and [DecodedLen] of the padded encoding. *)
Definition EncodedLen (n : Z) : Z := wrap64 (Z.quot (wrap64 (n + 2)) 3 * 4).
Definition DecodedLen (n : Z) : Z := n / 4 * 3.

Example encode_std : encode StdEncoding "any carnal pleas" = "YW55IGNhcm5hbCBwbGVhcw==".
Proof. vm_compute. reflexivity. Qed.
Example decode_std : decode StdEncoding "YW55IGNhcm5hbCBwbGVhcw==" = Some "any carnal pleas".
Proof. vm_compute. reflexivity. Qed.
Example decode_loose : decode StdEncoding "YR==" = Some "a" /\ decode (Strict StdEncoding) "YR==" = None.
Proof. vm_compute. done. Qed.
Example encode_raw : encode RawURLEncoding "ab" = "YWI" /\ decode (Strict RawURLEncoding) "YWI" = Some "ab".
Proof. vm_compute. done. Qed.

(** *** Round trip *)

(** What the proofs need of an alphabet: 64 distinct characters, none of them
    the padding or a newline. *)
Class Good (e : encoding) : Prop := {
  value_sextet n : 0 <= n < 64 -> value e (sextet e n) = Some n;
  sextet_not_pad n : 0 <= n < 64 -> sextet e n <> pad_char;
  sextet_not_nl n : 0 <= n < 64 ->
    sextet e n <> Ascii.ascii_of_nat 10 /\ sextet e n <> Ascii.ascii_of_nat 13;
}.

Definition good_check (e : encoding) : bool :=
  forallb (fun n =>
    bool_decide (value e (sextet e n) = Some n) &&
    bool_decide (sextet e n <> pad_char) &&
    bool_decide (sextet e n <> Ascii.ascii_of_nat 10) &&
    bool_decide (sextet e n <> Ascii.ascii_of_nat 13)) (seqZ 0 64).

Lemma good_check_sound e : good_check e = true -> Good e.
Proof.
  unfold good_check. rewrite forallb_forall. intros H.
  assert (forall n, 0 <= n < 64 ->
    value e (sextet e n) = Some n /\ sextet e n <> pad_char /\
    sextet e n <> Ascii.ascii_of_nat 10 /\ sextet e n <> Ascii.ascii_of_nat 13) as K.
  { intros n Hn. specialize (H n). rewrite <-list_elem_of_In, elem_of_seqZ in H.
    specialize (H ltac:(lia)). destruct_bools. auto. }
  split; intros n Hn; destruct (K n Hn) as (?&?&?&?); auto.
Qed.

#[global] Instance StdEncoding_good : Good StdEncoding.
Proof. apply good_check_sound. vm_compute. reflexivity. Qed.
#[global] Instance RawURLEncoding_good : Good RawURLEncoding.
Proof. apply good_check_sound. vm_compute. reflexivity. Qed.
#[global] Instance Strict_good e : Good e -> Good (Strict e).
Proof. intros []. by split. Qed.

(** Induction by groups of three bytes. *)
Lemma string_ind3 (P : string -> Prop) :
  P "" -> (forall a, P (String a "")) -> (forall a b, P (String a (String b ""))) ->
  (forall a b c r, P r -> P (String a (String b (String c r)))) -> forall s, P s.
Proof.
  intros H0 H1 H2 H3.
  assert (forall s, P s /\ (forall a, P (String a s)) /\ (forall a b, P (String a (String b s)))) as H.
  { induction s as [|c s (?&?&?)]; [auto|]. repeat split; auto. }
  intros s. apply H.
Qed.

Section roundtrip.
Context (e : encoding) `{!Good e}.

Lemma skip_newlines_sextet n r :
  0 <= n < 64 -> skip_newlines (String (sextet e n) r) = String (sextet e n) (skip_newlines r).
Proof.
  intros Hn. destruct (sextet_not_nl (e := e) n Hn). cbn.
  by rewrite !bool_decide_false by done.
Qed.

Lemma skip_newlines_encode s : skip_newlines (encode e s) = encode e s.
Proof.
  assert (skip_newlines (String pad_char (String pad_char "")) = String pad_char (String pad_char "")
    /\ skip_newlines (String pad_char "") = String pad_char "") as [Hp2 Hp1] by done.
  induction s as [|a|a b|a b c r IH] using string_ind3; [done|..];
    pose proof (byte_val_range a); try pose proof (byte_val_range b);
    try pose proof (byte_val_range c); cbn [encode].
  - set (v := byte_val a * 65536).
    assert (0 <= v / 262144 < 64) by (split; [apply Z.div_pos|apply Z.div_lt_upper_bound]; lia).
    pose proof (Z.mod_pos_bound (v / 4096) 64).
    rewrite !skip_newlines_sextet by lia. by destruct (padded e); rewrite ?Hp2.
  - set (v := byte_val a * 65536 + byte_val b * 256).
    assert (0 <= v / 262144 < 64) by (split; [apply Z.div_pos|apply Z.div_lt_upper_bound]; lia).
    pose proof (Z.mod_pos_bound (v / 4096) 64). pose proof (Z.mod_pos_bound (v / 64) 64).
    rewrite !skip_newlines_sextet by lia. by destruct (padded e); rewrite ?Hp1.
  - set (v := byte_val a * 65536 + byte_val b * 256 + byte_val c).
    assert (0 <= v / 262144 < 64) by (split; [apply Z.div_pos|apply Z.div_lt_upper_bound]; lia).
    pose proof (Z.mod_pos_bound (v / 4096) 64). pose proof (Z.mod_pos_bound (v / 64) 64).
    pose proof (Z.mod_pos_bound v 64).
    rewrite !skip_newlines_sextet by lia. by rewrite IH.
Qed.

(** Four sextets rebuild the 24-bit group they were cut from. *)
Lemma regroup v :
  0 <= v < 16777216 ->
  v / 262144 * 262144 + v / 4096 mod 64 * 4096 + v / 64 mod 64 * 64 + v mod 64 = v.
Proof.
  intros Hv. pose proof (Z.div_mod v 64). pose proof (Z.div_mod (v / 64) 64).
  pose proof (Z.div_mod (v / 4096) 64).
  assert (v / 64 / 64 = v / 4096) by (by rewrite Z.div_div by lia).
  assert (v / 4096 / 64 = v / 262144) by (by rewrite Z.div_div by lia). lia.
Qed.

Lemma group_bytes x y z :
  0 <= x < 256 -> 0 <= y < 256 -> 0 <= z < 256 ->
  let v := x * 65536 + y * 256 + z in
  v / 65536 = x /\ v / 256 mod 256 = y /\ v mod 256 = z.
Proof.
  intros Hx Hy Hz v. unfold v. repeat split.
  - symmetry. apply Z.div_unique with (y * 256 + z); lia.
  - replace (x * 65536 + y * 256 + z) with (z + (x * 256 + y) * 256) by lia.
    rewrite Z.div_add, Z.div_small by lia. rewrite Z.add_0_l, Z.add_comm, Z.mod_add by lia.
    by apply Z.mod_small.
  - replace (x * 65536 + y * 256 + z) with (z + (x * 256 + y) * 256) by lia.
    rewrite Z.mod_add by lia. by apply Z.mod_small.
Qed.

Lemma decode_quanta_encode s : decode_quanta e (encode e s) = Some s.
Proof.
  induction s as [|a|a b|a b c r IH] using string_ind3; [done|..];
    pose proof (byte_val_range a) as Ra; try pose proof (byte_val_range b) as Rb;
    try pose proof (byte_val_range c) as Rc; cbn [encode].
  - pose proof (group_bytes (byte_val a) 0 0 Ra ltac:(lia) ltac:(lia)) as (G1 & G2 & G3).
    rewrite Z.add_0_r, Z.mul_0_l, Z.add_0_r in G1, G2, G3.
    set (v := byte_val a * 65536) in *. pose proof (regroup v ltac:(lia)) as Hv.
    assert (0 <= v / 262144 < 64) by (split; [apply Z.div_pos|apply Z.div_lt_upper_bound]; lia).
    pose proof (Z.mod_pos_bound (v / 4096) 64 ltac:(lia)).
    assert (v / 64 mod 64 = 0 /\ v mod 64 = 0) as [E1 E2].
    { unfold v. replace (byte_val a * 65536) with (byte_val a * 16 * 64 * 64) by lia.
      rewrite Z.div_mul by lia. by rewrite !Z.mod_mul by lia. }
    rewrite E1, E2, Z.mul_0_l, !Z.add_0_r in Hv.
    assert (tail2 e (sextet e (v / 262144)) (sextet e (v / 4096 mod 64)) = Some (String a "")) as T.
    { unfold tail2. rewrite !value_sextet by lia. cbn zeta. rewrite Hv, G1, G2.
      rewrite byte_of_val. by destruct (strict e). }
    destruct (padded e) eqn:Hp; cbn [decode_quanta]; rewrite ?Hp; [|done]. exact T.
  - pose proof (group_bytes (byte_val a) (byte_val b) 0 Ra Rb ltac:(lia)) as (G1 & G2 & G3).
    rewrite Z.add_0_r in G1, G2, G3.
    set (v := byte_val a * 65536 + byte_val b * 256) in *. pose proof (regroup v ltac:(lia)) as Hv.
    assert (0 <= v / 262144 < 64) by (split; [apply Z.div_pos|apply Z.div_lt_upper_bound]; lia).
    pose proof (Z.mod_pos_bound (v / 4096) 64 ltac:(lia)).
    pose proof (Z.mod_pos_bound (v / 64) 64 ltac:(lia)).
    assert (v mod 64 = 0) as E2.
    { unfold v. replace (byte_val a * 65536 + byte_val b * 256)
        with ((byte_val a * 1024 + byte_val b * 4) * 64) by lia. by rewrite Z.mod_mul by lia. }
    rewrite E2, !Z.add_0_r in Hv.
    assert (tail3 e (sextet e (v / 262144)) (sextet e (v / 4096 mod 64)) (sextet e (v / 64 mod 64))
      = Some (String a (String b ""))) as T.
    { unfold tail3. rewrite !value_sextet by lia. cbn zeta. rewrite Hv, G1, G2, G3.
      rewrite !byte_of_val. by destruct (strict e). }
    destruct (padded e) eqn:Hp; cbn [decode_quanta]; rewrite ?Hp; [|done].
    rewrite (bool_decide_false (sextet e (v / 64 mod 64) = pad_char))
      by (apply sextet_not_pad; lia). exact T.
  - pose proof (group_bytes (byte_val a) (byte_val b) (byte_val c) Ra Rb Rc) as (G1 & G2 & G3).
    set (v := byte_val a * 65536 + byte_val b * 256 + byte_val c) in *.
    pose proof (regroup v ltac:(lia)) as Hv.
    assert (0 <= v / 262144 < 64) by (split; [apply Z.div_pos|apply Z.div_lt_upper_bound]; lia).
    pose proof (Z.mod_pos_bound (v / 4096) 64 ltac:(lia)).
    pose proof (Z.mod_pos_bound (v / 64) 64 ltac:(lia)). pose proof (Z.mod_pos_bound v 64 ltac:(lia)).
    cbn [decode_quanta].
    rewrite !bool_decide_false by (apply sextet_not_pad; lia). rewrite andb_false_r.
    rewrite !value_sextet by lia. cbn zeta. rewrite Hv, G1, G2, G3, IH. by rewrite !byte_of_val.
Qed.

(** Decoding inverts encoding, strict or not. *)
Lemma decode_encode s : decode e (encode e s) = Some s.
Proof. unfold decode. rewrite skip_newlines_encode. apply decode_quanta_encode. Qed.
End roundtrip.

Lemma encode_Strict e s : encode (Strict e) s = encode e s.
Proof. induction s as [|a|a b|a b c r IH] using string_ind3; [done..|]. cbn [encode]. by rewrite IH. Qed.

Lemma encode_raw_length s :
  strlen (encode RawURLEncoding s) = (strlen s * 4 + 2) / 3.
Proof.
  induction s as [|a|a b|a b c r IH] using string_ind3; [done..|].
  cbn [encode]. cbn [String.length]. rewrite !Nat2Z.inj_succ, IH.
  replace ((Z.succ (Z.succ (Z.succ (strlen r)))) * 4 + 2) with (strlen r * 4 + 2 + 4 * 3) by lia.
  rewrite Z.div_add by lia. lia.
Qed.
End Base64.

(** ** SHA-256 *)
Module Sha256.
Definition w32 (z : Z) : Z := Z.land z 4294967295.
Definition rotr (n x : Z) : Z := Z.lor (Z.shiftr x n) (w32 (Z.shiftl x (32 - n))).
Definition big_sigma0 x := Z.lxor (rotr 2 x) (Z.lxor (rotr 13 x) (rotr 22 x)).
Definition big_sigma1 x := Z.lxor (rotr 6 x) (Z.lxor (rotr 11 x) (rotr 25 x)).
Definition small_sigma0 x := Z.lxor (rotr 7 x) (Z.lxor (rotr 18 x) (Z.shiftr x 3)).
Definition small_sigma1 x := Z.lxor (rotr 17 x) (Z.lxor (rotr 19 x) (Z.shiftr x 10)).
Definition ch x y z := Z.lxor (Z.land x y) (Z.land (Z.lxor x 4294967295) z).
Definition maj x y z := Z.lxor (Z.land x y) (Z.lxor (Z.land x z) (Z.land y z)).

(** The constants are the first 32 fractional bits of the cube roots (of the
    square roots, for the initial value) of the first primes. *)
Definition is_prime (n : Z) : bool :=
  forallb (fun d => negb (n mod Z.of_nat d =? 0)) (seq 2 (Z.to_nat (Z.sqrt n) - 1)).
Definition primes (bound : nat) : list Z := filter (fun n => is_prime n = true) (Z.of_nat <$> seq 2 (bound - 2)).
Fixpoint cube_root (bits : nat) (n r : Z) : Z :=
  match bits with
  | O => r
  | S b => let r' := r + 2 ^ Z.of_nat b in cube_root b n (if r' * r' * r' <=? n then r' else r)
  end.
Definition K : list Z :=
  Eval vm_compute in map (fun p => cube_root 40 (p * 2 ^ 96) 0 mod 2 ^ 32) (primes 312).

Record hash := H8 { h0 : Z; h1 : Z; h2 : Z; h3 : Z; h4 : Z; h5 : Z; h6 : Z; h7 : Z }.

Definition init : hash :=
  Eval vm_compute in
  match map (fun p => Z.sqrt (p * 2 ^ 64) mod 2 ^ 32) (primes 20) with
  | [a; b; c; d; e; f; g; h] => H8 a b c d e f g h
  | _ => H8 0 0 0 0 0 0 0 0
  end.

(** The message schedule, newest word first. *)
Fixpoint extend (n : nat) (ws : list Z) : list Z :=
  match n with
  | O => ws
  | S n =>
      extend n (w32 (small_sigma1 (nth 1 ws 0) + nth 6 ws 0 + small_sigma0 (nth 14 ws 0) + nth 15 ws 0) :: ws)
  end.

Definition round (s : hash) (kw : Z * Z) : hash :=
  let t1 := h7 s + big_sigma1 (h4 s) + ch (h4 s) (h5 s) (h6 s) + kw.1 + kw.2 in
  let t2 := big_sigma0 (h0 s) + maj (h0 s) (h1 s) (h2 s) in
  H8 (w32 (t1 + t2)) (h0 s) (h1 s) (h2 s) (w32 (h3 s + t1)) (h4 s) (h5 s) (h6 s).

Definition compress (s : hash) (block : list Z) : hash :=
  let r := fold_left round (combine K (rev (extend 48 (rev block)))) s in
  H8 (w32 (h0 s + h0 r)) (w32 (h1 s + h1 r)) (w32 (h2 s + h2 r)) (w32 (h3 s + h3 r))
     (w32 (h4 s + h4 r)) (w32 (h5 s + h5 r)) (w32 (h6 s + h6 r)) (w32 (h7 s + h7 r)).

(** Big-endian words of a byte list, sixteen to a block. *)
Fixpoint words (bs : list Z) : list Z :=
  match bs with
  | a :: b :: c :: d :: r => a * 16777216 + b * 65536 + c * 256 + d :: words r
  | _ => []
  end.
Fixpoint blocks (n : nat) (ws : list Z) : list (list Z) :=
  match n with O => [] | S n => firstn 16 ws :: blocks n (skipn 16 ws) end.

Fixpoint bytes (s : string) : list Z :=
  match s with "" => [] | String c s => byte_val c :: bytes s end.

Definition be4 (x : Z) : string :=
  String (byte_of (x / 16777216 mod 256)) (String (byte_of (x / 65536 mod 256))
    (String (byte_of (x / 256 mod 256)) (String (byte_of (x mod 256)) ""))).

Definition padding (n : Z) : list Z :=
  128 :: repeat 0 (Z.to_nat ((55 - n) mod 64)) ++
  bytes (be4 (n * 8 / 4294967296) +:+ be4 (n * 8 mod 4294967296)).

(** [sha256.Sum256]. *)
Definition sum (s : string) : string :=
  let bs := bytes s ++ padding (strlen s) in
  let h := fold_left compress (blocks (length bs / 64) (words bs)) init in
  be4 (h0 h) +:+ be4 (h1 h) +:+ be4 (h2 h) +:+ be4 (h3 h) +:+
  be4 (h4 h) +:+ be4 (h5 h) +:+ be4 (h6 h) +:+ be4 (h7 h).

Fixpoint hex (s : string) : string :=
  match s with
  | "" => ""
  | String c s =>
      let d n := match String.get (Z.to_nat n) "0123456789abcdef" with Some x => x | None => c end in
      String (d (byte_val c / 16)) (String (d (byte_val c mod 16)) (hex s))
  end.

(** The FIPS 180-4 test vectors. *)
Example sum_abc :
  hex (sum "abc") = "ba7816bf8f01cfea414140de5dae2223b00361a396177a9cb410ff61f20015ad".
Proof. vm_compute. reflexivity. Qed.
Example sum_448 :
  hex (sum "abcdbcdecdefdefgefghfghighijhijkijkljklmklmnlmnomnopnopq")
  = "248d6a61d20638b8e5c026930c3e6039a33ce45964ff2167f6ecedd419db06c1".
Proof. vm_compute. reflexivity. Qed.

Lemma sum_length s : String.length (sum s) = 32%nat.
Proof. unfold sum. rewrite !strlen_app. reflexivity. Qed.
End Sha256.

Abbreviation sha256 := Sha256.sum.
#[global] Opaque Sha256.sum.

(** ** Capability tokens

    The check both stores make of a token: 43 characters that are the canonical
    unpadded base64url text of 32 bytes. *)
Definition decode_token (token : string) : option string :=
  if negb (strlen token =? 43) then None
  else match Base64.decode (Base64.Strict Base64.RawURLEncoding) token with
       | None => None
       | Some raw =>
           if (strlen raw =? 32) && bool_decide (Base64.encode Base64.RawURLEncoding raw = token)
           then Some raw else None
       end.

(** A token is accepted exactly when it is the encoding of 32 bytes. *)
Lemma decode_token_iff token raw :
  decode_token token = Some raw <->
  String.length raw = 32%nat /\ token = Base64.encode Base64.RawURLEncoding raw.
Proof.
  unfold decode_token. split.
  - destruct (negb _); [done|]. destruct (Base64.decode _ _) as [r|]; [|done].
    destruct (_ && _) eqn:E; [|done]. intros [= <-]. destruct_bools. split; [lia|done].
  - intros [Hl ->]. rewrite Base64.encode_raw_length, Hl. simpl.
    rewrite <- Base64.encode_Strict at 1. rewrite (Base64.decode_encode (Base64.Strict Base64.RawURLEncoding)).
    rewrite bool_decide_true by done. by rewrite Hl.
Qed.
