(* ===== verification/Schema.v ===== *)
(** * The API database

    The tables [db.MigrateAPI] creates (src/internal/db/migrations.go and
    requests.go), one finite map per table keyed by its primary key, with the
    CHECK, UNIQUE and FOREIGN KEY constraints of the schema enforced by the
    insert, update and delete primitives: a statement a constraint refuses is
    [None], which [World.sql] turns into an error.  Timestamp columns hold
    instants (see GoTime.v). *)

From S2P Require Import Prelude World GoTime.

Inductive backend := SqliteBlob | S3Object.
#[export] Instance backend_eq : EqDecision backend.
Proof. solve_decision. Defined.

Inductive secret_state := Active | PendingUpload.
#[export] Instance secret_state_eq : EqDecision secret_state.
Proof. solve_decision. Defined.

Inductive outcome := Opened | Locked | Cancelled | Unavailable.
#[export] Instance outcome_eq : EqDecision outcome.
Proof. solve_decision. Defined.

Inductive request_state := Waiting | Uploading | Submitted | ReqConsumed | ReqCancelled | ReqUnavailable.
#[export] Instance request_state_eq : EqDecision request_state.
Proof. solve_decision. Defined.

Inductive outbox_state := OutboxPending | OutboxPublished | OutboxFailed.
#[export] Instance outbox_state_eq : EqDecision outbox_state.
Proof. solve_decision. Defined.

(** [secrets.KDFParams], stored as JSON in [access_kdf_params_json]. *)
Record KDFParams := {
  Algorithm : string;
  Salt : string;
  Iterations : Z;
  KeyLengthBits : Z;
}.

Record secret_row := MkSecret {
  s_kind : string;
  s_backend : backend;
  s_key : string;
  s_access_kdf : option KDFParams;
  s_proof_hash : option string;
  s_wrapped : option string;
  s_filename : option string;
  s_content_type : option string;
  s_size : Z;
  s_max_views : Z;
  s_view_count : Z;
  s_failed : Z;
  s_state : secret_state;
  s_expires : time;
  s_consumed : option time;
  s_created : time;
  s_updated : time;
  s_reclaim : option time;
}.

Record payload_row := { p_ciphertext : string; p_created : time }.

Record management_row := MkManagement {
  m_token_hash : string;
  m_expires : time;
  m_outcome : option outcome;
}.

Record cursor_row := MkCursor { cu_token : string; cu_generation : Z }.

Record request_row := MkRequest {
  r_public_key : string;
  r_fingerprint : string;
  r_submission_hash : string;
  r_retrieval_hash : string;
  r_state : request_state;
  r_generation : Z;
  r_attempt : option string;
  r_body_hash : option string;
  r_kind : option string;
  r_size : option Z;
  r_envelope : option string;
  r_backend : backend;
  r_upload_key : option string;
  r_final_key : option string;
  r_checksum : option string;
  r_reservation : option time;
  r_consumed : option time;
  r_expires : time;
}.

Record outbox_row := MkOutbox {
  o_subject : string;
  o_payload : string;
  o_state : outbox_state;
  o_attempts : Z;
  o_next_attempt : time;
  o_published : option time;
  o_last_error : option string;
  o_created : time;
  o_updated : time;
}.

Record ApiDB := MkApiDB {
  t_secrets : gmap string secret_row;
  t_payloads : gmap string payload_row;
  t_management : gmap string management_row;
  t_cursor : cursor_row;
  t_pending : gmap string string;
  t_requests : gmap string request_row;
  t_request_payloads : gmap string string;
  t_request_cursor : cursor_row;
  t_request_pending : gmap string string;
  t_outbox : gmap string outbox_row;
}.

Definition set_secrets x d := MkApiDB x (t_payloads d) (t_management d) (t_cursor d) (t_pending d)
  (t_requests d) (t_request_payloads d) (t_request_cursor d) (t_request_pending d) (t_outbox d).
Definition set_payloads x d := MkApiDB (t_secrets d) x (t_management d) (t_cursor d) (t_pending d)
  (t_requests d) (t_request_payloads d) (t_request_cursor d) (t_request_pending d) (t_outbox d).
Definition set_management x d := MkApiDB (t_secrets d) (t_payloads d) x (t_cursor d) (t_pending d)
  (t_requests d) (t_request_payloads d) (t_request_cursor d) (t_request_pending d) (t_outbox d).
Definition set_cursor x d := MkApiDB (t_secrets d) (t_payloads d) (t_management d) x (t_pending d)
  (t_requests d) (t_request_payloads d) (t_request_cursor d) (t_request_pending d) (t_outbox d).
Definition set_pending x d := MkApiDB (t_secrets d) (t_payloads d) (t_management d) (t_cursor d) x
  (t_requests d) (t_request_payloads d) (t_request_cursor d) (t_request_pending d) (t_outbox d).
Definition set_requests x d := MkApiDB (t_secrets d) (t_payloads d) (t_management d) (t_cursor d)
  (t_pending d) x (t_request_payloads d) (t_request_cursor d) (t_request_pending d) (t_outbox d).
Definition set_request_payloads x d := MkApiDB (t_secrets d) (t_payloads d) (t_management d) (t_cursor d)
  (t_pending d) (t_requests d) x (t_request_cursor d) (t_request_pending d) (t_outbox d).
Definition set_request_cursor x d := MkApiDB (t_secrets d) (t_payloads d) (t_management d) (t_cursor d)
  (t_pending d) (t_requests d) (t_request_payloads d) x (t_request_pending d) (t_outbox d).
Definition set_request_pending x d := MkApiDB (t_secrets d) (t_payloads d) (t_management d) (t_cursor d)
  (t_pending d) (t_requests d) (t_request_payloads d) (t_request_cursor d) x (t_outbox d).
Definition set_outbox x d := MkApiDB (t_secrets d) (t_payloads d) (t_management d) (t_cursor d)
  (t_pending d) (t_requests d) (t_request_payloads d) (t_request_cursor d) (t_request_pending d) x.

(** The database right after [MigrateAPI] on an empty file. *)
Definition empty_db : ApiDB :=
  MkApiDB ∅ ∅ ∅ (MkCursor "" 0) ∅ ∅ ∅ (MkCursor "" 0) ∅ ∅.

(** ** CHECK constraints *)
Definition is_some {A} (o : option A) : bool := match o with Some _ => true | None => false end.
Definition is_none {A} (o : option A) : bool := negb (is_some o).

Definition secret_check (r : secret_row) : bool :=
  (bool_decide (s_kind r = "text") || bool_decide (s_kind r = "file")) &&
  (0 <=? s_size r) && (0 <? s_max_views r) && (0 <=? s_view_count r) && (0 <=? s_failed r) &&
  bool_decide (is_none (s_access_kdf r) = is_none (s_proof_hash r)) &&
  bool_decide (is_none (s_proof_hash r) = is_none (s_wrapped r)).

Definition management_check (r : management_row) : bool := (String.length (m_token_hash r) =? 32)%nat.

Definition len32 (o : option string) : bool :=
  match o with Some s => (String.length s =? 32)%nat | None => true end.

(** A CHECK whose value is NULL passes, so the comparison with a NULL [kind]
    does. *)
Definition request_check (r : request_row) : bool :=
  (String.length (r_submission_hash r) =? 32)%nat && (String.length (r_retrieval_hash r) =? 32)%nat &&
  (1 <=? r_generation r) && (r_generation r <=? 16) &&
  len32 (r_attempt r) && len32 (r_body_hash r) && len32 (r_checksum r) &&
  match r_kind r with
  | Some k => bool_decide (k = "text") || bool_decide (k = "file") | None => true end &&
  match r_size r with Some n => 0 <=? n | None => true end &&
  bool_decide (is_none (r_attempt r) = is_none (r_body_hash r)) &&
  (negb (bool_decide (r_state r = Uploading)) ||
    (bool_decide (r_backend r = S3Object) && is_some (r_upload_key r) && is_some (r_final_key r) &&
     is_some (r_checksum r) && is_some (r_reservation r) && match r_kind r with Some k => bool_decide (k = "file") | None => true end &&
     is_some (r_size r) && is_some (r_envelope r) && is_some (r_attempt r))) &&
  (negb (bool_decide (r_state r = Submitted)) || negb (bool_decide (r_backend r = S3Object)) ||
    (is_some (r_final_key r) && is_some (r_checksum r))) &&
  (negb (bool_decide (r_state r = Submitted)) ||
    (is_some (r_kind r) && is_some (r_size r) && is_some (r_envelope r) && is_some (r_attempt r))).

Definition outbox_check (r : outbox_row) : bool := 0 <=? o_attempts r.

(** ** Statements on one keyed table *)
Section table.
Context {A : Type} (check : A -> bool).

Definition ins (k : string) (r : A) (m : gmap string A) : option (gmap string A) :=
  match m !! k with
  | Some _ => None
  | None => if check r then Some (<[k := r]> m) else None
  end.

(** [update ... where id = k and P], with the number of affected rows. *)
Definition upd (k : string) (P : A -> bool) (f : A -> A) (m : gmap string A) :
    option (Z * gmap string A) :=
  match m !! k with
  | Some r =>
      if P r then (if check (f r) then Some (1, <[k := f r]> m) else None) else Some (0, m)
  | None => Some (0, m)
  end.

Lemma ins_Some k r m m' :
  ins k r m = Some m' <-> m !! k = None /\ check r = true /\ m' = <[k := r]> m.
Proof.
  unfold ins. destruct (m !! k); [naive_solver|]. destruct (check r); naive_solver.
Qed.

Lemma upd_Some k P f m n m' :
  upd k P f m = Some (n, m') <->
  (n = 0 /\ m' = m /\ (forall r, m !! k = Some r -> P r = false)) \/
  (exists r, n = 1 /\ m !! k = Some r /\ P r = true /\ check (f r) = true /\ m' = <[k := f r]> m).
Proof.
  unfold upd. destruct (m !! k) as [r|] eqn:E.
  - destruct (P r) eqn:HP; [destruct (check (f r)) eqn:Hc|].
    + split; [intros [= <- <-]; right; eauto 10|].
      intros [(_ & _ & H)|(r' & -> & [= <-] & _ & _ & ->)]; [|done].
      specialize (H r eq_refl). congruence.
    + split; [done|]. intros [(_ & _ & H)|(r' & _ & [= <-] & _ & ? & _)]; [|congruence].
      specialize (H r eq_refl). congruence.
    + split; [intros [= <- <-]; left; repeat split; by intros ? [= <-]|].
      intros [(-> & -> & _)|(r' & _ & [= <-] & ? & _)]; [done|congruence].
  - split; [intros [= <- <-]; left; by repeat split|].
    intros [(-> & -> & _)|(r' & _ & ? & _)]; done.
Qed.
End table.

(** ** [select ... where P order by R limit n] *)
Section select.
Context {A : Type} (R : relation (string * A)) `{forall a b, Decision (R a b)} (P : string -> A -> bool).

Definition select (limit : Z) (m : gmap string A) : list (string * A) :=
  take (Z.to_nat limit) (merge_sort R (filter (fun p => P p.1 p.2 = true) (map_to_list m))).

Lemma select_elem limit m id r :
  (id, r) ∈ select limit m -> m !! id = Some r /\ P id r = true.
Proof.
  unfold select. intros Hin. apply elem_of_take in Hin as (i & Hin & _).
  apply list_elem_of_lookup_2 in Hin. rewrite merge_sort_Permutation in Hin.
  apply list_elem_of_filter in Hin as [? Hin]. by apply elem_of_map_to_list in Hin.
Qed.

Lemma select_NoDup limit m : NoDup (select limit m).*1.
Proof.
  unfold select. rewrite fmap_take. eapply sublist_NoDup; [|apply sublist_take].
  rewrite merge_sort_Permutation. eapply sublist_NoDup; [apply (NoDup_fst_map_to_list m)|].
  apply fmap_sublist, sublist_filter.
Qed.

Lemma select_length limit m : 0 <= limit -> Z.of_nat (length (select limit m)) <= limit.
Proof. intros Hl. unfold select. rewrite length_take. lia. Qed.

(** A batch that is not full holds every candidate. *)
Lemma select_complete limit m id r :
  Z.of_nat (length (select limit m)) < limit -> m !! id = Some r -> P id r = true -> (id, r) ∈ select limit m.
Proof.
  intros Hl Hr HP. unfold select in *. rewrite length_take in Hl.
  rewrite take_ge by lia. rewrite merge_sort_Permutation. apply list_elem_of_filter. split; [done|].
  by apply elem_of_map_to_list.
Qed.
End select.

(** [order by <text column>, <primary key>]. *)
Definition text_order {A} (key : A -> string) (a b : string * A) : Prop :=
  match String.compare (key a.2) (key b.2) with
  | Lt => true | Gt => false | Eq => text_le a.1 b.1
  end = true.
#[export] Instance text_order_dec {A} (key : A -> string) a b : Decision (text_order key a b).
Proof. unfold text_order. apply _. Defined.

(** ** Statements *)
Definition insert_secret (id : string) (r : secret_row) (d : ApiDB) : option (unit * ApiDB) :=
  m ← ins secret_check id r (t_secrets d); Some (tt, set_secrets m d).

Definition insert_payload (id : string) (r : payload_row) (d : ApiDB) : option (unit * ApiDB) :=
  if is_some (t_secrets d !! id)
  then m ← ins (fun _ => true) id r (t_payloads d); Some (tt, set_payloads m d)
  else None.

Definition insert_management (id : string) (r : management_row) (d : ApiDB) : option (unit * ApiDB) :=
  m ← ins management_check id r (t_management d); Some (tt, set_management m d).

Definition update_secret (id : string) (P : secret_row -> bool) (f : secret_row -> secret_row)
    (d : ApiDB) : option (Z * ApiDB) :=
  '(n, m) ← upd secret_check id P f (t_secrets d); Some (n, set_secrets m d).

Definition update_management (id : string) (P : management_row -> bool)
    (f : management_row -> management_row) (d : ApiDB) : option (Z * ApiDB) :=
  '(n, m) ← upd management_check id P f (t_management d); Some (n, set_management m d).

(** [delete from secret_payloads where secret_id = ?]. *)
Definition delete_payload (id : string) (d : ApiDB) : option (Z * ApiDB) :=
  Some (if is_some (t_payloads d !! id) then 1 else 0, set_payloads (delete id (t_payloads d)) d).

(** [delete from secrets where id = ? and P], cascading to [secret_payloads]. *)
Definition delete_secret (id : string) (P : secret_row -> bool) (d : ApiDB) : option (Z * ApiDB) :=
  match t_secrets d !! id with
  | Some r =>
      if P r then
        Some (1, set_payloads (delete id (t_payloads d)) (set_secrets (delete id (t_secrets d)) d))
      else Some (0, d)
  | None => Some (0, d)
  end.

(** ** Requests

    The two partial unique indexes on [upload_key] and [final_key] are
    enforced against the other rows. *)
Definition keys_unique (id : string) (r : request_row) (m : gmap string request_row) : bool :=
  bool_decide (map_Forall (fun id' r' => id' = id \/
    ((r_upload_key r = None \/ r_upload_key r' <> r_upload_key r) /\
     (r_final_key r = None \/ r_final_key r' <> r_final_key r))) m).

Definition insert_request (id : string) (r : request_row) (d : ApiDB) : option (unit * ApiDB) :=
  if keys_unique id r (t_requests d)
  then m ← ins request_check id r (t_requests d); Some (tt, set_requests m d)
  else None.

Definition update_request (id : string) (P : request_row -> bool) (f : request_row -> request_row)
    (d : ApiDB) : option (Z * ApiDB) :=
  match t_requests d !! id with
  | Some r =>
      if P r then
        if request_check (f r) && keys_unique id (f r) (t_requests d)
        then Some (1, set_requests (<[id := f r]> (t_requests d)) d) else None
      else Some (0, d)
  | None => Some (0, d)
  end.

Definition insert_request_payload (id ciphertext : string) (d : ApiDB) : option (unit * ApiDB) :=
  if is_some (t_requests d !! id)
  then m ← ins (fun _ => true) id ciphertext (t_request_payloads d); Some (tt, set_request_payloads m d)
  else None.

Definition delete_request_payload (id : string) (d : ApiDB) : option (Z * ApiDB) :=
  Some (if is_some (t_request_payloads d !! id) then 1 else 0,
        set_request_payloads (delete id (t_request_payloads d)) d).

(** [delete from requests where id = ?], cascading to [request_payloads]. *)
Definition delete_request (id : string) (d : ApiDB) : option (Z * ApiDB) :=
  Some (if is_some (t_requests d !! id) then 1 else 0,
        set_request_payloads (delete id (t_request_payloads d)) (set_requests (delete id (t_requests d)) d)).

Lemma update_request_Some id P f d n d' :
  update_request id P f d = Some (n, d') ->
  (n = 0 /\ d' = d /\ forall r, t_requests d !! id = Some r -> P r = false) \/
  (exists r, n = 1 /\ t_requests d !! id = Some r /\ P r = true /\ request_check (f r) = true /\
    keys_unique id (f r) (t_requests d) = true /\ d' = set_requests (<[id := f r]> (t_requests d)) d).
Proof.
  unfold update_request. destruct (t_requests d !! id) as [r|] eqn:E.
  - destruct (P r) eqn:HP; [|intros [= <- <-]; left; naive_solver].
    destruct (_ && _) eqn:Ec; [|done]. intros [= <- <-]. apply andb_true_iff in Ec as [? ?]. right. eauto 10.
  - intros [= <- <-]. by left.
Qed.

(** ** Reconciliation tables

    The single cursor row is updated under its generation; a pending claim is
    inserted unless its key or its job id is already there
    ([insert or ignore]). *)
Definition advance (token : string) (generation : Z) (c : cursor_row) : Z * cursor_row :=
  if cu_generation c =? generation then (1, MkCursor token (cu_generation c + 1)) else (0, c).

Definition claim (key job : string) (m : gmap string string) : Z * gmap string string :=
  if is_some (m !! key) || bool_decide (map_Exists (fun _ j => j = job) m) then (0, m) else (1, <[key := job]> m).

Definition release (key job : string) (m : gmap string string) : gmap string string :=
  if bool_decide (m !! key = Some job) then delete key m else m.

Definition update_cursor (token : string) (generation : Z) (d : ApiDB) : option (Z * ApiDB) :=
  let '(n, c) := advance token generation (t_cursor d) in Some (n, set_cursor c d).
Definition claim_pending (key job : string) (d : ApiDB) : option (Z * ApiDB) :=
  let '(n, m) := claim key job (t_pending d) in Some (n, set_pending m d).
Definition release_pending (key job : string) (d : ApiDB) : option (unit * ApiDB) :=
  Some (tt, set_pending (release key job (t_pending d)) d).
Definition update_request_cursor (token : string) (generation : Z) (d : ApiDB) : option (Z * ApiDB) :=
  let '(n, c) := advance token generation (t_request_cursor d) in Some (n, set_request_cursor c d).
Definition claim_request_pending (key job : string) (d : ApiDB) : option (Z * ApiDB) :=
  let '(n, m) := claim key job (t_request_pending d) in Some (n, set_request_pending m d).
Definition release_request_pending (key job : string) (d : ApiDB) : option (unit * ApiDB) :=
  Some (tt, set_request_pending (release key job (t_request_pending d)) d).
