(* ===== verification/AgeFormat.v ===== *)
(** * Sizes of age files (src/internal/secrets/age.go)

    The server never decrypts; it bounds what it stores by the arithmetic of
    the age format.  The functions are 64-bit; the loop of [MaxPlaintextBytes]
    carries fuel, and the theorems say how much is enough. *)

From S2P Require Import Prelude World Codec.

Definition AgeHeaderAllowanceBytes : Z := 4096.
Definition ageChunkBytes : Z := 64 * 1024.
Definition ageTagBytes : Z := 16.
Definition agePayloadNonceBytes : Z := 16.
Definition maxWrappedIdentityBytes : Z := 1024.
Definition maxEncryptedFilenameBytes : Z := 8 * 1024.
Definition maxContentTypeBytes : Z := 255.
Definition OpenStreamTimeout : Z := 30 * Minute.
Definition openObjectGrace : Z := OpenStreamTimeout + 5 * Minute.

Definition ageMagic : string :=
  "age-encryption.org/v1" +:+ String.String (Ascii.ascii_of_nat 10) "".

(** Integer division of Go truncates; [wrap64] is the overflow of [int64]. *)
Definition MaxCiphertextBytes (n : Z) : Z :=
  let chunks := Z.max 1 (Z.quot (wrap64 (n + ageChunkBytes - 1)) ageChunkBytes) in
  wrap64 (AgeHeaderAllowanceBytes + agePayloadNonceBytes + n + ageTagBytes * chunks).

(** The [for] loop: [None] when the fuel runs out. *)
Fixpoint step_up (fuel : nat) (c n : Z) : option Z :=
  if MaxCiphertextBytes (wrap64 (n + 1)) <=? c
  then match fuel with
       | O => None
       | S fuel => step_up fuel c (wrap64 (n + 1))
       end
  else Some n.

Definition MaxPlaintextBytes (fuel : nat) (c : Z) : option Z :=
  if c <? MaxCiphertextBytes 0 then Some 0
  else
    let n := Z.max 0 (wrap64 (c - AgeHeaderAllowanceBytes - agePayloadNonceBytes
               - ageTagBytes * Z.quot (wrap64 (c + ageChunkBytes - 1)) ageChunkBytes)) in
    step_up fuel c n.

(** [decodeAgeField]; its only error, [errNotAgeFile], is [None]. *)
Definition decodeAgeField (value : string) (limit : Z) : option string :=
  if limit + 3 <? Base64.DecodedLen (strlen value) then None
  else match Base64.decode Base64.StdEncoding value with
       | None => None
       | Some raw =>
           if (limit <? strlen raw) || negb (has_prefix ageMagic raw) then None else Some raw
       end.

(** ** Exact sizes below the overflow *)

(** The size formula over the integers. *)
Definition age_size (n : Z) : Z := 4112 + n + 16 * Z.max 1 ((n + 65535) / 65536).

(** Sizes the arithmetic is exact for. *)
Definition max_exact : Z := 2 ^ 62.

Lemma MaxCiphertextBytes_exact n : 0 <= n <= max_exact -> MaxCiphertextBytes n = age_size n.
Proof.
  unfold max_exact. intros Hn. unfold MaxCiphertextBytes, age_size, ageChunkBytes, AgeHeaderAllowanceBytes,
    agePayloadNonceBytes, ageTagBytes.
  rewrite (wrap64_id (n + _ - 1)) by lia. rewrite Z.quot_div_nonneg by lia.
  replace (n + 64 * 1024 - 1) with (n + 65535) by lia. change (64 * 1024) with 65536.
  rewrite wrap64_id; [lia|].
  assert ((n + 65535) / 65536 <= n + 1) by (apply Z.div_le_upper_bound; lia).
  assert ((n + 65535) / 65536 <= 2 ^ 47) by (apply Z.div_le_upper_bound; lia).
  assert (0 <= (n + 65535) / 65536) by (apply Z.div_pos; lia). lia.
Qed.

Lemma age_size_mono n m : 0 <= n <= m -> age_size n + (m - n) <= age_size m.
Proof.
  intros. unfold age_size.
  assert ((n + 65535) / 65536 <= (m + 65535) / 65536) by (apply Z.div_le_mono; lia). lia.
Qed.

(** The largest [n] with [age_size n <= c], once [n] is below it. *)
Lemma step_up_spec fuel c n :
  0 <= n -> age_size n <= c < max_exact - 1 ->
  c - age_size n < Z.of_nat fuel ->
  exists m, step_up fuel c n = Some m /\ n <= m /\ age_size m <= c < age_size (m + 1).
Proof.
  unfold max_exact. revert n. induction fuel as [|fuel IH]; intros n Hn Hc Hf; cbn [step_up].
  all: assert (n <= age_size n) by (unfold age_size; lia).
  all: rewrite wrap64_id by lia; rewrite MaxCiphertextBytes_exact by (unfold max_exact; lia).
  { lia. }
  destruct (Z.leb_spec (age_size (n + 1)) c).
  - pose proof (age_size_mono n (n + 1)).
    destruct (IH (n + 1)) as (m & -> & ? & ?); [lia..|]. eexists. split; [done|lia].
  - exists n. split; [done|lia].
Qed.

Lemma start_below c :
  age_size 0 <= c < max_exact - 1 ->
  let n := Z.max 0 (c - 4112 - 16 * ((c + 65535) / 65536)) in
  age_size n <= c /\ c - age_size n <= c / 2 ^ 20 + 64.
Proof.
  intros Hc n. unfold max_exact, age_size in *.
  pose proof (Z.div_mod (c + 65535) 65536). pose proof (Z.mod_pos_bound (c + 65535) 65536).
  pose proof (Z.div_mod (n + 65535) 65536). pose proof (Z.mod_pos_bound (n + 65535) 65536).
  pose proof (Z.div_mod c (2 ^ 20)). pose proof (Z.mod_pos_bound c (2 ^ 20)).
  set (q := (c + 65535) / 65536) in *. set (r := (n + 65535) / 65536) in *.
  set (z := c / 2 ^ 20) in *. change (2 ^ 20) with 1048576 in *. lia.
Qed.

Lemma start_exact c :
  0 <= c < max_exact - 1 ->
  wrap64 (c - AgeHeaderAllowanceBytes - agePayloadNonceBytes
    - ageTagBytes * Z.quot (wrap64 (c + ageChunkBytes - 1)) ageChunkBytes) =
  c - 4112 - 16 * ((c + 65535) / 65536).
Proof.
  intros Hc. unfold max_exact, ageChunkBytes, AgeHeaderAllowanceBytes, agePayloadNonceBytes, ageTagBytes in *.
  rewrite (wrap64_id (c + _ - 1)) by lia. rewrite Z.quot_div_nonneg by lia.
  replace (c + 64 * 1024 - 1) with (c + 65535) by lia. change (64 * 1024) with 65536.
  assert (0 <= (c + 65535) / 65536) by (apply Z.div_pos; lia).
  assert ((c + 65535) / 65536 <= 2 ^ 47) by (apply Z.div_le_upper_bound; lia).
  rewrite wrap64_id; lia.
Qed.

Lemma max_plaintext_bound (c : Z) (fuel : nat) :
  0 <= c < max_exact - 1 -> c / 2 ^ 20 + 65 <= Z.of_nat fuel ->
  exists n, MaxPlaintextBytes fuel c = Some n /\ 0 <= n /\
    (c < MaxCiphertextBytes 0 -> n = 0) /\
    (MaxCiphertextBytes 0 <= c ->
      (forall m, 0 <= m <= max_exact -> (MaxCiphertextBytes m <= c <-> m <= n))).
Proof.
  intros Hc Hf. unfold MaxPlaintextBytes.
  assert (H0 : MaxCiphertextBytes 0 = age_size 0) by reflexivity.
  destruct (Z.ltb_spec c (MaxCiphertextBytes 0)).
  { exists 0. split_and!; [done|lia|done|lia]. }
  rewrite start_exact by lia.
  destruct (start_below c) as [Hlo Hgap]; [lia|].
  destruct (step_up_spec fuel c (Z.max 0 (c - 4112 - 16 * ((c + 65535) / 65536))))
    as (n & -> & Hn & Hle & Hlt); [lia..|].
  exists n. split_and!; [done|lia|lia|]. intros _ m Hm.
  rewrite MaxCiphertextBytes_exact by done. split; intros Hx.
  - destruct (Z.le_gt_cases m n); [done|].
    pose proof (age_size_mono (n + 1) m). lia.
  - pose proof (age_size_mono m n). lia.
Qed.

(** C31: [MaxPlaintextBytes] terminates and inverts [MaxCiphertextBytes].  For
    every limit [c] below 2^62 - 1 the loop ends within [c / 2^20 + 65]
    iterations; it returns the largest plaintext length whose age file fits in
    [c] bytes, or 0 when not even the empty one does. *)
Theorem max_plaintext_inverts (c : Z) (fuel : nat) :
  0 <= c < max_exact - 1 -> c / 2 ^ 20 + 65 <= Z.of_nat fuel ->
  exists n, MaxPlaintextBytes fuel c = Some n /\ 0 <= n /\
    (c < MaxCiphertextBytes 0 -> n = 0) /\
    (MaxCiphertextBytes 0 <= c ->
      (forall m, 0 <= m <= max_exact -> (MaxCiphertextBytes m <= c <-> m <= n))).
Proof. apply max_plaintext_bound. Qed.

Lemma max_plaintext_inverts_witness :
  exists n, MaxPlaintextBytes 66 1048576 = Some n /\ MaxCiphertextBytes n <= 1048576.
Proof.
  destruct (max_plaintext_inverts 1048576 66) as (n & E & H0 & _ & H); [by vm_compute|by vm_compute|].
  exists n. split; [exact E|].
  apply (H ltac:(by vm_compute)); [|reflexivity].
  vm_compute in E. injection E as <-. by vm_compute.
Defined.

(** At the top of the [int64] range the sum wraps, every candidate looks
    small enough and the loop never ends: no fuel returns a result. *)
Lemma step_up_diverges fuel n : step_up fuel (2 ^ 63 - 1) n = None.
Proof.
  revert n. induction fuel as [|fuel IH]; intros n; cbn [step_up].
  all: destruct (Z.leb_spec (MaxCiphertextBytes (wrap64 (n + 1))) (2 ^ 63 - 1)) as [|Hgt];
    [auto|exfalso; revert Hgt; unfold MaxCiphertextBytes].
  all: match goal with |- context [wrap64 ?x] =>
         match x with context [ageTagBytes] => pose proof (wrap64_range x) end end; lia.
Qed.

(** the loop of [MaxPlaintextBytes] does not terminate for
    [c = math.MaxInt64]: the size of every candidate is at most that bound once
    [int64] wraps, so the exit condition is never met, whatever the fuel. *)
Theorem max_plaintext_diverges_at_max_int64 (fuel : nat) :
  MaxPlaintextBytes fuel (2 ^ 63 - 1) = None.
Proof. unfold MaxPlaintextBytes. cbv zeta. rewrite step_up_diverges. reflexivity. Qed.

(** ** The field decoder *)

(** A field that decodes is within its bound and starts with the magic line. *)
Lemma decodeAgeField_sound value limit raw :
  decodeAgeField value limit = Some raw ->
  strlen raw <= limit /\ exists rest, raw = ageMagic +:+ rest.
Proof.
  unfold decodeAgeField. destruct (_ <? _); [done|].
  destruct (Base64.decode _ _); [|done]. destruct (_ || _) eqn:E; [done|].
  intros [= <-]. destruct_bools. split; [done|]. by apply has_prefix_inv.
Qed.

(** A bounded age file round-trips through the field's encoding. *)
Lemma decodeAgeField_complete raw rest limit :
  raw = ageMagic +:+ rest -> strlen raw <= limit ->
  Base64.DecodedLen (strlen (Base64.encode Base64.StdEncoding raw)) <= limit + 3 ->
  decodeAgeField (Base64.encode Base64.StdEncoding raw) limit = Some raw.
Proof.
  intros -> Hl Hd. unfold decodeAgeField.
  destruct (Z.ltb_spec (limit + 3) (Base64.DecodedLen (strlen (Base64.encode Base64.StdEncoding (ageMagic +:+ rest)))));
    [lia|].
  rewrite (Base64.decode_encode Base64.StdEncoding). destruct (Z.ltb_spec limit (strlen (ageMagic +:+ rest))); [lia|].
  by rewrite has_prefix_app.
Qed.
