(* ===== verification/Outbox.v ===== *)
(** * Transactional outbox (src/internal/events)

    A job event is validated, serialised and inserted in the caller's
    transaction ([EnqueueTx]); the publisher later lists the due rows, hands
    each payload to the broker and marks it published or failed
    ([PublishDue]).  [outboxEnqueuer] is the interface the stores depend on,
    and [OutboxSpec] what it promises them. *)

From S2P Require Import Prelude World GoTime Codec Schema.

(** ** Job events (job.go) *)
Record JobEvent := MkJobEvent {
  JobID : string;
  Kind : string;
  SecretID : string;
  ObjectKey : string;
  Reason : string;
  RequestedAt : time;
  TraceContext : gmap string string;
}.

Definition KindDeleteSecret : string := "delete_secret".
Definition KindDeleteOCIObject : string := "delete_oci_object".
Definition ReasonConsumed : string := "consumed".
Definition ReasonExpired : string := "expired".
Definition ReasonOrphan : string := "orphan".
Definition ReasonManual : string := "manual".
Definition ReasonRetry : string := "retry".

Definition validReason (r : string) : bool :=
  bool_decide (r ∈ [ReasonConsumed; ReasonExpired; ReasonOrphan; ReasonManual; ReasonRetry]).

Definition Validate (e : JobEvent) : result unit :=
  if blank (JobID e) then Err (EventsErr ErrInvalidEvent)
  else if is_zero (RequestedAt e) then Err (EventsErr ErrInvalidEvent)
  else if bool_decide (Kind e = KindDeleteSecret) then
    if blank (SecretID e) then Err (EventsErr ErrInvalidEvent)
    else if negb (bool_decide (Reason e = "")) && negb (validReason (Reason e))
         then Err (EventsErr ErrInvalidEvent) else Ok tt
  else if bool_decide (Kind e = KindDeleteOCIObject) then
    if blank (ObjectKey e) then Err (EventsErr ErrInvalidEvent)
    else if negb (bool_decide (Reason e = "")) && negb (validReason (Reason e))
         then Err (EventsErr ErrInvalidEvent) else Ok tt
  else Err (EventsErr ErrInvalidEvent).

(** [events.NewJobID]: 18 random bytes, unpadded base64url. *)
Definition NewJobID {ENV : Env} {D} : M D string :=
  let! raw := rand_read 18 "generate job id" in
  ret (Base64.encode Base64.RawURLEncoding raw).

Lemma NewJobID_respects {ENV : Env} {D} (R : relation (World D)) `{!Stable R} : respects R NewJobID.
Proof. unfold NewJobID. solve_respects. Qed.
#[export] Hint Resolve NewJobID_respects : flick.

(** [encoding/json] on events: [json.Marshal], and a strict decode of exactly
    one object.  The laws are the round trip on ASCII field values ([Marshal]
    replaces bytes that are not UTF-8) and when marshalling succeeds. *)
Definition ascii_string (s : string) : bool :=
  forallb (fun c => (Ascii.nat_of_ascii c <? 128)%nat) (String.list_ascii_of_string s).
Definition ascii_event (e : JobEvent) : bool :=
  ascii_string (JobID e) && ascii_string (Kind e) && ascii_string (SecretID e) &&
  ascii_string (ObjectKey e) && ascii_string (Reason e) &&
  bool_decide (map_Forall (fun k v => ascii_string k = true /\ ascii_string v = true) (TraceContext e)).

Class EventCodec := {
  json_marshal : JobEvent -> option string;
  json_unmarshal : string -> option JobEvent;
  json_roundtrip e s :
    ascii_event e = true -> json_marshal e = Some s -> json_unmarshal s = Some e;
  (** [time.Time] refuses to marshal a year outside 0..9999; nothing else of an
      event can fail. *)
  json_total e : four_digit_year (RequestedAt e) = true -> exists s, json_marshal e = Some s;
}.

(** The broker, and the OpenTelemetry propagator, at a tick. *)
Class Broker := {
  js_publish : nat -> string -> string -> option string;  (** [Some msg]: refused *)
  otel_inject : nat -> gmap string string;
}.

Section events.
Context {ENV : Env} {CODEC : EventCodec} {BROKER : Broker}.

(** [JobEvent.JSON]. *)
Definition JSON (e : JobEvent) : result string :=
  match Validate e with
  | Err x => Err x
  | Ok _ => match json_marshal e with
            | Some s => Ok s
            | None => Err (Fail "marshal job event")
            end
  end.

(** [decodeJobEvent]. *)
Definition decodeJobEvent (raw : string) : result JobEvent :=
  match json_unmarshal raw with
  | None => Err (EventsErr ErrInvalidEvent)
  | Some e => match Validate e with Err x => Err x | Ok _ => Ok e end
  end.

(** ** The outbox store (outbox.go) *)
Record OutboxRecord := MkOutboxRecord {
  rec_ID : string;
  rec_Payload : JobEvent;
  rec_row : outbox_row;
}.

Record OutboxStore := { subject : string }.

Definition insert_outbox (id : string) (r : outbox_row) (d : ApiDB) : option (unit * ApiDB) :=
  m ← ins outbox_check id r (t_outbox d); Some (tt, set_outbox m d).
Definition update_outbox (id : string) (P : outbox_row -> bool) (f : outbox_row -> outbox_row)
    (d : ApiDB) : option (Z * ApiDB) :=
  '(n, m) ← upd outbox_check id P f (t_outbox d); Some (n, set_outbox m d).

Definition with_trace (carrier : gmap string string) (e : JobEvent) : JobEvent :=
  if bool_decide (carrier = ∅) then e
  else MkJobEvent (JobID e) (Kind e) (SecretID e) (ObjectKey e) (Reason e) (RequestedAt e) carrier.

Definition EnqueueTx (s : OutboxStore) (event : JobEvent) : M ApiDB OutboxRecord :=
  let! carrier := ask otel_inject in
  let event := with_trace carrier event in
  let! payload := lift (JSON event) in
  let! t := now in
  let row := MkOutbox (subject s) payload OutboxPending 0 t None None t t in
  do! sql "insert outbox event" (insert_outbox (JobID event) row) in
  ret (MkOutboxRecord (JobID event) event row).

(** [Enqueue]: [EnqueueTx] in a transaction of its own. *)
Definition Enqueue (s : OutboxStore) (event : JobEvent) : M ApiDB OutboxRecord :=
  transaction "begin enqueue outbox event" "commit enqueue outbox event"
    (let! r := EnqueueTx s event in ret (Commit r)).

(** The rows the due query selects, in its order.  Texts are compared
    untrimmed, as the statement does. *)
Definition due (at_ : time) (r : outbox_row) : bool :=
  (bool_decide (o_state r = OutboxPending) || bool_decide (o_state r = OutboxFailed)) &&
  sql_le_nano (o_next_attempt r) at_.

Definition due_order (a b : string * outbox_row) : Prop :=
  match String.compare (formatTime (o_next_attempt a.2)) (formatTime (o_next_attempt b.2)) with
  | Lt => true | Gt => false
  | Eq => text_le (formatTime (o_created a.2)) (formatTime (o_created b.2))
  end = true.
#[global] Instance due_order_dec a b : Decision (due_order a b).
Proof. unfold due_order. apply _. Defined.

Definition select_due (at_ : time) (limit : Z) (d : ApiDB) : list (string * outbox_row) :=
  select due_order (fun _ => due at_) limit (t_outbox d).

Definition scanOutboxRecord (p : string * outbox_row) : result OutboxRecord :=
  match decodeJobEvent (o_payload p.2) with
  | Ok e => Ok (MkOutboxRecord p.1 e p.2)
  | Err x => Err x
  end.

Fixpoint scan_all (l : list (string * outbox_row)) : result (list OutboxRecord) :=
  match l with
  | [] => Ok []
  | p :: l => match scanOutboxRecord p with
              | Err x => Err x
              | Ok r => match scan_all l with Err x => Err x | Ok rs => Ok (r :: rs) end
              end
  end.

Definition ListDue (at_ : time) (limit : Z) : M ApiDB (list OutboxRecord) :=
  do! fail_if (limit <=? 0) (Fail "limit must be positive") in
  let! rows := sql_query "list due outbox events" (select_due at_ limit) in
  lift (scan_all rows).

Definition not_published (r : outbox_row) : bool := negb (bool_decide (o_state r = OutboxPublished)).

(** [requireAffected]. *)
Definition requireAffected (n : Z) : M ApiDB unit :=
  fail_if (negb (n =? 1)) (EventsErr ErrOutboxNotFound).

Definition MarkPublished (id : string) : M ApiDB unit :=
  let! t := now in
  let! n := sql "mark outbox event published" (update_outbox id not_published (fun r =>
    MkOutbox (o_subject r) (o_payload r) OutboxPublished (o_attempts r) (o_next_attempt r)
      (Some t) None (o_created r) t)) in
  requireAffected n.

Definition MarkFailed (id : string) (publishErr : option string) (nextAttemptAt : time) : M ApiDB unit :=
  match publishErr with
  | None => throw (Fail "publish error is required")
  | Some msg =>
      do! fail_if (is_zero nextAttemptAt) (Fail "next attempt time is required") in
      let! t := now in
      let! n := sql "mark outbox event failed" (update_outbox id not_published (fun r =>
        MkOutbox (o_subject r) (o_payload r) OutboxFailed (o_attempts r + 1) nextAttemptAt
          (o_published r) (Some msg) (o_created r) t)) in
      requireAffected n
  end.

(** ** The publisher (publisher.go, nats.go) *)

(** [NATSJetStreamPublisher.Publish]: [None] is success. *)
Definition Publish (subj payload : string) : M ApiDB (option string) :=
  if bool_decide (subj = "") then ret (Some "nats subject is required")
  else if bool_decide (payload = "") then ret (Some "nats payload is required")
  else
    let! r := ask (fun t => js_publish t subj payload) in
    match r with
    | Some msg => ret (Some msg)
    | None => do! emit (EffPublish subj payload) in ret None
    end.

Record OutboxPublisher := { retryDelay : Z }.

(** [NewOutboxPublisher]'s default. *)
Definition NewOutboxPublisher (opt_delay : Z) : OutboxPublisher :=
  {| retryDelay := if opt_delay <=? 0 then 30 * Second else opt_delay |}.

Record PublishResult := { Published : Z; Failed : Z }.

Fixpoint publish_all (p : OutboxPublisher) (t : time) (l : list OutboxRecord) (res : PublishResult) :
    M ApiDB PublishResult :=
  match l with
  | [] => ret res
  | r :: l =>
      let! e := Publish (o_subject (rec_row r)) (o_payload (rec_row r)) in
      match e with
      | Some msg =>
          do! MarkFailed (rec_ID r) (Some msg) (t + retryDelay p) in
          publish_all p t l {| Published := Published res; Failed := Failed res + 1 |}
      | None =>
          do! MarkPublished (rec_ID r) in
          publish_all p t l {| Published := Published res + 1; Failed := Failed res |}
      end
  end.

Definition PublishDue (p : OutboxPublisher) (limit : Z) : M ApiDB PublishResult :=
  do! fail_if (limit <=? 0) (Fail "limit must be positive") in
  let! t := now in
  let! records := ListDue t limit in
  publish_all p t records {| Published := 0; Failed := 0 |}.
End events.

(** ** The interface the stores depend on *)

(** [outboxEnqueuer] of the stores: the one method they call, in their own
    transaction. *)
Record outboxEnqueuer := { enq : JobEvent -> M ApiDB OutboxRecord }.

(** A pending row that carries the event, up to the trace context the store
    injects. *)
Definition carries `{EventCodec} (ev : JobEvent) (row : outbox_row) : Prop :=
  o_state row = OutboxPending /\ o_attempts row = 0 /\
  exists carrier, JSON (with_trace carrier ev) = Ok (o_payload row).

Definition enqueued `{EventCodec} (ev : JobEvent) (d d' : ApiDB) : Prop :=
  exists row, carries ev row /\ t_outbox d !! JobID ev = None /\
    d' = set_outbox (<[JobID ev := row]> (t_outbox d)) d.

(** Everything of a world but the database and the tick. *)
Definition same_io {D} (w w' : World D) : Prop :=
  active_uploads w' = active_uploads w /\ trace w' = trace w.

Class OutboxSpec {ENV : Env} `{EventCodec} (o : outboxEnqueuer) := {
  enq_ok ev w r w' : enq o ev w = (Ok r, w') ->
    enqueued ev (db w) (db w') /\ same_io w w';
  enq_err ev w e w' : enq o ev w = (Err e, w') -> db w' = db w /\ same_io w w';
  (** its errors are not the stores' *)
  enq_err_kind ev w e w' : enq o ev w = (Err e, w') ->
    (forall x, e <> SecretsErr x) /\ (forall x, e <> RequestsErr x);
  (** it accepts a valid event with an unused id whenever SQL answers *)
  enq_succeeds ev w : NoFaults -> Validate ev = Ok tt -> four_digit_year (RequestedAt ev) = true ->
    t_outbox (db w) !! JobID ev = None -> is_ok (enq o ev w).1 = true;
}.

(** [*events.OutboxStore] is such an enqueuer. *)
Definition store_enqueuer `{Env, EventCodec, Broker} (s : OutboxStore) : outboxEnqueuer :=
  {| enq := EnqueueTx s |}.

(** ** What every operation of the API database does to the outbox

    Rows are never removed, keep their subject and payload, and a published
    row stays published. *)
Definition outbox_grows (d d' : ApiDB) : Prop :=
  forall id r, t_outbox d !! id = Some r -> exists r', t_outbox d' !! id = Some r' /\
    o_subject r' = o_subject r /\ o_payload r' = o_payload r /\
    (o_state r = OutboxPublished -> r' = r).

#[export] Instance outbox_grows_preorder : PreOrder outbox_grows.
Proof.
  split.
  - intros d id r E. eauto 10.
  - intros d1 d2 d3 H12 H23 id r E.
    destruct (H12 id r E) as (r2 & E2 & Hs & Hp & Hf).
    destruct (H23 id r2 E2) as (r3 & E3 & Hs' & Hp' & Hf').
    exists r3. repeat split; [done|congruence..|].
    intros Hst. rewrite <- (Hf Hst). apply Hf'. by rewrite (Hf Hst).
Qed.

Lemma outbox_grows_same d d' : t_outbox d' = t_outbox d -> outbox_grows d d'.
Proof. intros E id r Hr. rewrite E. eauto 10. Qed.

Lemma outbox_grows_enqueued `{EventCodec} ev d d' : enqueued ev d d' -> outbox_grows d d'.
Proof.
  intros (row & _ & Hn & ->) id r Hr. exists r. split; [|done].
  simpl. rewrite lookup_insert_ne; [done|congruence].
Qed.

Lemma with_trace_JobID c e : JobID (with_trace c e) = JobID e.
Proof. unfold with_trace. by case_bool_decide. Qed.

Lemma with_trace_RequestedAt c e : RequestedAt (with_trace c e) = RequestedAt e.
Proof. unfold with_trace. by case_bool_decide. Qed.
Lemma with_trace_Validate c e : Validate (with_trace c e) = Validate e.
Proof. unfold with_trace. by case_bool_decide. Qed.

(** A job id is never blank: every character of the encoding is visible. *)
Definition visible (n : nat) : bool := (chr_in n 45 122)%nat.
Lemma blank_visible c s : visible (Ascii.nat_of_ascii c) = true -> blank (String.String c s) = false.
Proof.
  unfold visible, chr_in. intros H. apply andb_true_iff in H as [H1 H2].
  apply Nat.leb_le in H1, H2. cbn [blank]. unfold chr_in.
  set (x := Ascii.nat_of_ascii c) in *.
  destruct (Nat.leb_spec 9 x), (Nat.leb_spec x 13), (Nat.eqb_spec x 32); try lia; simpl.
  all: destruct s as [|b s2]; [done|].
  all: destruct (Nat.eqb_spec x 194); [lia|]; simpl.
  all: destruct s2 as [|d s3]; [done|].
  all: destruct (Nat.eqb_spec x 225), (Nat.eqb_spec x 226), (Nat.eqb_spec x 227); (lia || done).
Qed.

Lemma sextet_visible n : 0 <= n < 64 ->
  visible (Ascii.nat_of_ascii (Base64.sextet Base64.RawURLEncoding n)) = true.
Proof.
  intros Hn.
  assert (H : forallb (fun k => visible (Ascii.nat_of_ascii (Base64.sextet Base64.RawURLEncoding (Z.of_nat k))))
    (seq 0 64) = true) by reflexivity.
  rewrite forallb_forall in H. specialize (H (Z.to_nat n)).
  rewrite Z2Nat.id in H by lia. apply H, in_seq. lia.
Qed.

Lemma encode_not_blank s : s <> "" -> blank (Base64.encode Base64.RawURLEncoding s) = false.
Proof.
  destruct s as [|a [|b [|c r]]]; intros H; [done|..]; clear H; cbn [Base64.encode]; apply blank_visible, sextet_visible.
  all: repeat match goal with c : Ascii.ascii |- _ =>
         pose proof (byte_val_range c); generalize dependent (byte_val c); clear c; intros ? ? end.
  all: split; [apply Z.div_pos; lia|apply Z.div_lt_upper_bound; lia].
Qed.

Section outbox_proofs.
Context {ENV : Env} {CODEC : EventCodec} {BROKER : Broker}.
Implicit Types w : World ApiDB.

Lemma insert_outbox_Some id r d u d' :
  insert_outbox id r d = Some (u, d') ->
  t_outbox d !! id = None /\ d' = set_outbox (<[id := r]> (t_outbox d)) d.
Proof.
  unfold insert_outbox. destruct (ins _ _ _ _) eqn:E; [|done].
  apply ins_Some in E as (? & _ & ->). by intros [= <- <-].
Qed.

#[global] Instance store_enqueuer_spec (s : OutboxStore) : OutboxSpec (store_enqueuer s).
Proof.
  split.
  - intros ev w r w' H. simpl in H. unfold EnqueueTx in H. msteps H.
    match goal with Hi : insert_outbox _ _ _ = _ |- _ =>
      apply insert_outbox_Some in Hi as [Hn ->] end. rewrite with_trace_JobID in *.
    split; [|done]. eexists. split; [|by split].
    repeat split. eauto.
  - intros ev w e w' H. simpl in H. unfold EnqueueTx in H.
    apply bind_err in H as [H|(c & w1 & H1 & H)]; [done|]. mstep H1.
    apply bind_err in H as [H|(p & w2 & H1 & H)]; [by injection H as _ <-|]. mstep H1.
    apply bind_err in H as [H|(t & w3 & H2 & H)]; [done|]. mstep H2.
    apply bind_err in H as [H|(u & w4 & H2 & H)]; [|by unfold ret in H].
    unfold sql in H. destruct (db_fault _); [by injection H as _ <-|].
    destruct (insert_outbox _ _ _) as [[]|]; [done|by injection H as _ <-].
  - intros ev w e w' H. simpl in H. unfold EnqueueTx in H. merr H; [|done].
    unfold JSON in *. split_match H; [split_match H; simplify_eq; done|].
    simplify_eq. unfold Validate in *. repeat case_match; simplify_eq; done.
  - intros ev w Hnf HV Hy Hn. simpl. unfold EnqueueTx, bind, ask, lift, JSON.
    rewrite with_trace_Validate, HV.
    destruct (json_total (with_trace (otel_inject (tick w)) ev)) as [p ->];
      [by rewrite with_trace_RequestedAt|]. simpl.
    unfold sql, insert_outbox, ins. rewrite no_faults. simpl. rewrite with_trace_JobID, Hn. done.
Qed.

(** What a client needs to follow an enqueue with a relation. *)
Lemma respects_enq (R : relation ApiDB) `{!Reflexive R} (o : outboxEnqueuer) `{!OutboxSpec o} ev :
  (forall d d', enqueued ev d d' -> R d d') -> respects (on_db R) (enq o ev).
Proof.
  intros HR w. unfold on_db. destruct (enq o ev w) as [[r|e] w'] eqn:E; simpl.
  - apply enq_ok in E as [E _]. auto.
  - apply enq_err in E as [-> _]. reflexivity.
Qed.
Lemma gauge_enq (o : outboxEnqueuer) `{!OutboxSpec o} ev : respects same_gauge (enq o ev).
Proof.
  intros w. destruct (enq o ev w) as [[r|e] w'] eqn:E; simpl.
  - by apply enq_ok in E as [_ [E _]].
  - by apply enq_err in E as [_ [E _]].
Qed.

(** *** Marking a row *)
Lemma update_outbox_Some id P f d n d' :
  update_outbox id P f d = Some (n, d') ->
  (n = 0 /\ d' = d /\ forall r, t_outbox d !! id = Some r -> P r = false) \/
  (exists r, n = 1 /\ t_outbox d !! id = Some r /\ P r = true /\
    d' = set_outbox (<[id := f r]> (t_outbox d)) d).
Proof.
  unfold update_outbox. destruct (upd _ _ _ _ _) as [[n' m]|] eqn:E; [|done].
  intros [= <- <-]. apply upd_Some in E as [(-> & -> & ?)|(r & -> & ? & ? & _ & ->)].
  - left. by destruct d.
  - right. eauto 10.
Qed.

(** The row a mark writes, and what a mark does to the world: nothing, or
    that row in place of one that was not published. *)
Definition published_row (t : time) (r : outbox_row) : outbox_row :=
  MkOutbox (o_subject r) (o_payload r) OutboxPublished (o_attempts r) (o_next_attempt r)
    (Some t) None (o_created r) t.
Definition failed_row (next t : time) (msg : string) (r : outbox_row) : outbox_row :=
  MkOutbox (o_subject r) (o_payload r) OutboxFailed (o_attempts r + 1) next
    (o_published r) (Some msg) (o_created r) t.

Definition marks (id : string) (f : outbox_row -> outbox_row) (w w' : World ApiDB) : Prop :=
  same_io w w' /\
  (db w' = db w \/ exists r, t_outbox (db w) !! id = Some r /\ o_state r <> OutboxPublished /\
    db w' = set_outbox (<[id := f r]> (t_outbox (db w))) (db w)).

Lemma mark_marks {msg id f w res w'} :
  (let! n := sql msg (update_outbox id not_published f) in requireAffected n) w = (res, w') ->
  marks id f w w'.
Proof.
  unfold bind, sql, requireAffected, fail_if. intros H.
  destruct (db_fault (tick w)); [injection H as _ <-; repeat split; by left|].
  destruct (update_outbox _ _ _ _) as [[n d]|] eqn:E; [|injection H as _ <-; repeat split; by left].
  assert (w' = set_db d (bump w)) as -> by (destruct (negb _); by injection H as _ <-).
  apply update_outbox_Some in E as [(_ & -> & _)|(r & _ & Hr & HP & ->)]; [repeat split; by left|].
  unfold not_published in HP. destruct_bools. repeat split. right. eauto 10.
Qed.

Lemma MarkPublished_marks {id w res w'} :
  MarkPublished id w = (res, w') -> marks id (published_row (clk (tick w))) w w'.
Proof. unfold MarkPublished. intros H. exact (mark_marks H). Qed.

Lemma MarkFailed_marks {id msg next w res w'} :
  MarkFailed id (Some msg) next w = (res, w') -> marks id (failed_row next (clk (tick w)) msg) w w'.
Proof.
  unfold MarkFailed, fail_if. destruct (is_zero next).
  - intros [= _ <-]. repeat split. by left.
  - intros H. exact (mark_marks H).
Qed.

Lemma marks_grows id f w w' :
  (forall r, o_subject (f r) = o_subject r /\ o_payload (f r) = o_payload r) ->
  marks id f w w' -> outbox_grows (db w) (db w').
Proof.
  intros Hf [_ [->|(r & Hr & Hs & ->)]]; [reflexivity|].
  intros id' r' Hr'. destruct (decide (id' = id)) as [->|Hne]; simpl.
  - rewrite lookup_insert_eq. assert (r' = r) as -> by congruence. destruct (Hf r). eexists. repeat split; done.
  - rewrite lookup_insert_ne by done. eauto 10.
Qed.

(** A message that is not published: one the publisher itself refuses, or one
    the broker refuses at some moment. *)
Definition refused (subj payload : string) : Prop :=
  subj = "" \/ payload = "" \/ exists n, js_publish n subj payload <> None.

Lemma Publish_spec subj payload w res w' :
  Publish subj payload w = (res, w') ->
  db w' = db w /\
  ((res = Ok None /\ trace w' = trace w ++ [EffPublish subj payload]) \/
   (exists msg, res = Ok (Some msg) /\ trace w' = trace w /\ refused subj payload)).
Proof.
  unfold Publish, bind, ask, emit, ret, refused. repeat case_bool_decide; intros HP; simplify_eq; [eauto 10..|].
  destruct (js_publish (tick w) subj payload) eqn:E; simplify_eq/=; [|by auto].
  split; [done|]. right. eexists. split_and!; [done|done|]. right. right. exists (tick w). by rewrite E.
Qed.

(** *** The publishing loop *)
Lemma published_row_keeps t r :
  o_subject (published_row t r) = o_subject r /\ o_payload (published_row t r) = o_payload r.
Proof. done. Qed.
Lemma failed_row_keeps n t m r :
  o_subject (failed_row n t m r) = o_subject r /\ o_payload (failed_row n t m r) = o_payload r.
Proof. done. Qed.

(** A listed record is still in the table, with its subject and payload. *)
Definition listed (d : ApiDB) (r : OutboxRecord) : Prop :=
  exists r', t_outbox d !! rec_ID r = Some r' /\
    o_subject r' = o_subject (rec_row r) /\ o_payload r' = o_payload (rec_row r).

Lemma listed_grows d d' r : outbox_grows d d' -> listed d r -> listed d' r.
Proof.
  intros Hg (r' & E & Hs & Hp). destruct (Hg _ _ E) as (r2 & E2 & ? & ? & _).
  exists r2. repeat split; congruence.
Qed.

(** Every published row was accepted by the broker. *)
Definition accepted (w : World ApiDB) : Prop :=
  forall id r, t_outbox (db w) !! id = Some r -> o_state r = OutboxPublished ->
    EffPublish (o_subject r) (o_payload r) ∈ trace w.

Lemma marks_accepted id f w w' :
  accepted w -> marks id f w w' ->
  (forall r, t_outbox (db w) !! id = Some r -> o_state (f r) = OutboxPublished ->
     EffPublish (o_subject (f r)) (o_payload (f r)) ∈ trace w) ->
  accepted w'.
Proof.
  intros Ha [[_ Ht] [E|(r & Hr & _ & E)]] Hf id' r'; rewrite E, Ht; [apply Ha|simpl].
  rewrite lookup_insert_Some. intros [[<- <-]|[_ ?]]; [by apply Hf|by eauto].
Qed.

Lemma publish_all_accepted p t l res w r w' :
  publish_all p t l res w = (r, w') ->
  accepted w -> Forall (listed (db w)) l -> accepted w' /\ outbox_grows (db w) (db w').
Proof.
  revert res w. induction l as [|x l IH]; intros res w H Ha Hl; cbn [publish_all] in H.
  { injection H as _ <-. by split. }
  apply Forall_cons in Hl as [Hx Hl].
  unfold bind at 1 in H. destruct (Publish _ _ w) as [o w1] eqn:EP.
  apply Publish_spec in EP as [Ed [[-> Et]|(msg & -> & Et & _)]].
  - unfold bind in H. destruct (MarkPublished _ w1) as [o2 w2] eqn:EM.
    apply MarkPublished_marks in EM.
    assert (Ha2 : accepted w2).
    { eapply marks_accepted; [|exact EM|].
      - intros id r0. rewrite Ed, Et. intros ? ?. apply elem_of_app; left. eauto.
      - rewrite Ed, Et. intros r0 Hr0 _. simpl. destruct Hx as (r1 & E1 & <- & <-).
        simplify_eq. apply elem_of_app; right. by apply list_elem_of_singleton. }
    apply marks_grows in EM; [|apply published_row_keeps]. rewrite Ed in EM.
    destruct o2; [|injection H as _ <-; by split].
    apply IH in H as [? ?]; [split; [done|by etrans]|done|].
    eapply Forall_impl; [exact Hl|]. eauto using listed_grows.
  - unfold bind in H. destruct (MarkFailed _ _ _ w1) as [o2 w2] eqn:EM.
    apply MarkFailed_marks in EM.
    assert (Ha2 : accepted w2).
    { eapply marks_accepted; [|exact EM|].
      - intros id r0. rewrite Ed, Et. apply Ha.
      - done. }
    apply marks_grows in EM; [|apply failed_row_keeps]. rewrite Ed in EM.
    destruct o2; [|injection H as _ <-; by split].
    apply IH in H as [? ?]; [split; [done|by etrans]|done|].
    eapply Forall_impl; [exact Hl|]. eauto using listed_grows.
Qed.

Lemma scan_all_Ok l rs :
  scan_all l = Ok rs -> map (fun r => (rec_ID r, rec_row r)) rs = l.
Proof.
  revert rs. induction l as [|[id row] l IH]; intros rs; simpl; [by intros [= <-]|].
  unfold scanOutboxRecord; simpl. destruct (decodeJobEvent _); [|done].
  destruct (scan_all l) eqn:E; [|done]. intros [= <-]. simpl. by rewrite (IH _ eq_refl).
Qed.

Lemma select_due_elem at_ limit d id row :
  (id, row) ∈ select_due at_ limit d -> t_outbox d !! id = Some row /\ due at_ row = true.
Proof. intros H. by apply select_elem in H. Qed.

Lemma select_due_NoDup at_ limit d : NoDup (select_due at_ limit d).*1.
Proof. apply select_NoDup. Qed.

(** *** What the loop does to each record when no SQL call fails *)
Definition processed (p : OutboxPublisher) (t : time) (row : outbox_row) (w' : World ApiDB)
    (row' : outbox_row) : Prop :=
  (exists tm, row' = published_row tm row /\
     EffPublish (o_subject row) (o_payload row) ∈ trace w') \/
  (exists tm msg, row' = failed_row (t + retryDelay p) tm msg row /\ refused (o_subject row) (o_payload row)).

(** The record's row is in the table and neither published nor malformed. *)
Definition markable (d : ApiDB) (r : OutboxRecord) : Prop :=
  t_outbox d !! rec_ID r = Some (rec_row r) /\ o_state (rec_row r) <> OutboxPublished /\
  0 <= o_attempts (rec_row r).

Lemma mark_ok `{!NoFaults} msg id f w r :
  t_outbox (db w) !! id = Some r -> o_state r <> OutboxPublished -> outbox_check (f r) = true ->
  (let! n := sql msg (update_outbox id not_published f) in requireAffected n) w =
    (Ok tt, set_db (set_outbox (<[id := f r]> (t_outbox (db w))) (db w)) (bump w)).
Proof.
  intros Hr Hs Hc. unfold bind, sql, update_outbox, upd. rewrite no_faults, Hr.
  unfold not_published. rewrite bool_decide_false by done. simpl. by rewrite Hc.
Qed.

Lemma publish_one `{!NoFaults} p t r w :
  markable (db w) r -> is_zero (t + retryDelay p) = false ->
  exists o w' row', Publish (o_subject (rec_row r)) (o_payload (rec_row r)) w = (Ok o, w') /\
    exists w2,
    (match o with
     | Some msg => MarkFailed (rec_ID r) (Some msg) (t + retryDelay p)
     | None => MarkPublished (rec_ID r)
     end) w' = (Ok tt, w2) /\
    db w2 = set_outbox (<[rec_ID r := row']> (t_outbox (db w))) (db w) /\
    processed p t (rec_row r) w2 row' /\ trace w `prefix_of` trace w2.
Proof.
  intros (Hr & Hs & Ha) Hz.
  destruct (Publish _ _ w) as [o w1] eqn:EP.
  apply Publish_spec in EP as [Ed [[-> Et]|(msg & -> & Et & Hrf)]].
  - exists None, w1, (published_row (clk (tick w1)) (rec_row r)). split; [done|].
    eexists. unfold MarkPublished, bind at 1, now, ask. cbv beta iota.
    rewrite (mark_ok _ _ _ _ (rec_row r)) by (simpl; rewrite ?Ed; auto; by apply Z.leb_le).
    split; [done|]. simpl. rewrite Ed, Et. split_and!; [done| |by exists [EffPublish (o_subject (rec_row r)) (o_payload (rec_row r))]].
    left. eexists. split; [done|]. simpl. rewrite Et. apply elem_of_app. right.
    by apply list_elem_of_singleton.
  - exists (Some msg), w1, (failed_row (t + retryDelay p) (clk (tick w1)) msg (rec_row r)).
    split; [done|]. eexists. unfold MarkFailed, fail_if. rewrite Hz.
    unfold ret, bind at 1 2, now, ask. cbv beta iota.
    rewrite (mark_ok _ _ _ _ (rec_row r)) by (simpl; rewrite ?Ed; auto; apply Z.leb_le; simpl; lia).
    split; [done|]. simpl. rewrite Ed, Et. split_and!; [done| |done].
    right. eauto.
Qed.

Lemma processed_mono p t row w w' row' :
  trace w `prefix_of` trace w' -> processed p t row w row' -> processed p t row w' row'.
Proof.
  intros [k Hk] [(tm & ? & H)|H]; [left|by right]. exists tm. split; [done|].
  rewrite Hk. apply elem_of_app. by left.
Qed.

Lemma publish_all_ok `{!NoFaults} p t l res w :
  Forall (markable (db w)) l -> NoDup (map rec_ID l) -> is_zero (t + retryDelay p) = false ->
  exists res' w', publish_all p t l res w = (Ok res', w') /\
    Published res' + Failed res' = Published res + Failed res + Z.of_nat (length l) /\
    Forall (fun r => exists row', t_outbox (db w') !! rec_ID r = Some row' /\
              processed p t (rec_row r) w' row') l /\
    (forall id, id ∉ map rec_ID l -> t_outbox (db w') !! id = t_outbox (db w) !! id) /\
    trace w `prefix_of` trace w'.
Proof.
  intros Hm Hn Hz. revert res w Hm.
  induction l as [|r l IH]; intros res w Hm; cbn [publish_all].
  { exists res, w. simpl. split_and!; [done|lia|constructor|done|done]. }
  apply Forall_cons in Hm as [Hr Hm]. simpl in Hn. apply NoDup_cons in Hn as [Hnr Hn].
  destruct (publish_one p t r w Hr Hz) as (o & w1 & row' & EP & w2 & EM & Ed & Hp & Ht).
  assert (Hm2 : Forall (markable (db w2)) l).
  { rewrite Forall_forall in Hm |- *. intros x Hx. destruct (Hm x Hx) as (? & ? & ?).
    split_and!; [|done..]. rewrite Ed. simpl. rewrite lookup_insert_ne; [done|].
    intros E. apply Hnr. rewrite E. by apply list_elem_of_fmap_2. }
  unfold bind at 1. rewrite EP.
  assert (Hgo : forall res1, exists res' w',
    publish_all p t l res1 w2 = (Ok res', w') /\
    Published res' + Failed res' = Published res1 + Failed res1 + Z.of_nat (length l) /\
    Forall (fun r => exists row', t_outbox (db w') !! rec_ID r = Some row' /\
              processed p t (rec_row r) w' row') (r :: l) /\
    (forall id, id ∉ map rec_ID (r :: l) -> t_outbox (db w') !! id = t_outbox (db w) !! id) /\
    trace w `prefix_of` trace w').
  { intros res1. destruct (IH Hn res1 w2 Hm2) as (res' & w' & -> & Hc & Hf & Ho & Ht').
    exists res', w'. split_and!; [done|done| | |by etrans].
    - constructor; [|done]. exists row'. rewrite (Ho _ Hnr), Ed. simpl.
      rewrite lookup_insert_eq. eauto using processed_mono.
    - intros id Hid. simpl in Hid. apply not_elem_of_cons in Hid as [? ?].
      rewrite Ho by done. rewrite Ed. simpl. by rewrite lookup_insert_ne. }
  destruct o as [msg|]; unfold bind; rewrite EM;
    (edestruct Hgo as (res' & w' & -> & Hc & ? & ? & ?); exists res', w';
     split_and!; [done|simpl in *; lia|done..]).
Qed.
End outbox_proofs.
#[export] Hint Resolve gauge_enq : flick.

(** ** A concrete codec and broker, for witnesses *)
Module Concrete.
Definition event_to_list (e : JobEvent) : list string * Z * gmap string string :=
  ([JobID e; Kind e; SecretID e; ObjectKey e; Reason e], RequestedAt e, TraceContext e).
Definition event_of_list (x : list string * Z * gmap string string) : option JobEvent :=
  match x with
  | ([a; b; c; d; e], t, tc) => Some (MkJobEvent a b c d e t tc)
  | _ => None
  end.

Fixpoint string_of_pos (p : positive) : string :=
  match p with
  | xH => "!"
  | xO p => String.String (Ascii.ascii_of_nat 48) (string_of_pos p)
  | xI p => String.String (Ascii.ascii_of_nat 49) (string_of_pos p)
  end.
Fixpoint pos_of_string (s : string) : positive :=
  match s with
  | String.String c r =>
      match Ascii.nat_of_ascii c with
      | 48%nat => xO (pos_of_string r)
      | 49%nat => xI (pos_of_string r)
      | _ => xH
      end
  | EmptyString => xH
  end.
Lemma pos_of_string_of p : pos_of_string (string_of_pos p) = p.
Proof. induction p; simpl; by rewrite ?IHp. Qed.

Definition marshal (e : JobEvent) : option string := Some (string_of_pos (encode (event_to_list e))).
Definition unmarshal (s : string) : option JobEvent :=
  x ← (decode (pos_of_string s) : option (list string * Z * gmap string string)); event_of_list x.

#[export] Instance codec : EventCodec.
Proof.
  refine {| json_marshal := marshal; json_unmarshal := unmarshal |}.
  - intros e s _ [= <-]. unfold unmarshal. rewrite pos_of_string_of, decode_encode. by destruct e.
  - intros e _. by eexists.
Defined.

(** A clock that advances one second per tick from 2023-11-14, no database
    failures, constant randomness. *)
Definition env_at (start : time) : Env.
Proof.
  refine {| clk := fun t => start + Z.of_nat t * Second;
            db_fault := fun _ => false;
            rand_bytes := fun t n =>
              Some (String.string_of_list_ascii (replicate n (Ascii.ascii_of_nat t))) |}.
  intros t n s [= <-]. induction n; simpl; congruence.
Defined.
Definition epoch : time := 1700000000 * Second.
#[export] Instance env : Env := env_at epoch.
#[export] Instance env_no_faults : NoFaults.
Proof. done. Defined.

(** A broker that refuses at every third tick. *)
Definition broker : Broker := {|
  js_publish := fun t _ _ => if (t mod 3 =? 0)%nat then Some "unreachable" else None;
  otel_inject := fun t => {[ "traceparent" := "00-01" ]};
|}.
End Concrete.

(** ** Theorems of the outbox *)
Section outbox_theorems.
  Context {ENV : Env} {CODEC : EventCodec} {BROKER : Broker}.

Lemma PublishDue_accepted (p : OutboxPublisher) (limit : Z) (w : World ApiDB) r w' :
  accepted w -> PublishDue p limit w = (r, w') ->
  accepted w' /\ outbox_grows (db w) (db w').
Proof.
  intros Ha H. unfold PublishDue, fail_if, bind, now, ask in H.
  destruct (limit <=? 0) eqn:El; [by injection H as _ <-|]. simpl in H.
  unfold ListDue, fail_if, bind in H. rewrite El in H.
  unfold sql_query, sql, ret, lift in H. simpl in H.
  destruct (db_fault _); [by injection H as _ <-|].
  destruct (scan_all _) as [l|] eqn:Es; [|by injection H as _ <-].
  eapply publish_all_accepted in H; [exact H|exact Ha|]. simpl.
  apply Forall_forall. intros x Hx. apply scan_all_Ok in Es.
  assert (Hin : (rec_ID x, rec_row x) ∈ select_due (clk (tick w)) limit (db w)).
  { rewrite <- Es. by apply (list_elem_of_fmap_2 (fun r => (rec_ID r, rec_row r))). }
  apply select_due_elem in Hin as [? _]. eexists; eauto.
Qed.

(** C22: a published row was accepted by the broker, and publishing never loses
    a job.  If every published row's message is in the trace of accepted
    messages, the same holds after [PublishDue], whatever it returns and
    whatever SQL call or publish fails on the way; and every row of the outbox
    is still there with its subject and payload, a published one unchanged. *)
Theorem published_only_after_accept (p : OutboxPublisher) (limit : Z) (w : World ApiDB) r w' :
  accepted w -> PublishDue p limit w = (r, w') ->
  accepted w' /\ outbox_grows (db w) (db w').
Proof. apply PublishDue_accepted. Qed.

(** Every payload of the outbox decodes to a valid event. *)
Definition decodable (d : ApiDB) : Prop :=
  map_Forall (fun _ r => exists e, decodeJobEvent (o_payload r) = Ok e) (t_outbox d).

Lemma scan_all_decodable d l :
  decodable d -> (forall id r, (id, r) ∈ l -> t_outbox d !! id = Some r) ->
  exists rs, scan_all l = Ok rs.
Proof.
  intros Hd. induction l as [|[id r] l IH]; intros Hl; simpl; [eauto|].
  unfold scanOutboxRecord; simpl.
  destruct (Hd id r) as [e ->]; [apply Hl; by left|].
  destruct IH as [rs ->]; [|eauto]. intros. apply Hl. by right.
Qed.

(** one round of publishing, completely.  With a database that answers,
    decodable payloads and a positive limit, [PublishDue] returns, counts one
    success or failure for each of the rows the due query selects, and leaves
    each of them either published after its message was accepted, or failed
    with one more attempt and its next attempt [retryDelay] after the round;
    no other row changes. *)
Theorem publish_due_processes_all `{!NoFaults} (p : OutboxPublisher) (limit : Z) (w : World ApiDB) :
  let t := clk (tick w) in
  0 < limit -> 0 < retryDelay p -> zero_time < t -> decodable (db w) ->
  map_Forall (fun _ r => outbox_check r = true) (t_outbox (db w)) ->
  exists res w', PublishDue p limit w = (Ok res, w') /\
    Published res + Failed res = Z.of_nat (length (select_due t limit (db w))) /\
    (forall id row, (id, row) ∈ select_due t limit (db w) ->
       exists row', t_outbox (db w') !! id = Some row' /\ processed p t row w' row') /\
    (forall id, id ∉ (select_due t limit (db w)).*1 ->
       t_outbox (db w') !! id = t_outbox (db w) !! id).
Proof.
  intros t Hl Hd Ht Hdec Hck.
  assert (El : (limit <=? 0) = false) by (apply Z.leb_gt; lia).
  destruct (scan_all_decodable (db w) (select_due t limit (db w))) as [rs Es];
    [done|intros id r Hin; by apply select_due_elem in Hin as []|].
  pose proof (scan_all_Ok _ _ Es) as Em.
  destruct (publish_all_ok p t rs {| Published := 0; Failed := 0 |} (bump (bump w)))
    as (res & w' & E & Hc & Hf & Ho & _).
  - apply Forall_forall. intros x Hx.
    assert (Hin : (rec_ID x, rec_row x) ∈ select_due t limit (db w)).
    { rewrite <- Em. by apply (list_elem_of_fmap_2 (fun r => (rec_ID r, rec_row r))). }
    apply select_due_elem in Hin as [Hx1 Hdue]. split_and!; [done| |].
    + unfold due in Hdue. destruct (o_state (rec_row x)); [done|done|done].
    + apply Hck in Hx1. by apply Z.leb_le.
  - pose proof (select_due_NoDup t limit (db w)) as Hnd. rewrite <- Em in Hnd.
    by rewrite <- list_fmap_compose in Hnd.
  - apply Z.eqb_neq. unfold zero_time in *. lia.
  - exists res, w'. split_and!.
    + unfold PublishDue, fail_if, bind, now, ask. rewrite El. simpl. fold t.
      unfold ListDue, fail_if, bind, sql_query, sql, ret, lift. rewrite El, no_faults. simpl.
      rewrite Es. by destruct w.
    + simpl in Hc. rewrite <- Em, length_map. lia.
    + intros id row Hin. rewrite <- Em in Hin. apply list_elem_of_fmap in Hin as (x & [= -> ->] & Hx).
      rewrite Forall_forall in Hf. by apply Hf.
    + intros id Hid. rewrite Ho; [done|]. rewrite <- Em in Hid. by rewrite <- list_fmap_compose in Hid.
Qed.

(** what is enqueued is what the worker decodes.  The payload
    [EnqueueTx] stores decodes, under the worker's strict decoder and
    validation, to the event it was given, carrying the injected trace
    context; the row is pending, its next attempt is the time of the call, and it is the
    only change. *)
Theorem enqueue_decode_roundtrip (s : OutboxStore) (ev : JobEvent) (w : World ApiDB) r w' :
  ascii_event ev = true -> ascii_event (with_trace (otel_inject (tick w)) ev) = true ->
  EnqueueTx s ev w = (Ok r, w') ->
  exists row, db w' = set_outbox (<[JobID ev := row]> (t_outbox (db w))) (db w) /\
    t_outbox (db w) !! JobID ev = None /\ o_state row = OutboxPending /\
    o_next_attempt row = clk (S (tick w)) /\
    decodeJobEvent (o_payload row) = Ok (with_trace (otel_inject (tick w)) ev).
Proof.
  intros Ha Ha' H. unfold EnqueueTx in H. msteps H. simplify_eq.
  match goal with Hi : insert_outbox _ _ _ = _ |- _ =>
    apply insert_outbox_Some in Hi as [Hn ->] end. rewrite with_trace_JobID in *.
  eexists. split_and!; [done|done|done|done|]. simpl.
  unfold decodeJobEvent, JSON in *. destruct (Validate _) eqn:EV; [|done].
  destruct (json_marshal _) eqn:EJ; [|done]. simplify_eq.
  by rewrite (json_roundtrip _ _ Ha' EJ), EV.
Qed.

(** The due query is right to the second.  A pending or failed row whose
    next attempt lies a second or more in the past is selected, and a selected
    row is never more than a second early, although the statement compares the
    untrimmed texts. *)
Theorem due_to_the_second (at_ : time) (r : outbox_row) :
  four_digit_year at_ = true -> four_digit_year (o_next_attempt r) = true -> not_published r = true ->
  (o_next_attempt r + Second <= at_ -> due at_ r = true) /\
  (due at_ r = true -> o_next_attempt r < at_ + Second).
Proof.
  intros Hy Hn Hp. unfold due, sql_le_nano, text_le.
  assert (Hst : bool_decide (o_state r = OutboxPending) || bool_decide (o_state r = OutboxFailed) = true).
  { unfold not_published in Hp. by destruct (o_state r). }
  rewrite Hst, andb_true_l. destruct (Z.eq_dec (o_next_attempt r / Second) (at_ / Second)) as [E|E].
  - pose proof (Z.div_mod (o_next_attempt r) Second). pose proof (Z.div_mod at_ Second).
    pose proof (Z.mod_pos_bound (o_next_attempt r) Second). pose proof (Z.mod_pos_bound at_ Second).
    unfold Second in *. split; [lia|]. intros _. lia.
  - rewrite compare_formatTime_seconds by done. unfold Second in *.
    destruct (Z.compare_spec (o_next_attempt r) at_); split; (done || lia).
Qed.

(** within a second the due query is wrong.  A pending row whose next
    attempt is a whole second is not selected at any later instant of that
    same second with a fraction: its text ends in "Z" where the bound has ".",
    and "Z" sorts after ".". *)
Theorem due_misses_whole_second (r : outbox_row) (n : Z) :
  four_digit_year (o_next_attempt r) = true -> o_next_attempt r mod Second = 0 -> 0 < n < Second ->
  due (o_next_attempt r + n) r = false.
Proof.
  intros Hy Hm Hn. unfold due, sql_le_nano, text_le.
  assert (Hd : (o_next_attempt r + n) / Second = o_next_attempt r / Second /\ (o_next_attempt r + n) mod Second = n).
  { assert (Hq : o_next_attempt r = Second * (o_next_attempt r / Second) + 0) by (rewrite <- Hm; by apply Z.div_mod).
    split; symmetry; [apply (Z.div_unique _ _ _ n)|apply (Z.mod_unique _ _ (o_next_attempt r / Second))]; lia. }
  destruct Hd as [Hd Hr].
  assert (Hy' : four_digit_year (o_next_attempt r + n) = true) by (unfold four_digit_year; by rewrite Hd).
  unfold formatTime. rewrite compare_format_seconds, civil_lex_same by done. cbn [lex civil_of c_ns]. rewrite Hm, Hr.
  unfold nano_fraction. rewrite Z.eqb_refl, (proj2 (Z.eqb_neq n 0)) by lia. apply andb_false_r.
Qed.
End outbox_theorems.

(** ** Witnesses *)
Module OutboxWitness.
Import Concrete.
#[local] Existing Instance broker.

Definition store : OutboxStore := {| subject := "flick.jobs" |}.
Definition ev (id : string) : JobEvent :=
  MkJobEvent id KindDeleteOCIObject "s1" "tmp/a" ReasonConsumed epoch ∅.
Definition w0 : World ApiDB := MkWorld empty_db 0 0 [].
Definition w1 : World ApiDB := (Enqueue store (ev "j2") (Enqueue store (ev "j1") w0).2).2.

Lemma w1_no_published : forall id r, t_outbox (db w1) !! id = Some r -> o_state r = OutboxPending.
Proof.
  assert (H : map_Forall (fun _ r => o_state r = OutboxPending) (t_outbox (db w1)))
    by (apply (bool_decide_unpack _); vm_compute; exact I).
  exact H.
Defined.

Lemma published_only_after_accept_witness :
  accepted w1 /\ accepted (PublishDue (NewOutboxPublisher 0) 10 w1).2.
Proof.
  assert (Ha : accepted w1) by (intros id r Hr Hs; apply w1_no_published in Hr; congruence).
  split; [exact Ha|].
  eapply (published_only_after_accept (NewOutboxPublisher 0) 10 w1); [exact Ha|].
  apply surjective_pairing.
Defined.

Lemma publish_due_processes_all_witness :
  exists res w', PublishDue (NewOutboxPublisher 0) 10 w1 = (Ok res, w') /\
    Published res + Failed res = 2.
Proof.
  destruct (publish_due_processes_all (NewOutboxPublisher 0) 10 w1) as (res & w' & E & Hc & _).
  - done.
  - done.
  - by vm_compute.
  - assert (H : map_Forall (fun _ r => is_ok (decodeJobEvent (o_payload r)) = true) (t_outbox (db w1)))
      by (apply (bool_decide_unpack _); vm_compute; exact I).
    intros id r Hr. apply H in Hr. by apply is_ok_true in Hr.
  - apply (bool_decide_unpack _). vm_compute. exact I.
  - exists res, w'. split; [exact E|]. rewrite Hc. by vm_compute.
Defined.

Lemma enqueue_decode_roundtrip_witness :
  exists row, t_outbox (db (EnqueueTx store (ev "j1") w0).2) !! "j1" = Some row /\
    exists e, decodeJobEvent (o_payload row) = Ok e.
Proof.
  destruct (EnqueueTx store (ev "j1") w0) as [[r|e] w'] eqn:E; [|vm_compute in E; discriminate].
  destruct (enqueue_decode_roundtrip store (ev "j1") w0 r w')
    as (row & Ed & _ & _ & _ & Hd); [by vm_compute|by vm_compute|exact E|].
  exists row. split; [|eauto]. simpl. rewrite Ed. apply lookup_insert_eq.
Defined.

Definition row (t : time) : outbox_row := MkOutbox "flick.jobs" "{}" OutboxPending 0 t None None t t.
Lemma due_to_the_second_witness : due (epoch + Second) (row epoch) = true.
Proof. apply (due_to_the_second (epoch + Second) (row epoch)); by vm_compute. Defined.
Lemma due_misses_whole_second_witness : due (epoch + 500000000) (row epoch) = false.
Proof. apply (due_misses_whole_second (row epoch) 500000000); by vm_compute. Defined.
End OutboxWitness.
