(* ===== verification/ObjectStorage.v ===== *)
(** * Object storage (src/internal/storage)

    [Objects.Store] is the interface the stores depend on, with the laws
    [Objects.Spec] its clients use; [Client] is the S3 implementation, over an
    oracle for the AWS SDK's answers. *)

From S2P Require Import Prelude World.

Record UploadInstruction := MkUpload {
  URL : string;
  Method : string;
  UploadExpiresAt : time;
  Headers : list (string * string);
}.

Record ObjectInfo := MkInfo { InfoKey : string; Exists : bool; Size : Z; InfoContentType : string }.
Record ObjectPage := MkPage { Keys : list string; NextCursor : string }.

(** A body being read: its bytes, then the end of file or a read error. *)
Record stream := MkStream { content : string; complete : bool }.

Module Objects.

(** [storage.ObjectStore] and [storage.RequestObjectStore].  [verify] is given
    what the stream yielded. *)
Record Store (D : Type) := {
  List : string -> string -> Z -> M D ObjectPage;
  PresignPUT : string -> Z -> Z -> M D UploadInstruction;
  Head : string -> M D ObjectInfo;
  Open : string -> M D (stream * Z);
  Delete : string -> M D unit;
  PutStream : string -> stream -> Z -> (string -> option err) -> M D unit;
}.
#[global] Arguments List {D} _ _ _ _.
#[global] Arguments PresignPUT {D} _ _ _ _.
#[global] Arguments Head {D} _ _.
#[global] Arguments Open {D} _ _.
#[global] Arguments Delete {D} _ _.
#[global] Arguments PutStream {D} _ _ _ _ _.

(** Object storage never touches the database or the upload gauge; only
    [Delete] and [PutStream] change the bucket, at the key they are given, and
    [PutStream] only writes bytes its [verify] accepted. *)
Definition quiet {D} (w w' : World D) : Prop :=
  db w' = db w /\ active_uploads w' = active_uploads w /\ trace w' = trace w.

Class Spec {D} (o : Store D) := {
  List_quiet p c n w r w' : List o p c n w = (r, w') -> quiet w w';
  PresignPUT_quiet k n t w r w' : PresignPUT o k n t w = (r, w') -> quiet w w';
  Head_quiet k w r w' : Head o k w = (r, w') -> quiet w w';
  Open_quiet k w r w' : Open o k w = (r, w') -> quiet w w';
  Open_err k w e w' : Open o k w = (Err e, w') -> exists msg, e = Fail msg;
  Delete_spec k w r w' : Delete o k w = (r, w') ->
    db w' = db w /\ active_uploads w' = active_uploads w /\
    (trace w' = trace w \/ trace w' = trace w ++ [EffDelete k]);
  PutStream_spec k body n verify w r w' : PutStream o k body n verify w = (r, w') ->
    db w' = db w /\ active_uploads w' = active_uploads w /\
    (trace w' = trace w \/
     exists bytes, trace w' = trace w ++ [EffPut k bytes] /\ verify bytes = None /\ strlen bytes = n) /\
    (r = Ok tt -> trace w' <> trace w);
}.

Lemma quiet_on_db {D A} (m : M D A) (R : relation D) `{!Reflexive R} :
  (forall w r w', m w = (r, w') -> quiet w w') -> respects (on_db R) m.
Proof.
  intros H w. destruct (m w) as [r w'] eqn:E. apply H in E as [E _]. unfold on_db. simpl. by rewrite E.
Qed.
Lemma quiet_gauge {D A} (m : M D A) :
  (forall w r w', m w = (r, w') -> quiet w w') -> respects same_gauge m.
Proof. intros H w. destruct (m w) as [r w'] eqn:E. by apply H in E as (_ & E & _). Qed.

Section frames.
Context {D : Type} (o : Store D) `{!Spec o} (R : relation D) `{!Reflexive R}.

Lemma respects_List p c n : respects (on_db R) (List o p c n).
Proof. apply quiet_on_db; [apply _|apply List_quiet]. Qed.
Lemma respects_PresignPUT k n t : respects (on_db R) (PresignPUT o k n t).
Proof. apply quiet_on_db; [apply _|apply PresignPUT_quiet]. Qed.
Lemma respects_Head k : respects (on_db R) (Head o k).
Proof. apply quiet_on_db; [apply _|apply Head_quiet]. Qed.
Lemma respects_Open k : respects (on_db R) (Open o k).
Proof. apply quiet_on_db; [apply _|apply Open_quiet]. Qed.
Lemma respects_Delete k : respects (on_db R) (Delete o k).
Proof.
  intros w. destruct (Delete o k w) as [r w'] eqn:E. apply Delete_spec in E as [E _].
  unfold on_db; simpl. by rewrite E.
Qed.
Lemma respects_PutStream k b n v : respects (on_db R) (PutStream o k b n v).
Proof.
  intros w. destruct (PutStream o k b n v w) as [r w'] eqn:E. apply PutStream_spec in E as [E _].
  unfold on_db; simpl. by rewrite E.
Qed.
Lemma gauge_List p c n : respects same_gauge (List o p c n).
Proof. apply quiet_gauge, List_quiet. Qed.
Lemma gauge_Open k : respects same_gauge (Open o k).
Proof. apply quiet_gauge, Open_quiet. Qed.
Lemma gauge_Delete k : respects same_gauge (Delete o k).
Proof. intros w. destruct (Delete o k w) as [r w'] eqn:E. by apply Delete_spec in E as (_ & E & _). Qed.
Lemma gauge_PutStream k b n v : respects same_gauge (PutStream o k b n v).
Proof. intros w. destruct (PutStream o k b n v w) as [r w'] eqn:E. by apply PutStream_spec in E as (_ & E & _). Qed.
Lemma gauge_PresignPUT k n t : respects same_gauge (PresignPUT o k n t).
Proof. apply quiet_gauge, PresignPUT_quiet. Qed.
End frames.
End Objects.

#[export] Hint Resolve Objects.respects_List Objects.respects_PresignPUT Objects.respects_Head
  Objects.respects_Open Objects.respects_Delete Objects.respects_PutStream Objects.gauge_List
  Objects.gauge_Open Objects.gauge_Delete Objects.gauge_PutStream Objects.gauge_PresignPUT : flick.

(** ** The S3 client *)

(** The SDK's errors: the two not-found types, an API error with its code, or
    a transport failure. *)
Inductive s3_error := NotFound | NoSuchKey | APIError (code : string) | Transport.
Inductive s3_answer (A : Type) := S3Ok (a : A) | S3Err (e : s3_error).
Arguments S3Ok {A} a.
Arguments S3Err {A} e.

Record list_output := MkListOutput { Contents : list string; IsTruncated : bool; NextContinuationToken : string }.

(** The SDK's answers at a tick, and whether the spool file could be used. *)
Class S3 := {
  ListObjectsV2 : nat -> string -> string -> Z -> s3_answer list_output;
  HeadObject : nat -> string -> s3_answer (option Z * option string);
  GetObject : nat -> string -> s3_answer (stream * option Z);
  DeleteObject : nat -> string -> s3_answer unit;
  PutObject : nat -> string -> string -> s3_answer unit;
  PresignPutObject : nat -> string -> Z -> Z -> s3_answer (string * string);
  spool_ok : nat -> bool;
  (** [strconv.FormatInt] in base 10 *)
  FormatInt : Z -> string;
}.

Section client.
Context {ENV : Env} {AWS : S3} {D : Type}.

Definition isNotFound (e : s3_error) : bool :=
  match e with NotFound | NoSuchKey => true | _ => false end.

Definition invalid_cursor_code (code : string) : bool :=
  bool_decide (code ∈ ["InvalidArgument"; "InvalidToken"; "InvalidContinuationToken"]).

Definition client_List (prefix cursor : string) (limit : Z) : M D ObjectPage :=
  do! fail_if (bool_decide (prefix = "") || (limit <? 1) || (1000 <? limit))
        (Fail "invalid object listing bounds") in
  let! out := ask (fun t => ListObjectsV2 t prefix cursor limit) in
  match out with
  | S3Err (APIError code) =>
      if negb (bool_decide (cursor = "")) && invalid_cursor_code code
      then throw ErrInvalidCursor else throw (Fail "object listing failed")
  | S3Err NotFound | S3Err NoSuchKey => throw (Fail "object listing failed")
  | S3Err Transport => throw (Fail "object listing request failed")
  | S3Ok out =>
      do! fail_if (limit <? Z.of_nat (length (Contents out)))
            (Fail "object listing exceeded requested page size") in
      if IsTruncated out then
        let next := NextContinuationToken out in
        do! fail_if (bool_decide (next = "") || bool_decide (next = cursor))
              (Fail "object listing cursor did not advance") in
        ret (MkPage (Contents out) next)
      else ret (MkPage (Contents out) "")
  end.

Definition client_Head (key : string) : M D ObjectInfo :=
  let! out := ask (fun t => HeadObject t key) in
  match out with
  | S3Err e => if isNotFound e then ret (MkInfo key false 0 "") else throw (Fail "head object")
  | S3Ok (len, ct) => ret (MkInfo key true (default 0 len) (default "" ct))
  end.

Definition client_Open (key : string) : M D (stream * Z) :=
  let! out := ask (fun t => GetObject t key) in
  match out with
  | S3Err _ => throw (Fail "get object")
  | S3Ok (body, None) => throw (Fail "get object: no content length")
  | S3Ok (body, Some n) => ret (body, n)
  end.

Definition client_Delete (key : string) : M D unit :=
  let! out := ask (fun t => DeleteObject t key) in
  do! emit (EffDelete key) in
  match out with
  | S3Err e => if isNotFound e then ret tt else throw (Fail "delete object")
  | S3Ok _ => ret tt
  end.

(** [io.Copy(spool, io.LimitReader(body, size))]: the bytes read, and whether
    exactly [size] of them were. *)
Definition spool_read (body : stream) (size : Z) : option string :=
  if size <=? strlen (content body) then Some (String.substring 0 (Z.to_nat size) (content body)) else None.

Definition client_PutStream (key : string) (body : stream) (size : Z) (verify : string -> option err) : M D unit :=
  do! fail_if (bool_decide (key = "") || (size <? 1)) (Fail "invalid object write") in
  let! ok := ask spool_ok in
  do! fail_if (negb ok) (Fail "object spool failed") in
  match spool_read body size with
  | None => throw (Fail "object body read failed")
  | Some bytes =>
      match verify bytes with
      | Some e => throw e
      | None =>
          let! ok := ask spool_ok in
          do! fail_if (negb ok) (Fail "object spool failed") in
          let! out := ask (fun t => PutObject t key bytes) in
          do! emit (EffPut key bytes) in
          match out with
          | S3Err _ => throw (Fail "object write failed")
          | S3Ok _ => ret tt
          end
      end
  end.

Definition client_PresignPUT (key : string) (size ttl : Z) : M D UploadInstruction :=
  do! fail_if (bool_decide (key = "")) (Fail "object key is required") in
  do! fail_if (size <=? 0) (Fail "size must be positive") in
  let! out := ask (fun t => PresignPutObject t key size ttl) in
  match out with
  | S3Err _ => throw (Fail "presign put")
  | S3Ok (url, method) =>
      let! t := now in
      ret (MkUpload url method (t + ttl) [("Content-Length", FormatInt size)])
  end.

Definition Client : Objects.Store D := {|
  Objects.List := client_List;
  Objects.PresignPUT := client_PresignPUT;
  Objects.Head := client_Head;
  Objects.Open := client_Open;
  Objects.Delete := client_Delete;
  Objects.PutStream := client_PutStream;
|}.

Lemma substring_length n s : (n <= String.length s)%nat -> String.length (String.substring 0 n s) = n.
Proof.
  revert s. induction n as [|n IH]; intros s; [by destruct s|].
  destruct s; simpl; [lia|]. intros. rewrite IH; lia.
Qed.

Lemma spool_read_Some body size bytes :
  1 <= size -> spool_read body size = Some bytes -> strlen bytes = size.
Proof.
  unfold spool_read. destruct (Z.leb_spec size (strlen (content body))); [|done].
  intros ? [= <-]. rewrite substring_length; lia.
Qed.

(** Run a client call to all its ends. *)
Ltac run_client H :=
  unfold client_List, client_Head, client_Open, client_Delete, client_PutStream, client_PresignPUT,
    fail_if, bind, ask, now, ret, throw, emit in H;
  repeat (split_match H; simpl in H); simplify_eq/=.

#[global] Instance Client_spec : Objects.Spec Client.
Proof.
  split; simpl.
  - intros p c n w r w' H. run_client H; done.
  - intros k n t w r w' H. run_client H; done.
  - intros k w r w' H. run_client H; done.
  - intros k w r w' H. run_client H; done.
  - intros k w e w' H. run_client H; eauto.
  - intros k w r w' H. run_client H; auto.
  - intros k b n v w r w' H. run_client H; split_and!; try done; auto.
    all: destruct_bools.
    all: try (right; eexists; split_and!; [done|done|]; by apply (spool_read_Some b)).
    intros _ E. apply (f_equal length) in E. rewrite length_app in E. simpl in E. lia.
Qed.
End client.
