(* ===== verification/SecretStore.v ===== *)
(** * One-time secrets (src/internal/secrets/store.go, management.go)

    The store of secrets: creation (inline and by direct upload), finalizing an
    upload, opening once, failed access and lockout, cleanup, reclaim, and the
    sender's management capability.  Each definition is the method of the same
    name; methods that take a [*sql.Tx] run in the caller's transaction. *)

From S2P Require Import Prelude World GoTime Codec Schema AgeFormat Outbox ObjectStorage.

Definition KindText : string := "text".
Definition KindFile : string := "file".
Definition KDFPBKDF2SHA256 : string := "PBKDF2-SHA-256".
Definition maxFailedAccessAttempts : Z := 5.
Definition managedObjectPrefix : string := "managed/secrets/".

Definition kdf_zero : KDFParams := {| Algorithm := ""; Salt := ""; Iterations := 0; KeyLengthBits := 0 |}.

Record CreateInput := MkCreateInput {
  in_Kind : string;
  in_Ciphertext : string;
  in_AccessKDF : KDFParams;
  in_AccessProofHash : string;
  in_WrappedIdentity : option string;
  in_EncryptedFilename : option string;
  in_ContentType : option string;
  in_SizeBytes : Z;
  in_TTLSeconds : Z;
  in_MaxViews : Z;
}.

Record CreateLargeInput := MkCreateLargeInput {
  li_Kind : string;
  li_AccessKDF : KDFParams;
  li_AccessProofHash : string;
  li_WrappedIdentity : option string;
  li_EncryptedFilename : option string;
  li_ContentType : option string;
  li_SizeBytes : Z;
  li_TTLSeconds : Z;
  li_MaxViews : Z;
}.

Record CreateLargeResult := MkCreateLargeResult {
  lr_ManagementToken : string;
  lr_ID : string;
  lr_ExpiresAt : time;
  lr_Upload : UploadInstruction;
}.

Record Secret := MkSecretValue {
  ManagementToken : string;
  ID : string;
  SecretKind : string;
  StorageBackend : backend;
  StorageKey : string;
  Ciphertext : string;
  Body : option stream;
  AccessKDF : KDFParams;
  WrappedIdentity : option string;
  EncryptedFilename : option string;
  ContentType : option string;
  SizeBytes : Z;
  ExpiresAt : time;
  accessProofHash : string;
}.

Record SecretMetadata := MkMetadata {
  md_ID : string;
  md_Kind : string;
  md_AccessKDF : KDFParams;
  md_SizeBytes : Z;
  md_ExpiresAt : time;
}.

Record Store := MkStore {
  payloadInlineMaxBytes : Z;
  maxObjectBytes : Z;
  presignTTL : Z;
  pendingTTL : Z;
  minTTL : Z;
  maxTTL : Z;
  objects : option (Objects.Store ApiDB);
  outbox : option outboxEnqueuer;
}.

(** [NewStore]; [StoreOptions] carries the same fields. *)
Definition NewStore (opts : Store) : result Store :=
  if payloadInlineMaxBytes opts <=? 0 then Err (Fail "payload inline max bytes must be positive")
  else if minTTL opts <=? 0 then Err (Fail "min ttl seconds must be positive")
  else if maxTTL opts <? minTTL opts then Err (Fail "max ttl seconds must be >= min ttl seconds")
  else if is_some (objects opts) && (maxObjectBytes opts <=? 0)
  then Err (Fail "max object bytes must be positive when object storage is enabled")
  else Ok (MkStore (payloadInlineMaxBytes opts) (maxObjectBytes opts)
             (if presignTTL opts <=? 0 then 5 * Minute else presignTTL opts)
             (if pendingTTL opts <=? 0 then 15 * Minute else pendingTTL opts)
             (minTTL opts) (maxTTL opts) (objects opts) (outbox opts)).

(** ** Validation *)
Fixpoint printable (s : string) : bool :=
  match s with
  | "" => true
  | String.String c r => (0x20 <=? byte_val c) && (byte_val c <=? 0x7e) && printable r
  end.

Definition validContentType (value : string) : bool :=
  (strlen value <=? maxContentTypeBytes) && printable value.

Definition invalid {A} : result A := Err (SecretsErr ErrInvalidInput).

Definition validateCommon (s : Store) (kind : string) (ttlSeconds maxViews : Z) (kdf : KDFParams)
    (proofHash : string) (wrapped filename contentType : option string) : result unit :=
  if negb (bool_decide (kind = KindText)) && negb (bool_decide (kind = KindFile))
  then Err (SecretsErr ErrUnsupportedKind)
  else if (ttlSeconds <? minTTL s) || (maxTTL s <? ttlSeconds) then invalid
  else if negb (maxViews =? 1) then Err (SecretsErr ErrUnsupportedViews)
  else
    let hasProof := negb (bool_decide (proofHash = "")) in
    let hasAccessKDF := negb (bool_decide (Algorithm kdf = "")) in
    let hasWrapped := is_some wrapped in
    if negb (Bool.eqb hasProof hasAccessKDF) || negb (Bool.eqb hasProof hasWrapped) then invalid
    else if hasProof &&
      (negb (bool_decide (Algorithm kdf = KDFPBKDF2SHA256)) || bool_decide (Salt kdf = "") ||
       (Iterations kdf <? 600000) || (6000000 <? Iterations kdf) || negb (KeyLengthBits kdf =? 256))
    then invalid
    else if hasProof && is_none (decodeAgeField (default "" wrapped) maxWrappedIdentityBytes) then invalid
    else if bool_decide (kind = KindFile) && is_none filename then invalid
    else if bool_decide (kind = KindText) && is_some filename then invalid
    else if match filename with
            | Some f => is_none (decodeAgeField f maxEncryptedFilenameBytes) | None => false end then invalid
    else if match contentType with Some c => negb (validContentType c) | None => false end then invalid
    else Ok tt.

Definition validateCreate (s : Store) (i : CreateInput) : result unit :=
  if payloadInlineMaxBytes s <? strlen (in_Ciphertext i) then Err (SecretsErr ErrPayloadTooLarge)
  else if negb (has_prefix ageMagic (in_Ciphertext i)) || negb (strlen (in_Ciphertext i) =? in_SizeBytes i)
  then invalid
  else validateCommon s (in_Kind i) (in_TTLSeconds i) (in_MaxViews i) (in_AccessKDF i)
         (in_AccessProofHash i) (in_WrappedIdentity i) (in_EncryptedFilename i) (in_ContentType i).

Definition validateCreateLarge (s : Store) (i : CreateLargeInput) : result unit :=
  if bool_decide (li_Kind i = KindText) then invalid
  else if maxObjectBytes s <? li_SizeBytes i then Err (SecretsErr ErrPayloadTooLarge)
  else if li_SizeBytes i <? MaxCiphertextBytes 0 - AgeHeaderAllowanceBytes then invalid
  else validateCommon s (li_Kind i) (li_TTLSeconds i) (li_MaxViews i) (li_AccessKDF i)
         (li_AccessProofHash i) (li_WrappedIdentity i) (li_EncryptedFilename i) (li_ContentType i).

(** [modelAColumns]: the two nullable columns (marshalling the KDF parameters
    cannot fail). *)
Definition modelAColumns (kdf : KDFParams) (proofHash : string) : option KDFParams * option string :=
  if bool_decide (proofHash = "") then (None, None) else (Some kdf, Some proofHash).

Definition default_views (v : Z) : Z := if v =? 0 then 1 else v.

(** [now.Add(time.Duration(ttl) * time.Second)]. *)
Definition expiry (t : time) (ttlSeconds : Z) : time := t + wrap64 (ttlSeconds * Second).

Section store.
Context {ENV : Env} (s : Store).
Abbreviation DB := (M ApiDB) (only parsing).

Definition generateID : M ApiDB string :=
  let! raw := rand_read 18 "generate secret id" in
  ret (Base64.encode Base64.RawURLEncoding raw).

(** ** The management capability (management.go) *)
Definition createManagementTx (id : string) (expires : time) : M ApiDB string :=
  let! raw := rand_read 32 "generate management capability" in
  do! sql "insert management capability" (insert_management id (MkManagement (sha256 raw) expires None)) in
  ret (Base64.encode Base64.RawURLEncoding raw).

Definition recordManagementOutcomeTx (id : string) (o : outcome) : M ApiDB unit :=
  do! sql "record management outcome"
        (update_management id (fun m => is_none (m_outcome m))
           (fun m => MkManagement (m_token_hash m) (m_expires m) (Some o))) in
  ret tt.

(** ** Creation *)
Definition Create (input : CreateInput) : M ApiDB Secret :=
  let input := MkCreateInput (in_Kind input) (in_Ciphertext input) (in_AccessKDF input)
    (in_AccessProofHash input) (in_WrappedIdentity input) (in_EncryptedFilename input)
    (in_ContentType input) (in_SizeBytes input) (in_TTLSeconds input) (default_views (in_MaxViews input)) in
  do! lift (validateCreate s input) in
  let! id := generateID in
  let! t := now in
  let expiresAt := expiry t (in_TTLSeconds input) in
  let '(kdf, proof) := modelAColumns (in_AccessKDF input) (in_AccessProofHash input) in
  transaction "begin create secret" "commit create secret"
    (do! sql "insert secret metadata" (insert_secret id
           (MkSecret (in_Kind input) SqliteBlob id kdf proof (in_WrappedIdentity input)
              (in_EncryptedFilename input) (in_ContentType input) (in_SizeBytes input)
              (in_MaxViews input) 0 0 Active expiresAt None t t None)) in
     do! sql "insert secret payload" (insert_payload id
           {| p_ciphertext := in_Ciphertext input; p_created := t |}) in
     let! managementToken := createManagementTx id expiresAt in
     ret (Commit (MkSecretValue managementToken id (in_Kind input) SqliteBlob id (in_Ciphertext input)
            None (in_AccessKDF input) (in_WrappedIdentity input) (in_EncryptedFilename input)
            (in_ContentType input) (in_SizeBytes input) expiresAt ""))).

Definition CreateLarge (input : CreateLargeInput) : M ApiDB CreateLargeResult :=
  match objects s with
  | None => throw (SecretsErr ErrPayloadTooLarge)
  | Some obj =>
      let input := MkCreateLargeInput (li_Kind input) (li_AccessKDF input) (li_AccessProofHash input)
        (li_WrappedIdentity input) (li_EncryptedFilename input) (li_ContentType input)
        (li_SizeBytes input) (li_TTLSeconds input) (default_views (li_MaxViews input)) in
      do! lift (validateCreateLarge s input) in
      let! id := generateID in
      let! t := now in
      let expiresAt := expiry t (li_TTLSeconds input) in
      let '(kdf, proof) := modelAColumns (li_AccessKDF input) (li_AccessProofHash input) in
      let storageKey := managedObjectPrefix +:+ id in
      let! upload := Objects.PresignPUT obj storageKey (li_SizeBytes input) (presignTTL s) in
      let! tok := transaction "begin create large secret" "commit create large secret"
        (do! sql "insert large secret metadata" (insert_secret id
               (MkSecret (li_Kind input) S3Object storageKey kdf proof (li_WrappedIdentity input)
                  (li_EncryptedFilename input) (li_ContentType input) (li_SizeBytes input)
                  (li_MaxViews input) 0 0 PendingUpload expiresAt None t t None)) in
         let! tok := createManagementTx id expiresAt in
         ret (Commit tok)) in
      do! uploads_add 1 in
      ret (MkCreateLargeResult tok id expiresAt upload)
  end.

(** ** Finalizing an upload *)
Definition activateSecretTx (id : string) (t : time) : M ApiDB unit :=
  let! n := sql "activate secret" (update_secret id (fun r => bool_decide (s_state r = PendingUpload))
    (fun r => MkSecret (s_kind r) (s_backend r) (s_key r) (s_access_kdf r) (s_proof_hash r) (s_wrapped r)
       (s_filename r) (s_content_type r) (s_size r) (s_max_views r) (s_view_count r) (s_failed r)
       Active (s_expires r) (s_consumed r) (s_created r) t (s_reclaim r))) in
  fail_if (negb (n =? 1)) (SecretsErr ErrNotFound).

(** The earlier of the content expiry and the pending deadline. *)
Definition finalize_deadline (r : secret_row) : time :=
  if before (s_created r + pendingTTL s) (s_expires r) then s_created r + pendingTTL s else s_expires r.

(** The transaction returns whether it activated a row. *)
Definition Finalize (id : string) : M ApiDB unit :=
  match objects s with
  | None => throw (SecretsErr ErrPayloadTooLarge)
  | Some obj =>
      let! activated := transaction "begin finalize" "commit finalize"
        (let! row := sql_query "load pending secret" (fun d => t_secrets d !! id) in
         match row with
         | None => throw (SecretsErr ErrNotFound)
         | Some r =>
             match s_state r with
             | Active => ret (Rollback false)
             | PendingUpload =>
                 let deadline := finalize_deadline r in
                 let! t := now in
                 do! fail_if (negb (before t deadline)) (SecretsErr ErrExpired) in
                 let! info := Objects.Head obj (s_key r) in
                 do! fail_if (negb (Exists info) || negb (Size info =? s_size r))
                       (SecretsErr ErrObjectMissing) in
                 let! t := now in
                 do! fail_if (negb (before t deadline)) (SecretsErr ErrExpired) in
                 do! activateSecretTx id t in
                 ret (Commit true)
             end
         end) in
      if activated then uploads_add (-1) else ret tt
  end.

Definition is_pending (r : secret_row) : bool := bool_decide (s_state r = PendingUpload).

(** The number of rows awaiting [/finalize]. *)
Definition pending_count (d : ApiDB) : Z :=
  Z.of_nat (size (filter (fun p => is_pending p.2 = true) (t_secrets d))).

Definition CountPendingUploads : M ApiDB Z := sql_query "count pending uploads" pending_count.

(** ** Reading *)

(** The row and its inline payload, as the left join of [load] returns them. *)
Definition load (id : string) : M ApiDB (Secret * option time) :=
  do! fail_if (bool_decide (id = "")) (SecretsErr ErrNotFound) in
  let! row := sql_query "load secret" (fun d => (t_secrets d !! id, t_payloads d !! id)) in
  match row with
  | (None, _) => throw (SecretsErr ErrNotFound)
  | (Some r, payload) =>
      do! fail_if (negb (bool_decide (s_state r = Active))) (SecretsErr ErrNotFound) in
      let ciphertext := match payload with Some p => p_ciphertext p | None => "" end in
      do! fail_if (negb (bool_decide (s_backend r = S3Object)) && bool_decide (ciphertext = "") &&
                   is_none (s_consumed r)) (SecretsErr ErrNotFound) in
      do! fail_if (negb (Bool.eqb (is_some (s_access_kdf r)) (is_some (s_proof_hash r))) ||
                   negb (Bool.eqb (is_some (s_proof_hash r)) (is_some (s_wrapped r))))
            (SecretsErr ErrInvalidInput) in
      ret (MkSecretValue "" id (s_kind r) (s_backend r) (s_key r) ciphertext None
             (default kdf_zero (s_access_kdf r)) (s_wrapped r) (s_filename r) (s_content_type r)
             (s_size r) (s_expires r) (default "" (s_proof_hash r)),
           s_consumed r)
  end.

Definition Get (id : string) : M ApiDB Secret :=
  let! l := load id in
  do! fail_if (is_some l.2) (SecretsErr ErrConsumed) in
  let! t := now in
  do! fail_if (negb (before t (ExpiresAt l.1))) (SecretsErr ErrExpired) in
  ret l.1.

Definition Metadata (id : string) : M ApiDB SecretMetadata :=
  do! fail_if (bool_decide (id = "")) (SecretsErr ErrNotFound) in
  let! row := sql_query "load secret metadata" (fun d =>
    match t_secrets d !! id with
    | Some r => if bool_decide (s_backend r = S3Object) || is_some (t_payloads d !! id)
                then Some r else None
    | None => None
    end) in
  match row with
  | None => throw (SecretsErr ErrNotFound)
  | Some r =>
      do! fail_if (is_some (s_consumed r)) (SecretsErr ErrConsumed) in
      let! t := now in
      do! fail_if (negb (before t (s_expires r))) (SecretsErr ErrExpired) in
      ret (MkMetadata id (s_kind r) (default kdf_zero (s_access_kdf r)) (s_size r) (s_expires r))
  end.

(** ** Opening *)
Definition set_body (sec : Secret) (b : stream) : Secret :=
  MkSecretValue (ManagementToken sec) (ID sec) (SecretKind sec) (StorageBackend sec) (StorageKey sec)
    (Ciphertext sec) (Some b) (AccessKDF sec) (WrappedIdentity sec) (EncryptedFilename sec)
    (ContentType sec) (SizeBytes sec) (ExpiresAt sec) (accessProofHash sec).

Definition openBody (sec : Secret) : M ApiDB Secret :=
  match StorageBackend sec with
  | SqliteBlob => ret sec
  | S3Object =>
      match objects s with
      | None => throw (SecretsErr ErrNotFound)
      | Some obj =>
          let! b := Objects.Open obj (StorageKey sec) in
          do! fail_if (negb (b.2 =? SizeBytes sec)) (Fail "open object payload: wrong size") in
          ret (set_body sec b.1)
      end
  end.

Definition delete_job (jobID key reason : string) (t : time) : JobEvent :=
  MkJobEvent jobID KindDeleteOCIObject "" key reason t ∅.

(** The two updates of [secrets] on access: one more failure (consumed at the
    limit), and the view that consumes. *)
Definition failed_access (t : time) (r : secret_row) : secret_row :=
  MkSecret (s_kind r) (s_backend r) (s_key r) (s_access_kdf r) (s_proof_hash r) (s_wrapped r)
    (s_filename r) (s_content_type r) (s_size r) (s_max_views r) (s_view_count r) (s_failed r + 1)
    (s_state r) (s_expires r)
    (if maxFailedAccessAttempts <=? s_failed r + 1 then Some t else s_consumed r)
    (s_created r) t (s_reclaim r).
Definition viewed (t : time) (r : secret_row) : secret_row :=
  MkSecret (s_kind r) (s_backend r) (s_key r) (s_access_kdf r) (s_proof_hash r) (s_wrapped r)
    (s_filename r) (s_content_type r) (s_size r) (s_max_views r) (s_view_count r + 1) (s_failed r)
    (s_state r) (s_expires r) (Some t) (s_created r) t (s_reclaim r).

Definition recordFailedAccessTx (id : string) (storageBackend : backend) (storageKey : string) (t : time) :
    M ApiDB unit :=
  let! n := sql "record failed secret access"
    (update_secret id (fun r => is_none (s_consumed r)) (failed_access t)) in
  do! fail_if (negb (n =? 1)) (SecretsErr ErrConsumed) in
  let! row := sql_query "load failed secret access count" (fun d => t_secrets d !! id) in
  match row with
  | None => throw (Fail "load failed secret access count")
  | Some r =>
      if (maxFailedAccessAttempts <=? s_failed r) && is_some (s_consumed r) then
        do! recordManagementOutcomeTx id Locked in
        match storageBackend with
        | SqliteBlob => do! sql "delete locked secret payload" (delete_payload id) in ret tt
        | S3Object =>
            match outbox s with
            | Some ob =>
                let! jobID := NewJobID in
                do! enq ob (delete_job jobID storageKey ReasonConsumed t) in ret tt
            | None =>
                match objects s with
                | Some obj => do! attempt (Objects.Delete obj storageKey) in ret tt
                | None => ret tt
                end
            end
        end
      else ret tt
  end.

Definition OpenTx (id proofHash : string) : M ApiDB Secret :=
  let! t := now in
  let! l := load id in
  let secret := l.1 in
  do! fail_if (is_some l.2) (SecretsErr ErrConsumed) in
  do! fail_if (negb (before t (ExpiresAt secret))) (SecretsErr ErrExpired) in
  if negb (bool_decide (accessProofHash secret = "")) &&
     negb (bool_decide (accessProofHash secret = proofHash))
  then
    do! recordFailedAccessTx id (StorageBackend secret) (StorageKey secret) t in
    throw (SecretsErr ErrInvalidAccess)
  else
    let! secret := openBody secret in
    let! t := now in
    do! fail_if (negb (before t (ExpiresAt secret))) (SecretsErr ErrExpired) in
    let! n := sql "mark secret opened" (update_secret id (fun r => is_none (s_consumed r)) (viewed t)) in
    do! fail_if (negb (n =? 1)) (SecretsErr ErrConsumed) in
    do! recordManagementOutcomeTx id Opened in
    ret secret.

(** ** Cleanup and reclaim *)
Definition touch (t : time) (r : secret_row) : secret_row :=
  MkSecret (s_kind r) (s_backend r) (s_key r) (s_access_kdf r) (s_proof_hash r) (s_wrapped r)
    (s_filename r) (s_content_type r) (s_size r) (s_max_views r) (s_view_count r) (s_failed r)
    (s_state r) (s_expires r) (s_consumed r) (s_created r) t (s_reclaim r).

Definition Cleanup (id : string) : M ApiDB bool :=
  do! fail_if (bool_decide (id = "")) (SecretsErr ErrNotFound) in
  let! t := now in
  transaction "begin cleanup secret" "commit cleanup secret"
    (let! n := sql "delete secret payload" (delete_payload id) in
     if 0 <? n then
       do! sql "mark secret cleaned" (update_secret id (fun _ => true) (touch t)) in
       ret (Commit true)
     else ret (Commit false)).

Definition ReclaimTx (id : string) : M ApiDB unit :=
  do! fail_if (bool_decide (id = "")) (SecretsErr ErrNotFound) in
  do! sql "delete secret payload on reclaim" (delete_payload id) in
  do! sql "delete secret on reclaim" (delete_secret id (fun r => is_some (s_reclaim r))) in
  ret tt.

(** ** Management *)

(** The [Status] string of a [ManagementStatus]: an outcome, or the state of a
    live row. *)
Inductive status := StOutcome (o : outcome) | StState (st : secret_state).
#[export] Instance status_eq : EqDecision status.
Proof. solve_decision. Defined.

Record ManagementStatus := MkStatus { ms_ID : string; ms_Status : status; ms_ExpiresAt : time; ms_CanCancel : bool }.

Definition management_unavailable : err := SecretsErr ErrManagementUnavailable.

Definition management (id token : string) : M ApiDB ManagementStatus :=
  match decode_token token with
  | None => throw management_unavailable
  | Some raw =>
      let! row := sql_query "read management status" (fun d => (t_management d !! id, t_secrets d !! id)) in
      match row with
      | (None, _) => throw management_unavailable
      | (Some m, sr) =>
          do! fail_if (negb (bool_decide (sha256 raw = m_token_hash m))) management_unavailable in
          let! t := now in
          do! fail_if (negb (before t (m_expires m))) management_unavailable in
          match m_outcome m, sr with
          | Some o, _ => ret (MkStatus id (StOutcome o) (m_expires m) false)
          | None, None => throw (Fail "management outcome missing")
          | None, Some r =>
              let st := match s_state r with
                        | PendingUpload => if before t (s_created r + pendingTTL s)
                                           then StState PendingUpload else StOutcome Unavailable
                        | Active => StState Active
                        end in
              ret (MkStatus id st (m_expires m) match st with StState _ => true | _ => false end)
          end
      end
  end.

Definition Management (id token : string) : M ApiDB ManagementStatus := management id token.

(** [Revoke] returns a status, with [ErrNotCancellable] beside it when the
    delivery is past cancelling. *)
Inductive RevokeResult := Revoked (st : ManagementStatus) | NotCancellable (st : ManagementStatus).

Definition revocable (r : secret_row) : bool := is_none (s_consumed r) && is_none (s_reclaim r).

Definition revokeTx (id token : string) : M ApiDB (txout (RevokeResult * bool)) :=
  let! st := management id token in
  if bool_decide (ms_Status st = StOutcome Cancelled) then ret (Rollback (Revoked st, false))
  else if negb (ms_CanCancel st) then ret (Rollback (NotCancellable st, false))
  else
    let! row := sql_query "read cancellation storage" (fun d => t_secrets d !! id) in
    match row with
    | None => throw (Fail "read cancellation storage")
    | Some r =>
        let! st := management id token in
        if negb (ms_CanCancel st) then ret (Rollback (NotCancellable st, false))
        else
          let! n := sql "cancel delivery" (delete_secret id revocable) in
          do! fail_if (negb (n =? 1)) (Fail "cancellation did not claim a live delivery") in
          do! recordManagementOutcomeTx id Cancelled in
          do! (match s_backend r with
               | SqliteBlob => ret tt
               | S3Object =>
                   match outbox s with
                   | None => throw (Fail "cancellation outbox is required")
                   | Some ob =>
                       let! jobID := NewJobID in
                       let! t := now in
                       do! enq ob (delete_job jobID (s_key r) ReasonManual t) in ret tt
                   end
               end) in
          ret (Commit (Revoked (MkStatus id (StOutcome Cancelled) (ms_ExpiresAt st) false),
                       bool_decide (ms_Status st = StState PendingUpload)))
    end.

Definition Revoke (id token : string) : M ApiDB RevokeResult :=
  let! r := transaction "begin cancellation" "commit cancellation" (revokeTx id token) in
  do! (if r.2 then uploads_add (-1) else ret tt) in
  ret r.1.
End store.

(** ** The open handler's transaction (src/internal/httpapi/secrets.go) *)

(** [hashAccessProof]. *)
Definition hashAccessProof (proof : string) : option string :=
  if bool_decide (proof = "") then None
  else match Base64.decode Base64.StdEncoding proof with
       | None => None
       | Some b => if bool_decide (b = "") then None
                   else Some (Base64.encode Base64.StdEncoding (sha256 b))
       end.

Section open_handler.
Context {ENV : Env} (s : Store) (ob : outboxEnqueuer).

(** [openAndEnqueueCleanup]: a failed proof commits its count, every other
    error rolls back, and a success commits with the cleanup job. *)
Definition openAndEnqueueCleanup (id proofHash : string) : M ApiDB Secret :=
  let! jobID := NewJobID in
  let! r := transaction "begin open cleanup transaction" "commit open cleanup transaction"
    (let! r := attempt (OpenTx s id proofHash) in
     match r with
     | Err e =>
         if decide (e = SecretsErr ErrInvalidAccess) then ret (Commit (Err e)) else throw e
     | Ok secret =>
         let! t := now in
         do! enq ob (MkJobEvent jobID KindDeleteSecret id "" ReasonConsumed t ∅) in
         ret (Commit (Ok secret))
     end) in
  lift r.

(** [enqueueOpenedObjectCleanup]: its errors are dropped. *)
Definition enqueueOpenedObjectCleanup (key : string) : M ApiDB unit :=
  do! attempt
    (let! jobID := NewJobID in
     transaction "begin object cleanup" "commit object cleanup"
       (let! t := now in
        do! enq ob (delete_job jobID key ReasonConsumed t) in ret (Commit tt))) in
  ret tt.
End open_handler.
