(* ===== verification/SecretProofs.v ===== *)
(** * Correctness of the secret store

    How rows of [secrets] may change ([evolves]), what an open does on each of
    its branches, lockout, round trips, the management capability, and the
    upload gauge. *)

From S2P Require Import Prelude World GoTime Codec Schema AgeFormat Outbox ObjectStorage SecretStore.

(** ** Evolution of the table

    Apart from the two creations, no operation adds a row; a row keeps what
    its creator gave it, its failure and view counts only grow, a pending row
    may only become active, and the consumption and reclaim marks are never
    changed once set.  A payload is only ever removed. *)
Definition immutable (r : secret_row) :=
  (s_kind r, s_backend r, s_key r, s_access_kdf r, s_proof_hash r, s_wrapped r, s_filename r,
   s_content_type r, s_size r, s_max_views r, s_expires r, s_created r).

Record row_le (r r' : secret_row) : Prop := {
  le_immutable : immutable r' = immutable r;
  le_failed : s_failed r <= s_failed r';
  le_views : s_view_count r <= s_view_count r';
  le_active : s_state r = Active -> s_state r' = Active;
  le_consumed : s_consumed r <> None ->
    s_consumed r' = s_consumed r /\ s_view_count r' = s_view_count r;
  le_reclaim : s_reclaim r <> None -> s_reclaim r' = s_reclaim r;
}.

#[export] Instance row_le_preorder : PreOrder row_le.
Proof.
  split.
  - intros r. by split.
  - intros r1 r2 r3 [I1 F1 V1 A1 C1 R1] [I2 F2 V2 A2 C2 R2]. split; [congruence|lia|lia|auto| |].
    + intros Hc. destruct (C1 Hc) as [E1 E1']. destruct C2 as [E2 E2']; [congruence|]. split; congruence.
    + intros Hc. specialize (R1 Hc). rewrite R2; congruence.
Qed.

Definition lookup_le (o o' : option secret_row) : Prop :=
  match o, o' with
  | _, None => True
  | Some r, Some r' => row_le r r'
  | None, Some _ => False
  end.

#[export] Instance lookup_le_refl : Reflexive lookup_le.
Proof. intros [r|]; simpl; [reflexivity|done]. Qed.

Definition evolves_at (id : string) (d d' : ApiDB) : Prop :=
  lookup_le (t_secrets d !! id) (t_secrets d' !! id) /\
  (t_payloads d' !! id = t_payloads d !! id \/ t_payloads d' !! id = None).
Definition evolves (d d' : ApiDB) : Prop := forall id, evolves_at id d d'.

#[export] Instance evolves_at_preorder id : PreOrder (evolves_at id).
Proof.
  split.
  - intros d. split; [reflexivity|by left].
  - intros d1 d2 d3 [H1 P1] [H2 P2]. split.
    + destruct (t_secrets d1 !! id), (t_secrets d2 !! id), (t_secrets d3 !! id); simpl in *; try done.
      by etrans.
    + destruct P1 as [P1|P1], P2 as [P2|P2]; rewrite P2, ?P1; auto.
Qed.
#[export] Instance evolves_preorder : PreOrder evolves.
Proof.
  split.
  - intros d id. reflexivity.
  - intros d1 d2 d3 H12 H23 id. etrans; [apply H12|apply H23].
Qed.

Lemma evolves_same d d' :
  t_secrets d' = t_secrets d -> t_payloads d' = t_payloads d -> evolves d d'.
Proof. intros Es Ep. intros id. unfold evolves_at. rewrite Es, Ep. split; [reflexivity|by left]. Qed.

(** *** The statements *)
Lemma update_secret_Some id P f d n d' :
  update_secret id P f d = Some (n, d') ->
  (n = 0 /\ d' = d /\ forall r, t_secrets d !! id = Some r -> P r = false) \/
  (exists r, n = 1 /\ t_secrets d !! id = Some r /\ P r = true /\
    d' = set_secrets (<[id := f r]> (t_secrets d)) d).
Proof.
  unfold update_secret. destruct (upd _ _ _ _ _) as [[n' m]|] eqn:E; [|done].
  intros [= <- <-]. apply upd_Some in E as [(-> & -> & ?)|(r & -> & ? & ? & _ & ->)].
  - left. by destruct d.
  - right. eauto 10.
Qed.

Lemma update_management_Some id P f d n d' :
  update_management id P f d = Some (n, d') ->
  (n = 0 /\ d' = d /\ forall r, t_management d !! id = Some r -> P r = false) \/
  (exists r, n = 1 /\ t_management d !! id = Some r /\ P r = true /\
    d' = set_management (<[id := f r]> (t_management d)) d).
Proof.
  unfold update_management. destruct (upd _ _ _ _ _) as [[n' m]|] eqn:E; [|done].
  intros [= <- <-]. apply upd_Some in E as [(-> & -> & ?)|(r & -> & ? & ? & _ & ->)].
  - left. by destruct d.
  - right. eauto 10.
Qed.

Lemma delete_secret_Some id P d n d' :
  delete_secret id P d = Some (n, d') ->
  (n = 0 /\ d' = d) \/
  (exists r, n = 1 /\ t_secrets d !! id = Some r /\ P r = true /\
    d' = set_payloads (delete id (t_payloads d)) (set_secrets (delete id (t_secrets d)) d)).
Proof.
  unfold delete_secret. destruct (t_secrets d !! id) as [r|] eqn:E; [|intros [= <- <-]; auto].
  destruct (P r) eqn:HP; intros [= <- <-]; [right; eauto 10|auto].
Qed.

Lemma evolves_update id P f d n d' :
  (forall r, P r = true -> row_le r (f r)) -> update_secret id P f d = Some (n, d') -> evolves d d'.
Proof.
  intros Hf [(_ & -> & _)|(r & _ & Hr & HP & ->)]%update_secret_Some; [reflexivity|].
  intros id'. unfold evolves_at. simpl. split; [|by left]. destruct (decide (id' = id)) as [->|Hne].
  - rewrite lookup_insert_eq, Hr. simpl. auto.
  - rewrite lookup_insert_ne by done. reflexivity.
Qed.

Lemma evolves_delete id P d n d' : delete_secret id P d = Some (n, d') -> evolves d d'.
Proof.
  intros [(_ & ->)|(r & _ & Hr & _ & ->)]%delete_secret_Some; [reflexivity|].
  intros id'. unfold evolves_at. simpl. destruct (decide (id' = id)) as [->|Hne].
  - rewrite !lookup_delete_eq. split; [by destruct (_ !! _)|by right].
  - rewrite !lookup_delete_ne by done. split; [reflexivity|by left].
Qed.

Lemma evolves_delete_payload id d n d' : delete_payload id d = Some (n, d') -> evolves d d'.
Proof.
  intros [= _ <-] id'. unfold evolves_at. simpl. split; [reflexivity|].
  destruct (decide (id' = id)) as [->|Hne]; [rewrite lookup_delete_eq; by right|].
  rewrite lookup_delete_ne by done. by left.
Qed.

Lemma evolves_update_management id P f d n d' :
  update_management id P f d = Some (n, d') -> evolves d d'.
Proof. intros [(_ & -> & _)|(r & _ & _ & _ & ->)]%update_management_Some; [reflexivity|by apply evolves_same]. Qed.

Lemma evolves_enqueued `{EventCodec} ev d d' : enqueued ev d d' -> evolves d d'.
Proof. intros (row & _ & _ & ->). by apply evolves_same. Qed.

(** The row updates of the store. *)
Lemma failed_access_le t r : s_consumed r = None -> row_le r (failed_access t r).
Proof. intros Hc. split; simpl; auto; try lia. done. Qed.
Lemma viewed_le t r : s_consumed r = None -> row_le r (viewed t r).
Proof. intros Hc. split; simpl; auto; try lia. done. Qed.
Lemma touch_le t r : row_le r (touch t r).
Proof. by split. Qed.
Lemma is_none_true {A} (o : option A) : is_none o = true -> o = None.
Proof. by destruct o. Qed.
Lemma is_some_true {A} (o : option A) : is_some o = true -> exists a, o = Some a.
Proof. destruct o; [eauto|done]. Qed.
Lemma is_some_false {A} (o : option A) : is_some o = false -> o = None.
Proof. by destruct o. Qed.

(** ** What the store assumes of its collaborators *)
Class StoreSpec {ENV : Env} `{EventCodec} (s : Store) := {
  store_objects o : objects s = Some o -> Objects.Spec o;
  store_outbox o : outbox s = Some o -> OutboxSpec o;
}.

Section evolution.
Context {ENV : Env} {CODEC : EventCodec} (s : Store) `{!StoreSpec s}.

Lemma respects_update_secret msg id P f :
  (forall r, P r = true -> row_le r (f r)) -> respects (on_db evolves) (sql msg (update_secret id P f)).
Proof. intros Hf. apply respects_sql; [apply _|]. intros d a d'. by apply evolves_update. Qed.
Lemma respects_delete_secret msg id P : respects (on_db evolves) (sql msg (delete_secret id P)).
Proof. apply respects_sql; [apply _|]. intros d a d'. apply evolves_delete. Qed.
Lemma respects_delete_payload msg id : respects (on_db evolves) (sql msg (delete_payload id)).
Proof. apply respects_sql; [apply _|]. intros d a d'. apply evolves_delete_payload. Qed.
Lemma respects_update_management msg id P f : respects (on_db evolves) (sql msg (update_management id P f)).
Proof. apply respects_sql; [apply _|]. intros d a d'. apply evolves_update_management. Qed.
Lemma evolves_enq o ev : OutboxSpec o -> respects (on_db evolves) (enq o ev).
Proof. intros Ho. apply respects_enq; [apply _..|]. intros d d'. apply evolves_enqueued. Qed.

#[local] Hint Resolve respects_delete_secret respects_delete_payload respects_update_management
  evolves_enq store_objects store_outbox : flick.

Lemma recordManagementOutcomeTx_evolves id o : respects (on_db evolves) (recordManagementOutcomeTx id o).
Proof. unfold recordManagementOutcomeTx. solve_respects. Qed.
#[local] Hint Resolve recordManagementOutcomeTx_evolves : flick.

Lemma load_evolves id : respects (on_db evolves) (load id).
Proof. unfold load. solve_respects. Qed.
Lemma openBody_evolves sec : respects (on_db evolves) (openBody s sec).
Proof. unfold openBody. solve_respects. Qed.
#[local] Hint Resolve load_evolves openBody_evolves : flick.

Lemma recordFailedAccessTx_evolves id b k t : respects (on_db evolves) (recordFailedAccessTx s id b k t).
Proof.
  unfold recordFailedAccessTx. solve_respects.
  apply respects_update_secret. intros r Hr. apply failed_access_le. by apply is_none_true.
Qed.
#[local] Hint Resolve recordFailedAccessTx_evolves : flick.

Lemma OpenTx_evolves id h : respects (on_db evolves) (OpenTx s id h).
Proof.
  unfold OpenTx. solve_respects.
  apply respects_update_secret. intros r Hr. apply viewed_le. by apply is_none_true.
Qed.
Lemma Finalize_evolves id : respects (on_db evolves) (Finalize s id).
Proof.
  unfold Finalize, activateSecretTx. solve_respects.
  apply respects_update_secret. intros r Hr. by split.
Qed.
Lemma Cleanup_evolves id : respects (on_db evolves) (Cleanup id).
Proof. unfold Cleanup. solve_respects. apply respects_update_secret. intros r Hr. apply touch_le. Qed.
Lemma ReclaimTx_evolves id : respects (on_db evolves) (ReclaimTx id).
Proof. unfold ReclaimTx. solve_respects. Qed.
Lemma management_reads id token : reads_only (management s id token).
Proof. unfold management. solve_respects. Qed.
Lemma Revoke_evolves id token : respects (on_db evolves) (Revoke s id token).
Proof.
  unfold Revoke, revokeTx. solve_respects.
  all: apply respects_of_reads; [apply _|apply management_reads].
Qed.
#[local] Hint Resolve OpenTx_evolves : flick.

Lemma openAndEnqueueCleanup_evolves ob id h :
  OutboxSpec ob -> respects (on_db evolves) (openAndEnqueueCleanup s ob id h).
Proof. intros Ho. unfold openAndEnqueueCleanup. solve_respects. Qed.
Lemma enqueueOpenedObjectCleanup_evolves ob key :
  OutboxSpec ob -> respects (on_db evolves) (enqueueOpenedObjectCleanup ob key).
Proof. intros Ho. unfold enqueueOpenedObjectCleanup. solve_respects. Qed.
End evolution.

(** ** Opening, branch by branch *)

(** What a row authorizes: any proof when it stores none (Model B), the
    matching hash otherwise. *)
Definition authorizes (r : secret_row) (h : string) : Prop :=
  match s_proof_hash r with None => True | Some p => p = "" \/ p = h end.

(** A row that an open may be decided on: active, not consumed, not expired at
    [t]; an inline body must still be there. *)
Definition live (d : ApiDB) (t : time) (id : string) (r : secret_row) : Prop :=
  t_secrets d !! id = Some r /\ s_state r = Active /\ s_consumed r = None /\ t < s_expires r /\
  (s_backend r = SqliteBlob -> exists p, t_payloads d !! id = Some p /\ p_ciphertext p <> "").

Definition payload_of (d : ApiDB) (id : string) : string :=
  match t_payloads d !! id with Some p => p_ciphertext p | None => "" end.

(** The value [load] builds from a row. *)
Definition secret_of (d : ApiDB) (id : string) (r : secret_row) : Secret :=
  MkSecretValue "" id (s_kind r) (s_backend r) (s_key r) (payload_of d id) None
    (default kdf_zero (s_access_kdf r)) (s_wrapped r) (s_filename r) (s_content_type r)
    (s_size r) (s_expires r) (default "" (s_proof_hash r)).

(** The effect of [recordManagementOutcomeTx]: the first outcome stays. *)
Definition record_outcome (id : string) (o : outcome) (d : ApiDB) : ApiDB :=
  match t_management d !! id with
  | Some m => if is_none (m_outcome m)
              then set_management (<[id := MkManagement (m_token_hash m) (m_expires m) (Some o)]> (t_management d)) d
              else d
  | None => d
  end.

Section open_lemmas.
Context {ENV : Env} {CODEC : EventCodec} (s : Store) `{!StoreSpec s}.
Implicit Types w : World ApiDB.

Lemma recordManagementOutcomeTx_ok id o w u w' :
  recordManagementOutcomeTx id o w = (Ok u, w') ->
  db w' = record_outcome id o (db w) /\ active_uploads w' = active_uploads w /\ trace w' = trace w.
Proof.
  unfold recordManagementOutcomeTx. intros H. msteps H.
  match goal with H : update_management _ _ _ _ = _ |- _ => rename H into Hu end.
  split; [|done]. simpl. unfold record_outcome.
  apply update_management_Some in Hu as [(_ & -> & HP)|(m & _ & -> & HP & ->)].
  - destruct (t_management (db w) !! id) as [m|]; [|done]. by rewrite (HP m eq_refl).
  - by rewrite HP.
Qed.

Lemma load_ok id w sec c w' :
  load id w = (Ok (sec, c), w') ->
  exists r, t_secrets (db w) !! id = Some r /\ s_state r = Active /\ c = s_consumed r /\
    sec = secret_of (db w) id r /\ w' = bump w /\
    (s_backend r = SqliteBlob -> s_consumed r = None -> payload_of (db w) id <> "").
Proof.
  unfold load. intros H. msteps H. simpl in H.
  destruct (t_secrets (db w) !! id) as [r|] eqn:Er; [|by msteps H].
  msteps H. simplify_eq. exists r. destruct_bools.
  repeat match goal with H : _ && _ = false |- _ => apply andb_false_iff in H end.
  split_and!; try done.
  intros Hb Hc. rewrite Hb, Hc in *. simpl in *.
  repeat match goal with H : _ || _ = false |- _ => clear H end.
  match goal with H : _ \/ _ |- _ => destruct H as [H|H]; [|done] end.
  simpl in *. destruct_bools. done.
Qed.

Lemma openBody_ok sec w sec' w' :
  openBody s sec w = (Ok sec', w') ->
  db w' = db w /\ same_io w w' /\
  ((StorageBackend sec = SqliteBlob /\ sec' = sec) \/
   (StorageBackend sec = S3Object /\ exists obj b w1, objects s = Some obj /\
      Objects.Open obj (StorageKey sec) w = (Ok (b, SizeBytes sec), w1) /\ sec' = set_body sec b)).
Proof.
  unfold openBody, same_io. destruct (StorageBackend sec) eqn:Eb; intros H.
  { msteps H. auto. }
  destruct (objects s) as [o|] eqn:Eo; [|by msteps H].
  pose proof (store_objects _ Eo).
  apply bind_ok in H as ([b n] & w1 & H1 & H). pose proof H1 as Hq. apply Objects.Open_quiet in Hq as (Ed & Eu & Et).
  apply bind_ok in H as (u & w2 & Hn & H). mstep Hn. cbn in Hn. msteps H. destruct_bools. subst n.
  split_and!; [done|done|done|]. right. split; [done|]. eauto 10.
Qed.

Lemma openBody_err sec w e w' :
  openBody s sec w = (Err e, w') -> e <> SecretsErr ErrInvalidAccess.
Proof.
  unfold openBody. destruct (StorageBackend sec) eqn:Eb; intros H; [merr H|].
  destruct (objects s) as [o|] eqn:Eo; [|by merr H].
  pose proof (store_objects _ Eo).
  apply bind_err in H as [H|(b & w1 & H1 & H)]; [|by merr H].
  apply Objects.Open_err in H as [msg ->]. done.
Qed.

(** The database after the lock: outcome recorded, inline payload gone, or the
    object's delete job queued. *)
Definition purged (id : string) (r : secret_row) (d d' : ApiDB) : Prop :=
  match s_backend r, outbox s with
  | SqliteBlob, _ => d' = set_payloads (delete id (t_payloads d)) d
  | S3Object, Some _ => exists jobID t, enqueued (delete_job jobID (s_key r) ReasonConsumed t) d d'
  | S3Object, None => d' = d
  end.

Definition failed_effect (id : string) (r : secret_row) (t : time) (d d' : ApiDB) : Prop :=
  let d1 := set_secrets (<[id := failed_access t r]> (t_secrets d)) d in
  if maxFailedAccessAttempts <=? s_failed r + 1
  then purged id r (record_outcome id Locked d1) d'
  else d' = d1.

Lemma recordFailedAccessTx_ok id r t w u w' :
  t_secrets (db w) !! id = Some r ->
  recordFailedAccessTx s id (s_backend r) (s_key r) t w = (Ok u, w') ->
  s_consumed r = None /\ failed_effect id r t (db w) (db w') /\ active_uploads w' = active_uploads w.
Proof.
  intros Hr H. unfold recordFailedAccessTx in H.
  apply bind_ok in H as (n & w1 & H1 & H). mstep H1. rename H1 into Hu.
  apply bind_ok in H as (u1 & w2 & H1 & H). mstep H1.
  apply update_secret_Some in Hu as [(-> & _)|(r' & -> & Hr' & HP & ->)]; [done|].
  assert (r' = r) as -> by congruence. apply is_none_true in HP. split; [done|].
  apply bind_ok in H as (row & w3 & H1' & H). mstep H1'. simpl in H.
  rewrite lookup_insert_eq in H. unfold failed_effect. simpl in H. rewrite HP in H.
  assert (Hif : (maxFailedAccessAttempts <=? s_failed r + 1) &&
    is_some (if maxFailedAccessAttempts <=? s_failed r + 1 then Some t else None) =
    (maxFailedAccessAttempts <=? s_failed r + 1)) by (by destruct (_ <=? _)).
  rewrite Hif in H. destruct (maxFailedAccessAttempts <=? s_failed r + 1); [|by msteps H].
  apply bind_ok in H as (u2 & w4 & Hm & H).
  apply recordManagementOutcomeTx_ok in Hm as (Ed & Ea & _). simpl in Ed, Ea.
  unfold purged. rewrite <- Ed, <- Ea. clear Ed Ea. destruct (s_backend r).
  - msteps H. match goal with H : delete_payload _ _ = _ |- _ => injection H as _ <- end. done.
  - destruct (outbox s) as [ob|] eqn:Eob.
    + pose proof (store_outbox _ Eob). unfold NewJobID in H.
      apply bind_ok in H as (j & w5 & Hj & H). msteps Hj.
      apply bind_ok in H as (rec & w6 & He & H). msteps H.
      apply enq_ok in He as [He [Ha _]]. eauto 10.
    + destruct (objects s) as [o|] eqn:Eo; [|by msteps H].
      pose proof (store_objects _ Eo).
      apply bind_ok in H as (x & w5 & Hd & H). mstep Hd. msteps H.
      apply Objects.Delete_spec in Hd as (? & ? & _). done.
Qed.

Lemma recordFailedAccessTx_err id b k t w e w' :
  recordFailedAccessTx s id b k t w = (Err e, w') -> e <> SecretsErr ErrInvalidAccess.
Proof.
  intros H. unfold recordFailedAccessTx in H. merr H; [done..|].
  repeat (split_match H; [|by merr H]).
  apply bind_err in H as [H|(u & w4 & _ & H)]; [unfold recordManagementOutcomeTx in H; by merr H|].
  destruct b; [by merr H|]. destruct (outbox s) as [ob|] eqn:Eob.
  - pose proof (store_outbox _ Eob). unfold NewJobID in H. merr H; [done|]. apply enq_err_kind in H as [H _]. done.
  - destruct (objects s); by merr H.
Qed.

Lemma mismatch_spec (r : secret_row) h :
  negb (bool_decide (default "" (s_proof_hash r) = "")) &&
  negb (bool_decide (default "" (s_proof_hash r) = h)) = false <-> authorizes r h.
Proof.
  unfold authorizes. destruct (s_proof_hash r) as [p|]; simpl; [|done].
  do 2 case_bool_decide; simpl; naive_solver.
Qed.

(** What an open of a row in [wo] returns: the inline ciphertext, or the stream
    that the object store opens under the row's key, of the row's size. *)
Definition released (wo : World ApiDB) (id : string) (r : secret_row) (sec : Secret) : Prop :=
  match s_backend r with
  | SqliteBlob => sec = secret_of (db wo) id r
  | S3Object => exists obj b wo', objects s = Some obj /\
      Objects.Open obj (s_key r) wo = (Ok (b, s_size r), wo') /\ sec = set_body (secret_of (db wo) id r) b
  end.

(** A successful open inside the caller's transaction. *)
Lemma OpenTx_ok id h w sec w' :
  OpenTx s id h w = (Ok sec, w') ->
  exists r t, live (db w) (clk (tick w)) id r /\ authorizes r h /\ t < s_expires r /\
    released (bump (bump w)) id r sec /\
    db w' = record_outcome id Opened (set_secrets (<[id := viewed t r]> (t_secrets (db w))) (db w)) /\
    same_io w w'.
Proof.
  unfold OpenTx. intros H. apply bind_ok in H as (t0 & w0 & Ht & H). mstep Ht.
  apply bind_ok in H as ([sec0 c] & w1 & Hl & H).
  apply load_ok in Hl as (r & Er & Ea & -> & -> & -> & Hp). simpl in Er, Hp.
  apply bind_ok in H as (u1 & w2 & H1 & H). mstep H1. apply is_some_false in H1. simpl in H1.
  apply bind_ok in H as (u2 & w3 & H2 & H). mstep H2. destruct_bools. simpl in H2.
  destruct (negb _ && negb _) eqn:Em; [by (apply bind_ok in H as (? & ? & ? & H); msteps H)|].
  simpl in Em. apply mismatch_spec in Em.
  apply bind_ok in H as (sec1 & w4 & Hb & H). apply openBody_ok in Hb as (Ed & [Eu Et] & Hb).
  apply bind_ok in H as (t1 & w5 & Ht & H). mstep Ht.
  apply bind_ok in H as (u3 & w6 & H3 & H). mstep H3. destruct_bools.
  apply bind_ok in H as (n & w7 & Hu & H). mstep Hu.
  apply bind_ok in H as (u4 & w8 & H4 & H). mstep H4.
  apply bind_ok in H as (u5 & w9 & Hm & H). msteps H.
  apply recordManagementOutcomeTx_ok in Hm as (Edm & Eum & Etm). simpl in *.
  apply update_secret_Some in Hu as [(-> & _)|(r' & -> & Hr' & _ & ->)]; [done|].
  rewrite Ed in Hr', Edm. assert (r' = r) as -> by congruence.
  assert (Hexp : ExpiresAt sec1 = s_expires r) by (destruct Hb as [[_ ->]|[_ (o & b & wb & _ & _ & ->)]]; done).
  exists r, (clk (tick w4)). rewrite Hexp in *. unfold same_io. split_and!; try congruence; try done.
  - split_and!; try done. intros Hq. specialize (Hp Hq H1). unfold payload_of in Hp.
    destruct (t_payloads _ !! id); [eauto|done].
  - unfold released. destruct Hb as [[Hq ->]|[Hq (o & b & wb & Ho & Hopen & ->)]]; cbn in Hq; rewrite Hq; [done|].
    cbn in Hopen. by exists o, b, wb.
Qed.

(** The one error that the handler commits. *)
Lemma OpenTx_invalid_access id h w w' :
  OpenTx s id h w = (Err (SecretsErr ErrInvalidAccess), w') ->
  exists r, live (db w) (clk (tick w)) id r /\ ~ authorizes r h /\
    failed_effect id r (clk (tick w)) (db w) (db w') /\ active_uploads w' = active_uploads w.
Proof.
  unfold OpenTx. intros H. apply bind_err in H as [H|(t0 & w0 & Ht & H)]; [merr H|]. mstep Ht.
  apply bind_err in H as [H|([sec0 c] & w1 & Hl & H)].
  { unfold load in H. merr H; try done. simpl in H. split_match H; by merr H. }
  apply load_ok in Hl as (r & Er & Ea & -> & -> & -> & Hp). simpl in Er, Hp.
  apply bind_err in H as [H|(u1 & w2 & H1 & H)]; [by merr H|]. mstep H1. apply is_some_false in H1.
  apply bind_err in H as [H|(u2 & w3 & H2 & H)]; [by merr H|]. mstep H2. destruct_bools. simpl in H1, H2.
  destruct (negb _ && negb _) eqn:Em.
  - assert (Hna : ~ authorizes r h) by (rewrite <- mismatch_spec; simpl in Em; congruence).
    apply bind_err in H as [H|(u3 & w4 & Hf & H)]; [by apply recordFailedAccessTx_err in H|].
    merr H. apply recordFailedAccessTx_ok in Hf as (_ & Hf & Hu); [|done].
    exists r. split_and!; try done. split_and!; try done.
    intros Hq. specialize (Hp Hq H1). unfold payload_of in Hp.
    simpl in Hp. destruct (t_payloads (db w) !! id); [eauto|done].
  - apply bind_err in H as [H|(sec1 & w4 & Hb & H)]; [by apply openBody_err in H|].
    merr H; try done. unfold recordManagementOutcomeTx in H. by merr H.
Qed.
End open_lemmas.

(** ** Theorems on opening *)
Section open_theorems.
Context {ENV : Env} {CODEC : EventCodec} (s : Store) `{!StoreSpec s} (ob : outboxEnqueuer) `{!OutboxSpec ob}.
Implicit Types w : World ApiDB.

(** The two ends of the handler's transaction. *)
Lemma openAndEnqueueCleanup_ok id h w sec w' :
  openAndEnqueueCleanup s ob id h w = (Ok sec, w') ->
  exists w1 w2 jobID t, OpenTx s id h w1 = (Ok sec, w2) /\ db w1 = db w /\ same_io w w1 /\
    tick w1 = S (S (tick w)) /\
    enqueued (MkJobEvent jobID KindDeleteSecret id "" ReasonConsumed t ∅) (db w2) (db w') /\ same_io w2 w'.
Proof.
  unfold openAndEnqueueCleanup, NewJobID, same_io. intros H.
  apply bind_ok in H as (jobID & w0 & Hj & H). msteps Hj.
  apply bind_ok in H as (r & w1 & Ht & H). mstep H.
  apply transaction_ok in Ht as (_ & [(wx & Hb & _)|(wx & Hb & _ & ->)]).
  { apply bind_ok in Hb as ([x|e] & wy & _ & Hb); [|case_decide; by msteps Hb].
    apply bind_ok in Hb as (? & ? & _ & Hb). apply bind_ok in Hb as (? & ? & _ & Hb). by msteps Hb. }
  apply bind_ok in Hb as ([x|e] & w2 & Ho & Hb); [|case_decide; by msteps Hb].
  mstep Ho. apply bind_ok in Hb as (t & w3 & Hn & Hb). mstep Hn.
  apply bind_ok in Hb as (rec & w4 & He & Hb). msteps Hb. simplify_eq.
  apply enq_ok in He as [He [Ha Hs]]. simpl in He, Ha, Hs.
  eexists _, w2, _, _. split_and!; [exact Ho|done..|exact He|done|done].
Qed.

Lemma open_released (id h : string) (w : World ApiDB) (sec : Secret) w' :
  openAndEnqueueCleanup s ob id h w = (Ok sec, w') ->
  exists r t jobID tj, live (db w) (clk (S (S (tick w)))) id r /\ authorizes r h /\ t < s_expires r /\
    (exists wo, db wo = db w /\ same_io w wo /\ tick wo = (4 + tick w)%nat /\ released s wo id r sec) /\
    enqueued (MkJobEvent jobID KindDeleteSecret id "" ReasonConsumed tj ∅)
      (record_outcome id Opened (set_secrets (<[id := viewed t r]> (t_secrets (db w))) (db w))) (db w') /\
    same_io w w'.
Proof.
  intros H. apply openAndEnqueueCleanup_ok in H as (w1 & w2 & jobID & tj & Ho & Ed & [Eu Et] & Ek & He & [Eu' Et']).
  destruct (OpenTx_ok s _ _ _ _ _ Ho) as (r & t & Hl & Ha & Hx & Hrel & Ed2 & [Eu2 Et2]). rewrite Ed, Ek in *.
  exists r, t, jobID, tj. rewrite <- Ed2. split_and!; [done..| |done|split; congruence].
  exists (bump (bump w1)). unfold same_io. simpl. split_and!; congruence.
Qed.

(** The fields of what is released are the row's. *)
Lemma released_fields wo t id r sec : live (db wo) t id r -> released s wo id r sec ->
  ID sec = id /\ SecretKind sec = s_kind r /\ SizeBytes sec = s_size r /\ AccessKDF sec = default kdf_zero (s_access_kdf r) /\
  WrappedIdentity sec = s_wrapped r /\ EncryptedFilename sec = s_filename r /\ ContentType sec = s_content_type r /\
  ExpiresAt sec = s_expires r /\
  (s_backend r = SqliteBlob -> Ciphertext sec = payload_of (db wo) id /\ Ciphertext sec <> "" /\ Body sec = None) /\
  (s_backend r = S3Object -> exists obj b wo', objects s = Some obj /\
     Objects.Open obj (s_key r) wo = (Ok (b, s_size r), wo') /\ Body sec = Some b).
Proof.
  intros (_ & _ & _ & _ & Hp). unfold released. destruct (s_backend r) eqn:Eb.
  - intros ->. cbn. split_and!; try done. intros _. destruct (Hp eq_refl) as (p & Hp' & Hne). unfold payload_of. rewrite Hp'. done.
  - intros (o & b & wo' & Ho & Hopen & ->). cbn. split_and!; try done. intros _. by exists o, b, wo'.
Qed.

Lemma open_ok_spec (id h : string) (w : World ApiDB) (sec : Secret) w' :
  openAndEnqueueCleanup s ob id h w = (Ok sec, w') ->
  exists r t t0 jobID tj, live (db w) t0 id r /\ authorizes r h /\ t < s_expires r /\
    ID sec = id /\ SizeBytes sec = s_size r /\ WrappedIdentity sec = s_wrapped r /\
    EncryptedFilename sec = s_filename r /\
    (s_backend r = SqliteBlob ->
       Ciphertext sec = payload_of (db w) id /\ Ciphertext sec <> "" /\ Body sec = None) /\
    (s_backend r = S3Object -> exists b, Body sec = Some b) /\
    enqueued (MkJobEvent jobID KindDeleteSecret id "" ReasonConsumed tj ∅)
      (record_outcome id Opened (set_secrets (<[id := viewed t r]> (t_secrets (db w))) (db w))) (db w') /\
    same_io w w'.
Proof.
  intros H. apply open_released in H as (r & t & jobID & tj & Hl & Ha & Hx & (wo & Ed & _ & _ & Hrel) & He & Hio).
  rewrite <- Ed in Hl. destruct (released_fields _ _ _ _ _ Hl Hrel) as (F1 & _ & F3 & _ & F5 & F6 & _ & _ & F9 & F10).
  rewrite Ed in *. exists r, t, (clk (S (S (tick w)))), jobID, tj. split_and!; try done.
  intros Hb. destruct (F10 Hb) as (o & b & wo' & _ & _ & E). eauto.
Qed.

Lemma open_err_spec (id h : string) (w : World ApiDB) (e : err) w' :
  openAndEnqueueCleanup s ob id h w = (Err e, w') ->
  (e <> SecretsErr ErrInvalidAccess -> db w' = db w) /\
  (e = SecretsErr ErrInvalidAccess ->
     exists r t, live (db w) t id r /\ ~ authorizes r h /\ failed_effect s id r t (db w) (db w')).
Proof.
  unfold openAndEnqueueCleanup, NewJobID. intros H.
  apply bind_err in H as [H|(jobID & w0 & Hj & H)]; [merr H; by split|]. msteps Hj.
  apply bind_err in H as [H|(r & w1 & Ht & H)].
  - split; [intros _; by apply transaction_err in H|]. intros ->. exfalso.
    unfold transaction in H. destruct (db_fault _); [done|].
    destruct (bind _ _ _) as [[[r|r]|e] w1] eqn:Hb; [destruct (db_fault _); done|done|].
    injection H as -> _.
    apply bind_err in Hb as [Hb|([x|e] & w2 & Ho & Hb)]; [merr Hb| |case_decide; by merr Hb].
    apply bind_err in Hb as [Hb|(t & w3 & Hn & Hb)]; [merr Hb|]. mstep Hn.
    apply bind_err in Hb as [Hb|(rec & w4 & He & Hb)]; [|merr Hb].
    apply enq_err_kind in Hb as [Hb _]. by eapply Hb.
  - merr H. apply transaction_ok in Ht as (_ & [(wx & Hb & _)|(wx & Hb & _ & ->)]).
    { exfalso. apply bind_ok in Hb as ([x|e'] & w2 & Ho & Hb); [|case_decide; by msteps Hb].
      apply bind_ok in Hb as (? & ? & _ & Hb). apply bind_ok in Hb as (? & ? & _ & Hb). by msteps Hb. }
    apply bind_ok in Hb as ([x|e'] & w2 & Ho & Hb).
    { apply bind_ok in Hb as (? & ? & _ & Hb). apply bind_ok in Hb as (? & ? & _ & Hb). by msteps Hb. }
    case_decide as He; [|by msteps Hb]. msteps Hb. simplify_eq. split; [done|]. intros _.
    mstep Ho. destruct (OpenTx_invalid_access s _ _ _ _ Ho) as (r & Hl & Hn & Hf & _). simpl in *. eauto.
Qed.

(** C13: what a successful open releases, and to whom.  If the open handler
    returns a secret, then at the clock reading it took the row was active,
    unconsumed and unexpired, and its stored proof hash (when it has one) is the
    caller's; the returned fields are the row's, and the body is the stored
    ciphertext or, for an S3 row, the stream the object store returned, at that
    point of the transaction, for the row's own key and with the row's size; and in the same transaction
    the row became consumed, still before its expiry, its management outcome
    (if still open) became "opened" and a delete-secret job for this id was
    queued.  Nothing else changed. *)
Theorem open_releases_only_authorized (id h : string) (w : World ApiDB) (sec : Secret) w' :
  openAndEnqueueCleanup s ob id h w = (Ok sec, w') ->
  exists r t jobID tj, live (db w) (clk (S (S (tick w)))) id r /\ authorizes r h /\ t < s_expires r /\
    ID sec = id /\ SecretKind sec = s_kind r /\ SizeBytes sec = s_size r /\ AccessKDF sec = default kdf_zero (s_access_kdf r) /\
    WrappedIdentity sec = s_wrapped r /\ EncryptedFilename sec = s_filename r /\ ContentType sec = s_content_type r /\
    ExpiresAt sec = s_expires r /\
    (s_backend r = SqliteBlob ->
       Ciphertext sec = payload_of (db w) id /\ Ciphertext sec <> "" /\ Body sec = None) /\
    (s_backend r = S3Object -> exists obj b wo wo', objects s = Some obj /\
       db wo = db w /\ same_io w wo /\ tick wo = (4 + tick w)%nat /\
       Objects.Open obj (s_key r) wo = (Ok (b, s_size r), wo') /\ Body sec = Some b) /\
    enqueued (MkJobEvent jobID KindDeleteSecret id "" ReasonConsumed tj ∅)
      (record_outcome id Opened (set_secrets (<[id := viewed t r]> (t_secrets (db w))) (db w))) (db w') /\
    same_io w w'.
Proof.
  intros H. apply open_released in H as (r & t & jobID & tj & Hl & Ha & Hx & (wo & Ed & Hq & Ek & Hrel) & He & Hio).
  rewrite <- Ed in Hl. destruct (released_fields _ _ _ _ _ Hl Hrel) as (? & ? & ? & ? & ? & ? & ? & ? & ? & Hs3).
  rewrite Ed in *. exists r, t, jobID, tj. split_and!; try done.
  intros Hb. destruct (Hs3 Hb) as (obj & b & wo' & ? & ? & ?). by exists obj, b, wo, wo'.
Qed.

(** opening fails atomically.  When the open handler returns an error
    other than "invalid access", the database is what it was.  When it returns
    "invalid access", the row was live and the proof did not match, and exactly
    the failure was recorded: one more failed attempt, and from the fifth on
    the row is consumed, its outcome "locked", and the inline payload deleted
    or a delete job for the object queued. *)
Theorem open_failure_effect (id h : string) (w : World ApiDB) (e : err) w' :
  openAndEnqueueCleanup s ob id h w = (Err e, w') ->
  (e <> SecretsErr ErrInvalidAccess -> db w' = db w) /\
  (e = SecretsErr ErrInvalidAccess ->
     exists r t, live (db w) t id r /\ ~ authorizes r h /\ failed_effect s id r t (db w) (db w')).
Proof. apply open_err_spec. Qed.

End open_theorems.

(** ** Guessing *)
Section guessing.
Context {ENV : Env} {CODEC : EventCodec} (s : Store) `{!StoreSpec s} (ob : outboxEnqueuer) `{!OutboxSpec ob}.

(** A history of the service as the secret [id] sees it, with the number of
    opens of [id] refused for a wrong proof; everything else may happen in
    between, as long as it only evolves the row. *)
Inductive guesses (id : string) : nat -> World ApiDB -> World ApiDB -> Prop :=
  | guesses_done w : guesses id 0 w w
  | guesses_other n w w1 w2 :
      evolves_at id (db w) (db w1) -> guesses id n w1 w2 -> guesses id n w w2
  | guesses_wrong n h w w1 w2 :
      openAndEnqueueCleanup s ob id h w = (Err (SecretsErr ErrInvalidAccess), w1) ->
      guesses id n w1 w2 -> guesses id (S n) w w2.

(** Guesses left to a row. *)
Definition guesses_left (o : option secret_row) : Z :=
  match o with
  | None => 0
  | Some r => if is_some (s_consumed r) then 0 else Z.max 1 (5 - s_failed r)
  end.

Lemma guesses_left_mono o o' : lookup_le o o' -> guesses_left o' <= guesses_left o.
Proof.
  destruct o as [r|], o' as [r'|]; simpl; [| |done|lia].
  - intros [_ Hf _ _ Hc _]. destruct (s_consumed r) eqn:E.
    + destruct Hc as [-> _]; [done|]. simpl. lia.
    + simpl. destruct (is_some _); lia.
  - intros _. destruct (is_some _); lia.
Qed.

Lemma failed_effect_row id r t d d' :
  failed_effect s id r t d d' -> t_secrets d' !! id = Some (failed_access t r).
Proof.
  unfold failed_effect, purged. intros H.
  set (d1 := set_secrets _ d) in *.
  assert (E1 : t_secrets d1 !! id = Some (failed_access t r)) by apply lookup_insert_eq.
  assert (E2 : t_secrets (record_outcome id Locked d1) = t_secrets d1)
    by (unfold record_outcome; repeat case_match; done).
  destruct (_ <=? _); [|by subst].
  destruct (s_backend r); [subst; simpl; by rewrite E2|].
  destruct (outbox s); [|subst; by rewrite E2].
  destruct H as (j & tj & row & _ & _ & ->). simpl. by rewrite E2.
Qed.

Lemma wrong_guess_costs id h w w1 :
  openAndEnqueueCleanup s ob id h w = (Err (SecretsErr ErrInvalidAccess), w1) ->
  1 + guesses_left (t_secrets (db w1) !! id) <= guesses_left (t_secrets (db w) !! id).
Proof.
  intros H. destruct (open_err_spec s ob _ _ _ _ _ H) as [_ Hi].
  destruct (Hi eq_refl) as (r & t & (Hr & _ & Hc & _) & _ & Hf).
  rewrite (failed_effect_row _ _ _ _ _ Hf), Hr. simpl. rewrite Hc.
  unfold maxFailedAccessAttempts. destruct (Z.leb_spec 5 (s_failed r + 1)); simpl; lia.
Qed.

(** A row is locked: consumed or reclaimed, its inline payload gone. *)
Definition locked_out (id : string) (d : ApiDB) : Prop :=
  (forall r, t_secrets d !! id = Some r -> s_consumed r <> None /\
     (s_backend r = SqliteBlob -> t_payloads d !! id = None)).

Lemma locked_evolves id d d' : evolves_at id d d' -> locked_out id d -> locked_out id d'.
Proof.
  intros [Hr Hp] Hl r' Hr'. rewrite Hr' in Hr. destruct (t_secrets d !! id) as [r|] eqn:E; [|done]. destruct (Hl r E) as [Hc Hk].
  pose proof (le_immutable _ _ Hr) as Hi. unfold immutable in Hi. destruct (le_consumed _ _ Hr Hc) as [-> _]. split; [done|].
  intros Hb. assert (Hb' : s_backend r = SqliteBlob) by congruence. destruct Hp as [->|]; auto.
Qed.

(** A locked row answers every open with an error that is not about the proof,
    and an open changes nothing. *)
Lemma locked_refuses id h w : locked_out id (db w) ->
  exists e w', openAndEnqueueCleanup s ob id h w = (Err e, w') /\ e <> SecretsErr ErrInvalidAccess /\ db w' = db w.
Proof.
  intros Hl. destruct (openAndEnqueueCleanup s ob id h w) as [[sec|e] w'] eqn:E.
  - apply open_released in E as (r & t & j & tj & (Hr & _ & Hc & _) & _); [|done..]. by destruct (Hl r Hr).
  - exists e, w'. destruct (open_err_spec s ob _ _ _ _ _ E) as [Hn Hi]. assert (e <> SecretsErr ErrInvalidAccess); [|auto].
    intros He. destruct (Hi He) as (r & t & (Hr & _ & Hc & _) & _). by destruct (Hl r Hr).
Qed.

(** The guess that leaves none locks. *)
Lemma last_guess_locks id h w w1 :
  openAndEnqueueCleanup s ob id h w = (Err (SecretsErr ErrInvalidAccess), w1) ->
  guesses_left (t_secrets (db w1) !! id) <= 0 -> locked_out id (db w1).
Proof.
  intros H. destruct (open_err_spec s ob _ _ _ _ _ H) as [_ Hi].
  destruct (Hi eq_refl) as (r & t & (Hr & _ & Hc & _) & _ & Hf). pose proof (failed_effect_row _ _ _ _ _ Hf) as Hr'. rewrite Hr'.
  simpl. rewrite Hc. unfold failed_effect in Hf. destruct (Z.leb_spec maxFailedAccessAttempts (s_failed r + 1)) as [Hle|Hlt];
    [|unfold maxFailedAccessAttempts in Hlt; simpl; lia].
  intros _ r0 Hr0. assert (r0 = failed_access t r) as -> by congruence. unfold failed_access. simpl.
  rewrite Hc. apply Z.leb_le in Hle as Hle'. rewrite Hle'. split; [done|]. intros Hb. unfold purged in Hf. rewrite Hb in Hf. rewrite Hf.
  apply lookup_delete_eq.
Qed.

Lemma guesses_keep_locked id n w w' : guesses id n w w' -> locked_out id (db w) -> locked_out id (db w').
Proof.
  induction 1 as [w|n w w1 w2 He H IH|n h w w1 w2 Ho H IH]; [done|intros Hl; eapply IH, locked_evolves; done|].
  intros Hl. destruct (locked_refuses id h w Hl) as (e & wx & E & He & _). exfalso. rewrite Ho in E. congruence.
Qed.

(** A proof the row does not accept never opens it. *)
Lemma wrong_proof_refused id h w r : t_secrets (db w) !! id = Some r -> ~ authorizes r h ->
  exists e w', openAndEnqueueCleanup s ob id h w = (Err e, w') /\ (e <> SecretsErr ErrInvalidAccess -> db w' = db w).
Proof.
  intros Hr Hna. destruct (openAndEnqueueCleanup s ob id h w) as [[sec|e] w'] eqn:E.
  - apply open_released in E as (r' & t & j & tj & (Hr' & _) & Ha & _); [|done..]. naive_solver congruence.
  - exists e, w'. split; [done|]. apply (open_err_spec s ob _ _ _ _ _ E).
Qed.

Lemma guesses_cost id n w w' : guesses id n w w' ->
  Z.of_nat n + guesses_left (t_secrets (db w') !! id) <= guesses_left (t_secrets (db w) !! id) /\
  ((0 < n)%nat -> guesses_left (t_secrets (db w) !! id) <= Z.of_nat n -> locked_out id (db w')).
Proof.
  induction 1 as [w|n w w1 w2 He H [IH IL]|n h w w1 w2 Ho H [IH IL]].
  - split; [lia|lia].
  - pose proof (guesses_left_mono _ _ (proj1 He)). split; [lia|]. intros Hn Hg. apply IL; lia.
  - pose proof (wrong_guess_costs _ _ _ _ Ho). split; [lia|]. intros _ Hg. destruct n as [|n]; [|apply IL; lia].
    eapply guesses_keep_locked; [exact H|]. eapply last_guess_locks; [exact Ho|lia].
Qed.

(** C14: the number of wrong guesses is bounded, and the fifth locks.  A proof
    the row does not accept never opens it: the open fails, and unless it is
    refused as a wrong guess (by the error that the count below counts) it
    changes nothing.  Over any history of the service, however the opens
    interleave with other operations, at most five opens of a secret are
    refused for a wrong access proof.  After the fifth the row is consumed and
    its inline payload deleted, and whatever happens next, an open of it fails
    with an error that is not about the proof, the right proof included, and
    changes nothing. *)
Theorem at_most_five_wrong_guesses (id : string) (n : nat) (w w' : World ApiDB) :
  (forall r, t_secrets (db w) !! id = Some r -> 0 <= s_failed r) ->
  guesses id n w w' ->
  (n <= 5)%nat /\
  (n = 5%nat -> locked_out id (db w') /\
     forall h w1, evolves_at id (db w') (db w1) ->
       exists e w2, openAndEnqueueCleanup s ob id h w1 = (Err e, w2) /\ e <> SecretsErr ErrInvalidAccess /\ db w2 = db w1) /\
  (forall h w1 r, t_secrets (db w1) !! id = Some r -> ~ authorizes r h ->
     exists e w2, openAndEnqueueCleanup s ob id h w1 = (Err e, w2) /\ (e <> SecretsErr ErrInvalidAccess -> db w2 = db w1)).
Proof.
  intros Hnn H. destruct (guesses_cost _ _ _ _ H) as [Hc Hl].
  assert (Hb : 0 <= guesses_left (t_secrets (db w') !! id))
    by (destruct (t_secrets (db w') !! id); cbn; [destruct (is_some _)|]; lia).
  assert (H5 : guesses_left (t_secrets (db w) !! id) <= 5).
  { destruct (t_secrets (db w) !! id) as [r|]; cbn; [|lia]. specialize (Hnn r eq_refl). destruct (is_some _); lia. }
  split_and!; [lia| |intros; by eapply wrong_proof_refused]. intros ->.
  assert (HL : locked_out id (db w')) by (apply Hl; lia). split; [done|].
  intros h w1 He. by eapply locked_refuses, locked_evolves.
Qed.
End guessing.

(** ** Creation, and its round trips *)

(** The columns [Create] writes. *)
Definition created_row (i : CreateInput) (id : string) (t : time) : secret_row :=
  let '(kdf, proof) := modelAColumns (in_AccessKDF i) (in_AccessProofHash i) in
  MkSecret (in_Kind i) SqliteBlob id kdf proof (in_WrappedIdentity i) (in_EncryptedFilename i)
    (in_ContentType i) (in_SizeBytes i) (default_views (in_MaxViews i)) 0 0 Active
    (expiry t (in_TTLSeconds i)) None t t None.

Section creation.
Context {ENV : Env} {CODEC : EventCodec} (s : Store).
Implicit Types w : World ApiDB.

Lemma insert_secret_Some id r d u d' :
  insert_secret id r d = Some (u, d') ->
  t_secrets d !! id = None /\ secret_check r = true /\ d' = set_secrets (<[id := r]> (t_secrets d)) d.
Proof.
  unfold insert_secret. destruct (ins _ _ _ _) eqn:E; [|done]. apply ins_Some in E as (? & ? & ->).
  by intros [= <- <-].
Qed.
Lemma insert_payload_Some id p d u d' :
  insert_payload id p d = Some (u, d') ->
  t_payloads d !! id = None /\ d' = set_payloads (<[id := p]> (t_payloads d)) d.
Proof.
  unfold insert_payload. destruct (is_some _); [|done].
  destruct (ins _ _ _ _) eqn:E; [|done]. apply ins_Some in E as (? & ? & ->). by intros [= <- <-].
Qed.
Lemma insert_management_Some id m d u d' :
  insert_management id m d = Some (u, d') ->
  t_management d !! id = None /\ management_check m = true /\
  d' = set_management (<[id := m]> (t_management d)) d.
Proof.
  unfold insert_management. destruct (ins _ _ _ _) eqn:E; [|done]. apply ins_Some in E as (? & ? & ->).
  by intros [= <- <-].
Qed.

(** Everything a successful [Create] did. *)
Lemma Create_ok i w sec w' :
  Create s i w = (Ok sec, w') ->
  exists raw tok, let id := Base64.encode Base64.RawURLEncoding raw in
    let t := clk (S (tick w)) in let r := created_row i id t in
    rand_bytes (tick w) 18 = Some raw /\ String.length tok = 32%nat /\
    t_secrets (db w) !! id = None /\ t_payloads (db w) !! id = None /\ t_management (db w) !! id = None /\
    secret_check r = true /\
    db w' = set_management (<[id := MkManagement (sha256 tok) (s_expires r) None]> (t_management (db w)))
      (set_payloads (<[id := {| p_ciphertext := in_Ciphertext i; p_created := t |}]> (t_payloads (db w)))
        (set_secrets (<[id := r]> (t_secrets (db w))) (db w))) /\
    ID sec = id /\ ExpiresAt sec = s_expires r /\
    ManagementToken sec = Base64.encode Base64.RawURLEncoding tok /\
    (exists rest, in_Ciphertext i = ageMagic +:+ rest) /\ strlen (in_Ciphertext i) = in_SizeBytes i /\
    same_io w w'.
Proof.
  unfold Create, generateID. intros H.
  apply bind_ok in H as (u & w0 & Hv & H). mstep Hv.
  apply bind_ok in H as (id & w1 & Hid & H). msteps Hid.
  apply bind_ok in H as (t & w2 & Ht & H). mstep Ht.
  destruct (modelAColumns _ _) as [kdf proof] eqn:Em. cbn in Em.
  apply transaction_ok in H as (_ & [(wx & Hb & _)|(wx & Hb & _ & ->)]).
  { apply bind_ok in Hb as (? & ? & _ & Hb). apply bind_ok in Hb as (? & ? & _ & Hb).
    apply bind_ok in Hb as (? & ? & _ & Hb). by msteps Hb. }
  apply bind_ok in Hb as (u1 & w3 & H1 & Hb). mstep H1.
  apply bind_ok in Hb as (u2 & w4 & H2 & Hb). mstep H2.
  apply bind_ok in Hb as (tok & w5 & H3 & Hb). unfold createManagementTx in H3.
  apply bind_ok in H3 as (raw' & w6 & Hr & H3). mstep Hr.
  apply bind_ok in H3 as (u3 & w7 & H4 & H3). mstep H4. msteps H3. msteps Hb.
  apply insert_secret_Some in H1 as (Hn & Hck & ->). apply insert_payload_Some in H2 as (Hnp & ->).
  apply insert_management_Some in H4 as (Hnm & _ & ->). simplify_eq. simpl in *.
  unfold created_row. eexists a, raw'. rewrite Em. split_and!; try done; simpl.
  - by apply rand_bytes_len in Hr.
  - unfold validateCreate in Hv. simpl in Hv. destruct (_ <? _); [done|].
    destruct (negb _ || negb _) eqn:E; [done|]. destruct_bools. by apply has_prefix_inv.
  - unfold validateCreate in Hv. simpl in Hv. destruct (_ <? _); [done|].
    destruct (negb _ || negb _) eqn:E; [done|]. destruct_bools. done.
Qed.
End creation.

(** ** Running an open to success *)
Section open_runs.
Context {ENV : Env} {CODEC : EventCodec} `{!NoFaults} (s : Store) (ob : outboxEnqueuer) `{!OutboxSpec ob}.
Implicit Types w : World ApiDB.

Lemma recordManagementOutcomeTx_runs id o w :
  map_Forall (fun _ m => management_check m = true) (t_management (db w)) ->
  recordManagementOutcomeTx id o w = (Ok tt, set_db (record_outcome id o (db w)) (bump w)).
Proof.
  intros Hck.
  assert (Hu : exists n, update_management id (fun m => is_none (m_outcome m))
      (fun m => MkManagement (m_token_hash m) (m_expires m) (Some o)) (db w) =
    Some (n, record_outcome id o (db w))).
  { unfold record_outcome, update_management, upd. destruct (t_management (db w) !! id) as [m|] eqn:Em.
    - specialize (Hck id m Em). unfold management_check in *. simpl.
      destruct (is_none (m_outcome m)); [rewrite Hck; eauto|]. eexists. simpl. by destruct (db w).
    - eexists. simpl. by destruct (db w). }
  destruct Hu as [n Hu]. unfold recordManagementOutcomeTx.
  erewrite bind_runs by (eapply sql_runs; exact Hu). reflexivity.
Qed.

Lemma secret_check_viewed t r : secret_check r = true -> secret_check (viewed t r) = true.
Proof.
  unfold secret_check. rewrite !andb_true_iff. intros. destruct_and!. split_and!; try done.
  simpl. apply Z.leb_le. match goal with H : (0 <=? s_view_count r) = true |- _ => apply Z.leb_le in H end. lia.
Qed.

Lemma model_columns_consistent r : secret_check r = true ->
  negb (Bool.eqb (is_some (s_access_kdf r)) (is_some (s_proof_hash r))) ||
  negb (Bool.eqb (is_some (s_proof_hash r)) (is_some (s_wrapped r))) = false.
Proof.
  unfold secret_check, is_none. intros. destruct_bools.
  destruct (is_some (s_access_kdf r)), (is_some (s_proof_hash r)), (is_some (s_wrapped r)); done.
Qed.

Lemma OpenTx_inline_runs id h r w :
  id <> "" -> t_secrets (db w) !! id = Some r -> s_state r = Active -> s_consumed r = None ->
  s_backend r = SqliteBlob -> payload_of (db w) id <> "" -> secret_check r = true -> authorizes r h ->
  map_Forall (fun _ m => management_check m = true) (t_management (db w)) ->
  clk (tick w) < s_expires r -> clk (2 + tick w) < s_expires r ->
  exists w', OpenTx s id h w = (Ok (secret_of (db w) id r), w') /\ tick w' = (5 + tick w)%nat /\
    db w' = record_outcome id Opened
              (set_secrets (<[id := viewed (clk (2 + tick w)) r]> (t_secrets (db w))) (db w)).
Proof.
  intros Hid Hr Hst Hc Hb Hp Hck Ha Hm Ht1 Ht2.
  assert (Hl : load id (bump w) = (Ok (secret_of (db w) id r, None), bump (bump w))).
  { unfold load. rewrite fail_if_runs by (by apply bool_decide_false). erewrite bind_runs by apply sql_query_runs.
    simpl. rewrite Hr. rewrite fail_if_runs by (rewrite bool_decide_true by done; done).
    rewrite fail_if_runs.
    2:{ fold (payload_of (db w) id). rewrite (bool_decide_false (payload_of (db w) id = "")) by done.
        by rewrite andb_false_r. }
    rewrite fail_if_runs by (by apply model_columns_consistent). unfold ret. by rewrite Hc. }
  eexists. unfold OpenTx. erewrite bind_runs by reflexivity. erewrite bind_runs by exact Hl.
  simpl fst. simpl snd.
  rewrite fail_if_runs by done. rewrite fail_if_runs by (simpl; apply negb_false_iff; by apply before_true).
  replace (negb _ && negb _) with false by (symmetry; by apply mismatch_spec).
  erewrite bind_runs by (unfold openBody; simpl; rewrite Hb; reflexivity).
  erewrite bind_runs by reflexivity.
  rewrite fail_if_runs by (simpl; apply negb_false_iff; by apply before_true).
  erewrite bind_runs.
  2:{ eapply (sql_runs _ _ _ 1). unfold update_secret, upd. simpl. rewrite Hr, Hc. simpl.
      rewrite (secret_check_viewed _ _ Hck). reflexivity. }
  rewrite fail_if_runs by done.
  erewrite bind_runs by (apply recordManagementOutcomeTx_runs; exact Hm).
  split; [reflexivity|done].
Qed.

Lemma validate_delete_secret jobID id reason t :
  blank jobID = false -> blank id = false -> is_zero t = false -> validReason reason = true ->
  Validate (MkJobEvent jobID KindDeleteSecret id "" reason t ∅) = Ok tt.
Proof.
  intros H1 H2 H3 H4. unfold Validate. simpl. rewrite H1, H3, H2, H4. by rewrite andb_false_r.
Qed.
End open_runs.

Lemma encode_raw_nonempty raw n : String.length raw = S n -> Base64.encode Base64.RawURLEncoding raw <> "".
Proof. intros H E. assert (Hb : raw <> "") by (by intros ->). apply encode_not_blank in Hb. by rewrite E in Hb. Qed.

(** A wall clock within the range the program's time formats can print. *)
Definition sane_clock (t : time) : Prop := four_digit_year t = true /\ t <> zero_time.

Section roundtrip.
Context {ENV : Env} {CODEC : EventCodec} `{!NoFaults} (s : Store) (ob : outboxEnqueuer) `{!OutboxSpec ob}.

(** An inline secret of a database that an open with a proof hash reveals. *)
Record openable (id h : string) (r : secret_row) (d : ApiDB) : Prop := {
  oa_id : id <> "";
  oa_visible : blank id = false;
  oa_row : t_secrets d !! id = Some r;
  oa_active : s_state r = Active;
  oa_unread : s_consumed r = None;
  oa_inline : s_backend r = SqliteBlob;
  oa_payload : payload_of d id <> "";
  oa_check : secret_check r = true;
  oa_proof : authorizes r h;
  oa_management : map_Forall (fun _ m => management_check m = true) (t_management d);
}.

Lemma created_openable (i : CreateInput) (w : World ApiDB) (sec : Secret) w1 :
  Create s i w = (Ok sec, w1) -> map_Forall (fun _ m => management_check m = true) (t_management (db w)) ->
  openable (ID sec) (in_AccessProofHash i) (created_row i (ID sec) (clk (S (tick w)))) (db w1) /\
  payload_of (db w1) (ID sec) = in_Ciphertext i /\ ExpiresAt sec = s_expires (created_row i (ID sec) (clk (S (tick w)))).
Proof.
  intros HC Hm.
  apply Create_ok in HC as (rawid & tok & Hid & Htok & Hn & Hnp & Hnm & Hck & Hdb & -> & Hexp & _ & [rest Hct] & Hsz & _).
  set (id := Base64.encode Base64.RawURLEncoding rawid) in *.
  set (r := created_row i id (clk (S (tick w)))) in *.
  assert (Hp1 : payload_of (db w1) id = in_Ciphertext i)
    by (unfold payload_of; rewrite Hdb; simpl; by rewrite lookup_insert_eq).
  assert (Hrow : s_state r = Active /\ s_consumed r = None /\ s_backend r = SqliteBlob /\
    authorizes r (in_AccessProofHash i)).
  { unfold r, created_row, modelAColumns, authorizes. case_bool_decide; simpl; auto. }
  destruct Hrow as (Hst & Hc & Hb & Ha). split_and!; [split; try done|done|done].
  - apply rand_bytes_len in Hid. by eapply encode_raw_nonempty.
  - apply encode_not_blank. intros ->. by apply rand_bytes_len in Hid.
  - rewrite Hdb. apply lookup_insert_eq.
  - by rewrite Hp1, Hct.
  - rewrite Hdb. simpl. apply map_Forall_insert; [done|]. split; [|done].
    unfold management_check. simpl. by rewrite Sha256.sum_length.
Qed.

(** An inline secret that is there opens, whatever came before, and is
    consumed with its payload still in place. *)
Lemma inline_opens id h r (w : World ApiDB) raw : openable id h r (db w) ->
  (forall n, (tick w <= n <= 8 + tick w)%nat -> clk n < s_expires r /\ sane_clock (clk n)) ->
  rand_bytes (tick w) 18 = Some raw ->
  t_outbox (db w) !! Base64.encode Base64.RawURLEncoding raw = None ->
  exists w2 t, openAndEnqueueCleanup s ob id h w = (Ok (secret_of (db w) id r), w2) /\
    t_secrets (db w2) !! id = Some (viewed t r) /\ t_payloads (db w2) = t_payloads (db w).
Proof.
  intros [Hid Hidb Hr Hst Hc Hb Hp Hck Ha Hm] Hclk Hraw Hfresh. unfold openAndEnqueueCleanup, NewJobID.
  erewrite bind_runs by (erewrite bind_runs by (apply rand_read_ok; eauto); reflexivity).
  destruct (OpenTx_inline_runs s id h r (bump (bump w))) as (w2 & Ho & Htk & Hd2); try done.
  { apply Hclk. simpl. lia. }
  { apply Hclk. simpl. lia. }
  set (ev := MkJobEvent (Base64.encode Base64.RawURLEncoding raw) KindDeleteSecret id "" ReasonConsumed (clk (tick w2)) ∅).
  assert (He : is_ok (enq ob ev (bump w2)).1 = true).
  { destruct (Hclk (tick w2)) as (_ & Hy & Hz); [simpl in Htk; lia|].
    apply enq_succeeds; [done| |done|].
    - apply validate_delete_secret; [|done| |done].
      + apply encode_not_blank. intros ->. by apply rand_bytes_len in Hraw.
      + by apply Z.eqb_neq.
    - simpl. rewrite Hd2. unfold record_outcome. repeat case_match; done. }
  destruct (enq ob ev (bump w2)) as [[rec|e] w3] eqn:Ee; [|done].
  pose proof (enq_ok ev (bump w2) rec w3 Ee) as [Hq _].
  erewrite bind_runs.
  2:{ apply transaction_runs. erewrite bind_runs by (unfold attempt; rewrite Ho; reflexivity). cbv beta iota.
      erewrite bind_runs by reflexivity. erewrite bind_runs by exact Ee. reflexivity. }
  eexists _, _. split; [reflexivity|]. destruct Hq as (row & _ & _ & Hd3). simpl. rewrite Hd3. simpl. rewrite Hd2.
  unfold record_outcome. split; repeat case_match; simpl; (done || apply lookup_insert_eq).
Qed.

(** C16: what is created is what is opened.  After a successful [Create], an
    open with the same access proof hash before the expiry, under any answering
    database and with a fresh job id, returns exactly the ciphertext, wrapped
    identity, filename, content type, size, KDF parameters and expiry that were
    created. *)
Theorem create_open_roundtrip (i : CreateInput) (w : World ApiDB) (sec : Secret) w1 raw :
  Create s i w = (Ok sec, w1) ->
  map_Forall (fun _ m => management_check m = true) (t_management (db w)) ->
  (forall n, (tick w1 <= n <= 8 + tick w1)%nat -> clk n < ExpiresAt sec /\ sane_clock (clk n)) ->
  rand_bytes (tick w1) 18 = Some raw ->
  t_outbox (db w1) !! Base64.encode Base64.RawURLEncoding raw = None ->
  exists sec' w2, openAndEnqueueCleanup s ob (ID sec) (in_AccessProofHash i) w1 = (Ok sec', w2) /\
    Ciphertext sec' = in_Ciphertext i /\ WrappedIdentity sec' = in_WrappedIdentity i /\
    EncryptedFilename sec' = in_EncryptedFilename i /\ ContentType sec' = in_ContentType i /\
    SizeBytes sec' = in_SizeBytes i /\ ExpiresAt sec' = ExpiresAt sec /\ SecretKind sec' = in_Kind i /\
    (in_AccessProofHash i <> "" -> AccessKDF sec' = in_AccessKDF i).
Proof.
  intros HC Hm Hclk Hraw Hfresh. destruct (created_openable i w sec w1 HC Hm) as (Ho & Hp & Hexp).
  destruct (inline_opens (ID sec) (in_AccessProofHash i) _ w1 raw Ho) as (w2 & t & Hrun & _); [by rewrite <- Hexp|done|done|].
  eexists _, _. split; [exact Hrun|]. simpl. rewrite Hp, Hexp.
  unfold created_row, modelAColumns. case_bool_decide; done.
Qed.

(** The management token that [Create] hands out works.  Presented for
    the created id before its expiry, it is accepted and reports an active
    delivery that can be cancelled. *)
Theorem create_management_roundtrip (i : CreateInput) (w : World ApiDB) (sec : Secret) w1 :
  Create s i w = (Ok sec, w1) -> clk (S (tick w1)) < ExpiresAt sec ->
  exists w2, Management s (ID sec) (ManagementToken sec) w1 =
    (Ok (MkStatus (ID sec) (StState Active) (ExpiresAt sec) true), w2).
Proof.
  intros HC Ht.
  apply Create_ok in HC as (rawid & tok & Hid & Htok & Hn & Hnp & Hnm & Hck & Hdb & -> & Hexp & -> & _ & _).
  eexists. unfold Management, management.
  assert (Hdt : decode_token (Base64.encode Base64.RawURLEncoding tok) = Some tok)
    by (by apply decode_token_iff).
  rewrite Hdt. erewrite bind_runs by apply sql_query_runs. simpl. rewrite Hdb. simpl.
  rewrite !lookup_insert_eq.
  rewrite fail_if_runs by (simpl; by rewrite bool_decide_true).
  erewrite bind_runs by reflexivity.
  rewrite fail_if_runs by (simpl; apply negb_false_iff, before_true; by rewrite <- Hexp).
  simpl. rewrite <- Hexp. unfold created_row. destruct (modelAColumns _ _). reflexivity.
Qed.
End roundtrip.
