(* ===== verification/SecretUploads.v ===== *)
(** * Direct uploads, cancellation and the upload gauge

    [CreateLarge] stages a pending row, [Finalize] activates it when the object
    has the declared length, [Revoke] cancels a delivery; the in-memory gauge
    [flick_active_uploads] counts the pending rows throughout. *)

From S2P Require Import Prelude World GoTime Codec Schema AgeFormat Outbox ObjectStorage SecretStore SecretProofs.

(** ** Counting pending rows *)
Definition pending1 (r : secret_row) : Z := if is_pending r then 1 else 0.
Definition count_in (m : gmap string secret_row) : Z :=
  Z.of_nat (size (filter (fun p : string * secret_row => is_pending p.2 = true) m)).

Lemma pending_count_in d : pending_count d = count_in (t_secrets d).
Proof. done. Qed.

Lemma count_in_fresh m id r : m !! id = None -> count_in (<[id := r]> m) = count_in m + pending1 r.
Proof.
  intros Hn. unfold count_in, pending1. destruct (is_pending r) eqn:E.
  - rewrite map_filter_insert_True by done. rewrite map_size_insert_None; [lia|].
    apply map_lookup_filter_None. by left.
  - rewrite map_filter_insert_False by (simpl; congruence). rewrite delete_id by done. lia.
Qed.

Lemma count_in_delete m id r : m !! id = Some r -> count_in (delete id m) = count_in m - pending1 r.
Proof.
  intros Hr. rewrite <- (insert_delete_id m id r Hr) at 2. rewrite count_in_fresh; [lia|].
  apply lookup_delete_eq.
Qed.

Lemma count_in_update m id r r' :
  m !! id = Some r -> count_in (<[id := r']> m) = count_in m - pending1 r + pending1 r'.
Proof.
  intros Hr. rewrite <- insert_delete_eq, count_in_fresh by apply lookup_delete_eq.
  rewrite (count_in_delete _ _ _ Hr). lia.
Qed.

Lemma count_in_nonneg m : 0 <= count_in m.
Proof. unfold count_in. lia. Qed.

(** ** The invariant: the gauge is the number of pending rows, and a pending
    row is an unconsumed S3 row. *)
Definition pending_ok (d : ApiDB) : Prop :=
  map_Forall (fun _ r => s_state r = PendingUpload -> s_consumed r = None /\ s_backend r = S3Object) (t_secrets d).
Definition balanced (w : World ApiDB) : Prop :=
  active_uploads w = pending_count (db w) /\ pending_ok (db w).

(** A step that neither moves the gauge nor the count. *)
Definition count_kept (d d' : ApiDB) : Prop :=
  pending_ok d -> pending_ok d' /\ pending_count d' = pending_count d.
#[export] Instance count_kept_preorder : PreOrder count_kept.
Proof.
  split; unfold count_kept; [naive_solver|]. intros d1 d2 d3 H1 H2 H. destruct (H1 H) as [H' E]. rewrite <- E. auto.
Qed.

Lemma balanced_kept {A} (m : M ApiDB A) :
  respects (on_db count_kept) m -> respects same_gauge m -> forall w, balanced w -> balanced (m w).2.
Proof.
  intros Hc Hg w [Eg Hp]. specialize (Hc w). specialize (Hg w). unfold on_db, same_gauge in *.
  destruct (Hc Hp) as [Hp' E]. split; [congruence|done].
Qed.

Lemma count_kept_same d d' : t_secrets d' = t_secrets d -> count_kept d d'.
Proof. intros E. unfold count_kept, pending_ok. by rewrite !pending_count_in, E. Qed.

(** An update of one row that keeps its state, or touches only active rows. *)
Lemma count_kept_update id P f d n d' :
  (forall r, P r = true -> pending_ok d -> t_secrets d !! id = Some r ->
     s_state (f r) = s_state r /\ s_backend (f r) = s_backend r /\
     (s_state r = PendingUpload -> s_consumed (f r) = None)) ->
  update_secret id P f d = Some (n, d') -> count_kept d d'.
Proof.
  intros Hf [(_ & -> & _)|(r & _ & Hr & HP & ->)]%update_secret_Some Hp; [done|].
  destruct (Hf r HP Hp Hr) as (Es & Eb & Ec). split.
  - apply map_Forall_insert_2; [|done]. intros Hst. rewrite Es in Hst. split; [auto|].
    rewrite Eb. by destruct (Hp id r Hr).
  - rewrite !pending_count_in. simpl. rewrite (count_in_update _ _ _ _ Hr).
    unfold pending1, is_pending. rewrite Es. lia.
Qed.

Lemma count_kept_active id r r' d :
  t_secrets d !! id = Some r -> s_state r = Active -> s_state r' = Active ->
  count_kept d (set_secrets (<[id := r']> (t_secrets d)) d).
Proof.
  intros Hr Hs Hs' Hp. split.
  - apply map_Forall_insert_2; [|done]. congruence.
  - rewrite !pending_count_in. simpl. rewrite (count_in_update _ _ _ _ Hr).
    unfold pending1, is_pending. rewrite Hs, Hs'. simpl. lia.
Qed.

Lemma count_kept_outcome id o d : count_kept d (record_outcome id o d).
Proof. apply count_kept_same. unfold record_outcome. by repeat case_match. Qed.
Lemma count_kept_enqueued `{EventCodec} ev d d' : enqueued ev d d' -> count_kept d d'.
Proof. intros (row & _ & _ & ->). by apply count_kept_same. Qed.

Section gauge.
Context {ENV : Env} {CODEC : EventCodec} (s : Store) `{!StoreSpec s} (ob : outboxEnqueuer) `{!OutboxSpec ob}.
Implicit Types w : World ApiDB.

Lemma failed_effect_count id r t d d' :
  t_secrets d !! id = Some r -> s_state r = Active -> failed_effect s id r t d d' -> count_kept d d'.
Proof.
  intros Hr Hs Hf. unfold failed_effect in Hf.
  pose proof (count_kept_active id r (failed_access t r) d Hr Hs Hs) as H1.
  destruct (_ <=? _); [|by subst]. etrans; [exact H1|].
  etrans; [apply (count_kept_outcome id Locked)|]. unfold purged in Hf.
  destruct (s_backend r); [subst; by apply count_kept_same|].
  destruct (outbox s); [|by subst]. destruct Hf as (j & tj & He). by eapply count_kept_enqueued.
Qed.

#[local] Hint Resolve store_objects store_outbox : flick.

Lemma OpenTx_gauge id h : respects same_gauge (OpenTx s id h).
Proof.
  unfold OpenTx, load, openBody, recordFailedAccessTx, recordManagementOutcomeTx. solve_respects.
Qed.
#[local] Hint Resolve OpenTx_gauge : flick.

Lemma open_balanced id h w : balanced w -> balanced (openAndEnqueueCleanup s ob id h w).2.
Proof.
  intros [Eg Hp].
  assert (Hg : same_gauge w (openAndEnqueueCleanup s ob id h w).2)
    by (apply (fun H => H w); unfold openAndEnqueueCleanup; solve_respects).
  enough (Hk : count_kept (db w) (db (openAndEnqueueCleanup s ob id h w).2))
    by (destruct (Hk Hp); split; [unfold same_gauge in Hg; congruence|done]).
  destruct (openAndEnqueueCleanup s ob id h w) as [[sec|e] w'] eqn:E; simpl.
  - destruct (open_ok_spec s ob _ _ _ _ _ E)
      as (r & t & t0 & j & tj & (Hr & Hst & _) & _ & _ & _ & _ & _ & _ & _ & _ & He & _).
    etrans; [by apply (count_kept_active id r (viewed t r))|].
    etrans; [apply (count_kept_outcome id Opened)|]. by eapply count_kept_enqueued.
  - destruct (open_err_spec s ob _ _ _ _ _ E) as [Hother Hinv].
    destruct (decide (e = SecretsErr ErrInvalidAccess)) as [He|He].
    + destruct (Hinv He) as (r & t & (Hr & Hst & _) & _ & Hf). by eapply failed_effect_count.
    + by rewrite (Hother He).
Qed.

(** *** Staging *)
Definition staged_row (i : CreateLargeInput) (id : string) (t : time) : secret_row :=
  let '(kdf, proof) := modelAColumns (li_AccessKDF i) (li_AccessProofHash i) in
  MkSecret (li_Kind i) S3Object (managedObjectPrefix +:+ id) kdf proof (li_WrappedIdentity i)
    (li_EncryptedFilename i) (li_ContentType i) (li_SizeBytes i) (default_views (li_MaxViews i)) 0 0
    PendingUpload (expiry t (li_TTLSeconds i)) None t t None.

Definition staged (i : CreateLargeInput) (id : string) (d d' : ApiDB) : Prop :=
  exists t tok, t_secrets d !! id = None /\ secret_check (staged_row i id t) = true /\
    d' = set_management (<[id := MkManagement (sha256 tok) (expiry t (li_TTLSeconds i)) None]> (t_management d))
           (set_secrets (<[id := staged_row i id t]> (t_secrets d)) d).

Lemma CreateLarge_spec i w r w' :
  CreateLarge s i w = (r, w') ->
  match r with
  | Ok lr => staged i (lr_ID lr) (db w) (db w') /\ active_uploads w' = active_uploads w + 1 /\
      li_SizeBytes i <= maxObjectBytes s /\ 32 <= li_SizeBytes i
  | Err _ => db w' = db w /\ active_uploads w' = active_uploads w
  end.
Proof.
  intros H. unfold CreateLarge, generateID in H. destruct (objects s) as [o|] eqn:Eo; [|by injection H as <- <-].
  pose proof (store_objects _ Eo). destruct r as [lr|e].
  - apply bind_ok in H as (u & w0 & Hv & H). mstep Hv.
    apply bind_ok in H as (id & w1 & Hid & H). msteps Hid.
    apply bind_ok in H as (t & w2 & Ht & H). mstep Ht.
    destruct (modelAColumns _ _) as [kdf proof] eqn:Em. cbn in Em.
    apply bind_ok in H as (up & w3 & Hp & H). apply Objects.PresignPUT_quiet in Hp as (Ed & Eu & _).
    apply bind_ok in H as (tok & w4 & Htx & H).
    apply bind_ok in H as (u1 & w5 & Hu & H). msteps H. injection Hu as _ <-.
    apply transaction_ok in Htx as (_ & [(wx & Hb & _)|(wx & Hb & _ & ->)]).
    { apply bind_ok in Hb as (? & ? & _ & Hb). apply bind_ok in Hb as (? & ? & _ & Hb). by msteps Hb. }
    apply bind_ok in Hb as (u2 & w6 & H1 & Hb). mstep H1.
    apply bind_ok in Hb as (tk & w7 & H3 & Hb). msteps Hb. unfold createManagementTx in H3. msteps H3.
    match goal with Hi : insert_management _ _ _ = _ |- _ => apply insert_management_Some in Hi as (_ & _ & ->) end.
    match goal with Hi : insert_secret _ _ _ = _ |- _ => apply insert_secret_Some in Hi as (Hn & Hck & ->) end.
    simpl in *. rewrite Ed, Eu in *. split_and!; [|done|..].
    + eexists _, _. unfold staged_row. rewrite Em. split_and!; done.
    + unfold validateCreateLarge in Hv. simpl in Hv. case_bool_decide; [done|].
      destruct (Z.ltb_spec (maxObjectBytes s) (li_SizeBytes i)); [done|lia].
    + unfold validateCreateLarge in Hv. simpl in Hv. case_bool_decide; [done|].
      destruct (maxObjectBytes s <? li_SizeBytes i); [done|].
      destruct (Z.ltb_spec (li_SizeBytes i) (MaxCiphertextBytes 0 - AgeHeaderAllowanceBytes)) as [|Hge]; [done|].
      by vm_compute in Hge.
  - apply bind_err in H as [H|(u & w0 & Hv & H)]; [by merr H|]. mstep Hv.
    apply bind_err in H as [H|(id & w1 & Hid & H)]; [by merr H|]. msteps Hid.
    apply bind_err in H as [H|(t & w2 & Ht & H)]; [by merr H|]. mstep Ht.
    destruct (modelAColumns _ _) as [kdf proof].
    apply bind_err in H as [H|(up & w3 & Hp & H)]; [by apply Objects.PresignPUT_quiet in H as (? & ? & _)|].
    apply Objects.PresignPUT_quiet in Hp as (Ed & Eu & _).
    apply bind_err in H as [H|(tok & w4 & Htx & H)]; [|by merr H].
    split; [apply transaction_err in H; simpl in *; congruence|].
    match type of H with ?m _ = _ =>
      assert (Hg : respects same_gauge m) by (unfold createManagementTx; solve_respects) end.
    specialize (Hg w3). rewrite H in Hg. unfold same_gauge in Hg. simpl in *. congruence.
Qed.

(** *** Finalizing *)
Definition activated (t : time) (r : secret_row) : secret_row :=
  MkSecret (s_kind r) (s_backend r) (s_key r) (s_access_kdf r) (s_proof_hash r) (s_wrapped r)
    (s_filename r) (s_content_type r) (s_size r) (s_max_views r) (s_view_count r) (s_failed r)
    Active (s_expires r) (s_consumed r) (s_created r) t (s_reclaim r).

(** The bucket confirmed, during the call, an object of exactly this size. *)
Definition head_confirmed (key : string) (n : Z) : Prop :=
  exists o wa info wb, objects s = Some o /\ Objects.Head o key wa = (Ok info, wb) /\
    Exists info = true /\ Size info = n.

Lemma Finalize_spec id w r w' :
  Finalize s id w = (r, w') ->
  match r with
  | Ok _ =>
      exists row, t_secrets (db w) !! id = Some row /\
      ((s_state row = Active /\ db w' = db w /\ active_uploads w' = active_uploads w) \/
       (s_state row = PendingUpload /\ head_confirmed (s_key row) (s_size row) /\
        exists t, t < s_expires row /\ t < s_created row + pendingTTL s /\
          db w' = set_secrets (<[id := activated t row]> (t_secrets (db w))) (db w) /\
          active_uploads w' = active_uploads w - 1))
  | Err _ => db w' = db w /\ active_uploads w' = active_uploads w
  end.
Proof.
  intros H. unfold Finalize in H. destruct (objects s) as [o|] eqn:Eo; [|by injection H as <- <-].
  pose proof (store_objects _ Eo). destruct r as [u|e].
  - apply bind_ok in H as (act & w1 & Htx & H).
    apply transaction_ok in Htx as (_ & [(wx & Hb & ->)|(wx & Hb & _ & ->)]).
    + apply bind_ok in Hb as (row & w2 & Hq & Hb). mstep Hq. simpl in Hb.
      destruct (t_secrets (db w) !! id) as [row|] eqn:Er; [|by msteps Hb]. exists row. split; [done|].
      destruct (s_state row) eqn:Es; [msteps Hb; simplify_eq; msteps H; simpl; by left|].
      exfalso. repeat (apply bind_ok in Hb as (? & ? & _ & Hb)). by msteps Hb.
    + apply bind_ok in Hb as (row & w2 & Hq & Hb). mstep Hq. simpl in Hb.
      destruct (t_secrets (db w) !! id) as [row|] eqn:Er; [|by msteps Hb]. exists row. split; [done|].
      destruct (s_state row) eqn:Es; [by msteps Hb|]. right.
      apply bind_ok in Hb as (t1 & w3 & Ht & Hb). mstep Ht.
      apply bind_ok in Hb as (u1 & w4 & Hx1 & Hb). mstep Hx1.
      apply bind_ok in Hb as (info & w5 & Hh & Hb).
      apply bind_ok in Hb as (u2 & w6 & Hx2 & Hb). mstep Hx2.
      apply bind_ok in Hb as (t2 & w7 & Ht & Hb). mstep Ht.
      apply bind_ok in Hb as (u3 & w8 & Hx3 & Hb). mstep Hx3. destruct_bools.
      apply bind_ok in Hb as (u4 & w9 & Ha & Hb). msteps Hb. simplify_eq.
      pose proof Hh as (Ed & Eu & _)%Objects.Head_quiet.
      unfold activateSecretTx in Ha. apply bind_ok in Ha as (n & w10 & Hs & Ha). mstep Hs. mstep Ha.
      apply update_secret_Some in Hs as [(-> & _)|(r' & -> & Hr' & _ & ->)]; [done|]. simpl in *.
      rewrite Ed in *. assert (r' = row) as -> by congruence.
      injection H as _ <-. split; [done|]. split; [eexists o, _, info, _; split_and!; [done|exact Hh|done|done]|].
      exists (clk (tick w5)). unfold finalize_deadline in Hx3.
      destruct (before (s_created row + pendingTTL s) (s_expires row)) eqn:Eb; destruct_bools.
      all: split_and!; [lia|lia|done|simpl; lia].
  - apply bind_err in H as [H|(act & w1 & Htx & H)]; [|by destruct act].
    split; [by apply transaction_err in H|].
    match type of H with ?m _ = _ =>
      assert (Hg : respects same_gauge m)
        by (unfold activateSecretTx; solve_respects; apply Objects.quiet_gauge, Objects.Head_quiet) end.
    specialize (Hg w). by rewrite H in Hg.
Qed.

(** *** The management capability *)

(** The token is the canonical text of a preimage of the stored hash. *)
Definition holds_token (d : ApiDB) (id token : string) (m : management_row) : Prop :=
  t_management d !! id = Some m /\
  exists raw, decode_token token = Some raw /\ sha256 raw = m_token_hash m.

Lemma management_ok id token w st w' :
  management s id token w = (Ok st, w') ->
  exists m, holds_token (db w) id token m /\ clk (S (tick w)) < m_expires m /\ w' = bump (bump w) /\
    ms_ID st = id /\ ms_ExpiresAt st = m_expires m /\
    match m_outcome m with
    | Some o => ms_Status st = StOutcome o /\ ms_CanCancel st = false
    | None => exists r, t_secrets (db w) !! id = Some r /\
        (ms_CanCancel st = true -> ms_Status st = StState (s_state r)) /\
        (ms_CanCancel st = false -> ms_Status st = StOutcome Unavailable)
    end.
Proof.
  unfold management. destruct (decode_token token) as [raw|] eqn:Ed; intros H; [|by msteps H].
  apply bind_ok in H as ([mo sr] & w1 & Hq & H). mstep Hq. simplify_eq.
  destruct (t_management (db w) !! id) as [m|] eqn:Em; [|by msteps H].
  apply bind_ok in H as (u1 & w2 & H1 & H). mstep H1. destruct_bools.
  apply bind_ok in H as (t & w3 & Ht & H). mstep Ht.
  apply bind_ok in H as (u2 & w4 & H2 & H). mstep H2. destruct_bools. simpl in *.
  exists m. destruct (m_outcome m) as [oc|] eqn:Eo.
  - msteps H. split_and!; try done. split; eauto.
  - destruct (t_secrets (db w) !! id) as [r|] eqn:Er; [|by msteps H]. msteps H. simpl.
    split_and!; try done; [split; eauto|].
    eexists. split; [done|]. destruct (s_state r); [done|]. by destruct (before _ _).
Qed.

(** *** Cancelling *)
Definition removed (id : string) (d : ApiDB) : ApiDB :=
  set_payloads (delete id (t_payloads d)) (set_secrets (delete id (t_secrets d)) d).

(** What a cancellation commits: the row and payload gone, the outcome
    "cancelled", and the object's delete job for an S3 row. *)
Definition cancelled (id : string) (r : secret_row) (d d' : ApiDB) : Prop :=
  let d1 := record_outcome id Cancelled (removed id d) in
  match s_backend r with
  | SqliteBlob => d' = d1
  | S3Object => exists jobID t, enqueued (delete_job jobID (s_key r) ReasonManual t) d1 d'
  end.

Definition revoke_effect (id token : string) (w w' : World ApiDB) : Prop :=
  exists m r, holds_token (db w) id token m /\ m_outcome m = None /\
    t_secrets (db w) !! id = Some r /\ s_consumed r = None /\ s_reclaim r = None /\
    cancelled id r (db w) (db w') /\ active_uploads w' = active_uploads w - pending1 r.

Lemma revokeTx_commit id token w st b w' :
  revokeTx s id token w = (Ok (Commit (Revoked st, b)), w') ->
  exists m r, holds_token (db w) id token m /\ m_outcome m = None /\
    t_secrets (db w) !! id = Some r /\ s_consumed r = None /\ s_reclaim r = None /\
    cancelled id r (db w) (db w') /\ active_uploads w' = active_uploads w /\
    b = is_pending r /\ st = MkStatus id (StOutcome Cancelled) (m_expires m) false.
Proof.
  intros H. unfold revokeTx in H. apply bind_ok in H as (st1 & w1 & Hm1 & H).
  case_bool_decide; [by msteps H|]. destruct (negb (ms_CanCancel st1)); [by msteps H|].
  apply management_ok in Hm1 as (m1 & Hh1 & _ & -> & _).
  apply bind_ok in H as (row & w2 & Hq & H). mstep Hq. simpl in H.
  destruct (t_secrets (db w) !! id) as [r|] eqn:Er; [|by msteps H].
  apply bind_ok in H as (st2 & w3 & Hm2 & H).
  destruct (ms_CanCancel st2) eqn:Ec; [|by msteps H]. simpl in H.
  apply management_ok in Hm2 as (m2 & Hh2 & _ & -> & _ & Ee & Hst).
  assert (m2 = m1) as -> by (destruct Hh1 as [E1 _], Hh2 as [E2 _]; simpl in E2; congruence).
  destruct (m_outcome m1) eqn:Em; [destruct Hst; congruence|].
  destruct Hst as (r' & Hr' & Hst & _). specialize (Hst Ec).
  assert (r' = r) as -> by (simpl in Hr'; congruence).
  apply bind_ok in H as (n & w4 & Hd & H). mstep Hd.
  apply bind_ok in H as (u1 & w5 & Hn & H). mstep Hn.
  apply delete_secret_Some in Hd as [(-> & _)|(r2 & -> & Hr2 & HP & ->)]; [done|].
  assert (r2 = r) as -> by (simpl in Hr2; congruence). unfold revocable in HP. apply andb_true_iff in HP as [Hc Hrc].
  apply is_none_true in Hc, Hrc.
  apply bind_ok in H as (u2 & w6 & Ho & H). apply recordManagementOutcomeTx_ok in Ho as (Edo & Euo & _).
  simpl in Edo, Euo. apply bind_ok in H as (u3 & w7 & Hj & H). msteps H. simplify_eq.
  assert (Hb : bool_decide (ms_Status st2 = StState PendingUpload) = is_pending r).
  { rewrite Hst. unfold is_pending. apply bool_decide_ext. split; congruence. }
  exists m1, r. rewrite Hb, Ee. unfold cancelled. fold (removed id (db w)) in *.
  assert (Hd' : db w6 = record_outcome id Cancelled (removed id (db w))) by done.
  destruct (s_backend r).
  - msteps Hj. split_and!; done.
  - destruct (outbox s) as [ob'|] eqn:Eob; [|by msteps Hj]. pose proof (store_outbox _ Eob).
    unfold NewJobID in Hj. apply bind_ok in Hj as (j & w8 & Hx & Hj). msteps Hx.
    apply bind_ok in Hj as (t & w9 & Ht & Hj). mstep Ht.
    apply bind_ok in Hj as (rec & w10 & He & Hj). msteps Hj.
    apply enq_ok in He as [He [Ha _]]. simpl in He, Ha. rewrite Hd' in He.
    split_and!; try done; [eauto|congruence].
Qed.

Lemma revokeTx_gauge id token : respects same_gauge (revokeTx s id token).
Proof. unfold revokeTx, management, recordManagementOutcomeTx. solve_respects. Qed.

(** The three ways the transaction can end. *)
Lemma revokeTx_ends id token w out w' :
  revokeTx s id token w = (Ok out, w') ->
  (exists st m, out = Rollback (Revoked st, false) /\ ms_Status st = StOutcome Cancelled /\
     holds_token (db w) id token m /\ m_outcome m = Some Cancelled) \/
  (exists st, out = Rollback (NotCancellable st, false) /\ ms_CanCancel st = false) \/
  (exists st b, out = Commit (Revoked st, b)).
Proof.
  intros H. unfold revokeTx in H. apply bind_ok in H as (st1 & wa & Hm & H).
  case_bool_decide as Hst.
  { msteps H. left. apply management_ok in Hm as (m & Hh & _ & _ & _ & _ & Hm). exists st1, m.
    split_and!; try done. destruct (m_outcome m) as [oc|]; [destruct Hm; congruence|].
    destruct Hm as (r & _ & H1 & H2).
    destruct (ms_CanCancel st1); [specialize (H1 eq_refl)|specialize (H2 eq_refl)]; congruence. }
  destruct (ms_CanCancel st1) eqn:Ec; [|simpl in H; msteps H; right; left; eauto]. simpl in H.
  apply bind_ok in H as (row & wb & _ & H). destruct row; [|by msteps H].
  apply bind_ok in H as (st2 & wc & _ & H). destruct (ms_CanCancel st2) eqn:Ec2; [|simpl in H; msteps H; right; left; eauto].
  simpl in H. do 4 (apply bind_ok in H as (? & ? & _ & H)). msteps H. right. right. eauto.
Qed.

Lemma Revoke_spec id token w res w' :
  Revoke s id token w = (res, w') ->
  match res with
  | Ok (Revoked st) => ms_Status st = StOutcome Cancelled /\
      ((exists m, holds_token (db w) id token m /\ m_outcome m = Some Cancelled /\
          db w' = db w /\ active_uploads w' = active_uploads w) \/
       revoke_effect id token w w')
  | Ok (NotCancellable st) => ms_CanCancel st = false /\ db w' = db w /\ active_uploads w' = active_uploads w
  | Err _ => db w' = db w /\ active_uploads w' = active_uploads w
  end.
Proof.
  intros H. unfold Revoke in H.
  assert (Hg : respects same_gauge (transaction "begin cancellation" "commit cancellation" (revokeTx s id token)))
    by (apply respects_transaction; [apply _|apply revokeTx_gauge]).
  specialize (Hg w). destruct res as [res|e].
  - apply bind_ok in H as ([res' b] & w1 & Htx & H). apply bind_ok in H as (u & w2 & Hu & H). msteps H.
    simpl in *. rewrite Htx in Hg. simpl in Hg.
    apply transaction_ok in Htx as (_ & [(wx & Hb & ->)|(wx & Hb & _ & ->)]);
      pose proof (revokeTx_ends _ _ _ _ _ Hb) as Hends.
    + destruct Hends as [(st & m & [= -> ->] & Hst & Hh & Ho)|[(st & [= -> ->] & Hc)|(? & ? & ?)]]; [..|done];
        msteps Hu; [|done]. split; [done|]. left. eauto 10.
    + destruct Hends as [(? & ? & ? & _)|[(? & ? & _)|(st & b' & [= -> ->])]]; [done..|].
      apply revokeTx_commit in Hb as (m & r & Hh & Hm & Hr & Hc & Hrc & Hca & Hau & -> & ->).
      split; [done|]. right. exists m, r. simpl in *.
      unfold pending1. destruct (is_pending r); [injection Hu as _ <-|msteps Hu]; simpl.
      all: split_and!; try done; lia.
  - apply bind_err in H as [H|([res' b] & w1 & Htx & H)].
    + rewrite H in Hg. split; [by apply transaction_err in H|done].
    + apply bind_err in H as [H|(? & ? & _ & H)]; [by destruct b|by merr H].
Qed.

(** *** Every operation keeps the gauge equal to the count *)
Lemma CreateLarge_balanced i w : balanced w -> balanced (CreateLarge s i w).2.
Proof.
  intros [Eg Hp]. destruct (CreateLarge s i w) as [r w'] eqn:E. simpl.
  apply CreateLarge_spec in E. unfold balanced. destruct r as [lr|e]; [|by destruct E as [-> ->]].
  destruct E as ((t & tok & Hn & _ & Ed) & Eu & _). set (id := lr_ID lr) in *. rewrite Eu, Ed.
  assert (Hst : s_state (staged_row i id t) = PendingUpload /\ s_consumed (staged_row i id t) = None /\
    s_backend (staged_row i id t) = S3Object) by (unfold staged_row; by destruct (modelAColumns _ _)).
  split.
  - rewrite !pending_count_in in *. simpl. rewrite count_in_fresh by done.
    unfold pending1, is_pending. destruct Hst as (-> & _). simpl. lia.
  - apply map_Forall_insert_2; [by destruct Hst|done].
Qed.

Lemma Create_balanced i w : balanced w -> balanced (Create s i w).2.
Proof.
  intros [Eg Hp]. destruct (Create s i w) as [r w'] eqn:E. simpl. destruct r as [sec|e].
  - apply Create_ok in E as (raw & tok & _ & _ & Hn & _ & _ & _ & Ed & _ & _ & _ & _ & _ & [Eu _]).
    assert (Hst : forall id t, s_state (created_row i id t) = Active)
      by (intros; unfold created_row; by destruct (modelAColumns _ _)).
    unfold balanced. rewrite Eu, Ed. split.
    + rewrite !pending_count_in in *. simpl. rewrite count_in_fresh by done.
      unfold pending1, is_pending. rewrite Hst. simpl. lia.
    + apply map_Forall_insert_2; [by rewrite Hst|done].
  - unfold balanced. assert (Hg : respects same_gauge (Create s i)).
    { unfold Create, generateID, createManagementTx. solve_respects. }
    specialize (Hg w). rewrite E in Hg. simpl in Hg. rewrite Hg.
    enough (db w' = db w) as -> by done. unfold Create, generateID in E.
    apply bind_err in E as [E|(u & w0 & Hv & E)]; [by merr E|]. mstep Hv.
    apply bind_err in E as [E|(id & w1 & Hid & E)]; [by merr E|]. msteps Hid.
    apply bind_err in E as [E|(t & w2 & Ht & E)]; [by merr E|]. mstep Ht.
    destruct (modelAColumns _ _). by apply transaction_err in E.
Qed.

Lemma Finalize_balanced id w : balanced w -> balanced (Finalize s id w).2.
Proof.
  intros [Eg Hp]. destruct (Finalize s id w) as [r w'] eqn:E. simpl.
  apply Finalize_spec in E. unfold balanced. destruct r as [u|e]; [|by destruct E as [-> ->]].
  destruct E as (row & Hr & [(_ & -> & ->)|(Hs & _ & t & _ & _ & -> & ->)]); [done|]. split.
  - rewrite !pending_count_in in *. simpl. rewrite (count_in_update _ _ _ _ Hr).
    unfold pending1, is_pending. rewrite Hs. simpl. lia.
  - apply map_Forall_insert_2; done.
Qed.

Lemma pending_ok_delete d id : pending_ok d -> pending_ok (removed id d).
Proof. intros H. by apply map_Forall_delete. Qed.

Lemma Revoke_balanced id token w : balanced w -> balanced (Revoke s id token w).2.
Proof.
  intros [Eg Hp]. destruct (Revoke s id token w) as [r w'] eqn:E. simpl.
  apply Revoke_spec in E. unfold balanced.
  destruct r as [[st|st]|e]; [|by destruct E as (_ & -> & ->)|by destruct E as [-> ->]].
  destruct E as [_ [(m & _ & _ & -> & ->)|(m & r & _ & _ & Hr & _ & _ & Hca & ->)]]; [done|].
  assert (Hk : count_kept (removed id (db w)) (db w')).
  { unfold cancelled in Hca. etrans; [apply (count_kept_outcome id Cancelled)|].
    destruct (s_backend r); [by rewrite Hca|]. destruct Hca as (j & t & He). by eapply count_kept_enqueued. }
  destruct (Hk (pending_ok_delete _ id Hp)) as [Hp' ->]. split; [|done].
  rewrite !pending_count_in in *. simpl. rewrite (count_in_delete _ _ _ Hr). lia.
Qed.

Lemma Cleanup_balanced id w : balanced w -> balanced (Cleanup id w).2.
Proof.
  apply balanced_kept; unfold Cleanup; solve_respects.
  - apply respects_sql; [apply _|]. intros d n d' [= _ <-]. by apply count_kept_same.
  - apply respects_sql; [apply _|]. intros d n d'. apply count_kept_update.
    intros r _ Hp Hr. split_and!; [done|done|]. intros Hs. by destruct (Hp id r Hr Hs).
Qed.

Lemma enqueueOpenedObjectCleanup_balanced key w :
  balanced w -> balanced (enqueueOpenedObjectCleanup ob key w).2.
Proof.
  apply balanced_kept; unfold enqueueOpenedObjectCleanup; solve_respects.
  apply respects_enq; [apply _..|]. intros d d'. apply count_kept_enqueued.
Qed.
End gauge.

(** ** Theorems *)
Section upload_theorems.
Context {ENV : Env} {CODEC : EventCodec} (s : Store) `{!StoreSpec s}.

(** finalizing is exact.  If [Finalize] succeeds, either the delivery was
    already active and nothing changed, or its row was pending, the bucket
    confirmed during the call an object under its key of exactly the size the
    row was staged for, the activation time precedes both the content expiry
    and the pending deadline, and the only change is that the row became
    active; the upload gauge dropped by one.  If it fails, nothing changed. *)
Theorem finalize_activates_exact_size (id : string) (w : World ApiDB) (r : result unit) w' :
  Finalize s id w = (r, w') ->
  match r with
  | Ok _ =>
      exists row, t_secrets (db w) !! id = Some row /\
      ((s_state row = Active /\ db w' = db w /\ active_uploads w' = active_uploads w) \/
       (s_state row = PendingUpload /\ head_confirmed s (s_key row) (s_size row) /\
        exists t, t < s_expires row /\ t < s_created row + pendingTTL s /\
          db w' = set_secrets (<[id := activated t row]> (t_secrets (db w))) (db w) /\
          active_uploads w' = active_uploads w - 1))
  | Err _ => db w' = db w /\ active_uploads w' = active_uploads w
  end.
Proof. apply Finalize_spec; apply _. Qed.

(** cancellation is authenticated, complete and final.  [Revoke] reports
    "cancelled" only to the holder of a preimage of the stored token hash; the
    first time it removes the row and its payload, records the outcome and, for
    an S3 delivery, queues the object's delete, all in one commit, and adjusts
    the gauge if the row was pending; later it changes nothing.  A refusal or an
    error changes nothing. *)
Theorem revoke_cancels (id token : string) (w : World ApiDB) (res : result RevokeResult) w' :
  Revoke s id token w = (res, w') ->
  match res with
  | Ok (Revoked st) => ms_Status st = StOutcome Cancelled /\
      ((exists m, holds_token (db w) id token m /\ m_outcome m = Some Cancelled /\
          db w' = db w /\ active_uploads w' = active_uploads w) \/
       revoke_effect id token w w')
  | Ok (NotCancellable st) => ms_CanCancel st = false /\ db w' = db w /\ active_uploads w' = active_uploads w
  | Err _ => db w' = db w /\ active_uploads w' = active_uploads w
  end.
Proof. apply Revoke_spec; apply _. Qed.
End upload_theorems.
