(* ===== verification/RequestStore.v ===== *)
(** * Request links (src/internal/requests)

    A request invites one submission: it waits, may reserve an upload, accepts
    at most one body, and its owner opens it once.  Each definition is the
    method of the same name.  [begin] is the method that opens a write
    transaction, checks the capability and the deadlines and ends a lapsed
    reservation; here it takes the rest of the transaction as its argument.

    Concurrent finalizes of one request share a single copy in the code; the
    model is the one that copies. *)

From S2P Require Import Prelude World GoTime Codec Schema AgeFormat Outbox ObjectStorage.

Definition EnvelopeMaxBytes : Z := 8192.
Definition MaxGeneration : Z := 16.
Definition envelopeVersion : Z := 2.
Definition recipientPrefix : string := "age1pq1".
Definition maxRecipientChars : Z := 2400.
Definition maxEncryptedNameLen : Z := 4096.
Definition ObjectPrefix : string := "managed/requests/".
Definition ReservationTTL : Z := 15 * Minute.

Definition rerr {A} (e : requests_error) : result A := Err (RequestsErr e).
Definition rthrow {A} (e : requests_error) : M ApiDB A := throw (RequestsErr e).

Record Envelope := MkEnvelope { Version : Z; EnvFilename : string }.

(** What the package takes from its libraries: the strict object decoder
    [DecodeObject] at type [Envelope], [json.Marshal] and [json.Unmarshal] of an
    envelope, [json.Marshal] of the two immutable structures that are hashed,
    and the canonical text of a parsed hybrid age recipient. *)
Class RequestCodec := {
  DecodeEnvelope : string -> option Envelope;
  MarshalEnvelope : Envelope -> string;
  UnmarshalEnvelope : string -> option Envelope;
  MarshalPayload : string -> Z -> string -> string -> string;
  MarshalUpload : string -> Z -> string -> string -> string;
  ParseHybridRecipient : string -> option string;
  envelope_roundtrip v f : - 2 ^ 63 <= v < 2 ^ 63 -> ascii_string f = true ->
    UnmarshalEnvelope (MarshalEnvelope (MkEnvelope v f)) = Some (MkEnvelope v f);
}.

(** ** Validation (validation.go) *)
Definition canonicalBase64 (s : string) (min max : Z) : result string :=
  if Base64.EncodedLen max <? strlen s then rerr ErrInvalid
  else match Base64.decode (Base64.Strict Base64.StdEncoding) s with
       | None => rerr ErrInvalid
       | Some b =>
           if (strlen b <? min) || (max <? strlen b) ||
              negb (bool_decide (Base64.encode Base64.StdEncoding b = s))
           then rerr ErrInvalid else Ok b
       end.

Definition tokenHash (token : string) : result string :=
  match decode_token token with None => rerr ErrInvalid | Some b => Ok (sha256 b) end.

Definition isAgeFile (b : string) : bool := has_prefix ageMagic b.

Section validation.
Context `{RequestCodec}.

Definition publicKeyFingerprint (s : string) : result string :=
  if (maxRecipientChars <? strlen s) || negb (has_prefix recipientPrefix s) then rerr ErrInvalid
  else match ParseHybridRecipient s with
       | None => rerr ErrInvalid
       | Some canonical =>
           if negb (bool_decide (canonical = s)) then rerr ErrInvalid
           else Ok (Base64.encode Base64.RawURLEncoding (sha256 s))
       end.

Definition validateEnvelope (raw kind : string) : result string :=
  if EnvelopeMaxBytes <? strlen raw then rerr ErrInvalid
  else match DecodeEnvelope raw with
       | None => rerr ErrInvalid
       | Some e =>
           if negb (Version e =? envelopeVersion) then rerr ErrInvalid
           else if bool_decide (kind = "file") then
             match canonicalBase64 (EnvFilename e) (strlen ageMagic) maxEncryptedNameLen with
             | Err x => Err x
             | Ok name => if isAgeFile name then Ok (MarshalEnvelope e) else rerr ErrInvalid
             end
           else if bool_decide (kind = "text") then
             if bool_decide (EnvFilename e = "") then Ok (MarshalEnvelope e) else rerr ErrInvalid
           else rerr ErrInvalid
       end.
End validation.

(** ** The store (store.go) *)
Record Options := MkOptions {
  Objects : option (Objects.Store ApiDB);
  Outbox : option outboxEnqueuer;
  PayloadInlineMaxBytes : Z;
  MaxObjectBytes : Z;
  MinTTLSeconds : Z;
  DefaultTTLSeconds : Z;
  MaxTTLSeconds : Z;
}.

Definition NewStore (opts : Options) : result Options :=
  if (PayloadInlineMaxBytes opts <? strlen ageMagic) || (MaxObjectBytes opts <=? 0) ||
     (is_some (Objects opts) && is_none (Outbox opts)) || (MinTTLSeconds opts <=? 0) ||
     (DefaultTTLSeconds opts <? MinTTLSeconds opts) || (MaxTTLSeconds opts <? DefaultTTLSeconds opts) ||
     (Z.quot (2 ^ 63 - 1) Second <? MaxTTLSeconds opts)
  then Err (Fail "invalid request store configuration") else Ok opts.

Record Created := MkCreated { c_ID : string; c_ExpiresAt : time; SubmissionToken : string; RetrievalToken : string }.
Record InstructionsView := MkInstructions {
  i_PublicKey : string; i_Fingerprint : string; i_ExpiresAt : time; i_Generation : Z; i_CanSubmit : bool }.
Record OwnerStatus := MkOwnerStatus {
  o_PublicKey : string; o_Fingerprint : string; o_ExpiresAt : time; o_State : request_state }.
Record SubmitInput := MkSubmitInput {
  si_Generation : Z; si_AttemptToken : string; si_Kind : string; si_SizeBytes : Z;
  si_Envelope : string; si_Ciphertext : string }.
Record Receipt := MkReceipt { rc_Generation : Z; rc_State : string }.
Record OpenedRequest := MkOpened {
  op_Kind : string; op_SizeBytes : Z; op_Envelope : Envelope; op_Body : stream; op_ObjectKey : string }.
Record UploadInput := MkUploadInput {
  ui_Generation : Z; ui_AttemptToken : string; ui_Kind : string; ui_SizeBytes : Z;
  ui_Envelope : string; ui_CiphertextSHA256 : string }.
Record AttemptInput := MkAttemptInput { ai_Generation : Z; ai_AttemptToken : string }.
Record UploadResult := MkUploadResult {
  ur_Generation : Z; ur_State : string; ur_Upload : option UploadInstruction; ur_ReservationExpiresAt : option time }.

(** [record]. *)
Record reqrecord := MkRecord {
  q_publicKey : string; q_fingerprint : string; q_state : request_state;
  q_expires : time; q_generation : Z; q_reservationExpires : time }.

(** *** Row updates, one per [update requests] statement *)
Definition rq_reservation_ended (generation : Z) (r : request_row) : request_row :=
  MkRequest (r_public_key r) (r_fingerprint r) (r_submission_hash r) (r_retrieval_hash r)
    (if generation =? MaxGeneration then ReqUnavailable else Waiting)
    (if generation =? MaxGeneration then generation else generation + 1)
    None None None None None SqliteBlob None None None None (r_consumed r) (r_expires r).

Definition rq_submitted (attempt body kind : string) (size : Z) (env : string) (r : request_row) : request_row :=
  MkRequest (r_public_key r) (r_fingerprint r) (r_submission_hash r) (r_retrieval_hash r) Submitted
    (r_generation r) (Some attempt) (Some body) (Some kind) (Some size) (Some env) (r_backend r)
    (r_upload_key r) (r_final_key r) (r_checksum r) (r_reservation r) (r_consumed r) (r_expires r).

Definition rq_reserved (attempt body : string) (size : Z) (env checksum upload final : string) (deadline : time)
    (r : request_row) : request_row :=
  MkRequest (r_public_key r) (r_fingerprint r) (r_submission_hash r) (r_retrieval_hash r) Uploading
    (r_generation r) (Some attempt) (Some body) (Some "file") (Some size) (Some env) S3Object
    (Some upload) (Some final) (Some checksum) (Some deadline) (r_consumed r) (r_expires r).

Definition rq_finalized (r : request_row) : request_row :=
  MkRequest (r_public_key r) (r_fingerprint r) (r_submission_hash r) (r_retrieval_hash r) Submitted
    (r_generation r) (r_attempt r) (r_body_hash r) (r_kind r) (r_size r) (r_envelope r) (r_backend r)
    None (r_final_key r) (r_checksum r) None (r_consumed r) (r_expires r).

Definition rq_object_consumed (t : time) (r : request_row) : request_row :=
  MkRequest (r_public_key r) (r_fingerprint r) (r_submission_hash r) (r_retrieval_hash r) ReqConsumed
    (r_generation r) (r_attempt r) (r_body_hash r) None None None (r_backend r)
    (r_upload_key r) (r_final_key r) None (r_reservation r) (Some t) (r_expires r).

Definition rq_final_dropped (r : request_row) : request_row :=
  MkRequest (r_public_key r) (r_fingerprint r) (r_submission_hash r) (r_retrieval_hash r) (r_state r)
    (r_generation r) (r_attempt r) (r_body_hash r) (r_kind r) (r_size r) (r_envelope r) (r_backend r)
    (r_upload_key r) None (r_checksum r) (r_reservation r) (r_consumed r) (r_expires r).

Definition rq_cleared (state : request_state) (t : time) (r : request_row) : request_row :=
  let was_uploading := bool_decide (r_state r = Uploading) in
  MkRequest (r_public_key r) (r_fingerprint r) (r_submission_hash r) (r_retrieval_hash r) state
    (r_generation r) (if was_uploading then None else r_attempt r) (if was_uploading then None else r_body_hash r)
    None None None (r_backend r) None None None None
    (if bool_decide (state = ReqConsumed) then Some t else r_consumed r) (r_expires r).

Section store.
Context {ENV : Env} {RC : RequestCodec} (s : Options).

Definition requireTransition (n : Z) : M ApiDB unit := fail_if (negb (n =? 1)) (RequestsErr ErrConflict).

(** [substring] of the random buffer: [random[a:a+n]]. *)
Definition slice (a n : nat) (x : string) : string := String.substring a n x.

Definition Create (publicKey : string) (ttl : option Z) : M ApiDB Created :=
  let! fingerprint := lift (publicKeyFingerprint publicKey) in
  let seconds := match ttl with Some t => t | None => DefaultTTLSeconds s end in
  do! fail_if ((seconds <? MinTTLSeconds s) || (MaxTTLSeconds s <? seconds)) (RequestsErr ErrInvalid) in
  let! random := rand_read 80 "read random" in
  let id := Base64.encode Base64.RawURLEncoding (slice 0 16 random) in
  let submit := Base64.encode Base64.RawURLEncoding (slice 16 32 random) in
  let retrieve := Base64.encode Base64.RawURLEncoding (slice 48 32 random) in
  let submitHash := match tokenHash submit with Ok h => h | Err _ => "" end in
  let retrieveHash := match tokenHash retrieve with Ok h => h | Err _ => "" end in
  let! t := now in
  let expires := t + wrap64 (seconds * Second) in
  do! sql "insert request" (insert_request id
        (MkRequest publicKey fingerprint submitHash retrieveHash Waiting 1 None None None None None
           SqliteBlob None None None None None expires)) in
  ret (MkCreated id expires submit retrieve).

Definition authorized (id hash : string) (owner : bool) : M ApiDB reqrecord :=
  let! row := sql_query "read request" (fun d => t_requests d !! id) in
  match row with
  | None => rthrow ErrUnavailable
  | Some r =>
      let storedHash := if owner then r_retrieval_hash r else r_submission_hash r in
      do! fail_if (negb (bool_decide (hash = storedHash))) (RequestsErr ErrUnavailable) in
      let! t := now in
      do! fail_if (bool_decide (r_state r = ReqUnavailable) || negb (before t (r_expires r)))
            (RequestsErr ErrUnavailable) in
      ret (MkRecord (r_public_key r) (r_fingerprint r) (r_state r) (r_expires r) (r_generation r)
             (default zero_time (r_reservation r)))
  end.

(** *** Object clean-up jobs (cleanup.go) *)
Definition object_job (jobID key reason : string) (t : time) : JobEvent :=
  MkJobEvent jobID KindDeleteOCIObject "" key reason t ∅.

Definition enqueueObjectTx (ob : option outboxEnqueuer) (key reason : string) (t : time) : M ApiDB unit :=
  match ob with
  | None => rthrow ErrStorage
  | Some o =>
      do! fail_if (negb (has_prefix ObjectPrefix key) || bool_decide (key = ObjectPrefix)) (RequestsErr ErrStorage) in
      let! jobID := NewJobID in
      do! enq o (object_job jobID key reason t) in ret tt
  end.

Definition enqueue_key (ob : option outboxEnqueuer) (k : option string) (reason : string) (t : time) : M ApiDB unit :=
  match k with Some key => enqueueObjectTx ob key reason t | None => ret tt end.

Definition enqueueRequestKeysTx (ob : option outboxEnqueuer) (id reason : string) (t : time) : M ApiDB unit :=
  let! row := sql_query "read request keys" (fun d => t_requests d !! id) in
  match row with
  | None => throw (Fail "read request keys")
  | Some r =>
      do! enqueue_key ob (r_upload_key r) reason t in
      enqueue_key ob (r_final_key r) reason t
  end.

Definition endReservationTx (ob : option outboxEnqueuer) (id : string) (generation : Z) (t : time) : M ApiDB unit :=
  do! enqueueRequestKeysTx ob id ReasonOrphan t in
  let! n := sql "end reservation" (update_request id
    (fun r => bool_decide (r_state r = Uploading) && (r_generation r =? generation))
    (rq_reservation_ended generation)) in
  requireTransition n.

(** [commit]: the clock is read again before the transaction commits. *)
Definition commit_check (expires : time) : M ApiDB unit :=
  if is_zero expires then ret tt
  else let! t := now in fail_if (negb (before t expires)) (RequestsErr ErrUnavailable).

(** One pass of [begin]: [None] when it ended a lapsed reservation and the
    caller must begin again. *)
Definition begin_pass {A} (id hash : string) (owner : bool) (body : reqrecord -> M ApiDB (txout A)) :
    M ApiDB (option A) :=
  transaction "begin request" "commit request"
    (let! locked := sql_query "lock request" (fun _ => tt) in
     let! r := authorized id hash owner in
     let! lapsed := (if bool_decide (q_state r = Uploading)
                     then let! t := now in ret (negb (before t (q_reservationExpires r))) else ret false) in
     if (lapsed : bool) then
       let! t := now in
       do! endReservationTx (Outbox s) id (q_generation r) t in
       do! commit_check (q_expires r) in
       ret (Commit None)
     else
       let! out := body r in
       ret (match out with Commit a => Commit (Some a) | Rollback a => Rollback (Some a) end)).

(** [begin] calls itself after ending a reservation; the second pass cannot
    find one to end. *)
Definition begin {A} (id token : string) (owner : bool) (body : reqrecord -> M ApiDB (txout A)) : M ApiDB A :=
  match tokenHash token with
  | Err _ => rthrow ErrUnavailable
  | Ok hash =>
      let! r := begin_pass id hash owner body in
      match r with
      | Some a => ret a
      | None =>
          let! r := begin_pass id hash owner body in
          match r with Some a => ret a | None => throw (Fail "reservation lapsed twice") end
      end
  end.

Definition read (id token : string) (owner : bool) : M ApiDB reqrecord :=
  match tokenHash token with
  | Err _ => rthrow ErrUnavailable
  | Ok hash =>
      let! row := authorized id hash owner in
      let! lapsed := (if bool_decide (q_state row = Uploading)
                      then let! t := now in ret (negb (before t (q_reservationExpires row))) else ret false) in
      if (lapsed : bool) then
        begin id token owner (fun refreshed =>
          do! commit_check (q_expires refreshed) in ret (Commit refreshed))
      else ret row
  end.

Definition Instructions (id token : string) : M ApiDB InstructionsView :=
  let! r := read id token false in
  ret (MkInstructions (q_publicKey r) (q_fingerprint r) (q_expires r) (q_generation r)
         (bool_decide (q_state r = Waiting))).

Definition Owner (id token : string) : M ApiDB OwnerStatus :=
  let! r := read id token true in
  ret (MkOwnerStatus (q_publicKey r) (q_fingerprint r) (q_expires r) (q_state r)).

(** *** Inline submission *)
Definition validateSubmission (i : SubmitInput) : result (string * string * string) :=
  if (si_Generation i <? 1) || (MaxGeneration <? si_Generation i) || (si_SizeBytes i <? 0) ||
     (negb (bool_decide (si_Kind i = "text")) && negb (bool_decide (si_Kind i = "file")))
  then rerr ErrInvalid
  else match tokenHash (si_AttemptToken i) with
  | Err e => Err e
  | Ok attempt =>
      if (PayloadInlineMaxBytes s <? si_SizeBytes i) ||
         (bool_decide (si_Kind i = "file") && (MaxObjectBytes s <? si_SizeBytes i))
      then rerr ErrTooLarge
      else match validateEnvelope (si_Envelope i) (si_Kind i) with
      | Err e => Err e
      | Ok envelope =>
          if wrap64 (Z.quot (wrap64 (PayloadInlineMaxBytes s + 2)) 3 * 4) <? strlen (si_Ciphertext i) then rerr ErrTooLarge
          else match canonicalBase64 (si_Ciphertext i) (si_SizeBytes i) (si_SizeBytes i) with
          | Err _ => rerr ErrInvalid
          | Ok ciphertext =>
              if isAgeFile ciphertext then Ok (attempt, envelope, ciphertext) else rerr ErrInvalid
          end
      end
  end.

(** [bytes.Equal] of a stored, possibly null, column. *)
Definition bytes_equal (x : string) (stored : option string) : bool := bool_decide (x = default "" stored).

Definition Submit (id token : string) (i : SubmitInput) : M ApiDB Receipt :=
  let! v := lift (validateSubmission i) in
  let '(attempt, envelope, ciphertext) := v in
  let bodyHash := sha256 (MarshalPayload (si_Kind i) (si_SizeBytes i) envelope (si_Ciphertext i)) in
  begin id token false (fun row =>
    do! fail_if (negb (si_Generation i =? q_generation row)) (RequestsErr ErrUnavailable) in
    match q_state row with
    | Uploading => rthrow ErrConflict
    | Waiting =>
        let! n := sql "submit request" (update_request id
          (fun r => bool_decide (r_state r = Waiting) && (r_generation r =? si_Generation i))
          (rq_submitted attempt bodyHash (si_Kind i) (si_SizeBytes i) envelope)) in
        do! requireTransition n in
        do! sql "insert request payload" (insert_request_payload id ciphertext) in
        do! commit_check (q_expires row) in
        ret (Commit (MkReceipt (si_Generation i) "submitted"))
    | _ =>
        let! r := sql_query "read attempt" (fun d => t_requests d !! id) in
        match r with
        | None => throw (Fail "read attempt")
        | Some r =>
            do! fail_if (negb (bytes_equal attempt (r_attempt r)) || negb (bytes_equal bodyHash (r_body_hash r)))
                  (RequestsErr ErrConflict) in
            do! commit_check (q_expires row) in
            ret (Commit (MkReceipt (si_Generation i) "submitted"))
        end
    end).

Definition Attempt (id token : string) (generation : Z) (attemptToken : string) : M ApiDB Receipt :=
  do! fail_if ((generation <? 1) || (MaxGeneration <? generation)) (RequestsErr ErrInvalid) in
  let! attempt := lift (tokenHash attemptToken) in
  begin id token false (fun row =>
    do! fail_if (negb (generation =? q_generation row)) (RequestsErr ErrUnavailable) in
    let! r := sql_query "read attempt" (fun d => t_requests d !! id) in
    match r with
    | None => throw (Fail "read attempt")
    | Some r =>
        let state :=
          if bytes_equal attempt (r_attempt r)
          then if bool_decide (q_state row = Uploading) then "uploading" else "accepted"
          else if bool_decide (q_state row = Waiting) then "waiting" else "unavailable" in
        do! commit_check (q_expires row) in
        ret (Commit (MkReceipt generation state))
    end).

(** *** Clearing and opening *)
Definition clearPayloadTx (id : string) (previous state : request_state) (reason : string) : M ApiDB unit :=
  let! t := now in
  do! enqueueRequestKeysTx (Outbox s) id reason t in
  do! sql "delete request payload" (delete_request_payload id) in
  let! t := now in
  let! n := sql "clear request" (update_request id (fun r => bool_decide (r_state r = previous))
    (rq_cleared state t)) in
  requireTransition n.

Definition consumeObject (id token key : string) : M ApiDB unit :=
  begin id token true (fun row =>
    do! fail_if (negb (bool_decide (q_state row = Submitted))) (RequestsErr ErrConflict) in
    let! t := now in
    let! n := sql "consume object" (update_request id
      (fun r => bool_decide (r_state r = Submitted) && bool_decide (r_final_key r = Some key))
      (rq_object_consumed t)) in
    do! requireTransition n in
    do! commit_check (q_expires row) in
    ret (Commit tt)).

(** The first transaction of [Open]: an inline body is consumed and returned,
    an object is left to the second. *)
Inductive open_first := InlineOpened (o : OpenedRequest) | ObjectPending (kind : string) (size : Z) (env : Envelope) (key : option string).

Definition openFirst (id token : string) : M ApiDB open_first :=
  begin id token true (fun row =>
    do! fail_if (negb (bool_decide (q_state row = Submitted))) (RequestsErr ErrConflict) in
    let! x := sql_query "read submission" (fun d => (t_requests d !! id, t_request_payloads d !! id)) in
    match x with
    | (Some r, payload) =>
        match r_kind r, r_size r, r_envelope r with
        | Some kind, Some size, Some envelope =>
            match UnmarshalEnvelope envelope with
            | None => throw (Fail "decode envelope")
            | Some env =>
                match r_backend r with
                | S3Object => ret (Rollback (ObjectPending kind size env (r_final_key r)))
                | SqliteBlob =>
                    let ciphertext := default "" payload in
                    do! fail_if (negb (strlen ciphertext =? size)) (RequestsErr ErrStorage) in
                    do! clearPayloadTx id (q_state row) ReqConsumed ReasonConsumed in
                    do! commit_check (q_expires row) in
                    ret (Commit (InlineOpened (MkOpened kind size env (MkStream ciphertext true) "")))
                end
            end
        | _, _, _ => throw (Fail "scan submission")
        end
    | (None, _) => throw (Fail "read submission")
    end).

Definition Open (id token : string) : M ApiDB OpenedRequest :=
  let! first := openFirst id token in
  match first with
  | InlineOpened o => ret o
  | ObjectPending kind size env key =>
      match Objects s, key with
      | Some obj, Some k =>
          do! fail_if ((size <? 0) || (MaxObjectBytes s <? size)) (RequestsErr ErrStorage) in
          let! b := attempt (Objects.Open obj k) in
          match b with
          | Err _ => rthrow ErrStorage
          | Ok (body, length) =>
              do! fail_if (negb (length =? size)) (RequestsErr ErrStorage) in
              do! consumeObject id token k in
              ret (MkOpened kind size env body k)
          end
      | _, _ => rthrow ErrStorage
      end
  end.

Definition FinishOpen (id key : string) : M ApiDB unit :=
  transaction "begin finish open" "commit finish open"
    (let! n := sql "drop final key" (update_request id
       (fun r => bool_decide (r_state r = ReqConsumed) && bool_decide (r_final_key r = Some key))
       rq_final_dropped) in
     if n =? 0 then ret (Rollback tt)
     else
       let! t := now in
       do! enqueueObjectTx (Outbox s) key ReasonConsumed t in
       do! commit_check zero_time in
       ret (Commit tt)).

Definition Revoke (id token : string) : M ApiDB unit :=
  begin id token true (fun row =>
    do! fail_if (bool_decide (q_state row = ReqConsumed)) (RequestsErr ErrConflict) in
    do! clearPayloadTx id (q_state row) ReqCancelled ReasonManual in
    do! commit_check (q_expires row) in
    ret (Commit tt)).

(** ** Large uploads (large.go) *)
Definition validateAttempt (i : AttemptInput) : result string :=
  if (ai_Generation i <? 1) || (MaxGeneration <? ai_Generation i) then rerr ErrInvalid
  else tokenHash (ai_AttemptToken i).

Record objectAttempt := MkObjectAttempt {
  a_attempt : option string; a_bodyHash : option string; a_checksum : option string;
  a_uploadKey : option string; a_finalKey : option string; a_size : option Z }.

Definition objectAttemptTx (id : string) : M ApiDB objectAttempt :=
  let! row := sql_query "read attempt" (fun d => t_requests d !! id) in
  match row with
  | None => throw (Fail "read attempt")
  | Some r => ret (MkObjectAttempt (r_attempt r) (r_body_hash r) (r_checksum r) (r_upload_key r) (r_final_key r) (r_size r))
  end.

(** What the first transaction of [Reserve] ends with. *)
Inductive reserve_first :=
  | AlreadySubmitted (generation : Z)
  | ReservedUpload (generation : Z) (uploadKey : string) (deadline : time).

Definition reserveFirst (id token attempt digest envelope checksum : string) (i : UploadInput) :
    M ApiDB reserve_first :=
  begin id token false (fun row =>
    do! fail_if (negb (q_generation row =? ui_Generation i)) (RequestsErr ErrUnavailable) in
    let! pre :=
      (match q_state row with
       | Waiting =>
           do! fail_if (is_none (Objects s)) (RequestsErr ErrStorage) in
           let! random := rand_read 32 "read random" in
           let uploadKey := ObjectPrefix +:+ Base64.encode Base64.RawURLEncoding (slice 0 16 random) +:+ "/upload" in
           let finalKey := ObjectPrefix +:+ Base64.encode Base64.RawURLEncoding (slice 16 16 random) +:+ "/final" in
           let! t := now in
           let deadline := if before (q_expires row) (t + ReservationTTL) then q_expires row else t + ReservationTTL in
           let! n := sql "reserve upload" (update_request id
             (fun r => bool_decide (r_state r = Waiting) && (r_generation r =? ui_Generation i))
             (rq_reserved attempt digest (ui_SizeBytes i) envelope checksum uploadKey finalKey deadline)) in
           do! requireTransition n in
           ret (Some deadline)
       | st =>
           let! a := objectAttemptTx id in
           do! fail_if (negb (bytes_equal attempt (a_attempt a)) || negb (bytes_equal digest (a_bodyHash a)))
                 (RequestsErr ErrConflict) in
           ret (if bool_decide (st = Uploading) then Some (q_reservationExpires row) else None)
       end) in
    match pre with
    | None =>
        do! commit_check (q_expires row) in
        ret (Commit (AlreadySubmitted (q_generation row)))
    | Some deadline =>
        let! a := objectAttemptTx id in
        match Objects s, a_uploadKey a with
        | Some _, Some key =>
            do! commit_check (q_expires row) in
            ret (Commit (ReservedUpload (q_generation row) key deadline))
        | _, _ => rthrow ErrStorage
        end
    end).

Definition Reserve (id token : string) (i : UploadInput) : M ApiDB UploadResult :=
  let! attempt := lift (validateAttempt (MkAttemptInput (ui_Generation i) (ui_AttemptToken i))) in
  do! fail_if (negb (bool_decide (ui_Kind i = "file")) || (ui_SizeBytes i <? strlen ageMagic)) (RequestsErr ErrInvalid) in
  do! fail_if (MaxObjectBytes s <? ui_SizeBytes i) (RequestsErr ErrTooLarge) in
  let! envelope := lift (validateEnvelope (ui_Envelope i) (ui_Kind i)) in
  let! checksum := lift (canonicalBase64 (ui_CiphertextSHA256 i) 32 32) in
  let digest := sha256 (MarshalUpload (ui_Kind i) (ui_SizeBytes i) envelope (ui_CiphertextSHA256 i)) in
  let! first := reserveFirst id token attempt digest envelope checksum i in
  match first with
  | AlreadySubmitted g => ret (MkUploadResult g "submitted" None None)
  | ReservedUpload g key deadline =>
      let! t := now in
      let ttl := deadline - t in
      do! fail_if (ttl <=? 0) (RequestsErr ErrUnavailable) in
      match Objects s with
      | None => rthrow ErrStorage
      | Some obj =>
          let! u := World.attempt (Objects.PresignPUT obj key (ui_SizeBytes i) ttl) in
          match u with
          | Err _ => rthrow ErrStorage
          | Ok u => ret (MkUploadResult g "uploading"
                           (Some (MkUpload (URL u) (Method u) deadline (Headers u))) (Some deadline))
          end
      end
  end.

(** The check [PutStream] runs on the bytes it spooled. *)
Definition verify_copy (a : objectAttempt) (bytes : string) : option err :=
  if negb (isAgeFile (String.substring 0 (String.length ageMagic) bytes)) ||
     negb (bytes_equal (sha256 bytes) (a_checksum a))
  then Some (RequestsErr ErrInvalid) else None.

(** A cancelled context while waiting for a copy slot is [ErrStorage]; the
    slot is otherwise taken. *)
Definition copyVerified (obj : Objects.Store ApiDB) (a : objectAttempt) : M ApiDB unit :=
  let! b := attempt (Objects.Open obj (default "" (a_uploadKey a))) in
  match b with
  | Err _ => rthrow ErrStorage
  | Ok (body, length) =>
      do! fail_if (negb (length =? default 0 (a_size a))) (RequestsErr ErrInvalid) in
      let src := MkStream (String.substring 0 (Z.to_nat length) (content body)) (complete body) in
      let! r := attempt (Objects.PutStream obj (default "" (a_finalKey a)) src length (verify_copy a)) in
      match r with
      | Ok _ => ret tt
      | Err e => if decide (e = RequestsErr ErrInvalid) then rthrow ErrInvalid else rthrow ErrStorage
      end
  end.

Definition accepted_state (st : request_state) : bool :=
  match st with Submitted | ReqConsumed | ReqCancelled => true | _ => false end.

(** The accepting transaction: everything is checked again. *)
Definition acceptAttempt (id token attempt : string) (a : objectAttempt) (i : AttemptInput) : M ApiDB Receipt :=
  begin id token false (fun row =>
    let! current := objectAttemptTx id in
    do! fail_if (negb (ai_Generation i =? q_generation row)) (RequestsErr ErrUnavailable) in
    do! fail_if (negb (bytes_equal attempt (a_attempt current))) (RequestsErr ErrConflict) in
    if negb (bool_decide (q_state row = Uploading)) then
      do! fail_if (negb (accepted_state (q_state row))) (RequestsErr ErrConflict) in
      do! commit_check (q_expires row) in
      ret (Commit (MkReceipt (q_generation row) "submitted"))
    else
      do! fail_if (negb (bool_decide (a_finalKey current = a_finalKey a)) ||
                   negb (bool_decide (default "" (a_checksum current) = default "" (a_checksum a))))
            (RequestsErr ErrConflict) in
      let! n := sql "accept upload" (update_request id
        (fun r => bool_decide (r_state r = Uploading) && (r_generation r =? ai_Generation i) &&
                  bool_decide (r_final_key r = Some (default "" (a_finalKey a)))) rq_finalized) in
      do! requireTransition n in
      let! t := now in
      do! enqueueObjectTx (Outbox s) (default "" (a_uploadKey a)) ReasonOrphan t in
      let! t := now in
      do! fail_if (negb (before t (q_reservationExpires row))) (RequestsErr ErrUnavailable) in
      do! commit_check (q_expires row) in
      ret (Commit (MkReceipt (q_generation row) "submitted"))).

Definition finalizeAttempt (obj : Objects.Store ApiDB) (id token attempt : string) (a : objectAttempt)
    (i : AttemptInput) : M ApiDB Receipt :=
  do! copyVerified obj a in
  acceptAttempt id token attempt a i.

(** The first transaction of [Finalize]: a receipt, or the attempt to copy. *)
Definition finalizeFirst (id token attempt : string) (i : AttemptInput) : M ApiDB (Receipt + objectAttempt) :=
  begin id token false (fun row =>
    let! a := objectAttemptTx id in
    do! fail_if (negb (ai_Generation i =? q_generation row)) (RequestsErr ErrUnavailable) in
    do! fail_if (negb (bytes_equal attempt (a_attempt a))) (RequestsErr ErrConflict) in
    if negb (bool_decide (q_state row = Uploading)) then
      do! fail_if (negb (accepted_state (q_state row))) (RequestsErr ErrConflict) in
      do! commit_check (q_expires row) in
      ret (Commit (inl (MkReceipt (q_generation row) "submitted")))
    else
      do! fail_if (is_none (Objects s) || is_none (a_uploadKey a) || is_none (a_finalKey a) ||
                   match a_size a with Some n => (n <? 0) || (MaxObjectBytes s <? n) | None => true end)
            (RequestsErr ErrStorage) in
      do! commit_check (q_expires row) in
      ret (Commit (inr a))).

Definition Finalize (id token : string) (i : AttemptInput) : M ApiDB Receipt :=
  let! attempt := lift (validateAttempt i) in
  let! first := finalizeFirst id token attempt i in
  match first with
  | inl receipt => ret receipt
  | inr a =>
      match Objects s with
      | Some obj => finalizeAttempt obj id token attempt a i
      | None => rthrow ErrStorage
      end
  end.

Definition Abandon (id token : string) (i : AttemptInput) : M ApiDB Receipt :=
  let! attempt := lift (validateAttempt i) in
  let! generation := begin id token false (fun row =>
    do! fail_if (negb (q_generation row =? ai_Generation i)) (RequestsErr ErrUnavailable) in
    let! a := objectAttemptTx id in
    do! fail_if (negb (bool_decide (q_state row = Uploading)) || negb (bytes_equal attempt (a_attempt a)))
          (RequestsErr ErrConflict) in
    let! t := now in
    do! endReservationTx (Outbox s) id (q_generation row) t in
    do! commit_check (q_expires row) in
    ret (Commit (q_generation row))) in
  do! fail_if (generation =? MaxGeneration) (RequestsErr ErrUnavailable) in
  ret (MkReceipt (generation + 1) "waiting").
End store.
