(* ===== verification/RequestCleanup.v ===== *)
(** * Expiry and reconciliation of requests (src/internal/requests/cleanup.go)

    The expiry batches that share the reaper's transaction, and the bounded
    scan that deletes objects no request protects. *)

From S2P Require Import Prelude World GoTime Codec Schema AgeFormat Outbox ObjectStorage RequestStore.

(** [state = 'uploading' and reservation_expires_at <= ? and expires_at > ?]. *)
Definition reservation_lapsed (t : time) (r : request_row) : bool :=
  bool_decide (r_state r = Uploading) &&
  match r_reservation r with Some e => sql_le_fixed e t | None => false end &&
  sql_gt_fixed (r_expires r) t.

(** [expires_at <= ? and not (state = 'consumed' and final_key is not null and
    consumed_at > ?)]; a null [consumed_at] makes the condition null. *)
Definition request_expired (t : time) (r : request_row) : bool :=
  sql_le_fixed (r_expires r) t &&
  negb (bool_decide (r_state r = ReqConsumed) && is_some (r_final_key r) &&
        match r_consumed r with Some c => sql_gt_fixed c (t - openObjectGrace) | None => true end).

Definition reservation_text (r : request_row) : string := formatFixed (default zero_time (r_reservation r)).
Definition expires_text (r : request_row) : string := formatFixed (r_expires r).

Section cleanup.
Context {ENV : Env}.

Fixpoint end_reservations (ob : option outboxEnqueuer) (t : time) (l : list (string * request_row)) : M ApiDB unit :=
  match l with
  | [] => ret tt
  | (id, r) :: l => do! endReservationTx ob id (r_generation r) t in end_reservations ob t l
  end.

Fixpoint delete_requests (ob : option outboxEnqueuer) (t : time) (l : list (string * request_row)) : M ApiDB unit :=
  match l with
  | [] => ret tt
  | (id, _) :: l =>
      do! enqueueRequestKeysTx ob id ReasonExpired t in
      do! sql "delete request" (delete_request id) in
      delete_requests ob t l
  end.

Definition PurgeExpiredTx (t : time) (limit : Z) (ob : option outboxEnqueuer) : M ApiDB unit :=
  let! pending := sql_query "list lapsed reservations" (fun d =>
    select (text_order reservation_text) (fun _ => reservation_lapsed t) limit (t_requests d)) in
  do! end_reservations ob t pending in
  let! expired := sql_query "list expired requests" (fun d =>
    select (text_order expires_text) (fun _ => request_expired t) limit (t_requests d)) in
  delete_requests ob t expired.

(** ** Reconciliation *)

(** The [exists] query: some request still needs the object. *)
Definition protects (key : string) (t : time) (r : request_row) : bool :=
  (bool_decide (r_state r = ReqConsumed) && bool_decide (r_final_key r = Some key) &&
   match r_consumed r with Some c => sql_gt_fixed c (t - openObjectGrace) | None => false end) ||
  (sql_gt_fixed (r_expires r) t &&
   ((bool_decide (r_state r = Submitted) && bool_decide (r_final_key r = Some key)) ||
    (bool_decide (r_state r = Uploading) &&
     match r_reservation r with Some e => sql_gt_fixed e t | None => false end &&
     (bool_decide (r_upload_key r = Some key) || bool_decide (r_final_key r = Some key))))).

Definition request_protected (key : string) (t : time) (d : ApiDB) : bool :=
  bool_decide (map_Exists (fun _ r => protects key t r = true) (t_requests d)).

Context (s : Options).

Fixpoint reconcile_keys (t : time) (keys : list string) (count : Z) : M ApiDB Z :=
  match keys with
  | [] => ret count
  | key :: keys =>
      if negb (has_prefix ObjectPrefix key) || bool_decide (key = ObjectPrefix)
      then reconcile_keys t keys count
      else
        let! protected := sql_query "check request protection" (request_protected key t) in
        if protected : bool then reconcile_keys t keys count
        else
          let! jobID := NewJobID in
          let! n := sql "claim request object cleanup" (claim_request_pending key jobID) in
          if n =? 0 then reconcile_keys t keys count
          else
            match Outbox s with
            | None => rthrow ErrStorage
            | Some ob =>
                do! enq ob (object_job jobID key ReasonOrphan t) in
                reconcile_keys t keys (count + 1)
            end
  end.

(** The cursor and its generation, read before listing. *)
Definition read_request_cursor : M ApiDB cursor_row := sql_query "read request cursor" t_request_cursor.

Definition reconcilePage (generation : Z) (page : ObjectPage) : M ApiDB Z :=
  transaction "begin request reconciliation" "commit request reconciliation"
    (let! n := sql "advance request cursor" (update_request_cursor (NextCursor page) generation) in
     if n =? 0 then ret (Rollback 0)
     else
       let! t := now in
       let! count := reconcile_keys t (Keys page) 0 in
       do! commit_check zero_time in
       ret (Commit count)).

Definition ReconcileOnce (limit : Z) : M ApiDB Z :=
  match Objects s with
  | None => ret 0
  | Some obj =>
      do! fail_if (limit <? 1) (Fail "invalid request reconciliation batch") in
      let limit := Z.min limit 1000 in
      let! cur := read_request_cursor in
      let! listed := attempt (Objects.List obj ObjectPrefix (cu_token cur) limit) in
      match listed with
      | Err e =>
          do! (if decide (e = ErrInvalidCursor) then
                 if bool_decide (cu_token cur = "") then ret tt
                 else do! sql "reset request cursor" (update_request_cursor "" (cu_generation cur)) in ret tt
               else ret tt) in
          throw e
      | Ok page =>
          do! fail_if ((limit <? Z.of_nat (length (Keys page))) ||
                       (negb (bool_decide (NextCursor page = "")) && bool_decide (NextCursor page = cu_token cur)))
                (Fail "invalid request object page") in
          reconcilePage (cu_generation cur) page
      end
  end.
End cleanup.

Definition AcknowledgeObjectCleanup {ENV : Env} (jobID key : string) : M ApiDB unit :=
  do! fail_if (blank jobID || negb (has_prefix ObjectPrefix key) || bool_decide (key = ObjectPrefix))
        (RequestsErr ErrInvalid) in
  sql "acknowledge request object cleanup" (release_request_pending key jobID).
