(* ===== verification/RequestFrames.v ===== *)
(** * What the request operations leave alone

    Every operation of the request store, its expiry batches and its
    reconciliation keep the tables of secrets and the upload gauge, and only
    add to the outbox. *)

From S2P Require Import Prelude World GoTime Codec Schema AgeFormat Outbox ObjectStorage RequestStore RequestCleanup.

Definition same_secrets (d d' : ApiDB) : Prop :=
  t_secrets d' = t_secrets d /\ t_payloads d' = t_payloads d /\ t_management d' = t_management d /\
  t_cursor d' = t_cursor d /\ t_pending d' = t_pending d.

Definition request_only (w w' : World ApiDB) : Prop :=
  active_uploads w' = active_uploads w /\ same_secrets (db w) (db w') /\ outbox_grows (db w) (db w').

#[export] Instance request_only_stable : Stable request_only.
Proof.
  split; [split|..].
  - intros w. split_and!; [done..|reflexivity].
  - intros w1 w2 w3 (A1 & (S1 & S2 & S3 & S4 & S5) & O1) (A2 & (T1 & T2 & T3 & T4 & T5) & O2).
    split_and!; [congruence| |by etrans]. unfold same_secrets. split_and!; congruence.
  - intros w. split_and!; [done..|reflexivity].
  - intros w w1 (A & _ & _). split_and!; [done..|reflexivity].
Qed.

Lemma request_only_sql {ENV : Env} {A} msg (f : ApiDB -> option (A * ApiDB)) :
  (forall d a d', f d = Some (a, d') -> same_secrets d d' /\ t_outbox d' = t_outbox d) ->
  respects request_only (sql msg f).
Proof.
  intros Hf. apply respects_sql_world; [apply _|]. intros w a d' E. apply Hf in E as [Hs Ho].
  split_and!; [done|done|]. by apply outbox_grows_same.
Qed.

Section frames.
Context {ENV : Env} {CODEC : EventCodec}.

Lemma request_only_enq o ev : OutboxSpec o -> respects request_only (enq o ev).
Proof.
  intros Ho w. destruct (enq o ev w) as [[r|e] w'] eqn:E; simpl.
  - apply enq_ok in E as [He [Ha _]]. split_and!; [done| |by eapply outbox_grows_enqueued].
    destruct He as (row & _ & _ & ->). by split_and!.
  - apply enq_err in E as [Ed [Ha _]]. unfold request_only. rewrite Ed. split_and!; [done..|reflexivity].
Qed.

Lemma request_only_quiet {A} (m : M ApiDB A) :
  (forall w r w', m w = (r, w') -> Objects.quiet w w') -> respects request_only m.
Proof.
  intros H w. destruct (m w) as [r w'] eqn:E. apply H in E as (Ed & Ea & _). simpl.
  unfold request_only. rewrite Ed. split_and!; [done..|reflexivity].
Qed.
Lemma request_only_Open o k : Objects.Spec o -> respects request_only (Objects.Open o k).
Proof. intros. apply request_only_quiet, Objects.Open_quiet. Qed.
Lemma request_only_List o p c n : Objects.Spec o -> respects request_only (Objects.List o p c n).
Proof. intros. apply request_only_quiet, Objects.List_quiet. Qed.
Lemma request_only_Presign o k n t : Objects.Spec o -> respects request_only (Objects.PresignPUT o k n t).
Proof. intros. apply request_only_quiet, Objects.PresignPUT_quiet. Qed.
Lemma request_only_Put o k b n v : Objects.Spec o -> respects request_only (Objects.PutStream o k b n v).
Proof.
  intros Ho w. destruct (Objects.PutStream o k b n v w) as [r w'] eqn:E.
  apply Objects.PutStream_spec in E as (Ed & Ea & _). simpl.
  unfold request_only. rewrite Ed. split_and!; [done..|reflexivity].
Qed.

(** *** The statements *)
Lemma ro_update_request msg id P f : respects request_only (sql msg (update_request id P f)).
Proof.
  apply request_only_sql. intros d n d' [(_ & -> & _)|(r & _ & _ & _ & _ & _ & ->)]%update_request_Some; by split_and!.
Qed.
Lemma ro_insert_request msg id r : respects request_only (sql msg (insert_request id r)).
Proof.
  apply request_only_sql. intros d n d'. unfold insert_request. destruct (keys_unique _ _ _); [|done].
  destruct (ins _ _ _ _); [|done]. intros [= _ <-]. by split_and!.
Qed.
Lemma ro_insert_payload msg id c : respects request_only (sql msg (insert_request_payload id c)).
Proof.
  apply request_only_sql. intros d n d'. unfold insert_request_payload. destruct (is_some _); [|done].
  destruct (ins _ _ _ _); [|done]. intros [= _ <-]. by split_and!.
Qed.
Lemma ro_delete_payload msg id : respects request_only (sql msg (delete_request_payload id)).
Proof. apply request_only_sql. intros d n d' [= _ <-]. by split_and!. Qed.
Lemma ro_delete_request msg id : respects request_only (sql msg (delete_request id)).
Proof. apply request_only_sql. intros d n d' [= _ <-]. by split_and!. Qed.
Lemma ro_cursor msg t g : respects request_only (sql msg (update_request_cursor t g)).
Proof.
  apply request_only_sql. intros d n d'. unfold update_request_cursor.
  destruct (advance _ _ _). intros [= _ <-]. by split_and!.
Qed.
Lemma ro_claim msg k j : respects request_only (sql msg (claim_request_pending k j)).
Proof.
  apply request_only_sql. intros d n d'. unfold claim_request_pending.
  destruct (claim _ _ _). intros [= _ <-]. by split_and!.
Qed.
Lemma ro_release msg k j : respects request_only (sql msg (release_request_pending k j)).
Proof. apply request_only_sql. intros d n d' [= _ <-]. by split_and!. Qed.
End frames.

#[export] Hint Resolve request_only_enq request_only_Open request_only_List request_only_Presign
  request_only_Put ro_update_request ro_insert_request ro_insert_payload ro_delete_payload
  ro_delete_request ro_cursor ro_claim ro_release : flick.

(** What the request store assumes of its collaborators. *)
Class OptionsSpec {ENV : Env} `{EventCodec} (s : Options) := {
  options_objects o : Objects s = Some o -> Objects.Spec o;
  options_outbox o : Outbox s = Some o -> OutboxSpec o;
}.
Definition OutboxOk {ENV : Env} `{EventCodec} (ob : option outboxEnqueuer) : Prop :=
  forall o, ob = Some o -> OutboxSpec o.

Section operations.
Context {ENV : Env} {CODEC : EventCodec} {RC : RequestCodec}.

Lemma enqueueObjectTx_ro ob k r t : OutboxOk ob -> respects request_only (enqueueObjectTx ob k r t).
Proof. intros Ho. unfold enqueueObjectTx. destruct ob as [o|]; [pose proof (Ho o eq_refl)|]; solve_respects. Qed.
#[local] Hint Resolve enqueueObjectTx_ro : flick.
Lemma enqueueRequestKeysTx_ro ob id r t : OutboxOk ob -> respects request_only (enqueueRequestKeysTx ob id r t).
Proof. intros Ho. unfold enqueueRequestKeysTx, enqueue_key. solve_respects. Qed.
#[local] Hint Resolve enqueueRequestKeysTx_ro : flick.
Lemma endReservationTx_ro ob id g t : OutboxOk ob -> respects request_only (endReservationTx ob id g t).
Proof. intros Ho. unfold endReservationTx, requireTransition. solve_respects. Qed.
#[local] Hint Resolve endReservationTx_ro : flick.

Lemma end_reservations_ro ob t l : OutboxOk ob -> respects request_only (end_reservations ob t l).
Proof. intros Ho. induction l as [|[id r] l IH]; cbn [end_reservations]; solve_respects. Qed.
Lemma delete_requests_ro ob t l : OutboxOk ob -> respects request_only (delete_requests ob t l).
Proof. intros Ho. induction l as [|[id r] l IH]; cbn [delete_requests]; solve_respects. Qed.
#[local] Hint Resolve end_reservations_ro delete_requests_ro : flick.
Lemma PurgeExpiredTx_ro t n ob : OutboxOk ob -> respects request_only (PurgeExpiredTx t n ob).
Proof. intros Ho. unfold PurgeExpiredTx. solve_respects. Qed.

Context (s : Options) `{!OptionsSpec s}.

Lemma options_outbox_ok : OutboxOk (Outbox s).
Proof. intros o. apply options_outbox. Qed.
#[local] Hint Resolve options_outbox_ok options_objects options_outbox : flick.

Lemma authorized_ro id h o : respects request_only (authorized id h o).
Proof. unfold authorized, rthrow. solve_respects. Qed.
Lemma commit_check_ro t : respects request_only (commit_check t).
Proof. unfold commit_check. solve_respects. Qed.
#[local] Hint Resolve authorized_ro commit_check_ro : flick.

Lemma begin_pass_ro {A} id h o (body : reqrecord -> M ApiDB (txout A)) :
  (forall r, respects request_only (body r)) -> respects request_only (begin_pass s id h o body).
Proof. intros Hb. unfold begin_pass. solve_respects. Qed.
Lemma begin_ro {A} id tok o (body : reqrecord -> M ApiDB (txout A)) :
  (forall r, respects request_only (body r)) -> respects request_only (begin s id tok o body).
Proof.
  intros Hb. unfold begin, rthrow. destruct (tokenHash tok); [|solve_respects].
  apply respects_bind; [apply _|by apply begin_pass_ro|]. intros [x|]; [solve_respects|].
  apply respects_bind; [apply _|by apply begin_pass_ro|]. intros [x|]; solve_respects.
Qed.

(** Walk an operation whose transaction is [begin]. *)
Ltac ro :=
  repeat first [ apply begin_ro; intros | respects_step ].

Lemma Create_ro k t : respects request_only (Create s k t).
Proof. unfold Create. ro. Qed.
Lemma read_ro id tok o : respects request_only (read s id tok o).
Proof. unfold read, rthrow. ro. Qed.
#[local] Hint Resolve read_ro : flick.
Lemma Instructions_ro id tok : respects request_only (Instructions s id tok).
Proof. unfold Instructions. ro. Qed.
Lemma Owner_ro id tok : respects request_only (Owner s id tok).
Proof. unfold Owner. ro. Qed.
Lemma clearPayloadTx_ro id p st r : respects request_only (clearPayloadTx s id p st r).
Proof. unfold clearPayloadTx, requireTransition. ro. Qed.
#[local] Hint Resolve clearPayloadTx_ro : flick.
Lemma objectAttemptTx_ro id : respects request_only (objectAttemptTx id).
Proof. unfold objectAttemptTx. ro. Qed.
#[local] Hint Resolve objectAttemptTx_ro : flick.
Lemma Submit_ro id tok i : respects request_only (Submit s id tok i).
Proof. unfold Submit, requireTransition, rthrow. ro. Qed.
Lemma Attempt_ro id tok g a : respects request_only (Attempt s id tok g a).
Proof. unfold Attempt. ro. Qed.
Lemma openFirst_ro id tok : respects request_only (openFirst s id tok).
Proof. unfold openFirst. ro. Qed.
Lemma consumeObject_ro id tok k : respects request_only (consumeObject s id tok k).
Proof. unfold consumeObject, requireTransition. ro. Qed.
#[local] Hint Resolve openFirst_ro consumeObject_ro : flick.
Lemma Open_ro id tok : respects request_only (Open s id tok).
Proof. unfold Open, rthrow. ro. Qed.
Lemma FinishOpen_ro id k : respects request_only (FinishOpen s id k).
Proof. unfold FinishOpen. ro. Qed.
Lemma Revoke_ro id tok : respects request_only (Revoke s id tok).
Proof. unfold Revoke. ro. Qed.
Lemma reserveFirst_ro id tok a d e c i : respects request_only (reserveFirst s id tok a d e c i).
Proof. unfold reserveFirst, requireTransition, rthrow. ro. Qed.
#[local] Hint Resolve reserveFirst_ro : flick.
Lemma Reserve_ro id tok i : respects request_only (Reserve s id tok i).
Proof. unfold Reserve, rthrow. ro. Qed.
Lemma copyVerified_ro o a : Objects.Spec o -> respects request_only (copyVerified o a).
Proof. intros Ho. unfold copyVerified, rthrow. ro. Qed.
Lemma acceptAttempt_ro id tok at_ a i : respects request_only (acceptAttempt s id tok at_ a i).
Proof. unfold acceptAttempt, requireTransition. ro. Qed.
Lemma finalizeFirst_ro id tok at_ i : respects request_only (finalizeFirst s id tok at_ i).
Proof. unfold finalizeFirst. ro. Qed.
#[local] Hint Resolve copyVerified_ro acceptAttempt_ro finalizeFirst_ro : flick.
Lemma Finalize_ro id tok i : respects request_only (Finalize s id tok i).
Proof. unfold Finalize, finalizeAttempt, rthrow. ro. Qed.
Lemma Abandon_ro id tok i : respects request_only (Abandon s id tok i).
Proof. unfold Abandon. ro. Qed.
Lemma reconcile_keys_ro t l n : respects request_only (RequestCleanup.reconcile_keys s t l n).
Proof.
  revert n. induction l as [|k l IH]; intros n; cbn [RequestCleanup.reconcile_keys]; unfold rthrow; ro.
Qed.
#[local] Hint Resolve reconcile_keys_ro : flick.
Lemma ReconcileOnce_ro n : respects request_only (RequestCleanup.ReconcileOnce s n).
Proof. unfold RequestCleanup.ReconcileOnce, read_request_cursor, RequestCleanup.reconcilePage. ro. Qed.
Lemma AcknowledgeObjectCleanup_ro j k : respects request_only (RequestCleanup.AcknowledgeObjectCleanup j k).
Proof. unfold RequestCleanup.AcknowledgeObjectCleanup. ro. Qed.
End operations.
