(* ===== verification/RequestProofs.v ===== *)
(** * Correctness of request links

    The state machine every operation moves along ([req_le]), at most one
    accepted submission, no object key dropped without its delete job, and what
    a finalized object contains. *)

From S2P Require Import Prelude World GoTime Codec Schema AgeFormat Outbox ObjectStorage RequestStore RequestCleanup RequestFrames.

(** ** The state machine

    A request moves through waiting, uploading, submitted and a terminal state
    within a generation; only a lapsed or abandoned reservation goes back to
    waiting, in the next generation, and there are sixteen.  From submission on
    the accepted attempt is fixed. *)
Definition phase (st : request_state) : Z :=
  match st with Waiting => 0 | Uploading => 1 | Submitted => 2 | _ => 3 end.

Definition req_identity (r : request_row) :=
  (r_public_key r, r_fingerprint r, r_submission_hash r, r_retrieval_hash r, r_expires r).

Record req_le (r r' : request_row) : Prop := {
  rl_identity : req_identity r' = req_identity r;
  rl_progress : r_generation r < r_generation r' \/
    (r_generation r = r_generation r' /\ phase (r_state r) <= phase (r_state r'));
  rl_accepted : 2 <= phase (r_state r) ->
    r_generation r' = r_generation r /\ r_attempt r' = r_attempt r /\ r_body_hash r' = r_body_hash r;
  rl_terminal : 3 <= phase (r_state r) -> 3 <= phase (r_state r');
  rl_consumed : r_state r = ReqConsumed -> r_state r' = ReqConsumed /\ r_consumed r' = r_consumed r;
  rl_reserved : r_generation r' = r_generation r -> r_state r = Uploading -> r_state r' = Uploading ->
    r_upload_key r' = r_upload_key r /\ r_final_key r' = r_final_key r;
  rl_dead : r_state r = ReqCancelled \/ r_state r = ReqUnavailable -> r_state r' <> ReqConsumed;
}.

Lemma phase_range st : 0 <= phase st <= 3.
Proof. destruct st; simpl; lia. Qed.

#[export] Instance req_le_preorder : PreOrder req_le.
Proof.
  split.
  - intros r. split; auto; [lia|by intros [-> | ->]].
  - intros r1 r2 r3 [I1 P1 A1 T1 C1 K1 D1] [I2 P2 A2 T2 C2 K2 D2]. split; [congruence|lia| |lia| | |].
    + intros H. destruct (A1 H) as (G1 & E1 & B1).
      destruct A2 as (G2 & E2 & B2); [lia|]. split_and!; congruence.
    + intros H. destruct (C1 H) as [S1 E1]. destruct (C2 S1) as [S2 E2]. split; congruence.
    + intros Hg Hu1 Hu3. rewrite Hu1, Hu3 in *. simpl in *.
      assert (Hu2 : r_state r2 = Uploading) by (destruct (r_state r2); simpl in *; (done || lia)).
      destruct K1 as [? ?]; [lia|done|done|]. destruct K2 as [? ?]; [lia|done|done|]. split; congruence.
    + intros H. specialize (D1 H). assert (Hp : 3 <= phase (r_state r2)) by (apply T1; destruct H as [-> | ->]; done).
      apply D2. destruct (r_state r2); simpl in Hp; try lia; auto; done.
Qed.

Definition req_lookup_le (o o' : option request_row) : Prop :=
  match o, o' with
  | _, None => True
  | Some r, Some r' => req_le r r'
  | None, Some _ => False
  end.
#[export] Instance req_lookup_le_refl : Reflexive req_lookup_le.
Proof. intros [r|]; simpl; [reflexivity|done]. Qed.

Definition req_evolves_at (id : string) (d d' : ApiDB) : Prop :=
  req_lookup_le (t_requests d !! id) (t_requests d' !! id).
Definition req_evolves (d d' : ApiDB) : Prop := forall id, req_evolves_at id d d'.

#[export] Instance req_evolves_at_preorder id : PreOrder (req_evolves_at id).
Proof.
  unfold req_evolves_at. split; [intros d; reflexivity|]. intros d1 d2 d3 H1 H2.
  destruct (t_requests d1 !! id), (t_requests d2 !! id), (t_requests d3 !! id); simpl in *; try done.
  by etrans.
Qed.
#[export] Instance req_evolves_preorder : PreOrder req_evolves.
Proof.
  split; [intros d id; reflexivity|]. intros d1 d2 d3 H1 H2 id. etrans; [apply H1|apply H2].
Qed.

Lemma req_evolves_same d d' : t_requests d' = t_requests d -> req_evolves d d'.
Proof. intros E id. unfold req_evolves_at. rewrite E. reflexivity. Qed.

(** *** The updates *)
Ltac solve_req_le Hs :=
  split; simpl; rewrite ?Hs; simpl; try done; try lia; try (by intros [|]).

Lemma reservation_ended_le g r :
  r_state r = Uploading -> r_generation r = g -> req_le r (rq_reservation_ended g r).
Proof.
  intros Hs <-. unfold rq_reservation_ended.
  destruct (Z.eqb_spec (r_generation r) MaxGeneration); solve_req_le Hs.
Qed.
Lemma submitted_le a b k n e r : r_state r = Waiting -> req_le r (rq_submitted a b k n e r).
Proof. intros Hs. solve_req_le Hs. Qed.
Lemma reserved_le a b n e c u f t r : r_state r = Waiting -> req_le r (rq_reserved a b n e c u f t r).
Proof. intros Hs. solve_req_le Hs. Qed.
Lemma finalized_le r : r_state r = Uploading -> req_le r (rq_finalized r).
Proof. intros Hs. solve_req_le Hs. Qed.
Lemma object_consumed_le t r : r_state r = Submitted -> req_le r (rq_object_consumed t r).
Proof. intros Hs. solve_req_le Hs. Qed.
Lemma final_dropped_le r : r_state r = ReqConsumed -> req_le r (rq_final_dropped r).
Proof. intros Hs. solve_req_le Hs. Qed.
Lemma cleared_consumed_le t r : r_state r = Submitted -> req_le r (rq_cleared ReqConsumed t r).
Proof. intros Hs. solve_req_le Hs. Qed.
Lemma cleared_cancelled_le t r : r_state r <> ReqConsumed -> req_le r (rq_cleared ReqCancelled t r).
Proof.
  intros Hs. split; simpl; try done.
  - right. split; [done|]. apply phase_range.
  - intros Hp. rewrite bool_decide_false; [done|]. intros E. rewrite E in Hp. simpl in Hp. lia.
Qed.

Section evolution.
Context {ENV : Env} {CODEC : EventCodec} {RC : RequestCodec}.

Lemma re_update msg id P f :
  (forall r, P r = true -> req_le r (f r)) -> respects (on_db req_evolves) (sql msg (update_request id P f)).
Proof.
  intros Hf. apply respects_sql; [apply _|].
  intros d n d' [(_ & -> & _)|(r & _ & Hr & HP & _ & _ & ->)]%update_request_Some; [reflexivity|].
  intros id'. unfold req_evolves_at. simpl. destruct (decide (id' = id)) as [->|Hne].
  - rewrite lookup_insert_eq, Hr. simpl. auto.
  - rewrite lookup_insert_ne by done. reflexivity.
Qed.
Lemma re_sql_same {A} msg (f : ApiDB -> option (A * ApiDB)) :
  (forall d a d', f d = Some (a, d') -> t_requests d' = t_requests d) -> respects (on_db req_evolves) (sql msg f).
Proof. intros Hf. apply respects_sql; [apply _|]. intros d a d' E. apply req_evolves_same. eauto. Qed.
Lemma re_request_cursor msg t g : respects (on_db req_evolves) (sql msg (update_request_cursor t g)).
Proof.
  apply re_sql_same. intros d x d'. unfold update_request_cursor. destruct (advance _ _ _). by intros [= _ <-].
Qed.
Lemma re_enq o ev : OutboxSpec o -> respects (on_db req_evolves) (enq o ev).
Proof.
  intros Ho. apply respects_enq; [apply _..|]. intros d d' (row & _ & _ & ->). by apply req_evolves_same.
Qed.
Lemma re_insert_payload msg id c : respects (on_db req_evolves) (sql msg (insert_request_payload id c)).
Proof.
  apply re_sql_same. intros d n d'. unfold insert_request_payload. destruct (is_some _); [|done].
  destruct (ins _ _ _ _); [|done]. by intros [= _ <-].
Qed.
Lemma re_delete_payload msg id : respects (on_db req_evolves) (sql msg (delete_request_payload id)).
Proof. apply re_sql_same. by intros d n d' [= _ <-]. Qed.
Lemma re_delete msg id : respects (on_db req_evolves) (sql msg (delete_request id)).
Proof.
  apply respects_sql; [apply _|]. intros d n d' [= _ <-] id'. unfold req_evolves_at. simpl.
  destruct (decide (id' = id)) as [->|Hne]; [rewrite lookup_delete_eq; by destruct (_ !! _)|].
  rewrite lookup_delete_ne by done. reflexivity.
Qed.
#[local] Hint Resolve re_enq re_insert_payload re_delete_payload re_delete : flick.

Lemma enqueueObjectTx_re ob k r t : OutboxOk ob -> respects (on_db req_evolves) (enqueueObjectTx ob k r t).
Proof.
  intros Ho. unfold enqueueObjectTx, rthrow. destruct ob as [o|]; [pose proof (Ho o eq_refl)|]; solve_respects.
Qed.
#[local] Hint Resolve enqueueObjectTx_re : flick.
Lemma enqueueRequestKeysTx_re ob id r t : OutboxOk ob -> respects (on_db req_evolves) (enqueueRequestKeysTx ob id r t).
Proof. intros Ho. unfold enqueueRequestKeysTx, enqueue_key. solve_respects. Qed.
#[local] Hint Resolve enqueueRequestKeysTx_re : flick.
Lemma endReservationTx_re ob id g t : OutboxOk ob -> respects (on_db req_evolves) (endReservationTx ob id g t).
Proof.
  intros Ho. unfold endReservationTx, requireTransition. solve_respects. apply re_update.
  intros rw HP. destruct_bools. by apply reservation_ended_le.
Qed.
#[local] Hint Resolve endReservationTx_re : flick.
Lemma end_reservations_re ob t l : OutboxOk ob -> respects (on_db req_evolves) (end_reservations ob t l).
Proof. intros Ho. induction l as [|[id r] l IH]; cbn [end_reservations]; solve_respects. Qed.
Lemma delete_requests_re ob t l : OutboxOk ob -> respects (on_db req_evolves) (delete_requests ob t l).
Proof. intros Ho. induction l as [|[id r] l IH]; cbn [delete_requests]; solve_respects. Qed.
#[local] Hint Resolve end_reservations_re delete_requests_re : flick.
Lemma PurgeExpiredTx_re t n ob : OutboxOk ob -> respects (on_db req_evolves) (PurgeExpiredTx t n ob).
Proof. intros Ho. unfold PurgeExpiredTx. solve_respects. Qed.

Context (s : Options) `{!OptionsSpec s}.
#[local] Hint Resolve options_outbox_ok options_objects options_outbox : flick.

Lemma authorized_reads (R : relation (World ApiDB)) `{!Stable R} id h o : respects R (authorized id h o).
Proof. unfold authorized, rthrow. solve_respects. Qed.
Lemma commit_check_reads (R : relation (World ApiDB)) `{!Stable R} t : respects R (commit_check t).
Proof. unfold commit_check. solve_respects. Qed.
Lemma objectAttemptTx_reads (R : relation (World ApiDB)) `{!Stable R} id : respects R (objectAttemptTx id).
Proof. unfold objectAttemptTx. solve_respects. Qed.
#[local] Hint Resolve authorized_reads commit_check_reads objectAttemptTx_reads : flick.

Lemma begin_re {A} id tok o (body : reqrecord -> M ApiDB (txout A)) :
  (forall r, respects (on_db req_evolves) (body r)) -> respects (on_db req_evolves) (begin s id tok o body).
Proof.
  intros Hb.
  assert (Hp : forall h, respects (on_db req_evolves) (begin_pass s id h o body))
    by (intros h; unfold begin_pass; solve_respects).
  unfold begin, rthrow. destruct (tokenHash tok); [|solve_respects].
  apply respects_bind; [apply _|done|]. intros [x|]; [solve_respects|].
  apply respects_bind; [apply _|done|]. intros [x|]; solve_respects.
Qed.
Ltac re :=
  repeat first [ progress intros | solve [eauto 4 with flick typeclass_instances]
               | apply begin_re; intros | respects_step ].

Lemma Submit_re id tok i : respects (on_db req_evolves) (Submit s id tok i).
Proof.
  unfold Submit, requireTransition, rthrow. re. apply re_update. intros rw HP. destruct_bools. by apply submitted_le.
Qed.
Lemma read_re id tok o : respects (on_db req_evolves) (read s id tok o).
Proof. unfold read, rthrow. re. Qed.
#[local] Hint Resolve read_re : flick.
Lemma Instructions_re id tok : respects (on_db req_evolves) (Instructions s id tok).
Proof. unfold Instructions. re. Qed.
Lemma Owner_re id tok : respects (on_db req_evolves) (Owner s id tok).
Proof. unfold Owner. re. Qed.
Lemma Attempt_re id tok g a : respects (on_db req_evolves) (Attempt s id tok g a).
Proof. unfold Attempt. re. Qed.

Lemma openFirst_re id tok : respects (on_db req_evolves) (openFirst s id tok).
Proof.
  unfold openFirst. apply begin_re. intros row.
  destruct (decide (q_state row = Submitted)) as [Hs|Hs].
  - re. apply re_update. intros rw HP. destruct_bools. apply cleared_consumed_le. congruence.
  - rewrite bool_decide_false by done. unfold fail_if. simpl. intros w. simpl. reflexivity.
Qed.
Lemma consumeObject_re id tok k : respects (on_db req_evolves) (consumeObject s id tok k).
Proof.
  unfold consumeObject, requireTransition. re. apply re_update. intros rw HP. destruct_bools.
  by apply object_consumed_le.
Qed.
#[local] Hint Resolve openFirst_re consumeObject_re : flick.
Lemma Open_re id tok : respects (on_db req_evolves) (Open s id tok).
Proof. unfold Open, rthrow. re. Qed.
Lemma FinishOpen_re id k : respects (on_db req_evolves) (FinishOpen s id k).
Proof. unfold FinishOpen. re. apply re_update. intros rw HP. destruct_bools. by apply final_dropped_le. Qed.
Lemma Revoke_re id tok : respects (on_db req_evolves) (Revoke s id tok).
Proof.
  unfold Revoke. apply begin_re. intros row.
  destruct (decide (q_state row = ReqConsumed)) as [Hs|Hs].
  - rewrite bool_decide_true by done. unfold fail_if. intros w. simpl. reflexivity.
  - re. apply re_update. intros rw HP. destruct_bools. apply cleared_cancelled_le. congruence.
Qed.
Lemma reserveFirst_re id tok a d e c i : respects (on_db req_evolves) (reserveFirst s id tok a d e c i).
Proof.
  unfold reserveFirst, requireTransition, rthrow. re.
  apply re_update. intros rw HP. destruct_bools. by apply reserved_le.
Qed.
#[local] Hint Resolve reserveFirst_re : flick.
Lemma Reserve_re id tok i : respects (on_db req_evolves) (Reserve s id tok i).
Proof. unfold Reserve, rthrow. re. Qed.
Lemma acceptAttempt_re id tok at_ a i : respects (on_db req_evolves) (acceptAttempt s id tok at_ a i).
Proof.
  unfold acceptAttempt, requireTransition. re. apply re_update. intros rw HP. destruct_bools. by apply finalized_le.
Qed.
Lemma finalizeFirst_re id tok at_ i : respects (on_db req_evolves) (finalizeFirst s id tok at_ i).
Proof. unfold finalizeFirst. re. Qed.
#[local] Hint Resolve acceptAttempt_re finalizeFirst_re : flick.
Lemma finalizeAttempt_re obj id tok at_ a i :
  Objects.Spec obj -> respects (on_db req_evolves) (finalizeAttempt s obj id tok at_ a i).
Proof. intros Ho. unfold finalizeAttempt, copyVerified, rthrow. re. Qed.
#[local] Hint Resolve finalizeAttempt_re : flick.
Lemma Finalize_re id tok i : respects (on_db req_evolves) (Finalize s id tok i).
Proof. unfold Finalize, rthrow. re. Qed.
Lemma Abandon_re id tok i : respects (on_db req_evolves) (Abandon s id tok i).
Proof. unfold Abandon. re. Qed.
Lemma reconcilePage_re g page : respects (on_db req_evolves) (reconcilePage s g page).
Proof.
  assert (Hk : forall t l c, respects (on_db req_evolves) (reconcile_keys s t l c)).
  { intros t l. induction l as [|k l IH]; intros c; cbn [reconcile_keys]; unfold rthrow; re.
    apply re_sql_same. intros d x d'. unfold claim_request_pending. destruct (claim _ _ _). by intros [= _ <-]. }
  unfold reconcilePage. re. by apply re_request_cursor.
Qed.
#[local] Hint Resolve reconcilePage_re re_request_cursor : flick.
Lemma ReconcileOnce_re n : respects (on_db req_evolves) (ReconcileOnce s n).
Proof. unfold ReconcileOnce, read_request_cursor. re. Qed.
Lemma AcknowledgeObjectCleanup_re j k : respects (on_db req_evolves) (AcknowledgeObjectCleanup j k).
Proof. unfold AcknowledgeObjectCleanup. re. apply re_sql_same. by intros d x d' [= _ <-]. Qed.
End evolution.
