(* ===== verification/RequestObjects.v ===== *)
(** * Request objects are never leaked

    Every bucket key a request has held stays recorded in its row until a
    delete job for it is in the outbox, in the same commit; and the final key
    is only ever written with bytes that match the reserved checksum. *)

From S2P Require Import Prelude World GoTime Codec Schema AgeFormat Outbox ObjectStorage RequestStore RequestCleanup RequestFrames RequestProofs.

(** A delete job for the object is (or was) queued. *)
Definition has_job `{EventCodec} (key : string) (d : ApiDB) : Prop :=
  exists jid row ev, t_outbox d !! jid = Some row /\ ObjectKey ev = key /\
    Kind ev = KindDeleteOCIObject /\ JSON ev = Ok (o_payload row).

Definition row_key (r : request_row) (key : string) : Prop :=
  r_upload_key r = Some key \/ r_final_key r = Some key.
Definition holds_key (id key : string) (d : ApiDB) : Prop :=
  exists r, t_requests d !! id = Some r /\ row_key r key.

(** A waiting request holds no key. *)
Definition waiting_clean (d : ApiDB) : Prop :=
  map_Forall (fun _ r => r_state r = Waiting -> r_upload_key r = None /\ r_final_key r = None) (t_requests d).

Definition no_key_lost `{EventCodec} (d d' : ApiDB) : Prop :=
  outbox_grows d d' /\
  (waiting_clean d -> waiting_clean d' /\
     forall id key, holds_key id key d -> holds_key id key d' \/ has_job key d').

Section jobs.
Context {CODEC : EventCodec}.

Lemma has_job_grows key d d' : outbox_grows d d' -> has_job key d -> has_job key d'.
Proof.
  intros Hg (jid & row & ev & Hr & Hk & Hd & Hj). destruct (Hg _ _ Hr) as (row' & Hr' & _ & Hp & _).
  exists jid, row', ev. by rewrite Hp.
Qed.

#[global] Instance no_key_lost_preorder : PreOrder no_key_lost.
Proof.
  split.
  - intros d. split; [reflexivity|]. auto.
  - intros d1 d2 d3 [G1 K1] [G2 K2]. split; [by etrans|]. intros Hw.
    destruct (K1 Hw) as [Hw2 H12]. destruct (K2 Hw2) as [Hw3 H23]. split; [done|].
    intros id key Hk. destruct (H12 id key Hk) as [Hk'|Hj]; [by apply H23|].
    right. by eapply has_job_grows.
Qed.

Lemma enqueued_has_job ev d d' :
  Kind ev = KindDeleteOCIObject -> enqueued ev d d' -> has_job (ObjectKey ev) d'.
Proof.
  intros Hk (row & (_ & _ & carrier & Hj) & _ & ->).
  exists (JobID ev), row, (with_trace carrier ev). split_and!; [apply lookup_insert_eq| | |done].
  all: unfold with_trace; by case_bool_decide.
Qed.

Lemma no_key_lost_same d d' : t_requests d' = t_requests d -> outbox_grows d d' -> no_key_lost d d'.
Proof.
  intros E Hg. split; [done|]. intros Hw. unfold waiting_clean, holds_key. rewrite E. auto.
Qed.

(** One row changes: each key it had is still there or has its job. *)
Lemma no_key_lost_update d d' id r r' :
  t_requests d !! id = Some r -> t_requests d' = <[id := r']> (t_requests d) -> outbox_grows d d' ->
  (r_state r' = Waiting -> r_upload_key r' = None /\ r_final_key r' = None) ->
  ((r_state r = Waiting -> r_upload_key r = None /\ r_final_key r = None) ->
     forall key, row_key r key -> row_key r' key \/ has_job key d') ->
  no_key_lost d d'.
Proof.
  intros Hr E Hg Hw' Hk. split; [done|]. intros Hw. split.
  - unfold waiting_clean. rewrite E. by apply map_Forall_insert_2.
  - intros id' key (x & Hx & Hkey). unfold holds_key. rewrite E.
    destruct (decide (id' = id)) as [->|Hne].
    + assert (x = r) as -> by congruence. destruct (Hk (Hw id r Hr) key Hkey) as [?|?]; [|by right].
      left. exists r'. by rewrite lookup_insert_eq.
    + left. exists x. by rewrite lookup_insert_ne.
Qed.
End jobs.

Section objects.
Context {ENV : Env} {CODEC : EventCodec} {RC : RequestCodec}.
Implicit Types w : World ApiDB.

Lemma enqueueObjectTx_ok ob key reason t w u w' :
  OutboxOk ob -> enqueueObjectTx ob key reason t w = (Ok u, w') ->
  has_job key (db w') /\ t_requests (db w') = t_requests (db w) /\ outbox_grows (db w) (db w').
Proof.
  intros Ho H. unfold enqueueObjectTx in H. destruct ob as [o|]; [|by msteps H].
  pose proof (Ho o eq_refl). unfold NewJobID in H.
  apply bind_ok in H as (u1 & w1 & H1 & H). mstep H1.
  apply bind_ok in H as (j & w2 & Hj & H). msteps Hj.
  apply bind_ok in H as (rec & w3 & He & H). msteps H.
  apply enq_ok in He as [He _]. simpl in He. split_and!.
  - by apply (enqueued_has_job (object_job _ key reason t) _ _ eq_refl He).
  - by destruct He as (row & _ & _ & ->).
  - by eapply outbox_grows_enqueued.
Qed.

Lemma enqueueRequestKeysTx_ok ob id reason t w u w' :
  OutboxOk ob -> enqueueRequestKeysTx ob id reason t w = (Ok u, w') ->
  exists r, t_requests (db w) !! id = Some r /\ t_requests (db w') = t_requests (db w) /\
    outbox_grows (db w) (db w') /\ forall key, row_key r key -> has_job key (db w').
Proof.
  intros Ho H. unfold enqueueRequestKeysTx in H.
  apply bind_ok in H as (row & w1 & Hq & H). mstep Hq. simpl in H.
  destruct (t_requests (db w) !! id) as [r|] eqn:Er; [|by msteps H]. exists r. split; [done|].
  apply bind_ok in H as (u1 & w2 & Hu & H).
  assert (H1 : t_requests (db w2) = t_requests (db w) /\ outbox_grows (db w) (db w2) /\
    forall key, r_upload_key r = Some key -> has_job key (db w2)).
  { unfold enqueue_key in Hu. destruct (r_upload_key r) as [k|]; [|msteps Hu; split_and!; [done|reflexivity|done]].
    apply enqueueObjectTx_ok in Hu as (Hj & E & Hg); [|done]. split_and!; [done|done|]. by intros key [= <-]. }
  destruct H1 as (E1 & G1 & J1).
  assert (H2 : t_requests (db w') = t_requests (db w2) /\ outbox_grows (db w2) (db w') /\
    forall key, r_final_key r = Some key -> has_job key (db w')).
  { unfold enqueue_key in H. destruct (r_final_key r) as [k|]; [|msteps H; split_and!; [done|reflexivity|done]].
    apply enqueueObjectTx_ok in H as (Hj & E & Hg); [|done]. split_and!; [done|done|]. by intros key [= <-]. }
  destruct H2 as (E2 & G2 & J2). split_and!; [congruence|by etrans|].
  intros key [Hk|Hk]; [|by apply J2]. eapply has_job_grows; [exact G2|by apply J1].
Qed.

(** An update after the keys were enqueued, or one that keeps them. *)
Lemma update_request_ok msg id P f n w w' :
  sql msg (update_request id P f) w = (Ok n, w') ->
  (n = 0 /\ db w' = db w) \/
  (n = 1 /\ exists r, t_requests (db w) !! id = Some r /\ P r = true /\
     db w' = set_requests (<[id := f r]> (t_requests (db w))) (db w)).
Proof.
  intros H. mstep H. apply update_request_Some in H as [(-> & -> & _)|(r & -> & Hr & HP & _ & _ & ->)];
    [left; by destruct w|right; eauto].
Qed.

Lemma endReservationTx_ok ob id g t w u w' :
  OutboxOk ob -> endReservationTx ob id g t w = (Ok u, w') ->
  no_key_lost (db w) (db w') /\ exists r, t_requests (db w) !! id = Some r /\ r_state r = Uploading /\
    t_requests (db w') = <[id := rq_reservation_ended g r]> (t_requests (db w)).
Proof.
  intros Ho H. unfold endReservationTx, requireTransition in H.
  apply bind_ok in H as (u1 & w1 & He & H).
  apply enqueueRequestKeysTx_ok in He as (r & Hr & E & Hg & Hj); [|done].
  apply bind_ok in H as (n & w2 & Hu & H). mstep H.
  apply update_request_ok in Hu as [(-> & _)|(-> & r' & Hr' & HP & Ed)]; [done|].
  rewrite E in Hr'. assert (r' = r) as -> by congruence. destruct_bools. split.
  - apply (no_key_lost_update _ _ id r (rq_reservation_ended g r)); [done| | |done|].
    + rewrite Ed. simpl. by rewrite E.
    + etrans; [exact Hg|]. rewrite Ed. by apply outbox_grows_same.
    + intros _ key Hk. right. rewrite Ed. eapply has_job_grows; [|by apply Hj]. by apply outbox_grows_same.
  - exists r. split_and!; [done|done|]. rewrite Ed. simpl. by rewrite E.
Qed.

(** ** Transactions opened by [begin] *)
Definition view (r : request_row) : reqrecord :=
  MkRecord (r_public_key r) (r_fingerprint r) (r_state r) (r_expires r) (r_generation r)
    (default zero_time (r_reservation r)).

Lemma authorized_ok id h o w q w' :
  authorized id h o w = (Ok q, w') ->
  exists r, t_requests (db w) !! id = Some r /\ q = view r /\ db w' = db w /\
    h = (if o then r_retrieval_hash r else r_submission_hash r) /\ r_state r <> ReqUnavailable /\
    exists t, t < r_expires r.
Proof.
  unfold authorized. intros H. apply bind_ok in H as (row & w1 & Hq & H). mstep Hq.
  destruct (t_requests (db w) !! id) as [r|]; [|by msteps H]. msteps H.
  repeat match goal with Hx : _ || _ = false |- _ => apply orb_false_iff in Hx as [? ?] end.
  destruct_bools. exists r. split_and!; eauto.
Qed.

(** A pass of [begin] that reached the body, or ended a lapsed reservation. *)
Lemma begin_body_ok {A} (s : Options) id h o (body : reqrecord -> M ApiDB (txout A)) w out w' :
  (let! locked := sql_query "lock request" (fun _ => tt) in
   let! r := authorized id h o in
   let! lapsed := (if bool_decide (q_state r = Uploading)
                   then let! t := now in ret (negb (before t (q_reservationExpires r))) else ret false) in
   if (lapsed : bool) then
     let! t := now in
     do! endReservationTx (Outbox s) id (q_generation r) t in
     do! commit_check (q_expires r) in
     ret (Commit None)
   else
     let! out := body r in
     ret (match out with Commit a => Commit (Some a) | Rollback a => Rollback (Some a) end)) w = (Ok out, w') ->
  exists r w1, t_requests (db w) !! id = Some r /\ db w1 = db w /\
    ((exists w2 t, out = Commit None /\ endReservationTx (Outbox s) id (r_generation r) t w1 = (Ok tt, w2) /\
        db w' = db w2) \/
     (exists x, body (view r) w1 = (Ok x, w') /\
        out = match x with Commit a => Commit (Some a) | Rollback a => Rollback (Some a) end)).
Proof.
  intros H. apply bind_ok in H as (u0 & w1 & Hq & H). mstep Hq.
  apply bind_ok in H as (q & w2 & Ha & H). apply authorized_ok in Ha as (r & Hr & -> & Ed & _). simpl in Hr, Ed.
  apply bind_ok in H as (lapsed & w3 & Hl & H).
  assert (Ed3 : db w3 = db w2) by (case_bool_decide; msteps Hl; done).
  exists r. destruct lapsed.
  - apply bind_ok in H as (t & w4 & Ht & H). mstep Ht.
    apply bind_ok in H as ([] & w5 & He & H). apply bind_ok in H as (u & w6 & Hc & H). msteps H.
    exists (bump w3). split_and!; [done|simpl; congruence|]. left. exists w5, (clk (tick w3)). split_and!; [done|done|].
    eapply reads_only_db; [|exact Hc]. by apply commit_check_reads, _.
  - apply bind_ok in H as (x & w4 & Hb & H). msteps H.
    exists w3. split_and!; [done|congruence|]. right. eauto.
Qed.

Section begin_commit.
Context (s : Options) (R : relation ApiDB) `{!PreOrder R} (I : ApiDB -> Prop) (id : string).
Context (Hend : forall g t w u w', I (db w) -> endReservationTx (Outbox s) id g t w = (Ok u, w') ->
  R (db w) (db w') /\ I (db w')).

Lemma begin_commit_inv {A} tok o (body : reqrecord -> M ApiDB (txout A)) :
  (forall r w a w1, I (db w) -> t_requests (db w) !! id = Some r -> body (view r) w = (Ok (Commit a), w1) ->
     R (db w) (db w1)) ->
  forall w, I (db w) -> R (db w) (db (begin s id tok o body w).2).
Proof.
  intros Hb.
  assert (Hp : forall h w res w', I (db w) -> begin_pass s id h o body w = (res, w') ->
    R (db w) (db w') /\ (res = Ok None -> I (db w'))).
  { intros h w res w' HI H. unfold begin_pass, transaction in H.
    destruct (db_fault (tick w)); [injection H as <- <-; by split; [reflexivity|]|].
    destruct (bind _ _ _) as [[out|e] w1] eqn:E in H; [|injection H as <- <-; by split; [reflexivity|]].
    apply begin_body_ok in E as (r & w2 & Hr & Ed & E). simpl in Hr, Ed.
    destruct E as [(w3 & t & -> & He & E)|(x & Hx & ->)].
    - apply Hend in He as [HR HI']; [|by rewrite Ed]. rewrite Ed in HR.
      destruct (db_fault (tick w1)); injection H as <- <-; simpl; [by split; [reflexivity|]|].
      rewrite E. auto.
    - destruct x as [b|b]; [|injection H as <- <-; by split; [reflexivity|]].
      destruct (db_fault (tick w1)); injection H as <- <-; simpl; [by split; [reflexivity|]|].
      split; [|done]. rewrite <- Ed. eapply Hb; [by rewrite Ed|by rewrite Ed|exact Hx]. }
  intros w HI. unfold begin, rthrow. destruct (tokenHash tok); [|simpl; reflexivity].
  unfold bind at 1. destruct (begin_pass s id a o body w) as [[[x|]|e] w1] eqn:E;
    destruct (Hp _ _ _ _ HI E) as [HR HI1]; [done| |done].
  specialize (HI1 eq_refl). unfold bind at 1.
  destruct (begin_pass s id a o body w1) as [[[x|]|e] w2] eqn:E2;
    destruct (Hp _ _ _ _ HI1 E2) as [HR2 _]; simpl; by etrans.
Qed.
End begin_commit.

Lemma begin_pass_lapse (s : Options) (R : relation ApiDB) `{!PreOrder R} id h o :
  (forall g t w u w', endReservationTx (Outbox s) id g t w = (Ok u, w') -> R (db w) (db w')) ->
  respects (on_db R) (begin_pass s id h o (fun _ => ret (Rollback tt))).
Proof.
  intros Hend. apply respects_transaction_commit; [apply _|]. intros w a w1 H.
  apply begin_body_ok in H as (r & w2 & Hr & Ed & [(w3 & t & _ & He & E)|(x & Hx & E)]).
  - apply Hend in He. by rewrite E, <- Ed.
  - msteps Hx. done.
Qed.

Lemma begin_commit {A} (s : Options) (R : relation ApiDB) `{!PreOrder R} id tok o (body : reqrecord -> M ApiDB (txout A)) :
  (forall g t w u w', endReservationTx (Outbox s) id g t w = (Ok u, w') -> R (db w) (db w')) ->
  (forall r w a w1, t_requests (db w) !! id = Some r -> body (view r) w = (Ok (Commit a), w1) -> R (db w) (db w1)) ->
  respects (on_db R) (begin s id tok o body).
Proof.
  intros Hend Hb w. apply (begin_commit_inv s R (fun _ => True)); [by eauto|by eauto|done].
Qed.

Context (s : Options) `{!OptionsSpec s}.

Lemma end_kept id g t w u w' :
  endReservationTx (Outbox s) id g t w = (Ok u, w') -> no_key_lost (db w) (db w').
Proof. intros H. apply endReservationTx_ok in H as [H _]; [done|by apply options_outbox_ok]. Qed.

Lemma begin_pass_lapse_kept id h o :
  respects (on_db no_key_lost) (begin_pass s id h o (fun _ => ret (Rollback tt))).
Proof. apply begin_pass_lapse; [apply _|apply end_kept]. Qed.

(** A read-only or payload-only body. *)
Lemma commit_check_db t w u w' : commit_check t w = (Ok u, w') -> db w' = db w.
Proof. intros H. eapply reads_only_db; [|exact H]. by apply commit_check_reads, _. Qed.

Lemma clearPayloadTx_kept id p st reason w u w' :
  st <> Waiting -> clearPayloadTx s id p st reason w = (Ok u, w') -> no_key_lost (db w) (db w').
Proof.
  intros Hst H. unfold clearPayloadTx, requireTransition in H.
  apply bind_ok in H as (t & w1 & Ht & H). mstep Ht.
  apply bind_ok in H as (u1 & w2 & He & H).
  apply enqueueRequestKeysTx_ok in He as (r & Hr & E & Hg & Hj); [|by apply options_outbox_ok]. simpl in *.
  apply bind_ok in H as (n1 & w3 & Hd & H). mstep Hd. injection Hd as <- <-.
  apply bind_ok in H as (t2 & w4 & Ht & H). mstep Ht.
  apply bind_ok in H as (n & w5 & Hu & H). mstep H.
  apply update_request_ok in Hu as [(-> & _)|(-> & r' & Hr' & HP & Ed)]; [done|].
  simpl in Hr', Ed. rewrite E in Hr'. assert (r' = r) as -> by congruence.
  apply (no_key_lost_update _ _ id r (rq_cleared st (clk (S (tick w2))) r)); [done| | |done|].
  - rewrite Ed. simpl. by rewrite E.
  - etrans; [exact Hg|]. rewrite Ed. by apply outbox_grows_same.
  - intros _ key Hk. right. rewrite Ed. eapply has_job_grows; [|by apply Hj]. by apply outbox_grows_same.
Qed.

(** An update that keeps both keys, or fills them in a waiting row. *)
Lemma update_kept msg id P f n w w' :
  (forall r, P r = true -> r_state (f r) <> Waiting) ->
  (forall r, P r = true -> r_state r = Waiting \/
     (forall key, row_key r key -> row_key (f r) key)) ->
  sql msg (update_request id P f) w = (Ok n, w') -> no_key_lost (db w) (db w').
Proof.
  intros Hs Hk H. apply update_request_ok in H as [(_ & ->)|(_ & r & Hr & HP & Ed)]; [reflexivity|].
  rewrite Ed. apply (no_key_lost_update _ _ id r (f r)); [done|done|by apply outbox_grows_same| |].
  - intros Hw. by destruct (Hs r HP).
  - intros Hclean key Hkey. destruct (Hk r HP) as [Hw|Hkeep]; [|by left; apply Hkeep].
    destruct (Hclean Hw) as [Hu Hf]. destruct Hkey; congruence.
Qed.

#[local] Hint Resolve options_objects options_outbox commit_check_reads objectAttemptTx_reads authorized_reads : flick.

Lemma Submit_kept id tok i : respects (on_db no_key_lost) (Submit s id tok i).
Proof.
  unfold Submit. apply respects_bind; [apply _|solve_respects|]. intros [[attempt envelope] ciphertext].
  apply begin_commit; [apply _|apply end_kept|]. intros r w a w1 Hr H.
  apply bind_ok in H as (u & w2 & Hf & H). mstep Hf. destruct (q_state (view r)).
  2: by msteps H.
  2-5: eapply reads_only_db in H; [rewrite H; reflexivity|solve_respects].
  apply bind_ok in H as (n & w3 & Hu & H).
  apply bind_ok in H as (u2 & w4 & Hn & H). unfold requireTransition in Hn. mstep Hn.
  apply bind_ok in H as (u3 & w5 & Hi & H). apply bind_ok in H as (u4 & w6 & Hc & H). msteps H.
  apply commit_check_db in Hc. rewrite Hc. etrans.
  - eapply update_kept; [| |exact Hu]; [done|]. intros rr HP. cbv beta in HP. destruct_bools. by left.
  - mstep Hi. unfold insert_request_payload in Hi. destruct (is_some _); [|done].
    destruct (ins _ _ _ _); [|done]. injection Hi as _ <-. apply no_key_lost_same; [done|by apply outbox_grows_same].
Qed.

Lemma reads_kept {A} (m : M ApiDB A) : reads_only m -> respects (on_db no_key_lost) m.
Proof. apply respects_of_reads, _. Qed.

(** A transaction whose body only reads. *)
Lemma begin_reads_kept {A} id tok o (body : reqrecord -> M ApiDB (txout A)) :
  (forall r, reads_only (body r)) -> respects (on_db no_key_lost) (begin s id tok o body).
Proof.
  intros Hb. apply begin_commit; [apply _|apply end_kept|]. intros r w a w1 _ H.
  eapply reads_only_db in H; [|apply Hb]. rewrite H. reflexivity.
Qed.

Lemma read_kept id tok o : respects (on_db no_key_lost) (read s id tok o).
Proof.
  unfold read, rthrow. destruct (tokenHash tok); [|solve_respects].
  apply respects_bind; [apply _|solve_respects|]. intros row.
  apply respects_bind; [apply _|solve_respects|]. intros [|]; [|solve_respects].
  apply begin_reads_kept. intros r. solve_respects.
Qed.
Lemma Attempt_kept id tok g a : respects (on_db no_key_lost) (Attempt s id tok g a).
Proof.
  unfold Attempt. do 2 (apply respects_bind; [apply _|solve_respects|]; intros).
  apply begin_reads_kept. intros r. solve_respects.
Qed.

Lemma openFirst_kept id tok : respects (on_db no_key_lost) (openFirst s id tok).
Proof.
  unfold openFirst. apply begin_commit; [apply _|apply end_kept|]. intros r w a w1 Hr H.
  apply bind_ok in H as (u & w2 & Hf & H). mstep Hf.
  apply bind_ok in H as ([o p] & w3 & Hq & H). mstep Hq. simplify_eq.
  repeat (split_match H; try by msteps H).
  apply bind_ok in H as (u1 & w4 & Hn & H). mstep Hn.
  apply bind_ok in H as (u2 & w5 & Hc & H). apply bind_ok in H as (u3 & w6 & Hcc & H). msteps H.
  apply clearPayloadTx_kept in Hc; [|done]. apply commit_check_db in Hcc. by rewrite Hcc.
Qed.

Lemma consumeObject_kept id tok k : respects (on_db no_key_lost) (consumeObject s id tok k).
Proof.
  unfold consumeObject, requireTransition. apply begin_commit; [apply _|apply end_kept|]. intros r w a w1 Hr H.
  apply bind_ok in H as (u & w2 & Hf & H). mstep Hf.
  apply bind_ok in H as (t & w3 & Ht & H). mstep Ht.
  apply bind_ok in H as (n & w4 & Hu & H). apply bind_ok in H as (u1 & w5 & Hn & H). mstep Hn.
  apply bind_ok in H as (u2 & w6 & Hc & H). msteps H. apply commit_check_db in Hc. rewrite Hc.
  eapply update_kept in Hu; [exact Hu|done|]. intros rr _. right. by intros key Hk.
Qed.
#[local] Hint Resolve openFirst_kept consumeObject_kept read_kept : flick.

Lemma Open_kept id tok : respects (on_db no_key_lost) (Open s id tok).
Proof. unfold Open, rthrow. solve_respects. Qed.

Lemma Revoke_kept id tok : respects (on_db no_key_lost) (Revoke s id tok).
Proof.
  unfold Revoke. apply begin_commit; [apply _|apply end_kept|]. intros r w a w1 Hr H.
  apply bind_ok in H as (u & w2 & Hf & H). mstep Hf.
  apply bind_ok in H as (u2 & w5 & Hc & H). apply bind_ok in H as (u3 & w6 & Hcc & H). msteps H.
  apply clearPayloadTx_kept in Hc; [|done]. apply commit_check_db in Hcc. by rewrite Hcc.
Qed.

Lemma FinishOpen_kept id k : respects (on_db no_key_lost) (FinishOpen s id k).
Proof.
  unfold FinishOpen. apply respects_transaction_commit; [apply _|]. intros w a w1 H.
  apply bind_ok in H as (n & w2 & Hu & H).
  apply update_request_ok in Hu as [(-> & _)|(-> & r & Hr & HP & Ed)]; [by msteps H|]. simpl in H.
  apply bind_ok in H as (t & w3 & Ht & H). mstep Ht.
  apply bind_ok in H as (u1 & w4 & He & H). apply bind_ok in H as (u2 & w5 & Hc & H). msteps H.
  apply commit_check_db in Hc.
  apply enqueueObjectTx_ok in He as (Hj & E & Hg); [|by apply options_outbox_ok]. simpl in *.
  destruct_bools. rewrite Hc. apply (no_key_lost_update _ _ id r (rq_final_dropped r)); [done| | | |].
  - rewrite E, Ed. done.
  - etrans; [|exact Hg]. rewrite Ed. by apply outbox_grows_same.
  - simpl. congruence.
  - intros _ key [Hk|Hk]; [left; by left|]. right. congruence.
Qed.

Lemma reserveFirst_kept id tok a d e c i : respects (on_db no_key_lost) (reserveFirst s id tok a d e c i).
Proof.
  unfold reserveFirst. apply begin_commit; [apply _|apply end_kept|]. intros r w x w1 Hr H.
  apply bind_ok in H as (u & w2 & Hf & H). mstep Hf.
  apply bind_ok in H as (pre & w3 & Hpre & H).
  assert (Hk : no_key_lost (db w) (db w3)).
  { destruct (q_state (view r)).
    - apply bind_ok in Hpre as (u1 & w4 & H1 & Hpre). mstep H1.
      apply bind_ok in Hpre as (rd & w5 & H1' & Hpre). mstep H1'.
      apply bind_ok in Hpre as (t & w6 & Ht & Hpre). mstep Ht.
      apply bind_ok in Hpre as (n & w7 & Hu & Hpre).
      apply bind_ok in Hpre as (u2 & w8 & Hn & Hpre). unfold requireTransition in Hn. mstep Hn. msteps Hpre.
      eapply update_kept in Hu; [exact Hu|done|]. intros rr HP. cbv beta in HP. destruct_bools. by left.
    - eapply reads_only_db in Hpre; [rewrite Hpre; reflexivity|]. solve_respects.
    - eapply reads_only_db in Hpre; [rewrite Hpre; reflexivity|]. solve_respects.
    - eapply reads_only_db in Hpre; [rewrite Hpre; reflexivity|]. solve_respects.
    - eapply reads_only_db in Hpre; [rewrite Hpre; reflexivity|]. solve_respects.
    - eapply reads_only_db in Hpre; [rewrite Hpre; reflexivity|]. solve_respects. }
  etrans; [exact Hk|].
  eapply (reads_only_db (match pre with None => _ | Some dl => _ end)) in H; [rewrite H; reflexivity|].
  unfold rthrow. solve_respects.
Qed.
#[local] Hint Resolve reserveFirst_kept : flick.
Lemma Reserve_kept id tok i : respects (on_db no_key_lost) (Reserve s id tok i).
Proof. unfold Reserve, rthrow. solve_respects. Qed.
Lemma Abandon_kept id tok i : respects (on_db no_key_lost) (Abandon s id tok i).
Proof.
  unfold Abandon. apply respects_bind; [apply _|solve_respects|]. intros attempt.
  apply respects_bind; [apply _| |solve_respects].
  apply begin_commit; [apply _|apply end_kept|]. intros r w x w1 Hr H.
  apply bind_ok in H as (u & w2 & Hf & H). mstep Hf.
  apply bind_ok in H as (a & w3 & Ha & H). eapply reads_only_db in Ha; [|by apply objectAttemptTx_reads, _].
  apply bind_ok in H as (u1 & w4 & H1 & H). mstep H1.
  apply bind_ok in H as (t & w5 & Ht & H). mstep Ht.
  apply bind_ok in H as (u2 & w6 & He & H). apply bind_ok in H as (u3 & w7 & Hc & H). msteps H.
  apply end_kept in He. apply commit_check_db in Hc. rewrite Hc. simpl in He. by rewrite Ha in He.
Qed.

(** *** Finalizing *)

(** The attempt that was read is the one of the row. *)
Definition attempt_of (r : request_row) : objectAttempt :=
  MkObjectAttempt (r_attempt r) (r_body_hash r) (r_checksum r) (r_upload_key r) (r_final_key r) (r_size r).

Lemma objectAttemptTx_ok id w a w' :
  objectAttemptTx id w = (Ok a, w') ->
  exists r, t_requests (db w) !! id = Some r /\ a = attempt_of r /\ w' = bump w.
Proof.
  unfold objectAttemptTx. intros H. apply bind_ok in H as (row & w1 & Hq & H). mstep Hq.
  destruct (t_requests (db w) !! id) as [r|]; msteps H; eauto.
Qed.

(** What the copy was made for still identifies the row's reservation: keys are
    drawn once per generation. *)
Definition same_reservation (id : string) (a : objectAttempt) (generation : Z) (d : ApiDB) : Prop :=
  forall r, t_requests d !! id = Some r -> r_generation r = generation -> r_state r = Uploading ->
    r_upload_key r = a_uploadKey a.

Lemma acceptAttempt_kept id tok at_ a i w :
  same_reservation id a (ai_Generation i) (db w) -> no_key_lost (db w) (db (acceptAttempt s id tok at_ a i w).2).
Proof.
  unfold acceptAttempt.
  apply (begin_commit_inv s no_key_lost (same_reservation id a (ai_Generation i))).
  { intros g t w1 u w2 Hs H. split; [by apply end_kept in H|].
    apply endReservationTx_ok in H as (_ & r & Hr & _ & E); [|by apply options_outbox_ok].
    intros r' Hr' _ Hu. rewrite E, lookup_insert_eq in Hr'. injection Hr' as <-. simpl in Hu. by destruct (g =? MaxGeneration). }
  intros r w1 x w2 Hs Hr H.
  apply bind_ok in H as (current & w3 & Hc & H). apply objectAttemptTx_ok in Hc as (r' & Hr' & -> & ->).
  assert (r' = r) as -> by congruence.
  apply bind_ok in H as (u1 & w4 & H1 & H). mstep H1. apply bind_ok in H as (u2 & w5 & H2 & H). mstep H2.
  destruct (negb (bool_decide _)).
  { eapply reads_only_db in H; [rewrite H; reflexivity|solve_respects]. }
  apply bind_ok in H as (u3 & w6 & H3 & H). mstep H3. destruct_bools.
  apply bind_ok in H as (n & w7 & Hu & H). apply bind_ok in H as (u4 & w8 & Hn & H).
  unfold requireTransition in Hn. mstep Hn.
  apply update_request_ok in Hu as [(-> & _)|(-> & r2 & Hr2 & HP & Ed)]; [done|].
  simpl in Hr2, Ed. assert (r2 = r) as -> by congruence. destruct_bools.
  apply bind_ok in H as (t & w9 & Ht & H). mstep Ht.
  apply bind_ok in H as (u5 & w10 & He & H).
  apply enqueueObjectTx_ok in He as (Hj & E & Hg); [|by apply options_outbox_ok]. simpl in *.
  apply bind_ok in H as (t2 & w11 & Ht & H). mstep Ht.
  apply bind_ok in H as (u6 & w12 & Hx4 & H). mstep Hx4.
  apply bind_ok in H as (u7 & w13 & Hcc & H). msteps H. apply commit_check_db in Hcc. simpl in Hcc. rewrite Hcc.
  apply (no_key_lost_update _ _ id r (rq_finalized r)); [done| | |done|].
  - rewrite E, Ed. done.
  - etrans; [|exact Hg]. rewrite Ed. by apply outbox_grows_same.
  - intros _ key [Hk|Hk]; [right|left; by right].
    assert (Hup : r_upload_key r = a_uploadKey a) by (apply Hs; [done|simpl in *; congruence|done]).
    rewrite <- Hup, Hk in Hj. done.
Qed.

Lemma copyVerified_db obj a w r w' : Objects.Spec obj -> copyVerified obj a w = (r, w') -> db w' = db w.
Proof. intros Ho. apply reads_only_db. unfold copyVerified, rthrow. solve_respects. Qed.

Lemma finalizeFirst_ok id tok at_ i w a w' :
  finalizeFirst s id tok at_ i w = (Ok (inr a), w') ->
  exists r, t_requests (db w') !! id = Some r /\ r_state r = Uploading /\ a = attempt_of r /\
    is_some (r_final_key r) = true /\ is_some (r_size r) = true.
Proof.
  assert (Hp : forall h w a w', begin_pass s id h false (fun row =>
    let! a := objectAttemptTx id in
    do! fail_if (negb (ai_Generation i =? q_generation row)) (RequestsErr ErrUnavailable) in
    do! fail_if (negb (bytes_equal at_ (a_attempt a))) (RequestsErr ErrConflict) in
    if negb (bool_decide (q_state row = Uploading)) then
      do! fail_if (negb (accepted_state (q_state row))) (RequestsErr ErrConflict) in
      do! commit_check (q_expires row) in
      ret (Commit (inl (MkReceipt (q_generation row) "submitted")))
    else
      do! fail_if (is_none (Objects s) || is_none (a_uploadKey a) || is_none (a_finalKey a) ||
                   match a_size a with Some n => (n <? 0) || (MaxObjectBytes s <? n) | None => true end)
            (RequestsErr ErrStorage) in
      do! commit_check (q_expires row) in
      ret (Commit (inr a))) w = (Ok (Some (inr a)), w') ->
    exists r, t_requests (db w') !! id = Some r /\ r_state r = Uploading /\ a = attempt_of r /\
      is_some (r_final_key r) = true /\ is_some (r_size r) = true).
  { clear w a w'. intros h w a w' H. unfold begin_pass in H. apply transaction_ok in H as (_ & H).
    destruct H as [(w1 & H & ->)|(w1 & H & _ & ->)]; apply begin_body_ok in H as (r & w2 & Hr & Ed & H);
      (destruct H as [(w3 & t & ? & _)|(x & Hx & E)]; [done|]); (destruct x as [x|x]; [|done]) || (destruct x as [x|x]; [done|]).
    - injection E as <-. exfalso. repeat (apply bind_ok in Hx as (? & ? & _ & Hx)).
      destruct (negb (bool_decide _)); repeat (apply bind_ok in Hx as (? & ? & _ & Hx)); by msteps Hx.
    - injection E as <-. apply bind_ok in Hx as (a' & w4 & Ha & Hx).
      apply objectAttemptTx_ok in Ha as (r' & Hr' & -> & ->).
      apply bind_ok in Hx as (u1 & w5 & H1 & Hx). mstep H1. apply bind_ok in Hx as (u2 & w6 & H2 & Hx). mstep H2.
      destruct (negb (bool_decide _)) eqn:Eu.
      { apply bind_ok in Hx as (? & ? & _ & Hx). apply bind_ok in Hx as (? & ? & _ & Hx). by msteps Hx. }
      apply bind_ok in Hx as (u3 & w7 & H3 & Hx). mstep H3. apply bind_ok in Hx as (u4 & w8 & Hc & Hx). msteps Hx.
      simplify_eq. apply commit_check_db in Hc. simpl in Hc, H3. unfold is_none in H3. destruct_bools.
      simpl in *. assert (r' = r) as -> by congruence. exists r. rewrite Hc. split_and!; try done.
      by destruct (r_size r). }
  intros H. unfold finalizeFirst, begin in H. destruct (tokenHash tok); [|by msteps H].
  apply bind_ok in H as (o & w1 & H1 & H). destruct o as [x|]; [msteps H; by eapply Hp|].
  apply bind_ok in H as (o & w2 & H2 & H). destruct o as [x|]; [msteps H; by eapply Hp|by msteps H].
Qed.

Lemma finalizeFirst_kept id tok at_ i : respects (on_db no_key_lost) (finalizeFirst s id tok at_ i).
Proof. unfold finalizeFirst. apply begin_reads_kept. intros r. solve_respects. Qed.

Lemma Finalize_kept id tok i : respects (on_db no_key_lost) (Finalize s id tok i).
Proof.
  unfold Finalize. apply respects_bind; [apply _|solve_respects|]. intros at_.
  apply respects_bind_ok; [apply _|apply finalizeFirst_kept|]. intros [rc|a] w w1 H; [simpl; reflexivity|].
  apply finalizeFirst_ok in H as (r & Hr & _ & -> & _).
  assert (Hsame : same_reservation id (attempt_of r) (ai_Generation i) (db w1)) by (intros r' Hr'; by simplify_eq).
  destruct (Objects s) as [obj|] eqn:Eo; [|simpl; reflexivity].
  pose proof (options_objects _ Eo). unfold finalizeAttempt, bind, on_db.
  destruct (copyVerified obj (attempt_of r) w1) as [[u|e] w2] eqn:Ec; apply copyVerified_db in Ec; try done.
  - rewrite <- Ec in *. by apply acceptAttempt_kept.
  - simpl. rewrite Ec. reflexivity.
Qed.

(** *** The expiry batches *)
Lemma end_reservations_kept ob t l w u w' :
  OutboxOk ob -> end_reservations ob t l w = (Ok u, w') -> no_key_lost (db w) (db w').
Proof.
  intros Ho. revert w. induction l as [|[id r] l IH]; intros w H; cbn [end_reservations] in H; [msteps H; reflexivity|].
  apply bind_ok in H as (u1 & w1 & He & H). apply endReservationTx_ok in He as [He _]; [|done].
  etrans; [exact He|]. by apply IH.
Qed.

Lemma delete_requests_kept ob t l w u w' :
  OutboxOk ob -> delete_requests ob t l w = (Ok u, w') -> no_key_lost (db w) (db w').
Proof.
  intros Ho. revert w. induction l as [|[id r0] l IH]; intros w H; cbn [delete_requests] in H; [msteps H; reflexivity|].
  apply bind_ok in H as (u1 & w1 & He & H). apply bind_ok in H as (n & w2 & Hd & H). mstep Hd. injection Hd as _ <-.
  apply enqueueRequestKeysTx_ok in He as (r & Hr & E & Hg & Hj); [|done].
  etrans; [|by apply (IH _ H)]. split; [etrans; [exact Hg|by apply outbox_grows_same]|].
  simpl. intros Hw. split.
  - unfold waiting_clean. simpl. rewrite E. by apply map_Forall_delete.
  - intros id' key (x & Hx & Hk). unfold holds_key. simpl. rewrite E.
    destruct (decide (id' = id)) as [->|Hne].
    + right. assert (x = r) as -> by congruence. eapply has_job_grows; [|by apply Hj]. by apply outbox_grows_same.
    + left. exists x. by rewrite lookup_delete_ne.
Qed.

Lemma PurgeExpiredTx_kept t n ob w u w' :
  OutboxOk ob -> PurgeExpiredTx t n ob w = (Ok u, w') -> no_key_lost (db w) (db w').
Proof.
  intros Ho H. unfold PurgeExpiredTx in H.
  apply bind_ok in H as (l1 & w1 & Hq & H). mstep Hq.
  apply bind_ok in H as (u1 & w2 & He & H). apply bind_ok in H as (l2 & w3 & Hq & H). mstep Hq.
  apply end_reservations_kept in He; [|done]. apply delete_requests_kept in H; [|done]. by etrans.
Qed.

Lemma sql_same_kept {A} msg (f : ApiDB -> option (A * ApiDB)) :
  (forall d a d', f d = Some (a, d') -> t_requests d' = t_requests d /\ t_outbox d' = t_outbox d) ->
  respects (on_db no_key_lost) (sql msg f).
Proof.
  intros Hf. apply respects_sql; [apply _|]. intros d a d' E. apply Hf in E as [? ?].
  apply no_key_lost_same; [done|by apply outbox_grows_same].
Qed.
Lemma enq_kept o ev : OutboxSpec o -> respects (on_db no_key_lost) (enq o ev).
Proof.
  intros Ho. apply respects_enq; [apply _..|]. intros d d' He.
  apply no_key_lost_same; [|by eapply outbox_grows_enqueued]. by destruct He as (row & _ & _ & ->).
Qed.

Lemma reconcilePage_kept g page : respects (on_db no_key_lost) (reconcilePage s g page).
Proof.
  assert (Hk : forall t l c, respects (on_db no_key_lost) (reconcile_keys s t l c)).
  { intros t l. induction l as [|k l IH]; intros c; cbn [reconcile_keys]; unfold rthrow; solve_respects.
    - apply sql_same_kept. intros d x d'. unfold claim_request_pending. destruct (claim _ _ _). by intros [= _ <-].
    - apply enq_kept. by apply options_outbox. }
  unfold reconcilePage. solve_respects.
  apply sql_same_kept; intros d x d'; unfold update_request_cursor; destruct (advance _ _ _); by intros [= _ <-].
Qed.
#[local] Hint Resolve reconcilePage_kept : flick.
Lemma ReconcileOnce_kept n : respects (on_db no_key_lost) (ReconcileOnce s n).
Proof.
  unfold ReconcileOnce, read_request_cursor. solve_respects.
  all: apply sql_same_kept; intros d x d'; unfold update_request_cursor; destruct (advance _ _ _); by intros [= _ <-].
Qed.
Lemma AcknowledgeObjectCleanup_kept j k : respects (on_db no_key_lost) (AcknowledgeObjectCleanup j k).
Proof. unfold AcknowledgeObjectCleanup. solve_respects. apply sql_same_kept. by intros d x d' [= _ <-]. Qed.

Lemma Create_kept k t : respects (on_db no_key_lost) (Create s k t).
Proof.
  unfold Create. solve_respects. apply respects_sql; [apply _|]. intros d x d'. unfold insert_request.
  destruct (keys_unique _ _ _); [|done]. destruct (ins _ _ _ _) eqn:E; [|done].
  apply ins_Some in E as (Hn & _ & ->). intros [= _ <-]. split; [by apply outbox_grows_same|].
  intros Hw. split; [by apply map_Forall_insert_2|].
  intros id key (r & Hr & Hk). left. exists r. simpl. rewrite lookup_insert_ne; [done|congruence].
Qed.
End objects.
