(* ===== verification/RequestFinalize.v ===== *)
(** * Finalizing and opening a request

    [begin] ends at most one lapsed reservation; a finalized upload was copied
    under the reserved final key only after its bytes were checked; and an
    inline submission is returned to the owner as it was sent. *)

From S2P Require Import Prelude World GoTime Codec Schema AgeFormat Outbox ObjectStorage RequestStore RequestCleanup RequestFrames RequestProofs RequestObjects.

Section finalize.
Context {ENV : Env} {CODEC : EventCodec} {RC : RequestCodec}.
Context (s : Options) `{!OptionsSpec s}.
Implicit Types w : World ApiDB.

(** ** The database part of the operations issues no external effect *)
Lemma trace_enq o ev : OutboxSpec o -> respects same_trace (enq o ev).
Proof.
  intros Ho w. destruct (enq o ev w) as [[r|e] w'] eqn:E; simpl.
  - by apply enq_ok in E as [_ [_ E]].
  - by apply enq_err in E as [_ [_ E]].
Qed.
#[local] Hint Resolve trace_enq options_outbox : flick.

Lemma endReservationTx_trace id g t : respects same_trace (endReservationTx (Outbox s) id g t).
Proof.
  unfold endReservationTx, enqueueRequestKeysTx, enqueue_key, enqueueObjectTx, requireTransition, rthrow.
  solve_respects.
Qed.
#[local] Hint Resolve endReservationTx_trace : flick.

Lemma begin_pass_trace {A} id h o (body : reqrecord -> M ApiDB (txout A)) :
  (forall r, respects same_trace (body r)) -> respects same_trace (begin_pass s id h o body).
Proof. intros Hb. unfold begin_pass, authorized, commit_check, rthrow. solve_respects. Qed.
Lemma begin_trace {A} id tok o (body : reqrecord -> M ApiDB (txout A)) :
  (forall r, respects same_trace (body r)) -> respects same_trace (begin s id tok o body).
Proof.
  intros Hb. unfold begin, rthrow. destruct (tokenHash tok); [|solve_respects].
  apply respects_bind; [apply _|by apply begin_pass_trace|]. intros [x|]; [solve_respects|].
  apply respects_bind; [apply _|by apply begin_pass_trace|]. intros [x|]; solve_respects.
Qed.

(** ** One pass of [begin] *)
Definition required_hash (r : request_row) (owner : bool) : string :=
  if owner then r_retrieval_hash r else r_submission_hash r.

Lemma begin_pass_ended {A} id h o (body : reqrecord -> M ApiDB (txout A)) w w' :
  begin_pass s id h o body w = (Ok None, w') ->
  exists r g, t_requests (db w) !! id = Some r /\ r_state r = Uploading /\
    t_requests (db w') !! id = Some (rq_reservation_ended g r).
Proof.
  intros H. unfold begin_pass in H. apply transaction_ok in H as (_ & H).
  destruct H as [(w1 & H & ->)|(w1 & H & _ & ->)]; apply begin_body_ok in H as (r & w2 & Hr & Ed & H).
  { by destruct H as [(w3 & t & ? & _)|([x|x] & Hx & E)]. }
  destruct H as [(w3 & t & _ & He & E)|([x|x] & Hx & E)]; [|done..].
  apply endReservationTx_ok in He as (_ & r' & Hr' & Hu & E'); [|by apply options_outbox_ok].
  simpl in *. rewrite Ed in Hr'. assert (r' = r) as -> by congruence.
  exists r, (r_generation r). rewrite E, E', lookup_insert_eq. done.
Qed.

Lemma begin_pass_ok {A} id h o (body : reqrecord -> M ApiDB (txout A)) w a w' :
  begin_pass s id h o body w = (Ok (Some a), w') ->
  exists r w0 w1 x, t_requests (db w) !! id = Some r /\ db w0 = db w /\ body (view r) w0 = (Ok x, w1) /\
    (x = Commit a /\ db w' = db w1 \/ x = Rollback a /\ db w' = db w).
Proof.
  intros H. unfold begin_pass in H. apply transaction_ok in H as (_ & H).
  destruct H as [(w1 & H & ->)|(w1 & H & _ & ->)]; apply begin_body_ok in H as (r & w2 & Hr & Ed & H);
    destruct H as [(w3 & t & ? & _)|([x|x] & Hx & E)]; try done; injection E as <-;
    exists r, w2, w1; eexists; split_and!; eauto.
Qed.

(** The reservation [begin] ends is not found again. *)
Lemma begin_pass_settles {A} id h o (body : reqrecord -> M ApiDB (txout A)) w w1 w2 :
  begin_pass s id h o body w = (Ok None, w1) -> begin_pass s id h o body w1 <> (Ok None, w2).
Proof.
  intros (r & g & _ & _ & E)%begin_pass_ended (r' & g' & E' & Hu & _)%begin_pass_ended.
  rewrite E in E'. injection E' as <-. simpl in Hu. by destruct (g =? MaxGeneration).
Qed.

(** [begin] calls itself after it has ended a lapsed reservation, and the
    recursion stops there: the second pass, whatever the clock, the random
    source and the database do, never ends a reservation again. *)
Theorem begin_recursion_stops {A} id h o (body : reqrecord -> M ApiDB (txout A)) w w1 w2 :
  begin_pass s id h o body w = (Ok None, w1) -> begin_pass s id h o body w1 <> (Ok None, w2).
Proof. apply begin_pass_settles. Qed.

Lemma begin_ok {A} id tok o (body : reqrecord -> M ApiDB (txout A)) w a w' :
  begin s id tok o body w = (Ok a, w') ->
  exists r w0 w1 x, t_requests (db w0) !! id = Some r /\
    (db w0 = db w \/ (exists r0, t_requests (db w) !! id = Some r0 /\ r_state r0 = Uploading /\
       (r_state r = Waiting \/ r_state r = ReqUnavailable))) /\ body (view r) w0 = (Ok x, w1) /\
    (x = Commit a /\ db w' = db w1 \/ x = Rollback a /\ db w' = db w0).
Proof.
  intros H. unfold begin in H. destruct (tokenHash tok) as [h|]; [|by msteps H].
  apply bind_ok in H as ([b|] & w1 & H1 & H).
  - msteps H. apply begin_pass_ok in H1 as (r & w0 & w2 & x & Hr & Ed & Hx & E).
    exists r, w0, w2, x. rewrite Ed. split_and!; eauto.
  - apply bind_ok in H as ([b|] & w2 & H2 & H); [|by msteps H]. msteps H.
    apply begin_pass_ended in H1 as (r1 & g & Hr1 & Hu1 & E1).
    apply begin_pass_ok in H2 as (r & w0 & w3 & x & Hr & Ed & Hx & E).
    exists r, w0, w3, x. rewrite Ed. split_and!; eauto. right.
    exists r1. split_and!; [done..|].
    rewrite E1 in Hr. injection Hr as <-. simpl. destruct (g =? MaxGeneration); auto.
Qed.

(** ** The verified copy *)
Lemma verify_copy_None a bytes :
  verify_copy a bytes = None -> default "" (a_checksum a) = sha256 bytes /\
    isAgeFile (String.substring 0 (String.length ageMagic) bytes) = true.
Proof.
  unfold verify_copy, bytes_equal. destruct (isAgeFile _); [|done]. case_bool_decide; [|done]. done.
Qed.

Lemma copyVerified_spec obj a w r w' :
  Objects.Spec obj -> copyVerified obj a w = (r, w') ->
  (trace w' = trace w /\ is_ok r = false) \/
  exists bytes, trace w' = trace w ++ [EffPut (default "" (a_finalKey a)) bytes] /\
    verify_copy a bytes = None /\ strlen bytes = default 0 (a_size a).
Proof.
  intros Ho H. unfold copyVerified, bind, attempt in H.
  destruct (Objects.Open _ _ w) as [ro w1] eqn:Eo. apply Objects.Open_quiet in Eo as (_ & _ & Eo).
  destruct ro as [[b n]|e]; [|injection H as <- <-; auto].
  unfold fail_if in H. destruct (negb (n =? default 0 (a_size a))) eqn:En; [injection H as <- <-; auto|].
  unfold ret in H. destruct_bools.
  destruct (Objects.PutStream _ _ _ _ _ w1) as [rp w2] eqn:Ep.
  apply Objects.PutStream_spec in Ep as (_ & _ & Ht & Hok).
  assert (Hw : trace w' = trace w2 /\ is_ok r = is_ok rp).
  { destruct rp; [injection H as <- <-; done|]. unfold rthrow, throw in H.
    destruct (decide _); injection H as <- <-; done. }
  destruct Hw as [Hw Hr]. rewrite Hw, <- Eo. destruct Ht as [Ht|(bytes & Ht & Hv & Hl)].
  - left. split; [done|]. rewrite Hr. destruct rp as [[]|]; [|done]. by destruct (Hok eq_refl).
  - right. exists bytes. split_and!; [done..|lia].
Qed.

Lemma acceptAttempt_trace id tok at_ a i : respects same_trace (acceptAttempt s id tok at_ a i).
Proof.
  apply begin_trace. intros r. unfold objectAttemptTx, requireTransition, enqueueObjectTx, commit_check, rthrow.
  solve_respects.
Qed.
Lemma finalizeFirst_trace id tok at_ i : respects same_trace (finalizeFirst s id tok at_ i).
Proof. apply begin_trace. intros r. unfold objectAttemptTx, commit_check. solve_respects. Qed.

(** The row the copy is made for is the row before the call. *)
Lemma finalizeFirst_row id tok at_ i w a w' :
  finalizeFirst s id tok at_ i w = (Ok (inr a), w') ->
  exists r, t_requests (db w) !! id = Some r /\ r_state r = Uploading /\ a = attempt_of r /\
    r_generation r = ai_Generation i /\ default "" (r_attempt r) = at_ /\ db w' = db w.
Proof.
  intros H. unfold finalizeFirst in H. apply begin_ok in H as (r & w0 & w1 & x & Hr & Hs & Hx & E).
  apply bind_ok in Hx as (a' & w4 & Ha & Hx).
  apply objectAttemptTx_ok in Ha as (r' & Hr' & -> & ->). assert (r' = r) as -> by congruence.
  apply bind_ok in Hx as (u1 & w5 & H1 & Hx). mstep H1. apply bind_ok in Hx as (u2 & w6 & H2 & Hx). mstep H2.
  unfold bytes_equal in *. destruct_bools. simpl in *. case_bool_decide as Hu; simpl in Hx.
  - apply bind_ok in Hx as (u3 & w7 & H3 & Hx). apply bind_ok in Hx as (u4 & w8 & Hc & Hx). msteps Hx.
    apply commit_check_db in Hc. mstep H3.
    destruct E as [[E Ed]|[E _]]; simplify_eq. destruct Hs as [Hs|(r0 & _ & _ & [Hs|Hs])]; [|congruence..]. rewrite Hs in Hr.
    exists r. split_and!; [done..|lia|done|]. rewrite Ed, Hc. done.
  - apply bind_ok in Hx as (? & ? & _ & Hx). apply bind_ok in Hx as (? & ? & _ & Hx). msteps Hx.
    destruct E as [[E _]|[E _]]; simplify_eq.
Qed.

(** A receipt without a copy: the same attempt was accepted before. *)
Lemma finalizeFirst_receipt id tok at_ i w rc w' :
  finalizeFirst s id tok at_ i w = (Ok (inl rc), w') ->
  exists r, t_requests (db w) !! id = Some r /\ accepted_state (r_state r) = true /\
    r_generation r = ai_Generation i /\ default "" (r_attempt r) = at_.
Proof.
  intros H. unfold finalizeFirst in H. apply begin_ok in H as (r & w0 & w1 & x & Hr & Hs & Hx & E).
  apply bind_ok in Hx as (a' & w4 & Ha & Hx).
  apply objectAttemptTx_ok in Ha as (r' & Hr' & -> & ->). assert (r' = r) as -> by congruence.
  apply bind_ok in Hx as (u1 & w5 & H1 & Hx). mstep H1. apply bind_ok in Hx as (u2 & w6 & H2 & Hx). mstep H2.
  unfold bytes_equal in *. destruct_bools. simpl in *. case_bool_decide as Hu; simpl in Hx.
  - apply bind_ok in Hx as (u3 & w7 & H3 & Hx). apply bind_ok in Hx as (u4 & w8 & Hc & Hx). msteps Hx.
    destruct E as [[E _]|[E _]]; simplify_eq.
  - apply bind_ok in Hx as (u3 & w7 & H3 & Hx). mstep H3. destruct_bools.
    destruct Hs as [Hs|(r0 & _ & _ & Hs)]; [|unfold accepted_state in *; destruct Hs as [Hs|Hs]; by rewrite Hs in *].
    rewrite Hs in Hr. exists r. split_and!; [done..|lia|done].
Qed.

Lemma tokenHash_nonempty tok h : tokenHash tok = Ok h -> h <> "".
Proof.
  unfold tokenHash, rerr. destruct (decode_token tok) as [b|]; [|done]. intros [= <-] E.
  pose proof (Sha256.sum_length b) as Hl. by rewrite E in Hl.
Qed.
Lemma validateAttempt_nonempty i at_ : validateAttempt i = Ok at_ -> at_ <> "".
Proof. unfold validateAttempt, rerr. destruct (_ || _); [done|]. apply tokenHash_nonempty. Qed.

(** The attempt the caller names is the row's: the hash of its attempt token
    and its generation. *)
Definition attempt_matches (i : AttemptInput) (r : request_row) : Prop :=
  exists at_, validateAttempt i = Ok at_ /\ r_attempt r = Some at_ /\ r_generation r = ai_Generation i.

Lemma attempt_matches_intro i at_ r : validateAttempt i = Ok at_ ->
  default "" (r_attempt r) = at_ -> r_generation r = ai_Generation i -> attempt_matches i r.
Proof.
  intros Hv Ha Hg. exists at_. split_and!; [done| |done]. pose proof (validateAttempt_nonempty _ _ Hv).
  destruct (r_attempt r); simpl in Ha; [by f_equal|done].
Qed.

(** The one object a finalize may write. *)
Definition verified_copy (id : string) (i : AttemptInput) (d : ApiDB) (e : effect) : Prop :=
  exists r key bytes, t_requests d !! id = Some r /\ r_state r = Uploading /\
    attempt_matches i r /\ r_final_key r = Some key /\ e = EffPut key bytes /\
    r_checksum r = Some (sha256 bytes) /\ r_size r = Some (strlen bytes) /\
    isAgeFile (String.substring 0 (String.length ageMagic) bytes) = true.

(** C15: an upload is accepted only with the bytes that were reserved.  Whatever
    it returns, [Finalize] writes at most one object, and then only for the
    attempt the reservation was made for (the caller's attempt token and
    generation are the row's), under the final key of that reservation, with
    bytes that start as an age file, have the reserved length and hash to the
    reserved SHA-256; and when it succeeds it has either made that copy or the
    same attempt, by token hash and generation, had already been accepted. *)
Theorem finalize_copies_only_verified id tok i w res w' :
  map_Forall (fun _ r => request_check r = true) (t_requests (db w)) ->
  Finalize s id tok i w = (res, w') ->
  (trace w' = trace w /\
    (is_ok res = true -> exists r, t_requests (db w) !! id = Some r /\ accepted_state (r_state r) = true /\
       attempt_matches i r)) \/
  exists e, trace w' = trace w ++ [e] /\ verified_copy id i (db w) e.
Proof.
  intros Hck H. unfold Finalize in H. destruct (validateAttempt i) as [at_|e] eqn:Hv0; [|injection H as <- <-; by left].
  unfold lift, bind at 1 in H. unfold bind in H.
  destruct (finalizeFirst s id tok at_ i w) as [[[rc|a]|e] w1] eqn:E1.
  all: pose proof (finalizeFirst_trace id tok at_ i w) as Ht; rewrite E1 in Ht; unfold same_trace in Ht; simpl in Ht.
  - injection H as <- <-. left. split; [done|]. intros _.
    apply finalizeFirst_receipt in E1 as (r & Hr & Ha & Hg & Hat). eauto using attempt_matches_intro.
  - destruct (Objects s) as [obj|] eqn:Eo; [|injection H as <- <-; by left]. pose proof (options_objects _ Eo).
    apply finalizeFirst_row in E1 as (r & Hr & Hu & -> & Hg & Hat & _).
    unfold finalizeAttempt, bind in H. destruct (copyVerified obj (attempt_of r) w1) as [rc w2] eqn:Ec.
    apply copyVerified_spec in Ec; [|done].
    assert (Hw : trace w' = trace w2 /\ (is_ok rc = false -> is_ok res = false)).
    { destruct rc as [[]|e]; [|injection H as <- <-; done].
      pose proof (acceptAttempt_trace id tok at_ (attempt_of r) i w2) as Ha. rewrite H in Ha. done. }
    destruct Hw as [Hw Hok]. rewrite Hw. destruct Ec as [(Ec & Hf)|(bytes & Ec & Hv & Hl)].
    { left. split; [congruence|]. rewrite Hok by done. done. }
    right. exists (EffPut (default "" (r_final_key r)) bytes). rewrite <- Ht. split; [done|].
    apply verify_copy_None in Hv as [Hs Hage]. simpl in *.
    assert (Hc := Hck _ _ Hr). simpl in Hc. unfold request_check in Hc. rewrite Hu in Hc. simpl in Hc. destruct_bools.
    destruct (r_final_key r) as [key|] eqn:Ek, (r_checksum r) as [cs|] eqn:Es, (r_size r) as [n|] eqn:En; try done.
    exists r, key, bytes. simpl in *. split_and!; try congruence. by eapply attempt_matches_intro.
  - injection H as <- <-. by left.
Qed.
End finalize.

(** ** An inline submission comes back as it was sent *)
Lemma encode_std_ascii b : ascii_string (Base64.encode Base64.StdEncoding b) = true.
Proof.
  assert (Hs : forall n, (Ascii.nat_of_ascii (Base64.sextet Base64.StdEncoding n) <? 128)%nat = true).
  { intros n. unfold Base64.sextet. destruct (String.get _ _) as [c|] eqn:E; [|done].
    assert (Hall : ascii_string (Base64.alphabet Base64.StdEncoding) = true) by (vm_compute; reflexivity).
    revert E Hall. generalize (Base64.alphabet Base64.StdEncoding) as l, (Z.to_nat n) as k. clear n. unfold ascii_string.
    induction l as [|x l IH]; intros k E Hall; [done|]. simpl in Hall. apply andb_prop in Hall as [? ?].
    destruct k; simpl in E; [by injection E as <-|by eapply IH]. }
  unfold ascii_string. induction b as [|a|a b|a b c r IH] using Base64.string_ind3; [done|..].
  all: cbn [Base64.encode Base64.padded Base64.StdEncoding String.list_ascii_of_string forallb]; rewrite !Hs; simpl; done.
Qed.

Lemma canonicalBase64_ok x lo hi b :
  canonicalBase64 x lo hi = Ok b ->
  Base64.encode Base64.StdEncoding b = x /\ Base64.decode (Base64.Strict Base64.StdEncoding) x = Some b /\
  lo <= strlen b <= hi.
Proof.
  unfold canonicalBase64, rerr. destruct (_ <? strlen x); [done|]. destruct (Base64.decode _ x) as [y|]; [|done].
  destruct (strlen y <? lo) eqn:E1, (hi <? strlen y) eqn:E2; simpl; try done. case_bool_decide; [|done].
  intros [= <-]. destruct_bools. split_and!; auto; lia.
Qed.

Lemma validateEnvelope_ok {RC : RequestCodec} raw kind e :
  validateEnvelope raw kind = Ok e ->
  exists env, DecodeEnvelope raw = Some env /\ UnmarshalEnvelope e = Some env.
Proof.
  unfold validateEnvelope, rerr. destruct (_ <? _); [done|]. destruct (DecodeEnvelope raw) as [[v f]|]; [|done]. simpl.
  destruct (Z.eqb_spec v envelopeVersion) as [->|]; [|done]. cbn [negb].
  assert (Hv : - 2 ^ 63 <= envelopeVersion < 2 ^ 63) by (by vm_compute). case_bool_decide.
  - destruct (canonicalBase64 _ _ _) as [b|] eqn:E; [|done]. destruct (isAgeFile b); [|done]. intros [= <-].
    apply canonicalBase64_ok in E as (E & _). eexists. split; [done|]. apply envelope_roundtrip; [done|].
    rewrite <- E. apply encode_std_ascii.
  - case_bool_decide; [|done]. case_bool_decide; [|done]. subst. intros [= <-]. eexists. split; [done|].
    by apply envelope_roundtrip.
Qed.

Section roundtrip.
Context {ENV : Env} {CODEC : EventCodec} {RC : RequestCodec} {NF : NoFaults}.
Context (s : Options) `{!OptionsSpec s}.
Implicit Types w : World ApiDB.

Lemma validateSubmission_ok i at_ e c :
  validateSubmission s i = Ok (at_, e, c) ->
  exists env, DecodeEnvelope (si_Envelope i) = Some env /\ UnmarshalEnvelope e = Some env /\
    Base64.encode Base64.StdEncoding c = si_Ciphertext i /\ strlen c = si_SizeBytes i /\ isAgeFile c = true.
Proof.
  unfold validateSubmission, rerr. destruct (_ || _); [done|]. destruct (tokenHash _); [|done].
  destruct (_ || _); [done|]. destruct (validateEnvelope _ _) as [e'|] eqn:Ev; [|done].
  destruct (_ <? _); [done|]. destruct (canonicalBase64 _ _ _) as [b|] eqn:Ec; [|done].
  destruct (isAgeFile b) eqn:Ea; [|done]. intros [= -> -> ->].
  apply validateEnvelope_ok in Ev as (env & ? & ?). apply canonicalBase64_ok in Ec as (? & ? & ?).
  exists env. split_and!; [done..|lia|done].
Qed.

(** What a first submission commits. *)
Lemma Submit_fresh id tok i w rc w1 r :
  Submit s id tok i w = (Ok rc, w1) -> t_requests (db w) !! id = Some r -> r_state r = Waiting ->
  exists at_ e c bh, validateSubmission s i = Ok (at_, e, c) /\
    (let r' := rq_submitted at_ bh (si_Kind i) (si_SizeBytes i) e r in
     request_check r' = true /\ t_requests (db w1) !! id = Some r' /\ t_request_payloads (db w1) !! id = Some c).
Proof.
  intros H Hr Hw. unfold Submit in H. apply bind_ok in H as ([[at_ e] c] & w0 & Hv & H). mstep Hv.
  apply begin_ok in H as (r0 & w2 & w3 & x & Hr0 & Hs & Hx & E); [|done].
  destruct Hs as [Hs|(r1 & Hr1 & Hu & _)]; [|congruence]. rewrite Hs in Hr0. assert (r0 = r) as -> by congruence.
  apply bind_ok in Hx as (u1 & w4 & H1 & Hx). mstep H1. simpl in Hx. rewrite Hw in Hx.
  apply bind_ok in Hx as (n & w5 & Hu & Hx). mstep Hu. simpl in Hu.
  apply bind_ok in Hx as (u2 & w6 & Hn & Hx). unfold requireTransition in Hn. mstep Hn. destruct_bools.
  apply bind_ok in Hx as (u3 & w7 & Hi & Hx). mstep Hi.
  apply bind_ok in Hx as (u4 & w8 & Hc & Hx). msteps Hx. apply commit_check_db in Hc.
  destruct E as [[E Ed]|[E _]]; [|done].
  apply update_request_Some in Hu as [(? & _)|(rr & _ & Hrr & _ & Hck & _ & ->)]; [done|].
  rewrite Hs in Hrr. assert (rr = r) as -> by congruence.
  unfold insert_request_payload in Hi. destruct (is_some _); [|done].
  destruct (ins _ _ _ _) as [m|] eqn:Em; [|done]. injection Hi as _ <-. apply ins_Some in Em as (_ & _ & ->).
  exists at_, e, c. eexists. split; [done|]. cbv zeta. split; [exact Hck|].
  rewrite Ed, Hc. simpl. by rewrite Hs, !lookup_insert_eq.
Qed.

Lemma commit_check_runs t w : clk (tick w) < t -> exists w1, commit_check t w = (Ok tt, w1) /\ db w1 = db w .
Proof.
  intros Ht. unfold commit_check. destruct (is_zero t); [by exists w|].
  exists (bump w). split_and!; [|done]. erewrite bind_runs by reflexivity.
  unfold fail_if, before. by rewrite (proj2 (Z.ltb_lt _ _) Ht).
Qed.

(** The expiry check of [authorized], passed. *)
Lemma authorized_runs id r w o :
  t_requests (db w) !! id = Some r -> r_state r <> ReqUnavailable -> clk (S (tick w)) < r_expires r ->
  authorized id (required_hash r o) o w = (Ok (view r), bump (bump w)).
Proof.
  intros Hr Hs Ht. unfold authorized. erewrite bind_runs by apply sql_query_runs. rewrite Hr.
  rewrite fail_if_runs by (unfold required_hash; by rewrite bool_decide_true).
  erewrite bind_runs by reflexivity. rewrite fail_if_runs; [done|].
  unfold before. simpl. by rewrite bool_decide_false, (proj2 (Z.ltb_lt _ _) Ht).
Qed.

(** Clearing a row without keys. *)
Lemma clearPayloadTx_runs id r prev st reason w :
  t_requests (db w) !! id = Some r -> r_state r = prev -> prev <> Uploading -> st = ReqConsumed ->
  r_upload_key r = None -> r_final_key r = None -> request_check r = true ->
  exists w1, clearPayloadTx s id prev st reason w = (Ok tt, w1) /\ tick w1 = (5 + tick w)%nat /\
    t_requests (db w1) !! id = Some (rq_cleared st (clk (3 + tick w)) r) /\ t_request_payloads (db w1) !! id = None.
Proof.
  intros Hr Hp Hu -> Hk Hf Hck. unfold clearPayloadTx.
  erewrite bind_runs by reflexivity.
  erewrite bind_runs.
  2:{ unfold enqueueRequestKeysTx. erewrite bind_runs by apply sql_query_runs. simpl. rewrite Hr.
      rewrite Hk, Hf. reflexivity. }
  erewrite bind_runs by (apply sql_runs; reflexivity).
  erewrite bind_runs by reflexivity.
  set (r' := rq_cleared ReqConsumed (clk (3 + tick w)) r).
  assert (Hc : request_check r' = true).
  { unfold r', rq_cleared, request_check in *. rewrite Hp. rewrite bool_decide_false by done. simpl. destruct_bools.
    repeat (apply andb_true_intro; split); try done; first [by apply bool_decide_eq_true_2|lia]. }
  assert (Hq : forall m, keys_unique id r' m = true).
  { intros m. apply bool_decide_eq_true_2. intros id' r0 _. right. auto. }
  erewrite bind_runs.
  2:{ apply sql_runs. unfold update_request. simpl. rewrite Hr. rewrite bool_decide_true by done.
      fold r'. change (clk (S (S (S (tick w))))) with (clk (3 + tick w)). fold r'. rewrite Hc, Hq. reflexivity. }
  eexists. split_and!; [reflexivity|done| |]; simpl; [by rewrite lookup_insert_eq|by rewrite lookup_delete_eq].
Qed.

Lemma openFirst_inline_runs id tok r e env c w :
  tokenHash tok = Ok (r_retrieval_hash r) -> t_requests (db w) !! id = Some r ->
  t_request_payloads (db w) !! id = Some c -> r_state r = Submitted -> r_backend r = SqliteBlob ->
  r_upload_key r = None -> r_final_key r = None -> request_check r = true ->
  r_envelope r = Some e -> UnmarshalEnvelope e = Some env -> r_size r = Some (strlen c) ->
  (forall n, (tick w <= n <= 12 + tick w)%nat -> clk n < r_expires r) ->
  exists kind w1, r_kind r = Some kind /\
    openFirst s id tok w = (Ok (InlineOpened (MkOpened kind (strlen c) env (MkStream c true) "")), w1) /\
    t_request_payloads (db w1) !! id = None /\
    exists t, t_requests (db w1) !! id = Some (rq_cleared ReqConsumed t r).
Proof.
  intros Htok Hr Hp Hs Hb Hk Hf Hck He Henv Hsz Hclk.
  destruct (r_kind r) as [kind|] eqn:Ek.
  2:{ unfold request_check in Hck. rewrite Hs, Ek in Hck. by rewrite !andb_false_r in Hck. }
  destruct (clearPayloadTx_runs id r Submitted ReqConsumed ReasonConsumed (bump (bump (bump (bump (bump w))))))
    as (w1 & Hclear & Htk & Hr1 & Hp1); try done.
  simpl in Htk. destruct (commit_check_runs (r_expires r) w1) as (w2 & Hcc & Hd2); [apply Hclk; lia|].
  exists kind, (bump w2). simpl. rewrite Hd2. split_and!; [done| |done|eauto].
  unfold openFirst, begin. rewrite Htok. erewrite bind_runs.
  2:{ apply transaction_runs. erewrite bind_runs by apply sql_query_runs.
      erewrite bind_runs by (apply (authorized_runs id r _ true); [done|congruence|apply Hclk; simpl; lia]).
      simpl. rewrite Hs. rewrite bool_decide_false by done.
      erewrite bind_runs by reflexivity. cbv beta iota. erewrite bind_runs.
      2:{ rewrite fail_if_runs by (by rewrite bool_decide_true).
          erewrite bind_runs by apply sql_query_runs. simpl. rewrite Hr, Hp, Ek, Hsz, He, Henv, Hb. simpl.
          rewrite fail_if_runs by (by rewrite Z.eqb_refl).
          erewrite bind_runs by exact Hclear. erewrite bind_runs by exact Hcc. reflexivity. }
      reflexivity. }
  reflexivity.
Qed.

(** C17: the owner gets what was submitted, once.  After a successful inline
    [Submit] to a waiting request, [Open] with the owner's token before the
    expiry returns the submitted kind, size and envelope and the bytes the
    submitted base64 stands for, and leaves the request consumed with its
    stored ciphertext deleted. *)
Theorem submit_open_roundtrip id tok rtok i w rc w1 r :
  t_requests (db w) !! id = Some r -> r_state r = Waiting -> r_backend r = SqliteBlob ->
  r_upload_key r = None -> r_final_key r = None ->
  Submit s id tok i w = (Ok rc, w1) -> tokenHash rtok = Ok (r_retrieval_hash r) ->
  (forall n, (tick w1 <= n <= 12 + tick w1)%nat -> clk n < r_expires r) ->
  exists c env w2, Open s id rtok w1 =
      (Ok (MkOpened (si_Kind i) (si_SizeBytes i) env (MkStream c true) ""), w2) /\
    Base64.encode Base64.StdEncoding c = si_Ciphertext i /\ DecodeEnvelope (si_Envelope i) = Some env /\
    t_request_payloads (db w2) !! id = None /\
    exists r2, t_requests (db w2) !! id = Some r2 /\ r_state r2 = ReqConsumed /\ is_some (r_consumed r2) = true.
Proof.
  intros Hr Hw Hb Hk Hf HS Htok Hclk.
  destruct (Submit_fresh _ _ _ _ _ _ _ HS Hr Hw) as (at_ & e & c & bh & Hv & Hck & Hr1 & Hp1).
  apply validateSubmission_ok in Hv as (env & Hdec & Henv & Hc & Hl & _).
  destruct (openFirst_inline_runs id rtok (rq_submitted at_ bh (si_Kind i) (si_SizeBytes i) e r) e env c w1) as (kind & w2 & Ek & Ho & Hp2 & t & Hr2);
    [exact Htok|exact Hr1|done|done|exact Hb|exact Hk|exact Hf|exact Hck|done|done|simpl; by rewrite Hl|exact Hclk|].
  simpl in Ek. injection Ek as <-. rewrite Hl in Ho.
  exists c, env, w2. split_and!; [|done..|eexists; split; [exact Hr2|done]].
  unfold Open. by erewrite bind_runs by exact Ho.
Qed.
End roundtrip.

(** ** Opened and accepted *)
Section accepted.
Context {ENV : Env} {CODEC : EventCodec} {RC : RequestCodec}.
Context (s : Options) `{!OptionsSpec s}.
Implicit Types w : World ApiDB.

Definition in_state (id : string) (st : request_state) (d : ApiDB) : Prop :=
  exists r, t_requests d !! id = Some r /\ r_state r = st.

(** The request accepted this attempt. *)
Definition accepted_as (id attempt : string) (d : ApiDB) : Prop :=
  exists r, t_requests d !! id = Some r /\ 2 <= phase (r_state r) /\ r_attempt r = Some attempt.

Lemma clearPayloadTx_state id p st reason w u w' :
  clearPayloadTx s id p st reason w = (Ok u, w') -> in_state id p (db w) /\ in_state id st (db w').
Proof.
  intros H. unfold clearPayloadTx, requireTransition in H.
  apply bind_ok in H as (t & w1 & Ht & H). mstep Ht. apply bind_ok in H as (u1 & w2 & He & H).
  apply enqueueRequestKeysTx_ok in He as (r & Hr & E & _ & _); [|by apply options_outbox_ok]. simpl in *.
  apply bind_ok in H as (n1 & w3 & Hd & H). mstep Hd. injection Hd as <- <-.
  apply bind_ok in H as (t2 & w4 & Ht & H). mstep Ht. apply bind_ok in H as (n & w5 & Hu & H). mstep H.
  apply update_request_ok in Hu as [(-> & _)|(-> & r' & Hr' & HP & Ed)]; [done|]. simpl in *. rewrite E in Hr'.
  assert (r' = r) as -> by congruence. apply bool_decide_eq_true in HP. split; [by exists r|].
  exists (rq_cleared st (clk (S (tick w2))) r). rewrite Ed. simpl. by rewrite lookup_insert_eq.
Qed.

(** A body that ran on a submitted request ran on the database as it was. *)
Lemma begin_submitted id d d0 r :
  t_requests d0 !! id = Some r -> r_state r = Submitted ->
  (d0 = d \/ exists r0, t_requests d !! id = Some r0 /\ r_state r0 = Uploading /\
     (r_state r = Waiting \/ r_state r = ReqUnavailable)) -> d0 = d.
Proof. intros Hr Hs [->|(r0 & _ & _ & [?|?])]; [done|congruence..]. Qed.

Lemma openFirst_opened id tok w o w' :
  openFirst s id tok w = (Ok (InlineOpened o), w') -> in_state id Submitted (db w) /\ in_state id ReqConsumed (db w').
Proof.
  intros H. unfold openFirst in H. apply begin_ok in H as (r & w0 & w1 & x & Hr & Hs & Hx & E); [|done].
  apply bind_ok in Hx as (u1 & w2 & H1 & Hx). mstep H1. destruct_bools. simpl in *.
  apply begin_submitted with (r := r) in Hs; [|done..]. rewrite Hs in *.
  apply bind_ok in Hx as ([ro p] & w3 & Hq & Hx). mstep Hq. simplify_eq.
  repeat (split_match Hx; try by (msteps Hx; destruct E as [[? _]|[? _]])).
  apply bind_ok in Hx as (u2 & w4 & H2 & Hx). mstep H2. apply bind_ok in Hx as (u3 & w5 & Hc & Hx).
  apply bind_ok in Hx as (u4 & w6 & Hcc & Hx). msteps Hx. destruct E as [[_ E]|[? _]]; [|done].
  apply clearPayloadTx_state in Hc as [? ?]. apply commit_check_db in Hcc. rewrite E, Hcc.
  split; [|done]. exists r. done.
Qed.

Lemma consumeObject_opened id tok key w u w' :
  consumeObject s id tok key w = (Ok u, w') -> in_state id Submitted (db w) /\ in_state id ReqConsumed (db w').
Proof.
  intros H. unfold consumeObject, requireTransition in H.
  apply begin_ok in H as (r & w0 & w1 & x & Hr & Hs & Hx & E); [|done].
  apply bind_ok in Hx as (u1 & w2 & H1 & Hx). mstep H1. destruct_bools. simpl in *.
  apply begin_submitted with (r := r) in Hs; [|done..]. rewrite Hs in *.
  apply bind_ok in Hx as (t & w3 & Ht & Hx). mstep Ht. apply bind_ok in Hx as (n & w4 & Hu & Hx).
  apply bind_ok in Hx as (u2 & w5 & Hn & Hx). mstep Hn.
  apply update_request_ok in Hu as [(-> & _)|(-> & r' & Hr' & HP & Ed)]; [done|].
  apply bind_ok in Hx as (u4 & w6 & Hcc & Hx). msteps Hx. destruct E as [[_ E]|[? _]]; [|done].
  apply commit_check_db in Hcc. rewrite E, Hcc, Ed. split; [by exists r|].
  eexists. simpl. by rewrite lookup_insert_eq.
Qed.

Lemma bytes_equal_Some x o : x <> "" -> bytes_equal x o = true -> o = Some x.
Proof. unfold bytes_equal. intros Hx ->%bool_decide_eq_true. destruct o; [done|]. by simpl in Hx. Qed.

Lemma Submit_accepts id tok i w rc w' a :
  Submit s id tok i w = (Ok rc, w') -> tokenHash (si_AttemptToken i) = Ok a -> accepted_as id a (db w').
Proof.
  intros H Ha. pose proof (tokenHash_nonempty _ _ Ha) as Hne. unfold Submit in H.
  apply bind_ok in H as ([[at_ e] c] & w0 & Hv & H). mstep Hv.
  assert (at_ = a) as ->.
  { unfold validateSubmission, rerr in Hv. destruct (_ || _); [done|]. rewrite Ha in Hv.
    repeat (split_match Hv; try done). by simplify_eq. }
  apply begin_ok in H as (r & w2 & w3 & x & Hr & Hs & Hx & E); [|done].
  apply bind_ok in Hx as (u1 & w4 & H1 & Hx). mstep H1. simpl in Hx.
  destruct (decide (r_state r = Waiting)) as [Hw|Hw].
  - rewrite Hw in Hx. apply bind_ok in Hx as (n & w5 & Hu & Hx).
    apply bind_ok in Hx as (u2 & w6 & Hn & Hx). unfold requireTransition in Hn. mstep Hn.
    apply update_request_ok in Hu as [(-> & _)|(-> & r' & Hr' & HP & Ed)]; [done|].
    apply bind_ok in Hx as (u3 & w7 & Hi & Hx). mstep Hi.
    apply bind_ok in Hx as (u4 & w8 & Hc & Hx). msteps Hx. apply commit_check_db in Hc.
    destruct E as [[_ E]|[? _]]; [|done]. unfold insert_request_payload in Hi. destruct (is_some _); [|done].
    destruct (ins _ _ _ _) as [m|]; [|done]. injection Hi as _ <-.
    unfold accepted_as. rewrite E, Hc. simpl. rewrite Ed. simpl. rewrite lookup_insert_eq.
    eexists. split_and!; [done|simpl; lia|done].
  - assert (Hp : 2 <= phase (r_state r)) by (destruct (r_state r); simpl; try done; by msteps Hx).
    destruct (r_state r) eqn:Es; [done|by msteps Hx|..].
    all: apply bind_ok in Hx as (rr & w5 & Hq & Hx); mstep Hq; rewrite Hr in Hx.
    all: apply bind_ok in Hx as (u2 & w6 & H2 & Hx); mstep H2; apply orb_false_iff in H2 as [H2 _].
    all: apply negb_false_iff, bytes_equal_Some in H2; [|done].
    all: apply bind_ok in Hx as (u4 & w8 & Hc & Hx); msteps Hx; apply commit_check_db in Hc.
    all: destruct E as [[_ E]|[? _]]; [|done]; exists r; rewrite E, Hc, Es; done.
Qed.

Lemma finalizeFirst_accepts id tok at_ i w rc w' :
  at_ <> "" -> finalizeFirst s id tok at_ i w = (Ok (inl rc), w') -> accepted_as id at_ (db w').
Proof.
  intros Hne H. unfold finalizeFirst in H. apply begin_ok in H as (r & w0 & w1 & x & Hr & Hs & Hx & E); [|done].
  apply bind_ok in Hx as (a' & w4 & Ha & Hx).
  apply objectAttemptTx_ok in Ha as (r' & Hr' & -> & ->). assert (r' = r) as -> by congruence.
  apply bind_ok in Hx as (u1 & w5 & H1 & Hx). mstep H1. apply bind_ok in Hx as (u2 & w6 & H2 & Hx). mstep H2.
  apply negb_false_iff, bytes_equal_Some in H2; [|done]. simpl in *. case_bool_decide as Hu; simpl in Hx.
  - apply bind_ok in Hx as (u3 & w7 & H3 & Hx). apply bind_ok in Hx as (u4 & w8 & Hc & Hx). msteps Hx.
    destruct E as [[E _]|[E _]]; simplify_eq.
  - apply bind_ok in Hx as (u3 & w7 & H3 & Hx). mstep H3. apply bind_ok in Hx as (u4 & w8 & Hc & Hx). msteps Hx.
    apply commit_check_db in Hc. destruct E as [[_ E]|[? _]]; [|done]. exists r. rewrite E, Hc. split_and!; [done| |done].
    apply negb_false_iff in H3. by destruct (r_state r).
Qed.

Lemma acceptAttempt_accepts id tok at_ a i w rc w' :
  at_ <> "" -> acceptAttempt s id tok at_ a i w = (Ok rc, w') -> accepted_as id at_ (db w').
Proof.
  intros Hne H. unfold acceptAttempt in H. apply begin_ok in H as (r & w0 & w1 & x & Hr & Hs & Hx & E); [|done].
  apply bind_ok in Hx as (a' & w4 & Ha & Hx).
  apply objectAttemptTx_ok in Ha as (r' & Hr' & -> & ->). assert (r' = r) as -> by congruence.
  apply bind_ok in Hx as (u1 & w5 & H1 & Hx). mstep H1. apply bind_ok in Hx as (u2 & w6 & H2 & Hx). mstep H2.
  apply negb_false_iff, bytes_equal_Some in H2; [|done]. simpl in *. case_bool_decide as Hu; simpl in Hx.
  - apply bind_ok in Hx as (u3 & w7 & H3 & Hx). mstep H3.
    apply bind_ok in Hx as (n & w8 & Hup & Hx). apply bind_ok in Hx as (u4 & w9 & Hn & Hx).
    unfold requireTransition in Hn. mstep Hn.
    apply update_request_ok in Hup as [(-> & _)|(-> & r2 & Hr2 & HP & Ed)]; [done|]. simpl in Hr2, Ed.
    assert (r2 = r) as -> by congruence.
    apply bind_ok in Hx as (t & w10 & Ht & Hx). mstep Ht. apply bind_ok in Hx as (u5 & w11 & He & Hx).
    apply enqueueObjectTx_ok in He as (_ & Eq & _); [|by apply options_outbox_ok]. simpl in *.
    apply bind_ok in Hx as (t2 & w12 & Ht & Hx). mstep Ht. apply bind_ok in Hx as (u6 & w13 & H6 & Hx). mstep H6.
    apply bind_ok in Hx as (u7 & w14 & Hc & Hx). msteps Hx. apply commit_check_db in Hc. simpl in Hc.
    destruct E as [[_ E]|[? _]]; [|done]. exists (rq_finalized r). rewrite E, Hc, Eq, Ed. simpl.
    rewrite lookup_insert_eq. split_and!; [done|lia|done].
  - apply bind_ok in Hx as (u3 & w7 & H3 & Hx). mstep H3. apply bind_ok in Hx as (u4 & w8 & Hc & Hx). msteps Hx.
    apply commit_check_db in Hc. destruct E as [[_ E]|[? _]]; [|done]. exists r. rewrite E, Hc. split_and!; [done| |done].
    apply negb_false_iff in H3. by destruct (r_state r).
Qed.
End accepted.
