(* ===== verification/Reaper.v ===== *)
(** * The reaper (src/internal/secrets/reaper.go, reconciliation.go, and
      [purgeManagementTx] of management.go)

    One tick claims a batch of expired or abandoned secrets and hard-deletes
    them, purges ended management records and expired requests in the same
    transaction, then reconciles one page of the bucket against the tables. *)

From S2P Require Import Prelude World GoTime Codec Schema AgeFormat Outbox ObjectStorage RequestStore RequestCleanup SecretStore.

(** SQLite's [datetime] (whole seconds) and [julianday] (milliseconds) of a
    stored timestamp, as integers that order the same way. *)
Class SqliteDate := {
  datetime : time -> Z;
  julianday : time -> Z;
  datetime_mono a b : a <= b -> datetime a <= datetime b;
  julianday_mono a b : a <= b -> julianday a <= julianday b;
  julianday_ms a b : a + 1000000 <= b -> julianday a < julianday b;
}.

Definition DefaultReaperBatchSize : Z := 50.

Record Reaper := MkReaper {
  store : Store;
  reaper_outbox : outboxEnqueuer;
  batchSize : Z;
  reaper_pendingTTL : Z;
  reaper_requests : option RequestStore.Options;
}.

Definition NewReaper (st : Store) (ob : outboxEnqueuer) (requests : option RequestStore.Options) (batch : Z) : Reaper :=
  MkReaper st ob (if batch <=? 0 then DefaultReaperBatchSize else batch) (pendingTTL st) requests.

(** [claimedRow]. *)
Record claimedRow := MkClaimed { c_id : string; c_state : secret_state; c_backend : backend; c_key : string }.

(** ** The claim statement *)
Definition reclaimable (t orphanCutoff : time) (r : secret_row) : bool :=
  is_none (s_reclaim r) && is_none (s_consumed r) &&
  (sql_le_trimmed (s_expires r) t || (is_pending r && sql_le_trimmed (s_created r) orphanCutoff)).

Definition reclaimed (t : time) (r : secret_row) : secret_row :=
  MkSecret (s_kind r) (s_backend r) (s_key r) (s_access_kdf r) (s_proof_hash r) (s_wrapped r)
    (s_filename r) (s_content_type r) (s_size r) (s_max_views r) (s_view_count r) (s_failed r)
    (s_state r) (s_expires r) (s_consumed r) (s_created r) t (Some t).

Section reaper.
Context {ENV : Env} {DATES : SqliteDate} (r : Reaper).

(** The unified "reclaimable since" key; the whole seconds of [pendingTTL]. *)
Definition reclaimable_since (row : secret_row) : Z :=
  match s_state row with
  | Active => datetime (s_expires row)
  | PendingUpload =>
      Z.min (datetime (s_expires row))
        (datetime (s_created row + Z.quot (reaper_pendingTTL r) Second * Second))
  end.
Definition since_order (a b : string * secret_row) : Prop := reclaimable_since a.2 <= reclaimable_since b.2.
#[global] Instance since_order_dec a b : Decision (since_order a b).
Proof. unfold since_order. apply _. Defined.

Definition claim_batch (t orphanCutoff : time) (d : ApiDB) : list (string * secret_row) :=
  select since_order (fun _ => reclaimable t orphanCutoff) (batchSize r) (t_secrets d).

Definition claimReclaimable (t orphanCutoff : time) (d : ApiDB) : option (list claimedRow * ApiDB) :=
  let batch := claim_batch t orphanCutoff d in
  Some (map (fun p => MkClaimed p.1 (s_state p.2) (s_backend p.2) (s_key p.2)) batch,
        set_secrets (foldr (fun p m => <[p.1 := reclaimed t p.2]> m) (t_secrets d) batch) d).

Definition reclaimRow (c : claimedRow) (t : time) : M ApiDB unit :=
  do! (match c_state c with
       | PendingUpload => recordManagementOutcomeTx (c_id c) Unavailable
       | Active => ret tt
       end) in
  do! ReclaimTx (c_id c) in
  match c_backend c with
  | SqliteBlob => ret tt
  | S3Object =>
      let! jobID := NewJobID in
      let reason := match c_state c with PendingUpload => ReasonOrphan | Active => ReasonExpired end in
      do! enq (reaper_outbox r) (delete_job jobID (c_key c) reason t) in ret tt
  end.

Fixpoint reclaim_all (l : list claimedRow) (t : time) : M ApiDB unit :=
  match l with
  | [] => ret tt
  | c :: l => do! reclaimRow c t in reclaim_all l t
  end.

(** ** Purging management records *)

(** An S3 body opened within the grace may still be streaming. *)
Definition streaming (t : time) (id : string) (d : ApiDB) : bool :=
  match t_secrets d !! id with
  | Some row => bool_decide (s_backend row = S3Object) &&
      match s_consumed row with Some c => julianday (t - openObjectGrace) <? julianday c | None => false end
  | None => false
  end.

Definition purgeable (t : time) (limit : Z) (d : ApiDB) : list string :=
  (select (text_order (fun m => formatFixed (m_expires m)))
     (fun id m => sql_le_fixed (m_expires m) t && negb (streaming t id d)) limit (t_management d)).*1.

Definition delete_consumed_in (ids : list string) (d : ApiDB) : ApiDB :=
  let gone := filter (fun p : string * secret_row => is_some (s_consumed p.2) = true /\ p.1 ∈ ids) (t_secrets d) in
  set_payloads (t_payloads d ∖ ((fun _ => {| p_ciphertext := ""; p_created := 0 |}) <$> gone))
    (set_secrets (t_secrets d ∖ gone) d).

Definition delete_management_in (ids : list string) (d : ApiDB) : ApiDB :=
  set_management (filter (fun p : string * management_row => p.1 ∉ ids) (t_management d)) d.

Definition purgeManagementTx (t : time) (limit : Z) : M ApiDB unit :=
  do! sql "purge managed terminal metadata" (fun d => Some (tt, delete_consumed_in (purgeable t limit d) d)) in
  sql "purge management capabilities" (fun d => Some (tt, delete_management_in (purgeable t limit d) d)).

(** ** One claim *)
Definition claimTx (t : time) : M ApiDB (list claimedRow) :=
  let! batch := sql "claim reclaimable secrets" (claimReclaimable t (t - reaper_pendingTTL r)) in
  do! reclaim_all batch t in
  do! purgeManagementTx t (batchSize r) in
  do! RequestCleanup.PurgeExpiredTx t (batchSize r) (Some (reaper_outbox r)) in
  ret batch.

Definition pending_claimed (l : list claimedRow) : Z :=
  Z.of_nat (length (filter (fun c => c_state c = PendingUpload) l)).

Definition claimExpired : M ApiDB Z :=
  let! t := now in
  let! batch := transaction "begin reaper claim tx" "commit reaper claim tx"
    (let! batch := claimTx t in ret (Commit batch)) in
  do! uploads_add (- pending_claimed batch) in
  ret (Z.of_nat (length batch)).

(** ** Reconciliation of the bucket *)
Definition protectObject (key : string) (t : time) (d : ApiDB) : bool :=
  match filter (fun p : string * secret_row => s_backend p.2 = S3Object /\ s_key p.2 = key /\ s_reclaim p.2 = None)
          (map_to_list (t_secrets d)) with
  | [] => false
  | (_, row) :: _ =>
      match s_consumed row with
      | Some c => before t (c + openObjectGrace)
      | None =>
          if negb (before t (s_expires row)) then false
          else match s_state row with
               | Active => true
               | PendingUpload => before t (s_created row + reaper_pendingTTL r)
               end
      end
  end.

Fixpoint reconcile_keys (t : time) (keys : list string) (count : Z) : M ApiDB Z :=
  match keys with
  | [] => ret count
  | key :: keys =>
      if negb (has_prefix managedObjectPrefix key) || bool_decide (key = managedObjectPrefix)
      then reconcile_keys t keys count
      else
        let! live := sql_query "check live object protection" (protectObject key t) in
        if live : bool then reconcile_keys t keys count
        else
          let! jobID := NewJobID in
          let! n := sql "claim object cleanup" (claim_pending key jobID) in
          if n =? 0 then reconcile_keys t keys count
          else
            do! enq (reaper_outbox r) (delete_job jobID key ReasonOrphan t) in
            reconcile_keys t keys (count + 1)
  end.

Definition reconcilePage (generation : Z) (page : ObjectPage) : M ApiDB Z :=
  transaction "begin object reconciliation" "commit object reconciliation"
    (let! n := sql "advance object reconciliation cursor" (update_cursor (NextCursor page) generation) in
     if n =? 0 then ret (Rollback 0)
     else
       let! t := now in
       let! count := reconcile_keys t (Keys page) 0 in
       ret (Commit count)).

Definition ReconcileOnce : M ApiDB Z :=
  match objects (store r) with
  | None => ret 0
  | Some obj =>
      let! cur := sql_query "read object reconciliation cursor" t_cursor in
      let limit := Z.min (batchSize r) 1000 in
      let! listed := attempt (Objects.List obj managedObjectPrefix (cu_token cur) limit) in
      match listed with
      | Err e =>
          do! (if decide (e = ErrInvalidCursor) then
                 if bool_decide (cu_token cur = "") then ret tt
                 else do! sql "reset object reconciliation cursor" (update_cursor "" (cu_generation cur)) in ret tt
               else ret tt) in
          throw e
      | Ok page =>
          do! fail_if ((limit <? Z.of_nat (length (Keys page))) ||
                       (negb (bool_decide (NextCursor page = "")) && bool_decide (NextCursor page = cu_token cur)))
                (Fail "invalid object listing page") in
          reconcilePage (cu_generation cur) page
      end
  end.

(** [ClaimOnce]: the number claimed, with the errors that were joined. *)
Definition error_of {A} (x : result A) : list err := match x with Ok _ => [] | Err e => [e] end.

Definition ClaimOnce : M ApiDB (Z * list err) :=
  let! a := attempt claimExpired in
  let! b := attempt ReconcileOnce in
  let! c := attempt (match reaper_requests r with
                     | Some rs => RequestCleanup.ReconcileOnce rs (batchSize r)
                     | None => ret 0
                     end) in
  ret (match a with Ok n => n | Err _ => 0 end, error_of a ++ error_of b ++ error_of c).
End reaper.

Definition AcknowledgeObjectCleanup {ENV : Env} (jobID key : string) : M ApiDB unit :=
  do! fail_if (blank jobID || negb (has_prefix managedObjectPrefix key) || bool_decide (key = managedObjectPrefix))
        (SecretsErr ErrInvalidInput) in
  sql "acknowledge object cleanup" (release_pending key jobID).
