(* ===== verification/ReaperProofs.v ===== *)
(** * Correctness of the reaper

    Which rows a tick claims, what it does with them, and that neither the
    purge of management records nor the reconciliation of the bucket touches a
    delivery somebody can still use. *)

From S2P Require Import Prelude World GoTime Codec Schema AgeFormat Outbox ObjectStorage RequestStore RequestCleanup RequestFrames RequestObjects SecretStore SecretProofs SecretUploads Reaper.

(** ** The claim condition *)

(** A delivery somebody can still finalize, open or cancel at [t]. *)
Definition usable (ttl : Z) (t : time) (r : secret_row) : Prop :=
  t < s_expires r /\ (s_state r = PendingUpload -> t < s_created r + ttl).

(** The times the statements compare are within the years the formats print. *)
Definition years_ok (ttl : Z) (t : time) (r : secret_row) : Prop :=
  four_digit_year (s_expires r) = true /\ four_digit_year (s_created r) = true /\
  four_digit_year t = true /\ four_digit_year (t - ttl) = true.

Lemma reclaimable_spec ttl t r :
  years_ok ttl t r ->
  reclaimable t (t - ttl) r = true <-> s_reclaim r = None /\ s_consumed r = None /\ ~ usable ttl t r.
Proof.
  intros (Ye & Yc & Yt & Yo). unfold reclaimable, usable, is_pending, is_none, is_some.
  rewrite !sql_le_trimmed_spec by done.
  destruct (s_reclaim r), (s_consumed r); simpl; try (split; [done|by intros (? & ? & ?)]).
  rewrite orb_true_iff, andb_true_iff, bool_decide_eq_true, !Z.leb_le.
  split.
  - intros H. split_and!; [done..|]. intros [H1 H2]. destruct H as [H|[Hp H]]; [lia|]. specialize (H2 Hp). lia.
  - intros (_ & _ & H). destruct (decide (s_expires r <= t)); [by left|right].
    destruct (decide (s_state r = PendingUpload)) as [Hp|Hp]; [split; [done|]|destruct H; split; [lia|done]].
    destruct (decide (s_created r <= t - ttl)); [done|]. destruct H. split; [lia|]. intros _. lia.
Qed.

(** The finalize deadline is the end of a pending row's usable time. *)
Lemma usable_deadline (s : Store) t r :
  s_state r = PendingUpload -> usable (pendingTTL s) t r <-> t < finalize_deadline s r.
Proof.
  intros Hp. unfold usable, finalize_deadline, before. rewrite Hp.
  destruct (Z.ltb_spec (s_created r + pendingTTL s) (s_expires r)); naive_solver lia.
Qed.

(** Object keys identify their secret. *)
Definition keys_distinct (d : ApiDB) : Prop :=
  forall id id' r r', t_secrets d !! id = Some r -> t_secrets d !! id' = Some r' ->
    s_backend r = S3Object -> s_backend r' = S3Object -> s_key r = s_key r' -> id = id'.

Lemma protectObject_found rp t d id r :
  keys_distinct d -> t_secrets d !! id = Some r -> s_backend r = S3Object -> s_reclaim r = None ->
  protectObject rp (s_key r) t d =
    match s_consumed r with
    | Some c => before t (c + openObjectGrace)
    | None => if negb (before t (s_expires r)) then false
              else match s_state r with
                   | Active => true
                   | PendingUpload => before t (s_created r + reaper_pendingTTL rp)
                   end
    end.
Proof.
  intros Hk Hr Hb Hrc. unfold protectObject.
  set (P := fun p : string * secret_row => s_backend p.2 = S3Object /\ s_key p.2 = s_key r /\ s_reclaim p.2 = None).
  assert (Hall : forall p, p ∈ filter P (map_to_list (t_secrets d)) -> p = (id, r)).
  { intros [id' r'] [(Hb' & Hk' & _) Hin]%list_elem_of_filter. simpl in *. apply elem_of_map_to_list in Hin.
    assert (id' = id) as -> by (eapply Hk; eauto). congruence. }
  assert (Hin : (id, r) ∈ filter P (map_to_list (t_secrets d))).
  { apply list_elem_of_filter. split; [done|]. by apply elem_of_map_to_list. }
  destruct (filter P _) as [|p l]; [by apply not_elem_of_nil in Hin|].
  assert (p = (id, r)) as -> by (apply Hall; left). done.
Qed.

(** The two sweeps agree: an unconsumed, unclaimed object of the bucket is
    protected from the reconciler exactly while the reaper may not claim it. *)
Lemma protect_iff_usable rp t d id r :
  keys_distinct d -> t_secrets d !! id = Some r -> s_backend r = S3Object ->
  s_reclaim r = None -> s_consumed r = None ->
  protectObject rp (s_key r) t d = true <-> usable (reaper_pendingTTL rp) t r.
Proof.
  intros Hk Hr Hb Hrc Hc. rewrite (protectObject_found rp t d id r) by done. rewrite Hc.
  unfold usable, before. destruct (Z.ltb_spec t (s_expires r)); simpl.
  - destruct (s_state r); simpl; [naive_solver|]. rewrite Z.ltb_lt. naive_solver.
  - naive_solver lia.
Qed.

(** ** The claim statement *)
Section fold.
Context {A : Type}.
Lemma foldr_insert_in (f : A -> A) l (m : gmap string A) id a :
  NoDup l.*1 -> (id, a) ∈ l -> foldr (fun p m => <[p.1 := f p.2]> m) m l !! id = Some (f a).
Proof.
  induction l as [|[k b] l IH]; intros Hd Hin; [by apply not_elem_of_nil in Hin|].
  simpl in *. apply NoDup_cons in Hd as [Hn Hd].
  apply elem_of_cons in Hin as [[= <- <-]|Hin]; [by rewrite lookup_insert_eq|].
  rewrite lookup_insert_ne; [by apply IH|]. intros ->. apply Hn. apply list_elem_of_fmap. by exists (id, a).
Qed.
Lemma foldr_insert_out (f : A -> A) l (m : gmap string A) id :
  id ∉ l.*1 -> foldr (fun p m => <[p.1 := f p.2]> m) m l !! id = m !! id.
Proof.
  induction l as [|[k b] l IH]; intros Hn; [done|]. simpl in *. apply not_elem_of_cons in Hn as [Hne Hn].
  rewrite lookup_insert_ne by done. by apply IH.
Qed.
End fold.

Lemma count_in_foldr t l m :
  NoDup l.*1 -> (forall id r, (id, r) ∈ l -> m !! id = Some r) ->
  count_in (foldr (fun p m => <[p.1 := reclaimed t p.2]> m) m l) = count_in m.
Proof.
  induction l as [|[id r] l IH]; intros Hd Hin; [done|]. simpl in *. apply NoDup_cons in Hd as [Hn Hd].
  rewrite (count_in_update _ _ r).
  - rewrite IH by (try done; intros; apply Hin; by right). unfold pending1, is_pending. simpl. lia.
  - rewrite foldr_insert_out by done. apply Hin. left.
Qed.

Definition claimed_of (p : string * secret_row) : claimedRow := MkClaimed p.1 (s_state p.2) (s_backend p.2) (s_key p.2).

(** ** Hard deletion of the claimed rows *)
Definition only_dropped {A} (ids : list string) (m m' : gmap string A) : Prop :=
  forall id, m' !! id = if decide (id ∈ ids) then None else m !! id.

Lemma only_dropped_nil {A} (m : gmap string A) : only_dropped [] m m.
Proof. intros id. rewrite decide_False; [done|]. apply not_elem_of_nil. Qed.
Lemma only_dropped_cons {A} k ids (m m' : gmap string A) :
  only_dropped ids (delete k m) m' -> only_dropped (k :: ids) m m'.
Proof.
  intros H id. rewrite H. destruct (decide (id = k)) as [->|Hne].
  - rewrite (decide_True (P := k ∈ k :: ids)) by left. rewrite lookup_delete_eq. by destruct (decide _).
  - rewrite lookup_delete_ne by done. destruct (decide (id ∈ ids)).
    + rewrite decide_True; [done|by right].
    + rewrite decide_False; [done|]. by apply not_elem_of_cons.
Qed.

(** Only outcomes are recorded in the management table. *)
Definition same_records (m m' : gmap string management_row) : Prop :=
  forall id, (m_token_hash <$> m' !! id, m_expires <$> m' !! id) = (m_token_hash <$> m !! id, m_expires <$> m !! id).
#[export] Instance same_records_preorder : PreOrder same_records.
Proof. split; [done|]. intros m1 m2 m3 H1 H2 id. by rewrite H2, H1. Qed.

Lemma same_records_outcome id o d : same_records (t_management d) (t_management (record_outcome id o d)).
Proof.
  intros id'. unfold record_outcome. repeat case_match; try done. simpl.
  destruct (decide (id' = id)) as [->|Hne]; [|by rewrite lookup_insert_ne].
  rewrite lookup_insert_eq. match goal with Hx : t_management d !! id = _ |- _ => rewrite Hx end. done.
Qed.

Record reclaim_effect `{EventCodec} (l : list claimedRow) (d d' : ApiDB) : Prop := {
  re_secrets : only_dropped (c_id <$> l) (t_secrets d) (t_secrets d');
  re_payloads : only_dropped (c_id <$> l) (t_payloads d) (t_payloads d');
  re_management : same_records (t_management d) (t_management d');
  re_requests : t_requests d' = t_requests d;
  re_outbox : outbox_grows d d';
  re_jobs : forall c, c ∈ l -> c_backend c = S3Object -> has_job (c_key c) d';
  re_count : count_in (t_secrets d') = count_in (t_secrets d) - pending_claimed l;
}.

Section reclaim.
Context {ENV : Env} {CODEC : EventCodec} {DATES : SqliteDate}.
Context (r : Reaper) (Hob : OutboxSpec (reaper_outbox r)).
Implicit Types w : World ApiDB.

Definition marked (c : claimedRow) (d : ApiDB) : Prop :=
  exists row, t_secrets d !! c_id c = Some row /\ is_some (s_reclaim row) = true /\ s_state row = c_state c.

Lemma ReclaimTx_ok id w u w' row :
  t_secrets (db w) !! id = Some row -> is_some (s_reclaim row) = true ->
  ReclaimTx id w = (Ok u, w') ->
  db w' = set_payloads (delete id (t_payloads (db w))) (set_secrets (delete id (t_secrets (db w))) (db w)) /\
  trace w' = trace w.
Proof.
  intros Hr Hm H. unfold ReclaimTx in H. apply bind_ok in H as (u1 & w1 & H1 & H). mstep H1.
  apply bind_ok in H as (n & w2 & H2 & H). mstep H2. injection H2 as _ <-.
  apply bind_ok in H as (n2 & w3 & H3 & H). mstep H3. msteps H.
  unfold delete_secret in H3. simpl in H3. rewrite Hr, Hm in H3. injection H3 as _ <-. simpl.
  split; [|done]. by rewrite delete_delete_eq.
Qed.

Lemma reclaimRow_ok c t w u w' :
  marked c (db w) -> reclaimRow r c t w = (Ok u, w') -> reclaim_effect [c] (db w) (db w').
Proof.
  intros (row & Hr & Hm & Hst) H. unfold reclaimRow in H.
  apply bind_ok in H as (u1 & w1 & Ho & H).
  assert (Hw1 : t_secrets (db w1) = t_secrets (db w) /\ t_payloads (db w1) = t_payloads (db w) /\
    same_records (t_management (db w)) (t_management (db w1)) /\
    t_requests (db w1) = t_requests (db w) /\ t_outbox (db w1) = t_outbox (db w)).
  { destruct (c_state c); [msteps Ho; split_and!; [done|done|reflexivity|done..]|].
    apply recordManagementOutcomeTx_ok in Ho as [-> _].
    split_and!; [..|by unfold record_outcome; repeat case_match];
      first [apply same_records_outcome|by unfold record_outcome; repeat case_match]. }
  destruct Hw1 as (Es & Ep & Em & Er & Eo).
  apply bind_ok in H as (u2 & w2 & Hd & H).
  apply (ReclaimTx_ok _ _ _ _ row) in Hd as [Hd _]; [|by rewrite Es|done].
  assert (Hfin : exists dj, db w' = dj /\ t_secrets dj = delete (c_id c) (t_secrets (db w)) /\
    t_payloads dj = delete (c_id c) (t_payloads (db w)) /\ same_records (t_management (db w)) (t_management dj) /\
    t_requests dj = t_requests (db w) /\ outbox_grows (db w) dj /\ (c_backend c = S3Object -> has_job (c_key c) dj)).
  { exists (db w'). split; [done|]. destruct (c_backend c).
    - msteps H. rewrite Hd. simpl. rewrite Es, Ep. split_and!; try done. by apply outbox_grows_same.
    - unfold NewJobID in H. apply bind_ok in H as (j & w3 & Hj & H). msteps Hj.
      apply bind_ok in H as (rec & w4 & He & H). msteps H. apply enq_ok in He as [He _]. simpl in He.
      assert (Hjob : has_job (c_key c) (db w4)) by (by apply enqueued_has_job in He). pose proof (outbox_grows_enqueued _ _ _ He) as Hg.
      destruct He as (orow & _ & _ & E). rewrite Hd in E, Hg. rewrite E in *. simpl in *. rewrite Es, Ep.
      split_and!; try done. etrans; [|exact Hg]. by apply outbox_grows_same. }
  destruct Hfin as (dj & <- & E1 & E2 & E3 & E4 & E5 & E6). split; try done.
  - rewrite E1. apply only_dropped_cons, only_dropped_nil.
  - rewrite E2. apply only_dropped_cons, only_dropped_nil.
  - intros c' ->%list_elem_of_singleton. done.
  - rewrite E1, (count_in_delete _ _ _ Hr). unfold pending_claimed, pending1, is_pending.
    rewrite Hst. destruct (c_state c) eqn:Ec; simpl.
    + rewrite filter_cons_False by (by rewrite Ec). simpl. lia.
    + rewrite filter_cons_True by done. simpl. lia.
Qed.

Lemma pending_claimed_cons c l : pending_claimed (c :: l) = pending_claimed [c] + pending_claimed l.
Proof.
  unfold pending_claimed. change (c :: l) with ([c] ++ l). rewrite filter_app, length_app. lia.
Qed.

Lemma reclaim_all_ok l t w u w' :
  NoDup (c_id <$> l) -> (forall c, c ∈ l -> marked c (db w)) -> reclaim_all r l t w = (Ok u, w') ->
  reclaim_effect l (db w) (db w').
Proof.
  revert w. induction l as [|c l IH]; intros w Hd Hm H; cbn [reclaim_all] in H.
  { msteps H. split; first [done|apply only_dropped_nil|by intros c ?%not_elem_of_nil|idtac]; [reflexivity..|].
    unfold pending_claimed. simpl. lia. }
  apply bind_ok in H as (u1 & w1 & H1 & H). apply reclaimRow_ok in H1; [|apply Hm; left].
  rewrite fmap_cons in Hd. apply NoDup_cons in Hd as [Hn Hd].
  assert (Hs1 : t_secrets (db w1) = delete (c_id c) (t_secrets (db w)) /\
    t_payloads (db w1) = delete (c_id c) (t_payloads (db w))).
  { split; apply map_eq; intros id.
    - rewrite (re_secrets _ _ _ H1 id). simpl. destruct (decide (id = c_id c)) as [->|Hne].
      + rewrite decide_True by left. by rewrite lookup_delete_eq.
      + rewrite decide_False by (by intros ?%list_elem_of_singleton). by rewrite lookup_delete_ne.
    - rewrite (re_payloads _ _ _ H1 id). simpl. destruct (decide (id = c_id c)) as [->|Hne].
      + rewrite decide_True by left. by rewrite lookup_delete_eq.
      + rewrite decide_False by (by intros ?%list_elem_of_singleton). by rewrite lookup_delete_ne. }
  destruct Hs1 as [Es Ep]. apply IH in H; [|done|].
  2:{ intros c' Hc'. destruct (Hm c') as (row & Hr & ? & ?); [by right|]. exists row. rewrite Es.
      rewrite lookup_delete_ne; [done|]. intros E. apply Hn. rewrite E. by apply list_elem_of_fmap_2. }
  destruct H as [A1 A2 A3 A4 A5 A6 A7]. destruct H1 as [_ _ B3 B4 B5 B6 B7]. split.
  - rewrite fmap_cons. apply only_dropped_cons. by rewrite <- Es.
  - rewrite fmap_cons. apply only_dropped_cons. by rewrite <- Ep.
  - by etrans.
  - congruence.
  - by etrans.
  - intros c' [->|Hc']%elem_of_cons Hb; [|by apply A6]. eapply has_job_grows; [exact A5|]. apply B6; [left|done].
  - rewrite pending_claimed_cons. lia.
Qed.
End reclaim.

(** ** Purging management records *)
Lemma select_ext {A} (R : relation (string * A)) `{forall a b, Decision (R a b)} (P Q : string -> A -> bool) n m :
  (forall id a, m !! id = Some a -> P id a = Q id a) -> select R P n m = select R Q n m.
Proof.
  intros H0. unfold select. do 2 f_equal.
  assert (Hl : forall l : list (string * A), (forall p, p ∈ l -> m !! p.1 = Some p.2) ->
    filter (fun p => P p.1 p.2 = true) l = filter (fun p => Q p.1 p.2 = true) l).
  { induction l as [|[id a] l IH]; intros Hin; [done|].
    assert (E : P id a = Q id a) by (apply H0, (Hin (id, a)); left).
    assert (IH' := IH (fun p Hp => Hin p (list_elem_of_further _ _ _ Hp))).
    destruct (Q id a) eqn:EQ.
    - rewrite !filter_cons_True by (simpl; congruence). by rewrite IH'.
    - rewrite !filter_cons_False by (simpl; congruence). done. }
  apply Hl. intros [id a] Hin. by apply elem_of_map_to_list.
Qed.

Section purge.
Context {ENV : Env} {DATES : SqliteDate}.
Implicit Types w : World ApiDB.

Definition purges (ids : list string) (r : secret_row) (id : string) : bool :=
  is_some (s_consumed r) && bool_decide (id ∈ ids).

Lemma delete_consumed_secrets ids d id :
  t_secrets (delete_consumed_in ids d) !! id =
    match t_secrets d !! id with Some r => if purges ids r id then None else Some r | None => None end.
Proof.
  unfold delete_consumed_in, purges. simpl. set (F := fun p : string * secret_row => _).
  destruct (t_secrets d !! id) as [r|] eqn:E.
  - destruct (is_some (s_consumed r) && bool_decide (id ∈ ids)) eqn:Ec.
    + apply lookup_difference_None. right. exists r. apply map_lookup_filter_Some. destruct_bools. done.
    + apply lookup_difference_Some. split; [done|]. apply map_lookup_filter_None. right.
      intros r' Hr' [Hc Hi]. assert (r' = r) as -> by congruence. simpl in *.
      rewrite Hc, bool_decide_true in Ec by done. done.
  - apply lookup_difference_None. by left.
Qed.

Lemma delete_consumed_payloads ids d id r :
  t_secrets d !! id = Some r -> purges ids r id = false ->
  t_payloads (delete_consumed_in ids d) !! id = t_payloads d !! id.
Proof.
  intros Hr Hp. unfold delete_consumed_in, purges in *. simpl. set (F := fun p : string * secret_row => _).
  rewrite lookup_difference, lookup_fmap.
  assert (E : filter F (t_secrets d) !! id = None); [|by rewrite E].
  apply map_lookup_filter_None. right. intros r' Hr' [Hc Hi]. assert (r' = r) as -> by congruence.
  simpl in *. rewrite Hc, bool_decide_true in Hp by done. done.
Qed.

Lemma delete_consumed_payloads_weaken ids d id :
  t_payloads (delete_consumed_in ids d) !! id = t_payloads d !! id \/
  t_payloads (delete_consumed_in ids d) !! id = None.
Proof.
  unfold delete_consumed_in. simpl. rewrite lookup_difference. destruct (_ !! id); auto.
Qed.

Lemma count_in_delete_consumed ids d :
  pending_ok d -> count_in (t_secrets (delete_consumed_in ids d)) = count_in (t_secrets d).
Proof.
  intros Hp. unfold count_in. f_equal. f_equal. apply map_eq. intros id.
  apply option_eq. intros r. rewrite !map_lookup_filter_Some, delete_consumed_secrets.
  destruct (t_secrets d !! id) as [r0|] eqn:E; [|done]. unfold purges.
  destruct (is_some (s_consumed r0)) eqn:Ec; simpl; [|done].
  assert (is_pending r0 = false).
  { unfold is_pending. apply bool_decide_eq_false. intros Hs. destruct (Hp id r0 E Hs) as [Hn _].
    by rewrite Hn in Ec. }
  destruct (bool_decide (id ∈ ids)); [|done].
  split; [by intros [? _]|]. intros [[= <-] Hx]. simpl in Hx. congruence.
Qed.

Lemma purgeable_not_streaming t n d id : id ∈ purgeable t n d -> streaming t id d = false.
Proof.
  unfold purgeable. intros ([id' m] & -> & Hin)%list_elem_of_fmap. apply select_elem in Hin as [_ HP].
  simpl in *. apply andb_true_iff in HP as [_ HP]. by apply negb_true_iff.
Qed.

Lemma purgeable_expired t n d id : id ∈ purgeable t n d ->
  exists m, t_management d !! id = Some m /\ sql_le_fixed (m_expires m) t = true.
Proof.
  unfold purgeable. intros ([id' m] & -> & Hin)%list_elem_of_fmap. apply select_elem in Hin as [Hm HP].
  simpl in *. apply andb_true_iff in HP as [HP _]. eauto.
Qed.

(** The two statements select the same records: what the first one deletes was
    not streaming. *)
Lemma purgeable_stable t n d :
  purgeable t n (delete_consumed_in (purgeable t n d) d) = purgeable t n d.
Proof.
  unfold purgeable at 1 3. simpl. f_equal. apply select_ext. intros id m Hm. f_equal. f_equal.
  unfold streaming at 1. rewrite delete_consumed_secrets.
  destruct (t_secrets d !! id) as [row|] eqn:E; [|unfold streaming; by rewrite E].
  destruct (purges _ row id) eqn:Ep; [|unfold streaming; by rewrite E].
  unfold purges in Ep. destruct_bools. symmetry. by eapply purgeable_not_streaming.
Qed.

Lemma purgeManagementTx_ok t n w u w' :
  purgeManagementTx t n w = (Ok u, w') ->
  db w' = delete_management_in (purgeable t n (db w)) (delete_consumed_in (purgeable t n (db w)) (db w)).
Proof.
  intros H. unfold purgeManagementTx in H. apply bind_ok in H as (u1 & w1 & H1 & H).
  mstep H1. injection H1 as _ <-. mstep H. injection H as _ <-. simpl. by rewrite purgeable_stable.
Qed.

(** A body opened within the grace is streaming. *)
Lemma streaming_grace t id d row c :
  t_secrets d !! id = Some row -> s_backend row = S3Object -> s_consumed row = Some c ->
  t - openObjectGrace + 1000000 <= c -> streaming t id d = true.
Proof.
  intros Hr Hb Hc Hle. unfold streaming. rewrite Hr, Hc, bool_decide_true by done. simpl.
  apply Z.ltb_lt. by apply julianday_ms.
Qed.
End purge.

(** ** One claim *)
Section claim.
Context {ENV : Env} {CODEC : EventCodec} {DATES : SqliteDate}.
Context (r : Reaper) (Hob : OutboxSpec (reaper_outbox r)).
Implicit Types w : World ApiDB.

Definition marked_db (t : time) (batch : list (string * secret_row)) (d : ApiDB) : ApiDB :=
  set_secrets (foldr (fun p m => <[p.1 := reclaimed t p.2]> m) (t_secrets d) batch) d.

(** What a committed claim did, statement by statement. *)
Definition claim_effect (t : time) (batch : list (string * secret_row)) (d d' : ApiDB) : Prop :=
  exists d1 d2, reclaim_effect (claimed_of <$> batch) (marked_db t batch d) d1 /\
    (let ids := purgeable t (batchSize r) d1 in d2 = delete_management_in ids (delete_consumed_in ids d1)) /\
    same_secrets d2 d' /\ outbox_grows d2 d' /\ no_key_lost d2 d'.

Lemma claim_batch_NoDup t o d : NoDup (claim_batch r t o d).*1.
Proof. apply select_NoDup. Qed.
Lemma claim_batch_in t o d id row :
  (id, row) ∈ claim_batch r t o d -> t_secrets d !! id = Some row /\ reclaimable t o row = true.
Proof. unfold claim_batch. intros H. by apply select_elem in H. Qed.

Lemma claimTx_ok t w l w' :
  claimTx r t w = (Ok l, w') ->
  let batch := claim_batch r t (t - reaper_pendingTTL r) (db w) in
  l = claimed_of <$> batch /\ claim_effect t batch (db w) (db w').
Proof.
  intros H batch. unfold claimTx in H. apply bind_ok in H as (l1 & w1 & H1 & H). mstep H1.
  unfold claimReclaimable in H1. fold batch in H1. injection H1 as <- <-.
  apply bind_ok in H as (u1 & w2 & H2 & H). apply bind_ok in H as (u2 & w3 & H3 & H).
  apply bind_ok in H as (u3 & w4 & H4 & H). msteps H.
  split; [done|]. unfold claim_effect.
  pose proof (claim_batch_NoDup t (t - reaper_pendingTTL r) (db w)) as Hd. fold batch in Hd.
  apply (reclaim_all_ok r Hob) in H2.
  2:{ rewrite <- list_fmap_compose. exact Hd. }
  2:{ intros c (p & -> & Hp)%list_elem_of_fmap. destruct p as [id row].
      exists (reclaimed t row). split_and!; [|done|done]. by apply foldr_insert_in. }
  apply purgeManagementTx_ok in H3.
  assert (Hoo : OutboxOk (Some (reaper_outbox r))) by (by intros o [= <-]).
  pose proof (PurgeExpiredTx_ro t (batchSize r) _ Hoo w3) as Hro. rewrite H4 in Hro. simpl in Hro.
  destruct Hro as (_ & Hss & Hog). apply PurgeExpiredTx_kept in H4; [|done].
  exists (db w2), (db w3). split_and!; done.
Qed.

Lemma claimTx_gauge t : respects same_gauge (claimTx r t).
Proof.
  assert (Hp : respects same_gauge (PurgeExpiredTx t (batchSize r) (Some (reaper_outbox r)))).
  { intros w. by destruct (PurgeExpiredTx_ro t (batchSize r) (Some (reaper_outbox r))
      ltac:(by intros o [= <-]) w) as (E & _). }
  assert (Ha : forall l, respects same_gauge (reclaim_all r l t)).
  { induction l as [|c l IH]; cbn [reclaim_all];
      unfold reclaimRow, recordManagementOutcomeTx, ReclaimTx; solve_respects. }
  unfold claimTx, purgeManagementTx. solve_respects; auto.
Qed.

Lemma claimExpired_spec w res w' :
  claimExpired r w = (res, w') ->
  match res with
  | Err _ => db w' = db w /\ active_uploads w' = active_uploads w
  | Ok n =>
      let t := clk (tick w) in
      let batch := claim_batch r t (t - reaper_pendingTTL r) (db w) in
      n = Z.of_nat (length batch) /\ claim_effect t batch (db w) (db w') /\
      active_uploads w' = active_uploads w - pending_claimed (claimed_of <$> batch)
  end.
Proof.
  intros H. unfold claimExpired in H. destruct res as [n|e].
  - apply bind_ok in H as (t & w1 & Ht & H). mstep Ht.
    apply bind_ok in H as (l & w2 & Htx & H). apply bind_ok in H as (u & w3 & Hu & H). msteps H.
    injection Hu as _ <-.
    assert (Hg : active_uploads w2 = active_uploads w).
    { assert (Hr : respects same_gauge (transaction "begin reaper claim tx" "commit reaper claim tx"
        (let! batch := claimTx r (clk (tick w)) in ret (Commit batch)))).
      { apply respects_transaction; [apply _|]. apply respects_bind; [apply _|apply claimTx_gauge|]. solve_respects. }
      specialize (Hr (bump w)). by rewrite Htx in Hr. }
    apply transaction_ok in Htx as (_ & [(w4 & Hb & ->)|(w4 & Hb & _ & ->)]).
    + apply bind_ok in Hb as (? & ? & _ & Hb). by msteps Hb.
    + apply bind_ok in Hb as (l' & w5 & Hb & Hr). msteps Hr. simplify_eq.
      apply claimTx_ok in Hb as [-> He]. simpl in *. rewrite length_fmap. split_and!; [done..|lia].
  - apply bind_err in H as [H|(t & w1 & Ht & H)]; [by merr H|]. mstep Ht.
    apply bind_err in H as [H|(l & w2 & _ & H)].
    + pose proof (transaction_err _ _ _ _ _ _ H) as Ed. split; [done|].
      assert (Hr : respects same_gauge (transaction "begin reaper claim tx" "commit reaper claim tx"
        (let! batch := claimTx r (clk (tick w)) in ret (Commit batch)))).
      { apply respects_transaction; [apply _|]. apply respects_bind; [apply _|apply claimTx_gauge|]. solve_respects. }
      specialize (Hr (bump w)). by rewrite H in Hr.
    + apply bind_err in H as [H|(? & ? & _ & H)]; [done|by merr H].
Qed.

(** Read off one row. *)
Lemma claim_effect_in t o d d' id row :
  claim_effect t (claim_batch r t o d) d d' -> (id, row) ∈ claim_batch r t o d ->
  t_secrets d' !! id = None /\ t_payloads d' !! id = None /\
  (s_backend row = S3Object -> has_job (s_key row) d').
Proof.
  intros (d1 & d2 & Hre & -> & (E1 & E2 & _) & Hg & _) Hin.
  assert (Hid : id ∈ c_id <$> (claimed_of <$> claim_batch r t o d)).
  { rewrite <- list_fmap_compose. by apply (list_elem_of_fmap_2 (c_id ∘ claimed_of) _ (id, row)). }
  rewrite E1, E2. unfold delete_management_in. cbn [t_secrets t_payloads set_management]. split_and!.
  - rewrite delete_consumed_secrets, (re_secrets _ _ _ Hre), decide_True; done.
  - destruct (delete_consumed_payloads_weaken (purgeable t (batchSize r) d1) d1 id) as [E|E]; rewrite E; [|done].
    rewrite (re_payloads _ _ _ Hre), decide_True; done.
  - intros Hb. eapply has_job_grows; [exact Hg|]. eapply has_job_grows; [by apply (outbox_grows_same d1)|].
    apply (re_jobs _ _ _ Hre (claimed_of (id, row))); [by apply list_elem_of_fmap_2|done].
Qed.

Lemma claim_effect_out t o d d' id :
  claim_effect t (claim_batch r t o d) d d' -> id ∉ (claim_batch r t o d).*1 ->
  (t_secrets d' !! id = t_secrets d !! id /\ t_payloads d' !! id = t_payloads d !! id) \/
  (t_secrets d' !! id = None /\ (t_payloads d' !! id = t_payloads d !! id \/ t_payloads d' !! id = None) /\
   streaming t id d = false /\
   forall row, t_secrets d !! id = Some row -> is_some (s_consumed row) = true).
Proof.
  intros (d1 & d2 & Hre & -> & (E1 & E2 & _) & _ & _) Hout.
  assert (Hid : id ∉ c_id <$> (claimed_of <$> claim_batch r t o d)) by (by rewrite <- list_fmap_compose).
  assert (Es : t_secrets d1 !! id = t_secrets d !! id).
  { rewrite (re_secrets _ _ _ Hre), decide_False by done. by apply foldr_insert_out. }
  assert (Ep : t_payloads d1 !! id = t_payloads d !! id) by (by rewrite (re_payloads _ _ _ Hre), decide_False).
  rewrite E1, E2. unfold delete_management_in. cbn [t_secrets t_payloads set_management]. set (ids := purgeable t (batchSize r) d1).
  rewrite delete_consumed_secrets, Es. destruct (t_secrets d !! id) as [row|] eqn:Er.
  - destruct (purges ids row id) eqn:Epu.
    + right. rewrite <- Ep. split_and!; [done|apply delete_consumed_payloads_weaken| |].
      * unfold purges in Epu. destruct_bools.
        assert (Hs : streaming t id d1 = false) by (by eapply purgeable_not_streaming).
        unfold streaming in *. by rewrite Es, Er in *.
      * intros row' [= <-]. unfold purges in Epu. destruct_bools. done.
    + left. split; [done|]. by rewrite (delete_consumed_payloads _ _ _ row).
  - destruct (delete_consumed_payloads_weaken ids d1 id) as [E|E]; rewrite E, ?Ep; [auto|].
    right. split_and!; [done|auto| |done]. unfold streaming. by rewrite Er.
Qed.

(** A claim removes rows and payloads; it never changes one that stays. *)
Lemma claimExpired_evolves : respects (on_db evolves) (claimExpired r).
Proof.
  intros w. destruct (claimExpired r w) as [res w'] eqn:E. apply claimExpired_spec in E.
  unfold on_db. simpl. destruct res as [n|e]; [|destruct E as [-> _]; reflexivity].
  destruct E as (_ & He & _). intros id. unfold evolves_at.
  destruct (decide (id ∈ (claim_batch r (clk (tick w)) (clk (tick w) - reaper_pendingTTL r) (db w)).*1)) as [Hin|Hout].
  - apply list_elem_of_fmap in Hin as ([id' row] & -> & Hin).
    destruct (claim_effect_in _ _ _ _ _ _ He Hin) as (E1 & E2 & _). simpl. rewrite E1, E2.
    split; [by destruct (t_secrets (db w) !! id')|by right].
  - destruct (claim_effect_out _ _ _ _ _ He Hout) as [[E1 E2]|(E1 & E2 & _)]; rewrite E1.
    + rewrite E2. split; [reflexivity|by left].
    + split; [by destruct (t_secrets (db w) !! id)|done].
Qed.

Lemma claimExpired_balanced w : balanced w -> balanced (claimExpired r w).2.
Proof.
  intros [Eg Hp]. destruct (claimExpired r w) as [res w'] eqn:E. pose proof (claimExpired_evolves w) as Hev.
  rewrite E in Hev. apply claimExpired_spec in E. unfold balanced. simpl in *.
  destruct res as [n|e]; [|by destruct E as [-> ->]]. destruct E as (_ & He & Ea).
  set (t := clk (tick w)) in *. set (batch := claim_batch r t (t - reaper_pendingTTL r) (db w)) in *.
  assert (Hp' : pending_ok (db w')).
  { intros id row Hr Hs. destruct (decide (id ∈ batch.*1)) as [Hin|Hout].
    - apply list_elem_of_fmap in Hin as ([id' row'] & -> & Hin).
      destruct (claim_effect_in _ _ _ _ _ _ He Hin) as (E1 & _). simpl in Hr. congruence.
    - destruct (claim_effect_out _ _ _ _ _ He Hout) as [[E1 _]|(E1 & _)]; [|congruence].
      apply (Hp id row); congruence. }
  split; [|done]. rewrite Ea, Eg, !pending_count_in.
  destruct He as (d1 & d2 & Hre & -> & (E1 & _) & _ & _). rewrite E1.
  unfold delete_management_in. cbn [t_secrets set_management].
  assert (Hp1 : pending_ok d1).
  { intros id row Hr Hs. rewrite (re_secrets _ _ _ Hre) in Hr. destruct (decide _) as [|Hn]; [done|].
    simpl in Hr. rewrite foldr_insert_out in Hr; [by apply (Hp id row)|]. by rewrite <- list_fmap_compose in Hn. }
  rewrite count_in_delete_consumed, (re_count _ _ _ Hre) by done. simpl.
  rewrite count_in_foldr; [lia|apply claim_batch_NoDup|]. intros id row Hin. by apply claim_batch_in in Hin as [? _].
Qed.

(** C25: the reaper finds what has ended.  A successful tick claims at most a
    batch; when the batch was not full, every unconsumed row that nobody had
    claimed and that was past its expiry, or pending past the upload deadline,
    is gone with its payload, and for an object of the bucket a delete job
    naming its key is in the outbox of the same commit. *)
Theorem reaper_reclaims_expired w n w' id row :
  claimExpired r w = (Ok n, w') -> 0 < batchSize r ->
  t_secrets (db w) !! id = Some row -> years_ok (reaper_pendingTTL r) (clk (tick w)) row ->
  s_reclaim row = None -> s_consumed row = None -> ~ usable (reaper_pendingTTL r) (clk (tick w)) row ->
  n <= batchSize r /\
  (n < batchSize r ->
    t_secrets (db w') !! id = None /\ t_payloads (db w') !! id = None /\
    (s_backend row = S3Object -> has_job (s_key row) (db w'))).
Proof.
  intros H Hb Hr Hy Hrc Hc Hu. apply claimExpired_spec in H as (-> & He & _). split; [apply select_length; lia|].
  intros Hl. apply (claim_effect_in _ _ _ _ _ _ He). apply select_complete; [done..|].
  by apply reclaimable_spec.
Qed.

(** C24: the reaper takes nothing anybody can still use.  Whatever a tick
    returns, a delivery that was still usable at its clock reading keeps its
    row and its payload unchanged, and so does an object opened within the
    streaming grace. *)
Theorem reaper_spares_usable w res w' id row :
  claimExpired r w = (res, w') -> t_secrets (db w) !! id = Some row ->
  years_ok (reaper_pendingTTL r) (clk (tick w)) row ->
  (s_consumed row = None /\ usable (reaper_pendingTTL r) (clk (tick w)) row) \/
  (s_backend row = S3Object /\ exists c, s_consumed row = Some c /\ clk (tick w) - openObjectGrace + 1000000 <= c) ->
  t_secrets (db w') !! id = Some row /\ t_payloads (db w') !! id = t_payloads (db w) !! id.
Proof.
  intros H Hr Hy Hcase. apply claimExpired_spec in H. destruct res as [n|e]; [|destruct H as [-> _]; done].
  destruct H as (_ & He & _). set (t := clk (tick w)) in *.
  assert (Hout : id ∉ (claim_batch r t (t - reaper_pendingTTL r) (db w)).*1).
  { intros ([id' row'] & -> & Hin)%list_elem_of_fmap. apply claim_batch_in in Hin as [Hr' HP]. simpl in *.
    assert (row' = row) as -> by congruence. apply reclaimable_spec in HP as (_ & Hc & Hn); [|done].
    destruct Hcase as [[_ ?]|(_ & c & ? & _)]; congruence. }
  destruct (claim_effect_out _ _ _ _ _ He Hout) as [[E1 E2]|(E1 & _ & Hs & Hcon)]; [by rewrite E1, E2|].
  specialize (Hcon row Hr). destruct Hcase as [[Hc _]|(Hb & c & Hc & Hle)]; [by rewrite Hc in Hcon|].
  by rewrite (streaming_grace t id (db w) row c) in Hs.
Qed.
End claim.

(** ** Reconciliation of the bucket

    [orphans_queued]: the new jobs of the outbox are delete jobs for listed
    keys of the prefix that no row protected and that had no outstanding claim; each
    comes with its claim, and claims are only added. *)
Section orphans.
Context {CODEC : EventCodec}.
Context (prefix : string) (listed : list string) (pend : ApiDB -> gmap string string) (prot : string -> ApiDB -> bool).

Definition queued_for (jid key : string) (d d' : ApiDB) : Prop :=
  exists row ev, t_outbox d' !! jid = Some row /\ carries ev row /\ Kind ev = KindDeleteOCIObject /\
    JobID ev = jid /\ ObjectKey ev = key /\ key ∈ listed /\ has_prefix prefix key = true /\ key <> prefix /\
    prot key d = false /\ pend d !! key = None /\ pend d' !! key = Some jid.

Record orphans_queued (d d' : ApiDB) : Prop := {
  oq_prot : forall key, prot key d' = prot key d;
  oq_pend : pend d ⊆ pend d';
  oq_old : t_outbox d ⊆ t_outbox d';
  oq_new : forall jid, t_outbox d' !! jid = t_outbox d !! jid \/ exists key, queued_for jid key d d';
}.

#[global] Instance orphans_queued_preorder : PreOrder orphans_queued.
Proof.
  split.
  - intros d. split; [done..|auto].
  - intros d1 d2 d3 [A1 A2 A3 A4] [B1 B2 B3 B4]. split; [congruence|by etrans|by etrans|].
    intros jid. destruct (B4 jid) as [E|(key & row & ev & Hr & Hc & Hk & Hj & Ho & Hin & Hp & Hne & Hpr & Hn & Hy)].
    + destruct (A4 jid) as [E'|(key & row & ev & Hr & Hc & Hk & Hj & Ho & Hin & Hp & Hne & Hpr & Hn & Hy)]; [left; congruence|].
      right. exists key, row, ev. split_and!; try done; [congruence|]. by eapply lookup_weaken.
    + right. exists key, row, ev. split_and!; try done; [congruence|].
      destruct (pend d1 !! key) as [j|] eqn:E; [|done]. eapply lookup_weaken in E; [|exact A2]. congruence.
Qed.

Lemma orphans_queued_step key ev d d1 d2 :
  (forall k, prot k d1 = prot k d) -> pend d !! key = None -> pend d1 = <[key := JobID ev]> (pend d) ->
  t_outbox d1 = t_outbox d -> (forall k, prot k d2 = prot k d1) -> pend d2 = pend d1 ->
  Kind ev = KindDeleteOCIObject -> ObjectKey ev = key -> key ∈ listed -> has_prefix prefix key = true -> key <> prefix ->
  prot key d = false -> enqueued ev d1 d2 -> orphans_queued d d2.
Proof.
  intros P1 Hn E1 O1 P2 E2 Hk Ho Hin Hp Hne Hpr (row & Hc & Hnew & E). split.
  - intros k. by rewrite P2.
  - rewrite E2, E1. by apply insert_subseteq.
  - rewrite E. simpl. rewrite <- O1. by apply insert_subseteq.
  - intros jid. destruct (decide (jid = JobID ev)) as [->|Hj].
    + right. exists key, row, ev. rewrite E2, E1, E. simpl. rewrite !lookup_insert_eq. split_and!; done.
    + left. rewrite E. simpl. rewrite lookup_insert_ne by done. by rewrite O1.
Qed.
End orphans.

Section reconcile.
Context {ENV : Env} {CODEC : EventCodec}.
Context (r : Reaper) (Hob : OutboxSpec (reaper_outbox r)).
Implicit Types w : World ApiDB.

(** What one page of the sweep does at the reading [t]: it queues deletes of
    keys of the page that [protectObject] does not protect at [t]. *)
Definition swept (keys : list string) (t : time) : relation ApiDB :=
  orphans_queued managedObjectPrefix keys t_pending (fun key d => protectObject r key t d).

Lemma protectObject_secrets key t d d' : t_secrets d' = t_secrets d -> protectObject r key t d' = protectObject r key t d.
Proof. unfold protectObject. by intros ->. Qed.

Lemma reconcile_keys_swept all t keys n w m w' :
  keys ⊆ all -> reconcile_keys r t keys n w = (Ok m, w') ->
  swept all t (db w) (db w') /\ t_secrets (db w') = t_secrets (db w) /\ n <= m <= n + Z.of_nat (length keys).
Proof.
  revert n w. induction keys as [|key keys IH]; intros n w Hall H; cbn [reconcile_keys] in H.
  { msteps H. split_and!; [reflexivity|done|lia..]. }
  assert (Hkey : key ∈ all) by set_solver. assert (Htl : keys ⊆ all) by set_solver.
  assert (Hskip : forall w1, db w1 = db w -> reconcile_keys r t keys n w1 = (Ok m, w') ->
    swept all t (db w) (db w') /\ t_secrets (db w') = t_secrets (db w) /\ n <= m <= n + Z.of_nat (length (key :: keys))).
  { intros w1 E H1. apply IH in H1 as (? & ? & ?); [|done]. rewrite <- E. simpl. split_and!; [done..|lia|lia]. }
  destruct (negb (has_prefix managedObjectPrefix key) || bool_decide (key = managedObjectPrefix)) eqn:Ek; [by apply (Hskip w)|].
  apply bind_ok in H as (live & w1 & Hl & H). mstep Hl.
  destruct (protectObject r key t (db w)) eqn:Ep; [by eapply Hskip; [|exact H]|].
  unfold NewJobID in H. apply bind_ok in H as (jid & w2 & Hj & H). msteps Hj.
  apply bind_ok in H as (k & w3 & Hc & H). mstep Hc. unfold claim_pending, claim in Hc. simpl in Hc.
  destruct (t_pending (db w) !! key) as [j|] eqn:Epk; simpl in Hc.
  { injection Hc as <- <-. simpl in H. eapply Hskip; [|exact H]. simpl. by destruct (db w). }
  destruct (bool_decide (map_Exists _ _)) eqn:Em; injection Hc as <- <-; simpl in H.
  { eapply Hskip; [|exact H]. simpl. by destruct (db w). }
  apply bind_ok in H as (rec & w4 & He & H). apply enq_ok in He as [He _]. simpl in He.
  apply IH in H as (Hs & Et & Hm); [|done]. apply orb_false_iff in Ek as [Ek1 Ek2]. destruct_bools.
  assert (Eq : db w4 = set_outbox (t_outbox (db w4)) (set_pending (<[key := Base64.encode Base64.RawURLEncoding a]> (t_pending (db w))) (db w))).
  { by destruct He as (row & _ & _ & ->). }
  split_and!; [|by rewrite Et, Eq|lia|rewrite length_cons; lia].
  etrans; [|exact Hs]. eapply (orphans_queued_step _ _ _ _ key _ (db w)); [| | | | | | | | | | | |exact He]; try done.
  - intros k. apply protectObject_secrets. by rewrite Eq.
  - by rewrite Eq.
Qed.

(** The page [ReconcileOnce] asks the bucket for: the one after its cursor. *)
Definition listed_page (obj : Objects.Store ApiDB) (w : World ApiDB) (page : ObjectPage) (w1 : World ApiDB) : Prop :=
  Objects.List obj managedObjectPrefix (cu_token (t_cursor (db w))) (Z.min (batchSize r) 1000) (bump w) = (Ok page, w1).

(** Only the cursor may differ. *)
Definition cursor_only (d d' : ApiDB) : Prop := d' = d \/ exists c, d' = set_cursor c d.

Lemma reconcilePage_swept generation page w res w' :
  reconcilePage r generation page w = (res, w') ->
  cursor_only (db w) (db w') \/ (swept (Keys page) (clk (S (S (tick w)))) (db w) (db w') /\ t_secrets (db w') = t_secrets (db w)).
Proof.
  unfold reconcilePage, transaction. intros H. destruct (db_fault (tick w)); [injection H as <- <-; by left; left|].
  destruct (bind _ _ (bump w)) as [[[n|n]|e] w3] eqn:Eb; [|injection H as <- <-; by left; left..].
  destruct (db_fault (tick w3)); injection H as <- <-; [by left; left|]. simpl.
  apply bind_ok in Eb as (k & w4 & Hk & Eb). mstep Hk. unfold update_cursor in Hk.
  destruct (advance _ _ _) as [k' c]. injection Hk as <- <-. destruct (k' =? 0); [by msteps Eb|].
  apply bind_ok in Eb as (t & w5 & Ht & Eb). mstep Ht. apply bind_ok in Eb as (m & w6 & Hm & Eb). msteps Eb.
  apply (reconcile_keys_swept (Keys page)) in Hm as (Hs & Et & _); [|done]. simpl in *. right. split; [|done].
  etrans; [|exact Hs]. split; [|done..|auto]. intros key. by apply protectObject_secrets.
Qed.

Context (Hobj : forall o, objects (store r) = Some o -> Objects.Spec o).

(** C30: the reconciler deletes only orphans.  Whatever [ReconcileOnce]
    returns, it has changed nothing but the reconciliation cursor, or it listed
    the bucket page after its cursor under the managed prefix and, at the one
    clock reading its transaction took right after, every job it added to the
    outbox is a delete of one key of that page under the managed prefix that
    no delivery protected at that reading and that had no outstanding claim,
    and the job is recorded as that key's claim in the same commit.  Secrets
    are not touched. *)
Theorem reconcile_queues_only_orphans w res w' :
  ReconcileOnce r w = (res, w') ->
  t_secrets (db w') = t_secrets (db w) /\
  (cursor_only (db w) (db w') \/
   exists obj page w1, objects (store r) = Some obj /\ listed_page obj w page w1 /\
     swept (Keys page) (clk (S (S (tick w1)))) (db w) (db w')).
Proof.
  intros H. assert (Hcur : forall d d', cursor_only d d' -> t_secrets d' = t_secrets d) by (by intros d d' [->|[c ->]]).
  assert (Hsame : forall w2, db w2 = db w -> cursor_only (db w) (db w2)) by (intros w2 ->; by left).
  enough (Hc : cursor_only (db w) (db w') \/ exists obj page w1, objects (store r) = Some obj /\ listed_page obj w page w1 /\
     swept (Keys page) (clk (S (S (tick w1)))) (db w) (db w') /\ t_secrets (db w') = t_secrets (db w)).
  { destruct Hc as [Hc|(obj & page & w1 & Ho & Hl & Hs & Et)]; [split; [by apply Hcur|by left]|]. split; [done|right; eauto 10]. }
  unfold ReconcileOnce in H. destruct (objects (store r)) as [obj|] eqn:Eo; [|injection H as <- <-; left; by left].
  pose proof (Hobj _ eq_refl).
  unfold bind at 1 in H. destruct (sql_query _ _ w) as [[cur|e] w1] eqn:Eq.
  2:{ injection H as <- <-. merr Eq. left. by apply Hsame. }
  mstep Eq. unfold bind at 1, attempt in H. destruct (Objects.List obj _ _ _ _) as [rl w2] eqn:Ell.
  pose proof Ell as El. apply Objects.List_quiet in El as (El & _). simpl in El. destruct rl as [page|e].
  - unfold bind at 1, fail_if in H. destruct (_ || _); [injection H as <- <-; left; by apply Hsame|]. unfold ret in H.
    apply reconcilePage_swept in H. rewrite El in H. destruct H as [H|[H Et]]; [by left|]. right. exists obj, page, w2. split_and!; done.
  - left. unfold bind at 1 in H. destruct (decide _); [destruct (bool_decide _)|].
    1, 3: injection H as <- <-; by apply Hsame.
    unfold bind in H. destruct (sql _ _ w2) as [[k|e'] w3] eqn:Es; injection H as <- <-.
    + mstep Es. unfold update_cursor in Es. destruct (advance _ _ _) as [k' c]. injection Es as <- <-. simpl.
      rewrite El. right. by exists c.
    + merr Es. by apply Hsame.
Qed.
End reconcile.
