(* ===== verification/Lifecycle.v ===== *)
(** * The API process as a transition system

    Every way the API process changes its database is one [op], at the
    granularity of its transactions: the request operations that use two
    transactions ([Open], [Reserve], [Finalize]) are split into their halves,
    so that the histories below contain every interleaving of concurrent
    requests that the single database connection allows.  A history starts
    anywhere, time passes and reads happen between operations, any SQL call, random draw or
    object-store call may fail, and the process may restart.

    The theorems are the promises of the product: a secret is opened at most
    once, a request accepts one submission and is opened at most once, a queued
    clean-up job is never lost, no object of a request is forgotten, and the
    upload gauge is the number of pending uploads. *)

From S2P Require Import Prelude World GoTime Codec Schema AgeFormat Outbox ObjectStorage RequestStore RequestCleanup RequestFrames RequestProofs RequestObjects RequestFinalize SecretStore SecretProofs SecretUploads Reaper ReaperProofs.

(** ** What the operations on secrets leave alone *)
Definition secret_only (d d' : ApiDB) : Prop :=
  t_requests d' = t_requests d /\ t_request_payloads d' = t_request_payloads d /\ outbox_grows d d'.
#[export] Instance secret_only_preorder : PreOrder secret_only.
Proof.
  split; [intros d; split_and!; [done..|reflexivity]|].
  intros d1 d2 d3 (A1 & A2 & A3) (B1 & B2 & B3). split_and!; [congruence..|by etrans].
Qed.

Section secret_frames.
Context {ENV : Env} {CODEC : EventCodec}.

Lemma so_sql {A} msg (f : ApiDB -> option (A * ApiDB)) :
  (forall d a d', f d = Some (a, d') ->
     t_requests d' = t_requests d /\ t_request_payloads d' = t_request_payloads d /\ t_outbox d' = t_outbox d) ->
  respects (on_db secret_only) (sql msg f).
Proof.
  intros Hf. apply respects_sql; [apply _|]. intros d a d' E. apply Hf in E as (? & ? & ?).
  split_and!; [done..|by apply outbox_grows_same].
Qed.
Lemma so_enq o ev : OutboxSpec o -> respects (on_db secret_only) (enq o ev).
Proof.
  intros Ho. apply respects_enq; [apply _..|]. intros d d' He. pose proof (outbox_grows_enqueued _ _ _ He).
  by destruct He as (row & _ & _ & ->).
Qed.
Lemma so_update_secret msg id P f : respects (on_db secret_only) (sql msg (update_secret id P f)).
Proof. apply so_sql. intros d n d' [(_ & -> & _)|(r & _ & _ & _ & ->)]%update_secret_Some; done. Qed.
Lemma so_update_management msg id P f : respects (on_db secret_only) (sql msg (update_management id P f)).
Proof. apply so_sql. intros d n d' [(_ & -> & _)|(r & _ & _ & _ & ->)]%update_management_Some; done. Qed.
Lemma so_delete_secret msg id P : respects (on_db secret_only) (sql msg (delete_secret id P)).
Proof. apply so_sql. intros d n d' [(_ & ->)|(r & _ & _ & _ & ->)]%delete_secret_Some; done. Qed.
Lemma so_delete_payload msg id : respects (on_db secret_only) (sql msg (delete_payload id)).
Proof. apply so_sql. by intros d n d' [= _ <-]. Qed.
Lemma so_insert_secret msg id r : respects (on_db secret_only) (sql msg (insert_secret id r)).
Proof. apply so_sql. intros d u d'. unfold insert_secret. destruct (ins _ _ _ _); [|done]. by intros [= _ <-]. Qed.
Lemma so_insert_payload msg id r : respects (on_db secret_only) (sql msg (insert_payload id r)).
Proof.
  apply so_sql. intros d u d'. unfold insert_payload. destruct (is_some _); [|done].
  destruct (ins _ _ _ _); [|done]. by intros [= _ <-].
Qed.
Lemma so_insert_management msg id r : respects (on_db secret_only) (sql msg (insert_management id r)).
Proof. apply so_sql. intros d u d'. unfold insert_management. destruct (ins _ _ _ _); [|done]. by intros [= _ <-]. Qed.
Lemma so_cursor msg t g : respects (on_db secret_only) (sql msg (update_cursor t g)).
Proof. apply so_sql. intros d n d'. unfold update_cursor. destruct (advance _ _ _). by intros [= _ <-]. Qed.
Lemma so_claim msg k j : respects (on_db secret_only) (sql msg (claim_pending k j)).
Proof. apply so_sql. intros d n d'. unfold claim_pending. destruct (claim _ _ _). by intros [= _ <-]. Qed.
Lemma so_release msg k j : respects (on_db secret_only) (sql msg (release_pending k j)).
Proof. apply so_sql. by intros d n d' [= _ <-]. Qed.
End secret_frames.
#[export] Hint Resolve so_enq so_update_secret so_update_management so_delete_secret so_delete_payload
  so_insert_secret so_insert_payload so_insert_management so_cursor so_claim so_release : flick.

(** ** The operations *)
Inductive event :=
  | SecretCreated (id : string) | SecretOpened (id : string)
  | RequestCreated (id : string) | RequestOpened (id : string) | RequestAccepted (id attempt : string)
  | CopyStarted (id : string).
#[export] Instance event_eq : EqDecision event.
Proof. solve_decision. Defined.

Inductive op :=
  | OpCreate (i : CreateInput) | OpCreateLarge (i : CreateLargeInput) | OpFinalize (id : string)
  | OpOpen (id proofHash : string) | OpBodySent (key : string) | OpCleanup (id : string)
  | OpRevoke (id token : string) | OpClaim | OpReconcilePage (generation : Z) (page : ObjectPage)
  | OpResetCursor (generation : Z) | OpAcknowledge (jobID key : string)
  | OpReqCreate (publicKey : string) (ttl : option Z) | OpReqRead (id token : string) (owner : bool)
  | OpReqLapse (id hash : string) (owner : bool)
  | OpReqSubmit (id token : string) (i : SubmitInput) | OpReqAttempt (id token : string) (g : Z) (a : string)
  | OpReqOpen (id token : string) | OpReqConsume (id token key : string) | OpReqFinishOpen (id key : string)
  | OpReqRevoke (id token : string)
  | OpReqReserve (id token attempt digest envelope checksum : string) (i : UploadInput)
  | OpReqAbandon (id token : string) (i : AttemptInput)
  | OpReqReconcilePage (generation : Z) (page : ObjectPage) | OpReqResetCursor (generation : Z)
  | OpReqAcknowledge (jobID key : string)
  | OpMarkPublished (id : string) | OpMarkFailed (id msg : string) (next : time).

Definition tag {A} (m : M ApiDB A) (f : A -> list event) : M ApiDB (list event) :=
  let! x := m in ret (f x).
Definition silent {A} (m : M ApiDB A) : M ApiDB (list event) := tag m (fun _ => []).

Lemma tag_respects {A} (R : relation (World ApiDB)) `{!Stable R} (m : M ApiDB A) f :
  respects R m -> respects R (tag m f).
Proof. intros H. apply respects_bind; [apply _|done|]. intros. by apply respects_ret. Qed.

Lemma tag_run {A} (m : M ApiDB A) f w res w' :
  tag m f w = (res, w') ->
  exists r, m w = (r, w') /\ res = match r with Ok a => Ok (f a) | Err e => Err e end.
Proof. unfold tag, bind, ret. destruct (m w) as [[a|e] w1]; intros [= <- <-]; eauto. Qed.

Section system.
Context {ENV : Env} {CODEC : EventCodec} {RC : RequestCodec} {DATES : SqliteDate} {BROKER : Broker}.
Context (s : Store) (rs : Options) (ob : outboxEnqueuer) (rp : Reaper).

Definition exec (o : op) : M ApiDB (list event) :=
  match o with
  | OpCreate i => tag (Create s i) (fun x => [SecretCreated (ID x)])
  | OpCreateLarge i => tag (CreateLarge s i) (fun x => [SecretCreated (lr_ID x)])
  | OpFinalize id => silent (Finalize s id)
  | OpOpen id h => tag (openAndEnqueueCleanup s ob id h) (fun _ => [SecretOpened id])
  | OpBodySent key => silent (enqueueOpenedObjectCleanup ob key)
  | OpCleanup id => silent (Cleanup id)
  | OpRevoke id token => silent (Revoke s id token)
  | OpClaim => silent (claimExpired rp)
  | OpReconcilePage g page => silent (reconcilePage rp g page)
  | OpResetCursor g => silent (sql "reset object reconciliation cursor" (update_cursor "" g))
  | OpAcknowledge jobID key => silent (AcknowledgeObjectCleanup jobID key)
  | OpReqCreate k ttl => tag (RequestStore.Create rs k ttl) (fun x => [RequestCreated (c_ID x)])
  | OpReqRead id token owner => silent (RequestStore.read rs id token owner)
  | OpReqLapse id hash owner => silent (RequestStore.begin_pass rs id hash owner (fun _ => ret (Rollback tt)))
  | OpReqSubmit id token i => tag (RequestStore.Submit rs id token i)
      (fun _ => match tokenHash (si_AttemptToken i) with Ok a => [RequestAccepted id a] | Err _ => [] end)
  | OpReqAttempt id token g a => silent (RequestStore.Attempt rs id token g a)
  | OpReqOpen id token => tag (RequestStore.openFirst rs id token)
      (fun x => match x with InlineOpened _ => [RequestOpened id] | ObjectPending _ _ _ _ => [] end)
  | OpReqConsume id token key => tag (RequestStore.consumeObject rs id token key) (fun _ => [RequestOpened id])
  | OpReqFinishOpen id key => silent (RequestStore.FinishOpen rs id key)
  | OpReqRevoke id token => silent (RequestStore.Revoke rs id token)
  | OpReqReserve id token a d e c i => silent (RequestStore.reserveFirst rs id token a d e c i)
  | OpReqAbandon id token i => silent (RequestStore.Abandon rs id token i)
  | OpReqReconcilePage g page => silent (RequestCleanup.reconcilePage rs g page)
  | OpReqResetCursor g => silent (sql "reset request cursor" (update_request_cursor "" g))
  | OpReqAcknowledge jobID key => silent (RequestCleanup.AcknowledgeObjectCleanup jobID key)
  | OpMarkPublished id => silent (MarkPublished id)
  | OpMarkFailed id msg next => silent (MarkFailed id (Some msg) next)
  end.

(** ** Histories

    A finalize is two transactions around the copy of the object; [copying]
    holds what the first one read, and whether a copy of it was verified, for
    as long as the process lives. *)
Record sys := MkSys { world : World ApiDB; copying : list (string * objectAttempt * AttemptInput * bool) }.

Definition events_of (res : result (list event)) : list event :=
  match res with Ok evs => evs | Err _ => [] end.

(** Time passes, and calls that only read are made: the oracles move on. *)
Definition still (w w' : World ApiDB) : Prop := db w' = db w /\ active_uploads w' = active_uploads w.

Inductive step : sys -> list event -> sys -> Prop :=
  | step_op o w c res w' : exec o w = (res, w') -> step (MkSys w c) (events_of res) (MkSys w' c)
  | step_finalize_first id token attempt i w c res w' :
      validateAttempt i = Ok attempt ->
      RequestStore.finalizeFirst rs id token attempt i w = (res, w') ->
      step (MkSys w c)
        (match res with
         | Ok (inl _) => [RequestAccepted id attempt] | Ok (inr _) => [CopyStarted id] | Err _ => [] end)
        (MkSys w' (match res with Ok (inr a) => (id, a, i, false) :: c | _ => c end))
  | step_finalize_copy obj id a i w c res w' :
      (id, a, i, false) ∈ c -> RequestStore.Objects rs = Some obj -> RequestStore.copyVerified obj a w = (res, w') ->
      step (MkSys w c) [] (MkSys w' (match res with Ok _ => (id, a, i, true) :: c | Err _ => c end))
  | step_finalize_accept id token attempt a i w c res w' :
      validateAttempt i = Ok attempt -> (id, a, i, true) ∈ c ->
      RequestStore.acceptAttempt rs id token attempt a i w = (res, w') ->
      step (MkSys w c) (match res with Ok _ => [RequestAccepted id attempt] | _ => [] end) (MkSys w' c)
  | step_idle w w' c : still w w' -> step (MkSys w c) [] (MkSys w' c)
  | step_restart w c :
      step (MkSys w c) [] (MkSys (MkWorld (db w) (tick w) (pending_count (db w)) (trace w)) []).

Inductive history : sys -> list event -> sys -> Prop :=
  | history_nil x : history x [] x
  | history_snoc x evs y new z : history x evs y -> step y new z -> history x (evs ++ new) z.

Lemma history_trans x e1 y e2 z : history x e1 y -> history y e2 z -> history x (e1 ++ e2) z.
Proof.
  intros H1. induction 1 as [y|y evs y' new z H IH Hs]; [by rewrite app_nil_r|].
  rewrite app_assoc. by eapply history_snoc; [apply IH|].
Qed.
Lemma history_step x evs y : step x evs y -> history x evs y.
Proof. intros H. rewrite <- (app_nil_l evs). eapply history_snoc; [constructor|exact H]. Qed.
End system.

(** ** What one operation preserves *)
Section operations.
Context {ENV : Env} {CODEC : EventCodec} {RC : RequestCodec} {DATES : SqliteDate} {BROKER : Broker}.
Context (s : Store) (rs : Options) (ob : outboxEnqueuer) (rp : Reaper).
Context `{!StoreSpec s} `{!OptionsSpec rs} `{!OutboxSpec ob} (Hrp : OutboxSpec (reaper_outbox rp)).
Implicit Types w : World ApiDB.

#[local] Hint Resolve store_objects store_outbox : flick.

Definition on_requests (o : op) : bool :=
  match o with
  | OpReqCreate _ _ | OpReqRead _ _ _ | OpReqLapse _ _ _ | OpReqSubmit _ _ _ | OpReqAttempt _ _ _ _
  | OpReqOpen _ _ | OpReqConsume _ _ _ | OpReqFinishOpen _ _ | OpReqRevoke _ _ | OpReqReserve _ _ _ _ _ _ _
  | OpReqAbandon _ _ _ | OpReqReconcilePage _ _ | OpReqResetCursor _ | OpReqAcknowledge _ _ => true
  | _ => false
  end.
Definition is_claim (o : op) : bool := match o with OpClaim => true | _ => false end.

Lemma reconcile_keys_so t l n : respects (on_db secret_only) (reconcile_keys rp t l n).
Proof. revert n. induction l as [|k l IH]; intros n; cbn [reconcile_keys]; solve_respects. Qed.

Lemma so_mark id f w w' : marks id f w w' ->
  (forall r, o_subject (f r) = o_subject r /\ o_payload (f r) = o_payload r) -> on_db secret_only w w'.
Proof.
  intros Hm Hf. pose proof (marks_grows _ _ _ _ Hf Hm) as Hg. destruct Hm as [_ [E|(r & _ & _ & E)]];
    unfold on_db; rewrite E in *; done.
Qed.

Lemma exec_secret_only o :
  on_requests o = false -> is_claim o = false -> respects (on_db secret_only) (exec s rs ob rp o).
Proof.
  destruct o; intros Hr Hc; try done; apply tag_respects; try apply _.
  - unfold Create, generateID, createManagementTx. solve_respects.
  - unfold CreateLarge, generateID, createManagementTx. solve_respects.
  - unfold Finalize, activateSecretTx. solve_respects.
  - unfold openAndEnqueueCleanup, OpenTx, load, openBody, recordFailedAccessTx, recordManagementOutcomeTx. solve_respects.
  - unfold enqueueOpenedObjectCleanup. solve_respects.
  - unfold Cleanup. solve_respects.
  - unfold Revoke, revokeTx, management, recordManagementOutcomeTx. solve_respects.
  - unfold reconcilePage. pose proof reconcile_keys_so. solve_respects; auto.
  - apply so_cursor.
  - unfold AcknowledgeObjectCleanup. solve_respects.
  - intros w. destruct (MarkPublished id w) as [res w'] eqn:E. apply MarkPublished_marks in E. simpl.
    eapply so_mark; [exact E|]. apply published_row_keeps.
  - intros w. destruct (MarkFailed id (Some msg) next w) as [res w'] eqn:E. apply MarkFailed_marks in E. simpl.
    eapply so_mark; [exact E|]. apply failed_row_keeps.
Qed.

Lemma exec_request_only o : on_requests o = true -> respects request_only (exec s rs ob rp o).
Proof.
  destruct o; intros Hr; try done; apply tag_respects; try apply _.
  - by apply Create_ro.
  - by apply read_ro.
  - apply begin_pass_ro; [done|]. intros r. solve_respects.
  - by apply Submit_ro.
  - by apply Attempt_ro.
  - by apply openFirst_ro.
  - by apply consumeObject_ro.
  - by apply FinishOpen_ro.
  - by apply Revoke_ro.
  - by apply reserveFirst_ro.
  - by apply Abandon_ro.
  - unfold RequestCleanup.reconcilePage, commit_check. pose proof (reconcile_keys_ro rs). solve_respects; auto.
  - apply ro_cursor.
  - by apply AcknowledgeObjectCleanup_ro.
Qed.

Lemma claim_kept : respects (on_db no_key_lost) (claimExpired rp).
Proof.
  intros w. destruct (claimExpired rp w) as [res w'] eqn:E. apply claimExpired_spec in E; [|done].
  unfold on_db. simpl. destruct res as [n|e]; [|destruct E as [-> _]; reflexivity].
  destruct E as (_ & (d1 & d2 & Hre & -> & _ & Hg & Hk) & _). etrans; [|exact Hk].
  apply no_key_lost_same; [exact (re_requests _ _ _ Hre)|].
  etrans; [|apply outbox_grows_same; reflexivity]. etrans; [|exact (re_outbox _ _ _ Hre)]. by apply outbox_grows_same.
Qed.

Lemma exec_kept o : respects (on_db no_key_lost) (exec s rs ob rp o).
Proof.
  destruct (on_requests o) eqn:Eo.
  2:{ destruct (is_claim o) eqn:Ec; [destruct o; try done; apply tag_respects; [apply _|apply claim_kept]|].
      intros w. destruct (exec_secret_only o Eo Ec w) as (E & _ & Hg). by apply no_key_lost_same. }
  destruct o; try done; apply tag_respects; try apply _.
  - by apply Create_kept.
  - by apply read_kept.
  - by apply begin_pass_lapse_kept.
  - by apply Submit_kept.
  - by apply Attempt_kept.
  - by apply openFirst_kept.
  - by apply consumeObject_kept.
  - by apply FinishOpen_kept.
  - by apply Revoke_kept.
  - by apply reserveFirst_kept.
  - by apply Abandon_kept.
  - by apply reconcilePage_kept.
  - apply sql_same_kept. intros d x d'. unfold update_request_cursor. destruct (advance _ _ _). by intros [= _ <-].
  - by apply RequestObjects.AcknowledgeObjectCleanup_kept.
Qed.

(** Only the two creations add a row, and only under the id they return. *)
Lemma Create_evolves_at i w res w' id :
  Create s i w = (res, w') -> (forall sec, res = Ok sec -> ID sec <> id) -> evolves_at id (db w) (db w').
Proof.
  intros H Hne. destruct res as [sec|e].
  - apply Create_ok in H as (raw & tok & _ & _ & _ & _ & _ & _ & -> & Hid & _). specialize (Hne sec eq_refl).
    rewrite Hid in Hne. split; simpl; rewrite lookup_insert_ne by done; [reflexivity|by left].
  - assert (E : db w' = db w); [|rewrite E; reflexivity].
    unfold Create, generateID in H. destruct (modelAColumns _ _).
    apply bind_err in H as [H|(u & w0 & Hv & H)]; [by merr H|]. mstep Hv.
    apply bind_err in H as [H|(i' & w1 & Hi & H)]; [by merr H|]. msteps Hi.
    apply bind_err in H as [H|(t & w2 & Ht & H)]; [by merr H|]. mstep Ht.
    apply transaction_err in H. by rewrite H.
Qed.
Lemma CreateLarge_evolves_at i w res w' id :
  CreateLarge s i w = (res, w') -> (forall x, res = Ok x -> lr_ID x <> id) -> evolves_at id (db w) (db w').
Proof.
  intros H Hne. apply CreateLarge_spec in H; [|done]. destruct res as [x|e]; [|destruct H as [-> _]; reflexivity].
  destruct H as ((t & tok & _ & _ & ->) & _). specialize (Hne x eq_refl).
  split; simpl; rewrite ?lookup_insert_ne by done; [reflexivity|by left].
Qed.

Lemma reconcilePage_secrets g page w :
  t_secrets (db (reconcilePage rp g page w).2) = t_secrets (db w) /\
  t_payloads (db (reconcilePage rp g page w).2) = t_payloads (db w).
Proof.
  set (R := fun d d' : ApiDB => t_secrets d' = t_secrets d /\ t_payloads d' = t_payloads d).
  assert (PreOrder R) by (split; unfold R; [done|intros ? ? ? [-> ->] [-> ->]; done]).
  assert (Henq : forall ev, respects (on_db R) (enq (reaper_outbox rp) ev)).
  { intros ev. apply respects_enq; [apply _|done|]. intros d d' (row & _ & _ & ->). done. }
  assert (Hk : forall t l n, respects (on_db R) (reconcile_keys rp t l n)).
  { intros t l. induction l as [|k l IH]; intros n; cbn [reconcile_keys]; solve_respects.
    apply respects_sql; [apply _|]. intros d x d'. unfold claim_pending. destruct (claim _ _ _). by intros [= _ <-]. }
  assert (Hp : respects (on_db R) (reconcilePage rp g page)); [|apply Hp].
  unfold reconcilePage. solve_respects.
  apply respects_sql; [apply _|]. intros d x d'. unfold update_cursor. destruct (advance _ _ _). by intros [= _ <-].
Qed.

Lemma exec_evolves o w res w' id :
  exec s rs ob rp o w = (res, w') -> SecretCreated id ∉ events_of res -> evolves_at id (db w) (db w').
Proof.
  intros H Hn. destruct (on_requests o) eqn:Eo.
  { pose proof (exec_request_only o Eo w) as (_ & (E1 & E2 & _) & _). rewrite H in E1, E2. by apply evolves_same. }
  assert (Hev : forall A (m : M ApiDB A), respects (on_db evolves) m -> silent m w = (res, w') -> evolves_at id (db w) (db w')).
  { intros A m Hm E. apply tag_run in E as (r & E & _). specialize (Hm w). rewrite E in Hm. apply Hm. }
  destruct o; try done; cbn [exec] in H.
  - apply tag_run in H as (r & H & ->). eapply Create_evolves_at; [exact H|]. intros sec -> <-. apply Hn. left.
  - apply tag_run in H as (r & H & ->). eapply CreateLarge_evolves_at; [exact H|]. intros x -> <-. apply Hn. left.
  - eapply Hev; [|exact H]. by apply Finalize_evolves.
  - apply tag_run in H as (r & H & _). pose proof (openAndEnqueueCleanup_evolves s ob id0 proofHash _ w) as He.
    rewrite H in He. apply He.
  - eapply Hev; [|exact H]. by apply enqueueOpenedObjectCleanup_evolves.
  - eapply Hev; [|exact H]. by apply Cleanup_evolves.
  - eapply Hev; [|exact H]. by apply Revoke_evolves.
  - eapply Hev; [|exact H]. by apply claimExpired_evolves.
  - apply tag_run in H as (r & H & _). destruct (reconcilePage_secrets generation page w) as [E1 E2].
    rewrite H in E1, E2. by apply evolves_same.
  - eapply Hev; [|exact H]. apply respects_sql; [apply _|]. intros d x d'. unfold update_cursor.
    destruct (advance _ _ _). intros [= _ <-]. by apply evolves_same.
  - eapply Hev; [|exact H]. unfold AcknowledgeObjectCleanup. solve_respects. apply respects_sql; [apply _|].
    intros d x d' [= _ <-]. by apply evolves_same.
  - apply tag_run in H as (r & H & _). apply MarkPublished_marks in H as [_ [E|(x & _ & _ & E)]]; rewrite E; [reflexivity|].
    by apply evolves_same.
  - apply tag_run in H as (r & H & _). apply MarkFailed_marks in H as [_ [E|(x & _ & _ & E)]]; rewrite E; [reflexivity|].
    by apply evolves_same.
Qed.

Lemma ReqCreate_evolves_at k ttl w res w' id :
  RequestStore.Create rs k ttl w = (res, w') -> (forall x, res = Ok x -> c_ID x <> id) ->
  req_evolves_at id (db w) (db w').
Proof.
  intros H Hne. unfold RequestStore.Create in H. destruct res as [x|e].
  - apply bind_ok in H as (fp & w0 & Hf & H). mstep Hf. apply bind_ok in H as (u & w1 & H1 & H). mstep H1.
    apply bind_ok in H as (raw & w2 & Hr & H). mstep Hr. apply bind_ok in H as (t & w3 & Ht & H). mstep Ht.
    apply bind_ok in H as (u2 & w4 & Hi & H). mstep Hi. msteps H. specialize (Hne _ eq_refl). simpl in Hne.
    unfold insert_request in Hi. destruct (keys_unique _ _ _); [|done]. destruct (ins _ _ _ _) eqn:Ei; [|done].
    injection Hi as _ <-. apply ins_Some in Ei as (_ & _ & ->). unfold req_evolves_at. simpl.
    rewrite lookup_insert_ne by done. reflexivity.
  - assert (E : db w' = db w); [|rewrite E; reflexivity].
    apply bind_err in H as [H|(fp & w0 & Hf & H)]; [by merr H|]. mstep Hf.
    apply bind_err in H as [H|(u & w1 & H1 & H)]; [by merr H|]. mstep H1.
    apply bind_err in H as [H|(raw & w2 & Hr & H)]; [by merr H|]. mstep Hr.
    apply bind_err in H as [H|(t & w3 & Ht & H)]; [by merr H|]. mstep Ht.
    apply bind_err in H as [H|(u2 & w4 & _ & H)]; by merr H.
Qed.

Lemma claim_re : respects (on_db req_evolves) (claimExpired rp).
Proof.
  assert (Hsql : forall A msg (f : ApiDB -> option (A * ApiDB)),
    (forall d a d', f d = Some (a, d') -> t_requests d' = t_requests d) -> respects (on_db req_evolves) (sql msg f))
    by (intros A msg f Hf; by apply re_sql_same).
  assert (Hp : forall t n, respects (on_db req_evolves) (PurgeExpiredTx t n (Some (reaper_outbox rp))))
    by (intros t n; apply PurgeExpiredTx_re; by intros o [= <-]).
  assert (He : forall ev, respects (on_db req_evolves) (enq (reaper_outbox rp) ev)) by (intros; by apply re_enq).
  assert (Hr : forall l t, respects (on_db req_evolves) (reclaim_all rp l t)).
  { induction l as [|c l IH]; intros t; cbn [reclaim_all];
      unfold reclaimRow, recordManagementOutcomeTx, ReclaimTx; solve_respects; apply Hsql.
    all: intros d n d' Hd.
    1: by apply update_management_Some in Hd as [(_ & -> & _)|(r & _ & _ & _ & ->)].
    all: first [by injection Hd as _ <-|by apply delete_secret_Some in Hd as [(_ & ->)|(r & _ & _ & _ & ->)]]. }
  unfold claimExpired, claimTx, purgeManagementTx. solve_respects; apply Hsql; intros ? ? ?; by intros [= _ <-].
Qed.

Lemma exec_req_evolves o w res w' id :
  exec s rs ob rp o w = (res, w') -> RequestCreated id ∉ events_of res -> req_evolves_at id (db w) (db w').
Proof.
  intros H Hn. destruct (on_requests o) eqn:Eo.
  2:{ destruct (is_claim o) eqn:Ec.
      - destruct o; try done. apply tag_run in H as (r & H & _). pose proof (claim_re w) as He. rewrite H in He. apply He.
      - pose proof (exec_secret_only o Eo Ec w) as (E & _). rewrite H in E. by apply req_evolves_same. }
  assert (Hev : forall A (m : M ApiDB A) f, respects (on_db req_evolves) m -> tag m f w = (res, w') -> req_evolves_at id (db w) (db w')).
  { intros A m f Hm E. apply tag_run in E as (r & E & _). specialize (Hm w). rewrite E in Hm. apply Hm. }
  destruct o; try done; cbn [exec] in H.
  - apply tag_run in H as (r & H & ->). eapply ReqCreate_evolves_at; [exact H|]. intros x -> <-. apply Hn. left.
  - eapply Hev; [|exact H]. by apply read_re.
  - eapply Hev; [|exact H]. apply begin_pass_lapse; [apply _|]. intros g t w1 u w2 E.
    pose proof (endReservationTx_re (Outbox rs) id0 g t (options_outbox_ok rs) w1) as He. rewrite E in He. apply He.
  - eapply Hev; [|exact H]. by apply Submit_re.
  - eapply Hev; [|exact H]. by apply Attempt_re.
  - eapply Hev; [|exact H]. by apply openFirst_re.
  - eapply Hev; [|exact H]. by apply consumeObject_re.
  - eapply Hev; [|exact H]. by apply FinishOpen_re.
  - eapply Hev; [|exact H]. by apply Revoke_re.
  - eapply Hev; [|exact H]. by apply reserveFirst_re.
  - eapply Hev; [|exact H]. by apply Abandon_re.
  - eapply Hev; [|exact H]. by apply reconcilePage_re.
  - eapply Hev; [|exact H]. apply re_request_cursor.
  - eapply Hev; [|exact H]. by apply AcknowledgeObjectCleanup_re.
Qed.

(** The gauge. *)
Lemma balanced_same w w' :
  t_secrets (db w') = t_secrets (db w) -> active_uploads w' = active_uploads w -> balanced w -> balanced w'.
Proof. unfold balanced, pending_ok. rewrite !pending_count_in. by intros -> ->. Qed.

Lemma exec_balanced o w : balanced w -> balanced (exec s rs ob rp o w).2.
Proof.
  intros Hb. destruct (on_requests o) eqn:Eo.
  { destruct (exec_request_only o Eo w) as (Ea & (E1 & _) & _). by apply (balanced_same w). }
  assert (Htag : forall A (m : M ApiDB A) f, (tag m f w).2 = (m w).2)
    by (intros A m f; unfold tag, bind, ret; by destruct (m w) as [[a|e] w1]).
  destruct o; try done; unfold exec, silent; rewrite Htag.
  - by apply Create_balanced.
  - by apply CreateLarge_balanced.
  - by apply Finalize_balanced.
  - by apply open_balanced.
  - by apply enqueueOpenedObjectCleanup_balanced.
  - by apply Cleanup_balanced.
  - by apply Revoke_balanced.
  - by apply claimExpired_balanced.
  - apply (balanced_same w); [apply reconcilePage_secrets| |done].
    assert (Hk : forall t l n, respects same_gauge (reconcile_keys rp t l n)).
    { intros t l. induction l as [|k l IH]; intros n; cbn [reconcile_keys]; solve_respects. }
    apply (fun H => H w). unfold reconcilePage. solve_respects.
  - apply balanced_kept; [|solve_respects|done]. apply respects_sql; [apply _|]. intros d x d'. unfold update_cursor.
    destruct (advance _ _ _). intros [= _ <-]. by apply count_kept_same.
  - apply balanced_kept; [|unfold AcknowledgeObjectCleanup; solve_respects|done].
    unfold AcknowledgeObjectCleanup. solve_respects. apply respects_sql; [apply _|].
    intros d x d' [= _ <-]. by apply count_kept_same.
  - destruct (MarkPublished id w) as [res w'] eqn:E. apply MarkPublished_marks in E as [[Ea _] [E|(x & _ & _ & E)]];
      simpl; apply (balanced_same w); by rewrite ?E.
  - destruct (MarkFailed id (Some msg) next w) as [res w'] eqn:E. apply MarkFailed_marks in E as [[Ea _] [E|(x & _ & _ & E)]];
      simpl; apply (balanced_same w); by rewrite ?E.
Qed.
End operations.

(** ** The promises *)
Section promises.
Context {ENV : Env} {CODEC : EventCodec} {RC : RequestCodec} {DATES : SqliteDate} {BROKER : Broker}.
Context (s : Store) (rs : Options) (ob : outboxEnqueuer) (rp : Reaper).
Context `{!StoreSpec s} `{!OptionsSpec rs} `{!OutboxSpec ob} (Hrp : OutboxSpec (reaper_outbox rp)).
Implicit Types w : World ApiDB.

Abbreviation dbs x := (db (world x)).
Abbreviation Step := (step s rs ob rp).
Abbreviation History := (history s rs ob rp).

Lemma copyVerified_run obj a w res w' :
  copyVerified obj a w = (res, w') -> Objects.Spec obj -> request_only w w' /\ db w' = db w.
Proof.
  intros H Ho. pose proof (copyVerified_ro obj a Ho w) as Hr. rewrite H in Hr. split; [exact Hr|].
  by eapply copyVerified_db.
Qed.
Lemma acceptAttempt_run id tok at_ a i w res w' : acceptAttempt rs id tok at_ a i w = (res, w') -> request_only w w'.
Proof. intros H. pose proof (acceptAttempt_ro rs id tok at_ a i w) as Hr. by rewrite H in Hr. Qed.

(** *** Secrets *)
Lemma step_evolves x evs y id : Step x evs y -> SecretCreated id ∉ evs -> evolves_at id (dbs x) (dbs y).
Proof.
  intros H Hn. destruct H as [o w c res w' H|id' tok at_ i w c res w' _ H|obj id' a i w c res w' _ Eo H|id' tok at_ a i w c res w' _ _ H|w w' c Hidle|w c]; simpl.
  - eapply (exec_evolves s rs ob rp); done.
  - pose proof (finalizeFirst_ro rs id' tok at_ i w) as (_ & (E1 & E2 & _) & _). rewrite H in E1, E2. by apply evolves_same.
  - apply copyVerified_run in H as [_ ->]; [reflexivity|by apply options_objects].
  - apply acceptAttempt_run in H as (_ & (E1 & E2 & _) & _). by apply evolves_same.
  - destruct Hidle as [-> _]. reflexivity.
  - reflexivity.
Qed.

Definition openable (id : string) (d : ApiDB) : Prop :=
  exists r, t_secrets d !! id = Some r /\ s_consumed r = None.

Lemma evolves_openable id d d' : evolves_at id d d' -> openable id d' -> openable id d.
Proof.
  intros [H _] (r' & Hr' & Hc). unfold openable. rewrite Hr' in H.
  destruct (t_secrets d !! id) as [r|]; simpl in H; [|done]. exists r. split; [done|].
  destruct (s_consumed r) as [c|] eqn:E; [|done]. destruct (le_consumed _ _ H); congruence.
Qed.

Lemma step_open x evs y id :
  Step x evs y -> SecretOpened id ∈ evs -> evs = [SecretOpened id] /\ openable id (dbs x) /\ ~ openable id (dbs y).
Proof.
  intros H Hin. destruct H as [o w c res w' H|id' tok at_ i w c res w' _ H|obj id' a i w c res w' _ Eo H|id' tok at_ a i w c res w' _ _ H|w w' c Hidle|w c];
    simpl in *; try by apply not_elem_of_nil in Hin.
  2,3: repeat case_match; by (apply list_elem_of_singleton in Hin || apply not_elem_of_nil in Hin).
  destruct o; apply tag_run in H as (r0 & H & ->); destruct r0 as [?|?]; simpl in Hin;
    repeat case_match; simpl in Hin; try (by apply not_elem_of_nil in Hin); apply list_elem_of_singleton in Hin; simplify_eq.
  split; [done|]. apply open_ok_spec in H as
    (r & t & t0 & j & tj & (Hr & _ & Hc & _) & _ & _ & _ & _ & _ & _ & _ & _ & He & _); [|done..].
  split; [by exists r|]. destruct He as (row & _ & _ & ->). intros (r' & Hr' & Hc'). simpl in Hr'.
  unfold record_outcome in Hr'. repeat case_match; simpl in Hr'; rewrite lookup_insert_eq in Hr'; by simplify_eq.
Qed.

Definition times (e : event) (evs : list event) : nat := length (filter (fun e' => e' = e) evs).

Lemma times_app e l1 l2 : times e (l1 ++ l2) = (times e l1 + times e l2)%nat.
Proof. unfold times. by rewrite filter_app, length_app. Qed.
Lemma times_0 e l : e ∉ l -> times e l = 0%nat.
Proof.
  intros Hn. unfold times. destruct (filter _ l) as [|e' k] eqn:E; [done|]. exfalso. apply Hn.
  assert (Hi : e' ∈ filter (fun e' => e' = e) l) by (rewrite E; left). by apply list_elem_of_filter in Hi as [-> ?].
Qed.
Lemma times_1 e : times e [e] = 1%nat.
Proof. unfold times. by rewrite filter_cons_True. Qed.

(** An event that needs [can] and destroys it, where nothing but [c] brings
    [can] back, happens at most once. *)
Section once.
Context (R : relation ApiDB) `{!PreOrder R} (c e : event) (can : ApiDB -> Prop).
Context (Hstep : forall x evs y, Step x evs y -> c ∉ evs -> R (dbs x) (dbs y)).
Context (Hcan : forall d d', R d d' -> can d' -> can d).
Context (Hev : forall x evs y, Step x evs y -> e ∈ evs -> evs = [e] /\ can (dbs x) /\ ~ can (dbs y)).

Lemma at_most_once x evs y :
  History x evs y -> c ∉ evs ->
  R (dbs x) (dbs y) /\ (times e evs <= 1)%nat /\ (times e evs = 1%nat -> can (dbs x) /\ ~ can (dbs y)).
Proof.
  induction 1 as [x|x evs y new z H IH Hs]; intros Hn; [split_and!; [reflexivity|unfold times; simpl; lia|done]|].
  apply not_elem_of_app in Hn as [Hn1 Hn2]. destruct (IH Hn1) as (He & Hle & H1).
  pose proof (Hstep _ _ _ Hs Hn2) as He2. assert (R (dbs x) (dbs z)) by (by etrans). rewrite times_app.
  destruct (decide (e ∈ new)) as [Hin|Hout].
  - destruct (Hev _ _ _ Hs Hin) as (-> & Ho & Hno). rewrite times_1.
    destruct (decide (times e evs = 1%nat)) as [E|E]; [by destruct (H1 E) as [_ ?]|].
    split_and!; [done|lia|]. intros _. split; [|done]. by apply (Hcan _ _ He).
  - rewrite (times_0 _ _ Hout), Nat.add_0_r. split_and!; [done|done|]. intros E1. destruct (H1 E1) as [? Hno].
    split; [done|]. intros Hy. apply Hno. by apply (Hcan _ _ He2).
Qed.
End once.

(** C1: a secret is opened at most once.  In every history of the API process,
    whatever is interleaved with it and whichever calls fail, at most one open
    of a secret succeeds, none does if the secret was consumed or gone at the
    start, and after one the secret is never openable again. *)
Theorem secret_opened_at_most_once x evs y id :
  history s rs ob rp x evs y -> SecretCreated id ∉ evs ->
  (times (SecretOpened id) evs <= 1)%nat /\
  (times (SecretOpened id) evs = 1%nat -> openable id (db (world x)) /\ ~ openable id (db (world y))).
Proof.
  intros H Hn. apply (at_most_once (evolves_at id) (SecretCreated id) (SecretOpened id) (openable id)) in H; [by destruct H|..|done].
  - intros. by eapply step_evolves.
  - apply evolves_openable.
  - intros. by apply step_open.
Qed.

(** *** Requests *)
Lemma step_req_evolves x evs y id : Step x evs y -> RequestCreated id ∉ evs -> req_evolves_at id (dbs x) (dbs y).
Proof.
  intros H Hn. destruct H as [o w c res w' H|id' tok at_ i w c res w' _ H|obj id' a i w c res w' _ Eo H|id' tok at_ a i w c res w' _ _ H|w w' c Hidle|w c]; simpl.
  - eapply (exec_req_evolves s rs ob rp); done.
  - pose proof (finalizeFirst_re rs id' tok at_ i w) as E. rewrite H in E. apply E.
  - apply copyVerified_run in H as [_ ->]; [reflexivity|by apply options_objects].
  - pose proof (acceptAttempt_re rs id' tok at_ a i w) as E. rewrite H in E. apply E.
  - destruct Hidle as [-> _]. reflexivity.
  - reflexivity.
Qed.

Definition unfinished (id : string) (d : ApiDB) : Prop :=
  exists r, t_requests d !! id = Some r /\ phase (r_state r) < 3.

Lemma evolves_unfinished id d d' : req_evolves_at id d d' -> unfinished id d' -> unfinished id d.
Proof.
  unfold req_evolves_at. intros H (r' & Hr' & Hc). unfold unfinished. rewrite Hr' in H.
  destruct (t_requests d !! id) as [r|]; simpl in H; [|done]. exists r. split; [done|].
  destruct (decide (3 <= phase (r_state r))) as [Hp|Hp]; [|lia]. apply (rl_terminal _ _ H) in Hp. lia.
Qed.

Lemma step_req_open x evs y id :
  Step x evs y -> RequestOpened id ∈ evs ->
  evs = [RequestOpened id] /\ unfinished id (dbs x) /\ ~ unfinished id (dbs y).
Proof.
  assert (Hst : forall d d', in_state id Submitted d /\ in_state id ReqConsumed d' -> unfinished id d /\ ~ unfinished id d').
  { intros d d' [(r & Hr & Hs) (r' & Hr' & Hs')]. split; [exists r; rewrite Hs; split; [done|simpl; lia]|].
    intros (r2 & Hr2 & Hp). assert (r2 = r') as -> by congruence. rewrite Hs' in Hp. simpl in Hp. lia. }
  intros H Hin. destruct H as [o w c res w' H|id' tok at_ i w c res w' _ H|obj id' a i w c res w' _ Eo H|id' tok at_ a i w c res w' _ _ H|w w' c Hidle|w c];
    simpl in *; try by apply not_elem_of_nil in Hin.
  2,3: repeat case_match; by (apply list_elem_of_singleton in Hin || apply not_elem_of_nil in Hin).
  destruct o; apply tag_run in H as (r0 & H & ->); destruct r0 as [?|?]; simpl in Hin;
    repeat case_match; simpl in Hin; try (by apply not_elem_of_nil in Hin); apply list_elem_of_singleton in Hin; simplify_eq.
  - split; [done|]. apply Hst. by eapply openFirst_opened.
  - split; [done|]. apply Hst. by eapply consumeObject_opened.
Qed.

(** C4: a request is opened at most once.  In every history, at most one open
    of a request delivers its content, inline or from the bucket, and after one
    the request never again accepts, reserves or delivers anything. *)
Theorem request_opened_at_most_once x evs y id :
  history s rs ob rp x evs y -> RequestCreated id ∉ evs ->
  (times (RequestOpened id) evs <= 1)%nat /\
  (times (RequestOpened id) evs = 1%nat -> unfinished id (db (world x)) /\ ~ unfinished id (db (world y))).
Proof.
  intros H Hn. apply (at_most_once (req_evolves_at id) (RequestCreated id) (RequestOpened id) (unfinished id)) in H; [by destruct H|..|done].
  - intros. by eapply step_req_evolves.
  - apply evolves_unfinished.
  - intros. by apply step_req_open.
Qed.

Lemma step_accepts x evs y id a : Step x evs y -> RequestAccepted id a ∈ evs -> accepted_as id a (dbs y).
Proof.
  assert (Hval : forall i at_, validateAttempt i = Ok at_ -> at_ <> "").
  { exact validateAttempt_nonempty. }
  intros H Hin.
  destruct H as [o w c res w' H|id' tok at_ i w c res w' Hv H|obj id' a' i w c res w' _ Eo H|id' tok at_ a' i w c res w' Hv _ H|w w' c Hidle|w c];
    simpl in *; try by apply not_elem_of_nil in Hin.
  - destruct o; apply tag_run in H as (r0 & H & ->); destruct r0 as [?|?]; simpl in Hin;
      repeat case_match; simpl in Hin; try (by apply not_elem_of_nil in Hin); apply list_elem_of_singleton in Hin; simplify_eq.
    by eapply Submit_accepts.
  - destruct res as [[rc|a']|e]; [|by apply list_elem_of_singleton in Hin|by apply not_elem_of_nil in Hin].
    apply list_elem_of_singleton in Hin as [= <- <-]. eapply finalizeFirst_accepts; [done|by eapply Hval|exact H].
  - destruct res as [rc|e]; [|by apply not_elem_of_nil in Hin]. apply list_elem_of_singleton in Hin as [= <- <-].
    eapply acceptAttempt_accepts; [done|by eapply Hval|exact H].
Qed.

Lemma accepted_fixed id a b d d' : req_evolves_at id d d' -> accepted_as id a d -> accepted_as id b d' -> a = b.
Proof.
  unfold req_evolves_at. intros H (r & Hr & Hp & Ha) (r' & Hr' & _ & Hb). rewrite Hr, Hr' in H. simpl in H.
  destruct (rl_accepted _ _ H Hp) as (_ & E & _). congruence.
Qed.

(** C5: a request accepts at most one submission.  In every history, all the
    receipts a request gives out for accepted submissions, inline or finalized,
    retries and concurrent attempts included, are for one and the same attempt
    token. *)
Theorem request_accepts_one_attempt x evs y id a b :
  history s rs ob rp x evs y -> RequestCreated id ∉ evs ->
  RequestAccepted id a ∈ evs -> RequestAccepted id b ∈ evs -> a = b.
Proof.
  assert (Hinv : forall x evs y, History x evs y -> RequestCreated id ∉ evs ->
    forall a, RequestAccepted id a ∈ evs -> exists d, req_evolves_at id d (dbs y) /\ accepted_as id a d).
  { clear x evs y a b. induction 1 as [x|x evs y new z H IH Hs]; intros Hn a Ha; [by apply not_elem_of_nil in Ha|].
    apply not_elem_of_app in Hn as [Hn1 Hn2]. apply elem_of_app in Ha as [Ha|Ha].
    - destruct (IH Hn1 a Ha) as (d & Hd & Hacc). exists d. split; [|done]. etrans; [exact Hd|]. by eapply step_req_evolves.
    - exists (dbs z). split; [reflexivity|]. by eapply step_accepts. }
  induction 1 as [x|x evs y new z H IH Hs]; intros Hn Ha Hb; [by apply not_elem_of_nil in Ha|].
  apply not_elem_of_app in Hn as [Hn1 Hn2]. pose proof (step_req_evolves _ _ _ id Hs Hn2) as He.
  apply elem_of_app in Ha as [Ha|Ha]; apply elem_of_app in Hb as [Hb|Hb]; [by apply IH|..].
  - destruct (Hinv _ _ _ H Hn1 a Ha) as (d & Hd & Hacc). eapply (accepted_fixed id a b d); [by etrans|done|by eapply step_accepts].
  - destruct (Hinv _ _ _ H Hn1 b Hb) as (d & Hd & Hacc). symmetry.
    eapply (accepted_fixed id b a d); [by etrans|done|by eapply step_accepts].
  - eapply (accepted_fixed id a b (dbs z)); [reflexivity|by eapply step_accepts..].
Qed.

(** *** Jobs, objects and the gauge *)
Lemma exec_grows o : respects (on_db outbox_grows) (exec s rs ob rp o).
Proof. intros w. by destruct (exec_kept s rs ob rp Hrp o w) as [Hg _]. Qed.

Lemma step_grows x evs y : Step x evs y -> outbox_grows (dbs x) (dbs y).
Proof.
  intros H. destruct H as [o w c res w' H|id' tok at_ i w c res w' _ H|obj id' a i w c res w' _ Eo H|id' tok at_ a i w c res w' _ _ H|w w' c Hidle|w c]; simpl.
  - pose proof (exec_grows o w) as E. by rewrite H in E.
  - pose proof (finalizeFirst_ro rs id' tok at_ i w) as (_ & _ & E). by rewrite H in E.
  - apply copyVerified_run in H as [_ ->]; [reflexivity|by apply options_objects].
  - by apply acceptAttempt_run in H as (_ & _ & E).
  - destruct Hidle as [-> _]. reflexivity.
  - reflexivity.
Qed.

(** a queued clean-up job is never lost.  Whatever happens after a job is
    in the outbox, its row stays, with the same subject and payload, and once
    it is published it does not change any more. *)
Theorem jobs_never_lost x evs y : history s rs ob rp x evs y -> outbox_grows (db (world x)) (db (world y)).
Proof.
  induction 1 as [x|x evs y new z H IH Hs]; [reflexivity|]. etrans; [exact IH|]. by eapply step_grows.
Qed.

(** The reservation an in-flight copy belongs to, for as long as the request
    exists. *)
Definition tracks (id : string) (a : objectAttempt) (g : Z) (d : ApiDB) : Prop :=
  forall r, t_requests d !! id = Some r -> g <= r_generation r /\
    (r_generation r = g -> 1 <= phase (r_state r)) /\
    (r_generation r = g -> r_state r = Uploading -> r_upload_key r = a_uploadKey a).

Lemma tracks_evolves id a g d d' : req_evolves_at id d d' -> tracks id a g d -> tracks id a g d'.
Proof.
  unfold req_evolves_at. intros H Ht r' Hr'. rewrite Hr' in H.
  destruct (t_requests d !! id) as [r|] eqn:Hr; [|done]. simpl in H. destruct (Ht r Hr) as (Hg & Hp & Hk).
  pose proof (rl_progress _ _ H) as Hpr. split_and!; [lia|intros; lia|]. intros E Hu. rewrite Hu in Hpr. simpl in Hpr.
  assert (Eg : r_generation r = g) by lia. specialize (Hp Eg).
  assert (Hur : r_state r = Uploading) by (destruct (r_state r); simpl in *; (done || lia)).
  destruct (rl_reserved _ _ H) as [-> _]; [congruence|done|done|]. by apply Hk.
Qed.

Definition copies_ok (evs : list event) (x : sys) : Prop :=
  forall id a i v, (id, a, i, v) ∈ copying x -> CopyStarted id ∈ evs /\ tracks id a (ai_Generation i) (dbs x).

(** No request is created under the id of an upload being finalized (ids are
    128 random bits). *)
Definition ids_fresh (evs : list event) : Prop :=
  forall l1 l2 id, evs = l1 ++ l2 -> CopyStarted id ∈ l1 -> RequestCreated id ∉ l2.

Lemma ids_fresh_app l1 l2 : ids_fresh (l1 ++ l2) -> ids_fresh l1.
Proof.
  intros H k1 k2 id -> Hc. assert (Hn : RequestCreated id ∉ k2 ++ l2) by (by apply (H k1); rewrite ?app_assoc).
  by apply not_elem_of_app in Hn as [? _].
Qed.

Lemma step_copies evs x new y :
  Step x new y -> ids_fresh (evs ++ new) -> copies_ok evs x -> copies_ok (evs ++ new) y.
Proof.
  intros H Hf Hc id a i v Hin.
  assert (Hold : forall v, (id, a, i, v) ∈ copying x -> CopyStarted id ∈ evs ++ new /\ tracks id a (ai_Generation i) (dbs y)).
  { intros v' Hx. destruct (Hc _ _ _ _ Hx) as [Hs Ht]. split; [apply elem_of_app; by left|].
    eapply tracks_evolves; [|exact Ht]. eapply step_req_evolves; [exact H|]. by apply (Hf evs). }
  destruct H as [o w c res w' H|id' tok at_ i' w c res w' Hv H|obj id' a' i' w c res w' Hc' Eo H|id' tok at_ a' i' w c res w' _ _ H|w w' c Hidle|w c];
    simpl in *; try (by eapply Hold); [| |by apply not_elem_of_nil in Hin].
  2:{ destruct res as [u|e]; [|by eapply Hold]. apply elem_of_cons in Hin as [[= -> -> -> _]|Hin]; by eapply Hold. }
  destruct res as [[rc|a']|e]; [by eapply Hold| |by eapply Hold].
  apply elem_of_cons in Hin as [[= -> -> -> _]|Hin]; [|by eapply Hold].
  split; [apply elem_of_app; right; left|]. apply finalizeFirst_row in H as (r & Hr & Hu & -> & Hg & _ & Ed); [|done].
  intros r' Hr'. rewrite Ed in Hr'. assert (r' = r) as -> by congruence. rewrite Hu. simpl. split_and!; [lia|lia|done].
Qed.

Lemma step_keys evs x new y : Step x new y -> copies_ok evs x -> no_key_lost (dbs x) (dbs y).
Proof.
  intros H Hc. destruct H as [o w c res w' H|id' tok at_ i w c res w' _ H|obj id' a i w c res w' _ Eo H|id' tok at_ a i w c res w' _ Hin H|w w' c Hidle|w c]; simpl.
  - pose proof (exec_kept s rs ob rp Hrp o w) as E. by rewrite H in E.
  - pose proof (finalizeFirst_kept rs id' tok at_ i w) as E. by rewrite H in E.
  - apply copyVerified_run in H as [_ ->]; [reflexivity|by apply options_objects].
  - destruct (Hc _ _ _ _ Hin) as [_ Ht]. simpl in Ht.
    pose proof (acceptAttempt_kept rs id' tok at_ a i w) as Hk. rewrite H in Hk. apply Hk.
    intros r Hr Hg Hu. destruct (Ht r Hr) as (_ & _ & Hx). by apply Hx.
  - destruct Hidle as [-> _]. reflexivity.
  - reflexivity.
Qed.

Lemma history_keys x evs0 evs y :
  History x evs y -> ids_fresh (evs0 ++ evs) -> copies_ok evs0 x ->
  copies_ok (evs0 ++ evs) y /\ no_key_lost (dbs x) (dbs y).
Proof.
  induction 1 as [x|x evs y new z H IH Hs]; intros Hf Hc; [rewrite app_nil_r; by split|].
  rewrite app_assoc in Hf |- *. destruct (IH (ids_fresh_app _ _ Hf) Hc) as [Hc' Hk].
  split; [by eapply step_copies|]. etrans; [exact Hk|]. by eapply step_keys.
Qed.

(** C7: no object of a request is forgotten.  Take any history of a process
    started with no finalize in flight on a database whose waiting requests
    hold no object, and any later point of it: every bucket key a request held
    at the first point it still holds at the second, or a delete job for that
    key is in the outbox. *)
Theorem no_request_object_forgotten x evs1 y evs2 z id key :
  history s rs ob rp x evs1 y -> history s rs ob rp y evs2 z -> copying x = [] -> ids_fresh (evs1 ++ evs2) ->
  waiting_clean (db (world x)) -> holds_key id key (db (world y)) -> holds_key id key (db (world z)) \/ has_job key (db (world z)).
Proof.
  intros H1 H2 Hc Hf Hw Hk.
  assert (H0 : copies_ok [] x) by (intros i a j v Hin; rewrite Hc in Hin; by apply not_elem_of_nil in Hin).
  destruct (history_keys _ [] _ _ H1 (ids_fresh_app _ _ Hf) H0) as [Hc1 [_ K1]]. destruct (K1 Hw) as [Hwy _].
  destruct (history_keys _ _ _ _ H2 Hf Hc1) as [_ [_ K2]]. destruct (K2 Hwy) as [_ H]. by apply H.
Qed.

(** the upload gauge is the number of pending uploads.  In every history
    that starts with the gauge equal to the number of rows awaiting finalize,
    it stays equal through creations, finalizes, cancellations, opens, reaper
    ticks, failures and restarts. *)
Theorem gauge_counts_pending x evs y :
  history s rs ob rp x evs y -> balanced (world x) -> balanced (world y).
Proof.
  induction 1 as [x|x evs y new z H IH Hs]; intros Hb; [done|]. specialize (IH Hb). clear H Hb.
  destruct Hs as [o w c res w' H|id' tok at_ i w c res w' _ H|obj id' a i w c res w' _ Eo H|id' tok at_ a i w c res w' _ _ H|w w' c Hidle|w c]; simpl in *.
  - pose proof (exec_balanced s rs ob rp Hrp o w IH) as E. by rewrite H in E.
  - pose proof (finalizeFirst_ro rs id' tok at_ i w) as (Ea & (E1 & _) & _). rewrite H in Ea, E1. by apply (balanced_same w).
  - apply copyVerified_run in H as [(Ea & (E1 & _) & _) _]; [|by apply options_objects]. by apply (balanced_same w).
  - apply acceptAttempt_run in H as (Ea & (E1 & _) & _). by apply (balanced_same w).
  - destruct Hidle as [E1 Ea]. apply (balanced_same w); [by rewrite E1|done..].
  - by destruct IH.
Qed.
End promises.
