(* ===== verification/Sharing.v ===== *)
(** * Concurrent finalizes (src/internal/requests/large.go, [Finalize] and [copyVerified])

    A finalize whose request is being finalized already waits for that call and
    returns its result; copies wait for one of two slots.  The calls run
    concurrently with each other and with every other operation: this file is
    the step relation of their interleavings, over the transactions of
    RequestStore.v. *)

From S2P Require Import Prelude World GoTime Codec Schema Outbox ObjectStorage SecretStore RequestStore Reaper Lifecycle.
#[local] Open Scope Z_scope.

Definition maxCopies : nat := 2.

(** [finalizeCall]: [call_done] is [None] until its channel is closed.  The
    owner and the request are not in the code; they name who made the call. *)
Record finalizeCall := MkCall { call_owner : nat; call_id : string; call_done : option (result Receipt) }.

(** Where a caller of [Finalize] is, once its first transaction asked for a
    copy. *)
Inductive caller_state :=
  | Checked                                   (** before the mutex *)
  | Leading (n : nat)                         (** made call [n], waits for a slot *)
  | Copying (n : nat)                         (** holds a slot *)
  | Accepting (n : nat)                       (** its copy was verified, the slot is free again *)
  | Returning (n : nat) (r : result Receipt)  (** its result is known, call [n] still open *)
  | Joined (n : nat)                          (** waits for call [n] *)
  | Finished (n : nat) (r : result Receipt)   (** returned the result of its own call *)
  | Woken (n : nat) (r : result Receipt)      (** returned that of the call it joined *)
  | Cancelled.                                (** its context ended first *)

Record caller := MkCaller {
  cl_id : string;
  cl_token : string;
  cl_attempt : string;
  cl_input : AttemptInput;
  cl_object : objectAttempt;
  cl_state : caller_state;
}.
Definition set_state (st : caller_state) (c : caller) : caller :=
  MkCaller (cl_id c) (cl_token c) (cl_attempt c) (cl_input c) (cl_object c) st.

(** The call a caller made and has not closed. *)
Definition open_call (c : caller) : option nat :=
  match cl_state c with Leading n | Copying n | Accepting n | Returning n _ => Some n | _ => None end.
Definition has_slot (c : caller) : bool := match cl_state c with Copying _ => true | _ => false end.
Definition returned (c : caller) : Prop :=
  match cl_state c with Finished _ _ | Woken _ _ | Cancelled => True | _ => False end.

(** The database and the memory of the process. *)
Record shared := MkShared {
  sh_world : World ApiDB;
  finalizing : gmap string nat;
  calls : gmap nat finalizeCall;
  callers : gmap nat caller;
  copies : nat;
}.
Definition started (w : World ApiDB) : shared := MkShared w ∅ ∅ ∅ 0.

(** One caller moves, and nothing else of the memory changes. *)
Definition move (k : nat) (c : caller) (st : caller_state) (w : World ApiDB) (slots : nat) (x : shared) : shared :=
  MkShared w (finalizing x) (calls x) (<[k := set_state st c]> (callers x)) slots.
(** Caller [k] makes call [n]. *)
Definition make_call (k n : nat) (c : caller) (x : shared) : shared :=
  MkShared (sh_world x) (<[cl_id c := n]> (finalizing x)) (<[n := MkCall k (cl_id c) None]> (calls x))
    (<[k := set_state (Leading n) c]> (callers x)) (copies x).
(** The deferred function of the caller that made call [n]. *)
Definition close_call (k n : nat) (c : caller) (r : result Receipt) (x : shared) : shared :=
  MkShared (sh_world x) (delete (cl_id c) (finalizing x)) (<[n := MkCall k (cl_id c) (Some r)]> (calls x))
    (<[k := set_state (Finished n r) c]> (callers x)) (copies x).

Definition storage_error : result Receipt := Err (RequestsErr ErrStorage).

Section system.
Context {ENV : Env} {CODEC : EventCodec} {RC : RequestCodec} {DATES : SqliteDate} {BROKER : Broker}.
Context (s : Store) (rs : Options) (ob : outboxEnqueuer) (rp : Reaper).

(** What a caller does next, when no context ends. *)
Inductive advances : shared -> list event -> shared -> Prop :=
  | sh_lead x k c n :
      callers x !! k = Some c -> cl_state c = Checked -> finalizing x !! cl_id c = None -> calls x !! n = None ->
      advances x [] (make_call k n c x)
  | sh_join x k c n :
      callers x !! k = Some c -> cl_state c = Checked -> finalizing x !! cl_id c = Some n ->
      advances x [] (move k c (Joined n) (sh_world x) (copies x) x)
  | sh_slot x k c n :
      callers x !! k = Some c -> cl_state c = Leading n -> (copies x < maxCopies)%nat ->
      advances x [] (move k c (Copying n) (sh_world x) (S (copies x)) x)
  | sh_copy x k c n obj res w' :
      callers x !! k = Some c -> cl_state c = Copying n -> RequestStore.Objects rs = Some obj ->
      copyVerified obj (cl_object c) (sh_world x) = (res, w') ->
      advances x []
        (move k c (match res with Ok _ => Accepting n | Err e => Returning n (Err e) end) w' (copies x - 1) x)
  | sh_accept x k c n res w' :
      callers x !! k = Some c -> cl_state c = Accepting n ->
      acceptAttempt rs (cl_id c) (cl_token c) (cl_attempt c) (cl_object c) (cl_input c) (sh_world x) = (res, w') ->
      advances x (match res with Ok _ => [RequestAccepted (cl_id c) (cl_attempt c)] | Err _ => [] end)
        (move k c (Returning n res) w' (copies x) x)
  | sh_close x k c n r :
      callers x !! k = Some c -> cl_state c = Returning n r -> advances x [] (close_call k n c r x)
  | sh_wake x k c n call r :
      callers x !! k = Some c -> cl_state c = Joined n -> calls x !! n = Some call -> call_done call = Some r ->
      advances x [] (move k c (Woken n r) (sh_world x) (copies x) x).

Inductive share_step : shared -> list event -> shared -> Prop :=
  | sh_advance x evs y : advances x evs y -> share_step x evs y
  | sh_first x k id token attempt i a w' :
      validateAttempt i = Ok attempt -> callers x !! k = None ->
      finalizeFirst rs id token attempt i (sh_world x) = (Ok (inr a), w') ->
      share_step x [CopyStarted id]
        (MkShared w' (finalizing x) (calls x) (<[k := MkCaller id token attempt i a Checked]> (callers x)) (copies x))
  | sh_refused x id token attempt i res w' :
      validateAttempt i = Ok attempt -> finalizeFirst rs id token attempt i (sh_world x) = (res, w') ->
      (forall a, res <> Ok (inr a)) ->
      share_step x (match res with Ok _ => [RequestAccepted id attempt] | Err _ => [] end)
        (MkShared w' (finalizing x) (calls x) (callers x) (copies x))
  | sh_give_up x k c n :
      callers x !! k = Some c -> cl_state c = Leading n ->
      share_step x [] (move k c (Returning n storage_error) (sh_world x) (copies x) x)
  | sh_cancel x k c n :
      callers x !! k = Some c -> cl_state c = Joined n ->
      share_step x [] (move k c Cancelled (sh_world x) (copies x) x)
  | sh_op x o res w' :
      exec s rs ob rp o (sh_world x) = (res, w') ->
      share_step x (events_of res) (MkShared w' (finalizing x) (calls x) (callers x) (copies x))
  | sh_idle x w' :
      still (sh_world x) w' -> share_step x [] (MkShared w' (finalizing x) (calls x) (callers x) (copies x))
  | sh_restart x :
      share_step x [] (started (MkWorld (db (sh_world x)) (tick (sh_world x)) (pending_count (db (sh_world x))) (trace (sh_world x)))).

Inductive sharing : shared -> list event -> shared -> Prop :=
  | sharing_nil x : sharing x [] x
  | sharing_snoc x evs y new z : sharing x evs y -> share_step y new z -> sharing x (evs ++ new) z.

(** The callers run to their ends, in [n] steps. *)
Inductive callers_run : nat -> shared -> list event -> shared -> Prop :=
  | callers_run_nil x : callers_run 0 x [] x
  | callers_run_cons n x new y evs z : advances x new y -> callers_run n y evs z -> callers_run (S n) x (new ++ evs) z.
End system.

(** ** What the memory of the process keeps *)
(** Sums over the callers. *)
Definition total (f : caller -> nat) (m : gmap nat caller) : nat := map_fold (fun _ c n => (f c + n)%nat) 0%nat m.

Lemma total_insert f m k c c' : m !! k = Some c ->
  (total f (<[k := c']> m) + f c = total f m + f c')%nat.
Proof.
  intros Hk. assert (Hd : forall d, total f (<[k := d]> m) = (f d + total f (delete k m))%nat).
  { intros d. unfold total. rewrite <-insert_delete_eq. rewrite map_fold_insert_L; [done|intros; lia|apply lookup_delete_eq]. }
  pose proof (Hd c) as Hm. rewrite insert_id in Hm by done. rewrite Hd, Hm. lia.
Qed.

Definition slot_of (c : caller) : nat := if has_slot c then 1 else 0.

Definition caller_ok (cs : gmap nat finalizeCall) (k : nat) (c : caller) : Prop :=
  match cl_state c with
  | Checked | Cancelled => True
  | Leading n | Copying n | Accepting n | Returning n _ => cs !! n = Some (MkCall k (cl_id c) None)
  | Joined n => exists k' d, cs !! n = Some (MkCall k' (cl_id c) d)
  | Finished n r => cs !! n = Some (MkCall k (cl_id c) (Some r))
  | Woken n r => exists k', cs !! n = Some (MkCall k' (cl_id c) (Some r))
  end.
Definition call_ok (fin : gmap string nat) (m : gmap nat caller) (n : nat) (call : finalizeCall) : Prop :=
  exists c, m !! call_owner call = Some c /\ cl_id c = call_id call /\
    match call_done call with
    | None => open_call c = Some n /\ fin !! call_id call = Some n
    | Some r => cl_state c = Finished n r
    end.

Record coherent (x : shared) : Prop := {
  co_finalizing : map_Forall (fun id n => exists k, calls x !! n = Some (MkCall k id None)) (finalizing x);
  co_calls : map_Forall (call_ok (finalizing x) (callers x)) (calls x);
  co_callers : map_Forall (caller_ok (calls x)) (callers x);
  co_slots : copies x = total slot_of (callers x) /\ (copies x <= maxCopies)%nat;
}.


Lemma caller_ok_open cs k c n : open_call c = Some n -> caller_ok cs k c <-> cs !! n = Some (MkCall k (cl_id c) None).
Proof. unfold open_call, caller_ok. destruct (cl_state c); by intros [= ->]. Qed.

Lemma coherent_world x w : coherent x -> coherent (MkShared w (finalizing x) (calls x) (callers x) (copies x)).
Proof. by intros []. Qed.
Lemma started_coherent w : coherent (started w).
Proof. split; cbn; [apply map_Forall_empty..|]. split; [done|unfold maxCopies; lia]. Qed.

(** The call of a caller that made one. *)
Lemma open_call_kept x k c n : coherent x -> callers x !! k = Some c -> open_call c = Some n ->
  calls x !! n = Some (MkCall k (cl_id c) None) /\ finalizing x !! cl_id c = Some n.
Proof.
  intros [_ H2 H3 _] Hk Hl. pose proof (proj1 (caller_ok_open _ _ _ _ Hl) (H3 _ _ Hk)) as Hn.
  split; [done|]. by destruct (H2 _ _ Hn) as (c0 & _ & _ & _ & ?).
Qed.

(** The owner of a call, when it is not the caller that moves. *)
Lemma call_ok_moved fin m k c c' n call : m !! k = Some c -> call_ok fin m n call ->
  (open_call c = None /\ ~ (exists r, cl_state c = Finished n r)) \/ call_owner call <> k -> call_ok fin (<[k := c']> m) n call.
Proof.
  intros Hk (c0 & Hc0 & Hi & Hrest) Hor. exists c0. rewrite lookup_insert_ne; [done|]. intros E. destruct Hor as [[Ho Hf]|]; [|done].
  rewrite <-E in Hc0. assert (c0 = c) as -> by congruence. destruct (call_done call); [by eauto|]. destruct Hrest; congruence.
Qed.

Lemma coherent_new x w k c : coherent x -> callers x !! k = None -> cl_state c = Checked ->
  coherent (MkShared w (finalizing x) (calls x) (<[k := c]> (callers x)) (copies x)).
Proof.
  intros [H1 H2 H3 [H4 H5]] Hk Hc. split; cbn; [done| | |split; [|done]].
  - intros n call Hn. destruct (H2 _ _ Hn) as (c0 & Hc0 & Hrest). exists c0. split; [|done].
    rewrite lookup_insert_ne; [done|]. intros E. rewrite E in Hk. congruence.
  - apply map_Forall_insert_2; [unfold caller_ok; by rewrite Hc|done].
  - unfold total. rewrite map_fold_insert_L; [|intros; lia|done]. unfold slot_of at 1, has_slot. by rewrite Hc.
Qed.

(** A caller that made no call moves. *)
Definition bystander (c : caller) : Prop := match cl_state c with Checked | Joined _ => True | _ => False end.
Lemma coherent_move x k c st : coherent x -> callers x !! k = Some c -> bystander c ->
  caller_ok (calls x) k (set_state st c) -> has_slot (set_state st c) = false ->
  coherent (move k c st (sh_world x) (copies x) x).
Proof.
  intros [H1 H2 H3 [H4 H5]] Hk Hb Hok Hh. split; cbn; [done| | |split; [|done]].
  - intros n call Hn. apply (call_ok_moved _ _ k c); [done|by apply H2|]. left. unfold open_call, bystander in *.
    destruct (cl_state c); (split; [done|]); by intros [].
  - by apply map_Forall_insert_2.
  - pose proof (total_insert slot_of (callers x) k c (set_state st c) Hk) as Hs.
    assert (slot_of (set_state st c) = 0%nat) by (unfold slot_of; by rewrite Hh).
    assert (slot_of c = 0%nat) by (unfold slot_of, has_slot, bystander in *; by destruct (cl_state c)). lia.
Qed.

(** A caller that made a call moves, and keeps the call open. *)
Lemma coherent_own x k c n st w slots : coherent x -> callers x !! k = Some c -> open_call c = Some n ->
  open_call (set_state st c) = Some n -> (slots + slot_of c = copies x + slot_of (set_state st c))%nat ->
  (slots <= maxCopies)%nat -> coherent (move k c st w slots x).
Proof.
  intros Hx Hk Hc Hc' Hs Hm. destruct (open_call_kept x k c n Hx Hk Hc) as [Hn Hf]. destruct Hx as [H1 H2 H3 [H4 H5]].
  split; cbn; [done| | |split; [|done]].
  - intros m call Hc0. destruct (decide (call_owner call = k)) as [E|Hne]; [|by apply (call_ok_moved _ _ k c); auto].
    destruct (H2 _ _ Hc0) as (c0 & Hl & Hi & Hrest). rewrite E in Hl. assert (c0 = c) as -> by congruence.
    exists (set_state st c). rewrite E, lookup_insert_eq. split_and!; [done|done|].
    destruct (call_done call); [|destruct Hrest; split; congruence].
    exfalso. unfold open_call in Hc. by rewrite Hrest in Hc.
  - apply map_Forall_insert_2; [|done]. by apply (caller_ok_open _ _ _ n).
  - pose proof (total_insert slot_of (callers x) k c (set_state st c) Hk). lia.
Qed.

(** Callers keep their place when a call is made or closed. *)
Lemma caller_ok_made cs n call k c : cs !! n = None -> caller_ok cs k c -> caller_ok (<[n := call]> cs) k c.
Proof.
  intros Hn Hok. unfold caller_ok in *. destruct (cl_state c); try done.
  all: rewrite lookup_insert_ne; [done|]; intros <-; rewrite Hn in Hok; naive_solver.
Qed.
Lemma caller_ok_closed cs n k0 id r k c : cs !! n = Some (MkCall k0 id None) -> k <> k0 ->
  caller_ok cs k c -> caller_ok (<[n := MkCall k0 id (Some r)]> cs) k c.
Proof.
  intros Hn Hk Hok. unfold caller_ok in *. destruct (cl_state c) as [|m|m|m|m q|m|m q|m q|]; try done.
  all: destruct (decide (m = n)) as [->|Hne]; [|by rewrite lookup_insert_ne].
  all: rewrite lookup_insert_eq; rewrite Hn in Hok; naive_solver.
Qed.

Lemma coherent_lead x k c n : coherent x -> callers x !! k = Some c -> cl_state c = Checked ->
  finalizing x !! cl_id c = None -> calls x !! n = None -> coherent (make_call k n c x).
Proof.
  intros [H1 H2 H3 [H4 H5]] Hk Hc Hf Hn. split; cbn.
  - apply map_Forall_insert_2; [exists k; apply lookup_insert_eq|]. intros id m Hm. destruct (H1 _ _ Hm) as [k' Hk'].
    exists k'. rewrite lookup_insert_ne; [done|congruence].
  - apply map_Forall_insert_2; [exists (set_state (Leading n) c); cbn; by rewrite !lookup_insert_eq|].
    intros m call Hm. assert (Ho : call_ok (finalizing x) (<[k := set_state (Leading n) c]> (callers x)) m call).
    { apply (call_ok_moved _ _ k c); [done|by apply H2|]. left. unfold open_call. rewrite Hc. split; [done|]. by intros []. }
    destruct Ho as (c0 & Hc0 & Hi & Hrest). exists c0. split_and!; [done|done|]. destruct (call_done call); [done|].
    destruct Hrest as [Hl Hfin]. split; [done|]. rewrite lookup_insert_ne; [done|congruence].
  - apply map_Forall_insert_2; [unfold caller_ok; cbn; apply lookup_insert_eq|]. intros k' c' Hk'.
    apply caller_ok_made; [done|by apply (H3 k')].
  - pose proof (total_insert slot_of (callers x) k c (set_state (Leading n) c) Hk).
    assert (slot_of c = 0%nat) by (unfold slot_of, has_slot; by rewrite Hc).
    assert (slot_of (set_state (Leading n) c) = 0%nat) by done. split; [lia|done].
Qed.

Lemma coherent_close x k c n r : coherent x -> callers x !! k = Some c -> cl_state c = Returning n r ->
  coherent (close_call k n c r x).
Proof.
  intros Hx Hk Hl. assert (Hoc : open_call c = Some n) by (unfold open_call; by rewrite Hl).
  destruct (open_call_kept x k c n Hx Hk Hoc) as [Hn Hf]. destruct Hx as [H1 H2 H3 [H4 H5]]. split; cbn.
  - intros id m [Hne Hm]%lookup_delete_Some. destruct (H1 _ _ Hm) as [k' Hk']. exists k'. rewrite lookup_insert_ne; [done|].
    intros <-. rewrite Hn in Hk'. by injection Hk' as _ <-.
  - intros m call [[<- <-]|[Hmn Hm]]%lookup_insert_Some; [exists (set_state (Finished n r) c); cbn; by rewrite lookup_insert_eq|].
    assert (Ho : call_ok (finalizing x) (<[k := set_state (Finished n r) c]> (callers x)) m call).
    { apply (call_ok_moved _ _ k c); [done|by apply H2|]. right. intros E. destruct (H2 _ _ Hm) as (c0 & Hc0 & _ & Hrest).
      rewrite E in Hc0. assert (c0 = c) as -> by congruence. destruct (call_done call); [congruence|]. destruct Hrest; congruence. }
    destruct Ho as (c0 & Hc0 & Hi & Hrest). exists c0. split_and!; [done|done|]. destruct (call_done call); [done|].
    destruct Hrest as [Hlead Hfin]. split; [done|]. rewrite lookup_delete_ne; [done|]. intros E. rewrite <-E in Hfin. congruence.
  - intros k' c' [[<- <-]|[Hne Hk']]%lookup_insert_Some; [unfold caller_ok; cbn; apply lookup_insert_eq|].
    apply (caller_ok_closed _ n k (cl_id c)); [done|done|by apply (H3 k')].
  - pose proof (total_insert slot_of (callers x) k c (set_state (Finished n r) c) Hk).
    assert (slot_of c = 0%nat) by (unfold slot_of, has_slot; by rewrite Hl).
    assert (slot_of (set_state (Finished n r) c) = 0%nat) by done. split; [lia|done].
Qed.

(** *** What is left to do for the callers *)
Definition rank (c : caller) : nat :=
  match cl_state c with
  | Checked => 6 | Leading _ => 5 | Copying _ => 4 | Accepting _ => 3 | Returning _ _ => 2 | Joined _ => 1
  | Finished _ _ | Woken _ _ | Cancelled => 0
  end.
Definition work (x : shared) : nat := total rank (callers x).

Lemma total_moved f m k c c' : m !! k = Some c -> (f c' < f c)%nat -> (total f (<[k := c']> m) < total f m)%nat.
Proof. intros Hk Hf. pose proof (total_insert f m k c c' Hk). lia. Qed.

Lemma total_positive f m : (0 < total f m)%nat -> exists k c, m !! k = Some c /\ (0 < f c)%nat.
Proof.
  unfold total. induction m as [|k c m Hk IH] using map_ind; [rewrite map_fold_empty; lia|].
  rewrite map_fold_insert_L; [|intros; lia|done]. intros H. destruct (decide (0 < f c)%nat) as [Hc|Hc].
  - exists k, c. by rewrite lookup_insert_eq.
  - destruct IH as (k' & c' & Hl & Hp); [lia|]. exists k', c'. rewrite lookup_insert_ne; [done|congruence].
Qed.

Section promises.
Context {ENV : Env} {CODEC : EventCodec} {RC : RequestCodec} {DATES : SqliteDate} {BROKER : Broker}.
Context (s : Store) (rs : Options) (ob : outboxEnqueuer) (rp : Reaper).
#[local] Abbreviation Advances := (advances rs).
#[local] Abbreviation Sharing := (sharing s rs ob rp).
#[local] Abbreviation ShareStep := (share_step s rs ob rp).

Lemma slots_bound x k c : coherent x -> callers x !! k = Some c -> (slot_of c <= copies x)%nat.
Proof.
  intros [_ _ _ [-> _]] Hk. pose proof (total_insert slot_of (callers x) k c (set_state Checked c) Hk).
  assert (slot_of (set_state Checked c) = 0%nat) by done. lia.
Qed.

Lemma advances_coherent x evs y : Advances x evs y -> coherent x -> coherent y.
Proof.
  intros H Hx. destruct H as [x k c n Hk Hc Hf Hn|x k c n Hk Hc Hf|x k c n Hk Hc Hs|x k c n obj res w' Hk Hc _ _|x k c n res w' Hk Hc _|x k c n r Hk Hc|x k c n call r Hk Hc Hn Hr].
  - by apply coherent_lead.
  - apply coherent_move; [done|done|unfold bystander; by rewrite Hc| |done].
    destruct (co_finalizing _ Hx _ _ Hf) as [k' Hk']. unfold caller_ok. cbn. eauto.
  - apply (coherent_own x k c n); [done|done|unfold open_call; by rewrite Hc|done| |lia].
    unfold slot_of, has_slot. rewrite Hc. cbn. lia.
  - pose proof (slots_bound x k c Hx Hk) as Hs. destruct (co_slots _ Hx) as [_ Hm].
    unfold slot_of, has_slot in Hs. rewrite Hc in Hs.
    apply (coherent_own x k c n); [done|done|unfold open_call; by rewrite Hc|by destruct res| |lia].
    unfold slot_of, has_slot. rewrite Hc. destruct res; cbn; lia.
  - destruct (co_slots _ Hx) as [_ Hm]. apply (coherent_own x k c n); [done|done|unfold open_call; by rewrite Hc|done| |done].
    unfold slot_of, has_slot. by rewrite Hc.
  - by apply coherent_close.
  - apply coherent_move; [done|done|unfold bystander; by rewrite Hc| |done].
    pose proof (co_callers _ Hx _ _ Hk) as Ho. unfold caller_ok in *. rewrite Hc in Ho. destruct Ho as (k' & d & Ho).
    rewrite Hn in Ho. injection Ho as ->. cbn in *. rewrite Hr in Hn. eauto.
Qed.

Lemma share_step_coherent x evs y : ShareStep x evs y -> coherent x -> coherent y.
Proof.
  intros H Hx. destruct H as [x evs y H|x k id tok at_ i a w' _ Hk _|x id tok at_ i res w' _ _ _|x k c n Hk Hc|x k c n Hk Hc|x o res w' _|x w' _|x].
  - by eapply advances_coherent.
  - by apply coherent_new.
  - by apply coherent_world.
  - destruct (co_slots _ Hx) as [_ Hm]. apply (coherent_own x k c n); [done|done|unfold open_call; by rewrite Hc|done| |done].
    unfold slot_of, has_slot. by rewrite Hc.
  - apply coherent_move; [done|done|unfold bystander; by rewrite Hc|done|done].
  - by apply coherent_world.
  - by apply coherent_world.
  - apply started_coherent.
Qed.
Lemma sharing_coherent x evs y : Sharing x evs y -> coherent x -> coherent y.
Proof. induction 1 as [|x evs y new z _ IH Hs]; [done|]. intros Hx. eapply share_step_coherent; [exact Hs|by apply IH]. Qed.

Lemma callers_run_coherent n x evs y : callers_run rs n x evs y -> coherent x -> coherent y.
Proof. induction 1 as [|n x new y evs z Ha _ IH]; [done|]. intros Hx. by eapply IH, advances_coherent. Qed.

Lemma advances_work x evs y : Advances x evs y -> (work y < work x)%nat.
Proof.
  destruct 1; (eapply total_moved; [done|]); unfold rank; cbn;
    match goal with E : cl_state _ = _ |- _ => rewrite E end; try lia.
  destruct res; cbn; lia.
Qed.
Lemma callers_run_work n x evs y : callers_run rs n x evs y -> (n + work y <= work x)%nat.
Proof. induction 1 as [|n x new y evs z Ha _ IH]; [lia|]. apply advances_work in Ha. lia. Qed.

(** The owner of an open call can move, or another copy ends first. *)
Lemma copy_advances x obj k c n : RequestStore.Objects rs = Some obj ->
  callers x !! k = Some c -> cl_state c = Copying n -> exists evs y, Advances x evs y.
Proof.
  intros Ho Hk Hc. destruct (copyVerified obj (cl_object c) (sh_world x)) as [res w'] eqn:E.
  eexists _, _. by eapply sh_copy.
Qed.
Lemma open_advances x obj k c n : coherent x -> RequestStore.Objects rs = Some obj ->
  callers x !! k = Some c -> open_call c = Some n -> exists evs y, Advances x evs y.
Proof.
  intros Hx Ho Hk Hc. unfold open_call in Hc. destruct (cl_state c) as [|m|m|m|m r|m|m r|m r|] eqn:Hs; try done.
  - destruct (decide (copies x < maxCopies)%nat) as [Hlt|Hge]; [eexists _, _; by eapply sh_slot|].
    destruct (co_slots _ Hx) as [He _]. destruct (total_positive slot_of (callers x)) as (k' & c' & Hk' & Hp); [unfold maxCopies in *; lia|].
    unfold slot_of, has_slot in Hp. destruct (cl_state c') eqn:Hs'; try (cbn in Hp; lia). by eapply copy_advances.
  - by eapply copy_advances.
  - destruct (acceptAttempt rs (cl_id c) (cl_token c) (cl_attempt c) (cl_object c) (cl_input c) (sh_world x)) as [res w'] eqn:E.
    eexists _, _. by eapply sh_accept.
  - eexists _, _. by eapply sh_close.
Qed.

Lemma waiting_advances x obj k c : coherent x -> RequestStore.Objects rs = Some obj ->
  callers x !! k = Some c -> ~ returned c -> exists evs y, Advances x evs y.
Proof.
  intros Hx Ho Hk Hr. destruct (open_call c) as [n|] eqn:Hc; [by eapply open_advances|].
  pose proof (co_callers _ Hx _ _ Hk) as Hok.
  unfold open_call, returned, caller_ok in *. destruct (cl_state c) as [|m|m|m|m r|m|m r|m r|] eqn:Hs; try done.
  - destruct (finalizing x !! cl_id c) as [n|] eqn:Hf; [eexists _, _; by eapply sh_join|].
    eexists _, _. eapply (sh_lead _ x k c (fresh (dom (calls x)))); [done..|]. apply not_elem_of_dom, is_fresh.
  - destruct Hok as (k' & [r|] & Hn); [eexists _, _; by eapply sh_wake|].
    destruct (co_calls _ Hx _ _ Hn) as (c' & Hk' & _ & Ho' & _). by eapply open_advances.
Qed.

Lemma returned_dec c : {returned c} + {~ returned c}.
Proof. unfold returned. destruct (cl_state c); (by left) || (by right; tauto). Defined.
#[local] Instance returned_decision c : Decision (returned c) := returned_dec c.

Lemma callers_run_out x obj : coherent x -> RequestStore.Objects rs = Some obj ->
  exists n evs y, callers_run rs n x evs y /\ map_Forall (fun _ c => returned c) (callers y).
Proof.
  intros Hx Ho. remember (work x) as m eqn:E. revert x E Hx. induction (lt_wf m) as [m _ IH]; intros x -> Hx.
  destruct (decide (map_Forall (fun _ c => returned c) (callers x))) as [Hd|Hd]; [exists 0%nat, [], x; split; [constructor|done]|].
  apply map_not_Forall in Hd as (k & c & Hk & Hr); [|apply _]. destruct (waiting_advances x obj k c Hx Ho Hk Hr) as (new & y & Ha).
  destruct (IH (work y) (advances_work _ _ _ Ha) y eq_refl (advances_coherent _ _ _ Ha Hx)) as (n & evs & z & Hrun & Hz).
  exists (S n), (new ++ evs), z. split; [by econstructor|done].
Qed.

(** *** Histories *)
(** The entries of [copying] the callers stand on. *)
Definition sourced (copied : list (string * objectAttempt * AttemptInput * bool)) (x : shared) : Prop :=
  forall k c, callers x !! k = Some c ->
    validateAttempt (cl_input c) = Ok (cl_attempt c) /\ (cl_id c, cl_object c, cl_input c, false) ∈ copied /\
    (forall n, cl_state c = Accepting n -> (cl_id c, cl_object c, cl_input c, true) ∈ copied).

Lemma sourced_callers copied copied' x m : sourced copied x -> (forall e, e ∈ copied -> e ∈ copied') ->
  (forall k c, m !! k = Some c -> callers x !! k = Some c \/
     exists c0, callers x !! k = Some c0 /\ c = set_state (cl_state c) c0 /\
       (forall n, cl_state c = Accepting n -> (cl_id c, cl_object c, cl_input c, true) ∈ copied')) ->
  forall w f cs slots, sourced copied' (MkShared w f cs m slots).
Proof.
  intros Hx Hc Hm w f cs slots k c Hk. cbn in Hk. destruct (Hm k c Hk) as [Hold|(c0 & Hold & -> & Ha)].
  - destruct (Hx k c Hold) as (Hv & Hi & Ht). split_and!; [done|by apply Hc|]. intros n E. by eapply Hc, Ht.
  - destruct (Hx k c0 Hold) as (Hv & Hi & _). split_and!; [done|by apply Hc|done].
Qed.
Lemma sourced_moved copied copied' x k c st : sourced copied x -> (forall e, e ∈ copied -> e ∈ copied') ->
  callers x !! k = Some c -> (forall n, st = Accepting n -> (cl_id c, cl_object c, cl_input c, true) ∈ copied') ->
  forall w f cs slots, sourced copied' (MkShared w f cs (<[k := set_state st c]> (callers x)) slots).
Proof.
  intros Hx Hc Hk Hst. apply (sourced_callers copied copied' x); [done|done|].
  intros k' c' [[<- <-]|[_ Hk']]%lookup_insert_Some; [right; by exists c|by left].
Qed.

Lemma advances_history x evs y copied : Advances x evs y -> sourced copied x ->
  exists copied', step s rs ob rp (MkSys (sh_world x) copied) evs (MkSys (sh_world y) copied') /\ sourced copied' y.
Proof.
  intros H Hx. destruct H as [x k c n Hk Hc Hf Hn|x k c n Hk Hc Hf|x k c n Hk Hc Hs|x k c n obj res w' Hk Hc Ho Ec|x k c n res w' Hk Hc Ea|x k c n r Hk Hc|x k c n call r Hk Hc Hn Hr].
  4:{ destruct (Hx k c Hk) as (_ & Hi & _). eexists. split; [by eapply step_finalize_copy|].
      apply (sourced_moved copied); [done| |done|]; destruct res as [u|e]; try done; [intros e He; by right|intros m _; by left]. }
  4:{ destruct (Hx k c Hk) as (Hv & _ & Ht). eexists. split; [by eapply step_finalize_accept; [|by eapply Ht|]|].
      by apply (sourced_moved copied). }
  all: exists copied; (split; [by apply step_idle|by apply (sourced_moved copied)]).
Qed.

Lemma share_step_history x evs y copied : ShareStep x evs y -> sourced copied x ->
  exists copied', step s rs ob rp (MkSys (sh_world x) copied) evs (MkSys (sh_world y) copied') /\ sourced copied' y.
Proof.
  intros H Hx. destruct H as [x evs y H|x k id tok at_ i a w' Hv Hk Ef|x id tok at_ i res w' Hv Ef Hno|x k c n Hk Hc|x k c n Hk Hc|x o res w' Eo|x w' Hi|x].
  - by apply advances_history.
  - eexists. split; [exact (step_finalize_first s rs ob rp id tok at_ i _ copied _ w' Hv Ef)|].
    intros k' c Hk'. cbn in Hk'. apply lookup_insert_Some in Hk' as [[<- <-]|[_ Hk']]; [split_and!; [done|left|done]|].
    destruct (Hx k' c Hk') as (? & ? & Ht). split_and!; [done|by right|]. intros n E. right. by eapply Ht.
  - exists copied. split; [|exact Hx]. pose proof (step_finalize_first s rs ob rp id tok at_ i _ copied _ w' Hv Ef) as S.
    destruct res as [[rc|a]|e]; [exact S|by destruct (Hno a)|exact S].
  - exists copied. split; [by apply step_idle|by apply (sourced_moved copied)].
  - exists copied. split; [by apply step_idle|by apply (sourced_moved copied)].
  - exists copied. split; [by eapply step_op|exact Hx].
  - exists copied. split; [by apply step_idle|exact Hx].
  - exists []. split; [apply step_restart|]. by intros k c Hk.
Qed.

(** Finalizes that run concurrently and share their copies are a history
    of the transactions: whatever the interleaving of callers that lead, join,
    wait for a slot, copy, accept, give up and wake, with every other operation
    of the process between them, the database goes through steps of
    Lifecycle.v, so that every promise proved there holds of it. *)
Theorem shared_finalizes_refine_history w evs x :
  sharing s rs ob rp (started w) evs x ->
  exists copied, history s rs ob rp (MkSys w []) evs (MkSys (sh_world x) copied).
Proof.
  intros H. cut (exists copied, history s rs ob rp (MkSys w []) evs (MkSys (sh_world x) copied) /\ sourced copied x).
  { intros (copied & Hh & _). by exists copied. }
  remember (started w) as x0 eqn:E. induction H as [x|x evs y new z _ IH Hs]; subst x.
  - exists []. split; [constructor|]. by intros k c Hk.
  - destruct (IH eq_refl) as (copied & Hh & Hy). destruct (share_step_history _ _ _ _ Hs Hy) as (copied' & Hst & Hz).
    exists copied'. split; [by eapply history_snoc|done].
Qed.

(** A caller that has a receipt accepted its attempt. *)
Definition receipts_earned (evs : list event) (x : shared) : Prop :=
  forall k c n rc, callers x !! k = Some c -> cl_state c = Returning n (Ok rc) \/ cl_state c = Finished n (Ok rc) ->
    RequestAccepted (cl_id c) (cl_attempt c) ∈ evs.

Lemma earned_moved evs new x k c st w f cs slots : receipts_earned evs x -> callers x !! k = Some c ->
  (forall n rc, st = Returning n (Ok rc) \/ st = Finished n (Ok rc) -> RequestAccepted (cl_id c) (cl_attempt c) ∈ evs ++ new) ->
  receipts_earned (evs ++ new) (MkShared w f cs (<[k := set_state st c]> (callers x)) slots).
Proof.
  intros Hx Hk Hst k' c' n rc Hk' Hr. cbn in Hk'. apply lookup_insert_Some in Hk' as [[<- <-]|[_ Hk']]; [by eapply Hst|].
  apply elem_of_app. left. by eapply Hx.
Qed.
Lemma earned_same evs new x w f cs slots : receipts_earned evs x ->
  receipts_earned (evs ++ new) (MkShared w f cs (callers x) slots).
Proof. intros Hx k c n rc Hk Hr. apply elem_of_app. left. by eapply Hx. Qed.

Lemma share_step_earned evs x new y : ShareStep x new y -> receipts_earned evs x -> receipts_earned (evs ++ new) y.
Proof.
  intros H Hx. destruct H as [x new y H|x k id tok at_ i a w' Hv Hk Ef|x id tok at_ i res w' Hv Ef Hno|x k c n Hk Hc|x k c n Hk Hc|x o res w' Eo|x w' Hi|x].
  - destruct H as [x k c n Hk Hc Hf Hn|x k c n Hk Hc Hf|x k c n Hk Hc Hs|x k c n obj res w' Hk Hc Ho Ec|x k c n res w' Hk Hc Ea|x k c n r Hk Hc|x k c n call r Hk Hc Hn Hr];
      (apply earned_moved; [done|done|]).
    all: try (by intros m rc [E|E]).
    + intros m rc. by destruct res; intros [E|E].
    + intros m rc [[= _ ->]|E]; [|done]. apply elem_of_app. right. left.
    + intros m rc [E|[= _ ->]]; [done|]. apply elem_of_app. left. by eapply Hx; [|left].
  - intros k' c n rc Hk' Hr. cbn in Hk'. apply lookup_insert_Some in Hk' as [[<- <-]|[_ Hk']]; [by destruct Hr|].
    apply elem_of_app. left. by eapply Hx.
  - by apply earned_same.
  - apply earned_moved; [done|done|]. by intros m rc [E|E].
  - apply earned_moved; [done|done|]. by intros m rc [E|E].
  - by apply earned_same.
  - by apply earned_same.
  - by intros k c n rc Hk.
Qed.

(** C6: concurrent finalizes of a request make one copy, at most two copies
    run at a time, and a joined call gets the result of the one call it
    joined.  In every interleaving: two callers whose calls are open have
    different requests; the slots taken are those of the callers that copy, and
    never more than [maxCopies]; a caller that was woken returns what the
    caller it joined returned, for the same request; and a receipt is returned
    only when the submission of the caller that made the call was accepted. *)
Theorem finalize_copies_shared w evs x :
  sharing s rs ob rp (started w) evs x ->
  (forall k1 c1 n1 k2 c2 n2, callers x !! k1 = Some c1 -> callers x !! k2 = Some c2 ->
     open_call c1 = Some n1 -> open_call c2 = Some n2 -> cl_id c1 = cl_id c2 -> k1 = k2) /\
  copies x = total slot_of (callers x) /\ (copies x <= maxCopies)%nat /\
  (forall k c n r, callers x !! k = Some c -> cl_state c = Woken n r ->
     exists k' c', callers x !! k' = Some c' /\ cl_id c' = cl_id c /\ cl_state c' = Finished n r /\
       (forall rc, r = Ok rc -> RequestAccepted (cl_id c) (cl_attempt c') ∈ evs)).
Proof.
  intros H. pose proof (sharing_coherent _ _ _ H (started_coherent w)) as Hx. split_and!; [| |by apply co_slots|].
  - intros k1 c1 n1 k2 c2 n2 H1 H2 O1 O2 E. destruct (open_call_kept x k1 c1 n1 Hx H1 O1) as [L1 F1].
    destruct (open_call_kept x k2 c2 n2 Hx H2 O2) as [L2 F2]. rewrite E in F1. congruence.
  - by apply co_slots.
  - assert (Hr : receipts_earned evs x).
    { clear Hx. remember (started w) as x0 eqn:E. induction H as [x|x evs y new z _ IH Hs]; subst x; [by intros k c n rc Hk|].
      by eapply share_step_earned; [|apply IH]. }
    intros k c n r Hk Hc. pose proof (co_callers _ Hx _ _ Hk) as Ho. unfold caller_ok in Ho. rewrite Hc in Ho. destruct Ho as [k' Hn].
    destruct (co_calls _ Hx _ _ Hn) as (c' & Hk' & Hi & Hf). cbn in *. exists k', c'. split_and!; [done|done|done|].
    intros rc ->. rewrite <-Hi. eapply Hr; [done|by right].
Qed.

(** C29: every finalize is answered.  From every state of the memory that the
    process reaches, the callers can run until each of them has returned, with
    no context ending and no new call made; and no run of theirs is longer
    than the work left, so that none of them waits for a slot or for another
    call forever. *)
Theorem finalizes_all_return w evs x obj :
  sharing s rs ob rp (started w) evs x -> RequestStore.Objects rs = Some obj ->
  (exists n evs' y, callers_run rs n x evs' y /\ map_Forall (fun _ c => returned c) (callers y)) /\
  (forall n evs' y, callers_run rs n x evs' y -> (n <= work x)%nat /\
     (map_Forall (fun _ c => returned c) (callers y) \/ exists new z, advances rs y new z)).
Proof.
  intros H Ho. pose proof (sharing_coherent _ _ _ H (started_coherent w)) as Hx. split; [by eapply callers_run_out|].
  intros n evs' y Hr. split; [apply callers_run_work in Hr; lia|]. apply callers_run_coherent in Hr; [|done].
  destruct (callers_run_out y obj Hr Ho) as (m & e & z & Hz & Hret). destruct Hz as [y|m y new y' e z Ha _]; [by left|right; eauto].
Qed.
End promises.
