(* ===== verification/SchemaProofs.v ===== *)
(** * The schema holds in every history

    [well_formed] is what the tables of Schema.v promise: every row passes its
    CHECK, a payload belongs to a row, no two requests share a bucket key, no
    two claims share a job.  The statements are lifted to the operations by
    the walk of World.v, and from there to histories. *)

From S2P Require Import Prelude World GoTime Codec Schema AgeFormat Outbox ObjectStorage RequestStore RequestCleanup RequestFrames RequestProofs SecretStore SecretProofs SecretUploads Reaper ReaperProofs Lifecycle.

(** The keys of two rows differ, where they have any. *)
Definition keys_apart (m : gmap string request_row) : Prop :=
  forall id1 r1 id2 r2, m !! id1 = Some r1 -> m !! id2 = Some r2 -> id1 <> id2 ->
    (r_upload_key r1 = None \/ r_upload_key r2 <> r_upload_key r1) /\
    (r_final_key r1 = None \/ r_final_key r2 <> r_final_key r1).
Definition jobs_apart (m : gmap string string) : Prop :=
  forall k1 k2 j, m !! k1 = Some j -> m !! k2 = Some j -> k1 = k2.

Record well_formed (d : ApiDB) : Prop := {
  wf_secrets : map_Forall (fun _ r => secret_check r = true) (t_secrets d);
  wf_management : map_Forall (fun _ r => management_check r = true) (t_management d);
  wf_requests : map_Forall (fun _ r => request_check r = true) (t_requests d);
  wf_outbox : map_Forall (fun _ r => outbox_check r = true) (t_outbox d);
  wf_payloads : forall id, is_Some (t_payloads d !! id) -> is_Some (t_secrets d !! id);
  wf_request_payloads : forall id, is_Some (t_request_payloads d !! id) -> is_Some (t_requests d !! id);
  wf_keys : keys_apart (t_requests d);
  wf_pending : jobs_apart (t_pending d);
  wf_request_pending : jobs_apart (t_request_pending d);
}.

Lemma empty_well_formed : well_formed empty_db.
Proof.
  split; try apply map_Forall_empty; unfold keys_apart, jobs_apart; cbn; intros;
    repeat match goal with H : is_Some (_ !! _) |- _ => destruct H end; by rewrite lookup_empty in *.
Qed.

(** A statement keeps the schema. *)
Definition keeps_schema : relation ApiDB := keeps well_formed.
#[export] Instance keeps_schema_preorder : PreOrder keeps_schema.
Proof. split; [by intros d|]. intros d1 d2 d3 H12 H23 H. by apply H23, H12. Qed.

(** ** Tables *)
Section table.
Context {A : Type} (check : A -> bool).
Implicit Types m : gmap string A.
Lemma ins_rows k r m m' : ins check k r m = Some m' ->
  map_Forall (fun _ r => check r = true) m -> map_Forall (fun _ r => check r = true) m'.
Proof. intros (_ & Hc & ->)%ins_Some Hm. by apply map_Forall_insert_2. Qed.
Lemma upd_rows k P f m n m' : upd check k P f m = Some (n, m') ->
  map_Forall (fun _ r => check r = true) m -> map_Forall (fun _ r => check r = true) m'.
Proof. intros [(_ & -> & _)|(r & _ & _ & _ & Hc & ->)]%upd_Some Hm; [done|]. by apply map_Forall_insert_2. Qed.
Lemma upd_dom k P f m n m' id : upd check k P f m = Some (n, m') -> is_Some (m' !! id) <-> is_Some (m !! id).
Proof.
  intros [(_ & -> & _)|(r & _ & Hr & _ & _ & ->)]%upd_Some; [done|]. rewrite lookup_insert_is_Some.
  destruct (decide (k = id)) as [->|Hne]; [rewrite Hr; naive_solver|naive_solver].
Qed.
End table.

Lemma is_some_Some {A} (o : option A) : is_some o = true <-> is_Some o.
Proof. destruct o; cbn; split; [by eauto|done|done|by intros []]. Qed.

Lemma claim_jobs_apart key job m n m' : claim key job m = (n, m') -> jobs_apart m -> jobs_apart m'.
Proof.
  unfold claim. destruct (is_some (m !! key)) eqn:E; cbn; [by intros [= _ <-]|].
  case_bool_decide as Hj; [by intros [= _ <-]|]. intros [= _ <-] Hm k1 k2 j H1 H2.
  apply lookup_insert_Some in H1 as [[<- <-]|[Hn1 H1]]; apply lookup_insert_Some in H2 as [[<- ?]|[Hn2 H2]]; try done.
  - destruct Hj. by exists k2, job.
  - subst j. destruct Hj. by exists k1, job.
  - by eapply Hm.
Qed.
Lemma release_jobs_apart key job m : jobs_apart m -> jobs_apart (release key job m).
Proof.
  intros Hm. unfold release. case_bool_decide; [|done]. intros k1 k2 j [_ H1]%lookup_delete_Some [_ H2]%lookup_delete_Some.
  by eapply Hm.
Qed.

Lemma keys_unique_apart id r m : keys_unique id r m = true -> keys_apart m -> keys_apart (<[id := r]> m).
Proof.
  intros Hu%bool_decide_eq_true Hm id1 r1 id2 r2 H1 H2 Hne.
  apply lookup_insert_Some in H1 as [[<- <-]|[Hn1 H1]]; apply lookup_insert_Some in H2 as [[<- <-]|[Hn2 H2]]; try done.
  - destruct (Hu _ _ H2) as [->|H]; [done|exact H].
  - destruct (Hu _ _ H1) as [->|[Ha Hb]]; [done|]. split.
    + destruct (r_upload_key r1) eqn:E; [|by left]. right. intros E2. destruct Ha as [Ha|Ha]; congruence.
    + destruct (r_final_key r1) eqn:E; [|by left]. right. intros E2. destruct Hb as [Hb|Hb]; congruence.
  - by eapply Hm.
Qed.

(** ** Statements *)
Section statements.
Context {ENV : Env} {CODEC : EventCodec}.

Lemma ks_sql {A} msg (f : ApiDB -> option (A * ApiDB)) :
  (forall d a d', f d = Some (a, d') -> well_formed d -> well_formed d') -> respects (on_db keeps_schema) (sql msg f).
Proof. intros Hf. apply respects_sql; [apply _|]. intros d a d' E H. by eapply Hf. Qed.

Lemma ks_insert_secret msg id r : respects (on_db keeps_schema) (sql msg (insert_secret id r)).
Proof.
  apply ks_sql. intros d u d'. unfold insert_secret. destruct (ins _ _ _ _) as [m|] eqn:E; [|done]. intros [= _ <-] [].
  split; try done; cbn; [by eapply ins_rows|]. intros id' Hp. apply ins_Some in E as (_ & _ & ->).
  apply lookup_insert_is_Some. destruct (decide (id = id')); [by left|right; split; [done|auto]].
Qed.
Lemma ks_insert_payload msg id r : respects (on_db keeps_schema) (sql msg (insert_payload id r)).
Proof.
  apply ks_sql. intros d u d'. unfold insert_payload. destruct (is_some _) eqn:Hs; [|done].
  destruct (ins _ _ _ _) as [m|] eqn:E; [|done]. intros [= _ <-] []. split; try done. cbn. intros id' Hp.
  apply ins_Some in E as (_ & _ & ->). apply lookup_insert_is_Some in Hp as [<-|[_ Hp]]; [by apply is_some_Some|auto].
Qed.
Lemma ks_insert_management msg id r : respects (on_db keeps_schema) (sql msg (insert_management id r)).
Proof.
  apply ks_sql. intros d u d'. unfold insert_management. destruct (ins _ _ _ _) as [m|] eqn:E; [|done]. intros [= _ <-] [].
  split; try done. by eapply ins_rows.
Qed.
Lemma ks_update_secret msg id P f : respects (on_db keeps_schema) (sql msg (update_secret id P f)).
Proof.
  apply ks_sql. intros d n d'. unfold update_secret. destruct (upd _ _ _ _ _) as [[n' m]|] eqn:E; [|done]. intros [= _ <-] [].
  split; try done; cbn; [by eapply upd_rows|]. intros id' Hp. eapply upd_dom; [exact E|auto].
Qed.
Lemma ks_update_management msg id P f : respects (on_db keeps_schema) (sql msg (update_management id P f)).
Proof.
  apply ks_sql. intros d n d'. unfold update_management. destruct (upd _ _ _ _ _) as [[n' m]|] eqn:E; [|done]. intros [= _ <-] [].
  split; try done. by eapply upd_rows.
Qed.
Lemma ks_delete_payload msg id : respects (on_db keeps_schema) (sql msg (delete_payload id)).
Proof.
  apply ks_sql. intros d n d' [= _ <-] []. split; try done. cbn. intros id' [x [_ Hx]%lookup_delete_Some]. eauto.
Qed.
Lemma ks_delete_secret msg id P : respects (on_db keeps_schema) (sql msg (delete_secret id P)).
Proof.
  apply ks_sql. intros d n d' [(_ & ->)|(r & _ & _ & _ & ->)]%delete_secret_Some H; [done|]. destruct H. split; try done; cbn.
  - by apply map_Forall_delete.
  - intros id' [x [Hne Hx]%lookup_delete_Some]. rewrite lookup_delete_ne by done. eauto.
Qed.
Lemma ks_insert_request msg id r : respects (on_db keeps_schema) (sql msg (insert_request id r)).
Proof.
  apply ks_sql. intros d u d'. unfold insert_request. destruct (keys_unique _ _ _) eqn:Hu; [|done].
  destruct (ins _ _ _ _) as [m|] eqn:E; [|done]. intros [= _ <-] []. split; try done; cbn; [by eapply ins_rows| |].
  - intros id' Hp. apply ins_Some in E as (_ & _ & ->). apply lookup_insert_is_Some.
    destruct (decide (id = id')); [by left|right; split; [done|auto]].
  - apply ins_Some in E as (_ & _ & ->). by apply keys_unique_apart.
Qed.
Lemma ks_update_request msg id P f : respects (on_db keeps_schema) (sql msg (update_request id P f)).
Proof.
  apply ks_sql. intros d n d' [(_ & -> & _)|(r & _ & Hr & _ & Hc & Hu & ->)]%update_request_Some H; [done|]. destruct H.
  split; try done; cbn; [by apply map_Forall_insert_2| |by apply keys_unique_apart].
  intros id' Hp. apply lookup_insert_is_Some. destruct (decide (id = id')); [by left|right; split; [done|auto]].
Qed.
Lemma ks_insert_request_payload msg id c : respects (on_db keeps_schema) (sql msg (insert_request_payload id c)).
Proof.
  apply ks_sql. intros d u d'. unfold insert_request_payload. destruct (is_some _) eqn:Hs; [|done].
  destruct (ins _ _ _ _) as [m|] eqn:E; [|done]. intros [= _ <-] []. split; try done. cbn. intros id' Hp.
  apply ins_Some in E as (_ & _ & ->). apply lookup_insert_is_Some in Hp as [<-|[_ Hp]]; [by apply is_some_Some|auto].
Qed.
Lemma ks_delete_request_payload msg id : respects (on_db keeps_schema) (sql msg (delete_request_payload id)).
Proof.
  apply ks_sql. intros d n d' [= _ <-] []. split; try done. cbn. intros id' [x [_ Hx]%lookup_delete_Some]. eauto.
Qed.
Lemma ks_delete_request msg id : respects (on_db keeps_schema) (sql msg (delete_request id)).
Proof.
  apply ks_sql. intros d n d' [= _ <-] []. split; try done; cbn.
  - by apply map_Forall_delete.
  - intros id' [x [Hne Hx]%lookup_delete_Some]. rewrite lookup_delete_ne by done. eauto.
  - intros id1 r1 id2 r2 [_ H1]%lookup_delete_Some [_ H2]%lookup_delete_Some. by eapply wf_keys0.
Qed.
Lemma ks_cursor msg t g : respects (on_db keeps_schema) (sql msg (update_cursor t g)).
Proof. apply ks_sql. intros d n d'. unfold update_cursor. destruct (advance _ _ _). by intros [= _ <-] []. Qed.
Lemma ks_request_cursor msg t g : respects (on_db keeps_schema) (sql msg (update_request_cursor t g)).
Proof. apply ks_sql. intros d n d'. unfold update_request_cursor. destruct (advance _ _ _). by intros [= _ <-] []. Qed.
Lemma ks_claim msg k j : respects (on_db keeps_schema) (sql msg (claim_pending k j)).
Proof.
  apply ks_sql. intros d n d'. unfold claim_pending. destruct (claim _ _ _) as [n' m] eqn:E. intros [= _ <-] []. split; try done.
  by eapply claim_jobs_apart.
Qed.
Lemma ks_request_claim msg k j : respects (on_db keeps_schema) (sql msg (claim_request_pending k j)).
Proof.
  apply ks_sql. intros d n d'. unfold claim_request_pending. destruct (claim _ _ _) as [n' m] eqn:E. intros [= _ <-] []. split; try done.
  by eapply claim_jobs_apart.
Qed.
Lemma ks_release msg k j : respects (on_db keeps_schema) (sql msg (release_pending k j)).
Proof. apply ks_sql. intros d n d' [= _ <-] []. split; try done. by apply release_jobs_apart. Qed.
Lemma ks_request_release msg k j : respects (on_db keeps_schema) (sql msg (release_request_pending k j)).
Proof. apply ks_sql. intros d n d' [= _ <-] []. split; try done. by apply release_jobs_apart. Qed.

Lemma ks_enq o ev : OutboxSpec o -> respects (on_db keeps_schema) (enq o ev).
Proof.
  intros Ho. apply respects_enq; [apply _..|]. intros d d' (row & (_ & Ha & _) & _ & ->) []. split; try done. cbn.
  apply map_Forall_insert_2; [|done]. unfold outbox_check. by rewrite Ha.
Qed.
Lemma ks_marks id f w w' : marks id f w w' -> (forall r, outbox_check r = true -> outbox_check (f r) = true) ->
  keeps_schema (db w) (db w').
Proof.
  intros [_ [->|(r & Hr & _ & ->)]] Hf; [reflexivity|]. intros []. split; try done. cbn.
  apply map_Forall_insert_2; [|done]. apply Hf. by apply (wf_outbox0 id).
Qed.

(** *** The reaper's statements *)
Context {DATES : SqliteDate}.

Lemma reclaimed_rows t (l : list (string * secret_row)) (m : gmap string secret_row) :
  (forall id r, (id, r) ∈ l -> secret_check r = true) -> map_Forall (fun _ r => secret_check r = true) m ->
  map_Forall (fun _ r => secret_check r = true) (foldr (fun p m => <[p.1 := reclaimed t p.2]> m) m l).
Proof.
  induction l as [|[id r] l IH]; intros Hl Hm; [done|]. apply map_Forall_insert_2; cbn.
  - apply (Hl id r). left.
  - apply IH; [|done]. intros id' r' Hin. apply (Hl id' r'). by right.
Qed.
Lemma reclaimed_dom t (l : list (string * secret_row)) (m : gmap string secret_row) id :
  is_Some (m !! id) -> is_Some (foldr (fun p m => <[p.1 := reclaimed t p.2]> m) m l !! id).
Proof.
  induction l as [|[id' r] l IH]; intros Hm; [done|]. cbn. apply lookup_insert_is_Some.
  destruct (decide (id' = id)); [by left|right; auto].
Qed.

Lemma ks_reclaimable msg rp t c : respects (on_db keeps_schema) (sql msg (claimReclaimable rp t c)).
Proof.
  apply ks_sql. intros d n d' [= _ <-] []. split; try done; cbn.
  - apply reclaimed_rows; [|done]. intros id r [Hr _]%select_elem. by apply (wf_secrets0 id).
  - intros id Hp. apply reclaimed_dom. auto.
Qed.
Lemma ks_purge_consumed msg f : respects (on_db keeps_schema) (sql msg (fun d => Some (tt, delete_consumed_in (f d) d))).
Proof.
  apply ks_sql. intros d n d' [= _ <-] []. unfold delete_consumed_in. split; try done; cbn.
  - intros id r [Hr _]%lookup_difference_Some. by apply (wf_secrets0 id).
  - intros id [x [Hx Hn]%lookup_difference_Some]. destruct (wf_payloads0 id) as [r Hr]; [by eexists|].
    exists r. apply lookup_difference_Some. split; [done|]. rewrite lookup_fmap in Hn. by destruct (filter _ _ !! id).
Qed.
Lemma ks_purge_management msg f : respects (on_db keeps_schema) (sql msg (fun d => Some (tt, delete_management_in (f d) d))).
Proof. apply ks_sql. intros d n d' [= _ <-] []. split; try done. intros id r [Hr _]%map_lookup_filter_Some. by apply (wf_management0 id). Qed.
End statements.
#[export] Hint Resolve ks_insert_secret ks_insert_payload ks_insert_management ks_update_secret ks_update_management
  ks_delete_payload ks_delete_secret ks_insert_request ks_update_request ks_insert_request_payload
  ks_delete_request_payload ks_delete_request ks_cursor ks_request_cursor ks_claim ks_request_claim ks_release
  ks_request_release ks_enq ks_reclaimable ks_purge_consumed ks_purge_management : flick.

(** ** Operations *)
Section operations.
Context {ENV : Env} {CODEC : EventCodec} {RC : RequestCodec} {DATES : SqliteDate} {BROKER : Broker}.
Context (s : Store) (rs : Options) (ob : outboxEnqueuer) (rp : Reaper).
Context `{!StoreSpec s} `{!OptionsSpec rs} `{!OutboxSpec ob} (Hrp : OutboxSpec (reaper_outbox rp)).
#[local] Hint Resolve store_objects store_outbox options_outbox_ok options_objects options_outbox
  authorized_reads commit_check_reads objectAttemptTx_reads : flick.

Abbreviation kept m := (respects (on_db keeps_schema) m).

Lemma ks_enqueueObjectTx o k r t : OutboxOk o -> kept (enqueueObjectTx o k r t).
Proof. intros Ho. unfold enqueueObjectTx, rthrow. destruct o as [o|]; [pose proof (Ho o eq_refl)|]; solve_respects. Qed.
#[local] Hint Resolve ks_enqueueObjectTx : flick.
Lemma ks_enqueueRequestKeysTx o id r t : OutboxOk o -> kept (enqueueRequestKeysTx o id r t).
Proof. intros Ho. unfold enqueueRequestKeysTx, enqueue_key. solve_respects. Qed.
#[local] Hint Resolve ks_enqueueRequestKeysTx : flick.
Lemma ks_endReservationTx o id g t : OutboxOk o -> kept (endReservationTx o id g t).
Proof. intros Ho. unfold endReservationTx, requireTransition. solve_respects. Qed.
#[local] Hint Resolve ks_endReservationTx : flick.
Lemma ks_PurgeExpiredTx t n o : OutboxOk o -> kept (PurgeExpiredTx t n o).
Proof.
  intros Ho. assert (forall l, kept (end_reservations o t l)) by (induction l as [|[id r] l IH]; cbn [end_reservations]; solve_respects).
  assert (forall l, kept (delete_requests o t l)) by (induction l as [|[id r] l IH]; cbn [delete_requests]; solve_respects).
  unfold PurgeExpiredTx. solve_respects.
Qed.

Lemma ks_begin {A} id tok o (body : reqrecord -> M ApiDB (txout A)) :
  (forall r, kept (body r)) -> kept (begin rs id tok o body).
Proof.
  intros Hb. assert (Hp : forall h, kept (begin_pass rs id h o body)) by (intros h; unfold begin_pass; solve_respects).
  unfold begin, rthrow. destruct (tokenHash tok); [|solve_respects].
  apply respects_bind; [apply _|done|]. intros [x|]; [solve_respects|].
  apply respects_bind; [apply _|done|]. intros [x|]; solve_respects.
Qed.
Ltac ks :=
  repeat first [ progress intros | solve [eauto 4 with flick typeclass_instances] | apply ks_begin; intros | respects_step ].

Lemma ks_finalizeFirst id tok at_ i : kept (finalizeFirst rs id tok at_ i).
Proof. unfold finalizeFirst. ks. Qed.
Lemma ks_acceptAttempt id tok at_ a i : kept (acceptAttempt rs id tok at_ a i).
Proof. unfold acceptAttempt, requireTransition. ks. Qed.
Lemma ks_clearPayloadTx id p st r : kept (clearPayloadTx rs id p st r).
Proof. unfold clearPayloadTx, requireTransition. ks. Qed.
#[local] Hint Resolve ks_clearPayloadTx : flick.

Lemma ks_claimExpired : kept (claimExpired rp).
Proof.
  assert (OutboxOk (Some (reaper_outbox rp))) by (by intros o [= <-]). pose proof ks_PurgeExpiredTx.
  assert (forall l t, kept (reclaim_all rp l t)).
  { induction l as [|c l IH]; intros t; cbn [reclaim_all];
      unfold reclaimRow, recordManagementOutcomeTx, ReclaimTx; ks. }
  unfold claimExpired, claimTx, purgeManagementTx. ks.
Qed.

Lemma exec_schema o : kept (exec s rs ob rp o).
Proof.
  assert (forall t l n, kept (Reaper.reconcile_keys rp t l n))
    by (intros t l; induction l as [|k l IH]; intros n; cbn [Reaper.reconcile_keys]; ks).
  assert (forall t l n, kept (RequestCleanup.reconcile_keys rs t l n))
    by (intros t l; induction l as [|k l IH]; intros n; cbn [RequestCleanup.reconcile_keys]; unfold rthrow; ks).
  pose proof ks_claimExpired.
  destruct o; apply tag_respects; try apply _.
  - unfold Create, generateID, createManagementTx. ks.
  - unfold CreateLarge, generateID, createManagementTx. ks.
  - unfold Finalize, activateSecretTx. ks.
  - unfold openAndEnqueueCleanup, OpenTx, load, openBody, recordFailedAccessTx, recordManagementOutcomeTx. ks.
  - unfold enqueueOpenedObjectCleanup. ks.
  - unfold Cleanup. ks.
  - unfold Revoke, revokeTx, management, recordManagementOutcomeTx. ks.
  - ks.
  - unfold Reaper.reconcilePage. ks.
  - ks.
  - unfold AcknowledgeObjectCleanup. ks.
  - unfold RequestStore.Create. ks.
  - unfold RequestStore.read, rthrow. ks.
  - unfold begin_pass. ks.
  - unfold Submit, requireTransition, rthrow. ks.
  - unfold Attempt. ks.
  - unfold openFirst. ks.
  - unfold consumeObject, requireTransition. ks.
  - unfold FinishOpen. ks.
  - unfold RequestStore.Revoke. ks.
  - unfold reserveFirst, requireTransition, rthrow. ks.
  - unfold Abandon. ks.
  - unfold RequestCleanup.reconcilePage. ks.
  - ks.
  - unfold RequestCleanup.AcknowledgeObjectCleanup. ks.
  - intros w. destruct (MarkPublished id w) as [res w'] eqn:E. apply MarkPublished_marks in E. simpl.
    eapply ks_marks; [exact E|]. done.
  - intros w. destruct (MarkFailed id (Some msg) next w) as [res w'] eqn:E. apply MarkFailed_marks in E. simpl.
    eapply ks_marks; [exact E|]. unfold outbox_check. intros r. cbn. lia.
Qed.

Lemma step_schema x evs y : step s rs ob rp x evs y -> well_formed (db (world x)) -> well_formed (db (world y)).
Proof.
  intros Hs Hx.
  destruct Hs as [o w c res w' H|id' tok at_ i w c res w' _ H|obj id' a i w c res w' _ Eo H|id' tok at_ a i w c res w' _ _ H|w w' c Hidle|w c]; simpl in *.
  - pose proof (exec_schema o w) as E. rewrite H in E. by apply E.
  - pose proof (ks_finalizeFirst id' tok at_ i w) as E. rewrite H in E. by apply E.
  - apply copyVerified_run in H as [_ ->]; [done|by apply options_objects].
  - pose proof (ks_acceptAttempt id' tok at_ a i w) as E. rewrite H in E. by apply E.
  - by destruct Hidle as [-> _].
  - done.
Qed.

(** ** Payloads

    An inline payload is an age file of the size its row states; no statement
    of the schema says so. *)
Definition payload_typed (d : ApiDB) (id : string) : Prop :=
  forall p, t_payloads d !! id = Some p -> exists r, t_secrets d !! id = Some r /\ s_backend r = SqliteBlob /\
    strlen (p_ciphertext p) = s_size r /\ exists rest, p_ciphertext p = ageMagic +:+ rest.
Definition well_typed (d : ApiDB) : Prop := well_formed d /\ forall id, payload_typed d id.

Lemma payload_typed_evolves id d d' : well_formed d' -> evolves_at id d d' -> payload_typed d id -> payload_typed d' id.
Proof.
  intros Hw [Hr Hp] Ht p Hp'. destruct (wf_payloads _ Hw id) as [r' Hr']; [by eexists|].
  destruct Hp as [Hp|Hp]; [|congruence]. rewrite Hp in Hp'. destruct (Ht p Hp') as (r & Er & Hb & Hl & Hm).
  rewrite Er, Hr' in Hr. apply le_immutable in Hr. unfold immutable in Hr. exists r'. split_and!; congruence.
Qed.

Lemma created_typed o w res w' id : exec s rs ob rp o w = (res, w') -> SecretCreated id ∈ events_of res ->
  well_formed (db w) -> payload_typed (db w') id.
Proof.
  intros H Hin Hw. destruct o; apply tag_run in H as (r0 & H & ->); destruct r0 as [x|e]; simpl in Hin;
    repeat case_match; simpl in Hin; try (by apply not_elem_of_nil in Hin); apply list_elem_of_singleton in Hin; simplify_eq.
  - apply Create_ok in H as (raw & tok & _ & _ & _ & _ & _ & _ & E & Hid & _ & _ & Hm & Hl & _). rewrite E, Hid.
    intros p. cbn. rewrite lookup_insert_eq. intros [= <-]. cbn. eexists. rewrite lookup_insert_eq.
    split; [done|]. unfold created_row. destruct (modelAColumns _ _). cbn. split_and!; done.
  - apply CreateLarge_spec in H; [|done]. destruct H as ((t & tok & Hn & _ & E) & _). rewrite E. intros p. cbn. intros Hp.
    destruct (wf_payloads _ Hw (lr_ID x)) as [r Hr]; [by eexists|]. congruence.
Qed.

(** C8: the database stays well typed through every history: every row passes
    its table's CHECK, every payload belongs to a row, no two requests share a
    bucket key and no two clean-up claims a job, and every inline payload of a
    secret is an age file of exactly the size its row states. *)
Theorem database_well_typed x evs y :
  history s rs ob rp x evs y -> well_typed (db (world x)) -> well_typed (db (world y)).
Proof.
  induction 1 as [x|x evs y new z _ IH Hs]; intros Hx; [done|]. destruct (IH Hx) as [Hy Ht].
  pose proof (step_schema _ _ _ Hs Hy) as Hz. split; [exact Hz|]. intros id.
  destruct (decide (SecretCreated id ∈ new)) as [Hin|Hn].
  2:{ eapply payload_typed_evolves; [exact Hz| |exact (Ht id)]. by eapply (step_evolves s rs ob rp). }
  destruct Hs as [o w c res w' H|id' tok at_ i w c res w' _ H|obj id' a i w c res w' _ Eo H|id' tok at_ a i w c res w' _ _ H|w w' c Hidle|w c];
    simpl in *; try by apply not_elem_of_nil in Hin.
  - by eapply created_typed.
  - destruct res as [[rc|a]|e]; [by apply list_elem_of_singleton in Hin..|by apply not_elem_of_nil in Hin].
  - destruct res as [rc|e]; [by apply list_elem_of_singleton in Hin|by apply not_elem_of_nil in Hin].
Qed.
End operations.

Lemma empty_well_typed : well_typed empty_db.
Proof. split; [apply empty_well_formed|]. by intros id p Hp. Qed.
