(* ===== verification/Http.v ===== *)
(** * HTTP requests, responses and credentials (src/internal/httpapi)

    What the handlers read of a request and write of a response.  A request
    holds its headers under their canonical names, in the order received; its
    body is the bytes the client sent and whether they ended cleanly.  A
    response body is an object that [encoding/json] renders, or raw bytes; of
    two headers with one name in a response, the first is the one set last.

    The credentials of the API: the bearer capabilities of senders and
    requesters, the internal token of the worker and the metrics token. *)

From S2P Require Import Prelude GoStrings Codec ObjectStorage.

(** ** Requests *)
Record Request := MkReq {
  rq_Method : string;
  rq_Path : string;
  rq_RawQuery : string;
  rq_RemoteAddr : string;
  rq_Header : list (string * string);
  rq_Body : stream;
}.

(** [r.Header.Values(name)] and [r.Header.Get(name)]. *)
Definition header_values (name : string) (h : list (string * string)) : list string :=
  (filter (fun p => p.1 = name) h).*2.
Definition header_get (name : string) (h : list (string * string)) : string :=
  match header_values name h with [] => "" | v :: _ => v end.

(** [io.ReadAll(http.MaxBytesReader(w, r.Body, limit))]. *)
Inductive read_result := ReadOk (b : string) | ReadTooLarge | ReadFailed.
Definition read_all (limit : Z) (b : stream) : read_result :=
  if limit <? strlen (content b) then ReadTooLarge
  else if complete b then ReadOk (content b) else ReadFailed.

(** ** Responses *)
Inductive json :=
  | JString (s : string)
  | JInt (z : Z)
  | JBool (b : bool)
  | JObject (fields : list (string * json)).

Inductive resp_body := NoBody | JsonBody (j : json) | RawBody (b : stream).

Record Response := MkResp {
  rs_Status : Z;
  rs_Header : list (string * string);
  rs_Body : resp_body;
}.

Definition with_header (name value : string) (r : Response) : Response :=
  MkResp (rs_Status r) ((name, value) :: rs_Header r) (rs_Body r).

Definition writeJSON (status : Z) (body : json) : Response :=
  MkResp status [("Content-Type", "application/json")] (JsonBody body).
Definition errorBody (code message : string) : json :=
  JObject [("code", JString code); ("message", JString message)].
Definition writeError (status : Z) (code message : string) : Response :=
  writeJSON status (JObject [("error", errorBody code message)]).

(** ** Credentials *)

(** [managementBearer]: without a space the whole header is the scheme and the
    token is empty. *)
Definition managementBearer (h : list (string * string)) : string :=
  let '(scheme, token, _) := cut_on space (header_get "Authorization" h) in
  if negb (EqualFold scheme "Bearer") || negb (length (header_values "Authorization" h) =? 1)%nat then ""
  else token.

Definition requestBearer (h : list (string * string)) : string :=
  let '(scheme, token, ok) := cut_on space (header_get "Authorization" h) in
  if negb ok || negb (EqualFold scheme "Bearer") || negb (length (header_values "Authorization" h) =? 1)%nat then ""
  else token.

(** Both sides are hashed, so that the comparison takes the same time for every
    length. *)
Definition secureTokenEqual (got want : string) : bool :=
  if bool_decide (got = "") || bool_decide (want = "") then false
  else bool_decide (sha256 got = sha256 want).

(** [header[:n]] and [header[n:]]. *)
Definition take_bytes (n : nat) (s : string) : string := String.substring 0 n s.

Definition checkBearer (metricsToken header : string) : bool :=
  if (String.length header <? 7)%nat || negb (EqualFold (take_bytes 7 header) "bearer ") then false
  else secureTokenEqual (drop_bytes 7 header) metricsToken.

Definition internalAuth (internalToken : string) (h : list (string * string)) : option Response :=
  if secureTokenEqual (header_get "X-Flick-Internal-Token" h) internalToken then None
  else Some (writeError 401 "unauthorized" "internal token is missing or invalid").

Definition metricsAuth (metricsToken : string) (h : list (string * string)) : option Response :=
  if checkBearer metricsToken (header_get "Authorization" h) then None
  else Some (writeError 401 "unauthorized" "metrics token is missing or invalid").

(** ** What the credentials accept *)
Lemma internalAuth_empty h : internalAuth "" h <> None.
Proof. unfold internalAuth, secureTokenEqual. by rewrite orb_true_r. Qed.

Lemma secureTokenEqual_hash got want :
  secureTokenEqual got want = true -> got <> "" /\ want <> "" /\ sha256 got = sha256 want.
Proof. unfold secureTokenEqual. destruct (_ || _) eqn:E; [done|]. intros H. by destruct_bools. Qed.

(** An absent, repeated or foreign [Authorization] header carries no token. *)
Lemma bearer_single h t : managementBearer h = t -> t <> "" -> exists v, header_values "Authorization" h = [v].
Proof.
  unfold managementBearer. destruct (cut_on space _) as [[a b] c]. destruct (_ || _) eqn:E; [by intros <-|].
  destruct_bools. match goal with H : (_ =? 1)%nat = true |- _ => apply Nat.eqb_eq in H; rename H into Hl end.
  intros _ _. destruct (header_values "Authorization" h) as [|v [|]]; try done. by exists v.
Qed.
