(* ===== verification/RateLimit.v ===== *)
(** * The rate limiter (src/internal/httpapi/ratelimit.go)

    Token buckets in [float64], one per client address and resource, and the
    resolution of the client address behind trusted proxies.  The functions of
    package [net] it calls, [SplitHostPort], [ParseIP] and [IPNet.Contains],
    are modelled on byte strings.  The product and the sum of the refill are
    two roundings, as on the platforms where the compiler does not fuse them. *)

From S2P Require Import Prelude GoStrings Float64 Codec Http.

(** ** Package [net] *)

(** An address in its 16-byte form. *)
Abbreviation IP := (list Z).
Record IPNet := MkNet { net_IP : IP; net_Mask : list Z }.

Fixpoint decimal_value (s : string) (acc : Z) : option Z :=
  match s with
  | "" => Some acc
  | String.String a r =>
      let v := byte_val a - 48 in
      if (0 <=? v) && (v <=? 9) then decimal_value r (acc * 10 + v) else None
  end.

(** One field of a dotted address: digits, no leading zero, at most 255. *)
Definition v4_field (s : string) : option Z :=
  if bool_decide (s = "") || ((1 <? String.length s)%nat && has_prefix "0" s) || (3 <? String.length s)%nat then None
  else v ← decimal_value s 0; if v <=? 255 then Some v else None.

Definition parseIPv4Fields (s : string) : option (list Z) :=
  match split_on (Ascii.ascii_of_nat 46) s with
  | [a; b; c; d] => a ← v4_field a; b ← v4_field b; c ← v4_field c; d ← v4_field d; Some [a; b; c; d]
  | _ => None
  end.

Definition hex_value (a : Ascii.ascii) : option Z :=
  let v := byte_val a in
  if (48 <=? v) && (v <=? 57) then Some (v - 48)
  else if (97 <=? v) && (v <=? 102) then Some (v - 87)
  else if (65 <=? v) && (v <=? 70) then Some (v - 55)
  else None.

(** The hex digits a group starts with: how many, their value, the rest. *)
Fixpoint hex_group (s : string) : nat * Z * string :=
  match s with
  | "" => (0%nat, 0, "")
  | String.String a r =>
      match hex_value a with
      | None => (0%nat, 0, s)
      | Some v => let '(n, acc, rest) := hex_group r in (S n, v * 16 ^ Z.of_nat n + acc, rest)
      end
  end.

Definition colon : Ascii.ascii := Ascii.ascii_of_nat 58.
Definition dot : Ascii.ascii := Ascii.ascii_of_nat 46.

(** The loop of [parseIPv6], on the bytes parsed so far and the position of the
    ellipsis; each round reads a group, so nine rounds are enough. *)
Fixpoint parse_groups (fuel : nat) (s : string) (ip : list Z) (ellipsis : option nat) : option (list Z * option nat * string) :=
  match fuel with
  | O => None
  | S fuel =>
      if (16 <=? length ip)%nat then Some (ip, ellipsis, s)
      else
        let '(n, acc, rest) := hex_group s in
        if (4 <? n)%nat || (n =? 0)%nat then None
        else
          match rest with
          | "" => Some (ip ++ [acc / 256; acc mod 256], ellipsis, "")
          | String.String c r =>
              if Ascii.eqb c dot then
                if (bool_decide (ellipsis = None) && negb (length ip =? 12)%nat) || (16 <? length ip + 4)%nat then None
                else v4 ← parseIPv4Fields s; Some (ip ++ v4, ellipsis, "")
              else
                let ip := ip ++ [acc / 256; acc mod 256] in
                if negb (Ascii.eqb c colon) then None
                else match r with
                     | "" => None
                     | String.String c2 r2 =>
                         if Ascii.eqb c2 colon then
                           if bool_decide (ellipsis <> None) then None
                           else if bool_decide (r2 = "") then Some (ip, Some (length ip), "")
                           else parse_groups fuel r2 ip (Some (length ip))
                         else parse_groups fuel r ip ellipsis
                     end
          end
  end.

Definition expand (ip : list Z) (ellipsis : option nat) : option IP :=
  match ellipsis with
  | None => if (length ip =? 16)%nat then Some ip else None
  | Some k => if (length ip <? 16)%nat then Some (take k ip ++ replicate (16 - length ip) 0 ++ drop k ip) else None
  end.

Definition parseIPv6 (s : string) : option IP :=
  let '(s, ellipsis) := if has_prefix "::" s then (drop_bytes 2 s, Some 0%nat) else (s, None) in
  if bool_decide (s = "") && bool_decide (ellipsis <> None) then Some (replicate 16 0)
  else match parse_groups 9 s [] ellipsis with
       | Some (ip, ellipsis, rest) => if bool_decide (rest = "") then expand ip ellipsis else None
       | None => None
       end.

(** [netip.ParseAddr] chooses by the first dot or colon; [net.ParseIP] refuses
    zones, so a percent sign is never accepted. *)
Fixpoint first_mark (s : string) : option bool :=
  match s with
  | "" => None
  | String.String a r =>
      if Ascii.eqb a dot then Some true else if Ascii.eqb a colon then Some false else first_mark r
  end.

Definition v4_in_v6 (v4 : list Z) : IP := replicate 10 0 ++ [255; 255] ++ v4.

Definition ParseIP (s : string) : option IP :=
  if contains_byte (Ascii.ascii_of_nat 37) s then None
  else match first_mark s with
       | Some true => v4_in_v6 <$> parseIPv4Fields s
       | Some false => parseIPv6 s
       | None => None
       end.

(** [ip.To4()]. *)
Definition To4 (ip : IP) : option (list Z) :=
  if (length ip =? 4)%nat then Some ip
  else if (length ip =? 16)%nat && bool_decide (take 12 ip = replicate 10 0 ++ [255; 255]) then Some (drop 12 ip)
  else None.

Definition masked_eq (a b m : list Z) : bool := bool_decide (zip_with Z.land a m = zip_with Z.land b m).

Definition networkNumberAndMask (n : IPNet) : option (list Z * list Z) :=
  let ip := match To4 (net_IP n) with Some x => Some x
            | None => if (length (net_IP n) =? 16)%nat then Some (net_IP n) else None end in
  match ip with
  | None => None
  | Some ip =>
      match length (net_Mask n), length ip with
      | 4%nat, 4%nat => Some (ip, net_Mask n)
      | 16%nat, 4%nat => Some (ip, drop 12 (net_Mask n))
      | 16%nat, 16%nat => Some (ip, net_Mask n)
      | _, _ => None
      end
  end.

(** A network without number and mask has none of the addresses' lengths. *)
Definition Contains (n : IPNet) (ip : IP) : bool :=
  match networkNumberAndMask n with
  | None => false
  | Some (nn, m) =>
      let ip := match To4 ip with Some x => x | None => ip end in
      (length ip =? length nn)%nat && masked_eq nn ip m
  end.

(** [net.SplitHostPort]: the host, when the address has a port. *)
Fixpoint last_index (c : Ascii.ascii) (s : string) (i : nat) : option nat :=
  match s with
  | "" => None
  | String.String a r =>
      match last_index c r (S i) with Some j => Some j | None => if Ascii.eqb a c then Some i else None end
  end.
Fixpoint first_index (c : Ascii.ascii) (s : string) (i : nat) : option nat :=
  match s with
  | "" => None
  | String.String a r => if Ascii.eqb a c then Some i else first_index c r (S i)
  end.

Definition lbracket : Ascii.ascii := Ascii.ascii_of_nat 91.
Definition rbracket : Ascii.ascii := Ascii.ascii_of_nat 93.

Definition SplitHostPort (hostport : string) : option string :=
  match last_index colon hostport 0 with
  | None => None
  | Some i =>
      if has_prefix "[" hostport then
        match first_index rbracket hostport 0 with
        | None => None
        | Some e =>
            if negb (S e =? i)%nat then None
            else if contains_byte lbracket (drop_bytes 1 hostport) || contains_byte rbracket (drop_bytes (S e) hostport)
            then None
            else Some (String.substring 1 (e - 1) hostport)
        end
      else
        let host := String.substring 0 i hostport in
        if contains_byte colon host || contains_byte lbracket hostport || contains_byte rbracket hostport then None
        else Some host
  end.

(** ** The client address *)
Definition isTrustedIP (ip : string) (trusted : list IPNet) : bool :=
  match ParseIP ip with
  | None => false
  | Some parsed => existsb (fun cidr => Contains cidr parsed) trusted
  end.

(** The loop of [rightmostUntrusted], over the parts from the last. *)
Fixpoint first_untrusted (parts : list string) (trusted : list IPNet) : string :=
  match parts with
  | [] => ""
  | p :: parts =>
      let candidate := TrimSpace p in
      if bool_decide (candidate = "") || bool_decide (ParseIP candidate = None) then first_untrusted parts trusted
      else if negb (isTrustedIP candidate trusted) then candidate
      else first_untrusted parts trusted
  end.
Definition rightmostUntrusted (xff : string) (trusted : list IPNet) : string :=
  first_untrusted (reverse (split_on comma xff)) trusted.

Definition clientIP (trusted : list IPNet) (r : Request) : string :=
  let peer := default (rq_RemoteAddr r) (SplitHostPort (rq_RemoteAddr r)) in
  if isTrustedIP peer trusted then
    let xff := header_get "X-Forwarded-For" (rq_Header r) in
    if bool_decide (xff <> "") then
      let ip := rightmostUntrusted xff trusted in
      if bool_decide (ip <> "") then ip else peer
    else peer
  else peer.

(** ** Token buckets *)

(** [t.Sub(u)] saturates; [d.Seconds()]. *)
Definition time_sub (t u : time) : Z := Z.max (- 2 ^ 63) (Z.min (2 ^ 63 - 1) (t - u)).
Definition Seconds (d : Z) : float64 :=
  f_add (of_int (Z.quot d Second)) (f_div (of_int (Z.rem d Second)) (of_int 1000000000)).

Record tokenBucket := MkBucket { tokens : float64; last : time }.

Record rateLimiter := MkLimiter {
  buckets : gmap string tokenBucket;
  rate : float64;
  burst : float64;
  trustedProxies : list IPNet;
}.

Definition per_minute (n : Z) : Z := if n <=? 0 then 10 else n.

Definition newRateLimiter (perMinute : Z) (trusted : list IPNet) : rateLimiter :=
  MkLimiter ∅ (f_div (of_int (per_minute perMinute)) (of_int 60)) (of_int (per_minute perMinute)) trusted.

Definition set_buckets (m : gmap string tokenBucket) (rl : rateLimiter) : rateLimiter :=
  MkLimiter m (rate rl) (burst rl) (trustedProxies rl).

Definition refill (rl : rateLimiter) (b : tokenBucket) (t : time) : float64 :=
  let elapsed := Seconds (time_sub t (last b)) in
  if f_lt (of_int 0) elapsed then
    let x := f_add (tokens b) (f_mul elapsed (rate rl)) in
    if f_lt (burst rl) x then burst rl else x
  else tokens b.

Definition allow (key : string) (t : time) (rl : rateLimiter) : bool * rateLimiter :=
  let b := default (MkBucket (burst rl) t) (buckets rl !! key) in
  let tok := refill rl b t in
  if f_lt tok (of_int 1) then (false, set_buckets (<[key := MkBucket tok t]> (buckets rl)) rl)
  else (true, set_buckets (<[key := MkBucket (f_sub tok (of_int 1)) t]> (buckets rl)) rl).

(** One tick of [cleanup]. *)
Definition idle (t : time) (b : tokenBucket) : bool := 10 * Minute <? time_sub t (last b).
Definition evict (t : time) (rl : rateLimiter) : rateLimiter :=
  set_buckets (filter (fun p => idle t p.2 = false) (buckets rl)) rl.

(** [middleware], [managementMiddleware] and [requestRateLimit]: the key they
    charge, and the response that replaces the handler's. *)
Definition limit_key (rl : rateLimiter) (r : Request) (resource : string) : string :=
  clientIP (trustedProxies rl) r +:+ "|" +:+ resource.
Definition rate_limited : Response :=
  with_header "Retry-After" "60" (writeError 429 "rate_limited" "too many requests, slow down").
Definition charge (rl : rateLimiter) (key : string) (t : time) : option Response * rateLimiter :=
  let '(ok, rl) := allow key t rl in (if ok then None else Some rate_limited, rl).
