(* ===== verification/RateLimitProofs.v ===== *)
(** * What the rate limiter guarantees

    An address taken from [X-Forwarded-For] cannot be forged by what the client
    put there itself; a bucket never lets through more calls at one instant
    than the configured number; and the background eviction of idle buckets
    cannot be observed. *)

From S2P Require Import Prelude GoStrings Float64 Codec ObjectStorage Http RateLimit.

(** ** The client address *)
Lemma first_untrusted_spec parts trusted :
  first_untrusted parts trusted <> "" ->
  ParseIP (first_untrusted parts trusted) <> None /\ isTrustedIP (first_untrusted parts trusted) trusted = false.
Proof.
  induction parts as [|p parts IH]; simpl; [done|]. destruct (_ || _) eqn:E; [done|].
  destruct (isTrustedIP (TrimSpace p) trusted) eqn:Et; simpl; [done|]. destruct_bools. done.
Qed.

Lemma first_untrusted_app l k trusted :
  first_untrusted l trusted <> "" -> first_untrusted (l ++ k) trusted = first_untrusted l trusted.
Proof.
  induction l as [|p l IH]; simpl; [done|]. destruct (_ || _); [done|].
  destruct (isTrustedIP (TrimSpace p) trusted); simpl; done.
Qed.

Lemma rightmostUntrusted_suffix junk own trusted :
  rightmostUntrusted own trusted <> "" ->
  rightmostUntrusted (junk +:+ String.String comma own) trusted = rightmostUntrusted own trusted.
Proof. unfold rightmostUntrusted. rewrite split_on_app, reverse_app. apply first_untrusted_app. Qed.

Definition peer_of (r : Request) : string := default (rq_RemoteAddr r) (SplitHostPort (rq_RemoteAddr r)).

(** C26: the address a request is charged to is not the client's to choose.
    From a peer that is not a trusted proxy the header is ignored; behind a
    trusted one, whatever the client wrote before the part the proxies added
    has no influence once that part names an untrusted address; and an address
    that is not the peer's is a valid one outside the trusted networks. *)
Theorem client_ip_not_forged trusted r :
  (isTrustedIP (peer_of r) trusted = false -> clientIP trusted r = peer_of r) /\
  (forall junk own, isTrustedIP (peer_of r) trusted = true ->
     header_get "X-Forwarded-For" (rq_Header r) = junk +:+ String.String comma own ->
     rightmostUntrusted own trusted <> "" -> clientIP trusted r = rightmostUntrusted own trusted) /\
  (clientIP trusted r = peer_of r \/
   ParseIP (clientIP trusted r) <> None /\ isTrustedIP (clientIP trusted r) trusted = false).
Proof.
  unfold clientIP. fold (peer_of r). split_and!.
  - by intros ->.
  - intros junk own -> E Hne. rewrite E, rightmostUntrusted_suffix by done.
    rewrite !bool_decide_eq_true_2; [done..|]. by destruct junk.
  - destruct (isTrustedIP (peer_of r) trusted); [|by left]. case_bool_decide; [|by left].
    case_bool_decide as Hne; [|by left]. right. by apply first_untrusted_spec.
Qed.

(** ** Buckets *)
Section limiter.
Context (p : Z) (Hp : 0 < p < 2 ^ 52) (trusted : list IPNet).

Definition one : Z := V 1 0.
Definition full : Z := V p 0.

Lemma one_fin : Fin (of_int 1) one.
Proof. by apply of_int_exact. Qed.
Lemma full_fin : Fin (of_int p) full.
Proof. apply of_int_exact. lia. Qed.

Lemma V_scale z : V z 0 = z * one.
Proof. unfold one, V. lia. Qed.
Lemma one_pos : 0 < one.
Proof. unfold one, V. rewrite Z.mul_1_l. by apply Z.pow_pos_nonneg. Qed.

(** *** Elapsed time *)
Lemma f_add_at_least x u y k f : Fin x u -> AtLeast 0 y -> rep k f -> V k f <= u -> AtLeast (V k f) (f_add x y).
Proof.
  intros Hx [(v & Hv & H0)| ->] Hr Hle.
  - eapply Rounds_at_least; [done| |by apply f_add_spec]. lia.
  - right. by destruct x.
Qed.

Definition billion : float64 := of_int 1000000000.
Lemma billion_eq : billion = S754_finite false 8388608000000000 (-23).
Proof. by vm_compute. Qed.

Lemma Mag_exact_neg z : 0 < z < 2 ^ 53 -> Mag true (of_int (- z)) (V z 0).
Proof.
  intros Hz. destruct z as [|q|q]; [lia| |lia]. unfold of_int. simpl.
  destruct (binary_round_spec true q 0) as [(v & H & Hlo & Hhi)|[_ H]]; [unfold base; lia|..].
  - specialize (Hlo (Z.pos q) 0). specialize (Hhi (Z.pos q) 0). unfold rep in *.
    replace (V (Z.pos q) 0) with v by lia. done.
  - specialize (H (Z.pos q) 0). unfold rep in H. lia.
Qed.

Lemma nano_at_least n : 0 <= n < Second -> AtLeast 0 (f_div (of_int n) billion).
Proof.
  intros Hn. unfold Second in Hn. destruct (decide (n = 0)) as [->|]; [left; exists 0; by vm_compute|].
  destruct (Mag_normal false (of_int n) n) as (m & e & -> & Hd & _ & He); [apply of_int_exact; lia|lia|].
  rewrite billion_eq. destruct (f_div_spec false m e 8388608000000000 (-23)) as [(v & H & _)|H]; [done|by vm_compute|lia|..].
  - left. exists v. split; [done|]. by eapply Mag_nonneg.
  - by right.
Qed.

Lemma Seconds_at_least d k : 0 <= k -> k * Second <= d < 2 ^ 63 -> k < 2 ^ 53 -> AtLeast (V k 0) (Seconds d).
Proof.
  intros Hk Hd Hk'. unfold Seconds. unfold Second in *.
  pose proof (Z.quot_rem' d 1000000000) as Hq. pose proof (Z.rem_bound_pos d 1000000000 ltac:(lia) ltac:(lia)) as Hr.
  eapply f_add_at_least; [apply of_int_exact; lia|apply nano_at_least; unfold Second; lia|unfold rep; lia|].
  rewrite !V_scale. pose proof one_pos. apply Z.mul_le_mono_nonneg_r; lia.
Qed.

Lemma Seconds_nonpos d : - 2 ^ 63 <= d <= 0 -> nonpos (Seconds d).
Proof.
  intros Hd. unfold Seconds. unfold Second.
  pose proof (Z.quot_rem' d 1000000000). pose proof (Z.rem_bound_pos_neg d 1000000000 ltac:(lia) ltac:(lia)) as Hrm.
  assert (Hint : forall z, - 2 ^ 53 < z <= 0 -> nonpos (of_int z) /\ match of_int z with S754_finite _ _ e => -1074 <= e | _ => True end).
  { intros z Hz. split; [apply of_int_nonpos; lia|]. destruct (decide (z = 0)) as [->|]; [done|].
    pose proof (Mag_exact_neg (- z) ltac:(lia)) as H'. rewrite Z.opp_involutive in H'.
    destruct (of_int z); try done. destruct H' as (_ & _ & _ & H'). lia. }
  apply f_add_nonpos; [apply Hint; lia|].
  destruct (decide (Z.rem d 1000000000 = 0)) as [->|]; [by vm_compute|].
  pose proof (Mag_exact_neg (- Z.rem d 1000000000) ltac:(lia)) as Hm.
  destruct (Mag_normal true _ _ Hm) as (m & e & E & Hdg & _ & He); [lia|]. rewrite Z.opp_involutive in E. rewrite E.
  fold billion. rewrite billion_eq.
  destruct (f_div_spec true m e 8388608000000000 (-23)) as [(v & Hv & _)|Hv]; [done|by vm_compute|lia|..].
  - split; [by eapply Mag_true_nonpos|]. destruct (f_div _ _); try done. destruct Hv as (_ & _ & _ & Hv). lia.
  - by rewrite Hv.
Qed.

(** The rate is at least a 64th of the burst per second. *)
Lemma rate_at_least : AtLeast (V p (-6)) (f_div (of_int p) (of_int 60)).
Proof.
  destruct (Mag_normal false _ _ full_fin) as (m & e & -> & Hd & HV & He); [lia|].
  change (of_int 60) with (S754_finite false 8444249301319680 (-47)).
  destruct (f_div_spec false m e 8444249301319680 (-47)) as [(v & Hv & Hlo)|Hv]; [done|by vm_compute|lia| |by right].
  left. exists v. split; [done|]. apply Hlo; [unfold rep; lia|].
  replace (e - -47 - 53) with (e + -6) by lia.
  assert (E : V p (-6) = V (Z.pos m) (e + -6)).
  { unfold full, V, base in HV |- *. replace (0 + 4000) with (6 + (-6 + 4000)) in HV by lia.
    replace (e + 4000) with (6 + (e + -6 + 4000)) in HV by lia. rewrite !Z.pow_add_r in HV by lia. lia. }
  rewrite E. apply V_mono. apply Z.div_le_lower_bound; [lia|]. nia.
Qed.

(** *** The state of a bucket *)
Definition bucket_ok (b : tokenBucket) : Prop := exists v, Fin (tokens b) v /\ v <= full.
Definition lim_ok (rl : rateLimiter) : Prop :=
  rate rl = f_div (of_int p) (of_int 60) /\ burst rl = of_int p /\
  forall k b, buckets rl !! k = Some b -> bucket_ok b.

Lemma time_sub_pos t u : 0 < time_sub t u -> u < t.
Proof. unfold time_sub. lia. Qed.
Lemma V_pos k f : 0 < k -> - base <= f -> 0 < V k f.
Proof. intros. unfold V. apply Z.mul_pos_pos; [done|]. apply Z.pow_pos_nonneg; lia. Qed.

Lemma refill_still rl b t : t <= last b -> refill rl b t = tokens b.
Proof.
  intros Hle. unfold refill. rewrite nonpos_lt; [done|]. apply Seconds_nonpos. unfold time_sub. lia.
Qed.

Lemma refill_ok rl b t : lim_ok rl -> bucket_ok b -> exists v, Fin (refill rl b t) v /\ v <= full.
Proof.
  intros (Er & Eb & _) (v & Hv & Hle). unfold refill. rewrite Er, Eb.
  destruct (f_lt (of_int 0) _) eqn:Ep; [|by exists v].
  destruct (decide (time_sub t (last b) <= 0)) as [Hn|Hn].
  { rewrite nonpos_lt in Ep; [done|]. apply Seconds_nonpos. unfold time_sub in *. lia. }
  assert (Hd : 0 <= time_sub t (last b) < 2 ^ 63) by (unfold time_sub in *; lia).
  assert (Hs : AtLeast (V 0 0) (Seconds (time_sub t (last b)))) by (apply (Seconds_at_least _ 0); [lia|rewrite Z.mul_0_l; lia|lia]).
  change (V 0 0) with 0 in Hs.
  set (x := f_add _ _).
  assert (Hx : AtLeast 0 x).
  { eapply (f_add_at_least _ _ _ 0 0); [done| |unfold rep; lia|by eapply Mag_nonneg].
    destruct Hs as [(u & Hu & Hu0)| ->].
    - rewrite (f_lt_spec _ _ 0 u) in Ep by (done || by apply of_int_exact). apply Z.ltb_lt in Ep.
      apply (f_mul_at_least _ _ u (V p (-6)) 0 0); [done|apply V_pos; [lia|unfold base; lia]|left; exists u; split; [done|lia]|apply rate_at_least|unfold rep; lia|].
      pose proof (V_pos p (-6) ltac:(lia) ltac:(unfold base; lia)). change (V 0 0) with 0. rewrite Z.mul_0_l. apply Z.mul_nonneg_nonneg; lia.
    - apply (f_mul_at_least _ _ 1 (V p (-6)) 0 0); [done|apply V_pos; [lia|unfold base; lia]|by right|apply rate_at_least|unfold rep; lia|].
      pose proof (V_pos p (-6) ltac:(lia) ltac:(unfold base; lia)). change (V 0 0) with 0. rewrite Z.mul_0_l. apply Z.mul_nonneg_nonneg; lia. }
  destruct (f_lt (of_int p) x) eqn:El; [exists full; split; [apply full_fin|lia]|].
  destruct Hx as [(u & Hu & _)|Hinf].
  - rewrite (f_lt_spec _ _ full u) in El by (done || apply full_fin). apply Z.ltb_ge in El. by exists u.
  - rewrite Hinf in El. by rewrite (f_lt_at_least _ full (full + 1)) in El by (apply full_fin || (by right) || lia).
Qed.

(** An idle bucket is full again. *)
Lemma refill_idle rl b t t' :
  lim_ok rl -> bucket_ok b -> idle t b = true -> t <= t' -> refill rl b t' = burst rl.
Proof.
  intros (Er & Eb & _) (v & Hv & Hle) Hi%Z.ltb_lt Ht. unfold refill. rewrite Er, Eb.
  assert (Hd : 10 * Minute < time_sub t' (last b) < 2 ^ 63) by (unfold time_sub in *; lia).
  pose proof (Seconds_at_least (time_sub t' (last b)) 600 ltac:(lia)) as Hs.
  specialize (Hs ltac:(unfold Minute, Second in *; lia) ltac:(lia)).
  pose proof (V_pos 600 0 ltac:(lia) ltac:(unfold base; lia)) as H600.
  rewrite (f_lt_at_least _ 0 _ _ (of_int_exact 0 ltac:(lia)) Hs) by done.
  assert (Hx : AtLeast (V p 3) (f_add (tokens b) (f_mul (Seconds (time_sub t' (last b))) (f_div (of_int p) (of_int 60))))).
  { assert (Hm : AtLeast (V p 3) (f_mul (Seconds (time_sub t' (last b))) (f_div (of_int p) (of_int 60)))).
    { apply (f_mul_at_least _ _ (V 600 0) (V p (-6))); [done|apply V_pos; [lia|unfold base; lia]|done|apply rate_at_least|unfold rep; lia|].
      rewrite V_mul by (unfold base; lia). apply Z.mul_le_mono_nonneg_r; [done|].
      replace (0 + -6) with (-6) by lia. change 3 with (-6 + 9). rewrite <- V_shift by (unfold base; lia). apply V_mono. lia. }
    pose proof (Mag_nonneg _ _ _ Hv). destruct Hm as [(u & Hu & Hul)|Hm].
    - eapply Rounds_at_least; [unfold rep; lia| |by apply f_add_spec]. lia.
    - rewrite Hm. right. by destruct (tokens b). }
  rewrite (f_lt_at_least _ full _ _ full_fin Hx); [done|]. unfold full. change 3 with (0 + 3).
  rewrite <- V_shift by (unfold base; lia). apply V_cancel_lt; [unfold base; lia|lia].
Qed.

(** Taking a token off a count keeps it under the next lower integer. *)
Lemma take_token x v k : Fin x v -> one <= v -> v <= V k 0 -> 0 < k <= p ->
  exists u, Fin (f_sub x (of_int 1)) u /\ u <= V (k - 1) 0.
Proof.
  intros Hx H1 Hle Hk. pose proof (f_sub_spec _ _ _ _ Hx one_fin H1) as Hs.
  eapply Rounds_at_most; [|..|exact Hs]; [unfold rep; lia|]. rewrite V_scale in *. lia.
Qed.
Lemma take_token_exact k : 0 < k <= p -> f_sub (of_int k) (of_int 1) = of_int (k - 1).
Proof.
  intros Hk. assert (Hf : Fin (of_int k) (V k 0)) by (apply of_int_exact; lia).
  pose proof (f_sub_spec _ _ _ _ Hf one_fin) as Hs. pose proof one_pos.
  rewrite V_scale in Hs. specialize (Hs ltac:(nia)). replace (k * one - one) with (V (k - 1) 0) in Hs by (rewrite V_scale; lia).
  apply Rounds_exact in Hs; [|unfold rep; lia]. eapply Fin_unique; [exact Hs|]. apply of_int_exact. lia.
Qed.

Lemma allow_ok key t rl : lim_ok rl -> lim_ok (allow key t rl).2.
Proof.
  intros Hok. pose proof Hok as (Er & Eb & Hb). unfold allow. set (b := default _ _).
  assert (Hbo : bucket_ok b).
  { unfold b. destruct (buckets rl !! key) eqn:E; [by eapply Hb|]. exists full. rewrite Eb. split; [apply full_fin|simpl; lia]. }
  destruct (refill_ok rl b t Hok Hbo) as (v & Hv & Hle).
  assert (Hset : forall x, bucket_ok x -> lim_ok (set_buckets (<[key := x]> (buckets rl)) rl)).
  { intros x Hx. split_and!; [done..|]. intros k b' H. simpl in H. apply lookup_insert_Some in H as [[_ <-]|[_ H]]; [done|by eapply Hb]. }
  destruct (f_lt _ (of_int 1)) eqn:El; simpl; apply Hset; [by exists v|].
  rewrite (f_lt_spec _ _ v one) in El by (done || apply one_fin). apply Z.ltb_ge in El.
  destruct (take_token _ v p Hv El Hle) as (u & Hu & Hul); [lia|]. exists u. split; [done|]. etrans; [exact Hul|].
  apply V_mono. lia.
Qed.

Lemma evict_ok t rl : lim_ok rl -> lim_ok (evict t rl).
Proof. intros (Er & Eb & Hb). split_and!; [done..|]. intros k b H. simpl in H. apply map_lookup_filter_Some in H as [H _]. by eapply Hb. Qed.
End limiter.

(** ** Sequences of calls *)
Fixpoint run (calls : list (string * time)) (rl : rateLimiter) : list bool * rateLimiter :=
  match calls with
  | [] => ([], rl)
  | (key, t) :: calls =>
      let '(ok, rl) := allow key t rl in
      let '(oks, rl) := run calls rl in (ok :: oks, rl)
  end.

(** The calls under a key that were let through. *)
Fixpoint passed (key : string) (calls : list (string * time)) (oks : list bool) : Z :=
  match calls, oks with
  | (k, _) :: calls, ok :: oks => (if bool_decide (k = key) && ok then 1 else 0) + passed key calls oks
  | _, _ => 0
  end.
Fixpoint made (key : string) (calls : list (string * time)) : Z :=
  match calls with
  | [] => 0
  | (k, _) :: calls => (if bool_decide (k = key) then 1 else 0) + made key calls
  end.

(** The limiters the process can hold: calls and evictions, in any order. *)
Inductive reached (perMinute : Z) (trusted : list IPNet) : rateLimiter -> Prop :=
  | reached_new : reached perMinute trusted (newRateLimiter perMinute trusted)
  | reached_allow key t rl : reached perMinute trusted rl -> reached perMinute trusted (allow key t rl).2
  | reached_evict t rl : reached perMinute trusted rl -> reached perMinute trusted (evict t rl).

Section calls.
Context (n : Z) (trusted : list IPNet) (Hn : per_minute n < 2 ^ 52).
Abbreviation p := (per_minute n).

Lemma per_minute_pos : 0 < p < 2 ^ 52.
Proof. unfold per_minute in *. destruct (Z.leb_spec n 0); lia. Qed.

Lemma reached_ok rl : reached n trusted rl -> lim_ok p rl.
Proof.
  induction 1; [|by apply (allow_ok p per_minute_pos)|by apply evict_ok].
  split_and!; [done..|]. intros k b H. simpl in H. by rewrite lookup_empty in H.
Qed.

Lemma allow_other key k t rl : k <> key -> buckets (allow k t rl).2 !! key = buckets rl !! key.
Proof. intros. unfold allow. destruct (f_lt _ _); simpl; by rewrite lookup_insert_ne. Qed.

(** A bucket last used at [t] that holds at most [k] tokens lets at most [k]
    calls of that instant through. *)
Lemma passed_at_most key t calls rl k b :
  lim_ok p rl -> Forall (fun c => c.2 = t) calls -> 0 <= k <= p ->
  buckets rl !! key = Some b -> last b = t -> (exists v, Fin (tokens b) v /\ v <= V k 0) ->
  passed key calls (run calls rl).1 <= k.
Proof.
  revert rl k b. induction calls as [|[key' t'] calls IH]; intros rl k b Hok Hc Hk Hb Hl (v & Hv & Hle); simpl; [lia|].
  apply Forall_cons in Hc as [E Hc]. simpl in E. subst t'.
  pose proof (allow_ok p per_minute_pos key' t rl Hok) as Hok'. pose proof (allow_other key key' t rl) as Hoth.
  destruct (decide (key' = key)) as [->|Hne].
  - rewrite bool_decide_eq_true_2 by done. unfold allow in *. rewrite Hb in *. cbn [default id] in *.
    rewrite refill_still in * by (rewrite Hl; lia).
    rewrite (f_lt_spec _ _ v one) in * by (done || apply one_fin). destruct (Z.ltb_spec v one) as [Hlt|Hge]; cbn [fst snd] in *.
    + specialize (IH _ k (MkBucket (tokens b) t) Hok' Hc Hk).
      destruct (run calls _) as [oks rl2]. cbn [fst] in IH. simpl. apply IH; [by simpl; rewrite lookup_insert_eq|done|by exists v].
    + assert (Hk1 : 0 < k).
      { destruct (decide (k = 0)) as [->|]; [|lia]. change (V 0 0) with 0 in Hle. pose proof one_pos. lia. }
      destruct (take_token p per_minute_pos _ v k Hv Hge Hle) as (u & Hu & Hul); [lia|].
      specialize (IH _ (k - 1) (MkBucket (f_sub (tokens b) (of_int 1)) t) Hok' Hc ltac:(lia)).
      destruct (run calls _) as [oks rl2]. cbn [fst] in IH. simpl. assert (passed key calls oks <= k - 1); [|lia].
      apply IH; [by simpl; rewrite lookup_insert_eq|done|by exists u].
  - rewrite bool_decide_eq_false_2 by done. specialize (Hoth Hne). rewrite <- Hoth in Hb.
    destruct (allow key' t rl) as [ok rl1]. specialize (IH rl1 k b Hok' Hc Hk Hb Hl (ex_intro _ v (conj Hv Hle))).
    destruct (run calls rl1). simpl in *. lia.
Qed.

(** From a count of [k] tokens it lets exactly the first [k] through. *)
Lemma passed_exactly key t calls rl k b :
  lim_ok p rl -> Forall (fun c => c.2 = t) calls -> 0 <= k <= p ->
  buckets rl !! key = Some b -> last b = t -> tokens b = of_int k ->
  passed key calls (run calls rl).1 = Z.min k (made key calls).
Proof.
  revert rl k b. induction calls as [|[key' t'] calls IH]; intros rl k b Hok Hc Hk Hb Hl Ht; simpl; [lia|].
  apply Forall_cons in Hc as [E Hc]. simpl in E. subst t'.
  pose proof (allow_ok p per_minute_pos key' t rl Hok) as Hok'. pose proof (allow_other key key' t rl) as Hoth.
  assert (Hm : 0 <= made key calls) by (clear; induction calls as [|[]]; simpl; [lia|case_bool_decide; lia]).
  pose proof per_minute_pos. pose proof one_pos.
  destruct (decide (key' = key)) as [->|Hne].
  - rewrite !bool_decide_eq_true_2 by done. unfold allow in *. rewrite Hb in *. cbn [default id] in *.
    rewrite refill_still in * by (rewrite Hl; lia). rewrite Ht in *.
    rewrite (f_lt_spec _ _ (V k 0) one) in * by (apply one_fin || (apply of_int_exact; lia)).
    rewrite V_scale in *. destruct (Z.ltb_spec (k * one) one) as [Hlt|Hge]; cbn [fst snd] in *.
    + assert (k = 0) as -> by nia. specialize (IH _ 0 (MkBucket (of_int 0) t) Hok' Hc Hk).
      destruct (run calls _) as [oks rl2]. cbn [fst] in IH. simpl. rewrite IH; [lia|by simpl; rewrite lookup_insert_eq|done..].
    + assert (0 < k) by nia. rewrite (take_token_exact p per_minute_pos k) in * by lia.
      specialize (IH _ (k - 1) (MkBucket (of_int (k - 1)) t) Hok' Hc ltac:(lia)).
      destruct (run calls _) as [oks rl2]. cbn [fst] in IH. simpl. rewrite IH; [lia|by simpl; rewrite lookup_insert_eq|done..].
  - rewrite !bool_decide_eq_false_2 by done. specialize (Hoth Hne). rewrite <- Hoth in Hb.
    destruct (allow key' t rl) as [ok rl1]. specialize (IH rl1 k b Hok' Hc Hk Hb Hl Ht).
    destruct (run calls rl1). simpl in *. lia.
Qed.

(** A call finds its bucket as if it had been refilled just before. *)
Definition bucket_at (rl : rateLimiter) (key : string) (t : time) : tokenBucket :=
  MkBucket (refill rl (default (MkBucket (burst rl) t) (buckets rl !! key)) t) t.

Lemma allow_touched key t rl :
  allow key t (set_buckets (<[key := bucket_at rl key t]> (buckets rl)) rl) = allow key t rl.
Proof.
  unfold allow. cbn [buckets set_buckets burst]. rewrite lookup_insert_eq. cbn [default id].
  rewrite refill_still by (simpl; lia). cbn [tokens bucket_at]. unfold set_buckets. simpl.
  by destruct (f_lt _ _); rewrite insert_insert_eq.
Qed.

Lemma bucket_at_ok key t rl : lim_ok p rl -> bucket_ok p (bucket_at rl key t).
Proof.
  intros Hok. apply (refill_ok p per_minute_pos); [done|]. pose proof Hok as (_ & Eb & Hb).
  destruct (buckets rl !! key) eqn:E; [by eapply Hb|]. exists (full p). rewrite Eb.
  split; [apply full_fin, per_minute_pos|simpl; lia].
Qed.

Lemma passed_instant key t calls rl :
  lim_ok p rl -> Forall (fun c => c.2 = t) calls ->
  passed key calls (run calls rl).1 <= p /\
  (buckets rl !! key = None -> passed key calls (run calls rl).1 = Z.min p (made key calls)).
Proof.
  pose proof per_minute_pos as Hp. revert rl. induction calls as [|[key' t'] calls IH]; intros rl Hok Hc; [simpl; lia|].
  pose proof Hc as [E Hc']%Forall_cons. simpl in E. subst t'. destruct (decide (key' = key)) as [->|Hne].
  - set (rl' := set_buckets (<[key := bucket_at rl key t]> (buckets rl)) rl).
    assert (Hok' : lim_ok p rl').
    { pose proof Hok as (Er & Eb & Hb). split_and!; [done..|]. intros k b H. simpl in H.
      apply lookup_insert_Some in H as [[_ <-]|[_ H]]; [by apply bucket_at_ok|by eapply Hb]. }
    assert (Hb' : buckets rl' !! key = Some (bucket_at rl key t)) by (simpl; by rewrite lookup_insert_eq).
    assert (E : run ((key, t) :: calls) rl' = run ((key, t) :: calls) rl) by (simpl; unfold rl'; by rewrite allow_touched).
    rewrite <- E. split.
    + eapply passed_at_most; [done|done|lia|done|done|]. by apply bucket_at_ok.
    + intros Hnone. eapply passed_exactly; [done|done|lia|exact Hb'|done|]. simpl. rewrite Hnone. cbn [default].
      rewrite refill_still by (simpl; lia). by destruct Hok as (_ & -> & _).
  - pose proof (allow_ok p Hp key' t rl Hok) as Hok'. pose proof (allow_other key key' t rl Hne) as Hoth. simpl.
    rewrite !bool_decide_eq_false_2 by done. destruct (allow key' t rl) as [ok rl1]. simpl in Hok', Hoth.
    specialize (IH rl1 Hok' Hc'). rewrite Hoth in IH. destruct (run calls rl1). simpl in *. rewrite !Z.add_0_l. done.
Qed.

(** *** Eviction *)
Definition evicted (t : time) (rl rl' : rateLimiter) : Prop :=
  rate rl = rate rl' /\ burst rl = burst rl' /\ trustedProxies rl = trustedProxies rl' /\
  forall k, buckets rl !! k = buckets rl' !! k \/
    (buckets rl' !! k = None /\ exists b, buckets rl !! k = Some b /\ idle t b = true).

Lemma allow_evicted t t' key rl rl' :
  lim_ok p rl -> evicted t rl rl' -> t <= t' ->
  (allow key t' rl).1 = (allow key t' rl').1 /\ evicted t (allow key t' rl).2 (allow key t' rl').2.
Proof.
  intros Hok (Er & Eb & Et & Hs) Ht.
  assert (Hr : forall b, refill rl b t' = refill rl' b t') by (intros b; unfold refill; by rewrite Er, Eb).
  set (old := default (MkBucket (burst rl) t') (buckets rl !! key)).
  set (new := default (MkBucket (burst rl') t') (buckets rl' !! key)).
  assert (E : refill rl old t' = refill rl' new t').
  { unfold old, new. rewrite <- Eb, <- Hr. destruct (Hs key) as [->|(Hnone & b & Hb & Hi)]; [done|].
    rewrite Hnone, Hb. cbn [default id]. rewrite (refill_still rl (MkBucket _ _)) by (simpl; lia).
    eapply (refill_idle p per_minute_pos); [done| |done|done]. by eapply Hok. }
  assert (Hset : forall x, evicted t (set_buckets (<[key := x]> (buckets rl)) rl) (set_buckets (<[key := x]> (buckets rl')) rl')).
  { intros x. split_and!; [done..|]. intros k. simpl. destruct (decide (k = key)) as [->|]; [left; by rewrite !lookup_insert_eq|].
    rewrite !lookup_insert_ne by done. apply Hs. }
  unfold allow. fold old new. rewrite E. destruct (f_lt _ _); split; try done; apply Hset.
Qed.

Lemma run_evicted t calls rl rl' :
  lim_ok p rl -> evicted t rl rl' -> Forall (fun c => t <= c.2) calls -> (run calls rl).1 = (run calls rl').1.
Proof.
  revert rl rl'. induction calls as [|[key t'] calls IH]; intros rl rl' Hok Hs Hc; [done|].
  apply Forall_cons in Hc as [Ht Hc]. simpl in Ht. destruct (allow_evicted t t' key rl rl' Hok Hs Ht) as [E Hs'].
  pose proof (allow_ok p per_minute_pos key t' rl Hok) as Hok'. simpl.
  destruct (allow key t' rl) as [ok rl1], (allow key t' rl') as [ok' rl1']. simpl in *. subst ok'.
  specialize (IH rl1 rl1' Hok' Hs' Hc). destruct (run calls rl1), (run calls rl1'). simpl in *. by subst.
Qed.

Lemma evict_evicted t rl : evicted t rl (evict t rl).
Proof.
  split_and!; [done..|]. intros k. simpl. rewrite map_lookup_filter.
  destruct (buckets rl !! k) as [b|] eqn:E; simpl; [|by left].
  destruct (idle t b) eqn:Ei; [right; split; [by rewrite option_guard_False|eauto]|left; by rewrite option_guard_True].
Qed.
End calls.

(** C27: at one instant a key is let through at most the configured number of
    times.  This holds of every limiter the process can hold, whatever calls
    and evictions came before and whatever other keys are called in between;
    and a key that has no bucket is let through exactly that many times, if it
    calls that often.  The arithmetic is that of the 64-bit floats. *)
Theorem limiter_burst n trusted rl key t calls :
  per_minute n < 2 ^ 52 -> reached n trusted rl -> Forall (fun c => c.2 = t) calls ->
  passed key calls (run calls rl).1 <= per_minute n /\
  (buckets rl !! key = None -> passed key calls (run calls rl).1 = Z.min (per_minute n) (made key calls)).
Proof. intros Hn Hr Hc. apply (passed_instant n Hn key t); [|done]. by eapply reached_ok. Qed.

(** C28: evicting idle buckets changes no answer.  After a tick of the
    background cleaner, every later sequence of calls gets the answers it would
    have got without the tick: a bucket idle for ten minutes would have been
    refilled to the brim, and a forgotten key starts full. *)
Theorem eviction_unobservable n trusted rl t calls :
  per_minute n < 2 ^ 52 -> reached n trusted rl -> Forall (fun c => t <= c.2) calls ->
  (run calls (evict t rl)).1 = (run calls rl).1.
Proof.
  intros Hn Hr Hc. symmetry. eapply (run_evicted n Hn); [by eapply reached_ok|apply evict_evicted|done].
Qed.

(** ** A limiter of three calls a minute *)
Module LimiterWitness.
Definition proxies : list IPNet := [MkNet [10; 0; 0; 0] [255; 0; 0; 0]].
Definition lim0 : rateLimiter := newRateLimiter 3 proxies.
Definition burst_calls : list (string * time) := [("a|/x", 0); ("b|/x", 0); ("a|/x", 0); ("a|/x", 0); ("a|/x", 0)].
Definition lim1 : rateLimiter := (allow "a|/x" 0 lim0).2.
Definition request : Request :=
  MkReq "POST" "/api/secrets/x/open" "" "10.0.0.7:4711" [("X-Forwarded-For", "6.6.6.6, 203.0.113.9")] (MkStream "" true).

Lemma client_ip_not_forged_witness : clientIP proxies request = "203.0.113.9".
Proof.
  destruct (client_ip_not_forged proxies request) as (_ & H & _).
  rewrite (H "6.6.6.6" " 203.0.113.9"); by vm_compute.
Defined.

Lemma limiter_burst_witness : passed "a|/x" burst_calls (run burst_calls lim0).1 = 3.
Proof.
  destruct (limiter_burst 3 proxies lim0 "a|/x" 0 burst_calls) as [_ H];
    [by vm_compute|apply reached_new|by repeat constructor|].
  rewrite H; by vm_compute.
Defined.

Lemma eviction_unobservable_witness :
  buckets (evict (11 * Minute) lim1) !! "a|/x" = None /\
  (run [("a|/x", 12 * Minute)] (evict (11 * Minute) lim1)).1 = (run [("a|/x", 12 * Minute)] lim1).1.
Proof.
  split; [by vm_compute|].
  apply (eviction_unobservable 3 proxies lim1 (11 * Minute)); [by vm_compute|apply reached_allow, reached_new|].
  repeat constructor. by vm_compute.
Defined.
End LimiterWitness.
