(* ===== verification/Config.v ===== *)
(** * Configuration (src/internal/config)

    [Load] reads the environment, a function from names to values with the
    empty string for a variable that is not set.  The integers are 64-bit; the
    list of trusted proxies is parsed with the functions of package [net]. *)

From S2P Require Import Prelude GoStrings Codec World AgeFormat Http RateLimit.

(** ** Results without a world *)
Definition rbind {A B} (m : result A) (k : A -> result B) : result B :=
  match m with Ok a => k a | Err e => Err e end.
Notation "'let*' x ':=' m 'in' k" := (rbind m (fun x => k))
  (at level 10, x binder, m at level 100, k at level 200) : flick_scope.
Definition refuse_if (c : bool) (msg : string) : result unit := if c then Err (Fail msg) else Ok tt.

Lemma rbind_ok {A B} (m : result A) (k : A -> result B) b :
  rbind m k = Ok b <-> exists a, m = Ok a /\ k a = Ok b.
Proof. destruct m; simpl; [naive_solver|]. by split; [|intros (? & ? & _)]. Qed.
Lemma refuse_if_ok c msg (u : unit) : refuse_if c msg = Ok u <-> c = false.
Proof. by destruct c, u. Qed.

(** ** Package [strconv] *)

(** [strconv.ParseInt(s, 10, 64)], and [strconv.Atoi] where [int] has 64 bits:
    an optional sign and at least one digit, within the range. *)
Definition unsigned_decimal (s : string) : option Z :=
  if bool_decide (s = "") then None else decimal_value s 0.
Definition parse_int (s : string) : option Z :=
  let '(neg, digits) :=
    match s with
    | String.String a r =>
        if Ascii.eqb a (Ascii.ascii_of_nat 45) then (true, r)
        else if Ascii.eqb a (Ascii.ascii_of_nat 43) then (false, r)
        else (false, s)
    | "" => (false, s)
    end in
  v ← unsigned_decimal digits;
  let z := if neg then - v else v in
  if (- 2 ^ 63 <=? z) && (z <? 2 ^ 63) then Some z else None.

(** ** Networks *)

(** [net.CIDRMask(ones, bits)]. *)
Fixpoint cidr_bytes (ones : Z) (n : nat) : list Z :=
  match n with
  | O => []
  | S n => (if 8 <=? ones then 255 else 255 - 255 / 2 ^ Z.max 0 ones) :: cidr_bytes (ones - 8) n
  end.
Definition CIDRMask (ones bits : Z) : list Z := cidr_bytes ones (Z.to_nat (bits / 8)).

(** [ip.Mask(m)]. *)
Definition mask_ip (ip m : list Z) : option (list Z) :=
  let m := if (length m =? 16)%nat && (length ip =? 4)%nat && bool_decide (take 12 m = replicate 12 255)
           then drop 12 m else m in
  let ip := if (length m =? 4)%nat && (length ip =? 16)%nat && bool_decide (take 12 ip = replicate 10 0 ++ [255; 255])
            then drop 12 ip else ip in
  if (length ip =? length m)%nat then Some (zip_with Z.land ip m) else None.

(** [dtoi]: the digits a string starts with, below [0xFFFFFF]. *)
Definition dtoi (s : string) : option Z :=
  v ← unsigned_decimal s; if v <? 16777215 then Some v else None.

(** [net.ParseCIDR]: the network.  An address written with a dot first has 32
    bits, one written with a colon first 128. *)
Definition ParseCIDR (s : string) : option IPNet :=
  let '(addr, mask, found) := cut_on slash s in
  if negb found then None
  else
    ip ← ParseIP addr;
    let bits := if bool_decide (first_mark addr = Some true) then 32 else 128 in
    n ← dtoi mask;
    if bits <? n then None
    else let m := CIDRMask n bits in ip ← mask_ip ip m; Some (MkNet ip m).

(** [parseCIDR] of config.go. *)
Definition parseCIDR (raw : string) : result IPNet :=
  let* raw :=
    if contains_byte slash raw then Ok raw
    else match ParseIP raw with
         | None => Err (Fail "invalid IP")
         | Some ip => Ok (raw +:+ (if bool_decide (To4 ip = None) then "/128" else "/32"))
         end in
  match ParseCIDR raw with
  | None => Err (Fail "invalid CIDR")
  | Some n => Ok n
  end.

Fixpoint parse_proxies (parts : list string) : result (list IPNet) :=
  match parts with
  | [] => Ok []
  | part :: parts =>
      let trimmed := TrimSpace part in
      let* _ := refuse_if (bool_decide (trimmed = "")) "FLICK_TRUSTED_PROXIES must not contain empty entries" in
      let* cidr := parseCIDR trimmed in
      let* cidrs := parse_proxies parts in
      Ok (cidr :: cidrs)
  end.
Definition parseTrustedProxies (raw : string) : result (list IPNet) := parse_proxies (split_on comma raw).

(** ** Values of variables *)
Section env.
Context (env : string -> string).

Definition getenv (key fallback : string) : string :=
  if bool_decide (env key <> "") then env key else fallback.

Definition parsePositiveInt (name raw : string) : result Z :=
  match parse_int raw with
  | Some v => if v <=? 0 then Err (Fail (name +:+ " must be a positive integer")) else Ok v
  | None => Err (Fail (name +:+ " must be a positive integer"))
  end.
Definition parsePositiveInt64 := parsePositiveInt.

Definition envPositiveInt (name : string) (cur : Z) : result Z :=
  if bool_decide (env name = "") then Ok cur else parsePositiveInt name (env name).
Definition envPositiveInt64 (name : string) (cur : Z) : result Z :=
  if bool_decide (env name = "") then Ok cur else parsePositiveInt64 name (env name).

Definition envBool (name : string) (fallback : bool) : result bool :=
  let raw := TrimSpace (env name) in
  if bool_decide (raw = "") then Ok fallback
  else if EqualFoldASCII raw "true" then Ok true
  else if EqualFoldASCII raw "false" then Ok false
  else Err (Fail (name +:+ " must be true or false")).
End env.

(** ** The configuration *)
Record S3Config := MkS3 {
  s3_Enabled : bool;
  s3_Endpoint : string;
  s3_Region : string;
  s3_Bucket : string;
  s3_AccessKeyID : string;
  s3_SecretAccessKey : string;
  s3_PathStyle : bool;
}.

Record Config := MkConfig {
  cfg_Env : string;
  cfg_PublicBaseURL : string;
  cfg_InternalToken : string;
  cfg_MetricsToken : string;
  cfg_OTLPEndpoint : string;
  cfg_InternalAPIBaseURL : string;
  cfg_APIAddr : string;
  cfg_APIDBPath : string;
  cfg_WorkerDBPath : string;
  cfg_NATSURL : string;
  cfg_NATSStream : string;
  cfg_NATSJobSubject : string;
  cfg_PayloadInlineMaxBytes : Z;
  cfg_MaxFileBytes : Z;
  cfg_DefaultTTLSeconds : Z;
  cfg_MinTTLSeconds : Z;
  cfg_MaxTTLSeconds : Z;
  cfg_OpenRatePerMinute : Z;
  cfg_CreateRatePerMinute : Z;
  cfg_ReaperIntervalSeconds : Z;
  cfg_ReaperBatchSize : Z;
  cfg_PipeRelayEnabled : bool;
  cfg_PipeMaxConcurrent : Z;
  cfg_TrustedProxies : list IPNet;
  cfg_S3 : S3Config;
}.

Definition defaultPayloadInlineMaxBytes : Z := 1048576.
Definition defaultMaxFileBytes : Z := 268435456.
Definition defaultDefaultTTLSeconds : Z := 3600.
Definition defaultMinTTLSeconds : Z := 300.
Definition defaultMaxTTLSeconds : Z := 604800.
Definition defaultOpenRatePerMinute : Z := 10.
Definition defaultCreateRatePerMinute : Z := 5.
Definition defaultReaperIntervalSeconds : Z := 60.
Definition defaultReaperBatchSize : Z := 50.
Definition defaultPipeRelayEnabled : bool := true.
Definition defaultPipeMaxConcurrent : Z := 100.

(** The checks at the end of [Load]. *)
Definition check_config (cfg : Config) : result unit :=
  let* _ := refuse_if (cfg_MinTTLSeconds cfg <=? 0) "FLICK_MIN_TTL_SECONDS must be a positive integer" in
  let* _ := refuse_if (cfg_MaxTTLSeconds cfg <? cfg_MinTTLSeconds cfg) "FLICK_MAX_TTL_SECONDS must be >= FLICK_MIN_TTL_SECONDS" in
  let* _ := refuse_if ((cfg_DefaultTTLSeconds cfg <? cfg_MinTTLSeconds cfg) || (cfg_MaxTTLSeconds cfg <? cfg_DefaultTTLSeconds cfg))
                      "FLICK_DEFAULT_TTL_SECONDS must be within FLICK_MIN_TTL_SECONDS..FLICK_MAX_TTL_SECONDS" in
  let* _ := refuse_if (cfg_OpenRatePerMinute cfg <=? 0) "FLICK_OPEN_RATE_PER_MIN must be a positive integer" in
  let* _ := refuse_if (cfg_CreateRatePerMinute cfg <=? 0) "FLICK_CREATE_RATE_PER_MIN must be a positive integer" in
  let* _ := refuse_if (cfg_ReaperIntervalSeconds cfg <=? 0) "FLICK_REAPER_INTERVAL_SECONDS must be a positive integer" in
  let* _ := refuse_if (cfg_ReaperBatchSize cfg <=? 0) "FLICK_REAPER_BATCH_SIZE must be a positive integer" in
  let* _ := refuse_if (cfg_PipeMaxConcurrent cfg <=? 0) "FLICK_PIPE_MAX_CONCURRENT must be a positive integer" in
  if s3_Enabled (cfg_S3 cfg) then
    let* _ := refuse_if (bool_decide (s3_Bucket (cfg_S3 cfg) = "") || bool_decide (s3_Region (cfg_S3 cfg) = ""))
                        "FLICK_S3_BUCKET and FLICK_S3_REGION are required when FLICK_STORAGE_LARGE_BACKEND=s3" in
    refuse_if (bool_decide (s3_AccessKeyID (cfg_S3 cfg) = "") || bool_decide (s3_SecretAccessKey (cfg_S3 cfg) = ""))
              "FLICK_S3_ACCESS_KEY_ID and FLICK_S3_SECRET_ACCESS_KEY are required when FLICK_STORAGE_LARGE_BACKEND=s3"
  else Ok tt.

Definition Load (env : string -> string) : result Config :=
  let* pathStyle := envBool env "FLICK_S3_PATH_STYLE" true in
  let* inline := envPositiveInt64 env "FLICK_PAYLOAD_INLINE_MAX_BYTES" defaultPayloadInlineMaxBytes in
  let* _ := refuse_if (inline <? MaxCiphertextBytes 0) "FLICK_PAYLOAD_INLINE_MAX_BYTES must hold an empty age file" in
  let* maxFile := envPositiveInt64 env "FLICK_MAX_FILE_BYTES" defaultMaxFileBytes in
  let* defaultTTL := envPositiveInt env "FLICK_DEFAULT_TTL_SECONDS" defaultDefaultTTLSeconds in
  let* minTTL := envPositiveInt env "FLICK_MIN_TTL_SECONDS" defaultMinTTLSeconds in
  let* maxTTL := envPositiveInt env "FLICK_MAX_TTL_SECONDS" defaultMaxTTLSeconds in
  let* openRate := envPositiveInt env "FLICK_OPEN_RATE_PER_MIN" defaultOpenRatePerMinute in
  let* createRate := envPositiveInt env "FLICK_CREATE_RATE_PER_MIN" defaultCreateRatePerMinute in
  let* interval := envPositiveInt env "FLICK_REAPER_INTERVAL_SECONDS" defaultReaperIntervalSeconds in
  let* batch := envPositiveInt env "FLICK_REAPER_BATCH_SIZE" defaultReaperBatchSize in
  let* relay := envBool env "FLICK_PIPE_RELAY_ENABLED" defaultPipeRelayEnabled in
  let* pipes := envPositiveInt env "FLICK_PIPE_MAX_CONCURRENT" defaultPipeMaxConcurrent in
  let* proxies := if bool_decide (env "FLICK_TRUSTED_PROXIES" <> "")
                  then parseTrustedProxies (env "FLICK_TRUSTED_PROXIES") else Ok [] in
  let cfg := {|
    cfg_Env := getenv env "FLICK_ENV" "development";
    cfg_PublicBaseURL := getenv env "FLICK_PUBLIC_BASE_URL" "http://localhost:5173";
    cfg_InternalToken := getenv env "FLICK_INTERNAL_TOKEN" "";
    cfg_MetricsToken := getenv env "FLICK_METRICS_TOKEN" "";
    cfg_OTLPEndpoint := getenv env "FLICK_OTLP_ENDPOINT" "";
    cfg_InternalAPIBaseURL := getenv env "FLICK_INTERNAL_API_BASE_URL" "http://localhost:8080";
    cfg_APIAddr := getenv env "FLICK_API_ADDR" ":8080";
    cfg_APIDBPath := getenv env "FLICK_API_DB_PATH" "./var/api.db";
    cfg_WorkerDBPath := getenv env "FLICK_WORKER_DB_PATH" "./var/worker.db";
    cfg_NATSURL := getenv env "FLICK_NATS_URL" "nats://127.0.0.1:4222";
    cfg_NATSStream := getenv env "FLICK_NATS_STREAM" "FLICK_JOBS";
    cfg_NATSJobSubject := getenv env "FLICK_NATS_JOB_SUBJECT" "flick.jobs";
    cfg_PayloadInlineMaxBytes := inline;
    cfg_MaxFileBytes := maxFile;
    cfg_DefaultTTLSeconds := defaultTTL;
    cfg_MinTTLSeconds := minTTL;
    cfg_MaxTTLSeconds := maxTTL;
    cfg_OpenRatePerMinute := openRate;
    cfg_CreateRatePerMinute := createRate;
    cfg_ReaperIntervalSeconds := interval;
    cfg_ReaperBatchSize := batch;
    cfg_PipeRelayEnabled := relay;
    cfg_PipeMaxConcurrent := pipes;
    cfg_TrustedProxies := proxies;
    cfg_S3 := {|
      s3_Enabled := bool_decide (getenv env "FLICK_STORAGE_LARGE_BACKEND" "disabled" = "s3");
      s3_Endpoint := getenv env "FLICK_S3_ENDPOINT" "";
      s3_Region := getenv env "FLICK_S3_REGION" "us-east-1";
      s3_Bucket := getenv env "FLICK_S3_BUCKET" "";
      s3_AccessKeyID := getenv env "FLICK_S3_ACCESS_KEY_ID" "";
      s3_SecretAccessKey := getenv env "FLICK_S3_SECRET_ACCESS_KEY" "";
      s3_PathStyle := pathStyle |} |} in
  let* _ := check_config cfg in
  Ok cfg.

(** The limits [GET /api/config] advertises; [None] when the loop of
    [MaxPlaintextBytes] runs out of fuel. *)
Definition EffectivePayloadInlineMaxBytes (fuel : nat) (c : Config) : option Z :=
  MaxPlaintextBytes fuel (cfg_PayloadInlineMaxBytes c).
Definition EffectiveMaxFileBytes (fuel : nat) (c : Config) : option Z :=
  inline ← EffectivePayloadInlineMaxBytes fuel c;
  Some (if negb (s3_Enabled (cfg_S3 c)) && (inline <? cfg_MaxFileBytes c) then inline else cfg_MaxFileBytes c).
