(* ===== verification/ConfigProofs.v ===== *)
(** * What a loaded configuration guarantees

    The values [Load] accepts, that the limits it advertises are exact, and
    which peers an entry of [FLICK_TRUSTED_PROXIES] trusts. *)

From S2P Require Import Prelude GoStrings Codec World AgeFormat Http RateLimit Config.

(** ** Variables *)
Lemma parse_int_range s v : parse_int s = Some v -> - 2 ^ 63 <= v < 2 ^ 63.
Proof.
  unfold parse_int. destruct (match s with "" => _ | String.String _ _ => _ end) as [neg digits].
  destruct (unsigned_decimal digits) as [u|]; simpl; [|done]. destruct (_ && _) eqn:E; [|done].
  intros [= <-]. destruct_bools. lia.
Qed.

Lemma parsePositiveInt_ok name raw v : parsePositiveInt name raw = Ok v -> 0 < v < 2 ^ 63.
Proof.
  unfold parsePositiveInt. destruct (parse_int raw) as [u|] eqn:E; [|done]. apply parse_int_range in E.
  destruct (u <=? 0) eqn:Hu; [done|]. intros [= <-]. destruct_bools. lia.
Qed.

Lemma envPositiveInt_ok env name cur v :
  0 < cur < 2 ^ 63 -> envPositiveInt env name cur = Ok v -> 0 < v < 2 ^ 63.
Proof. intros Hc. unfold envPositiveInt. case_bool_decide; [by intros [= <-]|apply parsePositiveInt_ok]. Qed.

(** ** Valid configurations *)
Record valid_config (c : Config) : Prop := {
  vc_inline : MaxCiphertextBytes 0 <= cfg_PayloadInlineMaxBytes c < 2 ^ 63;
  vc_max_file : 0 < cfg_MaxFileBytes c < 2 ^ 63;
  vc_ttl : 0 < cfg_MinTTLSeconds c <= cfg_DefaultTTLSeconds c /\
           cfg_DefaultTTLSeconds c <= cfg_MaxTTLSeconds c < 2 ^ 63;
  vc_rates : 0 < cfg_OpenRatePerMinute c < 2 ^ 63 /\ 0 < cfg_CreateRatePerMinute c < 2 ^ 63;
  vc_reaper : 0 < cfg_ReaperIntervalSeconds c < 2 ^ 63 /\ 0 < cfg_ReaperBatchSize c < 2 ^ 63;
  vc_pipes : 0 < cfg_PipeMaxConcurrent c < 2 ^ 63;
  vc_s3 : s3_Enabled (cfg_S3 c) = true ->
    s3_Bucket (cfg_S3 c) <> "" /\ s3_Region (cfg_S3 c) <> "" /\
    s3_AccessKeyID (cfg_S3 c) <> "" /\ s3_SecretAccessKey (cfg_S3 c) <> "";
}.

Ltac load_inv :=
  repeat match goal with
  | H : rbind _ _ = Ok _ |- _ => apply rbind_ok in H as (? & ? & ?)
  | H : refuse_if _ _ = Ok _ |- _ => apply refuse_if_ok in H
  | H : envPositiveInt _ _ _ = Ok _ |- _ => apply envPositiveInt_ok in H; [|by vm_compute]
  | H : envPositiveInt64 _ _ _ = Ok _ |- _ => apply envPositiveInt_ok in H; [|by vm_compute]
  end.

Lemma check_config_s3 (c : Config) (u : unit) :
  check_config c = Ok u -> s3_Enabled (cfg_S3 c) = true ->
  s3_Bucket (cfg_S3 c) <> "" /\ s3_Region (cfg_S3 c) <> "" /\
  s3_AccessKeyID (cfg_S3 c) <> "" /\ s3_SecretAccessKey (cfg_S3 c) <> "".
Proof.
  unfold check_config. intros H He. load_inv. rewrite He in *. load_inv. by destruct_bools.
Qed.

Lemma Load_valid env cfg : Load env = Ok cfg -> valid_config cfg.
Proof.
  unfold Load. intros H. load_inv.
  match goal with H : check_config _ = Ok _ |- _ => pose proof (check_config_s3 _ _ H) as Hs3; unfold check_config in H end.
  load_inv. simplify_eq/=. destruct_bools. constructor; simpl; try lia. exact Hs3.
Qed.

(** What main names is named. *)
Lemma getenv_named env key fallback : fallback <> "" -> getenv env key fallback <> "".
Proof. intros H. unfold getenv. by case_bool_decide. Qed.

Lemma Load_named env cfg : Load env = Ok cfg ->
  cfg_APIDBPath cfg <> "" /\ cfg_WorkerDBPath cfg <> "" /\ cfg_NATSURL cfg <> "" /\ cfg_NATSStream cfg <> "" /\
  cfg_NATSJobSubject cfg <> "" /\ cfg_InternalAPIBaseURL cfg <> "".
Proof.
  unfold Load. intros H. load_inv. simplify_eq/=. split_and!; by apply getenv_named.
Qed.

(** A configuration that loads is usable: every limit, rate and interval is
    positive and fits 64 bits, the lifetimes are ordered, an enabled bucket is
    fully specified; and the limits the service advertises are exact. *)
Theorem loaded_limits_exact (env : string -> string) (cfg : Config) (fuel : nat) :
  Load env = Ok cfg ->
  cfg_PayloadInlineMaxBytes cfg < max_exact - 1 ->
  cfg_PayloadInlineMaxBytes cfg / 2 ^ 20 + 65 <= Z.of_nat fuel ->
  valid_config cfg /\
  exists inline most, EffectivePayloadInlineMaxBytes fuel cfg = Some inline /\
    EffectiveMaxFileBytes fuel cfg = Some most /\
    (forall n, 0 <= n <= max_exact ->
       (MaxCiphertextBytes n <= cfg_PayloadInlineMaxBytes cfg <-> n <= inline)) /\
    most <= cfg_MaxFileBytes cfg /\
    (s3_Enabled (cfg_S3 cfg) = true -> most = cfg_MaxFileBytes cfg) /\
    (s3_Enabled (cfg_S3 cfg) = false -> most = Z.min inline (cfg_MaxFileBytes cfg)).
Proof.
  intros Hl Hlim Hf. pose proof (Load_valid _ _ Hl) as V. split; [done|].
  assert (0 <= MaxCiphertextBytes 0) by by vm_compute.
  destruct (max_plaintext_bound (cfg_PayloadInlineMaxBytes cfg) fuel) as (n & En & Hn & _ & Hfit);
    [destruct V; lia|done|].
  exists n, (if negb (s3_Enabled (cfg_S3 cfg)) && (n <? cfg_MaxFileBytes cfg) then n else cfg_MaxFileBytes cfg).
  unfold EffectiveMaxFileBytes, EffectivePayloadInlineMaxBytes. rewrite En. simpl.
  split_and!; [done|done|apply Hfit; apply V|..]; destruct (s3_Enabled _), (Z.ltb_spec n (cfg_MaxFileBytes cfg)); simpl; try done; lia.
Qed.

(** ** Addresses *)
Abbreviation is_byte z := (0 <= z < 256) (only parsing).
Definition address (ip : IP) : Prop := length ip = 16%nat /\ Forall (fun b => 0 <= b < 256) ip.

Lemma land_255 (b : Z) : 0 <= b < 256 -> Z.land b 255 = b.
Proof. intros. change 255 with (Z.ones 8). rewrite Z.land_ones by lia. apply Z.mod_small. lia. Qed.

Lemma zip_land_255 (l : list Z) : Forall (fun b => 0 <= b < 256) l ->
  zip_with Z.land l (replicate (length l) 255) = l.
Proof. induction 1 as [|b l Hb _ IH]; simpl; [done|]. by rewrite land_255, IH. Qed.

Lemma decimal_value_nonneg s acc v : 0 <= acc -> decimal_value s acc = Some v -> 0 <= v.
Proof.
  revert acc. induction s as [|a s IH]; simpl; intros acc Ha; [by intros [= <-]|].
  destruct (_ && _) eqn:E; [|done]. destruct_bools. apply IH. lia.
Qed.

Lemma v4_field_byte s v : v4_field s = Some v -> 0 <= v < 256.
Proof.
  unfold v4_field. destruct (_ || _ || _); [done|]. destruct (decimal_value s 0) as [u|] eqn:E; simpl; [|done].
  apply decimal_value_nonneg in E; [|lia]. destruct (u <=? 255) eqn:Hu; [|done]. intros [= <-]. destruct_bools. lia.
Qed.

Lemma parseIPv4Fields_bytes s l : parseIPv4Fields s = Some l -> length l = 4%nat /\ Forall (fun b => 0 <= b < 256) l.
Proof.
  unfold parseIPv4Fields. destruct (split_on _ s) as [|a [|b [|c [|d [|]]]]]; try done.
  destruct (v4_field a) eqn:Ea, (v4_field b) eqn:Eb, (v4_field c) eqn:Ec, (v4_field d) eqn:Ed; simpl; try done.
  intros [= <-]. split; [done|]. repeat constructor; by eapply v4_field_byte.
Qed.

Lemma hex_value_range a v : hex_value a = Some v -> 0 <= v < 16.
Proof.
  unfold hex_value. generalize (byte_val a) as x. intros x H.
  destruct (Z.leb_spec 48 x), (Z.leb_spec x 57), (Z.leb_spec 97 x), (Z.leb_spec x 102), (Z.leb_spec 65 x), (Z.leb_spec x 70);
    simpl in H; (injection H as <-; lia) || lia || discriminate H.
Qed.

Lemma hex_group_range s n acc rest : hex_group s = (n, acc, rest) -> 0 <= acc < 16 ^ Z.of_nat n.
Proof.
  revert n acc rest. induction s as [|a s IH]; simpl; intros n acc rest; [by intros [= <- <- <-]|].
  destruct (hex_value a) as [v|] eqn:E; [|by intros [= <- <- <-]]. apply hex_value_range in E.
  destruct (hex_group s) as [[k x] r]. specialize (IH k x r eq_refl). intros [= <- <- _].
  rewrite Nat2Z.inj_succ, Z.pow_succ_r by lia. nia.
Qed.

Lemma group_pair n acc : (n <= 4)%nat -> 0 <= acc < 16 ^ Z.of_nat n ->
  Forall (fun b => 0 <= b < 256) [acc / 256; acc mod 256].
Proof.
  intros Hn Ha. assert (16 ^ Z.of_nat n <= 65536) by (change 65536 with (16 ^ 4); apply Z.pow_le_mono_r; lia).
  repeat constructor; [apply Z.div_pos; lia|apply Z.div_lt_upper_bound; lia|apply Z.mod_pos_bound; lia..].
Qed.

Lemma parse_groups_bytes fuel : forall s ip e ip' e' rest,
  Forall (fun b => 0 <= b < 256) ip -> parse_groups fuel s ip e = Some (ip', e', rest) ->
  Forall (fun b => 0 <= b < 256) ip'.
Proof.
  induction fuel as [|fuel IH]; intros s ip e ip' e' rest Hip; [done|]. cbn [parse_groups].
  destruct (16 <=? length ip)%nat; [by intros [= <- _ _]|].
  destruct (hex_group s) as [[n acc] r] eqn:Eg. apply hex_group_range in Eg.
  destruct ((4 <? n)%nat || (n =? 0)%nat) eqn:En; [done|]. apply orb_false_iff in En as [En _]. apply Nat.ltb_ge in En.
  pose proof (group_pair n acc En Eg) as Hp.
  assert (Happ : Forall (fun b => 0 <= b < 256) (ip ++ [acc / 256; acc mod 256])) by (apply Forall_app; auto).
  destruct r as [|c r]; [by intros [= <- _ _]|]. destruct (Ascii.eqb c dot).
  { destruct (_ || _); [done|]. destruct (parseIPv4Fields s) as [v4|] eqn:E4; simpl; [|done].
    intros [= <- _ _]. apply Forall_app. split; [done|]. by apply (parseIPv4Fields_bytes s). }
  destruct (negb _); [done|]. destruct r as [|c2 r2]; [done|]. destruct (Ascii.eqb c2 colon); [|by apply IH].
  case_bool_decide; [done|]. case_bool_decide; [by intros [= <- _ _]|by apply IH].
Qed.

Lemma parseIPv6_address s ip : parseIPv6 s = Some ip -> address ip.
Proof.
  unfold parseIPv6. destruct (if has_prefix "::" s then _ else _) as [s' e].
  destruct (_ && _). { intros [= <-]. split; [done|]. apply (Forall_replicate _ 16). lia. }
  destruct (parse_groups 9 s' [] e) as [[[l e'] rest]|] eqn:E; [|done]. case_bool_decide; [|done].
  apply parse_groups_bytes in E; [|constructor]. unfold expand. destruct e' as [k|].
  - destruct (Nat.ltb_spec (length l) 16) as [Hl|]; [|done]. intros [= <-]. split.
    + rewrite !length_app, length_replicate, length_take, length_drop. lia.
    + rewrite !Forall_app. split_and!; [by apply Forall_take|apply Forall_replicate; lia|by apply Forall_drop].
  - destruct (Nat.eqb_spec (length l) 16); [|done]. by intros [= <-].
Qed.

Lemma v4_in_v6_address l : length l = 4%nat -> Forall (fun b => 0 <= b < 256) l -> address (v4_in_v6 l).
Proof.
  intros Hl Hb. split; [simpl; lia|]. unfold v4_in_v6. rewrite !Forall_app. split_and!; [apply Forall_replicate; lia| |done].
  repeat constructor; lia.
Qed.

Lemma ParseIP_address s ip : ParseIP s = Some ip -> address ip.
Proof.
  unfold ParseIP. destruct (contains_byte _ s); [done|]. destruct (first_mark s) as [[]|]; [|apply parseIPv6_address|done].
  destruct (parseIPv4Fields s) as [l|] eqn:E; simpl; [|done]. intros [= <-].
  apply parseIPv4Fields_bytes in E as [??]. by apply v4_in_v6_address.
Qed.

(** An address is the 4-byte form [To4] finds, or has none. *)
Lemma To4_spec ip l : length ip = 16%nat -> To4 ip = Some l <-> ip = v4_in_v6 l /\ length l = 4%nat.
Proof.
  intros Hl. unfold To4. rewrite Hl. simpl. split.
  - case_bool_decide as Ht; [|done]. intros [= <-]. rewrite length_drop, Hl. split; [|done].
    transitivity (take 12 ip ++ drop 12 ip); [by rewrite take_drop|]. by rewrite Ht.
  - intros [-> Hl4]. rewrite bool_decide_true by done. done.
Qed.

Lemma cut_on_app c s t : contains_byte c s = false -> cut_on c (s +:+ String.String c t) = (s, t, true).
Proof.
  induction s as [|a s IH]; simpl; [by rewrite Ascii.eqb_refl|]. intros [Ha Hs]%orb_false_iff.
  by rewrite Ha, IH.
Qed.

Lemma parseCIDR_bare s ip : contains_byte slash s = false -> ParseIP s = Some ip ->
  parseCIDR s = match ParseCIDR (s +:+ (if bool_decide (To4 ip = None) then "/128" else "/32")) with
                | None => Err (Fail "invalid CIDR") | Some n => Ok n end.
Proof. intros Hs Hip. unfold parseCIDR. by rewrite Hs, Hip. Qed.

Lemma ParseCIDR_bare s ip bits (b : Z) :
  contains_byte slash s = false -> ParseIP s = Some ip -> dtoi bits = Some b ->
  ParseCIDR (s +:+ String.String slash bits) =
    (let w := if bool_decide (first_mark s = Some true) then 32 else 128 in
     if w <? b then None else let m := CIDRMask b w in ip ← mask_ip ip m; Some (MkNet ip m)).
Proof. intros Hs Hip Hb. unfold ParseCIDR. rewrite cut_on_app by done. simpl. by rewrite Hip, Hb. Qed.

Definition single (ip : IP) : IPNet :=
  match To4 ip with
  | Some l => MkNet l (replicate 4 255)
  | None => MkNet ip (replicate 16 255)
  end.

Lemma length4_inv {A} (l : list A) : length l = 4%nat -> exists a b c d, l = [a; b; c; d].
Proof. destruct l as [|a [|b [|c [|d [|]]]]]; try done. by exists a, b, c, d. Qed.

Lemma masked_255 (a b : list Z) (n : nat) :
  length a = n -> length b = n -> Forall (fun b => 0 <= b < 256) a -> Forall (fun b => 0 <= b < 256) b ->
  masked_eq a b (replicate n 255) = bool_decide (a = b).
Proof.
  intros <- Hb Fa Fb. unfold masked_eq. rewrite zip_land_255 by done. rewrite <-Hb. by rewrite zip_land_255.
Qed.

Lemma number_v4 l : length l = 4%nat -> networkNumberAndMask (MkNet l (replicate 4 255)) = Some (l, replicate 4 255).
Proof. intros (a & b & c & d & ->)%length4_inv. done. Qed.
Lemma number_v6 ip : length ip = 16%nat -> To4 ip = None ->
  networkNumberAndMask (MkNet ip (replicate 16 255)) = Some (ip, replicate 16 255).
Proof. intros Hl E. unfold networkNumberAndMask. simpl net_IP. rewrite E, Hl. simpl. by rewrite Hl. Qed.

Lemma v4_in_v6_bytes l : Forall (fun b => 0 <= b < 256) (v4_in_v6 l) -> Forall (fun b => 0 <= b < 256) l.
Proof. unfold v4_in_v6. rewrite !Forall_app. tauto. Qed.

Lemma single_contains ip ip' : address ip -> address ip' -> Contains (single ip) ip' = true <-> ip' = ip.
Proof.
  intros [Hl Hb] [Hl' Hb']. unfold single, Contains. destruct (To4 ip) as [l|] eqn:E, (To4 ip') as [l'|] eqn:E'.
  - apply To4_spec in E as [-> H4]; [|done]. apply To4_spec in E' as [-> H4']; [|done]. rewrite number_v4 by done.
    rewrite masked_255 by auto using v4_in_v6_bytes. rewrite H4, H4'. simpl. rewrite bool_decide_eq_true.
    unfold v4_in_v6. split; [by intros ->|]. intros H. by simplify_eq/=.
  - apply To4_spec in E as [-> H4]; [|done]. rewrite number_v4 by done. rewrite H4, Hl'. simpl. split; [done|].
    intros ->. by rewrite (proj2 (To4_spec _ l Hl')) in E'.
  - apply To4_spec in E' as [-> H4']; [|done]. rewrite number_v6 by done. rewrite H4', Hl. simpl. split; [done|].
    intros <-. by rewrite (proj2 (To4_spec _ l' Hl)) in E.
  - rewrite number_v6 by done. rewrite masked_255 by done. rewrite Hl, Hl'. simpl. rewrite bool_decide_eq_true. naive_solver.
Qed.

(** A bare address trusts exactly the peer with that address. *)
Theorem trusted_proxy_exact (s : string) (ip : IP) :
  contains_byte slash s = false -> ParseIP s = Some ip -> (To4 ip = None \/ first_mark s = Some true) ->
  parseCIDR s = Ok (single ip) /\
  forall peer, address peer -> (Contains (single ip) peer = true <-> peer = ip).
Proof.
  intros Hs Hip Hform. pose proof (ParseIP_address _ _ Hip) as Ha. split; [|intros; by apply single_contains].
  rewrite (parseCIDR_bare s ip) by done. unfold single. destruct (To4 ip) as [l|] eqn:E.
  - destruct Hform as [|Hm]; [done|]. rewrite bool_decide_false by done.
    change "/32" with (String.String slash "32"). rewrite (ParseCIDR_bare s ip "32" 32) by done. rewrite bool_decide_true by done.
    destruct Ha as [Hl Hb]. apply To4_spec in E as [-> H4]; [|done]. apply v4_in_v6_bytes in Hb.
    assert (Em : mask_ip (v4_in_v6 l) (CIDRMask 32 32) = Some (zip_with Z.land l (replicate (length l) 255))).
    { destruct (length4_inv l H4) as (a & b & c & d & ->). done. }
    cbn zeta. change (32 <? 32) with false. cbn match. rewrite Em, zip_land_255 by done. done.
  - rewrite bool_decide_true by done. change "/128" with (String.String slash "128"). rewrite (ParseCIDR_bare s ip "128" 128) by done.
    assert (Hm : first_mark s <> Some true).
    { intros Hm. unfold ParseIP in Hip. rewrite Hm in Hip. destruct (contains_byte (Ascii.ascii_of_nat 37) s); [done|].
      destruct (parseIPv4Fields s) as [l|] eqn:E4; [|done]. simpl in Hip. injection Hip as <-.
      apply parseIPv4Fields_bytes in E4 as [H4 _]. destruct Ha as [Hl _]. by rewrite (proj2 (To4_spec _ l Hl)) in E. }
    rewrite bool_decide_false by done. destruct Ha as [Hl Hb].
    assert (Em : mask_ip ip (CIDRMask 128 128) = Some (zip_with Z.land ip (replicate (length ip) 255))).
    { unfold mask_ip. rewrite Hl. simpl. by rewrite Hl. }
    cbn zeta. change (128 <? 128) with false. cbn match. rewrite Em, zip_land_255 by done. done.
Qed.

(** An IPv4 address written in its IPv6 form gets the prefix length of the
    IPv4 form: the entry is the network [::/32], which has not the address
    itself, and has the loopback address. *)
Theorem mapped_proxy_misread (s : string) (ip : IP) :
  contains_byte slash s = false -> ParseIP s = Some ip -> To4 ip <> None -> first_mark s = Some false ->
  exists n, parseCIDR s = Ok n /\ Contains n ip = false /\ Contains n (replicate 15 0 ++ [1]) = true.
Proof.
  intros Hs Hip Hf Hm. pose proof (ParseIP_address _ _ Hip) as [Hl _].
  rewrite (parseCIDR_bare s ip), bool_decide_false by done.
  change "/32" with (String.String slash "32"). rewrite (ParseCIDR_bare s ip "32" 32) by done.
  rewrite bool_decide_false by (rewrite Hm; done).
  destruct (To4 ip) as [l|] eqn:E; [|done]. apply To4_spec in E as [-> H4]; [|done].
  destruct (length4_inv l H4) as (a & b & c & d & ->).
  exists (MkNet (replicate 16 0) (CIDRMask 32 128)). split; [|by vm_compute].
  cbn zeta. change (128 <? 32) with false. cbn match.
  assert (Em : mask_ip (v4_in_v6 [a; b; c; d]) (CIDRMask 32 128) =
    Some (replicate 12 0 ++ [Z.land a 0; Z.land b 0; Z.land c 0; Z.land d 0])) by reflexivity.
  rewrite Em. by rewrite !Z.land_0_r.
Qed.

(** ** The theorems at work *)
Module ConfigWitness.

Definition env0 (name : string) : string :=
  if bool_decide (name = "FLICK_TRUSTED_PROXIES") then "10.0.0.0/8, ::1"
  else if bool_decide (name = "FLICK_PIPE_RELAY_ENABLED") then " False " else "".

Lemma loaded_limits_exact_witness : exists cfg,
  Load env0 = Ok cfg /\ valid_config cfg /\ length (cfg_TrustedProxies cfg) = 2%nat /\ cfg_PipeRelayEnabled cfg = false /\
  EffectiveMaxFileBytes 66 cfg = EffectivePayloadInlineMaxBytes 66 cfg.
Proof.
  destruct (Load env0) as [cfg|] eqn:E; [|by vm_compute in E]. exists cfg.
  destruct (loaded_limits_exact env0 cfg 66 E) as (V & i & m & Ei & Em & _ & _ & _ & Hm);
    [by vm_compute in E; injection E as <-..|].
  split; [done|]. split; [done|]. vm_compute in E. injection E as <-. done.
Defined.

Lemma trusted_proxy_exact_witness : exists n,
  parseCIDR "10.1.2.3" = Ok n /\ Contains n (v4_in_v6 [10; 1; 2; 3]) = true /\ Contains n (v4_in_v6 [10; 1; 2; 4]) = false.
Proof.
  destruct (trusted_proxy_exact "10.1.2.3" (v4_in_v6 [10; 1; 2; 3])) as [E H]; [done|done|by right|].
  exists (single (v4_in_v6 [10; 1; 2; 3])). split; [exact E|]. split.
  - apply H; [|done]. apply v4_in_v6_address; [done|]. repeat constructor; lia.
  - by vm_compute.
Defined.

Lemma mapped_proxy_misread_witness : exists n,
  parseCIDR "::ffff:10.1.2.3" = Ok n /\ Contains n (v4_in_v6 [10; 1; 2; 3]) = false.
Proof.
  destruct (mapped_proxy_misread "::ffff:10.1.2.3" (v4_in_v6 [10; 1; 2; 3])) as (n & E & H & _); [done|done|done|done|].
  exists n. by split.
Defined.

End ConfigWitness.
