(* ===== verification/Json.v ===== *)
(** * JSON as package [encoding/json] reads and writes it

    [print] is the encoder, with its escapes for HTML; [parse] is the scanner
    and decoder of one value, which leaves the rest of the input.  A number
    keeps its text.  The decoder nests at most [maxNestingDepth] deep and reads
    invalid UTF-8 as the replacement character. *)

From S2P Require Import Prelude GoStrings Codec.
From stdpp Require Import pretty.
#[local] Open Scope Z_scope.

Module Json.

Definition char (z : Z) (s : string) : string := String.String (byte_of z) s.

(** ** UTF-8

    The width of the rune a string starts with, and 0 when it starts with none
    ([utf8.DecodeRuneInString] gives [RuneError] and width 1). *)
Definition cont_byte (c : Ascii.ascii) (lo hi : Z) : bool := (lo <=? byte_val c) && (byte_val c <=? hi).
Definition rune_width (s : string) : nat :=
  match s with
  | "" => 0%nat
  | String.String a r =>
      let x := byte_val a in
      if x <? 128 then 1%nat
      else if (194 <=? x) && (x <=? 223) then
        match r with String.String b _ => if cont_byte b 128 191 then 2%nat else 0%nat | _ => 0%nat end
      else if (224 <=? x) && (x <=? 239) then
        match r with
        | String.String b (String.String c _) =>
            if cont_byte b (if x =? 224 then 160 else 128) (if x =? 237 then 159 else 191) && cont_byte c 128 191 then 3%nat else 0%nat
        | _ => 0%nat
        end
      else if (240 <=? x) && (x <=? 244) then
        match r with
        | String.String b (String.String c (String.String d _)) =>
            if cont_byte b (if x =? 240 then 144 else 128) (if x =? 244 then 143 else 191) &&
               cont_byte c 128 191 && cont_byte d 128 191 then 4%nat else 0%nat
        | _ => 0%nat
        end
      else 0%nat
  end.

(** The first bytes of a string. *)
Definition bytes (n : nat) (s : string) : string := String.substring 0 n s.

(** [utf8.ValidString], and the string with what is not UTF-8 replaced. *)
Fixpoint valid_scan (fuel : nat) (s : string) : bool :=
  match fuel, s with
  | _, "" => true
  | O, _ => false
  | S fuel, _ => match rune_width s with O => false | n => valid_scan fuel (drop_bytes n s) end
  end.
Definition utf8_valid (s : string) : bool := valid_scan (String.length s) s.

Definition replacement : string := char 239 (char 191 (char 189 "")).
Fixpoint to_valid_scan (fuel : nat) (s : string) : string :=
  match fuel, s with
  | S fuel, String.String _ r =>
      match rune_width s with
      | O => replacement +:+ to_valid_scan fuel r
      | n => bytes n s +:+ to_valid_scan fuel (drop_bytes n s)
      end
  | _, _ => ""
  end.
Definition to_valid (s : string) : string := to_valid_scan (String.length s) s.

(** [utf8.AppendRune] of a code point. *)
Definition utf8_encode (x : Z) : string :=
  if x <? 128 then char x ""
  else if x <? 2048 then char (192 + x / 64) (char (128 + x mod 64) "")
  else if x <? 65536 then char (224 + x / 4096) (char (128 + x / 64 mod 64) (char (128 + x mod 64) ""))
  else char (240 + x / 262144) (char (128 + x / 4096 mod 64) (char (128 + x / 64 mod 64) (char (128 + x mod 64) ""))).

(** ** Values *)
Inductive value :=
  | VNull
  | VBool (b : bool)
  | VNumber (literal : string)
  | VString (s : string)
  | VArray (l : list value)
  | VObject (members : list (string * value)).

(** ** Writing *)
Definition lower_hex (v : Z) : Ascii.ascii := byte_of (if v <? 10 then 48 + v else 87 + v).

(** A byte below 128. *)
Definition escape_ascii (c : Ascii.ascii) : string :=
  let x := byte_val c in
  if (x =? 34) || (x =? 92) then char 92 (char x "")
  else if x =? 8 then "\b"
  else if x =? 12 then "\f"
  else if x =? 10 then "\n"
  else if x =? 13 then "\r"
  else if x =? 9 then "\t"
  else if (x <? 32) || (x =? 60) || (x =? 62) || (x =? 38) then
    "\u00" +:+ String.String (lower_hex (x / 16)) (String.String (lower_hex (x mod 16)) "")
  else String.String c "".

(** The rune of [n] bytes a string starts with. *)
Definition escape_rune (n : nat) (s : string) : string :=
  let rune := bytes n s in
  if bool_decide (rune = char 226 (char 128 (char 168 ""))) then "\u2028"
  else if bool_decide (rune = char 226 (char 128 (char 169 ""))) then "\u2029"
  else rune.

Fixpoint escape_scan (fuel : nat) (s : string) : string :=
  match fuel, s with
  | S fuel, String.String c r =>
      match rune_width s with
      | O => "\ufffd" +:+ escape_scan fuel r
      | S O => escape_ascii c +:+ escape_scan fuel r
      | n => escape_rune n s +:+ escape_scan fuel (drop_bytes n s)
      end
  | _, _ => ""
  end.
Definition escape (s : string) : string := escape_scan (String.length s) s.
Definition quoted (s : string) : string := char 34 (escape s +:+ char 34 "").

Fixpoint print (v : value) : string :=
  match v with
  | VNull => "null"
  | VBool b => if b then "true" else "false"
  | VNumber n => n
  | VString s => quoted s
  | VArray l => "[" +:+ String.concat "," (map print l) +:+ "]"
  | VObject ms => "{" +:+ String.concat "," (map (fun m => quoted m.1 +:+ ":" +:+ print m.2) ms) +:+ "}"
  end.

(** An integer. *)
Definition VInt (z : Z) : value := VNumber (pretty z).

(** ** Reading *)
Definition is_space (c : Ascii.ascii) : bool :=
  let x := byte_val c in (x =? 32) || (x =? 9) || (x =? 10) || (x =? 13).
Fixpoint skip_space (s : string) : string :=
  match s with String.String c r => if is_space c then skip_space r else s | "" => "" end.

Definition hex_digit (c : Ascii.ascii) : option Z :=
  let x := byte_val c in
  if (48 <=? x) && (x <=? 57) then Some (x - 48)
  else if (97 <=? x) && (x <=? 102) then Some (x - 87)
  else if (65 <=? x) && (x <=? 70) then Some (x - 55)
  else None.
(** [getu4] after [\u]. *)
Definition hex4 (a b c d : Ascii.ascii) : option Z :=
  x ← hex_digit a; y ← hex_digit b; z ← hex_digit c; w ← hex_digit d;
  Some (4096 * x + 256 * y + 16 * z + w).
Definition surrogate (x : Z) : bool := (55296 <=? x) && (x <? 57344).

(** The byte of an escape of one letter. *)
Definition simple_escape (c : Ascii.ascii) : option string :=
  let x := byte_val c in
  if (x =? 34) || (x =? 92) || (x =? 47) then Some (String.String c "")
  else if x =? 98 then Some (char 8 "")
  else if x =? 102 then Some (char 12 "")
  else if x =? 110 then Some (char 10 "")
  else if x =? 114 then Some (char 13 "")
  else if x =? 116 then Some (char 9 "")
  else None.

(** A low surrogate's escape at the start of a string. *)
Definition low_surrogate (s : string) : option Z :=
  match s with
  | String.String b (String.String u (String.String a1 (String.String a2 (String.String a3 (String.String a4 _))))) =>
      if (byte_val b =? 92) && (byte_val u =? 117) then
        x ← hex4 a1 a2 a3 a4; if (56320 <=? x) && (x <? 57344) then Some x else None
      else None
  | _ => None
  end.

(** The bytes of a string up to its closing quote.  The second half of a pair
    of surrogates is read with the first, and skipped when it is reached:
    [skip] is how many bytes of it are left. *)
Fixpoint unescape (skip : nat) (s : string) : option (string * string) :=
  match s with
  | "" => None
  | String.String c r =>
      match skip with
      | S skip => unescape skip r
      | O =>
          let x := byte_val c in
          if x =? 34 then Some ("", r)
          else if x =? 92 then
            match r with
            | String.String e r1 =>
                if byte_val e =? 117 then
                  match r1 with
                  | String.String a1 (String.String a2 (String.String a3 (String.String a4 r4))) =>
                      h ← hex4 a1 a2 a3 a4;
                      if surrogate h then
                        match (if h <? 56320 then low_surrogate r4 else None) with
                        | Some l =>
                            t ← unescape 6 r4;
                            Some (utf8_encode (65536 + 1024 * (h - 55296) + (l - 56320)) +:+ t.1, t.2)
                        | None => t ← unescape 0 r4; Some (replacement +:+ t.1, t.2)
                        end
                      else t ← unescape 0 r4; Some (utf8_encode h +:+ t.1, t.2)
                  | _ => None
                  end
                else b ← simple_escape e; t ← unescape 0 r1; Some (b +:+ t.1, t.2)
            | "" => None
            end
          else if x <? 32 then None
          else t ← unescape 0 r; Some (String.String c t.1, t.2)
      end
  end.

(** A string after its opening quote. *)
Definition parse_string (s : string) : option (string * string) :=
  t ← unescape 0 s; Some (to_valid t.1, t.2).

Definition is_digit (c : Ascii.ascii) : bool := (48 <=? byte_val c) && (byte_val c <=? 57).
Fixpoint span (p : Ascii.ascii -> bool) (s : string) : string * string :=
  match s with
  | String.String c r => if p c then (String.String c (span p r).1, (span p r).2) else ("", s)
  | "" => ("", "")
  end.
Definition starts (z : Z) (s : string) : bool :=
  match s with String.String c _ => byte_val c =? z | "" => false end.

(** At least one digit. *)
Definition digits (s : string) : option (string * string) :=
  let t := span is_digit s in if bool_decide (t.1 = "") then None else Some t.

Definition fraction (s : string) : option (string * string) :=
  if starts 46 s then t ← digits (drop_bytes 1 s); Some ("." +:+ t.1, t.2) else Some ("", s).
Definition exponent (s : string) : option (string * string) :=
  if starts 101 s || starts 69 s then
    let sign := if starts 43 (drop_bytes 1 s) || starts 45 (drop_bytes 1 s) then 2%nat else 1%nat in
    t ← digits (drop_bytes sign s); Some (bytes sign s +:+ t.1, t.2)
  else Some ("", s).

(** A number and what follows; a zero does not lead. *)
Definition parse_number (s : string) : option (string * string) :=
  let sign := if starts 45 s then 1%nat else 0%nat in
  d ← digits (drop_bytes sign s);
  if starts 48 d.1 && bool_decide (d.1 <> "0") then None
  else
    f ← fraction d.2;
    e ← exponent f.2;
    Some (bytes sign s +:+ d.1 +:+ f.1 +:+ e.1, e.2).

Definition maxNestingDepth : nat := Z.to_nat 10000.

(** A value, the members of an object after its brace and the elements of an
    array after its bracket; [depth] more levels may be opened. *)
Fixpoint parse_value (fuel depth : nat) (s : string) : option (value * string) :=
  match fuel with
  | O => None
  | S fuel =>
      let s := skip_space s in
      match s with
      | "" => None
      | String.String c r =>
          let x := byte_val c in
          if x =? 123 then
            match depth with
            | O => None
            | S depth =>
                if starts 125 (skip_space r) then Some (VObject [], drop_bytes 1 (skip_space r))
                else t ← parse_members fuel depth r; Some (VObject t.1, t.2)
            end
          else if x =? 91 then
            match depth with
            | O => None
            | S depth =>
                if starts 93 (skip_space r) then Some (VArray [], drop_bytes 1 (skip_space r))
                else t ← parse_elements fuel depth r; Some (VArray t.1, t.2)
            end
          else if x =? 34 then t ← parse_string r; Some (VString t.1, t.2)
          else if has_prefix "null" s then Some (VNull, drop_bytes 4 s)
          else if has_prefix "true" s then Some (VBool true, drop_bytes 4 s)
          else if has_prefix "false" s then Some (VBool false, drop_bytes 5 s)
          else t ← parse_number s; Some (VNumber t.1, t.2)
      end
  end
with parse_members (fuel depth : nat) (s : string) : option (list (string * value) * string) :=
  match fuel with
  | O => None
  | S fuel =>
      let s := skip_space s in
      if starts 34 s then
        k ← parse_string (drop_bytes 1 s);
        if starts 58 (skip_space k.2) then
          v ← parse_value fuel depth (drop_bytes 1 (skip_space k.2));
          let after := skip_space v.2 in
          if starts 44 after then t ← parse_members fuel depth (drop_bytes 1 after); Some ((k.1, v.1) :: t.1, t.2)
          else if starts 125 after then Some ([(k.1, v.1)], drop_bytes 1 after)
          else None
        else None
      else None
  end
with parse_elements (fuel depth : nat) (s : string) : option (list value * string) :=
  match fuel with
  | O => None
  | S fuel =>
      v ← parse_value fuel depth s;
      let after := skip_space v.2 in
      if starts 44 after then t ← parse_elements fuel depth (drop_bytes 1 after); Some (v.1 :: t.1, t.2)
      else if starts 93 after then Some ([v.1], drop_bytes 1 after)
      else None
  end.

(** One value and the rest of the input: at most two calls nest per byte. *)
Definition parse (s : string) : option (value * string) := parse_value (2 * S (String.length s)) maxNestingDepth s.

(** [json.Unmarshal] takes one value and white space. *)
Definition parse_all (s : string) : option value :=
  t ← parse s; if bool_decide (skip_space t.2 = "") then Some t.1 else None.

End Json.
