(* ===== verification/JsonProofs.v ===== *)
(** * What is written reads back

    Parsing a printed value yields the value, for values whose strings are
    UTF-8, whose numbers are numbers and which do not nest too deep; and the
    fuel of the parser is always enough. *)

From S2P Require Import Prelude GoStrings Codec Json.
From stdpp Require Import pretty.
#[local] Open Scope Z_scope.
Import Json.

(** ** Strings *)
Lemma app_cons c (s t : string) : String.String c s +:+ t = String.String c (s +:+ t).
Proof. done. Qed.
Lemma app_nil_str (s : string) : s +:+ "" = s.
Proof. induction s as [|c s IH]; [done|]. by rewrite app_cons, IH. Qed.
Lemma app_assoc_str (s t u : string) : (s +:+ t) +:+ u = s +:+ (t +:+ u).
Proof. induction s as [|c s IH]; [done|]. by rewrite !app_cons, IH. Qed.

Lemma bytes_drop n s : bytes n s +:+ drop_bytes n s = s.
Proof.
  revert s. induction n as [|n IH]; intros [|c s]; try done.
  change (String.String c (bytes n s +:+ drop_bytes n s) = String.String c s). by rewrite IH.
Qed.

Fixpoint all_high (s : string) : Prop :=
  match s with "" => True | String.String c r => 128 <= byte_val c /\ all_high r end.

Lemma rune_width_high s n : rune_width s = S (S n) -> all_high (bytes (S (S n)) s).
Proof.
  destruct s as [|a r]; [done|]. cbn [rune_width]. unfold cont_byte.
  destruct (Z.ltb_spec (byte_val a) 128); [done|].
  repeat match goal with
  | |- context [if ?b then _ else _] => destruct b eqn:?
  | |- context [match ?x with "" => _ | String.String _ _ => _ end] => is_var x; destruct x
  | _ => progress intros
  | H : _ = S (S _) |- _ => first [discriminate H | injection H as <-]
  end; destruct_bools; simpl; repeat split; try lia; try done.
  all: try (repeat match goal with H : context [if ?b then _ else _] |- _ => destruct b end; lia).
  all: by match goal with |- all_high (String.substring 0 0 ?r) => destruct r end.
Qed.

(** Reading back one written byte, or the bytes of a rune. *)
Lemma unescape_ascii c t : (byte_val c <? 128) = true ->
  unescape 0 (escape_ascii c +:+ t) = (u ← unescape 0 t; Some (String.String c u.1, u.2)).
Proof. destruct c as [[] [] [] [] [] [] [] []]; try done; intros _; cbn; by destruct (unescape 0 t) as [[]|]. Qed.

Lemma unescape_high s t : all_high s -> unescape 0 (s +:+ t) = (u ← unescape 0 t; Some (s +:+ u.1, u.2)).
Proof.
  induction s as [|c s IH]; [change ("" +:+ t) with t; by destruct (unescape 0 t) as [[]|]|]. intros [Hc Hs]. rewrite app_cons. cbn [unescape].
  destruct (Z.eqb_spec (byte_val c) 34); [lia|]. destruct (Z.eqb_spec (byte_val c) 92); [lia|].
  destruct (Z.ltb_spec (byte_val c) 32); [lia|]. rewrite IH by done. by destruct (unescape 0 t) as [[]|].
Qed.

Lemma unescape_rune n s t : rune_width s = S (S n) ->
  unescape 0 (escape_rune (S (S n)) s +:+ t) = (u ← unescape 0 t; Some (bytes (S (S n)) s +:+ u.1, u.2)).
Proof.
  intros Hn. apply rune_width_high in Hn as Hh. unfold escape_rune. do 2 (let E := fresh in case_bool_decide as E; [rewrite E, !app_cons; change ("" +:+ t) with t; cbn; by destruct (unescape 0 t) as [[]|]|]).
  by apply unescape_high.
Qed.

Lemma rune_width_one s c r : s = String.String c r -> rune_width s = 1%nat -> (byte_val c <? 128) = true.
Proof.
  intros ->. cbn [rune_width]. destruct (_ <? 128); [done|].
  repeat match goal with
  | |- context [if ?b then _ else _] => destruct b
  | |- context [match ?x with "" => _ | String.String _ _ => _ end] => destruct x
  end; done.
Qed.

Lemma unescape_escaped fuel : forall s t, valid_scan fuel s = true ->
  unescape 0 (escape_scan fuel s +:+ char 34 t) = Some (s, t).
Proof.
  induction fuel as [|fuel IH]; intros [|c r] t Hv; try done. cbn [escape_scan valid_scan] in *.
  destruct (rune_width (String.String c r)) as [|[|n]] eqn:Hw; [done| |].
  - rewrite app_assoc_str, unescape_ascii by (by eapply rune_width_one). by rewrite IH.
  - rewrite app_assoc_str, unescape_rune by done. rewrite IH by done. cbn [mbind option_bind fst snd]. by rewrite bytes_drop.
Qed.

Lemma to_valid_id fuel : forall s, valid_scan fuel s = true -> to_valid_scan fuel s = s.
Proof.
  induction fuel as [|fuel IH]; intros [|c r] Hv; try done. cbn [to_valid_scan valid_scan] in *.
  destruct (rune_width (String.String c r)) as [|n] eqn:Hw; [done|]. rewrite IH by done. apply bytes_drop.
Qed.

Lemma parse_string_quoted s t : utf8_valid s = true -> parse_string (escape s +:+ char 34 t) = Some (s, t).
Proof. intros Hv. unfold parse_string, escape. rewrite unescape_escaped by done. simpl. unfold to_valid. by rewrite to_valid_id. Qed.

(** ASCII is UTF-8. *)
Fixpoint all_ascii (s : string) : bool :=
  match s with "" => true | String.String c r => (byte_val c <? 128) && all_ascii r end.
Lemma utf8_ascii s : all_ascii s = true -> utf8_valid s = true.
Proof.
  unfold utf8_valid. induction s as [|c s IH]; [done|]. simpl. intros [Hc Hs]%andb_true_iff. rewrite Hc. simpl. by apply IH.
Qed.

(** ** Integers *)
Fixpoint all_digits (s : string) : bool :=
  match s with "" => true | String.String c r => is_digit c && all_digits r end.

Lemma digits_of_app s t : all_digits (s +:+ t) = all_digits s && all_digits t.
Proof. induction s as [|c s IH]; [done|]. rewrite app_cons. simpl. rewrite IH. apply andb_assoc. Qed.

Lemma pretty_char_digit x : (x < 10)%N -> is_digit (pretty_N_char x) = true /\ byte_val (pretty_N_char x) = 48 + Z.of_N x.
Proof.
  intros Hx. assert (x = 0 \/ x = 1 \/ x = 2 \/ x = 3 \/ x = 4 \/ x = 5 \/ x = 6 \/ x = 7 \/ x = 8 \/ x = 9)%N as Hc by lia.
  by repeat (destruct Hc as [->|Hc]; [done|]); subst.
Qed.

(** The digits of a positive number: the first is not zero. *)
Lemma pretty_go_form x : (0 < x)%N -> forall s, exists c r,
  pretty_N_go x s = String.String c r +:+ s /\ is_digit c = true /\ byte_val c <> 48 /\ all_digits r = true.
Proof.
  induction (N.lt_wf_0 x) as [x _ IH]. intros Hx s. rewrite pretty_N_go_step by done.
  destruct (pretty_char_digit (x `mod` 10)) as [Hd Hv]; [apply N.mod_lt; lia|].
  destruct (decide (x < 10)%N) as [Hlt|Hge].
  - rewrite N.div_small, pretty_N_go_0 by done. exists (pretty_N_char (x `mod` 10)), "".
    split; [done|]. split; [done|]. split; [|done]. rewrite Hv, N.mod_small by done. lia.
  - destruct (IH (x `div` 10)%N) with (s := String.String (pretty_N_char (x `mod` 10)) s) as (c & r & -> & Hc & Hn & Hr);
      [by apply N.div_lt|apply N.div_str_pos; lia|].
    exists c, (r +:+ String.String (pretty_N_char (x `mod` 10)) ""). split; [|split; [done|split; [done|]]].
    + rewrite !app_cons, app_assoc_str. done.
    + rewrite digits_of_app, Hr. simpl. by rewrite Hd.
Qed.

(** What may follow a number. *)
Definition ends_number (t : string) : bool :=
  match t with "" => true | String.String c _ => negb (is_digit c || (byte_val c =? 46) || (byte_val c =? 101) || (byte_val c =? 69)) end.

Lemma span_digits s t : all_digits s = true -> ends_number t = true -> span is_digit (s +:+ t) = (s, t).
Proof.
  intros Hs Ht. induction s as [|c s IH].
  - change ("" +:+ t) with t. destruct t as [|d t]; [done|]. cbn [span]. simpl in Ht. by destruct (is_digit d).
  - rewrite app_cons. cbn [span]. simpl in Hs. apply andb_true_iff in Hs as [-> Hs]. by rewrite IH.
Qed.

Lemma natural_text (x : N) : exists c r, pretty x = String.String c r /\ is_digit c = true /\ all_digits r = true /\
  (starts 48 (String.String c r) && bool_decide (String.String c r <> "0")) = false.
Proof.
  unfold pretty, pretty_N. case_decide as Hx; [exists (Ascii.ascii_of_nat 48), ""; done|].
  destruct (pretty_go_form x) with (s := "") as (c & r & -> & Hc & Hn & Hr); [lia|]. exists c, r. rewrite app_nil_str.
  split_and!; try done. cbn [starts]. by destruct (Z.eqb_spec (byte_val c) 48).
Qed.

Lemma no_fraction t : ends_number t = true -> fraction t = Some ("", t) /\ exponent t = Some ("", t).
Proof.
  intros Ht. unfold fraction, exponent. destruct t as [|c t]; [done|]. cbn [ends_number starts] in *.
  apply negb_true_iff in Ht. rewrite !orb_false_iff in Ht. destruct Ht as [[[_ ->] ->] ->]. done.
Qed.

Lemma parse_natural (x : N) t (sign : nat) s : ends_number t = true -> (starts 45 s = bool_decide (sign = 1%nat)) -> (sign <= 1)%nat ->
  drop_bytes sign s = pretty x +:+ t ->
  parse_number s = Some (bytes sign s +:+ pretty x, t).
Proof.
  intros Ht Hs Hle Hd. unfold parse_number. rewrite Hs. replace (if bool_decide (sign = 1%nat) then 1%nat else 0%nat) with sign
    by (case_bool_decide; lia). rewrite Hd. destruct (natural_text x) as (c & r & -> & Hc & Hr & Hz).
  unfold digits. rewrite span_digits by (simpl; rewrite ?Hc; done). cbn [fst snd].
  rewrite bool_decide_false by done. cbn [mbind option_bind fst snd]. rewrite Hz. destruct (no_fraction t Ht) as [Ef Ee].
  rewrite Ef. cbn [mbind option_bind fst snd]. rewrite Ee. cbn [mbind option_bind fst snd]. do 3 f_equal. apply app_nil_str.
Qed.

Lemma parse_natural_text (x : N) t : ends_number t = true -> parse_number (pretty x +:+ t) = Some (pretty x, t).
Proof.
  intros Ht. rewrite (parse_natural x t 0); [|done| |lia|].
  - destruct (pretty x +:+ t); done.
  - destruct (natural_text x) as (c & r & -> & Hc & _). rewrite app_cons. cbn [starts].
    rewrite bool_decide_false by done. apply Z.eqb_neq. intros E. unfold is_digit in Hc. by rewrite E in Hc.
  - by destruct (pretty x +:+ t).
Qed.
Lemma parse_int_text (z : Z) t : ends_number t = true -> parse_number (pretty z +:+ t) = Some (pretty z, t).
Proof.
  intros Ht. destruct z as [|p|p].
  - exact (parse_natural_text 0 t Ht).
  - exact (parse_natural_text (N.pos p) t Ht).
  - change (pretty (Z.neg p)) with (String.String (Ascii.ascii_of_nat 45) (pretty (N.pos p))). rewrite app_cons.
    rewrite (parse_natural (N.pos p) t 1); [|done|done|lia|by destruct (pretty (N.pos p) +:+ t)].
    do 2 f_equal. unfold bytes. simpl. by destruct (pretty (N.pos p) +:+ t).
Qed.

(** ** Values *)
Section value_induction.
Context (P : value -> Prop).
Context (Hnull : P VNull) (Hbool : forall b, P (VBool b)) (Hnumber : forall n, P (VNumber n)) (Hstring : forall s, P (VString s)).
Context (Harray : forall l, Forall P l -> P (VArray l)).
Context (Hobject : forall ms, Forall (fun m => P m.2) ms -> P (VObject ms)).

Fixpoint value_nested_ind (v : value) : P v :=
  match v with
  | VNull => Hnull
  | VBool b => Hbool b
  | VNumber n => Hnumber n
  | VString s => Hstring s
  | VArray l => Harray l ((fix go (l : list value) : Forall P l := match l with [] => Forall_nil_2 _ | v :: l => Forall_cons_2 _ v l (value_nested_ind v) (go l) end) l)
  | VObject ms =>
      Hobject ms ((fix go (ms : list (string * value)) : Forall (fun m => P m.2) ms := match ms with [] => Forall_nil_2 _ | m :: ms => Forall_cons_2 _ m ms (value_nested_ind m.2) (go ms) end) ms)
  end.
End value_induction.

(** What the program writes: integers, strings of UTF-8, and at most [depth]
    levels of arrays and objects. *)
Fixpoint writable (depth : nat) (v : value) : Prop :=
  match v with
  | VNull | VBool _ => True
  | VNumber n => exists z : Z, n = pretty z
  | VString s => utf8_valid s = true
  | VArray l => match depth with O => False | S depth => Forall (writable depth) l end
  | VObject ms => match depth with O => False | S depth => Forall (fun m => utf8_valid m.1 = true /\ writable depth m.2) ms end
  end.

Lemma writable_object depth ms : (0 < depth)%nat -> Forall (fun m => utf8_valid m.1 = true /\ writable (depth - 1) m.2) ms -> writable depth (VObject ms).
Proof. destruct depth as [|depth]; [lia|]. intros _ H. cbn [writable]. revert H. by rewrite Nat.sub_1_r. Qed.

Lemma writable_document ms : Forall (fun m => utf8_valid m.1 = true /\ writable (maxNestingDepth - 1) m.2) ms -> writable maxNestingDepth (VObject ms).
Proof. apply writable_object. unfold maxNestingDepth. lia. Qed.

Lemma writable_members depth ms : writable depth (VObject ms) -> Forall (fun m => utf8_valid m.1 = true /\ writable (depth - 1) m.2) ms.
Proof. destruct depth as [|depth]; [done|]. rewrite Nat.sub_succ, Nat.sub_0_r. exact (fun H => H). Qed.

Lemma int_first (z : Z) : exists c r, pretty z = String.String c r /\ (is_digit c = true \/ byte_val c = 45).
Proof.
  destruct z as [|p|p]; [by exists (Ascii.ascii_of_nat 48), ""; auto| |by eexists _, _; split; [done|right]].
  destruct (natural_text (N.pos p)) as (c & r & E & Hc & _). exists c, r. auto.
Qed.

Lemma print_first depth v : writable depth v -> exists c r, print v = String.String c r /\ is_space c = false /\ byte_val c <> 93 /\ byte_val c <> 125.
Proof.
  intros Hw. destruct v as [|b|n|s|l|ms].
  1,4,5,6: eexists _, _; split; [reflexivity|done].
  { destruct b; eexists _, _; (split; [reflexivity|done]). }
  assert (exists z : Z, n = pretty z) as [z ->] by (by destruct depth). cbn [print]. destruct (int_first z) as (c & r & -> & Hc). exists c, r. split; [done|].
  assert (Hb : 45 <= byte_val c <= 57) by (destruct Hc as [Hc| ->]; [unfold is_digit in Hc; destruct_bools; lia|lia]).
  unfold is_space. split_and!; [|lia..]. rewrite !orb_false_iff, !Z.eqb_neq. lia.
Qed.

Lemma skip_first c r : is_space c = false -> skip_space (String.String c r) = String.String c r.
Proof. intros H. cbn [skip_space]. by rewrite H. Qed.

(** The members of an object and the elements of an array, as they are written. *)
Definition members_text (ms : list (string * value)) : string :=
  String.concat "," (map (fun m => quoted m.1 +:+ ":" +:+ print m.2) ms).
Definition elements_text (l : list value) : string := String.concat "," (map print l).

Definition reads_back (v : value) : Prop := forall depth fuel t, writable depth v -> ends_number t = true ->
  (String.length (print v) < fuel)%nat -> parse_value fuel depth (print v +:+ t) = Some (v, t).

Lemma join_cons sep (x y : string) l : String.concat sep (x :: y :: l) = x +:+ sep +:+ String.concat sep (y :: l).
Proof. done. Qed.

Lemma quoted_app s t : quoted s +:+ t = char 34 (escape s +:+ char 34 t).
Proof. unfold quoted, char. rewrite app_cons, app_assoc_str, app_cons. done. Qed.

(** The marks between values. *)
Definition mark (z : Z) : Prop := z = 34 \/ z = 44 \/ z = 58 \/ z = 91 \/ z = 93 \/ z = 123 \/ z = 125.
Lemma skip_mark z t : mark z -> skip_space (char z t) = char z t.
Proof. by intros Hz; repeat (destruct Hz as [-> | Hz]; [done|]); subst. Qed.
Lemma starts_mark z t x : mark z -> starts x (char z t) = (z =? x).
Proof. by intros Hz; repeat (destruct Hz as [-> | Hz]; [done|]); subst. Qed.
Lemma drop_mark z t : drop_bytes 1 (char z t) = t.
Proof. by destruct t. Qed.
Lemma ends_mark z t : mark z -> ends_number (char z t) = true.
Proof. by intros Hz; repeat (destruct Hz as [-> | Hz]; [done|]); subst. Qed.
Ltac marks := repeat first
  [ rewrite skip_mark by (unfold mark; lia) | rewrite starts_mark by (unfold mark; lia) | rewrite drop_mark
  | progress cbn [mbind option_bind fst snd Z.eqb Pos.eqb] ].

Lemma length_app_str (s t : string) : String.length (s +:+ t) = (String.length s + String.length t)%nat.
Proof. induction s as [|c s IH]; [done|]. rewrite app_cons. simpl. by rewrite IH. Qed.

Lemma comma_app (s t : string) : ("," +:+ s) +:+ t = char 44 (s +:+ t).
Proof. done. Qed.
Lemma colon_app (s t : string) : (":" +:+ s) +:+ t = char 58 (s +:+ t).
Proof. done. Qed.

Lemma read_elements l : Forall reads_back l -> l <> [] -> forall depth fuel t, Forall (writable depth) l ->
  (S (String.length (elements_text l)) < fuel)%nat -> parse_elements fuel depth (elements_text l +:+ char 93 t) = Some (l, t).
Proof.
  unfold elements_text. induction 1 as [|v l Hv Hl IH]; [done|]. intros _ depth fuel t [Hw Hws]%Forall_cons Hf.
  destruct fuel as [|fuel]; [lia|]. cbn [parse_elements]. destruct l as [|v2 l].
  - cbn [map String.concat] in *. rewrite Hv by (done || (apply ends_mark; unfold mark; lia) || lia). by marks.
  - cbn [map] in *. rewrite join_cons in *. rewrite !length_app_str in Hf. cbn [String.length Nat.add] in Hf.
    rewrite app_assoc_str, comma_app. rewrite Hv by (done || (apply ends_mark; unfold mark; lia) || lia). marks.
    rewrite IH by (done || lia). done.
Qed.

Lemma read_members ms : Forall (fun m => reads_back m.2) ms -> ms <> [] -> forall depth fuel t,
  Forall (fun m => utf8_valid m.1 = true /\ writable depth m.2) ms ->
  (S (String.length (members_text ms)) < fuel)%nat -> parse_members fuel depth (members_text ms +:+ char 125 t) = Some (ms, t).
Proof.
  unfold members_text. induction 1 as [|[k v] ms Hv Hl IH]; [done|]. intros _ depth fuel t [[Hk Hw] Hws]%Forall_cons Hf.
  destruct fuel as [|fuel]; [lia|]. cbn [parse_members]. cbn [fst snd] in *. destruct ms as [|m2 ms].
  - cbn [map String.concat fst snd] in *. rewrite !length_app_str in Hf. cbn [String.length Nat.add] in Hf.
    rewrite app_assoc_str, colon_app, quoted_app. marks. rewrite parse_string_quoted by done. marks.
    rewrite Hv by (done || (apply ends_mark; unfold mark; lia) || lia). by marks.
  - cbn [map] in *. rewrite join_cons in *. cbn [fst snd] in *. rewrite !length_app_str in Hf. cbn [String.length Nat.add] in Hf.
    rewrite app_assoc_str, comma_app, app_assoc_str, colon_app, quoted_app. marks. rewrite parse_string_quoted by done. marks.
    rewrite Hv by (done || (apply ends_mark; unfold mark; lia) || lia). marks. rewrite IH by (done || lia). done.
Qed.

Lemma has_prefix_first c p a s : c <> a -> has_prefix (String.String c p) (String.String a s) = false.
Proof. intros Hne. unfold has_prefix. simpl. by destruct (Ascii.ascii_dec c a). Qed.

Lemma read_number (z : Z) depth fuel t : ends_number t = true -> parse_value (S fuel) depth (pretty z +:+ t) = Some (VNumber (pretty z), t).
Proof.
  intros Ht. pose proof (parse_int_text z t Ht) as Hp. destruct (int_first z) as (c & r & E & Hc).
  rewrite E in *. rewrite app_cons in *.
  assert (Hb : 45 <= byte_val c <= 57) by (destruct Hc as [Hc| ->]; [unfold is_digit in Hc; destruct_bools; lia|lia]).
  cbn [parse_value]. rewrite skip_first by (unfold is_space; rewrite !orb_false_iff, !Z.eqb_neq; lia).
  destruct (Z.eqb_spec (byte_val c) 123); [lia|]. destruct (Z.eqb_spec (byte_val c) 91); [lia|].
  destruct (Z.eqb_spec (byte_val c) 34); [lia|].
  rewrite !has_prefix_first by (intros <-; vm_compute in Hb; destruct Hb as [? Hb]; by apply Hb).
  by rewrite Hp.
Qed.

Lemma parse_quote fuel depth s : parse_value (S fuel) depth (char 34 s) = (t ← parse_string s; Some (VString t.1, t.2)).
Proof. done. Qed.
Lemma parse_bracket fuel depth s : parse_value (S fuel) (S depth) (char 91 s) =
  if starts 93 (skip_space s) then Some (VArray [], drop_bytes 1 (skip_space s))
  else t ← parse_elements fuel depth s; Some (VArray t.1, t.2).
Proof. done. Qed.
Lemma parse_brace fuel depth s : parse_value (S fuel) (S depth) (char 123 s) =
  if starts 125 (skip_space s) then Some (VObject [], drop_bytes 1 (skip_space s))
  else t ← parse_members fuel depth s; Some (VObject t.1, t.2).
Proof. done. Qed.

Lemma value_reads_back v : reads_back v.
Proof.
  induction v as [|b|n|s|l IH|ms IH] using value_nested_ind; intros depth fuel t Hw Ht Hf; (destruct fuel as [|fuel]; [lia|]).
  - by destruct t.
  - by destruct b, t.
  - assert (exists z : Z, n = pretty z) as [z ->] by (by destruct depth). by apply read_number.
  - assert (utf8_valid s = true) by (by destruct depth). cbn [print]. by rewrite quoted_app, parse_quote, parse_string_quoted.
  - destruct depth as [|depth]; [done|]. simpl in Hw. cbn [print]. destruct l as [|v l]; [done|].
    change (("[" +:+ String.concat "," (map print (v :: l)) +:+ "]") +:+ t) with (char 91 ((elements_text (v :: l) +:+ "]") +:+ t)).
    rewrite app_assoc_str. change ("]" +:+ t) with (char 93 t). rewrite parse_bracket.
    assert (Hs : starts 93 (skip_space (elements_text (v :: l) +:+ char 93 t)) = false).
    { apply Forall_cons in Hw as [Hv _]. destruct (print_first _ _ Hv) as (c & r & E & Hsp & H93 & _).
      unfold elements_text. destruct l; cbn [map]; [|rewrite join_cons]; cbn [String.concat]; rewrite E;
        rewrite ?app_cons, skip_first by done; by apply Z.eqb_neq. }
    rewrite Hs, read_elements; [done|done|done|done|]. cbn [print] in Hf. rewrite !length_app_str in Hf.
    cbn [String.length Nat.add] in Hf. fold (elements_text (v :: l)) in Hf. lia.
  - destruct depth as [|depth]; [done|]. simpl in Hw. cbn [print]. destruct ms as [|[k v] ms]; [done|].
    change (("{" +:+ String.concat "," (map (fun m => quoted m.1 +:+ ":" +:+ print m.2) ((k, v) :: ms)) +:+ "}") +:+ t)
      with (char 123 ((members_text ((k, v) :: ms) +:+ "}") +:+ t)).
    rewrite app_assoc_str. change ("}" +:+ t) with (char 125 t). rewrite parse_brace.
    assert (Hs : starts 125 (skip_space (members_text ((k, v) :: ms) +:+ char 125 t)) = false).
    { unfold members_text. destruct ms; cbn [map]; [|rewrite join_cons]; done. }
    rewrite Hs, read_members; [done|done|done|done|]. cbn [print] in Hf. rewrite !length_app_str in Hf.
    cbn [String.length Nat.add] in Hf. fold (members_text ((k, v) :: ms)) in Hf. lia.
Qed.

(** What the encoder writes reads back as the value, whatever follows it that
    cannot continue a number, and the rest is left. *)
Theorem json_print_parse (v : value) (t : string) :
  writable maxNestingDepth v -> ends_number t = true -> parse (print v +:+ t) = Some (v, t).
Proof. intros Hw Ht. apply value_reads_back; [done|done|]. rewrite length_app_str. lia. Qed.

(** ** The fuel is enough *)
Abbreviation len := String.length.

Lemma skip_space_len s : (len (skip_space s) <= len s)%nat.
Proof. induction s as [|c s IH]; [done|]. simpl. destruct (is_space c); simpl; lia. Qed.
Lemma drop_bytes_len n s : (len (drop_bytes n s) <= len s)%nat.
Proof. revert s. induction n as [|n IH]; intros [|c s]; simpl; try lia. specialize (IH s). lia. Qed.
Lemma drop_one_len x s : starts x s = true -> (len (drop_bytes 1 s) < len s)%nat.
Proof. destruct s as [|c s]; [done|]. intros _. simpl. destruct s; simpl; lia. Qed.

Lemma unescape_len n : forall s skip a t, (len s <= n)%nat -> unescape skip s = Some (a, t) -> (len t < len s)%nat.
Proof.
  induction n as [|n IH]; intros [|c r] skip a t Hn; try (simpl in Hn; lia); try done.
  assert (Hrec : forall k s' b u, (len s' <= len r)%nat -> unescape k s' = Some (b, u) -> (len u < len (String.String c r))%nat).
  { intros k s' b u Hl E. apply IH in E; [simpl; lia|simpl in Hn; lia]. }
  cbn [unescape]. destruct skip as [|k]; [|intros E; by eapply Hrec].
  destruct (_ =? 34); [intros [= _ <-]; simpl; lia|]. destruct (_ =? 92).
  - destruct r as [|e r1]; [done|]. destruct (_ =? 117).
    + destruct r1 as [|a1 [|a2 [|a3 [|a4 r4]]]]; try done. destruct (hex4 _ _ _ _) as [h|]; [|done]. cbn [mbind option_bind].
      assert (Hl : (len r4 <= len (String.String e (String.String a1 (String.String a2 (String.String a3 (String.String a4 r4))))))%nat) by (simpl; lia).
      destruct (surrogate h); [destruct (if h <? 56320 then _ else _)|];
        match goal with |- context [unescape ?k r4] => destruct (unescape k r4) as [[b u]|] eqn:E end; try done;
        intros [= _ <-]; by eapply Hrec.
    + destruct (simple_escape e); [|done]. cbn [mbind option_bind]. destruct (unescape 0 r1) as [[b u]|] eqn:E; [|done].
      intros [= _ <-]. eapply Hrec; [|exact E]. simpl. lia.
  - destruct (_ <? 32); [done|]. destruct (unescape 0 r) as [[b u]|] eqn:E; [|done]. intros [= _ <-]. by eapply Hrec.
Qed.
Lemma parse_string_len s k t : parse_string s = Some (k, t) -> (len t < len s)%nat.
Proof. unfold parse_string. destruct (unescape 0 s) as [[a u]|] eqn:E; [|done]. intros [= _ <-]. by eapply unescape_len. Qed.

Lemma span_len p s : (len (span p s).2 + len (span p s).1 = len s)%nat.
Proof. induction s as [|c s IH]; [done|]. simpl. destruct (p c); simpl; lia. Qed.
Lemma digits_len s d t : digits s = Some (d, t) -> (len t < len s)%nat.
Proof.
  unfold digits. pose proof (span_len is_digit s) as H. destruct (span is_digit s) as [x y]. simpl in *.
  case_bool_decide as E; [done|]. intros [= <- <-]. destruct x; [done|]. simpl in H. lia.
Qed.
Lemma parse_number_len s n t : parse_number s = Some (n, t) -> (len t < len s)%nat.
Proof.
  unfold parse_number. set (k := if starts 45 s then 1%nat else 0%nat). destruct (digits (drop_bytes k s)) as [[d u]|] eqn:Ed; [|done].
  apply digits_len in Ed. pose proof (drop_bytes_len k s). cbn [mbind option_bind fst snd]. destruct (_ && _); [done|].
  destruct (fraction u) as [[f v]|] eqn:Ef; [|done]. cbn [mbind option_bind fst snd].
  destruct (exponent v) as [[e x]|] eqn:Ee; [|done]. intros [= _ <-].
  assert (len v <= len u)%nat.
  { unfold fraction in Ef. destruct (starts 46 u); [|by injection Ef as _ <-]. destruct (digits _) as [[y z]|] eqn:E; [|done].
    injection Ef as _ <-. apply digits_len in E. pose proof (drop_bytes_len 1 u). lia. }
  assert (len x <= len v)%nat; [|lia].
  unfold exponent in Ee. destruct (_ || _); [|by injection Ee as _ <-]. destruct (digits _) as [[y z]|] eqn:E; [|done].
  injection Ee as _ <-. apply digits_len in E. pose proof (drop_bytes_len (if starts 43 (drop_bytes 1 v) || starts 45 (drop_bytes 1 v) then 2%nat else 1%nat) v). lia.
Qed.

(** A value, members and elements all read something. *)
Lemma parse_len fuel : forall depth s,
  (forall v t, parse_value fuel depth s = Some (v, t) -> (len t < len s)%nat) /\
  (forall ms t, parse_members fuel depth s = Some (ms, t) -> (len t < len s)%nat) /\
  (forall l t, parse_elements fuel depth s = Some (l, t) -> (len t < len s)%nat).
Proof.
  induction fuel as [|fuel IH]; intros depth s; [done|]. pose proof (skip_space_len s) as Hs. split_and!.
  - intros v t. cbn [parse_value]. destruct (skip_space s) as [|c r]; [done|]. pose proof (skip_space_len r) as Hr. simpl in Hs.
    destruct (_ =? 123); [|destruct (_ =? 91); [|destruct (_ =? 34)]].
    + destruct depth as [|depth]; [done|]. destruct (starts 125 _) eqn:E1; [destruct (skip_space r) as [|? r2]; [done|]; destruct r2; intros [= _ <-]; simpl in *; lia|].
      destruct (parse_members fuel depth r) as [[ms u]|] eqn:E; [|done]. intros [= _ <-]. apply IH in E. lia.
    + destruct depth as [|depth]; [done|]. destruct (starts 93 _) eqn:E1; [destruct (skip_space r) as [|? r2]; [done|]; destruct r2; intros [= _ <-]; simpl in *; lia|].
      destruct (parse_elements fuel depth r) as [[ms u]|] eqn:E; [|done]. intros [= _ <-]. apply IH in E. lia.
    + destruct (parse_string r) as [[k u]|] eqn:E; [|done]. intros [= _ <-]. apply parse_string_len in E. lia.
    + assert (Hd : forall n, (len (drop_bytes (S n) (String.String c r)) < len s)%nat).
      { intros n. pose proof (drop_bytes_len n r). simpl. lia. }
      destruct (has_prefix "null" _); [intros [= _ <-]; apply (Hd 3%nat)|]. destruct (has_prefix "true" _); [intros [= _ <-]; apply (Hd 3%nat)|].
      destruct (has_prefix "false" _); [intros [= _ <-]; apply (Hd 4%nat)|].
      destruct (parse_number _) as [[n u]|] eqn:E; [|done]. intros [= _ <-]. apply parse_number_len in E. simpl in E. lia.
  - intros ms t. cbn [parse_members]. destruct (starts 34 (skip_space s)) eqn:E1; [|done]. apply drop_one_len in E1.
    destruct (parse_string _) as [[k u]|] eqn:Ek; [|done]. apply parse_string_len in Ek. cbn [mbind option_bind fst snd].
    destruct (starts 58 (skip_space u)) eqn:E2; [|done]. apply drop_one_len in E2. pose proof (skip_space_len u).
    destruct (parse_value fuel depth _) as [[v x]|] eqn:Ev; [|done]. apply IH in Ev. cbn [mbind option_bind fst snd].
    pose proof (skip_space_len x). destruct (starts 44 (skip_space x)) eqn:E3.
    + apply drop_one_len in E3. destruct (parse_members fuel depth _) as [[y z]|] eqn:E; [|done]. intros [= _ <-]. apply IH in E. lia.
    + destruct (starts 125 (skip_space x)) eqn:E4; [|done]. destruct (skip_space x) as [|? x2]; [done|]. destruct x2; intros [= _ <-]; simpl in *; lia.
  - intros l t. cbn [parse_elements]. destruct (parse_value fuel depth s) as [[v x]|] eqn:Ev; [|done]. apply IH in Ev. cbn [mbind option_bind fst snd].
    pose proof (skip_space_len x). destruct (starts 44 (skip_space x)) eqn:E3.
    + apply drop_one_len in E3. destruct (parse_elements fuel depth _) as [[y z]|] eqn:E; [|done]. intros [= _ <-]. apply IH in E. lia.
    + destruct (starts 93 (skip_space x)) eqn:E4; [|done]. destruct (skip_space x) as [|? x2]; [done|]. destruct x2; intros [= _ <-]; simpl in *; lia.
Qed.

Lemma parse_members_S fuel depth s : parse_members (S fuel) depth s =
  if starts 34 (skip_space s) then
    k ← parse_string (drop_bytes 1 (skip_space s));
    if starts 58 (skip_space k.2) then
      v ← parse_value fuel depth (drop_bytes 1 (skip_space k.2));
      if starts 44 (skip_space v.2) then t ← parse_members fuel depth (drop_bytes 1 (skip_space v.2)); Some ((k.1, v.1) :: t.1, t.2)
      else if starts 125 (skip_space v.2) then Some ([(k.1, v.1)], drop_bytes 1 (skip_space v.2)) else None
    else None
  else None.
Proof. done. Qed.
Lemma parse_elements_S fuel depth s : parse_elements (S fuel) depth s =
  (v ← parse_value fuel depth s;
   if starts 44 (skip_space v.2) then t ← parse_elements fuel depth (drop_bytes 1 (skip_space v.2)); Some (v.1 :: t.1, t.2)
   else if starts 93 (skip_space v.2) then Some ([v.1], drop_bytes 1 (skip_space v.2)) else None).
Proof. done. Qed.

Lemma parse_fuel fuel : forall depth s,
  ((2 * len s < fuel)%nat -> parse_value (S fuel) depth s = parse_value fuel depth s) /\
  ((2 * len s + 1 < fuel)%nat -> parse_members (S fuel) depth s = parse_members fuel depth s) /\
  ((2 * len s + 1 < fuel)%nat -> parse_elements (S fuel) depth s = parse_elements fuel depth s).
Proof.
  induction fuel as [|fuel IH]; intros depth s; [split_and!; lia|]. pose proof (skip_space_len s) as Hs. split_and!; intros Hf.
  - cbn [parse_value]. destruct (skip_space s) as [|c r]; [done|]. simpl in Hs.
    destruct (_ =? 123); [|destruct (_ =? 91); [|done]]; (destruct depth as [|depth]; [done|]).
    + destruct (IH depth r) as (_ & H & _). by rewrite H by lia.
    + destruct (IH depth r) as (_ & _ & H). by rewrite H by lia.
  - rewrite (parse_members_S (S fuel)), (parse_members_S fuel). destruct (starts 34 (skip_space s)) eqn:E1; [|done]. apply drop_one_len in E1.
    destruct (parse_string _) as [[k u]|] eqn:Ek; [|done]. apply parse_string_len in Ek. cbn [mbind option_bind fst snd].
    destruct (starts 58 (skip_space u)) eqn:E2; [|done]. apply drop_one_len in E2. pose proof (skip_space_len u).
    set (s1 := drop_bytes 1 (skip_space u)) in *. destruct (IH depth s1) as (H1 & _). rewrite H1 by lia.
    destruct (parse_value fuel depth s1) as [[v x]|] eqn:Ev; [|done]. apply parse_len in Ev. cbn [mbind option_bind fst snd].
    pose proof (skip_space_len x). destruct (starts 44 (skip_space x)) eqn:E3; [|done]. apply drop_one_len in E3.
    destruct (IH depth (drop_bytes 1 (skip_space x))) as (_ & H2 & _). by rewrite H2 by lia.
  - rewrite (parse_elements_S (S fuel)), (parse_elements_S fuel). destruct (IH depth s) as (H1 & _). rewrite H1 by lia.
    destruct (parse_value fuel depth s) as [[v x]|] eqn:Ev; [|done]. apply parse_len in Ev. cbn [mbind option_bind fst snd].
    pose proof (skip_space_len x). destruct (starts 44 (skip_space x)) eqn:E3; [|done]. apply drop_one_len in E3.
    destruct (IH depth (drop_bytes 1 (skip_space x))) as (_ & _ & H2). by rewrite H2 by lia.
Qed.

(** More steps do not change what [parse] reads. *)
Theorem json_fuel_enough (s : string) (fuel : nat) :
  (2 * S (len s) <= fuel)%nat -> parse_value fuel maxNestingDepth s = parse s.
Proof.
  unfold parse. induction 1 as [|fuel Hle IH]; [done|]. destruct (parse_fuel fuel maxNestingDepth s) as [H _]. by rewrite H by lia.
Qed.

(** More than enough is enough too. *)
Lemma parse_value_reads v t fuel depth : writable depth v -> ends_number t = true -> (len (print v) < fuel)%nat ->
  parse_value fuel depth (print v +:+ t) = Some (v, t).
Proof. apply value_reads_back. Qed.
