(* ===== verification/GoJson.v ===== *)
(** * Decoding JSON into Go structures, and the values of responses

    The rules of package [encoding/json] for structures: a member is assigned
    to the field of its name, or of its name up to case; a null leaves a field
    that is no pointer as it was; later members override earlier ones; a value
    of another type is an error, and so is an unknown member in strict mode.
    An error is returned after the rest was decoded, which no caller sees. *)

From S2P Require Import Prelude GoStrings Codec ObjectStorage Http RateLimit Config Json JsonProofs.
From stdpp Require Import pretty.
#[local] Open Scope Z_scope.
Export Json (value, VNull, VBool, VNumber, VString, VArray, VObject).

(** ** Responses *)
Fixpoint of_json (j : json) : value :=
  match j with
  | JString s => VString s
  | JInt z => Json.VInt z
  | JBool b => VBool b
  | JObject fields => VObject (map (fun f => (f.1, of_json f.2)) fields)
  end.
Definition render (j : json) : string := Json.print (of_json j).

(** [json.NewEncoder(w).Encode(v)] ends with a newline. *)
Definition Encode (j : json) : string := render j +:+ Json.char 10 "".

Example rendered : render (JObject [("id", JString "a<b"); ("n", JInt (-3)); ("ok", JBool true)]) =
  "{" +:+ Json.char 34 ("id" +:+ Json.char 34 (":" +:+ Json.char 34 ("a\u003cb" +:+ Json.char 34 ("," +:+ Json.char 34 ("n" +:+
  Json.char 34 (":-3," +:+ Json.char 34 ("ok" +:+ Json.char 34 ":true}"))))))).
Proof. reflexivity. Qed.

(** ** Structures

    A member with the text it had, and a field: its name and its assignment. *)
Record member := MkMember { mb_key : string; mb_raw : string; mb_value : value }.
Definition field (A : Type) : Type := string * (member -> A -> option A).

Section structure.
Context {A : Type}.

(** The field of a key: the one of that name, or the first of it up to case. *)
Definition field_of (fields : list (field A)) (key : string) : option (field A) :=
  match find (fun f => bool_decide (f.1 = key)) fields with
  | Some f => Some f
  | None => find (fun f => EqualFoldASCII f.1 key) fields
  end.

Fixpoint decode_members (strict : bool) (fields : list (field A)) (ms : list member) (a : A) : option A :=
  match ms with
  | [] => Some a
  | m :: ms =>
      match field_of fields (mb_key m) with
      | None => if strict then None else decode_members strict fields ms a
      | Some f => a ← f.2 m a; decode_members strict fields ms a
      end
  end.

(** Assignments by the type of the field. *)
Definition set_string (f : string -> A -> A) (m : member) (a : A) : option A :=
  match mb_value m with VString s => Some (f s a) | VNull => Some a | _ => None end.
Definition set_int (f : Z -> A -> A) (m : member) (a : A) : option A :=
  match mb_value m with VNumber n => z ← parse_int n; Some (f z a) | VNull => Some a | _ => None end.
Definition set_bool (f : bool -> A -> A) (m : member) (a : A) : option A :=
  match mb_value m with VBool b => Some (f b a) | VNull => Some a | _ => None end.
(** Pointers. *)
Definition set_string_ptr (f : option string -> A -> A) (m : member) (a : A) : option A :=
  match mb_value m with VString s => Some (f (Some s) a) | VNull => Some (f None a) | _ => None end.
Definition set_int_ptr (f : option Z -> A -> A) (m : member) (a : A) : option A :=
  match mb_value m with VNumber n => z ← parse_int n; Some (f (Some z) a) | VNull => Some (f None a) | _ => None end.
(** [json.RawMessage]. *)
Definition set_raw (f : string -> A -> A) (m : member) (a : A) : option A := Some (f (mb_raw m) a).

End structure.

(** The members of a nested object; no field in one is a raw message. *)
Definition nested (ms : list (string * value)) : list member := map (fun m => MkMember m.1 "" m.2) ms.
(** A structure inside another, updated in place, and a pointer to one. *)
Definition set_struct {A B} (strict : bool) (fields : list (field B)) (get : A -> B) (put : B -> A -> A) (m : member) (a : A) : option A :=
  match mb_value m with
  | VObject ms => b ← decode_members strict fields (nested ms) (get a); Some (put b a)
  | VNull => Some a
  | _ => None
  end.
Definition set_struct_ptr {A B} (strict : bool) (fields : list (field B)) (zero : B) (get : A -> option B) (put : option B -> A -> A)
    (m : member) (a : A) : option A :=
  match mb_value m with
  | VObject ms => b ← decode_members strict fields (nested ms) (default zero (get a)); Some (put (Some b) a)
  | VNull => Some (put None a)
  | _ => None
  end.
(** A map of strings: a member replaces the one of its key, and a null one is
    the empty string. *)
Definition put_key (l : list (string * string)) (kv : string * string) : list (string * string) :=
  filter (fun p => p.1 <> kv.1) l ++ [kv].
Definition set_strings {A} (get : A -> list (string * string)) (put : list (string * string) -> A -> A) (m : member) (a : A) : option A :=
  match mb_value m with
  | VObject ms =>
      kvs ← mapM (fun m => match m.2 with VString s => Some (m.1, s) | VNull => Some (m.1, "") | _ => None end) ms;
      Some (put (fold_left put_key kvs (get a)) a)
  | VNull => Some (put [] a)
  | _ => None
  end.

(** ** Documents

    The members of the object a text starts with, after its brace, with their
    texts: those of [Json.parse_members]. *)
Fixpoint raw_members (fuel depth : nat) (s : string) : option (list member * string) :=
  match fuel with
  | O => None
  | S fuel =>
      let s := Json.skip_space s in
      if Json.starts 34 s then
        k ← Json.parse_string (drop_bytes 1 s);
        if Json.starts 58 (Json.skip_space k.2) then
          let text := Json.skip_space (drop_bytes 1 (Json.skip_space k.2)) in
          v ← Json.parse_value fuel depth text;
          let m := MkMember k.1 (Json.bytes (String.length text - String.length v.2) text) v.1 in
          let after := Json.skip_space v.2 in
          if Json.starts 44 after then t ← raw_members fuel depth (drop_bytes 1 after); Some (m :: t.1, t.2)
          else if Json.starts 125 after then Some ([m], drop_bytes 1 after)
          else None
        else None
      else None
  end.

(** What a decoder's first value is: an object with its members, a null, or
    something no structure takes; and the rest of the input. *)
Inductive document := DObject (ms : list member) | DNull | DOther.
Definition read_document (s : string) : option (document * string) :=
  let s := Json.skip_space s in
  if Json.starts 123 s then
    let r := drop_bytes 1 s in
    if Json.starts 125 (Json.skip_space r) then Some (DObject [], drop_bytes 1 (Json.skip_space r))
    else t ← raw_members (2 * S (String.length s)) (Json.maxNestingDepth - 1) r; Some (DObject t.1, t.2)
  else
    t ← Json.parse s; Some (match t.1 with VNull => DNull | _ => DOther end, t.2).

(** Whether a further [Decode] finds the end of the input. *)
Definition at_end (rest : string) : bool := bool_decide (Json.skip_space rest = "").

(** [decoder.Decode(&structure)], and whether the input ends there. *)
Definition decode_struct {A} (strict : bool) (fields : list (field A)) (zero : A) (s : string) : option (A * bool) :=
  d ← read_document s;
  match d.1 with
  | DObject ms => a ← decode_members strict fields ms zero; Some (a, at_end d.2)
  | DNull => Some (zero, at_end d.2)
  | DOther => None
  end.
(** [json.Unmarshal(data, &structure)]. *)
Definition unmarshal_struct {A} (fields : list (field A)) (zero : A) (s : string) : option A :=
  r ← decode_struct false fields zero s; if r.2 : bool then Some r.1 else None.
(** [Decode] into a map of raw messages: its keys, or [None] for null. *)
Definition decode_keys (s : string) : option (option (list string) * bool) :=
  d ← read_document s;
  match d.1 with
  | DObject ms => Some (Some (mb_key <$> ms), at_end d.2)
  | DNull => Some (None, at_end d.2)
  | DOther => None
  end.

(** ** What was written decodes to what was there *)
Definition written (ms : list (string * value)) : list member := map (fun m => MkMember m.1 (Json.print m.2) m.2) ms.

Lemma bytes_app (s t : string) : Json.bytes (String.length s) (s +:+ t) = s.
Proof.
  induction s as [|c s IH]; [by destruct t|].
  change (String.String c (Json.bytes (String.length s) (s +:+ t)) = String.String c s). by rewrite IH.
Qed.

Lemma bytes_all n (s : string) : (String.length s <= n)%nat -> Json.bytes n s = s.
Proof.
  revert n. induction s as [|c s IH]; intros [|n] Hn; [done|done|by cbn in Hn; lia|].
  change (String.String c (Json.bytes n s) = String.String c s). rewrite IH; [done|]. cbn in Hn. lia.
Qed.

Lemma skip_print depth v t : writable depth v -> Json.skip_space (Json.print v +:+ t) = Json.print v +:+ t.
Proof. intros Hw. destruct (print_first _ _ Hw) as (c & r & -> & Hc & _). rewrite app_cons. by apply skip_first. Qed.

Lemma read_raw_members ms : ms <> [] -> forall depth fuel t,
  Forall (fun m => Json.utf8_valid m.1 = true /\ writable depth m.2) ms ->
  (S (String.length (members_text ms)) < fuel)%nat ->
  raw_members fuel depth (members_text ms +:+ Json.char 125 t) = Some (written ms, t).
Proof.
  unfold members_text. induction ms as [|[k v] ms IH]; [done|]. intros _ depth fuel t [[Hk Hw] Hws]%Forall_cons Hf.
  destruct fuel as [|fuel]; [lia|]. cbn [raw_members]. cbn [fst snd] in *. destruct ms as [|m2 ms].
  - cbn [map String.concat fst snd] in *. rewrite !length_app_str in Hf. cbn [String.length Nat.add] in Hf.
    rewrite app_assoc_str, colon_app, quoted_app. marks. rewrite parse_string_quoted by done. marks. rewrite (skip_print depth) by done.
    rewrite value_reads_back by (done || (apply ends_mark; unfold mark; lia) || lia). marks.
    rewrite length_app_str, Nat.add_sub, bytes_app. done.
  - cbn [map] in *. rewrite join_cons in *. cbn [fst snd] in *. rewrite !length_app_str in Hf. cbn [String.length Nat.add] in Hf.
    rewrite app_assoc_str, comma_app, app_assoc_str, colon_app, quoted_app. marks. rewrite parse_string_quoted by done. marks.
    rewrite (skip_print depth) by done.
    rewrite value_reads_back by (done || (apply ends_mark; unfold mark; lia) || lia). marks.
    rewrite length_app_str, Nat.add_sub, bytes_app. rewrite IH by (done || lia). done.
Qed.

Lemma read_document_written ms t : writable Json.maxNestingDepth (VObject ms) ->
  read_document (Json.print (VObject ms) +:+ t) = Some (DObject (written ms), t).
Proof.
  intros Hw. unfold read_document. cbn [Json.print]. destruct ms as [|m ms]; [by destruct t|].
  change (("{" +:+ String.concat "," (map (fun m => Json.quoted m.1 +:+ ":" +:+ Json.print m.2) (m :: ms)) +:+ "}") +:+ t)
    with (Json.char 123 ((members_text (m :: ms) +:+ "}") +:+ t)).
  rewrite app_assoc_str. change ("}" +:+ t) with (Json.char 125 t). marks.
  replace (Json.starts 125 (Json.skip_space (members_text (m :: ms) +:+ Json.char 125 t))) with false.
  2:{ unfold members_text. destruct m as [k v], ms; cbn [map]; [|rewrite join_cons]; done. }
  assert (Hws : Forall (fun m => Json.utf8_valid m.1 = true /\ writable (Json.maxNestingDepth - 1) m.2) (m :: ms)).
  { by apply writable_members. }
  rewrite read_raw_members; [done|done|done|]. unfold Json.char. cbn [String.length]. rewrite length_app_str. lia.
Qed.

Lemma decode_struct_written {A} strict (fields : list (field A)) zero ms t : writable Json.maxNestingDepth (VObject ms) ->
  decode_struct strict fields zero (Json.print (VObject ms) +:+ t) =
  (a ← decode_members strict fields (written ms) zero; Some (a, at_end t)).
Proof. intros Hw. unfold decode_struct. by rewrite read_document_written. Qed.

Lemma decimal_go x : forall s, (0 < x)%N ->
  decimal_value (pretty_N_go x s) 0 = decimal_value s (Z.of_N x) /\ pretty_N_go x s <> "".
Proof.
  induction (N.lt_wf_0 x) as [x _ IH]. intros s Hx. split.
  2:{ destruct (pretty_go_form x Hx s) as (c & r & -> & _). by rewrite app_cons. }
  rewrite pretty_N_go_step by done. destruct (pretty_char_digit (x `mod` 10)) as [_ Hv]; [apply N.mod_lt; lia|].
  assert (Hd : decimal_value (String.String (pretty_N_char (x `mod` 10)) s) (Z.of_N (x `div` 10)) = decimal_value s (Z.of_N x)).
  { cbn [decimal_value]. rewrite Hv. pose proof (N.mod_lt x 10 ltac:(done)) as Hm. pose proof (N.div_mod x 10 ltac:(done)) as Hdm.
    remember (x `mod` 10)%N as r. remember (x `div` 10)%N as q. clear Heqr Heqq.
    replace ((0 <=? 48 + Z.of_N r - 48) && (48 + Z.of_N r - 48 <=? 9)) with true
      by (symmetry; apply andb_true_iff; rewrite !Z.leb_le; lia).
    f_equal. lia. }
  rewrite <-Hd. destruct (decide (x < 10)%N) as [Hlt|Hge].
  - by rewrite N.div_small by done.
  - apply (IH (x `div` 10)%N); [by apply N.div_lt|apply N.div_str_pos; lia].
Qed.

Lemma unsigned_decimal_pretty (x : N) : unsigned_decimal (pretty x) = Some (Z.of_N x).
Proof.
  unfold unsigned_decimal, pretty, pretty_N. case_decide as Hx; [by subst|].
  destruct (decimal_go x "") as [Hd Hne]; [lia|]. by rewrite bool_decide_false by done.
Qed.

(** An integer reads back when it has 64 bits. *)
Definition int64 (z : Z) : Prop := - 2 ^ 63 <= z < 2 ^ 63.
#[export] Instance int64_dec z : Decision (int64 z).
Proof. unfold int64. apply _. Defined.

Lemma in_range z : (- 2 ^ 63 <=? z) && (z <? 2 ^ 63) = bool_decide (int64 z).
Proof. unfold int64. case_bool_decide as H; [apply andb_true_iff|apply andb_false_iff]; rewrite ?Z.leb_le, ?Z.ltb_lt, ?Z.leb_gt, ?Z.ltb_ge; lia. Qed.

Lemma parse_int_written (z : Z) : parse_int (pretty z) = if bool_decide (int64 z) then Some z else None.
Proof.
  rewrite <-in_range.
  assert (Hn : forall x : N, parse_int (pretty x) = if (- 2 ^ 63 <=? Z.of_N x) && (Z.of_N x <? 2 ^ 63) then Some (Z.of_N x) else None).
  { intros x. unfold parse_int. destruct (natural_text x) as (c & r & E & Hc & _).
    assert (Hb : 48 <= byte_val c <= 57) by (unfold Json.is_digit in Hc; destruct_bools; lia).
    rewrite E. destruct (Ascii.eqb_spec c (Ascii.ascii_of_nat 45)) as [->|]; [by vm_compute in Hb; destruct Hb as [Hb _]; destruct Hb|].
    destruct (Ascii.eqb_spec c (Ascii.ascii_of_nat 43)) as [->|]; [by vm_compute in Hb; destruct Hb as [Hb _]; destruct Hb|].
    by rewrite <-E, unsigned_decimal_pretty. }
  destruct z as [|p|p]; [exact (Hn 0%N)|exact (Hn (N.pos p))|]. unfold parse_int.
  change (pretty (Z.neg p)) with (String.String (Ascii.ascii_of_nat 45) (pretty (N.pos p))). cbn match.
  change (Ascii.eqb (Ascii.ascii_of_nat 45) (Ascii.ascii_of_nat 45)) with true. cbn match.
  by rewrite unsigned_decimal_pretty.
Qed.
Lemma parse_int_pretty (z : Z) : int64 z -> parse_int (pretty z) = Some z.
Proof. intros Hz. by rewrite parse_int_written, bool_decide_true. Qed.

(** Decoding member by member. *)
Lemma decode_cons {A} strict (fields : list (field A)) k raw v ms a name f a' :
  field_of fields k = Some (name, f) -> f (MkMember k raw v) a = Some a' ->
  decode_members strict fields (MkMember k raw v :: ms) a = decode_members strict fields ms a'.
Proof. intros Hf Ha. cbn [decode_members mb_key]. rewrite Hf. cbn [snd]. by rewrite Ha. Qed.

Lemma set_int_written {A} (f : Z -> A -> A) k raw z a : int64 z -> set_int f (MkMember k raw (Json.VInt z)) a = Some (f z a).
Proof. intros Hz. unfold set_int, Json.VInt. cbn [mb_value]. by rewrite parse_int_pretty. Qed.
Lemma set_int_ptr_written {A} (f : option Z -> A -> A) k raw z a :
  int64 z -> set_int_ptr f (MkMember k raw (Json.VInt z)) a = Some (f (Some z) a).
Proof. intros Hz. unfold set_int_ptr, Json.VInt. cbn [mb_value]. by rewrite parse_int_pretty. Qed.

(** One member of an object that was written; a number must be one of 64 bits. *)
Ltac decode_step :=
  cbn [written nested map fst snd app];
  erewrite decode_cons; [|reflexivity|first [apply set_int_written; assumption|apply set_int_ptr_written; assumption|reflexivity]];
  cbv beta.
