(* ===== verification/Url.v ===== *)
(** * URLs as package [net/url] reads and writes them

    [url.Parse], [url.PathEscape] and [url.PathUnescape] on byte strings, with
    the round trips a share link needs. *)

From S2P Require Import Prelude GoStrings Codec RateLimit.

(** ** More of [strings] *)

(** [strings.Cut(s, sep)]. *)
Fixpoint Cut (sep s : string) : string * string * bool :=
  if has_prefix sep s then ("", drop_bytes (String.length sep) s, true)
  else match s with
       | "" => ("", "", false)
       | String.String a r => let '(x, y, found) := Cut sep r in (String.String a x, y, found)
       end.
Definition Contains_str (s sub : string) : bool := (Cut sub s).2.
(** [strings.ContainsAny(s, chars)]. *)
Fixpoint ContainsAny (s chars : string) : bool :=
  match s with "" => false | String.String a r => contains_byte a chars || ContainsAny r chars end.
(** Every byte of the string. *)
Fixpoint all_bytes (p : Ascii.ascii -> bool) (s : string) : bool :=
  match s with "" => true | String.String c r => p c && all_bytes p r end.
Definition HasSuffix_byte (c : Ascii.ascii) (s : string) : bool :=
  match last_index c s 0 with Some i => (S i =? String.length s)%nat | None => false end.
Fixpoint Count_byte (c : Ascii.ascii) (s : string) : nat :=
  match s with "" => 0 | String.String a r => (if Ascii.eqb a c then 1 else 0) + Count_byte c r end.

(** ** Escaping *)
Inductive encoding := encodePath | encodePathSegment | encodeHost | encodeZone | encodeUserPassword | encodeFragment.

Definition is_letter (c : Ascii.ascii) : bool :=
  let n := Ascii.nat_of_ascii c in chr_in n 65 90 || chr_in n 97 122.
Definition is_digit (c : Ascii.ascii) : bool := chr_in (Ascii.nat_of_ascii c) 48 57.
Definition quote_mark : Ascii.ascii := Ascii.ascii_of_nat 34.
Definition percent : Ascii.ascii := Ascii.ascii_of_nat 37.
Definition question : Ascii.ascii := Ascii.ascii_of_nat 63.
Definition hash_mark : Ascii.ascii := Ascii.ascii_of_nat 35.

Definition host_mode (m : encoding) : bool := match m with encodeHost | encodeZone => true | _ => false end.

Definition shouldEscape (c : Ascii.ascii) (m : encoding) : bool :=
  if is_letter c || is_digit c then false
  else if host_mode m && (contains_byte c "!$&'()*+,;=:[]<>" || Ascii.eqb c quote_mark) then false
  else if contains_byte c "-_.~" then false
  else if contains_byte c "$&+,/:;=?@" then
    match m with
    | encodePath => Ascii.eqb c question
    | encodePathSegment => contains_byte c "/;,?"
    | encodeUserPassword => contains_byte c "@/?:"
    | encodeFragment => false
    | encodeHost | encodeZone => true
    end
  else match m with
       | encodeFragment => negb (contains_byte c "!()*")
       | _ => true
       end.

Definition upper_hex (v : Z) : Ascii.ascii := byte_of (if v <? 10 then 48 + v else 55 + v).

Fixpoint escape (m : encoding) (s : string) : string :=
  match s with
  | "" => ""
  | String.String c r =>
      if shouldEscape c m
      then String.String percent (String.String (upper_hex (byte_val c / 16))
             (String.String (upper_hex (byte_val c mod 16)) (escape m r)))
      else String.String c (escape m r)
  end.

(** What an escape may not stand for, in a host or a zone. *)
Definition bad_escape (m : encoding) (x y : Z) : bool :=
  let v := 16 * x + y in
  match m with
  | encodeHost => (x <? 8) && negb (v =? 37)
  | encodeZone => negb (v =? 37) && negb (v =? 32) && shouldEscape (byte_of v) encodeHost
  | _ => false
  end.

Fixpoint unescape (m : encoding) (s : string) : option string :=
  match s with
  | "" => Some ""
  | String.String c r =>
      if Ascii.eqb c percent then
        match r with
        | String.String h (String.String l r2) =>
            match hex_value h, hex_value l with
            | Some x, Some y =>
                if bad_escape m x y then None
                else t ← unescape m r2; Some (String.String (byte_of (16 * x + y)) t)
            | _, _ => None
            end
        | _ => None
        end
      else if host_mode m && (byte_val c <? 128) && shouldEscape c m then None
      else t ← unescape m r; Some (String.String c t)
  end.

Definition PathEscape : string -> string := escape encodePathSegment.
Definition PathUnescape : string -> option string := unescape encodePathSegment.

(** ** [url.Parse] *)
Record URL := MkURL {
  u_Scheme : string;
  u_Opaque : string;
  u_Host : string;
  u_Path : string;
  u_RawQuery : string;
  u_Fragment : string;
  u_RawFragment : string;
}.

Fixpoint has_ctl (s : string) : bool :=
  match s with
  | "" => false
  | String.String c r => (byte_val c <? 32) || (byte_val c =? 127) || has_ctl r
  end.

(** The loop of [getScheme]: the bytes before the first colon, if they may
    be in a scheme. *)
Fixpoint scheme_scan (s : string) : option (string * string) :=
  match s with
  | "" => None
  | String.String c r =>
      if Ascii.eqb c colon then Some ("", r)
      else if is_letter c || is_digit c || contains_byte c "+-."
      then '(x, y) ← scheme_scan r; Some (String.String c x, y)
      else None
  end.
Definition getScheme (raw : string) : option (string * string) :=
  match raw with
  | "" => Some ("", "")
  | String.String c _ =>
      if Ascii.eqb c colon then None
      else if is_letter c then Some (default ("", raw) (scheme_scan raw))
      else Some ("", raw)
  end.

Definition validOptionalPort (port : string) : bool :=
  match port with
  | "" => true
  | String.String c r => Ascii.eqb c colon && all_bytes is_digit r
  end.

Definition parseHost (host : string) : option string :=
  if has_prefix "[" host then
    match last_index rbracket host 0 with
    | None => None
    | Some i =>
        if negb (validOptionalPort (drop_bytes (S i) host)) then None
        else
          let '(before, after, found) := Cut "%25" (String.substring 0 i host) in
          if found then
            host1 ← unescape encodeHost before;
            host2 ← unescape encodeZone ("%25" +:+ after);
            host3 ← unescape encodeHost (drop_bytes i host);
            Some (host1 +:+ host2 +:+ host3)
          else unescape encodeHost host
    end
  else
    if match last_index colon host 0 with Some i => negb (validOptionalPort (drop_bytes i host)) | None => false end
    then None
    else unescape encodeHost host.

Definition validUserinfo (s : string) : bool :=
  all_bytes (fun c => is_letter c || is_digit c || contains_byte c "-._:~!$&'()*+,;=%@") s.

(** [parseAuthority]: the host; the user part must be well formed. *)
Definition parseAuthority (authority : string) : option string :=
  match last_index (Ascii.ascii_of_nat 64) authority 0 with
  | None => parseHost authority
  | Some i =>
      host ← parseHost (drop_bytes (S i) authority);
      let userinfo := String.substring 0 i authority in
      if negb (validUserinfo userinfo) then None
      else
        let '(username, password, found) := cut_on colon userinfo in
        _ ← unescape encodeUserPassword (if found then username else userinfo);
        _ ← unescape encodeUserPassword (if found then password else "");
        Some host
  end.

(** [parse(rawURL, false)]. *)
Definition parse (raw : string) : option URL :=
  if has_ctl raw then None
  else if bool_decide (raw = "*") then Some (MkURL "" "" "" "*" "" "" "")
  else
    '(scheme, rest) ← getScheme raw;
    let scheme := to_lower scheme in
    let '(rest, query) :=
      if HasSuffix_byte question rest && (Count_byte question rest =? 1)%nat
      then (String.substring 0 (String.length rest - 1) rest, "")
      else let '(a, b, _) := cut_on question rest in (a, b) in
    if negb (has_prefix "/" rest) && bool_decide (scheme <> "") then Some (MkURL scheme rest "" "" query "" "")
    else if negb (has_prefix "/" rest) && contains_byte colon (cut_on slash rest).1.1 then None
    else
      '(host, rest) ←
        (if (bool_decide (scheme <> "") || negb (has_prefix "///" rest)) && has_prefix "//" rest then
           let '(authority, path, found) := cut_on slash (drop_bytes 2 rest) in
           host ← parseAuthority authority; Some (host, if found then String.String slash path else "")
         else Some ("", rest));
      path ← unescape encodePath rest;
      Some (MkURL scheme "" host path query "" "").

Definition Parse (raw : string) : option URL :=
  let '(u, frag, _) := cut_on hash_mark raw in
  url ← parse u;
  if bool_decide (frag = "") then Some url
  else
    f ← unescape encodeFragment frag;
    Some (MkURL (u_Scheme url) (u_Opaque url) (u_Host url) (u_Path url) (u_RawQuery url) f
            (if bool_decide (frag = escape encodeFragment f) then "" else frag)).

(** ** Lemmas *)

(** A property of bytes, by trying them all. *)
Lemma all_ascii (p : Ascii.ascii -> bool) :
  forallb (fun n => p (Ascii.ascii_of_nat n)) (seq 0 256) = true -> forall c, p c = true.
Proof.
  intros H c. rewrite forallb_forall in H. rewrite <-(Ascii.ascii_nat_embedding c). apply H.
  apply in_seq. pose proof (Ascii.nat_ascii_bounded c). lia.
Qed.
Lemma all_ascii_impl (p q : Ascii.ascii -> bool) :
  forallb (fun n => implb (p (Ascii.ascii_of_nat n)) (q (Ascii.ascii_of_nat n))) (seq 0 256) = true ->
  forall c, p c = true -> q c = true.
Proof. intros H c Hp. pose proof (all_ascii (fun c => implb (p c) (q c)) H c) as Hi. simpl in Hi. by rewrite Hp in Hi. Qed.

Lemma all_bytes_app p s t : all_bytes p (s +:+ t) = all_bytes p s && all_bytes p t.
Proof. induction s as [|a s IH]; simpl; [done|]. by rewrite IH, andb_assoc. Qed.
Lemma all_bytes_mono (p q : Ascii.ascii -> bool) s :
  (forall c, p c = true -> q c = true) -> all_bytes p s = true -> all_bytes q s = true.
Proof. intros H. induction s as [|a s IH]; simpl; [done|]. intros [??]%andb_true_iff. apply andb_true_iff. auto. Qed.

Lemma contains_none c s : all_bytes (fun a => negb (Ascii.eqb a c)) s = true <-> contains_byte c s = false.
Proof.
  induction s as [|a s IH]; simpl; [done|]. rewrite andb_true_iff, orb_false_iff, negb_true_iff. by rewrite IH.
Qed.

Lemma cut_on_none c s : contains_byte c s = false -> cut_on c s = (s, "", false).
Proof. induction s as [|a s IH]; simpl; [done|]. intros [Ha Hs]%orb_false_iff. by rewrite Ha, IH. Qed.

(** *** Escapes *)
Lemma hex_upper (v : Z) : 0 <= v < 16 -> hex_value (upper_hex v) = Some v.
Proof.
  intros Hv. assert (H : forallb (fun n => bool_decide (hex_value (upper_hex (Z.of_nat n)) = Some (Z.of_nat n))) (seq 0 16) = true) by by vm_compute.
  rewrite forallb_forall in H. specialize (H (Z.to_nat v)). rewrite Z2Nat.id in H by lia.
  apply bool_decide_eq_true in H; [done|]. apply in_seq. lia.
Qed.

Lemma upper_hex_plain v : 0 <= v < 16 -> is_letter (upper_hex v) || is_digit (upper_hex v) = true.
Proof.
  intros Hv. assert (H : forallb (fun n => is_letter (upper_hex (Z.of_nat n)) || is_digit (upper_hex (Z.of_nat n))) (seq 0 16) = true) by by vm_compute.
  rewrite forallb_forall in H. specialize (H (Z.to_nat v)). rewrite Z2Nat.id in H by lia. apply H. apply in_seq. lia.
Qed.

Lemma byte_halves c : 0 <= byte_val c / 16 < 16 /\ 0 <= byte_val c mod 16 < 16 /\ byte_of (16 * (byte_val c / 16) + byte_val c mod 16) = c.
Proof.
  pose proof (byte_val_range c). rewrite <-Z.div_mod by lia. rewrite byte_of_val.
  split_and!; [apply Z.div_pos; lia|apply Z.div_lt_upper_bound; lia|apply Z.mod_pos_bound; lia..|done].
Qed.

(** Every byte that [%] escapes are never made of passes unescaped. *)
Lemma unescape_plain m s t :
  host_mode m = false -> contains_byte percent s = false ->
  unescape m (s +:+ t) = (u ← unescape m t; Some (s +:+ u)).
Proof.
  intros Hm. induction s as [|a s IH]; simpl; [intros _; change ("" +:+ t) with t; by destruct (unescape m t)|].
  intros [Ha Hs]%orb_false_iff. rewrite Ha, Hm, IH by done. simpl. by destruct (unescape m t).
Qed.
Lemma unescape_plain_all m s : host_mode m = false -> contains_byte percent s = false -> unescape m s = Some s.
Proof.
  intros Hm. induction s as [|a s IH]; simpl; [done|]. intros [Ha Hs]%orb_false_iff. by rewrite Ha, Hm, IH.
Qed.

Lemma bad_escape_path m x y : host_mode m = false -> bad_escape m x y = false.
Proof. destruct m; simpl; congruence. Qed.

Lemma unescape_escape m m' s :
  host_mode m = false -> shouldEscape percent m' = true -> unescape m (escape m' s) = Some s.
Proof.
  intros Hm Hp. induction s as [|c s IH]; simpl; [done|]. destruct (shouldEscape c m') eqn:E.
  - destruct (byte_halves c) as (H1 & H2 & H3). simpl. rewrite !hex_upper by done.
    rewrite bad_escape_path by done. rewrite IH. simpl. by rewrite H3.
  - simpl. destruct (Ascii.eqb_spec c percent) as [->|]; [by rewrite Hp in E|]. rewrite Hm. simpl. by rewrite IH.
Qed.

Lemma unescape_host s :
  all_bytes (fun c => negb (Ascii.eqb c percent) && negb ((byte_val c <? 128) && shouldEscape c encodeHost)) s = true ->
  unescape encodeHost s = Some s.
Proof.
  induction s as [|c s IH]; simpl; [done|]. intros [[Hc Hp]%andb_true_iff Hs]%andb_true_iff.
  apply negb_true_iff in Hc, Hp. rewrite Hc, Hp, IH by done. done.
Qed.

(** An escaped path segment is made of harmless bytes. *)
Definition link_byte (c : Ascii.ascii) : bool :=
  is_letter c || is_digit c || contains_byte c "-_.~$&+:=@%".
Lemma segment_bytes s : all_bytes link_byte (PathEscape s) = true.
Proof.
  unfold PathEscape. induction s as [|c s IH]; simpl; [done|]. destruct (shouldEscape c encodePathSegment) eqn:E.
  - destruct (byte_halves c) as (H1 & H2 & _). simpl. rewrite IH, !andb_true_r. unfold link_byte.
    rewrite !upper_hex_plain by done. done.
  - simpl. rewrite IH, andb_true_r. apply negb_true_iff in E. revert E. apply (all_ascii_impl (fun c => negb (shouldEscape c encodePathSegment)) link_byte). by vm_compute.
Qed.

Lemma escape_plain m s : all_bytes (fun c => negb (shouldEscape c m)) s = true -> escape m s = s.
Proof.
  induction s as [|c s IH]; simpl; [done|]. intros [Hc Hs]%andb_true_iff. apply negb_true_iff in Hc.
  by rewrite Hc, IH.
Qed.
