(* ===== verification/ClientCrypto.v ===== *)
(** * Client cryptography (src/internal/clientcrypto)

    The access proof of a passphrase secret, the wrapped identity, and the
    identity in a link's fragment.  The age library is the class [Age]; a file
    it encrypts or decrypts is modelled by what its readers and writers yield:
    a decrypting reader releases some plaintext and then ends or fails. *)

From S2P Require Import Prelude GoStrings Codec World AgeFormat Http Config Url.

(** ** PBKDF2 with HMAC-SHA-256, for keys of one block *)
Fixpoint xor_bytes (s t : string) : string :=
  match s, t with
  | String.String a s, String.String b t => String.String (byte_of (Z.lxor (byte_val a) (byte_val b))) (xor_bytes s t)
  | _, _ => ""
  end.
Fixpoint repeat_byte (z : Z) (n : nat) : string :=
  match n with O => "" | S n => String.String (byte_of z) (repeat_byte z n) end.
Definition hmac_block (key : string) : string :=
  let k := if (64 <? String.length key)%nat then sha256 key else key in
  k +:+ repeat_byte 0 (64 - String.length k).
Definition hmac (key msg : string) : string :=
  let k := hmac_block key in
  sha256 (xor_bytes k (repeat_byte 92 64) +:+ sha256 (xor_bytes k (repeat_byte 54 64) +:+ msg)).
Definition pbkdf2_key (password salt : string) (iterations : Z) : string :=
  let u1 := hmac password (salt +:+ repeat_byte 0 3 +:+ repeat_byte 1 1) in
  (Nat.iter (Z.to_nat (iterations - 1)) (fun '(u, t) => let u' := hmac password u in (u', xor_bytes t u')) (u1, u1)).2.

(** ** The access proof (access.go) *)
Definition KDFAlgorithm : string := "PBKDF2-SHA-256".
Definition KDFIterations : Z := 600000.
Definition KDFMaxIterations : Z := 6000000.
Definition KeyLengthBits : Z := 256.
Definition SaltBytes : nat := 16.
Definition AccessVerifierPurpose : string := "Flick access verifier v1".

Record KDFParams := MkKDF {
  kdf_Algorithm : string;
  kdf_Salt : string;
  kdf_Iterations : Z;
  kdf_KeyLengthBits : Z;
}.
Record AccessVerifier := MkVerifier { av_KDF : KDFParams; av_Proof : string }.

Definition ErrDecrypt : err := Fail "decryption failed: wrong passphrase or key, or the payload was altered".

Definition ValidateKDF (kdf : KDFParams) : result unit :=
  let* _ := refuse_if (bool_decide (kdf_Algorithm kdf <> KDFAlgorithm)) "unsupported KDF algorithm" in
  let* _ := refuse_if (kdf_Iterations kdf <? KDFIterations) "KDF iterations below the minimum" in
  let* _ := refuse_if (KDFMaxIterations <? kdf_Iterations kdf) "KDF iterations above the maximum" in
  let* _ := refuse_if (negb (kdf_KeyLengthBits kdf =? KeyLengthBits)) "unsupported KDF key length" in
  refuse_if (bool_decide (kdf_Salt kdf = "")) "KDF salt is required".

Definition DeriveAccessProof (passphrase : string) (kdf : KDFParams) : result string :=
  let* _ := ValidateKDF kdf in
  let* _ := refuse_if (bool_decide (passphrase = "")) "passphrase is required" in
  match Base64.decode Base64.StdEncoding (kdf_Salt kdf) with
  | None => Err (Fail "access KDF salt is not valid base64")
  | Some salt =>
      let material := AccessVerifierPurpose +:+ String.String (byte_of 0) passphrase in
      Ok (Base64.encode Base64.StdEncoding (pbkdf2_key material salt (kdf_Iterations kdf)))
  end.

Definition NewAccessVerifier {ENV : Env} {D} (passphrase : string) : M D AccessVerifier :=
  let! salt := rand_read SaltBytes "could not read random bytes" in
  let kdf := MkKDF KDFAlgorithm (Base64.encode Base64.StdEncoding salt) KDFIterations KeyLengthBits in
  let! proof := lift (DeriveAccessProof passphrase kdf) in
  ret (MkVerifier kdf proof).

(** ** The age library *)
Definition IdentityPrefix : string := "AGE-SECRET-KEY-PQ-1".
Definition WrapWorkFactor : Z := 18.
Definition MaxWrapWorkFactor : Z := 20.
Definition maxIdentityBytes : Z := 1024.

(** What a reader yields: the bytes it releases, and the error that ends it,
    if it does not end cleanly. *)
Record reading := MkReading { released : string; failure : option err }.

(** [age.NoIdentityMatchError], which [decryptError] recognises. *)
Definition NoIdentityMatch : err := Fail "no identity matched any of the recipients".

Class Age := {
  HybridIdentity : Type;
  identity_eq :: EqDecision HybridIdentity;
  identity_string : HybridIdentity -> string;
  ParseHybridIdentity : string -> option HybridIdentity;
  (** [age.GenerateHybridIdentity] from the random source at a tick *)
  GenerateHybridIdentity : nat -> option HybridIdentity;
  (** the age file of a plaintext to an identity's recipient, drawn at a tick *)
  age_encrypt : nat -> HybridIdentity -> string -> result string;
  (** [age.Decrypt] of a source: an error, or a reader of the plaintext *)
  age_decrypt : HybridIdentity -> reading -> result reading;
  (** a passphrase file at a work factor, and its decryption up to one *)
  scrypt_encrypt : nat -> Z -> string -> string -> result string;
  scrypt_decrypt : Z -> string -> string -> result reading;
}.

(** The documented behaviour of the library: an identity's text is uppercase
    bech32 after its prefix, short, and parses back; a file decrypts with the
    identity it was encrypted to, and a passphrase file with its passphrase if
    its work factor is not above the maximum. *)
Definition bech32_upper (c : Ascii.ascii) : bool :=
  contains_byte c "023456789ACDEFGHJKLMNPQRSTUVWXYZ".

(** [identityPattern.MatchString(s)]. *)
Definition identity_pattern (s : string) : bool :=
  has_prefix IdentityPrefix s &&
  let body := drop_bytes (String.length IdentityPrefix) s in
  bool_decide (body <> "") && all_bytes bech32_upper body.

Definition maxKeyFragmentChars : Z := 128.
Definition FragmentKeyPrefix : string := "key=".

Class AgeSpec {AGE : Age} := {
  identity_form : forall id, identity_pattern (identity_string id) = true;
  identity_short : forall id, strlen (identity_string id) <= maxKeyFragmentChars;
  identity_parses : forall id, ParseHybridIdentity (identity_string id) = Some id;
  decrypt_encrypt : forall t id p f, age_encrypt t id p = Ok f ->
    age_decrypt id (MkReading f None) = Ok (MkReading p None);
  encrypt_magic : forall t id p f, age_encrypt t id p = Ok f -> has_prefix ageMagic f = true;
  (** the format's header for one recipient, a nonce, and a tag per chunk *)
  encrypt_size : forall t id p f, age_encrypt t id p = Ok f -> strlen f <= age_size (strlen p);
  scrypt_roundtrip : forall t w m pass p f, scrypt_encrypt t w pass p = Ok f -> w <= m ->
    scrypt_decrypt m pass f = Ok (MkReading p None);
  scrypt_magic : forall t w pass p f, scrypt_encrypt t w pass p = Ok f -> has_prefix ageMagic f = true;
}.

Section age.
Context {AGE : Age}.

Definition decryptError (e : err) : err := if bool_decide (e = NoIdentityMatch) then ErrDecrypt else e.

Definition ParseIdentity (s : string) : result HybridIdentity :=
  let s := TrimSpace s in
  let* _ := refuse_if (negb (has_prefix IdentityPrefix s)) "identity must start with AGE-SECRET-KEY-PQ-1" in
  match ParseHybridIdentity s with
  | Some id => Ok id
  | None => Err (Fail "malformed hybrid identity")
  end.

Definition NewIdentity {D} : M D HybridIdentity :=
  let! o := ask GenerateHybridIdentity in
  match o with Some id => ret id | None => throw (Fail "could not generate an identity") end.

(** [EncryptTo], all of the plaintext written and the writer closed. *)
Definition EncryptTo {D} (id : HybridIdentity) (plaintext : string) : M D string :=
  let! r := ask (fun t => age_encrypt t id plaintext) in lift r.

Definition DecryptWith (src : reading) (id : HybridIdentity) : result reading :=
  match age_decrypt id src with
  | Ok r => Ok r
  | Err e => Err (decryptError e)
  end.

Definition WrapIdentity {D} (id : HybridIdentity) (passphrase : string) : M D string :=
  do! fail_if (bool_decide (passphrase = "")) (Fail "passphrase is required") in
  let! r := ask (fun t => scrypt_encrypt t WrapWorkFactor passphrase (identity_string id)) in lift r.

(** [io.ReadAll(io.LimitReader(r, n))]: an error beyond the limit is not seen. *)
Definition read_limited (n : Z) (r : reading) : result string :=
  if n <=? strlen (released r) then Ok (take_bytes (Z.to_nat n) (released r))
  else match failure r with None => Ok (released r) | Some e => Err e end.

Definition UnwrapIdentity (wrapped passphrase : string) : result HybridIdentity :=
  let* _ := refuse_if (bool_decide (passphrase = "")) "passphrase is required" in
  match scrypt_decrypt MaxWrapWorkFactor passphrase wrapped with
  | Err e => Err (decryptError e)
  | Ok r =>
      match read_limited (maxIdentityBytes + 1) r with
      | Err e => Err (decryptError e)
      | Ok plaintext =>
          let* _ := refuse_if (maxIdentityBytes <? strlen plaintext) "wrapped identity is too large" in
          ParseIdentity plaintext
      end
  end.

(** ** The fragment (fragment.go) *)
Definition EncodeKeyFragment (id : HybridIdentity) : string := FragmentKeyPrefix +:+ identity_string id.

(** [strings.TrimPrefix] and [strings.CutPrefix]. *)
Definition TrimPrefix (s p : string) : string :=
  if has_prefix p s then drop_bytes (String.length p) s else s.

Definition DecodeKeyFragment (fragment : string) : result HybridIdentity :=
  let stripped := TrimPrefix fragment "#" in
  let* _ := refuse_if (negb (has_prefix FragmentKeyPrefix stripped)) "link fragment does not carry a key" in
  let encoded := drop_bytes (String.length FragmentKeyPrefix) stripped in
  let* _ := refuse_if (bool_decide (encoded = "") || (maxKeyFragmentChars <? strlen encoded))
                      "link fragment key has an implausible length" in
  let* _ := refuse_if (negb (identity_pattern encoded)) "link fragment key is not an age identity" in
  match ParseIdentity encoded with
  | Ok id => Ok id
  | Err _ => Err (Fail "link fragment key is not a valid age identity")
  end.
End age.
