(* ===== verification/ShareLink.v ===== *)
(** * Share links (src/internal/flickcli/link.go)

    A link names the deployment, the secret and, without a passphrase, the
    identity that decrypts it, in the fragment a browser never sends. *)

From S2P Require Import Prelude GoStrings Codec World AgeFormat Http RateLimit Config ConfigProofs Url ClientCrypto.

Definition SharePath : string := "/s/".

Section link.
Context {AGE : Age}.

Record ShareLink := MkLink {
  sl_Origin : string;
  sl_ID : string;
  sl_Identity : option HybridIdentity;
}.

Definition ParseShareLink (raw : string) : result ShareLink :=
  let trimmed := TrimSpace raw in
  let* _ := refuse_if (bool_decide (trimmed = "")) "a share link or secret ID is required" in
  if negb (Contains_str trimmed "://") then
    let* _ := refuse_if (ContainsAny trimmed "/#?") "neither a full share link nor a secret ID" in
    Ok (MkLink "" trimmed None)
  else
    match Parse trimmed with
    | None => Err (Fail "could not parse the share link")
    | Some parsed =>
        let* _ := refuse_if (bool_decide (u_Host parsed = "")) "share link has no host" in
        let '(prefix, id, found) := Cut SharePath (u_Path parsed) in
        let* _ := refuse_if (negb found || bool_decide (id = "")) "share link does not contain a /s/<id> path" in
        let* _ := refuse_if (contains_byte slash id) "share link has extra path segments after the secret ID" in
        match PathUnescape id with
        | None => Err (Fail "secret ID is not valid")
        | Some id =>
            let origin := trim_right_byte slash (u_Scheme parsed +:+ "://" +:+ u_Host parsed +:+ prefix) in
            if bool_decide (u_Fragment parsed <> "") then
              let fragment := if bool_decide (u_RawFragment parsed = "") then u_Fragment parsed else u_RawFragment parsed in
              let* identity := DecodeKeyFragment fragment in
              Ok (MkLink origin id (Some identity))
            else Ok (MkLink origin id None)
        end
    end.

Definition BuildShareLink (origin id : string) (identity : option HybridIdentity) : string :=
  let link := trim_right_byte slash origin +:+ SharePath +:+ PathEscape id in
  match identity with
  | Some i => link +:+ "#" +:+ EncodeKeyFragment i
  | None => link
  end.

(** ** Well-formed origins *)
Definition host_byte (c : Ascii.ascii) : bool := is_letter c || is_digit c || contains_byte c "-_.~:".
Definition path_byte (c : Ascii.ascii) : bool := is_letter c || is_digit c || contains_byte c "-_.~/".
Definition scheme_byte (c : Ascii.ascii) : bool := (is_letter c && Ascii.eqb (lower c) c) || is_digit c || contains_byte c "+-.".

(** [scheme://host prefix], in lower case, with a valid port if any, and with
    no [/s/] in the path the deployment is served under. *)
Record origin_ok (scheme host prefix : string) : Prop := {
  ok_scheme : match scheme with String.String c _ => is_letter c | "" => false end = true /\ all_bytes scheme_byte scheme = true;
  ok_host : host <> "" /\ all_bytes host_byte host = true;
  ok_port : match last_index colon host 0 with Some i => validOptionalPort (drop_bytes i host) | None => true end = true;
  ok_prefix : (prefix = "" \/ has_prefix "/" prefix = true) /\ all_bytes path_byte prefix = true;
  ok_share : Contains_str (prefix +:+ "/s") SharePath = false;
}.

(** ** Lemmas *)
Definition visible (c : Ascii.ascii) : bool := (32 <? byte_val c) && (byte_val c <? 127).

Lemma TrimSpace_visible s : all_bytes visible s = true -> TrimSpace s = s.
Proof.
  intros H. apply TrimSpace_graphic. induction s as [|c s IH]; [done|]. simpl in H. apply andb_true_iff in H as [Hc Hs].
  split; [|by apply IH]. unfold visible, byte_val in Hc. destruct_bools. unfold Ascii.nat_of_ascii. lia.
Qed.

Lemma has_prefix_long p s t : (String.length p <= String.length s)%nat -> has_prefix p (s +:+ t) = has_prefix p s.
Proof.
  unfold has_prefix. revert s. induction p as [|a p IH]; intros [|b s]; simpl; try done; [by destruct (_ +:+ t)|lia|].
  intros Hl. destruct (Ascii.ascii_dec a b); [|done]. apply IH. lia.
Qed.

Lemma Contains_cons sub c s : Contains_str (String.String c s) sub = false ->
  has_prefix sub (String.String c s) = false /\ Contains_str s sub = false.
Proof.
  unfold Contains_str. cbn [Cut]. destruct (has_prefix sub (String.String c s)); [simpl; congruence|].
  destruct (Cut sub s) as [[x y] f]. auto.
Qed.

Lemma append_nil_r (s : string) : s +:+ "" = s.
Proof. induction s as [|c s IH]; [done|]. change (String.String c (s +:+ "") = String.String c s). by rewrite IH. Qed.
Lemma append_assoc (s t u : string) : (s +:+ t) +:+ u = s +:+ t +:+ u.
Proof.
  induction s as [|c s IH]; [done|].
  change (String.String c ((s +:+ t) +:+ u) = String.String c (s +:+ t +:+ u)). by rewrite IH.
Qed.

Lemma Cut_share prefix id : Contains_str (prefix +:+ "/s") SharePath = false ->
  Cut SharePath (prefix +:+ SharePath +:+ id) = (prefix, id, true).
Proof.
  induction prefix as [|c prefix IH]; intros H; [by destruct id|].
  change (String.String c prefix +:+ "/s") with (String.String c (prefix +:+ "/s")) in H.
  apply Contains_cons in H as [Hp Hc].
  change (String.String c prefix +:+ SharePath +:+ id) with (String.String c (prefix +:+ SharePath +:+ id)). cbn [Cut].
  assert (E : String.String c (prefix +:+ SharePath +:+ id) = String.String c (prefix +:+ "/s") +:+ ("/" +:+ id)).
  { change (String.String c (prefix +:+ "/s") +:+ ("/" +:+ id)) with (String.String c ((prefix +:+ "/s") +:+ ("/" +:+ id))).
    f_equal. by rewrite append_assoc. }
  rewrite E, has_prefix_long by (simpl; rewrite strlen_app; simpl; lia). rewrite Hp, IH by done. done.
Qed.

(** The bytes of a link before its fragment. *)
Definition url_byte (c : Ascii.ascii) : bool := is_letter c || is_digit c || contains_byte c "-_.~$&+:=@%/".

Lemma url_byte_not s c : all_bytes url_byte s = true -> url_byte c = false -> contains_byte c s = false.
Proof.
  intros H Hc. apply contains_none. revert H. apply all_bytes_mono. intros a Ha.
  destruct (Ascii.eqb_spec a c) as [->|]; [by rewrite Ha in Hc|done].
Qed.
Lemma url_byte_ctl s : all_bytes url_byte s = true -> has_ctl s = false.
Proof.
  induction s as [|c s IH]; simpl; [done|]. intros [Hc Hs]%andb_true_iff. rewrite IH, orb_false_r by done.
  apply negb_true_iff. revert Hc.
  apply (all_ascii_impl url_byte (fun c => negb ((byte_val c <? 32) || (byte_val c =? 127)))). by vm_compute.
Qed.

Lemma last_index_none c s i : contains_byte c s = false -> last_index c s i = None.
Proof.
  revert i. induction s as [|a s IH]; simpl; intros i; [done|]. intros [Ha Hs]%orb_false_iff. by rewrite IH, Ha.
Qed.

Lemma scheme_scan_app scheme rest : all_bytes scheme_byte scheme = true ->
  scheme_scan (scheme +:+ ":" +:+ rest) = Some (scheme, rest).
Proof.
  induction scheme as [|c s IH]; [done|]. cbn [all_bytes]. intros [Hc Hs]%andb_true_iff.
  change (String.String c s +:+ ":" +:+ rest) with (String.String c (s +:+ ":" +:+ rest)). cbn [scheme_scan]. rewrite IH by done.
  assert (Hx : negb (Ascii.eqb c colon) && (is_letter c || is_digit c || contains_byte c "+-.") = true).
  { revert Hc. apply (all_ascii_impl scheme_byte (fun c => negb (Ascii.eqb c colon) && (is_letter c || is_digit c || contains_byte c "+-."))). by vm_compute. }
  apply andb_true_iff in Hx as [H1 H2]. apply negb_true_iff in H1. by rewrite H1, H2.
Qed.
Lemma to_lower_scheme s : all_bytes scheme_byte s = true -> to_lower s = s.
Proof.
  induction s as [|c s IH]; simpl; [done|]. intros [Hc Hs]%andb_true_iff. rewrite IH by done. f_equal.
  apply Ascii.eqb_eq. revert Hc. apply (all_ascii_impl scheme_byte (fun c => Ascii.eqb (lower c) c)). by vm_compute.
Qed.

Lemma parseAuthority_host host : host <> "" -> all_bytes host_byte host = true ->
  match last_index colon host 0 with Some i => validOptionalPort (drop_bytes i host) | None => true end = true ->
  parseAuthority host = Some host.
Proof.
  intros Hne Hh Hp. unfold parseAuthority. rewrite last_index_none.
  2:{ apply contains_none. revert Hh. apply all_bytes_mono.
      apply (all_ascii_impl host_byte (fun a => negb (Ascii.eqb a (Ascii.ascii_of_nat 64)))). by vm_compute. }
  unfold parseHost. replace (has_prefix "[" host) with false.
  2:{ destruct host as [|c r]; [done|]. simpl in Hh. apply andb_true_iff in Hh as [Hc _]. symmetry.
      destruct (has_prefix "[" (String.String c r)) eqn:E; [|done]. apply has_prefix_inv in E as [t E].
      change ("[" +:+ t) with (String.String (Ascii.ascii_of_nat 91) t) in E. injection E as -> ->. by vm_compute in Hc. }
  destruct (last_index colon host 0); [rewrite Hp|]; simpl; apply unescape_host; revert Hh; apply all_bytes_mono;
    apply (all_ascii_impl host_byte (fun c => negb (Ascii.eqb c percent) && negb ((byte_val c <? 128) && shouldEscape c encodeHost)));
    by vm_compute.
Qed.

Lemma parse_link scheme host prefix path rest :
  origin_ok scheme host prefix -> all_bytes url_byte (String.String slash rest) = true ->
  unescape encodePath (String.String slash rest) = Some path ->
  parse (scheme +:+ "://" +:+ host +:+ String.String slash rest) = Some (MkURL scheme "" host path "" "" "").
Proof.
  intros [Hs [Hne Hh] Hp _ _] Hr Hu. destruct Hs as [Hfirst Hs].
  assert (Hub : all_bytes url_byte (host +:+ String.String slash rest) = true).
  { rewrite all_bytes_app, Hr, andb_true_r. revert Hh. apply all_bytes_mono. by apply (all_ascii_impl host_byte url_byte). }
  set (tail := host +:+ String.String slash rest) in *.
  assert (Hall : all_bytes url_byte (scheme +:+ "://" +:+ tail) = true).
  { rewrite !all_bytes_app, Hub. rewrite (all_bytes_mono scheme_byte url_byte scheme) by (done || by apply (all_ascii_impl scheme_byte url_byte)). done. }
  unfold parse. rewrite url_byte_ctl by done.
  assert (exists c s, scheme = String.String c s /\ is_letter c = true) as (c & s & Es & Hl) by (destruct scheme; naive_solver).
  rewrite bool_decide_false by (rewrite Es; intros [= -> _]; by rewrite Es in Hall).
  assert (Eg : getScheme (scheme +:+ "://" +:+ tail) = Some (scheme, "//" +:+ tail)).
  { pose proof (scheme_scan_app scheme ("//" +:+ tail) Hs) as E. rewrite Es in E |- *.
    unfold getScheme. change (String.String c s +:+ "://" +:+ tail) with (String.String c (s +:+ "://" +:+ tail)).
    cbn beta match. rewrite Hl. destruct (Ascii.eqb_spec c colon) as [->|]; [done|].
    change (String.String c s +:+ ":" +:+ "//" +:+ tail) with (String.String c (s +:+ "://" +:+ tail)) in E. by rewrite E. }
  rewrite Eg. cbn [mbind option_bind]. rewrite to_lower_scheme by done.
  assert (Hq : contains_byte question ("//" +:+ tail) = false).
  { apply url_byte_not; [|done]. change ("//" +:+ tail) with (String.String slash (String.String slash tail)). simpl. done. }
  unfold HasSuffix_byte. rewrite last_index_none, cut_on_none by done. cbn [andb].
  change ("//" +:+ tail) with (String.String slash (String.String slash tail)).
  assert (Hsl : forall t, has_prefix "/" (String.String slash t) = true) by (intros [|]; done).
  rewrite Hsl. cbn [negb andb]. rewrite bool_decide_true by (by rewrite Es). cbn [orb].
  assert (Hss : has_prefix "//" (String.String slash (String.String slash tail)) = true) by (by destruct tail).
  rewrite Hss. cbn [andb]. change (drop_bytes 2 (String.String slash (String.String slash tail))) with tail.
  unfold tail. rewrite cut_on_app.
  2:{ apply contains_none. revert Hh. apply all_bytes_mono. by apply (all_ascii_impl host_byte (fun a => negb (Ascii.eqb a slash))). }
  rewrite parseAuthority_host by done. cbn [mbind option_bind]. by rewrite Hu.
Qed.

Definition id_byte (c : Ascii.ascii) : bool := bech32_upper c || contains_byte c "AGE-SECRET-KEY-PQ-1".

Lemma trim_right_idem c s : trim_right_byte c (trim_right_byte c s) = trim_right_byte c s.
Proof.
  induction s as [|a s IH]; simpl; [done|]. destruct (trim_right_byte c s) as [|b t] eqn:E.
  - destruct (Ascii.eqb a c) eqn:Ha; simpl; [done|]. by rewrite Ha.
  - cbn [trim_right_byte] in IH |- *. by rewrite IH.
Qed.

Context {AS : AgeSpec}.

Lemma identity_bytes i : all_bytes id_byte (identity_string i) = true.
Proof.
  pose proof (identity_form i) as H. unfold identity_pattern in H. apply andb_true_iff in H as [Hp Hb].
  apply has_prefix_inv in Hp as [r Hr]. rewrite Hr in Hb |- *. apply andb_true_iff in Hb as [_ Hb].
  rewrite all_bytes_app. apply andb_true_iff. split; [by vm_compute|].
  change (drop_bytes (String.length IdentityPrefix) (IdentityPrefix +:+ r)) with r in Hb.
  revert Hb. apply all_bytes_mono. by apply (all_ascii_impl bech32_upper id_byte).
Qed.

Lemma ParseIdentity_string i : ParseIdentity (identity_string i) = Ok i.
Proof.
  unfold ParseIdentity. rewrite TrimSpace_visible.
  2:{ pose proof (identity_bytes i) as H. revert H. apply all_bytes_mono. by apply (all_ascii_impl id_byte visible). }
  pose proof (identity_form i) as H. apply andb_true_iff in H as [-> _]. simpl. by rewrite identity_parses.
Qed.

Lemma DecodeKeyFragment_encode i : DecodeKeyFragment (EncodeKeyFragment i) = Ok i.
Proof.
  unfold DecodeKeyFragment, EncodeKeyFragment.
  assert (Ht : TrimPrefix (FragmentKeyPrefix +:+ identity_string i) "#" = FragmentKeyPrefix +:+ identity_string i) by done.
  rewrite Ht, has_prefix_app. cbn [negb refuse_if rbind].
  change (drop_bytes (String.length FragmentKeyPrefix) (FragmentKeyPrefix +:+ identity_string i)) with (identity_string i).
  pose proof (identity_form i) as Hf. pose proof (identity_short i) as Hs.
  rewrite bool_decide_false by (intros E; change (identity_string i = "") in E; by rewrite E in Hf).
  replace (maxKeyFragmentChars <? strlen (identity_string i)) with false by (symmetry; apply Z.ltb_ge; done).
  cbn [orb refuse_if rbind]. rewrite Hf. cbn [negb refuse_if rbind]. by rewrite ParseIdentity_string.
Qed.

(** The text of a link: its bytes, and what [url.Parse] makes of it. *)
Lemma link_path scheme host prefix id : origin_ok scheme host prefix ->
  exists rest, prefix +:+ SharePath +:+ PathEscape id = String.String slash rest /\
    all_bytes url_byte (String.String slash rest) = true /\
    unescape encodePath (String.String slash rest) = Some (prefix +:+ SharePath +:+ id).
Proof.
  intros [_ _ _ [Hp Hpb] _]. set (path := prefix +:+ SharePath +:+ PathEscape id).
  assert (Hb : all_bytes url_byte path = true).
  { unfold path. rewrite !all_bytes_app. rewrite (all_bytes_mono path_byte url_byte prefix) by (done || by apply (all_ascii_impl path_byte url_byte)).
    rewrite (all_bytes_mono link_byte url_byte (PathEscape id)) by (apply segment_bytes || by apply (all_ascii_impl link_byte url_byte)). done. }
  assert (Hu : unescape encodePath path = Some (prefix +:+ SharePath +:+ id)).
  { unfold path. rewrite <-append_assoc, unescape_plain; [|done|].
    - unfold PathEscape. rewrite unescape_escape by done. simpl. by rewrite append_assoc.
    - apply contains_none. rewrite all_bytes_app. apply andb_true_iff. split; [|by vm_compute].
      revert Hpb. apply all_bytes_mono. by apply (all_ascii_impl path_byte (fun a => negb (Ascii.eqb a percent))). }
  assert (exists rest, path = String.String slash rest) as [rest E].
  { unfold path. destruct Hp as [->|[t ->]%has_prefix_inv]; [by eexists|]. change ("/" +:+ t) with (String.String slash t). by eexists. }
  exists rest. by rewrite <-E.
Qed.

Lemma Contains_scheme scheme t : Contains_str (scheme +:+ "://" +:+ t) "://" = true.
Proof.
  unfold Contains_str. induction scheme as [|c s IH]; [by destruct t|].
  change (String.String c s +:+ "://" +:+ t) with (String.String c (s +:+ "://" +:+ t)). cbn [Cut].
  destruct (has_prefix "://" _); [done|]. by destruct (Cut "://" (s +:+ "://" +:+ t)) as [[x y] f].
Qed.

Lemma parse_origin scheme host prefix id : origin_ok scheme host prefix ->
  let link := (scheme +:+ "://" +:+ host +:+ prefix) +:+ SharePath +:+ PathEscape id in
  all_bytes url_byte link = true /\
  parse link = Some (MkURL scheme "" host (prefix +:+ SharePath +:+ id) "" "" "").
Proof.
  intros Ho. destruct (link_path scheme host prefix id Ho) as (rest & E & Hb & Hu). cbn zeta.
  rewrite !append_assoc, E. split; [|by apply (parse_link scheme host prefix)].
  destruct Ho as [[_ Hs] [_ Hh] _ _ _]. rewrite !all_bytes_app, Hb.
  rewrite (all_bytes_mono scheme_byte url_byte scheme) by (done || by apply (all_ascii_impl scheme_byte url_byte)).
  rewrite (all_bytes_mono host_byte url_byte host) by (done || by apply (all_ascii_impl host_byte url_byte)). done.
Qed.

(** What a built link reads back as, for any identifier without a slash: the
    path is unescaped twice. *)
Lemma parse_built (scheme host prefix origin id : string) (identity : option HybridIdentity) :
  origin_ok scheme host prefix ->
  trim_right_byte slash origin = scheme +:+ "://" +:+ host +:+ prefix ->
  id <> "" -> contains_byte slash id = false ->
  ParseShareLink (BuildShareLink origin id identity) =
    match PathUnescape id with
    | Some id' => Ok (MkLink (scheme +:+ "://" +:+ host +:+ prefix) id' identity)
    | None => Err (Fail "secret ID is not valid")
    end.
Proof.
  intros Ho Ht Hid Hslash. destruct (parse_origin scheme host prefix id Ho) as [Hb Hp]. cbn zeta in Hb, Hp.
  set (link := (scheme +:+ "://" +:+ host +:+ prefix) +:+ SharePath +:+ PathEscape id) in *.
  set (frag := match identity with Some i => "#" +:+ EncodeKeyFragment i | None => "" end).
  assert (El : BuildShareLink origin id identity = link +:+ frag).
  { unfold BuildShareLink, link, frag. rewrite Ht. destruct identity; [done|by rewrite append_nil_r]. }
  assert (Hg : all_bytes visible (link +:+ frag) = true).
  { rewrite all_bytes_app. apply andb_true_iff. split; [revert Hb; apply all_bytes_mono; by apply (all_ascii_impl url_byte visible)|].
    unfold frag. destruct identity as [i|]; [|done]. unfold EncodeKeyFragment. rewrite !all_bytes_app.
    rewrite (all_bytes_mono id_byte visible (identity_string i)) by (apply identity_bytes || by apply (all_ascii_impl id_byte visible)). done. }
  unfold ParseShareLink. rewrite El, TrimSpace_visible by done.
  rewrite bool_decide_false by (unfold link; destruct scheme; [by destruct Ho as [[? _] _ _ _ _]|done]).
  cbn [refuse_if rbind]. replace (Contains_str (link +:+ frag) "://") with true.
  2:{ unfold link. rewrite !append_assoc. by rewrite Contains_scheme. }
  cbn [negb]. assert (Hhash : contains_byte hash_mark link = false) by (by apply url_byte_not).
  assert (Hparse : exists f raw, Parse (link +:+ frag) = Some (MkURL scheme "" host (prefix +:+ SharePath +:+ id) "" f raw) /\
    match identity with Some i => f = EncodeKeyFragment i /\ raw = "" | None => f = "" end).
  { unfold Parse, frag. destruct identity as [i|].
    - change ("#" +:+ EncodeKeyFragment i) with (String.String hash_mark (EncodeKeyFragment i)).
      rewrite cut_on_app by done. rewrite Hp. cbn [mbind option_bind].
      assert (Hf : all_bytes (fun c => id_byte c || contains_byte c "key=") (EncodeKeyFragment i) = true).
      { unfold EncodeKeyFragment. rewrite all_bytes_app. apply andb_true_iff. split; [by vm_compute|].
        pose proof (identity_bytes i) as Hi. revert Hi. apply all_bytes_mono. intros c ->. done. }
      rewrite bool_decide_false by done. rewrite unescape_plain_all; [|done|].
      2:{ apply contains_none. revert Hf. apply all_bytes_mono.
          by apply (all_ascii_impl (fun c => id_byte c || contains_byte c "key=") (fun a => negb (Ascii.eqb a percent))). }
      cbn [mbind option_bind]. rewrite bool_decide_true; [by eexists _, _|]. symmetry. apply escape_plain.
      revert Hf. apply all_bytes_mono.
      by apply (all_ascii_impl (fun c => id_byte c || contains_byte c "key=") (fun c => negb (shouldEscape c encodeFragment))).
    - rewrite append_nil_r, cut_on_none by done. rewrite Hp. by eexists _, _. }
  destruct Hparse as (f & raw & -> & Hf). cbn [u_Host u_Path u_Scheme u_Fragment u_RawFragment].
  destruct Ho as [Hs [Hne Hh] Hpo Hpr Hsh]. rewrite bool_decide_false by done. cbn [refuse_if rbind].
  rewrite Cut_share by done. cbn [negb orb]. rewrite bool_decide_false by done. cbn [refuse_if rbind].
  rewrite Hslash. cbn [refuse_if rbind]. destruct (PathUnescape id) as [id'|]; [|done].
  rewrite <-Ht, trim_right_idem. destruct identity as [i|].
  - destruct Hf as [-> ->]. rewrite bool_decide_true by done. rewrite bool_decide_true by done.
    by rewrite DecodeKeyFragment_encode.
  - subst f. done.
Qed.

(** A link built for an origin, a secret and an identity reads back as the
    same origin, secret and identity. *)
Theorem share_link_roundtrip (scheme host prefix origin id : string) (identity : option HybridIdentity) :
  origin_ok scheme host prefix ->
  trim_right_byte slash origin = scheme +:+ "://" +:+ host +:+ prefix ->
  id <> "" -> contains_byte slash id = false -> contains_byte percent id = false ->
  ParseShareLink (BuildShareLink origin id identity) =
    Ok (MkLink (scheme +:+ "://" +:+ host +:+ prefix) id identity).
Proof.
  intros Ho Ht Hid Hs Hp. rewrite (parse_built scheme host prefix) by done.
  unfold PathUnescape. by rewrite unescape_plain_all.
Qed.

(** The path a link carries is unescaped by [url.Parse] and again by
    [ParseShareLink], so an identifier that looks like an escape reads back as
    what the escape stands for. *)
Theorem link_id_unescaped_twice (scheme host prefix origin text : string) (identity : option HybridIdentity) :
  origin_ok scheme host prefix ->
  trim_right_byte slash origin = scheme +:+ "://" +:+ host +:+ prefix ->
  text <> "" ->
  ParseShareLink (BuildShareLink origin (PathEscape text) identity) =
    Ok (MkLink (scheme +:+ "://" +:+ host +:+ prefix) text identity).
Proof.
  intros Ho Ht Hne. rewrite (parse_built scheme host prefix); [|done|done| |].
  - unfold PathUnescape, PathEscape. by rewrite unescape_escape.
  - destruct text as [|c t]; [done|]. unfold PathEscape. cbn [escape]. by destruct (shouldEscape c encodePathSegment).
  - apply contains_none. pose proof (segment_bytes text) as H. revert H. apply all_bytes_mono.
    by apply (all_ascii_impl link_byte (fun a => negb (Ascii.eqb a slash))).
Qed.
End link.
