(* ===== verification/Flags.v ===== *)
(** * Command-line flags (src/cmd/flick/main.go)

    [hoistFlags] moves flags ahead of the other arguments so that package
    [flag], which stops at the first argument that is not a flag, reads them
    all.  [Parse] is that package's parser; [parse_anywhere] is the reading
    [hoistFlags] aims at, with flags accepted in every position. *)

From S2P Require Import Prelude GoStrings Codec World Config Url ClientCrypto.

Definition dash : Ascii.ascii := Ascii.ascii_of_nat 45.
Definition equals : Ascii.ascii := Ascii.ascii_of_nat 61.

(** A flag of a [flag.FlagSet]: whether it is boolean, and which texts its
    [Set] accepts. *)
Record flag_decl := MkFlag { fl_bool : bool; fl_accepts : string -> bool }.
Abbreviation FlagSet := (gmap string flag_decl).
Definition setting : Type := string * string.

(** ** Package [flag] *)

(** The name and the value of [-name=value]; the equals sign cannot be first. *)
Definition split_flag (name : string) : string * option string :=
  match name with
  | "" => ("", None)
  | String.String c r =>
      let '(a, v, found) := cut_on equals r in
      (String.String c a, if found then Some v else None)
  end.

(** What follows the dashes of an argument that is a flag. *)
Definition flag_name (s : string) : string :=
  if has_prefix "--" s then drop_bytes 2 s else drop_bytes 1 s.
Definition is_flag (s : string) : bool := (2 <=? String.length s)%nat && has_prefix "-" s.
Definition bad_name (name : string) : bool :=
  bool_decide (name = "") || has_prefix "-" name || has_prefix "=" name.

Section parse.
Context (f : FlagSet).

(** [parseOne] on an argument that is a flag and what follows: the setting,
    and whether it took the next argument. *)
Definition parseOne (s : string) (next : option string) : result (setting * bool) :=
  if bad_name (flag_name s) then Err (Fail ("bad flag syntax: " +:+ s))
  else
    let '(name, value) := split_flag (flag_name s) in
    match f !! name with
    | None =>
        if bool_decide (name = "help") || bool_decide (name = "h") then Err (Fail "flag: help requested")
        else Err (Fail ("flag provided but not defined: -" +:+ name))
    | Some d =>
        if fl_bool d then
          let v := default "true" value in
          if fl_accepts d v then Ok ((name, v), false) else Err (Fail ("invalid boolean value for -" +:+ name))
        else
          match value, next with
          | Some v, _ => if fl_accepts d v then Ok ((name, v), false) else Err (Fail ("invalid value for flag -" +:+ name))
          | None, Some v => if fl_accepts d v then Ok ((name, v), true) else Err (Fail ("invalid value for flag -" +:+ name))
          | None, None => Err (Fail ("flag needs an argument: -" +:+ name))
          end
    end.

(** [flags.Parse(args)]: the settings in order, and [flags.Args()]. *)
Fixpoint Parse_args (args : list string) : result (list setting * list string) :=
  match args with
  | [] => Ok ([], [])
  | s :: rest =>
      if negb (is_flag s) then Ok ([], s :: rest)
      else if bool_decide (s = "--") then Ok ([], rest)
      else
        match parseOne s (head rest) with
        | Err e => Err e
        | Ok (st, false) => let* r := Parse_args rest in Ok (st :: r.1, r.2)
        | Ok (st, true) =>
            match rest with
            | [] => Ok ([st], [])
            | _ :: rest => let* r := Parse_args rest in Ok (st :: r.1, r.2)
            end
        end
  end.

(** ** The client *)

(** [takesNoValue]: unknown flags are left to the parser. *)
Definition takesNoValue (name : string) : bool :=
  match f !! name with None => true | Some d => fl_bool d end.

Definition hoist_name (arg : string) : string * bool :=
  let '(name, _, inline) := cut_on equals (TrimPrefix (TrimPrefix arg "-") "-") in (name, inline).

(** The loop of [hoistFlags]: the hoisted arguments, and the others. *)
Fixpoint hoist (args : list string) : list string * list string :=
  match args with
  | [] => ([], [])
  | arg :: rest =>
      if bool_decide (arg = "--") then ([], arg :: rest)
      else if (String.length arg <? 2)%nat || negb (has_prefix "-" arg) then
        let '(h, p) := hoist rest in (h, arg :: p)
      else
        let '(name, inline) := hoist_name arg in
        if inline || takesNoValue name then let '(h, p) := hoist rest in (arg :: h, p)
        else match rest with
             | [] => ([arg], [])
             | v :: rest => let '(h, p) := hoist rest in (arg :: v :: h, p)
             end
  end.
Definition hoistFlags (args : list string) : list string := let '(h, p) := hoist args in h ++ p.

(** ** Flags anywhere

    The settings, the arguments before a terminator, and those after it. *)
Fixpoint parse_anywhere (args : list string) : result (list setting * list string * option (list string)) :=
  match args with
  | [] => Ok ([], [], None)
  | s :: rest =>
      if negb (is_flag s) then let* r := parse_anywhere rest in Ok (r.1.1, s :: r.1.2, r.2)
      else if bool_decide (s = "--") then Ok ([], [], Some rest)
      else
        match parseOne s (head rest) with
        | Err e => Err e
        | Ok (st, false) => let* r := parse_anywhere rest in Ok (st :: r.1.1, r.1.2, r.2)
        | Ok (st, true) =>
            match rest with
            | [] => Ok ([st], [], None)
            | _ :: rest => let* r := parse_anywhere rest in Ok (st :: r.1.1, r.1.2, r.2)
            end
        end
  end.

(** ** Lemmas *)
Lemma is_flag_hoist s : is_flag s = negb ((String.length s <? 2)%nat || negb (has_prefix "-" s)).
Proof.
  unfold is_flag. rewrite negb_orb, negb_involutive. f_equal.
  destruct (Nat.leb_spec 2 (String.length s)), (Nat.ltb_spec (String.length s) 2); simpl; lia || done.
Qed.

(** The name the hoisting looks up is the parser's. *)
Lemma hoist_name_flag s : is_flag s = true -> bad_name (flag_name s) = false ->
  hoist_name s = ((split_flag (flag_name s)).1, match (split_flag (flag_name s)).2 with Some _ => true | None => false end).
Proof.
  intros [_ Hf]%andb_true_iff Hb. apply has_prefix_inv in Hf as [t ->].
  change ("-" +:+ t) with (String.String dash t) in *. unfold hoist_name, flag_name in *.
  assert (Ht : TrimPrefix (TrimPrefix (String.String dash t) "-") "-" =
               (if has_prefix "--" (String.String dash t) then drop_bytes 2 (String.String dash t) else drop_bytes 1 (String.String dash t))).
  { unfold TrimPrefix. change (has_prefix "-" (String.String dash t)) with (has_prefix "" t).
    replace (has_prefix "" t) with true by (by destruct t). change (drop_bytes (String.length "-") (String.String dash t)) with t.
    change (has_prefix "--" (String.String dash t)) with (has_prefix "-" t). by destruct (has_prefix "-" t). }
  rewrite Ht. set (n := if has_prefix "--" _ then _ else _) in *. destruct n as [|c r]; [done|].
  unfold bad_name in Hb. apply orb_false_iff in Hb as [_ He].
  cbn [cut_on split_flag]. destruct (Ascii.eqb_spec c equals) as [->|].
  { exfalso. change (has_prefix "=" (String.String equals r)) with (has_prefix "" r) in He. by destruct r. }
  destruct (cut_on equals r) as [[a v] found]. by destruct found.
Qed.

(** Whether a flag takes the next argument, for both. *)
Lemma parseOne_takes s next st b : is_flag s = true -> parseOne s next = Ok (st, b) ->
  let '(name, inline) := hoist_name s in inline || takesNoValue name = negb b.
Proof.
  unfold parseOne. intros Hf. destruct (bad_name (flag_name s)) eqn:Hb; [done|].
  rewrite hoist_name_flag by done. destruct (split_flag (flag_name s)) as [name value]. simpl. unfold takesNoValue.
  destruct (f !! name) as [d|]; [|by destruct (_ || _)]. destruct (fl_bool d).
  - destruct (fl_accepts d _); [|done]. intros [= _ <-]. apply orb_true_r.
  - destruct value as [v|]; [|destruct next as [v|]; [|done]]; destruct (fl_accepts d v); try done; by intros [= _ <-].
Qed.

Lemma parseOne_next s next st : parseOne s next = Ok (st, true) -> exists v, next = Some v.
Proof.
  unfold parseOne. destruct (bad_name _); [done|]. destruct (split_flag _) as [name value].
  destruct (f !! name) as [d|]; [|by destruct (_ || _)]. destruct (fl_bool d); [by destruct (fl_accepts d _)|].
  destruct value as [v|]; [by destruct (fl_accepts d v)|]. destruct next; [eauto|done].
Qed.

(** A flag that does not take the next argument reads the same before any. *)
Lemma parseOne_any s next st : parseOne s next = Ok (st, false) -> forall next', parseOne s next' = Ok (st, false).
Proof.
  unfold parseOne. destruct (bad_name _); [done|]. destruct (split_flag _) as [name value].
  destruct (f !! name) as [d|]; [|by destruct (_ || _)]. destruct (fl_bool d); [done|].
  destruct value as [v|]; [done|]. destruct next as [v|]; [|done]. by destruct (fl_accepts d v).
Qed.

(** What is left to the parser after the hoisted flags. *)
Definition leftover (before : list string) (after : option (list string)) : list string :=
  match after with None => before | Some a => before ++ "--" :: a end.

Lemma hoist_spec n : forall args sets before after, (length args <= n)%nat ->
  parse_anywhere args = Ok (sets, before, after) ->
  (hoist args).2 = leftover before after /\ Forall (fun s => is_flag s = false) before /\
  forall tail, Parse_args ((hoist args).1 ++ tail) = (let* r := Parse_args tail in Ok (sets ++ r.1, r.2)).
Proof.
  induction n as [|n IH]; intros [|s rest] sets before after Hn; simpl in Hn; [|lia| |].
  1,2: intros [= <- <- <-]; split_and!; [done|done|]; intros tail; simpl; by destruct (Parse_args tail) as [[]|].
  cbn [parse_anywhere hoist]. rewrite <-(negb_involutive (_ || _)), <-is_flag_hoist.
  destruct (is_flag s) eqn:Hf; cbn [negb].
  - case_bool_decide as Hd.
    { intros [= <- <- <-]. split_and!; [by rewrite Hd|done|]. intros tail. simpl. by destruct (Parse_args tail) as [[]|]. }
    destruct (parseOne s (head rest)) as [[st b]|] eqn:E1; [|done]. pose proof (parseOne_takes _ _ _ _ Hf E1) as Ht.
    destruct (hoist_name s) as [name inline]. rewrite Ht. destruct b; cbn [negb].
    + destruct (parseOne_next _ _ _ E1) as [v Hv]. destruct rest as [|v' rest]; [done|]. simpl in Hv. injection Hv as ->.
      intros ([[ss bb] aa] & Ea & [= <- <- <-])%rbind_ok. destruct (IH rest ss bb aa) as (H1 & H2 & H3); [simpl in Hn; lia|done|].
      destruct (hoist rest) as [h p]. simpl in *. split_and!; [done|done|]. intros tail. simpl.
      rewrite Hf, bool_decide_false by done. simpl. rewrite E1, H3. by destruct (Parse_args tail) as [[]|].
    + intros ([[ss bb] aa] & Ea & [= <- <- <-])%rbind_ok. destruct (IH rest ss bb aa) as (H1 & H2 & H3); [lia|done|].
      destruct (hoist rest) as [h p]. simpl in *. split_and!; [done|done|]. intros tail. simpl.
      rewrite Hf, bool_decide_false by done. simpl. rewrite (parseOne_any _ _ _ E1), H3. by destruct (Parse_args tail) as [[]|].
  - intros ([[ss bb] aa] & Ea & [= <- <- <-])%rbind_ok. destruct (IH rest ss bb aa) as (H1 & H2 & H3); [lia|done|].
    rewrite bool_decide_false by (intros ->; done). destruct (hoist rest) as [h p]. simpl in *. split_and!; [|by constructor|done].
    rewrite H1. by destruct aa.
Qed.

(** C37: Parsing the hoisted arguments reads every flag, wherever it was written,
    and leaves the other arguments in order, if no terminator follows one of
    them. *)
Theorem hoisted_flags_parse (args : list string) (sets : list setting) (before : list string) (after : option (list string)) :
  parse_anywhere args = Ok (sets, before, after) -> before = [] \/ after = None ->
  Parse_args (hoistFlags args) = Ok (sets, before ++ default [] after).
Proof.
  intros H Hba. destruct (hoist_spec _ _ _ _ _ (le_n _) H) as (H1 & H2 & H3). unfold hoistFlags.
  destruct (hoist args) as [h p]. simpl in *. rewrite H3, H1. destruct after as [a|]; simpl.
  - destruct Hba as [->|]; [|done]. simpl. by rewrite app_nil_r.
  - rewrite app_nil_r. destruct before as [|b before]; simpl; [by rewrite app_nil_r|].
    apply Forall_cons in H2 as [-> _]. simpl. by rewrite app_nil_r.
Qed.

(** A terminator after another argument is not honoured: it is left among the
    arguments. *)
Theorem late_terminator_kept (args : list string) (sets : list setting) (before after : list string) :
  parse_anywhere args = Ok (sets, before, Some after) -> before <> [] ->
  Parse_args (hoistFlags args) = Ok (sets, before ++ "--" :: after).
Proof.
  intros H Hne. destruct (hoist_spec _ _ _ _ _ (le_n _) H) as (H1 & H2 & H3). unfold hoistFlags.
  destruct (hoist args) as [h p]. simpl in *. rewrite H3, H1. destruct before as [|b before]; [done|]. simpl.
  apply Forall_cons in H2 as [-> _]. simpl. by rewrite app_nil_r.
Qed.

(** A flag written last without its value takes an earlier argument for it,
    where package [flag] asks for one. *)
Theorem last_flag_takes_argument (text s : string) (d : flag_decl) :
  is_flag text = false -> is_flag s = true -> s <> "--" -> bad_name (flag_name s) = false ->
  split_flag (flag_name s) = (flag_name s, None) ->
  f !! flag_name s = Some d -> fl_bool d = false -> fl_accepts d text = true ->
  Parse_args (hoistFlags [text; s]) = Ok ([(flag_name s, text)], []) /\
  exists e, parse_anywhere [text; s] = Err e.
Proof.
  intros Ht Hs Hd Hb Hsp Hf Hbool Hacc. split.
  - unfold hoistFlags. cbn [hoist]. rewrite <-(negb_involutive (_ || negb (has_prefix "-" text))), <-is_flag_hoist, Ht. cbn [negb].
    rewrite bool_decide_false by (intros ->; done). rewrite <-(negb_involutive (_ || _)), <-is_flag_hoist, Hs. cbn [negb].
    rewrite bool_decide_false by done. rewrite hoist_name_flag, Hsp by done. simpl. unfold takesNoValue. rewrite Hf, Hbool. simpl.
    rewrite Hs, bool_decide_false by done. simpl. unfold parseOne. rewrite Hb, Hsp, Hf, Hbool, Hacc. done.
  - cbn [parse_anywhere]. rewrite Ht, Hs. cbn [negb]. rewrite bool_decide_false by done. simpl.
    unfold parseOne. rewrite Hb, Hsp, Hf, Hbool. simpl. eauto.
Qed.
End parse.
