(* ===== verification/Files.v ===== *)
(** * Files of the command-line client (src/internal/flickcli/open.go)

    The part of a Unix file system the client uses, and the functions of
    open.go that reserve, stage and place the opened payload.

    A directory entry names an inode and an inode holds bytes, so a hard link
    is a second entry of one inode and an open file is an inode.  The class
    [Os] holds what the program does not control: which entry a path names,
    which directories exist, the random part of temporary names, and which
    calls fail.  The directory tree itself does not change while the client
    runs, and no other process writes to the entries it made. *)

From S2P Require Import Prelude GoStrings Codec World Http RateLimit Config Url ClientCrypto.
From stdpp Require Import pretty.

(** ** Package [path/filepath] on Unix *)

(** [filepath.Clean], on the elements between separators: the stack of kept
    elements, innermost first. *)
Fixpoint clean_elems (rooted : bool) (kept : list string) (elems : list string) : list string :=
  match elems with
  | [] => reverse kept
  | e :: elems =>
      if bool_decide (e = "") || bool_decide (e = ".") then clean_elems rooted kept elems
      else if bool_decide (e = "..") then
        match kept with
        | k :: kept' => if bool_decide (k = "..") then clean_elems rooted (".." :: kept) elems
                        else clean_elems rooted kept' elems
        | [] => clean_elems rooted (if rooted then [] else [".."]) elems
        end
      else clean_elems rooted (e :: kept) elems
  end.
Fixpoint join_elems (elems : list string) : string :=
  match elems with
  | [] => ""
  | [e] => e
  | e :: elems => e +:+ "/" +:+ join_elems elems
  end.
Definition is_rooted (path : string) : bool := has_prefix "/" path.
Definition elements (path : string) : list string := clean_elems (is_rooted path) [] (split_on slash path).
Definition render (rooted : bool) (elems : list string) : string :=
  if rooted then "/" +:+ join_elems elems
  else match elems with [] => "." | _ => join_elems elems end.
Definition Clean (path : string) : string := render (is_rooted path) (elements path).

(** [filepath.Join] of two elements. *)
Definition Join (a b : string) : string :=
  if bool_decide (a = "") then (if bool_decide (b = "") then "" else Clean b)
  else if bool_decide (b = "") then Clean a
  else Clean (a +:+ "/" +:+ b).

(** The part of a path after its last separator, and up to it. *)
Fixpoint after_slash (s : string) : string :=
  match s with
  | "" => ""
  | String.String a r =>
      if contains_byte slash r then after_slash r else if Ascii.eqb a slash then r else s
  end.
Fixpoint upto_slash (s : string) : string :=
  match s with
  | "" => ""
  | String.String a r =>
      if contains_byte slash r then String.String a (upto_slash r)
      else if Ascii.eqb a slash then "/" else ""
  end.
Definition Base (path : string) : string :=
  if bool_decide (path = "") then "."
  else
    let path := trim_right_byte slash path in
    let base := after_slash path in
    if bool_decide (base = "") then "/" else base.
Definition Dir (path : string) : string := Clean (upto_slash path).

(** [filepath.Ext]: from the last dot of the last element. *)
Fixpoint last_dot (s : string) : option string :=
  match s with
  | "" => None
  | String.String a r =>
      match last_dot r with Some e => Some e | None => if Ascii.eqb a dot then Some s else None end
  end.
Definition Ext (path : string) : string := default "" (last_dot (after_slash path)).

(** [strings.ReplaceAll(s, c, d)] for bytes, and [strings.TrimSuffix] of a
    suffix the string has. *)
Fixpoint replace_byte (c d : Ascii.ascii) (s : string) : string :=
  match s with
  | "" => ""
  | String.String a r => String.String (if Ascii.eqb a c then d else a) (replace_byte c d r)
  end.
Definition TrimSuffix (s suffix : string) : string :=
  let k := (String.length s - String.length suffix)%nat in
  if (String.length suffix <=? String.length s)%nat && bool_decide (drop_bytes k s = suffix)
  then String.substring 0 k s else s.

Definition backslash : Ascii.ascii := Ascii.ascii_of_nat 92.

Definition safeFilename (name : string) : string :=
  let cleaned := Base (replace_byte backslash slash name) in
  if bool_decide (cleaned = ".") || bool_decide (cleaned = "..") || bool_decide (cleaned = "/") || bool_decide (cleaned = "")
  then "flick-file" else cleaned.

Definition numberedPath (path : string) (n : nat) : string :=
  let ext := Ext path in
  TrimSuffix path ext +:+ "-" +:+ pretty (Z.of_nat n) +:+ ext.

(** ** The file system *)
Record FS := MkFS {
  entries : gmap string nat;
  inodes : gmap nat string;
  next_inode : nat;
}.

Definition ErrExist : err := Fail "file already exists".
Definition ErrNotExist : err := Fail "file does not exist".

Class Os := {
  (** the directory entry a path names *)
  resolve : string -> string;
  (** [os.Stat] of a directory: whether it exists, and is one *)
  stat_dir : string -> result bool;
  (** [os.TempDir()] *)
  temp_dir : string;
  (** the random part of a temporary name drawn at a tick *)
  temp_part : nat -> string;
  (** the error of the call made at a tick, if it fails *)
  os_fault : nat -> option err;
  (** the same for removals *)
  remove_fault : nat -> option err;
  (** how many bytes a failing write has written *)
  partial_write : nat -> nat;
}.

(** A request the client makes. *)
Record CliRequest := MkCReq {
  cq_Method : string;
  cq_URL : string;
  cq_Header : list (string * string);
  cq_Body : option string;
}.

(** The client's state: its files, the peer it talks to, and what it sent. *)
Record CliState (S : Type) := MkCli { fs : FS; peer : S; sent : list CliRequest }.
Arguments MkCli {S} _ _ _.
Arguments fs {S} _.
Arguments peer {S} _.
Arguments sent {S} _.
Definition set_fs {S} (x : FS) (c : CliState S) : CliState S := MkCli x (peer c) (sent c).

Section os.
Context {OS : Os} {S : Type}.
Abbreviation C := (M (CliState S)).

(** A call that fails with the fault of its tick or computes on the files. *)
Definition os_call {A} (faults : nat -> option err) (f : FS -> result A * FS) : C A := fun w =>
  match faults (tick w) with
  | Some e => (Err e, bump w)
  | None => let '(r, x) := f (fs (db w)) in (r, set_db (set_fs x (db w)) (bump w))
  end.

(** [os.OpenFile(path, O_WRONLY|O_CREATE|O_EXCL, 0o600)]. *)
Definition open_excl (path : string) : C nat :=
  os_call os_fault (fun x =>
    match entries x !! resolve path with
    | Some _ => (Err ErrExist, x)
    | None =>
        let i := next_inode x in
        (Ok i, MkFS (<[resolve path := i]> (entries x)) (<[i := ""]> (inodes x)) (Datatypes.S i))
    end).

(** [os.CreateTemp(dir, prefix + "*" + suffix)]: it draws names until one is
    unused. *)
Fixpoint create_temp (tries : nat) (dir prefix suffix : string) : C (nat * string) :=
  let! part := ask temp_part in
  let joined := if HasSuffix_byte slash dir then dir +:+ prefix else dir +:+ "/" +:+ prefix in
  let path := joined +:+ part +:+ suffix in
  let! r := attempt (open_excl path) in
  match r, tries with
  | Ok i, _ => ret (i, path)
  | Err e, Datatypes.S tries => if bool_decide (e = ErrExist) then create_temp tries dir prefix suffix else throw e
  | Err e, O => throw e
  end.
Definition max_temp_tries : nat := Z.to_nat 9999.
Definition CreateTemp (dir prefix suffix : string) : C (nat * string) :=
  create_temp max_temp_tries (if bool_decide (dir = "") then temp_dir else dir) prefix suffix.

(** [file.Write(data)]: on failure the bytes written so far stay. *)
Definition write_file (i : nat) (data : string) : C unit := fun w =>
  let app d x := MkFS (entries x) (alter (fun c => c +:+ d) i (inodes x)) (next_inode x) in
  match os_fault (tick w) with
  | Some e => (Err e, set_db (set_fs (app (take_bytes (partial_write (tick w)) data) (fs (db w))) (db w)) (bump w))
  | None => (Ok tt, set_db (set_fs (app data (fs (db w))) (db w)) (bump w))
  end.

(** [file.Sync()], [file.Seek(...)] and [file.Close()]. *)
Definition seek_file : C unit := os_call os_fault (fun x => (Ok tt, x)).
Definition sync_file : C unit := os_call os_fault (fun x => (Ok tt, x)).
Definition close_file : C unit := os_call os_fault (fun x => (Ok tt, x)).

(** [os.Remove(path)]. *)
Definition remove_file (path : string) : C unit :=
  os_call remove_fault (fun x =>
    match entries x !! resolve path with
    | None => (Err ErrNotExist, x)
    | Some _ => (Ok tt, MkFS (delete (resolve path) (entries x)) (inodes x) (next_inode x))
    end).

(** [os.Rename(from, to)]; two entries of one inode stay as they are. *)
Definition rename_file (from to : string) : C unit :=
  os_call os_fault (fun x =>
    match entries x !! resolve from with
    | None => (Err ErrNotExist, x)
    | Some i =>
        if bool_decide (entries x !! resolve to = Some i) then (Ok tt, x)
        else (Ok tt, MkFS (<[resolve to := i]> (delete (resolve from) (entries x))) (inodes x) (next_inode x))
    end).

(** [os.Link(from, to)]. *)
Definition link_file (from to : string) : C unit :=
  os_call os_fault (fun x =>
    match entries x !! resolve from, entries x !! resolve to with
    | None, _ => (Err ErrNotExist, x)
    | Some _, Some _ => (Err ErrExist, x)
    | Some i, None => (Ok tt, MkFS (<[resolve to := i]> (entries x)) (inodes x) (next_inode x))
    end).

(** [os.Open(path)] and reading it to the end. *)
Definition read_file (path : string) : C string :=
  os_call os_fault (fun x =>
    match entries x !! resolve path with
    | None => (Err ErrNotExist, x)
    | Some i => (Ok (default "" (inodes x !! i)), x)
    end).

(** Reading an open file from its start. *)
Definition read_inode (i : nat) : C string :=
  os_call os_fault (fun x => (Ok (default "" (inodes x !! i)), x)).

(** Run a step whose error the program ignores. *)
Definition ignore {A} (m : C A) : C unit := let! _ := attempt m in ret tt.

(** ** Destinations *)
Record OpenPaths := MkPaths { op_OutputPath : string; op_OutputDir : string }.

(** [destination]: the reserved file, if any. *)
Record destination := MkDest { d_file : option nat; d_path : string }.

Definition discard (d : destination) : C destination :=
  match d_file d with
  | Some _ => do! ignore close_file in do! ignore (remove_file (d_path d)) in ret (MkDest None (d_path d))
  | None => ret d
  end.

(** [d.file.Write]: a nil file has no inode. *)
Definition writeText (d : destination) (payload : string) : C unit :=
  match d_file d with
  | Some i => do! write_file i payload in sync_file
  | None => throw (Fail "invalid argument")
  end.

Definition stage (d : destination) (opts : OpenPaths) : C (nat * string) :=
  let dir := match d_file d with Some _ => Dir (d_path d) | None => op_OutputDir opts end in
  CreateTemp (if bool_decide (dir = "") then "." else dir) ".flick-partial-" "".

Definition copyExclusive (src dst : string) : C unit :=
  let! data := read_file src in
  let! out := open_excl dst in
  let! r := attempt (write_file out data) in
  match r with
  | Err e => do! ignore close_file in do! ignore (remove_file dst) in throw e
  | Ok _ =>
      let! r := attempt sync_file in
      match r with
      | Err e => do! ignore close_file in do! ignore (remove_file dst) in throw e
      | Ok _ => close_file
      end
  end.

(** The loop of [placeFile] from an attempt on: the path, and an error beside
    it when only the staging name could not be removed. *)
Fixpoint place_from (attempts n : nat) (target staged : string) : C (string * option err) :=
  match attempts with
  | O => throw (Fail "could not find an unused filename")
  | Datatypes.S attempts =>
      let candidate := if (0 <? n)%nat then numberedPath target n else target in
      let! r := attempt (link_file staged candidate) in
      let! r := match r with
                | Err e => if bool_decide (e = ErrExist) then ret r else attempt (copyExclusive staged candidate)
                | Ok _ => ret r
                end in
      match r with
      | Err e => if bool_decide (e = ErrExist) then place_from attempts (Datatypes.S n) target staged else throw e
      | Ok _ =>
          let! r := attempt (remove_file staged) in
          match r with
          | Err _ => ret (candidate, Some (Fail "saved, but could not remove the staging link"))
          | Ok _ => ret (candidate, None)
          end
      end
  end.
Definition placeFile (opts : OpenPaths) (filename staged : string) : C (string * option err) :=
  place_from 100 0 (Join (op_OutputDir opts) (safeFilename filename)) staged.

Definition place (d : destination) (opts : OpenPaths) (filename : string) (staged : string) : C (string * option err) :=
  do! close_file in
  match d_file d with
  | Some _ =>
      do! ignore close_file in
      do! rename_file staged (d_path d) in
      ret (d_path d, None)
  | None => placeFile opts filename staged
  end.

Definition checkWritableDir (dir : string) : C unit :=
  let dir := if bool_decide (dir = "") then "." else dir in
  match stat_dir dir with
  | Err e => throw e
  | Ok false => throw (Fail "not a directory")
  | Ok true =>
      let! probe := CreateTemp dir ".flick-write-check-" "" in
      do! ignore close_file in
      remove_file probe.2
  end.

Definition reserveDestination (opts : OpenPaths) (kind : string) : C destination :=
  if bool_decide (op_OutputPath opts <> "") then
    let! i := open_excl (op_OutputPath opts) in
    ret (MkDest (Some i) (op_OutputPath opts))
  else if bool_decide (kind <> "file") then ret (MkDest None "")
  else do! checkWritableDir (op_OutputDir opts) in ret (MkDest None "").
End os.
