(* ===== verification/Client.v ===== *)
(** * The API client (src/internal/flickcli/client.go)

    One deployment's HTTP API as the command-line client calls it.  The network
    and what answers behind it are the class [Network]; encoding requests and
    decoding responses as JSON is the class [ClientCodec]. *)

From S2P Require Import Prelude GoStrings Codec World ObjectStorage Http RateLimit Config Url ClientCrypto Files.

Definition DefaultPayloadInlineMaxBytes : Z := 1044208.
Definition DefaultMaxFileBytes : Z := 268435456.

Record Client := MkClient { baseURL : string }.
Definition NewClient (url : string) : Client := MkClient (trim_right_byte slash url).

(** [APIError]: callers tell errors apart by their code. *)
Definition APIError (code : string) : err := Fail code.

Record Limits := MkLimits { li_PayloadInlineMaxBytes : Z; li_MaxFileBytes : Z }.
Definition DefaultLimits : Limits := MkLimits DefaultPayloadInlineMaxBytes DefaultMaxFileBytes.

Record CreateSecretRequest := MkCreateReq {
  cs_Kind : string;
  cs_Ciphertext : string;
  cs_Access : option AccessVerifier;
  cs_WrappedIdentity : string;
  cs_EncryptedFilename : string;
  cs_ContentType : string;
  cs_SizeBytes : Z;
  cs_TTLSeconds : Z;
  cs_MaxViews : Z;
}.

Record PresignedUpload := MkUpload {
  pu_URL : string;
  pu_Method : string;
  pu_ExpiresAt : string;
  pu_Headers : list (string * string);
}.

Record CreateSecretResponse := MkCreated {
  cd_ID : string;
  cd_ExpiresAt : string;
  cd_Upload : option PresignedUpload;
}.

Record SecretMetadata := MkMeta {
  md_ID : string;
  md_Kind : string;
  md_Access : option KDFParams;
  md_SizeBytes : Z;
  md_ExpiresAt : string;
}.

(** What a successful open returns; the body yields its bytes and its end. *)
Record OpenedSecret := MkOpenedSecret {
  os_Kind : string;
  os_ContentType : string;
  os_ExpiresAt : string;
  os_EncryptedFilename : string;
  os_WrappedIdentity : option string;
  os_Body : reading;
}.

(** The peer's answer to a request, or none when it cannot be reached. *)
Class Network (S : Type) := net_do : CliRequest -> S -> option Response * S.

Class ClientCodec := {
  marshal_create : CreateSecretRequest -> string;
  marshal_open : option string -> string;
  marshal_empty : string;
  decode_limits : resp_body -> option Limits;
  decode_created : resp_body -> option CreateSecretResponse;
  decode_metadata : resp_body -> option SecretMetadata;
  decode_finalized : resp_body -> option bool;
  decode_api_error : resp_body -> string;
  (** the bytes of a body as they arrive *)
  body_bytes : resp_body -> stream;
}.

(** ** Bodies of a known length *)

(** [exactBody] over a reader that yields chunks and then ends. *)
Inductive read_error := EOF | ReadErr (e : err).
Record source := MkSource { so_chunks : list string; so_end : read_error }.
Record exactBody := MkExact { eb_body : source; eb_remaining : Z }.

(** [b.body.Read(p)] into a buffer of [k] bytes. *)
Definition source_read (k : nat) (s : source) : string * option read_error * source :=
  match so_chunks s with
  | [] => ("", Some (so_end s), s)
  | c :: cs =>
      if (k <? String.length c)%nat then (take_bytes k c, None, MkSource (drop_bytes k c :: cs) (so_end s))
      else (c, None, MkSource cs (so_end s))
  end.

Definition err_longer : err := Fail "opened secret is longer than its recorded size".
Definition err_short : err := Fail "opened secret ended short".

Definition exact_read (k : nat) (b : exactBody) : string * option read_error * exactBody :=
  if eb_remaining b =? 0 then
    let '(extra, _, s) := source_read 1 (eb_body b) in
    if (0 <? String.length extra)%nat then ("", Some (ReadErr err_longer), MkExact s 0)
    else ("", Some EOF, MkExact s 0)
  else
    let k := if eb_remaining b <? Z.of_nat k then Z.to_nat (eb_remaining b) else k in
    let '(data, e, s) := source_read k (eb_body b) in
    let left := eb_remaining b - strlen data in
    match e with
    | Some EOF => (data, if 0 <? left then Some (ReadErr err_short) else None, MkExact s left)
    | Some (ReadErr e) => (data, Some (ReadErr e), MkExact s left)
    | None => (data, None, MkExact s left)
    end.

(** Reading it to the end with buffers of [k] bytes. *)
Fixpoint drain (fuel k : nat) (b : exactBody) : option reading :=
  match fuel with
  | O => None
  | S fuel =>
      match exact_read k b with
      | (data, Some EOF, _) => Some (MkReading data None)
      | (data, Some (ReadErr e), _) => Some (MkReading data (Some e))
      | (data, None, b) => r ← drain fuel k b; Some (MkReading (data +:+ released r) (failure r))
      end
  end.

(** What the whole body yields, for a body that is these bytes and this end. *)
Definition exact_reading (size : Z) (content : string) (e : read_error) : reading :=
  if size <? strlen content then MkReading (take_bytes (Z.to_nat size) content) (Some err_longer)
  else if strlen content <? size then
    MkReading content (Some (match e with EOF => err_short | ReadErr e => e end))
  else MkReading content None.

Definition body_end (b : stream) : read_error :=
  if complete b then EOF else ReadErr (Fail "read opened secret").

Section client.
Context {ENV : Env} {OS : Os} {S : Type} {NET : Network S} {CC : ClientCodec}.
Abbreviation C := (M (CliState S)).

(** [c.http.Do(req)]. *)
Definition http_do (req : CliRequest) : C (option Response) := fun w =>
  let '(r, p) := net_do req (peer (db w)) in
  (Ok r, set_db (MkCli (fs (db w)) p (sent (db w) ++ [req])) w).

Definition success (status : Z) : bool := (200 <=? status) && (status <? 300).

Definition readAPIError (resp : Response) : err :=
  let code := decode_api_error (rs_Body resp) in
  APIError (if bool_decide (code = "") then "request_failed" else code).

Definition send (c : Client) (method path : string) (body : option string) : C Response :=
  let! r := http_do (MkCReq method (baseURL c +:+ path)
                       (if body then [("Content-Type", "application/json")] else []) body) in
  match r with
  | None => throw (Fail "could not reach the deployment")
  | Some resp => if success (rs_Status resp) then ret resp else throw (readAPIError resp)
  end.

(** [c.do] with a response to decode. *)
Definition do_json {A} (c : Client) (method path : string) (body : option string) (decode : resp_body -> option A) : C A :=
  let! resp := send c method path body in
  match decode (rs_Body resp) with
  | None => throw (Fail "decode response")
  | Some a => ret a
  end.

Definition Config (c : Client) : C Limits :=
  let! r := attempt (do_json c "GET" "/api/config" None decode_limits) in
  match r with
  | Err _ => ret DefaultLimits
  | Ok fetched =>
      ret (MkLimits (if 0 <? li_PayloadInlineMaxBytes fetched then li_PayloadInlineMaxBytes fetched else DefaultPayloadInlineMaxBytes)
                    (if 0 <? li_MaxFileBytes fetched then li_MaxFileBytes fetched else DefaultMaxFileBytes))
  end.

Definition CreateSecret (c : Client) (req : CreateSecretRequest) : C CreateSecretResponse :=
  do_json c "POST" "/api/secrets" (Some (marshal_create req)) decode_created.

Definition GetSecretMetadata (c : Client) (id : string) : C SecretMetadata :=
  do_json c "GET" ("/api/secrets/" +:+ PathEscape id) None decode_metadata.

(** [headerBytes]: an absent header is nil. *)
Definition headerBytes (h : list (string * string)) (name : string) : result (option string) :=
  let value := header_get name h in
  if bool_decide (value = "") then Ok None
  else match Base64.decode Base64.StdEncoding value with
       | None => Err (Fail ("open response header " +:+ name +:+ " is not valid base64"))
       | Some b => Ok (Some b)
       end.

Definition openedSecret (resp : Response) (sizeBytes : Z) : result OpenedSecret :=
  let h := rs_Header resp in
  let kind := header_get "Flick-Kind" h in
  let* _ := refuse_if (bool_decide (kind <> "text") && bool_decide (kind <> "file")) "open response has an unknown kind" in
  let* wrapped := headerBytes h "Flick-Wrapped-Identity" in
  let b := body_bytes (rs_Body resp) in
  Ok (MkOpenedSecret kind (header_get "Flick-Content-Type" h) (header_get "Flick-Expires-At" h)
        (header_get "Flick-Encrypted-Filename" h) wrapped (exact_reading sizeBytes (content b) (body_end b))).

Definition open_path (id : string) : string := "/api/secrets/" +:+ PathEscape id +:+ "/open".

Definition OpenSecret (c : Client) (id accessProof : string) (sizeBytes : Z) : C OpenedSecret :=
  let body := marshal_open (if bool_decide (accessProof <> "") then Some accessProof else None) in
  do! fail_if (sizeBytes <=? 0) (Fail "secret metadata reports an impossible size") in
  let! resp := send c "POST" (open_path id) (Some body) in
  lift (openedSecret resp sizeBytes).

Definition FinalizeSecret (c : Client) (id : string) : C unit :=
  let! finalized := do_json c "POST" ("/api/secrets/" +:+ PathEscape id +:+ "/finalize") (Some marshal_empty) decode_finalized in
  fail_if (negb finalized) (APIError "upload_failed").

(** [Upload]: the signed headers but [Content-Length], which [size] determines;
    the transport refuses a body of any other length. *)
Definition Upload (c : Client) (u : PresignedUpload) (body : string) (size : Z) : C unit :=
  let! r := http_do (MkCReq (pu_Method u) (pu_URL u)
                       (filter (fun h => negb (EqualFoldASCII h.1 "Content-Length") = true) (pu_Headers u)) (Some body)) in
  match r with
  | None => throw (Fail "upload ciphertext")
  | Some resp =>
      do! fail_if (negb (strlen body =? size)) (Fail "upload ciphertext") in
      fail_if (negb (success (rs_Status resp))) (APIError "upload_failed")
  end.
End client.
