(* ===== verification/ClientJson.v ===== *)
(** * The client's JSON (src/internal/flickcli/client.go)

    What the client writes and reads as JSON: the structures of client.go and
    of internal/clientcrypto with their tags, [json.Marshal] of a request and
    [json.NewDecoder(resp.Body).Decode] of a response.  With them [ClientCodec]
    is the rules of package [encoding/json]. *)

From S2P Require Import Prelude GoStrings Codec World ObjectStorage Http RateLimit Config Json JsonProofs GoJson ClientCrypto Client.
#[local] Open Scope Z_scope.

(** ** Requests *)

(** A string field with [omitempty]. *)
Definition omit_empty (name s : string) : list (string * value) :=
  if bool_decide (s = "") then [] else [(name, VString s)].

Definition kdf_value (k : KDFParams) : value :=
  VObject [("algorithm", VString (kdf_Algorithm k)); ("salt", VString (kdf_Salt k));
           ("iterations", Json.VInt (kdf_Iterations k)); ("key_length_bits", Json.VInt (kdf_KeyLengthBits k))].
Definition access_value (a : option AccessVerifier) : list (string * value) :=
  match a with
  | None => []
  | Some v => [("access", VObject [("kdf", kdf_value (av_KDF v)); ("proof", VString (av_Proof v))])]
  end.

Definition create_members (r : CreateSecretRequest) : list (string * value) :=
  [("kind", VString (cs_Kind r))] ++ omit_empty "ciphertext" (cs_Ciphertext r) ++ access_value (cs_Access r) ++
  omit_empty "wrapped_identity" (cs_WrappedIdentity r) ++ omit_empty "encrypted_filename" (cs_EncryptedFilename r) ++
  omit_empty "content_type" (cs_ContentType r) ++
  [("size_bytes", Json.VInt (cs_SizeBytes r)); ("ttl_seconds", Json.VInt (cs_TTLSeconds r)); ("max_views", Json.VInt (cs_MaxViews r))].

(** [map[string]string] with at most the access proof. *)
Definition open_members (proof : option string) : list (string * value) :=
  match proof with Some p => [("access_proof", VString p)] | None => [] end.

(** ** Responses *)

(** The bytes of a body, and whether they end at its end. *)
Definition body_text (b : resp_body) : string :=
  match b with NoBody => "" | JsonBody j => Encode j | RawBody s => content s end.
Definition body_complete (b : resp_body) : bool := match b with RawBody s => complete s | _ => true end.

(** The decoder reads one value and no further.  A null ends only with the
    byte after it or with the end of the body. *)
Definition decode_response {A} (fields : list (field A)) (zero : A) (b : resp_body) : option A :=
  d ← read_document (body_text b);
  match d.1 with
  | DObject ms => decode_members false fields ms zero
  | DNull => if body_complete b || bool_decide (d.2 <> "") then Some zero else None
  | DOther => None
  end.

Definition limits_fields : list (field Limits) := [
  ("payload_inline_max_bytes", set_int (fun x l => MkLimits x (li_MaxFileBytes l)));
  ("max_file_bytes", set_int (fun x l => MkLimits (li_PayloadInlineMaxBytes l) x))].

Definition presigned_fields : list (field PresignedUpload) := [
  ("url", set_string (fun x u => MkUpload x (pu_Method u) (pu_ExpiresAt u) (pu_Headers u)));
  ("method", set_string (fun x u => MkUpload (pu_URL u) x (pu_ExpiresAt u) (pu_Headers u)));
  ("expires_at", set_string (fun x u => MkUpload (pu_URL u) (pu_Method u) x (pu_Headers u)));
  ("headers", set_strings pu_Headers (fun x u => MkUpload (pu_URL u) (pu_Method u) (pu_ExpiresAt u) x))].
Definition created_fields : list (field CreateSecretResponse) := [
  ("id", set_string (fun x c => MkCreated x (cd_ExpiresAt c) (cd_Upload c)));
  ("expires_at", set_string (fun x c => MkCreated (cd_ID c) x (cd_Upload c)));
  ("upload", set_struct_ptr false presigned_fields (MkUpload "" "" "" []) cd_Upload
     (fun x c => MkCreated (cd_ID c) (cd_ExpiresAt c) x))].

Definition client_kdf_fields : list (field KDFParams) := [
  ("algorithm", set_string (fun x k => MkKDF x (kdf_Salt k) (kdf_Iterations k) (kdf_KeyLengthBits k)));
  ("salt", set_string (fun x k => MkKDF (kdf_Algorithm k) x (kdf_Iterations k) (kdf_KeyLengthBits k)));
  ("iterations", set_int (fun x k => MkKDF (kdf_Algorithm k) (kdf_Salt k) x (kdf_KeyLengthBits k)));
  ("key_length_bits", set_int (fun x k => MkKDF (kdf_Algorithm k) (kdf_Salt k) (kdf_Iterations k) x))].
(** [accessMetadata] has one field. *)
Definition accessMetadata : list (field KDFParams) := [("kdf", set_struct false client_kdf_fields id (fun k _ => k))].
Definition metadata_fields : list (field SecretMetadata) := [
  ("id", set_string (fun x m => MkMeta x (md_Kind m) (md_Access m) (md_SizeBytes m) (md_ExpiresAt m)));
  ("kind", set_string (fun x m => MkMeta (md_ID m) x (md_Access m) (md_SizeBytes m) (md_ExpiresAt m)));
  ("access", set_struct_ptr false accessMetadata (MkKDF "" "" 0 0) md_Access
     (fun x m => MkMeta (md_ID m) (md_Kind m) x (md_SizeBytes m) (md_ExpiresAt m)));
  ("size_bytes", set_int (fun x m => MkMeta (md_ID m) (md_Kind m) (md_Access m) x (md_ExpiresAt m)));
  ("expires_at", set_string (fun x m => MkMeta (md_ID m) (md_Kind m) (md_Access m) (md_SizeBytes m) x))].

Definition finalized_fields : list (field (string * bool)) := [
  ("id", set_string (fun x r => (x, r.2))); ("finalized", set_bool (fun x r => (r.1, x)))].

(** The error envelope: [readAPIError] ignores the error of [Decode], which
    assigns what it can, and reads at most 4096 bytes. *)
Definition error_fields : list (field (string * string)) := [
  ("code", set_string (fun x r => (x, r.2))); ("message", set_string (fun x r => (r.1, x)))].
Fixpoint decode_what_fits {A} (fields : list (field A)) (ms : list member) (a : A) : A :=
  match ms with
  | [] => a
  | m :: ms =>
      decode_what_fits fields ms
        match field_of fields (mb_key m) with Some f => default a (f.2 m a) | None => a end
  end.
Definition set_error (m : member) (a : string * string) : option (string * string) :=
  match mb_value m with VObject ms => Some (decode_what_fits error_fields (nested ms) a) | _ => None end.
Definition error_of_text (s : string) : string * string :=
  match read_document s with
  | Some (DObject ms, _) => decode_what_fits [("error", set_error)] ms ("", "")
  | _ => ("", "")
  end.

#[export] Instance json_client : ClientCodec := {|
  marshal_create r := Json.print (VObject (create_members r));
  marshal_open p := Json.print (VObject (open_members p));
  marshal_empty := "{}";
  decode_limits := decode_response limits_fields (MkLimits 0 0);
  decode_created := decode_response created_fields (MkCreated "" "" None);
  decode_metadata := decode_response metadata_fields (MkMeta "" "" None 0 "");
  decode_finalized b := r ← decode_response finalized_fields ("", false) b; Some r.2;
  decode_api_error b := (error_of_text (Json.bytes 4096 (body_text b))).1;
  body_bytes b := MkStream (body_text b) (body_complete b);
|}.
