(* ===== verification/GoDuration.v ===== *)
(** * [time.ParseDuration] and truncation of floats

    Durations as the command line writes them, with the float arithmetic
    package [time] uses for fractions. *)

From S2P Require Import Prelude GoStrings Float64 Codec Http RateLimit Config Url.
From Stdlib Require Import SpecFloat.

(** [uint64(x)] and [int(x)] of a float in range: the fraction is dropped. *)
Definition trunc (x : float64) : Z :=
  match x with
  | S754_finite s m e =>
      let v := if 0 <=? e then Z.pos m * 2 ^ e else Z.pos m / 2 ^ (- e) in
      if s then - v else v
  | _ => 0
  end.

(** [leadingInt]: the digits a string starts with and the rest, unless they
    exceed [2^63]. *)
Fixpoint leadingInt (x : Z) (s : string) : option (Z * string) :=
  match s with
  | "" => Some (x, "")
  | String.String c r =>
      if is_digit c then
        if 2 ^ 63 / 10 <? x then None
        else
          let x := x * 10 + (byte_val c - 48) in
          if 2 ^ 63 <? x then None else leadingInt x r
      else Some (x, s)
  end.

(** [leadingFraction]: digits that do not fit are dropped. *)
Fixpoint leadingFraction (x : Z) (scale : float64) (overflow : bool) (s : string) : Z * float64 * string :=
  match s with
  | "" => (x, scale, "")
  | String.String c r =>
      if is_digit c then
        let y := x * 10 + (byte_val c - 48) in
        if overflow || ((2 ^ 63 - 1) / 10 <? x) || (2 ^ 63 <? y) then leadingFraction x scale true r
        else leadingFraction y (f_mul scale (of_int 10)) false r
      else (x, scale, s)
  end.

(** The unit a string starts with: the bytes up to a digit or a point. *)
Fixpoint take_unit (s : string) : string * string :=
  match s with
  | "" => ("", "")
  | String.String c r =>
      if Ascii.eqb c dot || is_digit c then ("", s)
      else let '(u, rest) := take_unit r in (String.String c u, rest)
  end.

Definition micro_sign : string := String.String (byte_of 194) (String.String (byte_of 181) "s").
Definition mu_sign : string := String.String (byte_of 206) (String.String (byte_of 188) "s").
Definition unitMap (u : string) : option Z :=
  if bool_decide (u = "ns") then Some 1
  else if bool_decide (u = "us") || bool_decide (u = micro_sign) || bool_decide (u = mu_sign) then Some 1000
  else if bool_decide (u = "ms") then Some 1000000
  else if bool_decide (u = "s") then Some Second
  else if bool_decide (u = "m") then Some Minute
  else if bool_decide (u = "h") then Some (60 * Minute)
  else None.

(** One number with its unit: its nanoseconds, and the rest. *)
Definition duration_term (s : string) : option (Z * string) :=
  match s with
  | "" => None
  | String.String c _ =>
      if negb (Ascii.eqb c dot || is_digit c) then None
      else
        '(v, s1) ← leadingInt 0 s;
        let pre := negb (String.length s1 =? String.length s)%nat in
        let '(f, scale, s2, post) :=
          match s1 with
          | String.String c1 r =>
              if Ascii.eqb c1 dot then
                let '(f, scale, rest) := leadingFraction 0 (of_int 1) false r in
                (f, scale, rest, negb (String.length rest =? String.length r)%nat)
              else (0, of_int 1, s1, false)
          | "" => (0, of_int 1, s1, false)
          end in
        if negb pre && negb post then None
        else
          let '(u, rest) := take_unit s2 in
          if bool_decide (u = "") then None
          else
            unit ← unitMap u;
            if 2 ^ 63 / unit <? v then None
            else
              let v := v * unit in
              let v := if 0 <? f then v + trunc (f_mul (of_int f) (f_div (of_int unit) scale)) else v in
              if 2 ^ 63 <? v then None else Some (v, rest)
  end.

(** The loop: every round reads a digit or a point, so the length is fuel
    enough. *)
Fixpoint duration_terms (fuel : nat) (d : Z) (s : string) : option Z :=
  match fuel, s with
  | _, "" => Some d
  | O, _ => None
  | S fuel, _ =>
      '(v, rest) ← duration_term s;
      if 2 ^ 63 <? d + v then None else duration_terms fuel (d + v) rest
  end.

Definition ParseDuration (s : string) : option Z :=
  let '(neg, s) :=
    match s with
    | String.String c r =>
        if Ascii.eqb c (Ascii.ascii_of_nat 45) then (true, r)
        else if Ascii.eqb c (Ascii.ascii_of_nat 43) then (false, r) else (false, s)
    | "" => (false, s)
    end in
  if bool_decide (s = "0") then Some 0
  else if bool_decide (s = "") then None
  else
    d ← duration_terms (String.length s) 0 s;
    if neg then Some (- d) else if 2 ^ 63 - 1 <? d then None else Some d.

Example durations : ParseDuration "24h" = Some (24 * 60 * Minute) /\ ParseDuration "1h30m" = Some (90 * Minute) /\
  ParseDuration "1.5h" = Some (90 * Minute) /\ ParseDuration "30" = None /\ ParseDuration "-5m" = Some (- 5 * Minute) /\
  ParseDuration "0.1s" = Some 100000000 /\ ParseDuration ".s" = None.
Proof. by vm_compute. Qed.

(** Each round shortens the text, so the fuel is enough: the rest is read or
    refused. *)
Lemma leadingInt_shorter x s v r : leadingInt x s = Some (v, r) -> (String.length r <= String.length s)%nat.
Proof.
  revert x. induction s as [|c s IH]; simpl; intros x; [by intros [= _ <-]|].
  destruct (is_digit c); [|by intros [= _ <-]]. destruct (_ <? x); [done|]. destruct (2 ^ 63 <? _); [done|].
  intros H%IH. lia.
Qed.
