(* ===== verification/CliSend.v ===== *)
(** * Sending from the command line (src/internal/flickcli/send.go)

    [Send] encrypts locally and creates the secret.  A file is encrypted into a
    temporary file, which holds only ciphertext and is removed at the end; the
    model encrypts it at once where the code encrypts as it reads, which leaves
    the same file when it succeeds and removes it when it does not. *)

From S2P Require Import Prelude GoStrings Codec World ObjectStorage Http RateLimit Config Url ClientCrypto ShareLink Files Client GoDuration.

Definition MinTTL : Z := 5 * Minute.
Definition MaxTTL : Z := 7 * 24 * 60 * Minute.
Definition DefaultTTL : Z := 60 * Minute.

(** [mime.TypeByExtension] of an extension in lower case; it reads the system's
    tables. *)
Class Mime := TypeByExtension : string -> string.

Record SendOptions := MkSend {
  so_Text : string;
  so_FileName : string;
  so_File : option reading;
  so_ContentType : string;
  so_Passphrase : string;
  so_TTL : Z;
  so_ShareOrigin : string;
}.

Record SendResult := MkSent {
  sr_ID : string;
  sr_ExpiresAt : string;
  sr_Link : string;
  sr_Model : string;
  sr_Uploaded : bool;
}.

Definition validateSendOptions (o : SendOptions) : result unit :=
  let* _ := refuse_if (bool_decide (so_Text o = "") && bool_decide (so_FileName o = "")) "nothing to send: provide text or a file" in
  let* _ := refuse_if (bool_decide (so_Text o <> "") && bool_decide (so_FileName o <> "")) "send text or a file, not both" in
  let* _ := refuse_if (bool_decide (so_FileName o <> "") && negb (if so_File o then true else false)) "no file contents to send" in
  let* _ := refuse_if (so_TTL o <? MinTTL) "TTL is below the minimum" in
  refuse_if (MaxTTL <? so_TTL o) "TTL is above the maximum".

Definition resolveContentType {MI : Mime} (filename override : string) : string :=
  if bool_decide (override <> "") then override
  else
    let guessed := TypeByExtension (Ext filename) in
    if bool_decide (guessed <> "") then guessed else "application/octet-stream".

(** [int(ttl.Seconds())]: the float is truncated. *)
Definition ttl_seconds (ttl : Z) : Z := trunc (Seconds ttl).

Record sealedFile := MkSealed { sf_inode : nat; sf_name : string; sf_size : Z; sf_plaintextBytes : Z }.

Section send.
Context {ENV : Env} {AGE : Age} {OS : Os} {MI : Mime} {S : Type} {NET : Network S} {CC : ClientCodec}.
Abbreviation C := (M (CliState S)).

Definition seal (id : HybridIdentity) (plaintext : string) : C string := EncryptTo id plaintext.

Definition remove_sealed (s : sealedFile) : C unit :=
  do! ignore close_file in ignore (remove_file (sf_name s)).

(** [fill]: the size of the age file and of the plaintext. *)
Definition fill (inode : nat) (id : HybridIdentity) (src : reading) (limit : Z) : C (Z * Z) :=
  match read_limited (wrap64 (limit + 1)) src with
  | Err e => throw e
  | Ok plaintext =>
      do! fail_if (limit <? strlen plaintext) (Fail "file is larger than this deployment accepts") in
      let! file := EncryptTo id plaintext in
      do! write_file inode file in
      do! seek_file in
      do! seek_file in
      ret (strlen file, strlen plaintext)
  end.

Definition sealFile (id : HybridIdentity) (src : reading) (limit : Z) : C sealedFile :=
  let! staged := CreateTemp "" "flick-send-" ".age" in
  let! r := attempt (fill staged.1 id src limit) in
  match r with
  | Err e => do! remove_sealed (MkSealed staged.1 staged.2 0 0) in throw e
  | Ok (size, n) => ret (MkSealed staged.1 staged.2 size n)
  end.

Definition addPassphrase (req : CreateSecretRequest) (id : HybridIdentity) (passphrase : string) : C CreateSecretRequest :=
  let! verifier := NewAccessVerifier passphrase in
  let! wrapped := WrapIdentity id passphrase in
  ret (MkCreateReq (cs_Kind req) (cs_Ciphertext req) (Some verifier) (Base64.encode Base64.StdEncoding wrapped)
         (cs_EncryptedFilename req) (cs_ContentType req) (cs_SizeBytes req) (cs_TTLSeconds req) (cs_MaxViews req)).

(** The body of a text secret, and the request both kinds start from. *)
Definition base_request (o : SendOptions) (body : string) : CreateSecretRequest :=
  MkCreateReq "text" (Base64.encode Base64.StdEncoding body) None "" "" "" (strlen body) (ttl_seconds (so_TTL o)) 1.

Definition with_passphrase (o : SendOptions) (id : HybridIdentity) (req : CreateSecretRequest) : C CreateSecretRequest :=
  if bool_decide (so_Passphrase o <> "") then addPassphrase req id (so_Passphrase o) else ret req.

(** The request of a file secret: above the inline limit its body is left out. *)
Definition file_request (o : SendOptions) (id : HybridIdentity) (limits : Limits) (sealed : sealedFile)
    (req : CreateSecretRequest) : C (CreateSecretRequest * bool) :=
  let! filename := seal id (so_FileName o) in
  let large := li_PayloadInlineMaxBytes limits <? sf_plaintextBytes sealed in
  let! ciphertext := if large then ret ""
                     else do! seek_file in let! body := read_inode (sf_inode sealed) in ret (Base64.encode Base64.StdEncoding body) in
  ret (MkCreateReq "file" ciphertext (cs_Access req) (cs_WrappedIdentity req) (Base64.encode Base64.StdEncoding filename)
         (resolveContentType (so_FileName o) (so_ContentType o)) (sf_size sealed) (cs_TTLSeconds req) (cs_MaxViews req), large).

(** What [Send] returns once the secret exists. *)
Definition send_result (c : Client) (o : SendOptions) (id : HybridIdentity) (created : CreateSecretResponse) (large : bool) : SendResult :=
  let origin := if bool_decide (so_ShareOrigin o = "") then baseURL c else so_ShareOrigin o in
  if bool_decide (so_Passphrase o <> "")
  then MkSent (cd_ID created) (cd_ExpiresAt created) (BuildShareLink origin (cd_ID created) None) "passphrase" large
  else MkSent (cd_ID created) (cd_ExpiresAt created) (BuildShareLink origin (cd_ID created) (Some id)) "link-key" large.

Definition upload_large (c : Client) (sealed : sealedFile) (created : CreateSecretResponse) : C unit :=
  match cd_Upload created with
  | None => throw (Fail "server did not return a presigned upload for a large file")
  | Some u =>
      let! body := read_inode (sf_inode sealed) in
      do! Upload c u body (sf_size sealed) in
      FinalizeSecret c (cd_ID created)
  end.

Definition send_text (c : Client) (o : SendOptions) (id : HybridIdentity) (limits : Limits) : C SendResult :=
  do! fail_if ((0 <? li_PayloadInlineMaxBytes limits) && (li_PayloadInlineMaxBytes limits <? strlen (so_Text o)))
              (Fail "text is too large: send as a file with -file instead") in
  let! body := seal id (so_Text o) in
  let! req := with_passphrase o id (base_request o body) in
  let! created := CreateSecret c req in
  ret (send_result c o id created false).

Definition Send (c : Client) (o : SendOptions) : C SendResult :=
  do! lift (validateSendOptions o) in
  let! limits := Client.Config c in
  let! id := NewIdentity in
  match so_File o with
  | Some src =>
      if bool_decide (so_FileName o <> "") then
        let! sealed := sealFile id src (li_MaxFileBytes limits) in
        let! r := attempt (
          let! req := with_passphrase o id (base_request o "") in
          let! file := file_request o id limits sealed req in
          let! created := CreateSecret c file.1 in
          do! if (file.2 : bool) then upload_large c sealed created else ret tt in
          ret (send_result c o id created file.2)) in
        do! remove_sealed sealed in
        lift r
      else send_text c o id limits
  | None => send_text c o id limits
  end.
End send.
