(* ===== verification/CliOpen.v ===== *)
(** * Opening from the command line (src/internal/flickcli/open.go)

    [Open] probes the secret, prepares everything that can fail, reserves the
    output and only then sends the request that consumes the secret.  An error
    with an empty result is the monad's error; one beside a result is a value.
    Closing files and bodies at the end has no effect in the model. *)

From S2P Require Import Prelude GoStrings Codec World ObjectStorage AgeFormat Http RateLimit Config Url Json GoJson ClientCrypto ShareLink Files Client.

Definition ErrWriteAfterConsume : err := Fail "secret was opened and consumed but could not be written".

Section open.
Context {ENV : Env} {AGE : Age} {OS : Os} {S : Type} {NET : Network S} {CC : ClientCodec}.
Abbreviation C := (M (CliState S)).

Record OpenOptions := MkOpen {
  oo_Link : ShareLink;
  oo_Passphrase : option (C string);
  oo_Paths : OpenPaths;
}.

Record OpenResult := MkResult {
  or_Kind : string;
  or_Plaintext : string;
  or_Filename : string;
  or_ContentType : string;
  or_WrittenPath : string;
  or_RescuedPath : string;
  or_FilenameUnreadable : bool;
}.

(** [consumedError]: it wraps its cause. *)
Definition consumedError (e : err) : err := e.

Definition ageFileBytes (n : Z) : Z :=
  wrap64 (4096 + 16 + n + 16 * Z.max 1 (Z.quot (wrap64 (n + 65535)) 65536)).

(** [unsealReader]: all of the plaintext, or an error. *)
Definition unsealReader (id : HybridIdentity) (src : reading) : result string :=
  let* r := DecryptWith src id in
  match failure r with None => Ok (released r) | Some e => Err e end.
Definition unseal (id : HybridIdentity) (file : string) : result string := unsealReader id (MkReading file None).

Definition openFilename (id : HybridIdentity) (encoded : string) : result string :=
  match Base64.decode Base64.StdEncoding encoded with
  | None => Err (Fail "illegal base64 data")
  | Some file =>
      let* name := unseal id file in
      let* _ := refuse_if (negb (Json.utf8_valid name)) "filename is not UTF-8" in
      Ok name
  end.

(** [decryptInto]: [inl e] when the body failed to decrypt, [inr e] when a
    local write failed. *)
Definition decryptInto (staged : nat) (id : HybridIdentity) (body : reading) : C (option (err + err)) :=
  match DecryptWith body id with
  | Err e => ret (Some (inl e))
  | Ok r =>
      let! w := attempt (write_file staged (released r)) in
      match w, failure r with
      | Err e, _ => ret (Some (inr e))
      | Ok _, Some e => ret (Some (inl e))
      | Ok _, None =>
          let! s := attempt sync_file in
          match s with Err e => ret (Some (inr e)) | Ok _ => ret None end
      end
  end.

Definition openText (opts : OpenPaths) (reserved : destination) (id : HybridIdentity) (opened : OpenedSecret) :
    C (OpenResult * option err) :=
  match unsealReader id (os_Body opened) with
  | Err e => do! discard reserved in throw (consumedError e)
  | Ok plaintext =>
      let result path := MkResult (os_Kind opened) plaintext "" (os_ContentType opened) path "" false in
      if bool_decide (op_OutputPath opts = "") then ret (result "", None)
      else
        let! r := attempt (writeText reserved plaintext) in
        match r with
        | Err _ => ret (result "", Some ErrWriteAfterConsume)
        | Ok _ => ret (result (op_OutputPath opts), None)
        end
  end.

Definition openFile (opts : OpenPaths) (reserved : destination) (id : HybridIdentity) (opened : OpenedSecret) :
    C (OpenResult * option err) :=
  let named := if bool_decide (op_OutputPath opts = "") && bool_decide (os_EncryptedFilename opened <> "")
               then openFilename id (os_EncryptedFilename opened) else Ok "" in
  let filename := match named with Ok n => n | Err _ => "" end in
  let unreadable := negb (is_ok named) in
  let result written rescued := MkResult (os_Kind opened) "" filename (os_ContentType opened) written rescued unreadable in
  let! s := attempt (stage reserved opts) in
  match s with
  | Err _ => do! discard reserved in ret (result "" "", Some ErrWriteAfterConsume)
  | Ok (staged, name) =>
      let! d := decryptInto staged id (os_Body opened) in
      match d with
      | Some e =>
          do! ignore close_file in
          do! ignore (remove_file name) in
          do! discard reserved in
          ret (result "" "", Some (match e with inl e => consumedError e | inr _ => ErrWriteAfterConsume end))
      | None =>
          let! p := attempt (place reserved opts filename name) in
          match p with
          | Err _ => ret (result "" name, Some ErrWriteAfterConsume)
          | Ok (written, e) => ret (result written "", e)
          end
      end
  end.

(** How the secret will be decrypted: with the identity of the link, or with
    the one the open returns, wrapped under the passphrase. *)
Inductive access := ByPassphrase (passphrase proof : string) | ByLink (id : HybridIdentity).

Definition prepare_access (o : OpenOptions) (m : SecretMetadata) : C access :=
  match md_Access m with
  | Some kdf =>
      match oo_Passphrase o with
      | None => throw (Fail "this secret needs a passphrase and none can be read")
      | Some ask_passphrase =>
          let! passphrase := ask_passphrase in
          let! proof := lift (DeriveAccessProof passphrase kdf) in
          ret (ByPassphrase passphrase proof)
      end
  | None =>
      match sl_Identity (oo_Link o) with
      | None => throw (Fail "this secret is opened with the key in the link fragment")
      | Some id => ret (ByLink id)
      end
  end.

Definition access_proof (a : access) : string := match a with ByPassphrase _ p => p | ByLink _ => "" end.

Definition identity_of (a : access) (opened : OpenedSecret) : result HybridIdentity :=
  match a with
  | ByLink id => Ok id
  | ByPassphrase passphrase _ =>
      match os_WrappedIdentity opened with
      | None => Err (Fail "open response carries no wrapped identity for a passphrase secret")
      | Some wrapped => UnwrapIdentity wrapped passphrase
      end
  end.

(** Everything before the consuming request. *)
Definition prepare (c : Client) (o : OpenOptions) : C (SecretMetadata * access * destination) :=
  do! fail_if (bool_decide (sl_ID (oo_Link o) = "")) (Fail "no secret ID to open") in
  let! metadata := GetSecretMetadata c (sl_ID (oo_Link o)) in
  let! a := prepare_access o metadata in
  do! if bool_decide (md_Kind metadata <> "file") then
        let! limits := Client.Config c in
        fail_if (ageFileBytes (li_PayloadInlineMaxBytes limits) <? md_SizeBytes metadata)
                (Fail "text secret reports more bytes than this deployment stores inline")
      else ret tt in
  let! reserved := reserveDestination (oo_Paths o) (md_Kind metadata) in
  ret (metadata, a, reserved).

Definition Open (c : Client) (o : OpenOptions) : C (OpenResult * option err) :=
  let! '(metadata, a, reserved) := prepare c o in
  let! r := attempt (OpenSecret c (sl_ID (oo_Link o)) (access_proof a) (md_SizeBytes metadata)) in
  match r with
  | Err e => do! discard reserved in throw e
  | Ok opened =>
      match identity_of a opened with
      | Err e => do! discard reserved in throw e
      | Ok id =>
          if bool_decide (os_Kind opened <> "file") then openText (oo_Paths o) reserved id opened
          else openFile (oo_Paths o) reserved id opened
      end
  end.
End open.
