(* ===== verification/Cli.v ===== *)
(** * The command line (src/cmd/flick/main.go)

    The commands of the client: the flags and what they default to, what is
    read from the terminal or a pipe, and what is printed.  The process's
    standard streams are a part of its state beside the peer; what goes to
    standard error is kept as notices, not as text.  What package [flag] prints
    and cancelling on a signal are not modelled.  The terminal library is the
    class [Terminal], and [os.LookupEnv] is the class [Environ]. *)

From S2P Require Import Prelude GoStrings Codec World ObjectStorage Http RateLimit Config Url Json GoJson ClientCrypto ShareLink Flags Files Client GoDuration CliSend CliOpen.

Inductive notice :=
  | Usage
  | Label (text : string)                 (** a prompt *)
  | TTLLabel (fallback : Z)
  | Line                                  (** the newline after a hidden answer *)
  | OneLine | UseFile                     (** how to type a secret *)
  | NotADuration (typed : string) | LifetimeBounds
  | ExpiresNotice (at_ : string) | NeedsPassphrase
  | NameUnreadable | Saved (path : string)
  | Cause (e : err) | OnlyCopy | RescuedTo (path : string) | OnStdout | NotSaved
  | Failed (e : err).

(** The unread input with the error that ends it, if not the end of the file,
    and what was written. *)
Record Tty := MkTty {
  stdin : string;
  stdin_end : option err;
  stdout : string;
  stderr : list notice;
}.

Definition ErrEOF : err := Fail "EOF".
Definition errCancelled : err := Fail "cancelled".
Definition ErrHelp : err := Fail "flag: help requested".

(** golang.org/x/term: whether a descriptor is a terminal, and a line read
    without echo with what is left of the input. *)
Class Terminal := {
  IsTerminal : nat -> bool;
  ReadPassword : string -> option err -> result string * string;
}.
Class Environ := LookupEnv : string -> option string.
(** The linker's version and the toolchain's, if any. *)
Class Build := { linked_version : string; module_version : option string }.

Definition newline : Ascii.ascii := Ascii.ascii_of_nat 10.
Definition return_byte : Ascii.ascii := Ascii.ascii_of_nat 13.

(** [strings.TrimRight(s, cutset)]. *)
Fixpoint TrimRight (cutset s : string) : string :=
  match s with
  | "" => ""
  | String.String a r =>
      match TrimRight cutset r with
      | "" => if contains_byte a cutset then "" else String.String a ""
      | t => String.String a t
      end
  end.
Definition crlf : string := String.String return_byte (String.String newline "").

(** [strconv.ParseBool]. *)
Definition ParseBool (s : string) : option bool :=
  if bool_decide (s ∈ ["1"; "t"; "T"; "true"; "TRUE"; "True"]) then Some true
  else if bool_decide (s ∈ ["0"; "f"; "F"; "false"; "FALSE"; "False"]) then Some false
  else None.

(** ** Flags *)
Definition string_flag : flag_decl := MkFlag false (fun _ => true).
Definition bool_flag : flag_decl := MkFlag true (fun v => if ParseBool v then true else false).
Definition duration_flag : flag_decl := MkFlag false (fun v => if ParseDuration v then true else false).

Definition send_flags : FlagSet :=
  {[ "file" := string_flag; "passphrase" := bool_flag; "ttl" := duration_flag; "url" := string_flag;
     "share-url" := string_flag; "json" := bool_flag ]}.
Definition open_flags : FlagSet :=
  {[ "output" := string_flag; "output-dir" := string_flag; "url" := string_flag ]}.

(** The value a flag ends with: the last one set. *)
Definition last_setting (sets : list setting) (name : string) : option string :=
  head (reverse (filter (fun p => p.1 = name) sets).*2).
Definition string_value (sets : list setting) (name fallback : string) : string :=
  default fallback (last_setting sets name).
Definition bool_value (sets : list setting) (name : string) : bool :=
  default false (last_setting sets name ≫= ParseBool).
Definition duration_value (sets : list setting) (name : string) (fallback : Z) : Z :=
  default fallback (last_setting sets name ≫= ParseDuration).
Definition flagGiven (sets : list setting) (name : string) : bool :=
  existsb (fun p => bool_decide (p.1 = name)) sets.

Definition fileNameOf (path : string) : string :=
  let base := Base path in
  if bool_decide (base = ".") || bool_decide (base = "/") then "flick-file" else base.

Definition quote : string := Json.char 34 "".
Definition with_newline (line : string) : string := line +:+ Json.char 10 "".
Definition usage : string := foldr String.append "" (with_newline <$> [
  "flick — one-time encrypted secret links";
  "";
  "Usage:";
  "  flick send [flags] [text]        Create a secret and print its share link";
  "  flick open [flags] <link|id>     Open a secret once and print or save it";
  "  flick version                    Print the client version";
  "";
  ("Run " +:+ quote +:+ "flick <command> -h" +:+ quote +:+ " for the flags of a command.");
  "";
  "Flags may go before or after the text or the link, in any order:";
  ("  flick send -ttl 24h " +:+ quote +:+ "db password" +:+ quote +:+ "");
  ("  flick send " +:+ quote +:+ "db password" +:+ quote +:+ " -ttl 24h");
  "";
  ("Run " +:+ quote +:+ "flick send" +:+ quote +:+ " with nothing to send and it asks for the secret, its lifetime,");
  "and whether to protect it with a passphrase, one at a time.";
  "";
  ("Text that begins with a dash needs " +:+ quote +:+ "--" +:+ quote +:+ " first, or it is read as a flag:");
  "  flick send -- -----BEGIN...";
  "";
  "Environment:";
  "  FLICK_URL           Default deployment URL (overridden by -url)";
  "  FLICK_PASSPHRASE    Passphrase for non-interactive use, instead of a prompt"]).

Definition defaultAPIURL : string := "http://localhost:8080".

Section cli.
Context {ENV : Env} {AGE : Age} {OS : Os} {MI : Mime} {P : Type} {NET : Network P} {CC : ClientCodec}.
Context {TE : Terminal} {EN : Environ} {BU : Build}.
Abbreviation S := (P * Tty)%type.
Abbreviation C := (M (CliState S)).

#[export] Instance tty_network : Network S := fun req s =>
  let '(r, p) := net_do req s.1 in (r, (p, s.2)).

(** A step on the standard streams. *)
Definition on_tty {A} (f : Tty -> result A * Tty) : C A := fun w =>
  let '(r, t) := f (peer (db w)).2 in
  (r, set_db (MkCli (fs (db w)) ((peer (db w)).1, t) (sent (db w))) w).

Definition notify (n : notice) : C unit :=
  on_tty (fun t => (Ok tt, MkTty (stdin t) (stdin_end t) (stdout t) (stderr t ++ [n]))).
Definition set_stdin (s : string) (t : Tty) : Tty := MkTty s (stdin_end t) (stdout t) (stderr t).

(** [os.Stdout.Write(data)]. *)
Definition write_stdout (data : string) : C unit := fun w =>
  let '(r, out) := match os_fault (tick w) with
                   | Some e => (Err e, take_bytes (partial_write (tick w)) data)
                   | None => (Ok tt, data)
                   end in
  on_tty (fun t => (r, MkTty (stdin t) (stdin_end t) (stdout t +:+ out) (stderr t))) (bump w).
(** [fmt.Print] to standard output, whose error is ignored. *)
Definition print (s : string) : C unit := ignore (write_stdout s).

Definition defaultURL : string :=
  match LookupEnv "FLICK_URL" with
  | Some fromEnv => if bool_decide (fromEnv <> "") then fromEnv else defaultAPIURL
  | None => defaultAPIURL
  end.

Definition clientVersion : string :=
  if bool_decide (linked_version <> "") then linked_version
  else match module_version with
       | Some v => if bool_decide (v <> "") then v else "unknown"
       | None => "unknown"
       end.

(** ** Reading *)
Definition promptHidden (label : string) : C string :=
  if negb (IsTerminal 0) then throw (Fail "a passphrase is needed but stdin is not a terminal; set FLICK_PASSPHRASE instead")
  else
    do! notify (Label label) in
    let! typed := attempt (on_tty (fun t =>
      let '(r, rest) := ReadPassword (stdin t) (stdin_end t) in (r, set_stdin rest t))) in
    do! notify Line in
    match typed with
    | Ok s => ret s
    | Err e => if bool_decide (e = ErrEOF) then throw errCancelled else throw e
    end.

Definition from_environ (k : C string) : C string :=
  match LookupEnv "FLICK_PASSPHRASE" with
  | Some fromEnv => do! fail_if (bool_decide (fromEnv = "")) (Fail "FLICK_PASSPHRASE is set but empty") in ret fromEnv
  | None => k
  end.
Definition readExistingPassphrase : C string := from_environ (promptHidden "Passphrase: ").
Definition readNewPassphrase : C string := from_environ (
  let! first := promptHidden "Passphrase: " in
  let! second := promptHidden "Confirm passphrase: " in
  do! fail_if (bool_decide (first <> second)) (Fail "the two passphrases do not match") in
  do! fail_if (bool_decide (first = "")) (Fail "passphrase must not be empty") in
  ret first).

Definition promptSecretText : C string :=
  do! notify OneLine in
  do! notify UseFile in
  let! text := promptHidden "Secret: " in
  do! fail_if (bool_decide (text = "")) (Fail "nothing to send") in
  ret text.

(** The loop of [readLine], from the bytes read so far. *)
Fixpoint read_line (line : string) (s : string) (e : option err) : result string * string :=
  match s with
  | "" =>
      match e with
      | None => (if bool_decide (line = "") then Err errCancelled else Ok line, "")
      | Some e => (Err e, "")
      end
  | String.String c r => if Ascii.eqb c newline then (Ok line, r) else read_line (line +:+ String.String c "") r e
  end.
Definition readLine : C string :=
  let! line := on_tty (fun t => let '(r, rest) := read_line "" (stdin t) (stdin_end t) in (r, set_stdin rest t)) in
  ret (trim_right_byte return_byte line).

(** The loop of [promptTTL]; [None] when the steps run out. *)
Fixpoint prompt_ttl (steps : nat) (fallback : Z) : C (option Z) :=
  match steps with
  | O => ret None
  | Datatypes.S steps =>
      do! notify (TTLLabel fallback) in
      let! typed := readLine in
      if bool_decide (typed = "") then ret (Some fallback)
      else match ParseDuration typed with
           | None => do! notify (NotADuration typed) in prompt_ttl steps fallback
           | Some chosen =>
               if (chosen <? MinTTL) || (MaxTTL <? chosen) then do! notify LifetimeBounds in prompt_ttl steps fallback
               else ret (Some chosen)
           end
  end.
(** Every answer but the last takes a byte of the input. *)
Definition promptTTL (fallback : Z) : C Z := fun w =>
  (let! o := prompt_ttl (Datatypes.S (Datatypes.S (String.length (stdin (peer (db w)).2)))) fallback in
   match o with Some d => ret d | None => throw (Fail "unreachable") end) w.

Definition promptYesNo (label : string) : C bool :=
  do! notify (Label label) in
  let! typed := readLine in
  let answer := to_lower (TrimSpace typed) in
  ret (bool_decide (answer = "y") || bool_decide (answer = "yes")).

(** [io.ReadAll] of standard input, up to [n] bytes if given. *)
Definition read_stdin (n : option Z) : C string :=
  on_tty (fun t =>
    let input := MkReading (stdin t) (stdin_end t) in
    match n with
    | Some n => (read_limited n input, set_stdin (drop_bytes (Z.to_nat n) (stdin t)) t)
    | None => (match failure input with None => Ok (released input) | Some e => Err e end, set_stdin "" t)
    end).

Definition readText (args : list string) (limit : Z) : C string :=
  let too_large (s : string) := (0 <? limit) && (limit <? strlen s) in
  let refusal := Fail "text is too large: send as a file with -file instead" in
  match args with
  | _ :: _ :: _ => throw (Fail "give the text as one argument, or pipe it on stdin")
  | [arg] => do! fail_if (too_large arg) refusal in ret arg
  | [] =>
      let! piped := read_stdin (if 0 <? limit then Some (wrap64 (limit + 1)) else None) in
      do! fail_if (too_large piped) refusal in
      let text := TrimRight crlf piped in
      do! fail_if (bool_decide (text = "")) (Fail "stdin was empty") in
      do! fail_if (too_large text) refusal in
      ret text
  end.

(** [os.Open(path)]: the file, as it will be read. *)
Definition open_input (path : string) : C reading :=
  let! i := os_call os_fault (fun x =>
    match entries x !! resolve path with Some i => (Ok i, x) | None => (Err ErrNotExist, x) end) in
  fun w =>
    let data := default "" (inodes (fs (db w)) !! i) in
    (Ok (match os_fault (tick w) with
         | Some e => MkReading (take_bytes (partial_write (tick w)) data) (Some e)
         | None => MkReading data None
         end), bump w).

(** ** Commands *)
Record choice := MkChoice { ch_Text : string; ch_FileName : string; ch_File : option reading; ch_TTL : Z; ch_Passphrase : bool }.

(** The switch of [runSend]: what to send, for how long, and whether a
    passphrase is wanted. *)
Definition choose (sets : list setting) (args : list string) (limits : Limits) : C choice :=
  let filePath := string_value sets "file" "" in
  let ttl := duration_value sets "ttl" DefaultTTL in
  let want := bool_value sets "passphrase" in
  if bool_decide (filePath <> "") then
    do! fail_if (negb (bool_decide (args = []))) (Fail "send a file or text, not both") in
    let! file := open_input filePath in
    ret (MkChoice "" (fileNameOf filePath) (Some file) ttl want)
  else if bool_decide (args = []) && IsTerminal 0 then
    let! text := promptSecretText in
    let! ttl := if flagGiven sets "ttl" then ret ttl else promptTTL ttl in
    let! want := if want then ret true else promptYesNo "Protect it with a passphrase? [y/N]: " in
    ret (MkChoice text "" None ttl want)
  else
    let! text := readText args (li_PayloadInlineMaxBytes limits) in
    ret (MkChoice text "" None ttl want).

Definition sent_json (r : SendResult) : json :=
  JObject [("expires_at", JString (sr_ExpiresAt r)); ("id", JString (sr_ID r));
           ("link", JString (sr_Link r)); ("model", JString (sr_Model r))].

Definition runSend (args : list string) : C unit :=
  let! '(sets, rest) := lift (Parse_args send_flags (hoistFlags send_flags args)) in
  let client := NewClient (string_value sets "url" defaultURL) in
  let! limits := Client.Config client in
  let! ch := choose sets rest limits in
  let! passphrase := if ch_Passphrase ch then readNewPassphrase else ret "" in
  let! result := Send client (MkSend (ch_Text ch) (ch_FileName ch) (ch_File ch) "" passphrase (ch_TTL ch)
                                (string_value sets "share-url" "")) in
  if bool_value sets "json" then write_stdout (Encode (sent_json result))
  else
    do! print (sr_Link result +:+ String.String newline "") in
    do! notify (ExpiresNotice (sr_ExpiresAt result)) in
    if bool_decide (sr_Model result = "passphrase") then notify NeedsPassphrase else ret tt.

Definition salvage (result : OpenResult) (cause : err) : C unit :=
  do! notify (Cause cause) in
  do! if bool_decide (or_RescuedPath result <> "") then
        do! notify OnlyCopy in notify (RescuedTo (or_RescuedPath result))
      else if bool_decide (or_Kind result <> "file") then
        do! notify OnlyCopy in
        do! notify OnStdout in
        ignore (write_stdout (or_Plaintext result))
      else notify NotSaved in
  throw cause.

(** The deployment an open talks to. *)
Definition open_base (sets : list setting) (link : ShareLink) : string :=
  let url := string_value sets "url" "" in
  let base := if bool_decide (url = "") then sl_Origin link else url in
  if bool_decide (base = "") then defaultURL else base.

(** Printing or reporting what an open returned. *)
Definition deliver (result : OpenResult) : C unit :=
  if bool_decide (or_WrittenPath result <> "") then
    do! if or_FilenameUnreadable result then notify NameUnreadable else ret tt in
    notify (Saved (or_WrittenPath result))
  else
    do! write_stdout (or_Plaintext result) in
    if negb (HasSuffix_byte newline (or_Plaintext result)) && IsTerminal 1 then print (String.String newline "") else ret tt.

Definition open_options (sets : list setting) (link : ShareLink) : OpenOptions :=
  MkOpen link (Some readExistingPassphrase) (MkPaths (string_value sets "output" "") (string_value sets "output-dir" ".")).

Definition runOpen (args : list string) : C unit :=
  let! '(sets, rest) := lift (Parse_args open_flags (hoistFlags open_flags args)) in
  match rest with
  | [arg] =>
      let! link := lift (ParseShareLink arg) in
      let! '(result, e) := Open (NewClient (open_base sets link)) (open_options sets link) in
      match e with
      | None => deliver result
      | Some e => if bool_decide (e = ErrWriteAfterConsume) then salvage result e else throw e
      end
  | _ => throw (Fail "give exactly one share link or secret ID")
  end.

Definition run (args : list string) : C unit :=
  match args with
  | [] => do! notify Usage in throw (Fail "no command given")
  | cmd :: args =>
      if bool_decide (cmd = "send") then runSend args
      else if bool_decide (cmd = "open") then runOpen args
      else if bool_decide (cmd = "version") then print (clientVersion +:+ String.String newline "")
      else if bool_decide (cmd ∈ ["-h"; "--help"; "help"]) then print usage
      else do! notify Usage in throw (Fail "unknown command")
  end.

(** [main]: the exit status. *)
Definition main (args : list string) : C Z :=
  let! r := attempt (run args) in
  match r with
  | Ok _ => ret 0
  | Err e => if bool_decide (e = ErrHelp) then ret 2 else do! notify (Failed e) in ret 1
  end.
End cli.
