(* ===== verification/FilesProofs.v ===== *)
(** * What the client does to the files it finds

    A Hoare logic for the client's computations over its file system.  The
    assertion [holds mine data] says that the files that were there at the start
    are there unchanged, that the entries made since are [mine], and that [data]
    is in their inodes. *)

From S2P Require Import Prelude GoStrings Codec World Http RateLimit Config Url ClientCrypto Files.

(** ** Triples *)
Section triple.
Context {S : Type}.
Abbreviation C := (M (CliState S)).

Definition triple {A} (P : FS -> Prop) (m : C A) (Q : result A -> FS -> Prop) : Prop :=
  forall w r w', P (fs (db w)) -> m w = (r, w') -> Q r (fs (db w')).

Lemma triple_bind {A B} P (m : C A) (R : A -> FS -> Prop) (k : A -> C B) Q :
  triple P m (fun r x => match r with Ok a => R a x | Err e => Q (Err e) x end) ->
  (forall a, triple (R a) (k a) Q) -> triple P (bind m k) Q.
Proof.
  intros Hm Hk w r w' HP. unfold bind. destruct (m w) as [[a|e] w1] eqn:E.
  - intros Hr. eapply Hk; [|exact Hr]. exact (Hm _ _ _ HP E).
  - intros [= <- <-]. exact (Hm _ _ _ HP E).
Qed.

Lemma triple_conseq {A} (P P' : FS -> Prop) (m : C A) Q Q' :
  triple P m Q -> (forall x, P' x -> P x) -> (forall r x, Q r x -> Q' r x) -> triple P' m Q'.
Proof. intros H HP HQ w r w' Hw E. eapply HQ, H; eauto. Qed.

Lemma triple_ret {A} (a : A) (P : FS -> Prop) (Q : result A -> FS -> Prop) :
  (forall x, P x -> Q (Ok a) x) -> triple P (ret a) Q.
Proof. intros H w r w' Hw [= <- <-]. auto. Qed.
Lemma triple_throw {A} e (P : FS -> Prop) (Q : result A -> FS -> Prop) :
  (forall x, P x -> Q (Err e) x) -> triple P (throw e) Q.
Proof. intros H w r w' Hw [= <- <-]. auto. Qed.
Lemma triple_lift {A} (o : result A) (P : FS -> Prop) (Q : result A -> FS -> Prop) :
  (forall x, P x -> Q o x) -> triple P (lift o) Q.
Proof. intros H w r w' Hw [= <- <-]. auto. Qed.
Lemma triple_ask {A} (f : nat -> A) (P : FS -> Prop) (Q : result A -> FS -> Prop) :
  (forall t x, P x -> Q (Ok (f t)) x) -> triple P (ask f) Q.
Proof. intros H w r w' Hw [= <- <-]. destruct w. simpl in *. auto. Qed.
Lemma triple_attempt {A} P (m : C A) (Q : result (result A) -> FS -> Prop) :
  triple P m (fun r => Q (Ok r)) -> triple P (attempt m) Q.
Proof. intros H w r w' Hw. unfold attempt. destruct (m w) as [o w1] eqn:E. intros [= <- <-]. exact (H _ _ _ Hw E). Qed.
Lemma triple_fail_if (c : bool) (e : err) (P : FS -> Prop) (Q : result unit -> FS -> Prop) :
  (forall x, P x -> if c then Q (Err e) x else Q (Ok tt) x) -> triple P (fail_if c e) Q.
Proof. intros H w r w' Hw. specialize (H _ Hw). destruct c; intros [= <- <-]; done. Qed.

Lemma triple_ex {A T} (P : T -> FS -> Prop) (m : C A) Q :
  (forall t, triple (P t) m Q) -> triple (fun x => exists t, P t x) m Q.
Proof. intros H w r w' [t Ht] E. exact (H t _ _ _ Ht E). Qed.
Lemma triple_pure {A} (Pp : Prop) (P : FS -> Prop) (m : C A) Q :
  (Pp -> triple P m Q) -> triple (fun x => Pp /\ P x) m Q.
Proof. intros H w r w' [HPp HP] E. exact (H HPp _ _ _ HP E). Qed.

Lemma triple_os_call {OS : Os} {A} faults (f : FS -> result A * FS) (P : FS -> Prop) (Q : result A -> FS -> Prop) :
  (forall t e x, faults t = Some e -> P x -> Q (Err e) x) -> (forall x, P x -> Q (f x).1 (f x).2) -> triple P (os_call faults f) Q.
Proof.
  intros He Hf w r w' Hw. unfold os_call. destruct (faults (tick w)) as [e|] eqn:E.
  - intros [= <- <-]. destruct w. simpl in *. eauto.
  - specialize (Hf _ Hw). destruct (f (fs (db w))) as [o x]. intros [= <- <-]. done.
Qed.
End triple.

(** ** The assertion *)
Section holds.
Context (x0 : FS).

Record holds (mine : gmap string nat) (data : gmap nat string) (x : FS) : Prop := {
  h_entries : entries x = mine ∪ entries x0;
  h_mine : mine ##ₘ entries x0;
  h_next : (next_inode x0 <= next_inode x)%nat;
  h_range : forall e i, mine !! e = Some i -> (next_inode x0 <= i < next_inode x)%nat;
  h_old : forall i, (i < next_inode x0)%nat -> inodes x !! i = inodes x0 !! i;
  h_data : forall i c, data !! i = Some c -> inodes x !! i = Some c /\ (i < next_inode x)%nat;
}.

Lemma holds_start : holds ∅ ∅ x0.
Proof. split; [by rewrite map_empty_union|apply map_disjoint_empty_l|done..]. Qed.

Lemma holds_lookup mine data x e : holds mine data x -> entries x !! e = None -> mine !! e = None /\ entries x0 !! e = None.
Proof. intros H. rewrite (h_entries _ _ _ H), lookup_union_None. done. Qed.

Lemma holds_found mine data x e i : holds mine data x -> mine !! e = Some i -> entries x !! e = Some i.
Proof. intros H Hm. rewrite (h_entries _ _ _ H). by apply lookup_union_Some_l. Qed.

Lemma holds_add mine data x e i : holds mine data x -> entries x !! e = None -> (next_inode x0 <= i < next_inode x)%nat ->
  holds (<[e := i]> mine) data (MkFS (<[e := i]> (entries x)) (inodes x) (next_inode x)).
Proof.
  intros H He Hi. destruct (holds_lookup _ _ _ _ H He) as [Hm H0]. destruct H. split; simpl; try done.
  - rewrite h_entries0. by rewrite insert_union_l.
  - by apply map_disjoint_insert_l_2.
  - intros e' i'. rewrite lookup_insert_Some. intros [[_ <-]|[_ ?]]; eauto.
Qed.

Lemma holds_delete mine data x e : holds mine data x -> is_Some (mine !! e) ->
  holds (delete e mine) data (MkFS (delete e (entries x)) (inodes x) (next_inode x)).
Proof.
  intros H [i Hi]. assert (H0 : entries x0 !! e = None) by (eapply map_disjoint_Some_l; [apply H|exact Hi]).
  destruct H. split; simpl; try done.
  - rewrite h_entries0, delete_union. f_equal. by rewrite delete_id.
  - by apply map_disjoint_delete_l.
  - intros e' i'. rewrite lookup_delete_Some. intros [_ ?]. eauto.
Qed.

Lemma holds_forget mine data x (data' : gmap nat string) : holds mine data x -> data' ⊆ data -> holds mine data' x.
Proof. intros [] Hs. split; auto. intros i c Hc. apply h_data0. by eapply lookup_weaken. Qed.

(** *** The calls *)
Context {OS : Os} {S : Type}.
Abbreviation C := (M (CliState S)).
Implicit Types (mine : gmap string nat) (data : gmap nat string).

Lemma open_excl_spec mine data path :
  triple (holds mine data) (open_excl (S := S) path) (fun r x => match r with
    | Ok i => mine !! resolve path = None /\ data !! i = None /\ (next_inode x0 <= i)%nat /\
              (forall e, mine !! e <> Some i) /\ holds (<[resolve path := i]> mine) (<[i := ""]> data) x
    | Err _ => holds mine data x end).
Proof.
  apply triple_os_call; [done|]. intros x H. destruct (entries x !! resolve path) eqn:E; [done|]. cbn [fst snd].
  destruct (holds_lookup _ _ _ _ H E) as [Hm H0]. pose proof H as [He Hd Hn Hr Ho Hda].
  assert (Hfresh : data !! next_inode x = None).
  { destruct (data !! next_inode x) eqn:Ed; [|done]. apply Hda in Ed. lia. }
  split; [done|]. split; [done|]. split; [done|]. split; [intros e Hx; apply Hr in Hx; lia|].
  assert (H1 : holds mine (<[next_inode x := ""]> data)
    (MkFS (entries x) (<[next_inode x := ""]> (inodes x)) (Datatypes.S (next_inode x)))).
  { split; simpl; try done; try lia.
    - intros e i Hi. apply Hr in Hi. lia.
    - intros i Hi. rewrite lookup_insert_ne by lia. auto.
    - intros i c. rewrite !lookup_insert_Some. intros [[<- <-]|[? Hc]]; [split; [by left|lia]|].
      apply Hda in Hc as [? ?]. split; [by right|lia]. }
  exact (holds_add _ _ _ (resolve path) (next_inode x) H1 E ltac:(simpl; lia)).
Qed.

Lemma create_temp_spec mine data tries dir prefix suffix :
  triple (holds mine data) (create_temp (S := S) tries dir prefix suffix) (fun r x => match r with
    | Ok (i, path) => mine !! resolve path = None /\ data !! i = None /\ (next_inode x0 <= i)%nat /\
              (forall e, mine !! e <> Some i) /\ holds (<[resolve path := i]> mine) (<[i := ""]> data) x
    | Err _ => holds mine data x end).
Proof.
  induction tries as [|tries IH]; cbn [create_temp]; (apply triple_bind with (R := fun _ => holds mine data);
    [by apply triple_ask|]; intros part;
    eapply triple_bind; [apply triple_attempt, open_excl_spec|]; intros [i|e]; cbn beta match;
    [apply triple_ret; done|]).
  - apply triple_throw. done.
  - case_bool_decide; [apply IH|by apply triple_throw].
Qed.

Lemma CreateTemp_spec mine data dir prefix suffix :
  triple (holds mine data) (CreateTemp (S := S) dir prefix suffix) (fun r x => match r with
    | Ok (i, path) => mine !! resolve path = None /\ data !! i = None /\ (next_inode x0 <= i)%nat /\
              (forall e, mine !! e <> Some i) /\ holds (<[resolve path := i]> mine) (<[i := ""]> data) x
    | Err _ => holds mine data x end).
Proof. apply create_temp_spec. Qed.

Lemma holds_write mine data x i c d : holds mine data x -> data !! i = Some c -> (next_inode x0 <= i)%nat ->
  holds mine (<[i := c +:+ d]> data) (MkFS (entries x) (alter (fun c => c +:+ d) i (inodes x)) (next_inode x)).
Proof.
  intros [He Hd Hn Hr Ho Hda] Hc Hi. split; simpl; try done.
  - intros j Hj. rewrite lookup_alter_ne by lia. auto.
  - intros j c'. rewrite lookup_insert_Some. intros [[<- <-]|[? Hc']].
    + apply Hda in Hc as [Hc ?]. by rewrite lookup_alter_eq, Hc.
    + rewrite lookup_alter_ne by done. auto.
Qed.

Lemma write_file_spec mine data i c d : data !! i = Some c -> (next_inode x0 <= i)%nat ->
  triple (holds mine data) (write_file (S := S) i d) (fun r x => match r with
    | Ok _ => holds mine (<[i := c +:+ d]> data) x
    | Err _ => exists c', holds mine (<[i := c']> data) x end).
Proof.
  intros Hc Hi w r w' H. unfold write_file. destruct (os_fault (tick w)); intros [= <- <-]; simpl.
  - eexists. eapply holds_write; eauto.
  - eapply holds_write; eauto.
Qed.

Lemma noop_spec mine data : triple (holds mine data) (os_call (S := S) os_fault (fun x => (Ok tt, x))) (fun _ => holds mine data).
Proof. by apply triple_os_call. Qed.

Lemma remove_spec mine data path : is_Some (mine !! resolve path) ->
  triple (holds mine data) (remove_file (S := S) path) (fun r x => match r with
    | Ok _ => holds (delete (resolve path) mine) data x
    | Err _ => holds mine data x /\ exists t e, remove_fault t = Some e end).
Proof.
  intros [i Hi]. apply triple_os_call; [eauto|]. intros x H. rewrite (holds_found _ _ _ _ _ H Hi). simpl. by apply holds_delete.
Qed.

Lemma rename_spec mine data from to i j : mine !! resolve from = Some i -> mine !! resolve to = Some j -> i <> j ->
  triple (holds mine data) (rename_file (S := S) from to) (fun r x => match r with
    | Ok _ => holds (<[resolve to := i]> (delete (resolve from) mine)) data x
    | Err _ => holds mine data x end).
Proof.
  intros Hi Hj Hij. apply triple_os_call; [done|]. intros x H.
  rewrite (holds_found _ _ _ _ _ H Hi). rewrite bool_decide_false by (rewrite (holds_found _ _ _ _ _ H Hj); congruence). simpl.
  assert (Hne : resolve from <> resolve to) by congruence.
  pose proof (holds_delete _ _ _ (resolve from) H (mk_is_Some _ _ Hi)) as H1.
  pose proof (holds_delete _ _ _ (resolve to) H1) as H2. simpl in H2. rewrite lookup_delete_ne in H2 by done.
  specialize (H2 (mk_is_Some _ _ Hj)).
  pose proof (holds_add _ _ _ (resolve to) i H2 (lookup_delete_eq _ _) (h_range _ _ _ H _ _ Hi)) as H3. simpl in H3.
  by rewrite !insert_delete_eq in H3.
Qed.

Lemma link_spec mine data from to i : mine !! resolve from = Some i ->
  triple (holds mine data) (link_file (S := S) from to) (fun r x => match r with
    | Ok _ => mine !! resolve to = None /\ holds (<[resolve to := i]> mine) data x
    | Err _ => holds mine data x end).
Proof.
  intros Hi. apply triple_os_call; [done|]. intros x H. rewrite (holds_found _ _ _ _ _ H Hi).
  destruct (entries x !! resolve to) eqn:E; [done|]. simpl. split; [by eapply holds_lookup|].
  apply holds_add; [done|done|]. by apply (h_range _ _ _ H _ _ Hi).
Qed.

Lemma read_file_spec mine data path i c : mine !! resolve path = Some i -> data !! i = Some c ->
  triple (holds mine data) (read_file (S := S) path) (fun r x => match r with
    | Ok v => v = c /\ holds mine data x
    | Err _ => holds mine data x end).
Proof.
  intros Hi Hc. apply triple_os_call; [done|]. intros x H. rewrite (holds_found _ _ _ _ _ H Hi). simpl.
  destruct (h_data _ _ _ H _ _ Hc) as [-> _]. done.
Qed.

Lemma ignore_spec {A} (P : FS -> Prop) (m : C A) (Q : FS -> Prop) :
  triple P m (fun _ => Q) -> triple P (ignore m) (fun r x => r = Ok tt /\ Q x).
Proof. intros H. eapply triple_bind; [apply triple_attempt, H|]. intros r. by apply triple_ret. Qed.

Lemma ignore_seq {A B} (P Q : FS -> Prop) (m : C A) (k : C B) (R : result B -> FS -> Prop) :
  triple P m (fun _ => Q) -> triple Q k R -> triple P (do! ignore m in k) R.
Proof.
  intros Hm Hk. eapply triple_bind with (R := fun _ => Q); [|by intros _].
  eapply triple_conseq; [by apply ignore_spec|done|]. by intros r x [-> H].
Qed.
End holds.
