(* ===== verification/CliProofs.v ===== *)
(** * Opening is safe for the recipient's files

    Whatever fails, [Open] never changes a file that was there; what it saves is
    the whole plaintext age authenticated; and when it saves nothing it leaves
    nothing behind. *)

From S2P Require Import Prelude GoStrings Codec World ObjectStorage AgeFormat Http RateLimit Config Url ClientCrypto ShareLink Files FilesProofs Client CliOpen.

(** ** Placing a staged file *)
Section place.
Context {OS : Os} {S : Type} (x0 : FS).
Abbreviation C := (M (CliState S)).
Abbreviation holds := (holds x0).
Implicit Types (mine : gmap string nat) (data : gmap nat string).

(** The path holds the bytes, among the entries made since the start. *)
Definition saved (path content : string) (x : FS) : Prop :=
  exists mine data i, mine !! resolve path = Some i /\ data !! i = Some content /\ holds mine data x.

Lemma noop_close mine data : triple (holds mine data) (close_file (S := S)) (fun _ => holds mine data).
Proof. apply noop_spec. Qed.

Lemma copyExclusive_spec mine data src dst i c : mine !! resolve src = Some i -> data !! i = Some c ->
  triple (holds mine data) (copyExclusive (S := S) src dst) (fun r x =>
    match r with
    | Ok _ => exists j, mine !! resolve dst = None /\ holds (<[resolve dst := j]> mine) (<[j := c]> data) x
    | Err _ => exists mine' data', mine ⊆ mine' /\ data ⊆ data' /\ holds mine' data' x
    end).
Proof.
  intros Hi Hc. unfold copyExclusive.
  eapply triple_bind.
  { eapply triple_conseq; [by eapply read_file_spec|done|]. intros [v|e] x H; [exact H|]. exists mine, data. done. }
  intros v. apply triple_pure. intros ->.
  eapply triple_bind with (R := fun j x => (mine !! resolve dst = None /\ data !! j = None /\ (next_inode x0 <= j)%nat) /\
    holds (<[resolve dst := j]> mine) (<[j := ""]> data) x).
  { eapply triple_conseq; [apply open_excl_spec|done|]. intros [j|e] x H; [tauto|]. exists mine, data. done. }
  intros j. apply triple_pure. intros (Hn & Hj & Hge).
  assert (Hext : forall (d : string) (x : FS), holds (<[resolve dst := j]> mine) (<[j := d]> data) x ->
    exists mine' data', mine ⊆ mine' /\ data ⊆ data' /\ holds mine' data' x).
  { intros d x H. eexists _, _. split; [by apply insert_subseteq|]. split; [by apply insert_subseteq|exact H]. }
  assert (Hundo : forall d e, triple (holds (<[resolve dst := j]> mine) (<[j := d]> data))
    (do! ignore (S := S) close_file in do! ignore (remove_file dst) in throw (A := unit) e)
    (fun r x => match r with Ok _ => False | Err _ => exists mine' data', mine ⊆ mine' /\ data ⊆ data' /\ holds mine' data' x end)).
  { intros d e. eapply ignore_seq; [apply noop_close|].
    eapply ignore_seq with (Q := fun x => exists mine' data', mine ⊆ mine' /\ data ⊆ data' /\ holds mine' data' x); [|by apply triple_throw].
    eapply triple_conseq; [apply remove_spec; by rewrite lookup_insert_eq|done|].
    intros [u|e'] x H; [|destruct H as [H _]; by eapply Hext].
    exists mine, (<[j := d]> data). split; [done|]. split; [by apply insert_subseteq|]. by rewrite delete_insert_id in H. }
  eapply triple_bind; [apply triple_attempt; eapply write_file_spec; [apply lookup_insert_eq|done]|].
  intros [u|e]; cbn beta match.
  - rewrite insert_insert_eq. change ("" +:+ c) with c.
    eapply triple_bind; [apply triple_attempt, noop_spec|]. intros [u'|e]; cbn beta match.
    + eapply triple_conseq; [apply noop_close|done|]. intros [[]|e] x H; [eauto|by eapply Hext].
    + eapply triple_conseq; [apply Hundo|done|]. intros [[]|e'] x H; [done|exact H].
  - apply triple_ex. intros c'. rewrite insert_insert_eq. eapply triple_conseq; [apply Hundo|done|]. intros [[]|e'] x H; [done|exact H].
Qed.

Lemma saved_after_remove mine data staged path i j c :
  mine !! resolve staged = Some i -> mine !! resolve path = Some j -> data !! j = Some c -> resolve staged <> resolve path ->
  triple (holds mine data) (remove_file (S := S) staged) (fun _ => saved path c).
Proof.
  intros Hi Hj Hc Hne. eapply triple_conseq; [apply remove_spec; by eexists|done|].
  intros [u|e] x H.
  - exists (delete (resolve staged) mine), data, j. by rewrite lookup_delete_ne.
  - destruct H as [H _]. by exists mine, data, j.
Qed.

Lemma place_from_spec attempts : forall n target staged c,
  triple (saved staged c) (place_from (S := S) attempts n target staged) (fun r => match r with
    | Ok (path, _) => saved path c
    | Err _ => saved staged c end).
Proof.
  induction attempts as [|attempts IH]; intros n target staged c; cbn [place_from]; [by apply triple_throw|].
  set (candidate := if (0 <? n)%nat then _ else _).
  unfold saved at 1. apply triple_ex. intros mine. apply triple_ex. intros data. apply triple_ex. intros i.
  eapply (triple_conseq (fun x => (mine !! resolve staged = Some i /\ data !! i = Some c) /\ holds mine data x)); [|tauto|intros ? x H; exact H].
  apply triple_pure. intros [Hi Hc].
  assert (Hkeep : forall mine' data' (x : FS), mine ⊆ mine' -> data ⊆ data' -> holds mine' data' x -> saved staged c x).
  { intros m' d' x Hm Hd H. exists m', d', i. split_and!; [by eapply lookup_weaken|by eapply lookup_weaken|done]. }
  (* a copy made under the candidate's name, the staged one still there *)
  set (Linked := fun (x : FS) => exists mine' data' j, mine' !! resolve staged = Some i /\ mine' !! resolve candidate = Some j /\
    data' !! j = Some c /\ resolve staged <> resolve candidate /\ holds mine' data' x).
  eapply triple_bind with (R := fun r x => match r with Ok _ => Linked x | Err _ => holds mine data x end).
  { apply triple_attempt. eapply triple_conseq; [by apply link_spec|done|]. intros [u|e] x H; [|done].
    destruct H as [Hn H]. exists (<[resolve candidate := i]> mine), data, i.
    assert (resolve staged <> resolve candidate) by congruence.
    rewrite lookup_insert_ne, lookup_insert_eq by done. done. }
  intros r. eapply triple_bind with (R := fun r x => match r with Ok _ => Linked x | Err _ => saved staged c x end).
  { destruct r as [u|e]; [by apply triple_ret|]. case_bool_decide as Heq.
    - apply triple_ret. intros x H. eapply Hkeep; done.
    - apply triple_attempt. eapply triple_conseq; [by eapply copyExclusive_spec|done|]. intros [u|e'] x H.
      + destruct H as (j & Hn & H). exists (<[resolve candidate := j]> mine), (<[j := c]> data), j.
        assert (resolve staged <> resolve candidate) by congruence.
        rewrite lookup_insert_ne by done. by rewrite !lookup_insert_eq.
      + destruct H as (m' & d' & Hm & Hd & H). by eapply Hkeep. }
  intros [u|e].
  - unfold Linked. apply triple_ex. intros m'. apply triple_ex. intros d'. apply triple_ex. intros j.
    eapply (triple_conseq (fun x => (m' !! resolve staged = Some i /\ m' !! resolve candidate = Some j /\ d' !! j = Some c /\ resolve staged <> resolve candidate) /\ holds m' d' x)); [|tauto|intros ? x H; exact H].
    apply triple_pure. intros (H1 & H2 & H3 & H4).
    eapply triple_bind with (R := fun _ x => saved candidate c x).
    + by eapply triple_attempt, saved_after_remove.
    + intros [u'|e]; by apply triple_ret.
  - case_bool_decide; [apply IH|by apply triple_throw].
Qed.
End place.

(** ** Paths are not empty *)
Lemma clean_elems_ne rooted elems : forall kept, Forall (fun e => e <> "") kept -> Forall (fun e => e <> "") (clean_elems rooted kept elems).
Proof.
  induction elems as [|e elems IH]; intros kept Hk; simpl; [by apply Forall_reverse|].
  destruct (bool_decide_reflect (e = "")) as [|Hne]; [by apply IH|]. simpl. case_bool_decide; [by apply IH|].
  case_bool_decide; [|apply IH; by constructor].
  destruct kept as [|k kept]; [apply IH; destruct rooted; by repeat constructor|].
  case_bool_decide; apply IH; [by constructor|]. by inversion Hk.
Qed.

Lemma append_ne (s t : string) : s <> "" -> s +:+ t <> "".
Proof. by destruct s. Qed.
Lemma append_ne_r (s t : string) : t <> "" -> s +:+ t <> "".
Proof. by destruct s. Qed.

Lemma Clean_ne path : Clean path <> "".
Proof.
  unfold Clean, render, elements. destruct (is_rooted path); [done|].
  pose proof (clean_elems_ne false (split_on slash path) [] (Forall_nil_2 _)) as H.
  destruct (clean_elems false [] (split_on slash path)) as [|e [|e' l]]; [done|by inversion H|].
  inversion H. subst. by apply append_ne.
Qed.

Lemma safeFilename_ne name : safeFilename name <> "".
Proof. unfold safeFilename. destruct (_ || _) eqn:E; [done|]. by destruct_bools. Qed.

Lemma Join_ne a b : b <> "" -> Join a b <> "".
Proof. intros Hb. unfold Join. case_bool_decide; case_bool_decide; try done; apply Clean_ne. Qed.

Lemma numberedPath_ne path n : numberedPath path n <> "".
Proof. unfold numberedPath. apply append_ne_r. done. Qed.

Section names.
Context {OS : Os} {S : Type}.

Lemma place_from_name attempts : forall n target staged w path e w', target <> "" ->
  place_from (S := S) attempts n target staged w = (Ok (path, e), w') -> path <> "".
Proof.
  induction attempts as [|attempts IH]; intros n target staged w path e w' Ht; cbn [place_from]; [done|].
  intros (r & w1 & _ & (r2 & w2 & _ & H)%bind_ok)%bind_ok. destruct r2 as [u|e2].
  - apply bind_ok in H as (r3 & w3 & _ & H).
    assert (Hc : (if (0 <? n)%nat then numberedPath target n else target) <> "") by (destruct (0 <? n)%nat; [apply numberedPath_ne|done]).
    by destruct r3; apply ret_ok in H as [[= -> _] _].
  - case_bool_decide; [by eapply IH|done].
Qed.

Lemma place_name d opts filename staged w path e w' : (d_file d <> None -> d_path d <> "") ->
  place (S := S) d opts filename staged w = (Ok (path, e), w') -> path <> "".
Proof.
  intros Hd. unfold place. intros (u & w1 & _ & H)%bind_ok. destruct (d_file d).
  - apply bind_ok in H as (? & ? & _ & H). apply bind_ok in H as (? & ? & _ & H). apply ret_ok in H as [[= -> _] _]. by apply Hd.
  - eapply place_from_name; [|exact H]. apply Join_ne, safeFilename_ne.
Qed.

Lemma create_temp_name tries dir prefix suffix : forall w i path w', prefix <> "" ->
  create_temp (S := S) tries dir prefix suffix w = (Ok (i, path), w') -> path <> "".
Proof.
  induction tries as [|tries IH]; intros w i path w' Hp; cbn [create_temp]; intros (part & w1 & _ & (r & w2 & _ & H)%bind_ok)%bind_ok.
  - destruct r as [j|e]; [|done]. apply ret_ok in H as [[= -> ->] _].
    destruct (HasSuffix_byte slash dir); apply append_ne; by repeat apply append_ne_r.
  - destruct r as [j|e].
    + apply ret_ok in H as [[= -> ->] _]. destruct (HasSuffix_byte slash dir); apply append_ne; by repeat apply append_ne_r.
    + case_bool_decide; [by eapply IH|done].
Qed.
End names.

(** ** [Open] *)
Section open.
Context {ENV : Env} {AGE : Age} {OS : Os} {S : Type} {NET : Network S} {CC : ClientCodec} (x0 : FS).
Abbreviation C := (M (CliState S)).
Abbreviation holds := (holds x0).

(** Nothing of the client's is left, if removals succeed. *)
Definition gone (x : FS) : Prop :=
  (exists mine data, holds mine data x) /\ ((forall t, remove_fault t = None) -> holds ∅ ∅ x).
Definition kept (x : FS) : Prop := exists mine data, holds mine data x.

Lemma gone_clean x : holds ∅ ∅ x -> gone x.
Proof. intros H. split; eauto. Qed.
Lemma gone_kept x : gone x -> kept x.
Proof. intros [H _]. exact H. Qed.
Lemma saved_kept path c x : saved x0 path c x -> kept x.
Proof. intros (m & d & i & _ & _ & H). by exists m, d. Qed.

(** What a destination has reserved. *)
Definition dest_state (opts : OpenPaths) (d : destination) (x : FS) : Prop :=
  match d_file d with
  | Some j => (d_path d = op_OutputPath opts /\ op_OutputPath opts <> "" /\ (next_inode x0 <= j)%nat) /\
              holds {[resolve (d_path d) := j]} {[j := ""]} x
  | None => op_OutputPath opts = "" /\ holds ∅ ∅ x
  end.

(** Removing the only entry. *)
Lemma remove_only path j data :
  triple (holds {[resolve path := j]} data) (remove_file (S := S) path) (fun r x => gone x /\
    match r with Ok _ => holds ∅ ∅ x | Err _ => True end).
Proof.
  eapply triple_conseq; [apply remove_spec; by rewrite lookup_singleton_eq|done|]. intros [u|e] x H.
  - rewrite delete_singleton_eq in H.
    assert (H' : holds ∅ ∅ x) by (eapply holds_forget; [exact H|apply map_empty_subseteq]). by split; [apply gone_clean|].
  - destruct H as (H & t & e' & Ht). split; [|done]. split; [eauto|]. intros Hn. by rewrite Hn in Ht.
Qed.

Lemma checkWritableDir_spec dir :
  triple (holds ∅ ∅) (checkWritableDir (S := S) dir) (fun r x => match r with Ok _ => holds ∅ ∅ x | Err _ => gone x end).
Proof.
  unfold checkWritableDir. destruct (stat_dir _) as [[]|]; [|apply triple_throw; apply gone_clean..].
  eapply triple_bind with (R := fun p => holds {[resolve p.2 := p.1]} {[p.1 := ""]}).
  { eapply triple_conseq; [apply CreateTemp_spec|done|]. intros [[i path]|e] x H; [|by apply gone_clean].
    destruct H as (_ & _ & _ & _ & H). exact H. }
  intros [i path]. eapply ignore_seq; [apply noop_close|]. eapply triple_conseq; [apply remove_only|done|].
  intros [u|e] x [Hg H]; done.
Qed.

Lemma reserve_spec opts kind :
  triple (holds ∅ ∅) (reserveDestination (S := S) opts kind) (fun r x => match r with Ok d => dest_state opts d x | Err _ => gone x end).
Proof.
  unfold reserveDestination. case_bool_decide as Ho.
  - eapply triple_bind with (R := fun j x => (next_inode x0 <= j)%nat /\ holds {[resolve (op_OutputPath opts) := j]} {[j := ""]} x).
    { eapply triple_conseq; [apply open_excl_spec|done|]. intros [j|e] x H; [|by apply gone_clean].
      destruct H as (_ & _ & Hge & _ & H). done. }
    intros j. apply triple_ret. intros x [Hge H]. unfold dest_state. simpl. done.
  - case_bool_decide; [apply triple_ret; by unfold dest_state|].
    eapply triple_bind with (R := fun _ => holds ∅ ∅); [apply checkWritableDir_spec|]. intros _. apply triple_ret. by unfold dest_state.
Qed.

Lemma discard_spec opts d : triple (dest_state opts d) (discard (S := S) d) (fun r x => gone x).
Proof.
  unfold discard, dest_state. destruct (d_file d) as [j|].
  - apply triple_pure. intros _. eapply ignore_seq; [apply noop_close|]. eapply ignore_seq with (Q := gone); [|by apply triple_ret].
    eapply triple_conseq; [apply remove_only|done|]. by intros r x [H _].
  - apply triple_ret. intros x [_ H]. by apply gone_clean.
Qed.

Lemma discard_then {A} opts d e : triple (dest_state opts d) (do! discard (S := S) d in throw (A := A) e)
  (fun r x => match r with Ok _ => False | Err _ => gone x end).
Proof.
  eapply triple_bind with (R := fun _ => gone); [|intros _; by apply triple_throw].
  eapply triple_conseq; [apply discard_spec|done|]. by intros [] x H.
Qed.

(** What a result says about the files. *)
Definition result_ok (opts : OpenPaths) (id : HybridIdentity) (opened : OpenedSecret) (r : result (OpenResult * option err)) (x : FS) : Prop :=
  match r with
  | Err _ => gone x
  | Ok (res, e) =>
      or_Kind res = os_Kind opened /\ kept x /\
      (os_Kind opened <> "file" -> unsealReader id (os_Body opened) = Ok (or_Plaintext res)) /\
      (forall path, path = or_WrittenPath res \/ path = or_RescuedPath res -> path <> "" ->
        exists p, unsealReader id (os_Body opened) = Ok p /\ saved x0 path p x) /\
      (os_Kind opened = "file" -> or_WrittenPath res = "" -> or_RescuedPath res = "" -> e <> None /\ gone x) /\
      (os_Kind opened <> "file" -> or_WrittenPath res = "" ->
        if decide (op_OutputPath opts = "") then e = None /\ holds ∅ ∅ x
        else e = Some ErrWriteAfterConsume /\ exists j c, holds {[resolve (op_OutputPath opts) := j]} {[j := c]} x)
  end.

Lemma openText_spec opts d id opened : os_Kind opened <> "file" ->
  triple (dest_state opts d) (openText (S := S) opts d id opened) (result_ok opts id opened).
Proof.
  intros Hk. unfold openText. destruct (unsealReader id (os_Body opened)) as [p|e] eqn:E.
  2:{ eapply triple_conseq; [apply discard_then|done|]. by intros [] x H. }
  case_bool_decide as Ho.
  - apply triple_ret. intros x H.
    assert (H0 : holds ∅ ∅ x).
    { unfold dest_state in H. destruct (d_file d); destruct H as [Hd H]; [|exact H]. by destruct Hd as (_ & Hd & _). }
    simpl. split_and!; [done|by eexists _, _|done|by intros path [-> | ->]|done|]. by rewrite decide_True.
  - unfold writeText, dest_state. destruct (d_file d) as [j|].
    2:{ apply triple_pure. congruence. }
    apply triple_pure. intros (Hp & Hne & Hge).
    eapply triple_bind with (R := fun r x => match r with
      | Ok _ => holds {[resolve (d_path d) := j]} {[j := p]} x | Err _ => exists c, holds {[resolve (d_path d) := j]} {[j := c]} x end).
    + apply triple_attempt. eapply triple_bind with (R := fun _ => holds {[resolve (d_path d) := j]} {[j := p]}).
      * eapply triple_conseq; [apply (write_file_spec x0 {[resolve (d_path d) := j]} {[j := ""]} j "" p); [apply lookup_singleton_eq|done]|done|].
        intros [u|e] x H; rewrite ?insert_singleton_eq in H; [exact H|]. destruct H as [c' H]. rewrite insert_singleton_eq in H. eauto.
      * intros _. eapply triple_conseq; [apply noop_spec|done|]. intros [u|e] x H; eauto.
    + intros [u|e]; apply triple_ret; intros x H; simpl.
      * split_and!; [done|by eexists _, _|done| |done|done]. intros path [-> | ->] Hx; [|done]. exists p. split; [done|].
        rewrite <-Hp. exists {[resolve (d_path d) := j]}, {[j := p]}, j. by rewrite !lookup_singleton_eq.
      * destruct H as [c H]. split_and!; [done|by eexists _, _|done|by intros path [-> | ->]|done|].
        intros _ _. rewrite decide_False by done. rewrite <- Hp. eauto.
Qed.

(** *** A file secret *)

(** The destination and the staged file beside it. *)
Definition staged_state (opts : OpenPaths) (d : destination) (i : nat) (name : string) (c : string) (x : FS) : Prop :=
  match d_file d with
  | Some j => (d_path d = op_OutputPath opts /\ op_OutputPath opts <> "" /\ i <> j /\ resolve name <> resolve (d_path d)) /\
              holds (<[resolve name := i]> {[resolve (d_path d) := j]}) (<[i := c]> {[j := ""]}) x
  | None => op_OutputPath opts = "" /\ holds {[resolve name := i]} {[i := c]} x
  end.

Lemma stage_spec opts d :
  triple (dest_state opts d) (stage (S := S) d opts) (fun r x => match r with
    | Ok (i, name) => staged_state opts d i name "" x /\ (next_inode x0 <= i)%nat
    | Err _ => dest_state opts d x end).
Proof.
  unfold stage, dest_state, staged_state. destruct (d_file d) as [j|].
  - apply triple_pure. intros (Hp & Hne & Hge). eapply triple_conseq; [apply CreateTemp_spec|done|].
    intros [[i name]|e] x H; [|done]. destruct H as (Hn & Hi & Hge' & Hf & H). split; [|done]. split; [|done].
    split_and!; [done|done| |].
    + intros ->. apply (Hf (resolve (d_path d))). apply lookup_singleton_eq.
    + intros E. rewrite E, lookup_singleton_eq in Hn. done.
  - apply triple_pure. intros Ho. eapply triple_conseq; [apply CreateTemp_spec|done|].
    intros [[i name]|e] x H; [|done]. destruct H as (_ & _ & Hge & _ & H). done.
Qed.

Lemma staged_write opts d i name c data : (next_inode x0 <= i)%nat ->
  triple (staged_state opts d i name c) (write_file (S := S) i data) (fun r x => match r with
    | Ok _ => staged_state opts d i name (c +:+ data) x
    | Err _ => exists c', staged_state opts d i name c' x end).
Proof.
  intros Hge. unfold staged_state. destruct (d_file d) as [j|]; apply triple_pure; intros Hp.
  - eapply triple_conseq; [eapply (write_file_spec x0 _ (<[i := c]> {[j := ""]}) i c); [apply lookup_insert_eq|done]|done|].
    intros [u|e] x H; rewrite ?insert_insert_eq in H; [done|]. destruct H as [c' H]. rewrite insert_insert_eq in H. eauto.
  - eapply triple_conseq; [eapply (write_file_spec x0 _ {[i := c]} i c); [apply lookup_singleton_eq|done]|done|].
    intros [u|e] x H; rewrite ?insert_singleton_eq in H; [done|]. destruct H as [c' H]. rewrite insert_singleton_eq in H. eauto.
Qed.

Lemma staged_noop opts d i name c :
  triple (staged_state opts d i name c) (os_call (S := S) os_fault (fun x => (Ok tt, x))) (fun _ => staged_state opts d i name c).
Proof. by apply triple_os_call. Qed.

Lemma decryptInto_spec opts d i name id body : (next_inode x0 <= i)%nat ->
  triple (staged_state opts d i name "") (decryptInto (S := S) i id body) (fun r x => match r with
    | Ok None => exists p, unsealReader id body = Ok p /\ staged_state opts d i name p x
    | Ok (Some _) => exists c, staged_state opts d i name c x
    | Err _ => False end).
Proof.
  intros Hge. unfold decryptInto. assert (Eu : unsealReader id body = match DecryptWith body id with
    Ok r => match failure r with None => Ok (released r) | Some e => Err e end | Err e => Err e end) by done.
  destruct (DecryptWith body id) as [r|e]; [|apply triple_ret; eauto].
  eapply triple_bind; [apply triple_attempt, staged_write, Hge|]. intros [u|e]; cbn beta match.
  2:{ apply triple_ex. intros c. apply triple_ret. eauto. }
  change ("" +:+ released r) with (released r). destruct (failure r) as [e|]; [apply triple_ret; eauto|].
  eapply triple_bind; [apply triple_attempt, staged_noop|]. intros [u'|e]; apply triple_ret; intros x H; eauto.
Qed.

Lemma gone_fault (x : FS) : kept x -> (exists t e, remove_fault t = Some e) -> gone x.
Proof. intros H (t & e & Ht). split; [exact H|]. intros Hn. by rewrite Hn in Ht. Qed.

Lemma triple_or {A} (P P' : FS -> Prop) (m : C A) Q : triple P m Q -> triple P' m Q -> triple (fun x => P x \/ P' x) m Q.
Proof. intros H H' w r w' [Hw|Hw] E; [exact (H _ _ _ Hw E)|exact (H' _ _ _ Hw E)]. Qed.

(** Removing the staged file and dropping the reservation. *)
Lemma cleanup_spec {A} opts d i name c (k : C A) R : triple gone k R ->
  triple (staged_state opts d i name c)
    (do! ignore (S := S) close_file in do! ignore (remove_file name) in do! discard d in k) R.
Proof.
  intros Hk. unfold staged_state, discard. destruct (d_file d) as [j|]; apply triple_pure; intros Hp; (eapply ignore_seq; [apply noop_close|]).
  - destruct Hp as (_ & _ & Hij & Hne). set (mine := {[resolve (d_path d) := j]} : gmap string nat).
    set (data := <[i := c]> {[j := ""]} : gmap nat string).
    eapply ignore_seq with (Q := fun x => holds mine data x \/
      ((exists t e, remove_fault t = Some e) /\ holds (<[resolve name := i]> mine) data x)).
    { eapply triple_conseq; [apply remove_spec; by rewrite lookup_insert_eq|done|]. intros [u|e] x H.
      - left. rewrite delete_insert_id in H; [done|]. by apply lookup_singleton_ne.
      - right. tauto. }
    eapply triple_bind with (R := fun _ => gone); [|by intros _].
    apply triple_or; [|apply triple_pure; intros Hf]; (eapply ignore_seq; [apply noop_close|]; eapply ignore_seq with (Q := gone); [|by apply triple_ret]).
    + eapply triple_conseq; [apply remove_only|done|]. by intros r x [H _].
    + eapply triple_conseq; [apply remove_spec; rewrite lookup_insert_ne by done; by rewrite lookup_singleton_eq|done|].
      intros [u|e] x H; apply gone_fault; try done; [by eexists _, _|]. destruct H as [H _]. by eexists _, _.
  - eapply ignore_seq with (Q := gone).
    + eapply triple_conseq; [apply remove_only|done|]. by intros r x [H _].
    + eapply triple_bind with (R := fun _ => gone); [by apply triple_ret|by intros _].
Qed.

Lemma place_spec opts d i name filename c :
  triple (staged_state opts d i name c) (place (S := S) d opts filename name) (fun r => match r with
    | Ok (path, _) => saved x0 path c
    | Err _ => saved x0 name c end).
Proof.
  assert (Hst : forall x, staged_state opts d i name c x -> saved x0 name c x).
  { intros x. unfold staged_state. destruct (d_file d) as [j|]; intros [_ H]; eexists _, _, i; (split; [|split; [|exact H]]);
      (apply lookup_insert_eq || apply lookup_singleton_eq). }
  unfold place. eapply triple_bind with (R := fun _ => staged_state opts d i name c).
  { eapply triple_conseq; [apply staged_noop|done|]. intros [u|e] x H; auto. }
  intros _. unfold staged_state. destruct (d_file d) as [j|]; apply triple_pure; intros Hp.
  - destruct Hp as (_ & _ & Hij & Hne). eapply ignore_seq; [apply noop_close|].
    set (mine := <[resolve name := i]> {[resolve (d_path d) := j]} : gmap string nat).
    assert (Hi : mine !! resolve name = Some i) by apply lookup_insert_eq.
    assert (Hj : mine !! resolve (d_path d) = Some j) by (unfold mine; rewrite lookup_insert_ne by done; apply lookup_singleton_eq).
    eapply triple_bind with (R := fun _ => saved x0 (d_path d) c); [|intros _; by apply triple_ret].
    eapply triple_conseq; [by apply (rename_spec x0 mine (<[i := c]> {[j := ""]}) name (d_path d) i j)|done|]. intros [u|e] x H.
    + eexists _, _, i. split; [apply lookup_insert_eq|]. split; [apply lookup_insert_eq|exact H].
    + exists mine, (<[i := c]> {[j := ""]}), i. split; [done|]. split; [apply lookup_insert_eq|exact H].
  - eapply triple_conseq; [apply place_from_spec| |intros ? x H; exact H]. intros x H. eexists _, _, i.
    split; [apply lookup_singleton_eq|]. split; [apply lookup_singleton_eq|exact H].
Qed.

(** A postcondition and a fact about every run. *)
Lemma triple_and {A} P (m : C A) (Q Q' : result A -> FS -> Prop) (F : result A -> Prop) :
  triple P m Q -> (forall w r w', m w = (r, w') -> F r) -> (forall r x, Q r x -> F r -> Q' r x) -> triple P m Q'.
Proof. intros H HF HQ w r w' Hw E. apply HQ; [exact (H _ _ _ Hw E)|by eapply HF]. Qed.

Lemma openFile_spec opts d id opened : os_Kind opened = "file" ->
  triple (dest_state opts d) (openFile (S := S) opts d id opened) (result_ok opts id opened).
Proof.
  intros Hk. unfold openFile. set (named := if bool_decide (op_OutputPath opts = "") && bool_decide (os_EncryptedFilename opened <> "") then openFilename id (os_EncryptedFilename opened) else Ok "").
  set (filename := match named with Ok n => n | Err _ => "" end).
  set (res := fun written rescued => MkResult (os_Kind opened) "" filename (os_ContentType opened) written rescued (negb (is_ok named))).
  assert (Hgone : forall e x, gone x -> result_ok opts id opened (Ok (res "" "", Some e)) x).
  { intros e x H. simpl. split_and!; [done|by apply gone_kept|done|by intros path [-> | ->]|done|done]. }
  eapply triple_bind with (R := fun r x => match r with
    | Ok (i, name) => (staged_state opts d i name "" x /\ (next_inode x0 <= i)%nat) /\ name <> ""
    | Err _ => dest_state opts d x end).
  { apply triple_attempt. eapply triple_and with (F := fun r => forall i name, r = Ok (i, name) -> name <> ""); [apply stage_spec| |].
    - intros w r w' E i name ->. unfold stage, CreateTemp in E. eapply create_temp_name; [|exact E]. done.
    - intros [[i name]|e] x H HF; [|done]. split; [done|]. by eapply HF. }
  intros [[i name]|e].
  2:{ eapply triple_bind with (R := fun _ => gone); [|intros _; apply triple_ret; intros x; apply Hgone].
      eapply triple_conseq; [apply discard_spec|done|]. by intros [] x H. }
  eapply (triple_conseq (fun x => ((next_inode x0 <= i)%nat /\ name <> "") /\ staged_state opts d i name "" x)); [|tauto|intros ? x H; exact H].
  apply triple_pure. intros [Hge Hname].
  eapply triple_bind with (R := fun e x => match e with
    | None => exists p, unsealReader id (os_Body opened) = Ok p /\ staged_state opts d i name p x
    | Some _ => exists c, staged_state opts d i name c x end).
  { eapply triple_conseq; [by apply decryptInto_spec|done|]. by intros [[]|] x H. }
  intros [e|].
  - apply triple_ex. intros c. apply cleanup_spec. apply triple_ret. intros x. apply Hgone.
  - apply triple_ex. intros p. apply triple_pure. intros Hu.
    eapply triple_bind with (R := fun r x => match r with
      | Ok (path, _) => saved x0 path p x /\ path <> "" | Err _ => saved x0 name p x end).
    { apply triple_attempt. eapply (triple_conseq (fun x => (d_file d <> None -> d_path d <> "") /\ staged_state opts d i name p x));
        [| |intros ? x H; exact H].
      - apply triple_pure. intros Hd. eapply triple_and with (F := fun r => forall path e, r = Ok (path, e) -> path <> ""); [apply place_spec| |].
        + intros w r w' E path e ->. by eapply place_name.
        + intros [[path e]|e] x H HF; [|done]. split; [done|]. by eapply HF.
      - intros x H. split; [|done]. unfold staged_state in H. destruct (d_file d); [|done]. destruct H as [(-> & ? & _) _]. done. }
    intros [[path e]|e]; apply triple_ret; intros x H.
    + simpl. split_and!; [done| |done| | |done].
      * destruct H as [H _]. by eapply saved_kept.
      * intros q [-> | ->] Hq; [|done]. exists p. tauto.
      * intros _ ->. tauto.
    + simpl. split_and!; [done|by eapply saved_kept|done| |done|done].
      intros q [-> | ->] Hq; [done|]. exists p. done.
Qed.

(** *** The network leaves the files alone *)
Definition quiet {A} (m : C A) : Prop := forall P, triple P m (fun _ => P).

Lemma quiet_bind {A B} (m : C A) (k : A -> C B) : quiet m -> (forall a, quiet (k a)) -> quiet (bind m k).
Proof. intros Hm Hk P. eapply triple_bind with (R := fun _ => P); [eapply triple_conseq; [apply Hm|done|by intros []]|]. intros a. apply Hk. Qed.
Lemma quiet_ret {A} (a : A) : quiet (ret a).
Proof. intros P. by apply triple_ret. Qed.
Lemma quiet_throw {A} e : quiet (throw (A := A) e).
Proof. intros P. by apply triple_throw. Qed.
Lemma quiet_lift {A} (r : result A) : quiet (lift r).
Proof. intros P. by apply triple_lift. Qed.
Lemma quiet_attempt {A} (m : C A) : quiet m -> quiet (attempt m).
Proof. intros H P. apply triple_attempt, H. Qed.
Lemma quiet_fail_if (c : bool) (e : err) : quiet (fail_if c e).
Proof. destruct c; [apply quiet_throw|apply quiet_ret]. Qed.
Lemma quiet_http req : quiet (http_do (S := S) req).
Proof. intros P w r w' HP. unfold http_do. destruct (net_do req _) as [o p]. by intros [= <- <-]. Qed.

Lemma quiet_send c method path body : quiet (send (S := S) c method path body).
Proof.
  apply quiet_bind; [apply quiet_http|]. intros [resp|]; [|apply quiet_throw].
  destruct (success _); [apply quiet_ret|apply quiet_throw].
Qed.
Lemma quiet_json {A} c method path body (decode : resp_body -> option A) : quiet (do_json (S := S) c method path body decode).
Proof. apply quiet_bind; [apply quiet_send|]. intros resp. destruct (decode _); [apply quiet_ret|apply quiet_throw]. Qed.
Lemma quiet_Config c : quiet (Client.Config (S := S) c).
Proof. apply quiet_bind; [apply quiet_attempt, quiet_json|]. intros []; apply quiet_ret. Qed.
Lemma quiet_OpenSecret c id proof size : quiet (OpenSecret (S := S) c id proof size).
Proof. apply quiet_bind; [apply quiet_fail_if|]. intros _. apply quiet_bind; [apply quiet_send|]. intros resp. apply quiet_lift. Qed.

(** The prompt changes no file and sends nothing. *)
Definition prompt_ok (o : OpenOptions (S := S)) : Prop :=
  forall p w r w', oo_Passphrase o = Some p -> p w = (r, w') ->
    fs (db w') = fs (db w) /\ sent (db w') = sent (db w).

Lemma quiet_access o m : prompt_ok o -> quiet (prepare_access o m).
Proof.
  intros Hp. unfold prepare_access. destruct (md_Access m) as [kdf|].
  - destruct (oo_Passphrase o) as [p|] eqn:E; [|apply quiet_throw]. apply quiet_bind.
    { intros P w r w' HP Hr. destruct (Hp _ _ _ _ E Hr) as [Hfs _]. by rewrite Hfs. }
    intros pass. apply quiet_bind; [apply quiet_lift|]. intros proof. apply quiet_ret.
  - destruct (sl_Identity _); [apply quiet_ret|apply quiet_throw].
Qed.

Lemma prepare_spec c o : prompt_ok o ->
  triple (holds ∅ ∅) (prepare (S := S) c o) (fun r x => match r with Ok (_, _, d) => dest_state (oo_Paths o) d x | Err _ => gone x end).
Proof.
  intros Hp. unfold prepare.
  assert (Hq : forall A (m : C A) (e : result A -> FS -> Prop), quiet m -> (forall r x, holds ∅ ∅ x -> e r x) -> triple (holds ∅ ∅) m e).
  { intros A m e Hm He. eapply triple_conseq; [apply Hm|done|]. simpl. auto. }
  assert (Hgo : forall A B (m : C A) (k : A -> C B) Q, quiet m -> (forall e x, gone x -> Q (Err e) x) ->
    (forall a, triple (holds ∅ ∅) (k a) Q) -> triple (holds ∅ ∅) (bind m k) Q).
  { intros A B m k Q Hm He Hk. eapply triple_bind with (R := fun _ => holds ∅ ∅); [|done]. apply Hq; [done|].
    intros [a|e] x H; [done|]. by apply He, gone_clean. }
  apply Hgo; [apply quiet_fail_if|done|]. intros _. apply Hgo; [apply quiet_json|done|]. intros m.
  apply Hgo; [by apply quiet_access|done|]. intros a. apply Hgo; [|done|].
  { case_bool_decide; [|apply quiet_ret]. apply quiet_bind; [apply quiet_Config|]. intros l. apply quiet_fail_if. }
  intros _. eapply triple_bind with (R := dest_state (oo_Paths o)); [apply reserve_spec|]. intros d. apply triple_ret. intros x H. exact H.
Qed.

End open.

(** ** What the client sends *)
Section sends.
Context {ENV : Env} {AGE : Age} {OS : Os} {S : Type} {NET : Network S} {CC : ClientCodec}.
Abbreviation C := (M (CliState S)).

(** Every run sends requests of the language [L], in order. *)
Definition sends {A} (L : list CliRequest -> Prop) (m : C A) : Prop :=
  forall w r w', m w = (r, w') -> exists l, sent (db w') = sent (db w) ++ l /\ L l.
Definition nothing (l : list CliRequest) : Prop := l = [].
Definition gets (l : list CliRequest) : Prop := Forall (fun r => cq_Method r = "GET") l.

Lemma sends_weaken {A} (L L' : list CliRequest -> Prop) (m : C A) : sends L m -> (forall l, L l -> L' l) -> sends L' m.
Proof. intros H HL w r w' E. destruct (H _ _ _ E) as (l & ? & ?). eauto. Qed.
Lemma sends_pure {A} (r : result A) : sends nothing (lift r).
Proof. intros w r' w' [= <- <-]. exists []. by rewrite app_nil_r. Qed.
Lemma sends_ret {A} (a : A) : sends nothing (ret a).
Proof. intros w r' w' [= <- <-]. exists []. by rewrite app_nil_r. Qed.
Lemma sends_throw {A} e : sends nothing (throw (A := A) e).
Proof. intros w r' w' [= <- <-]. exists []. by rewrite app_nil_r. Qed.
Lemma sends_ask {A} (f : nat -> A) : sends nothing (ask f).
Proof. intros w r' w' [= <- <-]. exists []. by rewrite app_nil_r. Qed.
Lemma sends_fail_if (c : bool) (e : err) : sends nothing (fail_if c e).
Proof. destruct c; [apply sends_throw|apply sends_ret]. Qed.
Lemma sends_os_call {A} faults (f : FS -> result A * FS) : sends nothing (os_call (S := S) faults f).
Proof.
  intros w r w'. unfold os_call. destruct (faults _); [|destruct (f _)]; intros [= <- <-]; exists []; by rewrite app_nil_r.
Qed.
Lemma sends_write i d : sends nothing (write_file (S := S) i d).
Proof. intros w r w'. unfold write_file. destruct (os_fault _); intros [= <- <-]; exists []; by rewrite app_nil_r. Qed.
Lemma sends_attempt {A} L (m : C A) : sends L m -> sends L (attempt m).
Proof. intros H w r w'. unfold attempt. destruct (m w) as [o w1] eqn:E. intros [= <- <-]. by eapply H. Qed.

(** The second computation runs only if the first returns. *)
Lemma sends_bind {A B} (L L' : list CliRequest -> Prop) (m : C A) (k : A -> C B) :
  sends L m -> (forall a, sends L' (k a)) ->
  sends (fun l => L l \/ exists l1 l2, l = l1 ++ l2 /\ L l1 /\ L' l2) (bind m k).
Proof.
  intros Hm Hk w r w'. unfold bind. destruct (m w) as [[a|e] w1] eqn:E; destruct (Hm _ _ _ E) as (l & El & Hl).
  - intros Hr. destruct (Hk a _ _ _ Hr) as (l2 & E2 & H2). exists (l ++ l2). rewrite E2, El, app_assoc. split; [done|]. right. eauto.
  - intros [= <- <-]. exists l. auto.
Qed.
Lemma silent_bind {A B} (m : C A) (k : A -> C B) : sends nothing m -> (forall a, sends nothing (k a)) -> sends nothing (bind m k).
Proof.
  intros Hm Hk. eapply sends_weaken; [by apply sends_bind|]. unfold nothing. intros l [->|(? & ? & -> & -> & ->)]; done.
Qed.
Lemma gets_bind {A B} (m : C A) (k : A -> C B) : sends gets m -> (forall a, sends gets (k a)) -> sends gets (bind m k).
Proof.
  intros Hm Hk. eapply sends_weaken; [by apply sends_bind|]. intros l [|(? & ? & -> & ? & ?)]; [done|]. by apply Forall_app.
Qed.
Lemma silent_gets {A} (m : C A) : sends nothing m -> sends gets m.
Proof. intros H. eapply sends_weaken; [exact H|]. intros l ->. constructor. Qed.

Lemma sends_http req : sends (fun l => l = [req]) (http_do (S := S) req).
Proof. intros w r w'. unfold http_do. destruct (net_do req _). intros [= <- <-]. by exists [req]. Qed.
Lemma sends_send c method path body :
  sends (fun l => exists h, l = [MkCReq method (baseURL c +:+ path) h body]) (send (S := S) c method path body).
Proof.
  eapply sends_weaken; [eapply sends_bind with (L' := nothing); [apply sends_http|]|].
  - intros [resp|]; [|apply sends_throw]. destruct (success _); [apply sends_ret|apply sends_throw].
  - intros l [->|(? & ? & -> & -> & ->)]; [|rewrite app_nil_r]; by eexists.
Qed.
Lemma sends_get {A} c path (decode : resp_body -> option A) : sends gets (do_json (S := S) c "GET" path None decode).
Proof.
  apply gets_bind.
  - eapply sends_weaken; [apply sends_send|]. intros l [h ->]. by repeat constructor.
  - intros resp. apply silent_gets. destruct (decode _); [apply sends_ret|apply sends_throw].
Qed.

Create HintDb silent discriminated.
Hint Resolve sends_pure sends_ret sends_throw sends_ask sends_fail_if sends_os_call sends_write sends_attempt silent_bind : silent.
Ltac silent := repeat (intros; cbn beta match; match goal with
  | |- sends nothing (bind _ _) => apply silent_bind
  | |- sends nothing (match ?x with _ => _ end) => destruct x
  | |- sends nothing (if ?x then _ else _) => destruct x
  | |- sends nothing (let '(_, _) := ?x in _) => destruct x
  | |- sends nothing (attempt _) => apply sends_attempt
  | |- sends nothing (ignore _) => unfold ignore
  | _ => solve [eauto with silent nocore]
  end).

Lemma silent_create_temp tries dir prefix suffix : sends nothing (create_temp (S := S) tries dir prefix suffix).
Proof. induction tries as [|tries IH]; cbn [create_temp]; unfold open_excl; silent. Qed.
Lemma silent_place attempts : forall n target staged, sends nothing (place_from (S := S) attempts n target staged).
Proof.
  induction attempts as [|attempts IH]; intros; cbn [place_from]; [silent|].
  unfold link_file, copyExclusive, read_file, open_excl, remove_file, close_file, sync_file. silent.
Qed.
Hint Resolve silent_create_temp silent_place : silent.

Lemma silent_discard d : sends nothing (discard (S := S) d).
Proof. unfold discard, close_file, remove_file. silent. Qed.
Hint Resolve silent_discard : silent.

Lemma silent_reserve opts kind : sends nothing (reserveDestination (S := S) opts kind).
Proof. unfold reserveDestination, checkWritableDir, CreateTemp, open_excl, close_file, remove_file. silent. Qed.
Lemma silent_text opts d id opened : sends nothing (openText (S := S) opts d id opened).
Proof. unfold openText, writeText, sync_file. silent. Qed.
Lemma silent_file opts d id opened : sends nothing (openFile (S := S) opts d id opened).
Proof.
  unfold openFile, stage, CreateTemp, decryptInto, place, placeFile, close_file, remove_file, rename_file, sync_file. silent.
Qed.

Lemma prepare_gets c o : prompt_ok o -> sends gets (prepare (S := S) c o).
Proof.
  intros Hp. unfold prepare. apply gets_bind; [apply silent_gets; silent|]. intros _.
  apply gets_bind; [apply sends_get|]. intros m. apply gets_bind.
  { apply silent_gets. unfold prepare_access. destruct (md_Access m); [|silent].
    destruct (oo_Passphrase o) as [p|] eqn:E; [|silent]. apply silent_bind; [|silent].
    intros w r w' Hr. exists []. destruct (Hp _ _ _ _ E Hr) as [_ Hs]. by rewrite Hs, app_nil_r. }
  intros a. apply gets_bind.
  { case_bool_decide; [|apply silent_gets; silent]. apply gets_bind; [|intros; apply silent_gets; silent].
    apply gets_bind; [apply sends_attempt, sends_get|]. intros []; apply silent_gets; silent. }
  intros _. apply silent_gets. apply silent_bind; [apply silent_reserve|silent].
Qed.

(** What an open that answered was answered with. *)
Lemma OpenSecret_ok c id proof size w opened w' : OpenSecret (S := S) c id proof size w = (Ok opened, w') ->
  exists req resp, net_do req (peer (db w)) = (Some resp, peer (db w')) /\ sent (db w') = sent (db w) ++ [req] /\
    openedSecret resp size = Ok opened.
Proof.
  unfold OpenSecret, send, http_do. intros (u & w1 & [_ ->]%fail_if_ok & (resp & w2 & H & [Ho ->]%lift_ok)%bind_ok)%bind_ok.
  apply bind_ok in H as (o & w3 & H & Hs). destruct (net_do _ (peer (db w))) as [o' p] eqn:En.
  injection H as <- <-. destruct o' as [resp'|]; [|done]. destruct (success _); [|done]. apply ret_ok in Hs as [-> ->].
  eexists _, _. split; [exact En|done].
Qed.

Lemma bind_cases {A B} (m : C A) (k : A -> C B) w r w' : bind m k w = (r, w') ->
  (exists e, m w = (Err e, w') /\ r = Err e) \/ exists a w1, m w = (Ok a, w1) /\ k a w1 = (r, w').
Proof. unfold bind. destruct (m w) as [[a|e] w1]; [eauto|]. intros [= <- <-]. eauto. Qed.

(** How a run of [Open] went. *)
Lemma Open_run c o w r w' : Open (S := S) c o w = (r, w') ->
  (exists e, r = Err e /\ prepare c o w = (Err e, w')) \/
  exists m a d w1 ro w2, prepare c o w = (Ok (m, a, d), w1) /\
    OpenSecret c (sl_ID (oo_Link o)) (access_proof a) (md_SizeBytes m) w1 = (ro, w2) /\
    match ro with
    | Err e => (do! discard d in throw e) w2 = (r, w')
    | Ok opened =>
        match identity_of a opened with
        | Err e => (do! discard d in throw e) w2 = (r, w')
        | Ok id => (if bool_decide (os_Kind opened <> "file") then openText (oo_Paths o) d id opened
                    else openFile (oo_Paths o) d id opened) w2 = (r, w')
        end
    end.
Proof.
  unfold Open. unfold bind at 1. destruct (prepare c o w) as [[[[m a] d]|e] w1].
  - unfold bind at 1, attempt. destruct (OpenSecret _ _ _ _ w1) as [ro w2] eqn:E. intros H. right.
    exists m, a, d, w1, ro, w2. split; [done|]. split; [exact E|].
    destruct ro as [opened|e]; [|exact H]. by destruct (identity_of a opened).
  - intros [= <- <-]. left. eauto.
Qed.
End sends.

(** ** The theorems *)
Section theorems.
Context {ENV : Env} {AGE : Age} {OS : Os} {S : Type} {NET : Network S} {CC : ClientCodec}.
Context (c : Client) (o : OpenOptions (S := S)) (Hprompt : prompt_ok o).

(** What a path holds. *)
Definition content_at (x : FS) (path : string) : option string := entries x !! resolve path ≫= fun i => inodes x !! i.

Lemma saved_content x0 path p x : saved x0 path p x -> content_at x path = Some p.
Proof.
  intros (m & d & i & Hm & Hd & H). unfold content_at. rewrite (holds_found _ _ _ _ _ _ H Hm). simpl. by apply (h_data _ _ _ _ H).
Qed.

(** A run of [Open] against the files it started with. *)
Lemma Open_result w r w' : Open c o w = (r, w') ->
  match r with
  | Err _ => gone (fs (db w)) (fs (db w'))
  | Ok _ => exists id opened req resp size p0 p1,
      net_do req p0 = (Some resp, p1) /\ (exists before, sent (db w') = before ++ [req]) /\ openedSecret resp size = Ok opened /\
      result_ok (fs (db w)) (oo_Paths o) id opened r (fs (db w'))
  end.
Proof.
  intros H. set (x0 := fs (db w)). destruct (Open_run _ _ _ _ _ H) as [(e & -> & Hp)|(m & a & d & w1 & ro & w2 & Hp & Ho & Hr)].
  { exact (prepare_spec x0 c o Hprompt _ _ _ (holds_start x0) Hp). }
  pose proof (prepare_spec x0 c o Hprompt _ _ _ (holds_start x0) Hp) as Hd. simpl in Hd.
  pose proof (quiet_OpenSecret c _ _ _ _ _ _ _ Hd Ho) as Hd2. simpl in Hd2.
  assert (Hthrow : forall e, (do! discard d in throw e) w2 = (r, w') -> match r with Ok _ => False | Err _ => gone x0 (fs (db w')) end).
  { intros e He. exact (discard_then x0 (oo_Paths o) d e _ _ _ Hd2 He). }
  destruct ro as [opened|e]; [|apply Hthrow in Hr; by destruct r].
  destruct (identity_of a opened) as [id|e]; [|apply Hthrow in Hr; by destruct r].
  destruct (OpenSecret_ok _ _ _ _ _ _ _ Ho) as (req & resp & Hn & Hs & Hop).
  assert (Hq : result_ok x0 (oo_Paths o) id opened r (fs (db w')) /\ sent (db w') = sent (db w2)).
  { case_bool_decide.
    - split; [by eapply openText_spec|]. destruct (silent_text _ _ _ _ _ _ _ Hr) as (l & -> & ->). apply app_nil_r.
    - split; [by eapply openFile_spec|]. destruct (silent_file _ _ _ _ _ _ _ Hr) as (l & -> & ->). apply app_nil_r. }
  destruct Hq as [Hres Hsent]. destruct r as [p|e]; [|exact Hres].
  exists id, opened, req, resp, (md_SizeBytes m), (peer (db w1)), (peer (db w2)).
  rewrite Hsent, Hs. split_and!; eauto.
Qed.

Lemma kept_old x0 x e i : kept x0 x -> entries x0 !! e = Some i -> (i < next_inode x0)%nat ->
  entries x !! e = Some i /\ inodes x !! i = inodes x0 !! i.
Proof.
  intros (m & d & [He Hd _ _ Ho _]) Hi Hl. rewrite He. split; [|by apply Ho].
  apply lookup_union_Some_r; [done|exact Hi].
Qed.

Lemma gone_entries x0 x : gone x0 x -> (forall t, remove_fault t = None) -> entries x = entries x0.
Proof. intros [_ H] Hr. destruct (H Hr) as [He _ _ _ _ _]. by rewrite He, map_empty_union. Qed.

(** Every entry of [x0] is there, and every other is one the run made, of a
    file that is not one of [x0]'s. *)
Definition only_own_added (x0 x : FS) : Prop :=
  exists mine, entries x = mine ∪ entries x0 /\ mine ##ₘ entries x0 /\
    forall e i, mine !! e = Some i -> (next_inode x0 <= i)%nat.

(** Nothing is left behind, except what a failed removal leaves. *)
Definition cleaned (x0 x : FS) : Prop :=
  only_own_added x0 x /\ ((forall t, remove_fault t = None) -> entries x = entries x0).

Lemma gone_cleaned x0 x : gone x0 x -> cleaned x0 x.
Proof.
  intros Hg. pose proof Hg as [(m & d & [He Hd _ Hr _ _]) _]. split; [exists m; split_and!; [done..|]; intros e i Hi; by apply Hr in Hi as [? _]|].
  intros Hf. by apply gone_entries.
Qed.

(** C33: However it ends, [Open] leaves every file that was there as it was: the
    same name, the same bytes. *)
Theorem open_never_overwrites (w : World (CliState S)) r w' (e : string) (i : nat) :
  Open c o w = (r, w') ->
  entries (fs (db w)) !! e = Some i -> (i < next_inode (fs (db w)))%nat ->
  entries (fs (db w')) !! e = Some i /\ inodes (fs (db w')) !! i = inodes (fs (db w)) !! i.
Proof.
  intros H. apply kept_old. pose proof (Open_result _ _ _ H) as Hr. destruct r as [[res e']|e'].
  - destruct Hr as (id & opened & _ & _ & _ & _ & _ & _ & _ & _ & _ & Hk & _). exact Hk.
  - by apply gone_kept.
Qed.

(** C34: What [Open] saves, under the name asked for or the one it reports for
    rescue, is the whole plaintext age authenticated in the body the
    deployment answered with.  When it reports nothing saved, every entry that
    was there still is and any other is one this run made; and
    - after an error with no result, or a file secret it could neither write nor
      rescue (then it reports an error), the directory is as it was, provided
      that removing a file does not fail;
    - a text secret without [-output] leaves the directory as it was and is not
      an error;
    - a text secret whose write to [-output] failed is reported as
      [ErrWriteAfterConsume] with the whole plaintext, and the reserved file,
      which nothing had used before, is the only new entry. *)
Theorem open_saves_whole_or_nothing (w : World (CliState S)) r w' :
  Open c o w = (r, w') ->
  match r with
  | Err _ => cleaned (fs (db w)) (fs (db w'))
  | Ok (res, e) => exists id opened req resp size p0 p1,
      net_do req p0 = (Some resp, p1) /\ (exists before, sent (db w') = before ++ [req]) /\ openedSecret resp size = Ok opened /\
      (or_Kind res <> "file" -> unsealReader id (os_Body opened) = Ok (or_Plaintext res)) /\
      (forall path, path = or_WrittenPath res \/ path = or_RescuedPath res -> path <> "" ->
        exists p, unsealReader id (os_Body opened) = Ok p /\ content_at (fs (db w')) path = Some p) /\
      (or_Kind res = "file" -> or_WrittenPath res = "" -> or_RescuedPath res = "" ->
        e <> None /\ cleaned (fs (db w)) (fs (db w'))) /\
      (or_Kind res <> "file" -> or_WrittenPath res = "" ->
        let out := op_OutputPath (oo_Paths o) in
        if decide (out = "") then e = None /\ entries (fs (db w')) = entries (fs (db w))
        else e = Some ErrWriteAfterConsume /\ entries (fs (db w)) !! resolve out = None /\
          exists j, (next_inode (fs (db w)) <= j)%nat /\
            entries (fs (db w')) = <[resolve out := j]> (entries (fs (db w))))
  end.
Proof.
  intros H. pose proof (Open_result _ _ _ H) as Hr. destruct r as [[res e]|e]; [|by apply gone_cleaned].
  destruct Hr as (id & opened & req & resp & size & p0 & p1 & H1 & H2 & H3 & Hk & _ & Ht & Hs & Hg & Htx).
  exists id, opened, req, resp, size, p0, p1. rewrite Hk. split_and!; [done..| | |].
  - intros path Hp Hne. destruct (Hs path Hp Hne) as (p & Hu & Hsv). exists p. split; [done|]. by eapply saved_content.
  - intros Hf Hw Hres. destruct (Hg Hf Hw Hres) as [He Hgo]. split; [done|]. by apply gone_cleaned.
  - intros Hf Hw. specialize (Htx Hf Hw). simpl. destruct (decide _).
    + destruct Htx as [-> [He _ _ _ _ _]]. by rewrite He, map_empty_union.
    + destruct Htx as (-> & j & d & [He Hd _ Hr _ _]). apply map_disjoint_singleton_l in Hd. split_and!; [done..|].
      exists j. split; [|by rewrite insert_union_singleton_l]. by destruct (Hr _ _ (lookup_singleton_eq _ _)).
Qed.

(** C35: [Open] probes with GET requests first; the request that consumes the secret
    is the last it sends, is sent at most once, and is not sent when anything
    before it fails. *)
Theorem open_consumes_last (w : World (CliState S)) r w' :
  Open c o w = (r, w') ->
  exists probes, gets probes /\
    ((sent (db w') = sent (db w) ++ probes /\ (exists e, r = Err e)) \/
     exists h b m a d w1, prepare c o w = (Ok (m, a, d), w1) /\
       sent (db w') = sent (db w) ++ probes ++ [MkCReq "POST" (baseURL c +:+ open_path (sl_ID (oo_Link o))) h (Some b)]).
Proof.
  intros H. destruct (Open_run _ _ _ _ _ H) as [(e & -> & Hp)|(m & a & d & w1 & ro & w2 & Hp & Ho & Hr)];
    destruct (prepare_gets c o Hprompt _ _ _ Hp) as (l & El & Hl); exists l; (split; [done|]).
  { left. eauto. }
  assert (Es : sent (db w') = sent (db w2)).
  { assert (Hd : forall e, (do! discard d in throw e) w2 = (r, w') -> sent (db w') = sent (db w2)).
    { intros e He. assert (Hs : sends nothing (do! discard (S := S) d in throw (A := OpenResult * option err) e)).
      { apply silent_bind; [apply silent_discard|intros; apply sends_throw]. }
      destruct (Hs _ _ _ He) as (l' & -> & ->). apply app_nil_r. }
    destruct ro as [opened|e]; [|by eapply Hd]. destruct (identity_of a opened); [|by eapply Hd].
    case_bool_decide; [destruct (silent_text _ _ _ _ _ _ _ Hr) as (l' & -> & ->)|destruct (silent_file _ _ _ _ _ _ _ Hr) as (l' & -> & ->)]; apply app_nil_r. }
  unfold OpenSecret in Ho. destruct (md_SizeBytes m <=? 0) eqn:Hz.
  { left. injection Ho as <- <-. rewrite Es. split; [done|]. revert Hr. unfold bind. destruct (discard d w1) as [[]]; intros [= <- _]; eauto. }
  right. apply bind_cases in Ho as [(e & Ho & _)|(u & w3 & [_ ->]%fail_if_ok & Ho)]; [done|].
  assert (Hs : sends (fun l => exists h, l = [MkCReq "POST" (baseURL c +:+ open_path (sl_ID (oo_Link o))) h
    (Some (marshal_open (if bool_decide (access_proof a <> "") then Some (access_proof a) else None)))])
    (let! resp := send (S := S) c "POST" (open_path (sl_ID (oo_Link o)))
      (Some (marshal_open (if bool_decide (access_proof a <> "") then Some (access_proof a) else None))) in
     lift (openedSecret resp (md_SizeBytes m)))).
  { eapply sends_weaken; [eapply sends_bind with (L' := nothing); [apply sends_send|intros; apply sends_pure]|].
    intros l' [[h ->]|(l1 & l2 & -> & [h ->] & ->)]; by exists h. }
  destruct (Hs _ _ _ Ho) as (l' & El' & h & ->). eexists h, _, m, a, d, w1. split; [done|]. by rewrite Es, El', El, app_assoc.
Qed.
End theorems.
