(* ===== verification/CliRunProofs.v ===== *)
(** * What the commands promise (src/cmd/flick/main.go)

    The prompt for a lifetime ends, and what an open command recovered from the
    deployment is where it says: in the file it names or on standard output. *)

From S2P Require Import Prelude GoStrings Codec World ObjectStorage Http RateLimit Config Url Json GoJson ClientCrypto ShareLink Flags Files Client GoDuration CliSend CliOpen Cli FilesProofs CliProofs.

Section prompts.
Context {ENV : Env} {OS : Os} {P : Type} {NET : Network P} {TE : Terminal} {EN : Environ}.
Abbreviation S := (P * Tty)%type.

Abbreviation tty w := (peer (db w)).2.

(** A line takes at least a byte of the input. *)
Lemma read_line_rest s : forall line e r rest, read_line line s e = (r, rest) ->
  match r with
  | Ok _ => s = "" \/ (String.length rest < String.length s)%nat
  | Err x => x = errCancelled \/ e = Some x
  end.
Proof.
  induction s as [|c s IH]; intros line e r rest; cbn [read_line].
  - destruct e as [e|]; [intros [= <- <-]; auto|]. case_bool_decide; intros [= <- <-]; auto.
  - destruct (Ascii.eqb c newline); [intros [= <- <-]; right; simpl; lia|].
    intros H. destruct s as [|d s].
    + destruct r; [|by apply IH in H]. right. cbn [read_line] in H. destruct e; [done|].
      case_bool_decide; injection H as H <-; simpl; lia.
    + specialize (IH _ _ _ _ H). destruct r; [|done]. destruct IH as [|IH]; [done|]. right. simpl in *. lia.
Qed.

Lemma readLine_spec (w : World (CliState S)) r w' : readLine w = (r, w') ->
  stdin_end (tty w') = stdin_end (tty w) /\
  match r with
  | Ok _ => (String.length (stdin (tty w')) < String.length (stdin (tty w)))%nat
  | Err x => x = errCancelled \/ stdin_end (tty w) = Some x
  end.
Proof.
  unfold readLine, bind, on_tty. destruct (read_line "" _ _) as [l rest] eqn:E.
  pose proof (read_line_rest _ _ _ _ _ E) as H. destruct l as [line|x]; intros [= <- <-]; [|done].
  split; [done|]. destruct H as [Hs|H]; [|done]. rewrite Hs in E. cbn [read_line] in E. by destruct (stdin_end _).
Qed.

Lemma notify_run n (w : World (CliState S)) : exists w', notify n w = (Ok tt, w') /\
  stdin (tty w') = stdin (tty w) /\ stdin_end (tty w') = stdin_end (tty w).
Proof. by eexists. Qed.

Lemma prompt_ttl_ends steps fallback : forall w : World (CliState S), (String.length (stdin (tty w)) < steps)%nat ->
  match (prompt_ttl steps fallback w).1 with
  | Ok None => False
  | Ok (Some d) => d = fallback \/ MinTTL <= d <= MaxTTL
  | Err e => e = errCancelled \/ stdin_end (tty w) = Some e
  end.
Proof.
  induction steps as [|steps IH]; intros w Hs; [lia|]. cbn [prompt_ttl]. unfold bind at 1.
  destruct (notify_run (TTLLabel fallback) w) as (w1 & -> & E1 & E2). unfold bind at 1.
  destruct (readLine w1) as [r w2] eqn:Er. destruct (readLine_spec _ _ _ Er) as [E3 Hr]. rewrite E2 in *.
  destruct r as [typed|e]; [|exact Hr]. case_bool_decide; [by left|].
  assert (Hagain : forall n, match ((do! notify n in prompt_ttl steps fallback) w2).1 with
    | Ok None => False | Ok (Some d) => d = fallback \/ MinTTL <= d <= MaxTTL
    | Err e => e = errCancelled \/ stdin_end (tty w) = Some e end).
  { intros n. unfold bind. destruct (notify_run n w2) as (w3 & -> & E4 & E5).
    specialize (IH w3). rewrite E5, E3 in IH. apply IH. rewrite E4, E1 in *. lia. }
  destruct (ParseDuration typed) as [d|]; [|apply Hagain].
  destruct (Z.ltb_spec d MinTTL); [apply Hagain|]. destruct (Z.ltb_spec MaxTTL d); [apply Hagain|]. right. lia.
Qed.

(** [promptTTL] ends whatever is typed: with the default, with a lifetime a
    secret may have, or with the end or failure of the input. *)
Theorem prompt_ttl_answers (fallback : Z) (w : World (CliState S)) :
  match (promptTTL fallback w).1 with
  | Ok d => d = fallback \/ MinTTL <= d <= MaxTTL
  | Err e => e = errCancelled \/ stdin_end (tty w) = Some e
  end.
Proof.
  unfold promptTTL, bind. set (n := Datatypes.S _). pose proof (prompt_ttl_ends n fallback w) as H.
  destruct (prompt_ttl n fallback w) as [[[d|]|e] w1]; simpl in *; [|destruct H|]; try apply H; lia.
Qed.
End prompts.

(** ** Standard output *)
Section output.
Context {ENV : Env} {AGE : Age} {OS : Os} {P : Type} {NET : Network P} {CC : ClientCodec} {TE : Terminal} {EN : Environ}.
Abbreviation S := (P * Tty)%type.
Abbreviation C := (M (CliState S)).
Abbreviation out w := (stdout (peer (db w)).2).

(** A computation that prints nothing on standard output. *)
Definition unprinted {A} (m : C A) : Prop := forall w r w', m w = (r, w') -> out w' = out w.

Lemma unprinted_bind {A B} (m : C A) (k : A -> C B) : unprinted m -> (forall a, unprinted (k a)) -> unprinted (bind m k).
Proof.
  intros Hm Hk w r w'. unfold bind. destruct (m w) as [[a|e] w1] eqn:E.
  - intros H. rewrite (Hk _ _ _ _ H). by eapply Hm.
  - intros [= <- <-]. by eapply Hm.
Qed.
Lemma unprinted_ret {A} (a : A) : unprinted (ret a).
Proof. by intros w r w' [= <- <-]. Qed.
Lemma unprinted_throw {A} e : unprinted (throw (A := A) e).
Proof. by intros w r w' [= <- <-]. Qed.
Lemma unprinted_lift {A} (r : result A) : unprinted (lift r).
Proof. by intros w ? w' [= <- <-]. Qed.
Lemma unprinted_ask {A} (f : nat -> A) : unprinted (ask f).
Proof. by intros w ? w' [= <- <-]. Qed.
Lemma unprinted_fail_if (c : bool) e : unprinted (fail_if c e).
Proof. destruct c; [apply unprinted_throw|apply unprinted_ret]. Qed.
Lemma unprinted_attempt {A} (m : C A) : unprinted m -> unprinted (attempt m).
Proof. intros H w r w'. unfold attempt. destruct (m w) eqn:E. intros [= <- <-]. by eapply H. Qed.
Lemma unprinted_os_call {A} faults (f : FS -> result A * FS) : unprinted (os_call faults f).
Proof. intros w r w'. unfold os_call. destruct (faults _); [|destruct (f _)]; by intros [= <- <-]. Qed.
Lemma unprinted_write i d : unprinted (write_file i d).
Proof. intros w r w'. unfold write_file. destruct (os_fault _); by intros [= <- <-]. Qed.
Lemma unprinted_http req : unprinted (http_do req).
Proof. intros w r w'. unfold http_do, net_do, tty_network. destruct (net_do req _). by intros [= <- <-]. Qed.
Lemma unprinted_notify n : unprinted (notify n).
Proof. by intros w r w' [= <- <-]. Qed.
Lemma unprinted_input {A} (f : Tty -> result A * Tty) : (forall t, stdout (f t).2 = stdout t) -> unprinted (on_tty f).
Proof. intros H w r w'. unfold on_tty. specialize (H (peer (db w)).2). destruct (f _). by intros [= <- <-]. Qed.

Create HintDb unprinted discriminated.
Hint Resolve unprinted_ret unprinted_throw unprinted_lift unprinted_ask unprinted_fail_if unprinted_os_call unprinted_write
  unprinted_http unprinted_notify : unprinted.
Ltac unprinted := repeat (intros; cbn beta match; match goal with
  | |- unprinted (bind _ _) => apply unprinted_bind
  | |- unprinted (attempt _) => apply unprinted_attempt
  | |- unprinted (ignore _) => unfold ignore
  | |- unprinted (match ?x with _ => _ end) => destruct x
  | |- unprinted (if ?x then _ else _) => destruct x
  | |- unprinted (let '(_, _) := ?x in _) => destruct x
  | _ => solve [eauto with unprinted nocore]
  end).

Lemma unprinted_create_temp tries dir prefix suffix : unprinted (create_temp tries dir prefix suffix).
Proof. induction tries as [|tries IH]; cbn [create_temp]; unfold open_excl; unprinted. Qed.
Lemma unprinted_place attempts : forall n target staged, unprinted (place_from attempts n target staged).
Proof.
  induction attempts as [|attempts IH]; intros; cbn [place_from]; [unprinted|].
  unfold link_file, copyExclusive, read_file, open_excl, remove_file, close_file, sync_file. unprinted.
Qed.
Hint Resolve unprinted_create_temp unprinted_place : unprinted.

Lemma unprinted_json {A} c method path body (decode : resp_body -> option A) : unprinted (do_json c method path body decode).
Proof. unfold do_json, send. unprinted. Qed.
Hint Resolve unprinted_json : unprinted.

Lemma unprinted_prompt : unprinted readExistingPassphrase.
Proof.
  unfold readExistingPassphrase, from_environ, promptHidden. unprinted. apply unprinted_input.
  intros t. by destruct (ReadPassword _ _).
Qed.

Lemma unprinted_open c o : oo_Passphrase o = Some readExistingPassphrase -> unprinted (Open c o).
Proof.
  intros Ho. pose proof unprinted_prompt as Hp. unfold Open, prepare, prepare_access. rewrite Ho.
  unfold GetSecretMetadata, Client.Config, OpenSecret, send, openText, openFile, discard, reserveDestination, checkWritableDir,
    CreateTemp, open_excl, close_file, remove_file, writeText, sync_file, stage, CreateTemp, decryptInto, place, placeFile, rename_file.
  unprinted.
Qed.

Lemma prompt_ok_existing sets link : prompt_ok (open_options (P := P) sets link).
Proof.
  intros p w r w' [= <-]. unfold readExistingPassphrase, from_environ, promptHidden.
  destruct (LookupEnv _) as [v|].
  - unfold fail_if, bind. case_bool_decide; by intros [= <- <-].
  - destruct (IsTerminal 0); [|by intros [= <- <-]]. unfold bind, attempt, on_tty, notify. simpl.
    destruct (ReadPassword _ _) as [[s|e] rest]; simpl; [by intros [= <- <-]|]. case_bool_decide; by intros [= <- <-].
Qed.

(** ** What an open returns *)
Definition saved_with_link : err := Fail "saved, but could not remove the staging link".

(** An error beside a result: what it says is left. *)
Definition shape (res : OpenResult) (e : option err) : Prop :=
  match e with
  | None => or_RescuedPath res = ""
  | Some e =>
      (or_Kind res = "file" /\ or_RescuedPath res = "" /\ (or_WrittenPath res = "" \/ e = saved_with_link)) \/
      (or_WrittenPath res = "" /\ e = ErrWriteAfterConsume)
  end.

Lemma place_from_error attempts : forall n target staged (w : World (CliState S)) path e w',
  place_from attempts n target staged w = (Ok (path, Some e), w') -> e = saved_with_link.
Proof.
  induction attempts as [|attempts IH]; intros n target staged w path e w'; cbn [place_from]; [done|].
  intros (r & w1 & _ & (r2 & w2 & _ & H)%bind_ok)%bind_ok. destruct r2 as [u|e2].
  - apply bind_ok in H as (r3 & w3 & _ & H). by destruct r3; apply ret_ok in H as [[= _ ->] _].
  - case_bool_decide; [|done]. by eapply IH.
Qed.
Lemma place_error d opts filename staged (w : World (CliState S)) path e w' :
  place d opts filename staged w = (Ok (path, Some e), w') -> e = saved_with_link.
Proof.
  unfold place. intros (u & w1 & _ & H)%bind_ok. destruct (d_file d); [|by eapply place_from_error].
  apply bind_ok in H as (? & ? & _ & (? & ? & _ & [[=] _]%ret_ok)%bind_ok).
Qed.

Lemma openText_shape opts d id opened (w : World (CliState S)) res e w' :
  openText opts d id opened w = (Ok (res, e), w') -> shape res e.
Proof.
  unfold openText. destruct (unsealReader _ _) as [p|x]; [|by intros (? & ? & _ & ?)%bind_ok].
  case_bool_decide as Hp; [by intros [[= -> ->] _]%ret_ok|].
  intros (r & w1 & _ & H)%bind_ok. destruct r; apply ret_ok in H as [[= -> ->] _]; simpl; auto.
Qed.
Lemma openFile_shape opts d id opened (w : World (CliState S)) res e w' : os_Kind opened = "file" ->
  openFile opts d id opened w = (Ok (res, e), w') -> shape res e.
Proof.
  intros Hk. unfold openFile. intros (s & w1 & _ & H)%bind_ok. destruct s as [[staged name]|x].
  2:{ apply bind_ok in H as (? & ? & _ & [[= -> ->] _]%ret_ok). simpl. auto. }
  apply bind_ok in H as (r & w2 & _ & H). destruct r as [x|].
  { apply bind_ok in H as (? & ? & _ & (? & ? & _ & (? & ? & _ & [[= -> ->] _]%ret_ok)%bind_ok)%bind_ok). simpl. auto. }
  apply bind_ok in H as (p & w3 & Hp & H). destruct p as [[path x]|x]; apply ret_ok in H as [[= -> ->] _]; simpl; [|auto].
  destruct x as [x|]; [|done]. left. split; [done|]. split; [done|]. right. apply (proj1 (attempt_ok _ _ _ _)) in Hp. exact (place_error _ _ _ _ _ _ _ _ Hp).
Qed.

Lemma Open_shape c o (w : World (CliState S)) res e w' : Open c o w = (Ok (res, e), w') ->
  shape res e.
Proof.
  intros H. destruct (Open_run _ _ _ _ _ H) as [(x & [=] & _)|(m & a & d & w1 & ro & w2 & _ & _ & Hr)].
  assert (Ht : forall x, ~ (do! discard d in throw x) w2 = (Ok (res, e), w')).
  { intros x Hx. by apply bind_ok in Hx as (? & ? & _ & ?). }
  destruct ro as [opened|x]; [|by apply Ht in Hr]. destruct (identity_of a opened); [|by apply Ht in Hr].
  case_bool_decide as Hk; [by eapply openText_shape|]. eapply openFile_shape; [|exact Hr]. by destruct (decide (os_Kind opened = "file")).
Qed.

(** ** The command *)

(** The standard output after printing a payload: all of it, and perhaps a
    newline; or the part a failed write got out. *)
Definition printed (p : string) (w : World (CliState S)) (r : result unit) (w' : World (CliState S)) : Prop :=
  (exists end_, (end_ = "" \/ end_ = String.String newline "") /\ out w' = out w +:+ p +:+ end_) \/
  (exists t e k, os_fault t = Some e /\ r <> Ok tt /\ out w' = out w +:+ take_bytes k p).

(** Steps on the streams leave files and requests alone. *)
Definition aside {A} (m : C A) : Prop :=
  forall w r w', m w = (r, w') -> fs (db w') = fs (db w) /\ sent (db w') = sent (db w).
Lemma aside_notify n : aside (notify n).
Proof. by intros w r w' [= <- <-]. Qed.
Lemma aside_stdout s : aside (write_stdout s).
Proof. intros w r w'. unfold write_stdout. by destruct (os_fault _); intros [= <- <-]. Qed.
Lemma aside_bind {A B} (m : C A) (k : A -> C B) : aside m -> (forall a, aside (k a)) -> aside (bind m k).
Proof.
  intros Hm Hk w r w'. unfold bind. destruct (m w) as [[a|e] w1] eqn:E; destruct (Hm _ _ _ E) as [E1 E2].
  - intros H. destruct (Hk _ _ _ _ H) as [-> ->]. done.
  - by intros [= <- <-].
Qed.
Lemma aside_ret {A} (a : A) : aside (ret a).
Proof. by intros w r w' [= <- <-]. Qed.
Lemma aside_throw {A} e : aside (throw (A := A) e).
Proof. by intros w r w' [= <- <-]. Qed.
Lemma aside_ignore {A} (m : C A) : aside m -> aside (ignore m).
Proof.
  intros H. apply aside_bind; [|intros; apply aside_ret]. intros w r w'. unfold attempt. destruct (m w) eqn:E.
  intros [= <- <-]. by eapply H.
Qed.

Lemma take_newline k : take_bytes k (String.String newline "") = "" \/ take_bytes k (String.String newline "") = String.String newline "".
Proof. destruct k as [|[|k]]; auto. Qed.

Lemma write_stdout_run s (w : World (CliState S)) r w' : write_stdout s w = (r, w') ->
  (r = Ok tt /\ out w' = out w +:+ s) \/
  (exists e k, os_fault (tick w) = Some e /\ r = Err e /\ out w' = out w +:+ take_bytes k s).
Proof.
  unfold write_stdout. destruct (os_fault _) as [e|] eqn:E; intros [= <- <-]; [right|left; done].
  exists e, (partial_write (tick w)). done.
Qed.

Lemma deliver_prints res (w : World (CliState S)) r w' : or_WrittenPath res = "" -> deliver res w = (r, w') ->
  printed (or_Plaintext res) w r w'.
Proof.
  intros Hw. unfold deliver. rewrite bool_decide_false by congruence. unfold bind at 1.
  destruct (write_stdout _ w) as [r1 w1] eqn:E. destruct (write_stdout_run _ _ _ _ E) as [[-> Ho]|(e & k & Hf & -> & Ho)].
  2:{ intros [= <- <-]. right. by exists (tick w), e, k. }
  destruct (_ && _); [|intros [= <- <-]; left; exists ""; rewrite append_nil_r; auto].
  unfold print, ignore, bind, attempt. destruct (write_stdout _ w1) as [r2 w2] eqn:E2. intros [= <- <-]. left.
  destruct (write_stdout_run _ _ _ _ E2) as [[_ Ho2]|(e & k & _ & _ & Ho2)].
  - exists (String.String newline ""). rewrite Ho2, Ho, append_assoc. auto.
  - exists (take_bytes k (String.String newline "")). rewrite Ho2, Ho, append_assoc. split; [apply take_newline|done].
Qed.

Lemma deliver_saved res (w : World (CliState S)) r w' : or_WrittenPath res <> "" -> deliver res w = (r, w') ->
  r = Ok tt /\ out w' = out w /\ Saved (or_WrittenPath res) ∈ stderr (peer (db w')).2.
Proof.
  intros Hw. unfold deliver. rewrite bool_decide_true by done. destruct (or_FilenameUnreadable res); intros [= <- <-];
    (split; [done|]; split; [done|]); simpl; rewrite elem_of_app; right; by left.
Qed.

#[local] Opaque write_stdout.
Lemma salvage_run res cause (w : World (CliState S)) r w' : salvage res cause w = (r, w') ->
  r = Err cause /\
  ((or_RescuedPath res <> "" /\ out w' = out w /\ RescuedTo (or_RescuedPath res) ∈ stderr (peer (db w')).2) \/
   (or_RescuedPath res = "" /\ or_Kind res <> "file" /\ printed (or_Plaintext res) w r w') \/
   (or_RescuedPath res = "" /\ or_Kind res = "file" /\ out w' = out w)).
Proof.
  unfold salvage. case_bool_decide as Hr.
  { intros [= <- <-]. split; [done|]. left. split; [done|]. split; [done|]. simpl. rewrite !elem_of_app. right. by left. }
  assert (Hr' : or_RescuedPath res = "") by (by destruct (decide (or_RescuedPath res = ""))).
  case_bool_decide as Hk.
  2:{ intros [= <- <-]. split; [done|]. right. right. split; [done|]. split; [|done]. by destruct (decide (or_Kind res = "file")). }
  unfold ignore, attempt, bind, notify, on_tty. cbn. destruct (write_stdout (P := P) _ _) as [r1 w1] eqn:E. intros [= <- <-].
  split; [done|]. right. left. split; [done|]. split; [done|].
  destruct (write_stdout_run _ _ _ _ E) as [[_ Ho]|(e & k & Hf & _ & Ho)].
  - left. exists "". rewrite append_nil_r. auto.
  - right. by exists (tick w), e, k.
Qed.

Ltac aside := repeat match goal with
  | |- aside (bind _ _) => apply aside_bind; intros
  | |- aside (ignore _) => apply aside_ignore
  | |- _ => first [apply aside_notify | apply aside_stdout | apply aside_ret | apply aside_throw]
  end.

Lemma aside_deliver res : aside (deliver res).
Proof.
  unfold deliver, print. case_bool_decide; [destruct (or_FilenameUnreadable _)|destruct (_ && _)];
    aside.
Qed.
Lemma aside_salvage res e : aside (salvage res e).
Proof.
  unfold salvage. case_bool_decide; [|case_bool_decide];
    aside.
Qed.
(** Where a payload is after the command: in the file standard error names, in
    the one the error is about, or on standard output. *)
Definition accounted (p : string) (w : World (CliState S)) (r : result unit) (w' : World (CliState S)) : Prop :=
  (exists path, content_at (fs (db w')) path = Some p /\ out w' = out w /\
    ((r = Ok tt /\ Saved path ∈ stderr (peer (db w')).2) \/
     (r = Err ErrWriteAfterConsume /\ RescuedTo path ∈ stderr (peer (db w')).2) \/ r = Err saved_with_link)) \/
  printed p w r w'.

Lemma finish_accounted (x0 : FS) opts id opened res e (w : World (CliState S)) r w' :
  result_ok x0 opts id opened (Ok (res, e)) (fs (db w)) -> shape res e ->
  match e with
  | None => deliver res
  | Some e => if bool_decide (e = ErrWriteAfterConsume) then salvage res e else throw e
  end w = (r, w') ->
  (exists p, unsealReader id (os_Body opened) = Ok p /\ accounted p w r w') \/
  (r <> Ok tt /\ out w' = out w /\ gone x0 (fs (db w'))).
Proof.
  intros (Hk & _ & Ht & Hs & Hg & _) Hsh Hrun.
  assert (Hfs : fs (db w') = fs (db w)).
  { destruct e as [e|]; [case_bool_decide|]; [by apply aside_salvage in Hrun as [? _]|by apply aside_throw in Hrun as [? _]|
      by apply aside_deliver in Hrun as [? _]]. }
  rewrite <-Hk in Ht, Hg. rewrite <-Hfs in Hs, Hg. clear Hfs Hk.
  destruct (decide (or_WrittenPath res = "")) as [Hw|Hw].
  - destruct (decide (or_RescuedPath res = "")) as [Hr|Hr].
    + destruct (decide (or_Kind res = "file")) as [Hf|Hf].
      * destruct (Hg Hf Hw Hr) as [He Hgone]. destruct e as [e|]; [|done]. right. revert Hrun. case_bool_decide.
        -- intros [-> [Hx|[Hx|(_ & _ & Hx)]]]%salvage_run; [by destruct Hx|by destruct Hx as (_ & ? & _)|by split_and!].
        -- intros [= <- <-]. by split_and!.
      * left. exists (or_Plaintext res). split; [by apply Ht|]. right. destruct e as [e|]; [|by apply deliver_prints].
        destruct Hsh as [[? _]|[_ ->]]; [done|]. rewrite bool_decide_true in Hrun by done.
        by apply salvage_run in Hrun as [-> [[? _]|[(_ & _ & ?)|(_ & ? & _)]]].
    + left. destruct (Hs (or_RescuedPath res)) as (p & Hu & Hsv); [by right|done|]. exists p. split; [done|]. left.
      exists (or_RescuedPath res). split; [by eapply saved_content|]. destruct e as [e|]; [|done].
      destruct Hsh as [(_ & ? & _)|[_ ->]]; [done|]. rewrite bool_decide_true in Hrun by done.
      apply salvage_run in Hrun as [-> [(_ & -> & ?)|[(? & _)|(? & _)]]]; [|done..]. auto.
  - left. destruct (Hs (or_WrittenPath res)) as (p & Hu & Hsv); [by left|done|]. exists p. split; [done|]. left.
    exists (or_WrittenPath res). split; [by eapply saved_content|]. destruct e as [e|].
    + destruct Hsh as [(_ & _ & [Hx | ->])|[Hx _]]; [done| |done]. rewrite bool_decide_false in Hrun by done.
      injection Hrun as <- <-. auto.
    + apply deliver_saved in Hrun as (-> & -> & ?); [|done]. auto.
Qed.

(** However the open command ends, what it got from the deployment is where it
    says, whole: in the file it reports, in the one it reports as rescued, or
    on standard output, of which a failed write may cut the end.  Otherwise it
    fails, prints nothing, and leaves the directory as it was. *)
Theorem open_command_accounts (args : list string) (w w' : World (CliState S)) (r : result unit) :
  runOpen args w = (r, w') ->
  (exists id opened req resp size p0 p1 p,
    net_do (S := S) req p0 = (Some resp, p1) /\ (exists before, sent (db w') = before ++ [req]) /\
    openedSecret resp size = Ok opened /\ unsealReader id (os_Body opened) = Ok p /\ accounted p w r w') \/
  (r <> Ok tt /\ out w' = out w /\
   ((forall t, remove_fault t = None) -> entries (fs (db w')) = entries (fs (db w)))).
Proof.
  unfold runOpen. intros [(e & H & ->)|([sets rest] & w0 & H & Hrun)]%bind_cases; injection H as _ <-; [by right|].
  destruct rest as [|arg [|]]; [injection Hrun as <- <-; by right| |injection Hrun as <- <-; by right].
  apply bind_cases in Hrun as [(e & H & ->)|(link & w1 & H & Hrun)]; injection H as _ <-; [by right|].
  pose proof (prompt_ok_existing sets link) as Hp.
  apply bind_cases in Hrun as [(e & H & ->)|([res e] & w1 & H & Hrun)]; pose proof (Open_result _ _ Hp _ _ _ H) as Hr;
    pose proof (unprinted_open (NewClient (open_base sets link)) (open_options sets link) eq_refl _ _ _ H) as Hout.
  { right. split; [done|]. split; [done|]. by apply gone_entries. }
  destruct Hr as (id & opened & req & resp & size & p0 & p1 & Hn & Hb & Ho & Hres). apply Open_shape in H.
  destruct (finish_accounted _ _ _ _ _ _ _ _ _ Hres H Hrun) as [(p & Hu & Ha)|(Hok & Hq & Hg)].
  - left. exists id, opened, req, resp, size, p0, p1, p. split_and!; [done| |done|done|].
    + assert (Hs : sent (db w') = sent (db w1)).
      { destruct e as [e|]; [case_bool_decide|]; [by apply aside_salvage in Hrun as [_ ?]|by apply aside_throw in Hrun as [_ ?]|
          by apply aside_deliver in Hrun as [_ ?]]. }
      by rewrite Hs.
    + unfold accounted, printed in *. by rewrite <-Hout.
  - right. rewrite Hq, Hout. split_and!; [done|done|]. by apply gone_entries.
Qed.
End output.
