(* ===== verification/PathProofs.v ===== *)
(** * A sender's file name stays in the recipient's directory

    [placeFile] puts a payload under the name its sender chose, reduced to a
    plain name directly in the output directory, whatever it was. *)

From stdpp Require Import pretty.
From S2P Require Import Prelude GoStrings Codec World Http RateLimit Config ConfigProofs Url ClientCrypto ShareLink Files FilesProofs Client CliOpen CliProofs.

(** A name of one path element. *)
Definition plain_name (f : string) : Prop := f <> "" /\ f <> "." /\ f <> ".." /\ contains_byte slash f = false.

(** A path that is the directory, cleaned, and a plain name in it. *)
Definition inside (dir path : string) : Prop :=
  exists f, plain_name f /\
    ((Clean dir = "." /\ path = f) \/ (Clean dir = "/" /\ path = "/" +:+ f) \/ path = Clean dir +:+ "/" +:+ f).

(** ** Elements *)
Lemma contains_app c s t : contains_byte c (s +:+ t) = contains_byte c s || contains_byte c t.
Proof. induction s as [|a s IH]; [done|]. simpl. by rewrite IH, orb_assoc. Qed.

Lemma split_plain c s : contains_byte c s = false -> split_on c s = [s].
Proof. induction s as [|a s IH]; simpl; [done|]. intros [Ha Hs]%orb_false_iff. by rewrite Ha, IH. Qed.

Lemma clean_elems_snoc rooted f : plain_name f -> forall l kept,
  clean_elems rooted kept (l ++ [f]) = clean_elems rooted kept l ++ [f].
Proof.
  intros (H1 & H2 & H3 & _). induction l as [|e l IH]; intros kept; cbn [clean_elems app].
  - rewrite !bool_decide_false by done. simpl. by rewrite reverse_cons.
  - destruct (_ || _); [apply IH|]. case_bool_decide; [|apply IH]. destruct kept as [|k kept]; [apply IH|].
    case_bool_decide; apply IH.
Qed.

Lemma join_snoc l f : join_elems (l ++ [f]) = match l with [] => f | _ => join_elems l +:+ "/" +:+ f end.
Proof.
  induction l as [|e l IH]; [done|]. destruct l as [|e' l]; [done|].
  change (e +:+ "/" +:+ join_elems ((e' :: l) ++ [f]) = (e +:+ "/" +:+ join_elems (e' :: l)) +:+ "/" +:+ f).
  rewrite IH, !append_assoc. done.
Qed.

Lemma rooted_plain f : contains_byte slash f = false -> is_rooted f = false.
Proof.
  destruct f as [|a f]; [done|]. simpl. intros [Ha _]%orb_false_iff. unfold is_rooted.
  destruct (has_prefix "/" (String.String a f)) eqn:E; [|done]. apply has_prefix_inv in E as [t E].
  change ("/" +:+ t) with (String.String slash t) in E. injection E as -> _. by rewrite Ascii.eqb_refl in Ha.
Qed.

Lemma Join_plain dir f : plain_name f -> Join dir f = render (is_rooted dir) (elements dir ++ [f]).
Proof.
  intros Hf. pose proof Hf as (H1 & H2 & H3 & Hs). unfold Join. rewrite (bool_decide_false (f = "")) by done.
  destruct (bool_decide_reflect (dir = "")) as [->|Hd].
  - unfold Clean, elements. rewrite rooted_plain, split_plain by done. cbn [clean_elems]. by rewrite !bool_decide_false by done.
  - unfold Clean, elements. assert (Hr : is_rooted (dir +:+ "/" +:+ f) = is_rooted dir).
    { unfold is_rooted. apply has_prefix_long. destruct dir; simpl; [done|lia]. }
    rewrite Hr. f_equal. change ("/" +:+ f) with (String.String slash f). rewrite split_on_app, (split_plain _ f) by done.
    by apply clean_elems_snoc.
Qed.

Lemma Join_inside dir f : plain_name f -> inside dir (Join dir f) /\ exists pre, Join dir f = pre +:+ f /\
  (pre = "" \/ exists q, pre = q +:+ "/") /\ forall g, plain_name g -> inside dir (pre +:+ g).
Proof.
  intros Hf. rewrite Join_plain by done.
  assert (H : exists pre, render (is_rooted dir) (elements dir ++ [f]) = pre +:+ f /\
    (pre = "" \/ exists q, pre = q +:+ "/") /\ forall g, plain_name g -> inside dir (pre +:+ g)).
  { unfold inside, Clean, render. rewrite join_snoc. destruct (is_rooted dir), (elements dir) as [|e l]; cbn [app].
    - exists "/". split; [done|]. split; [right; by exists ""|]. intros g Hg. exists g. split; [done|]. right. left. done.
    - exists ("/" +:+ join_elems (e :: l) +:+ "/"). rewrite !append_assoc. split; [done|].
      split; [right; exists ("/" +:+ join_elems (e :: l)); by rewrite append_assoc|].
      intros g Hg. exists g. split; [done|]. right. right. by rewrite !append_assoc.
    - exists "". split; [done|]. split; [by left|]. intros g Hg. exists g. split; [done|]. left. done.
    - exists (join_elems (e :: l) +:+ "/"). rewrite append_assoc. split; [by destruct (l ++ [f])|].
      split; [right; by eexists|]. intros g Hg. exists g. split; [done|]. right. right. by rewrite append_assoc. }
  split; [|exact H]. destruct H as (pre & -> & _ & Hg). by apply Hg.
Qed.

(** ** Names *)
Lemma after_slash_plain s : contains_byte slash (after_slash s) = false.
Proof.
  induction s as [|a s IH]; [done|]. cbn [after_slash]. destruct (contains_byte slash s) eqn:E; [done|].
  destruct (Ascii.eqb a slash) eqn:Ea; [done|]. simpl. by rewrite Ea.
Qed.

Lemma after_slash_app pre f : (pre = "" \/ exists q, pre = q +:+ "/") -> contains_byte slash f = false -> after_slash (pre +:+ f) = f.
Proof.
  intros Hp Hf. assert (H0 : after_slash f = f).
  { destruct f as [|a f]; [done|]. simpl in Hf |- *. apply orb_false_iff in Hf as [-> ->]. done. }
  destruct Hp as [->|[q ->]]; [done|]. rewrite append_assoc. change ("/" +:+ f) with (String.String slash f).
  induction q as [|a q IH].
  - change (after_slash (String.String slash f) = f). cbn [after_slash]. by rewrite Hf, Ascii.eqb_refl.
  - change (after_slash (String.String a (q +:+ String.String slash f)) = f). cbn [after_slash].
    rewrite contains_app. simpl contains_byte. rewrite orb_true_r. exact IH.
Qed.

Lemma safeFilename_plain name : plain_name (safeFilename name).
Proof.
  unfold safeFilename. destruct (_ || _) eqn:E; [done|]. destruct_bools. split_and!; [done..|].
  unfold Base in *. case_bool_decide; [done|]. case_bool_decide; [done|]. apply after_slash_plain.
Qed.

Lemma last_dot_suffix s e : last_dot s = Some e -> exists st, s = st +:+ e.
Proof.
  revert e. induction s as [|a s IH]; simpl; intros e; [done|]. destruct (last_dot s) as [e'|].
  - intros [= ->]. destruct (IH e eq_refl) as [st ->]. by exists (String.String a st).
  - destruct (Ascii.eqb a dot); [|done]. intros [= <-]. by exists "".
Qed.

Lemma TrimSuffix_app s e : TrimSuffix (s +:+ e) e = s.
Proof.
  unfold TrimSuffix. rewrite strlen_app, Nat.add_sub.
  assert (Hd : drop_bytes (String.length s) (s +:+ e) = e) by (induction s; simpl; auto).
  rewrite Hd. destruct (Nat.leb_spec (String.length e) (String.length s + String.length e)); [|lia].
  rewrite bool_decide_true by done. simpl. clear. induction s as [|a s IH]; [by destruct e|].
  change (String.String a (String.substring 0 (String.length s) (s +:+ e)) = String.String a s). by rewrite IH.
Qed.

Lemma numbered_plain (n : nat) : (n < 100)%nat -> contains_byte slash (pretty (Z.of_nat n)) = false.
Proof.
  intros Hn. assert (H : forallb (fun n => negb (contains_byte slash (pretty (Z.of_nat n)))) (seq 0 100) = true) by by vm_compute.
  rewrite forallb_forall in H. apply negb_true_iff, H, in_seq. lia.
Qed.

Lemma dash_plain a b : contains_byte slash a = false -> contains_byte slash b = false -> plain_name (a +:+ "-" +:+ b).
Proof.
  intros Ha Hb. split_and!; [by apply append_ne_r|..].
  - destruct a as [|x [|y a]]; done.
  - destruct a as [|x [|y [|z a]]]; try done; by destruct b.
  - rewrite contains_app, Ha. change ("-" +:+ b) with (String.String (Ascii.ascii_of_nat 45) b). simpl. exact Hb.
Qed.

Lemma numberedPath_plain pre f n : (pre = "" \/ exists q, pre = q +:+ "/") -> plain_name f -> (n < 100)%nat ->
  exists g, numberedPath (pre +:+ f) n = pre +:+ g /\ plain_name g.
Proof.
  intros Hp (_ & _ & _ & Hf) Hn. unfold numberedPath, Ext. rewrite after_slash_app by done.
  destruct (last_dot f) as [e|] eqn:E; simpl.
  - apply last_dot_suffix in E as [st ->]. rewrite contains_app in Hf. apply orb_false_iff in Hf as [Hst He].
    rewrite <-(append_assoc pre st e), TrimSuffix_app. exists (st +:+ "-" +:+ pretty (Z.of_nat n) +:+ e).
    rewrite append_assoc. split; [done|]. apply dash_plain; [done|]. rewrite contains_app, He, numbered_plain; done.
  - assert (Ht : TrimSuffix (pre +:+ f) "" = pre +:+ f).
    { pose proof (TrimSuffix_app (pre +:+ f) "") as H. by rewrite append_nil_r in H. }
    rewrite Ht. exists (f +:+ "-" +:+ pretty (Z.of_nat n) +:+ ""). rewrite append_assoc. split; [done|].
    apply dash_plain; [done|]. rewrite append_nil_r. by apply numbered_plain.
Qed.

Section confined.
Context {OS : Os} {S : Type}.

Lemma place_from_confined attempts : forall n dir f staged w path e w', plain_name f -> (n + attempts <= 100)%nat ->
  place_from (S := S) attempts n (Join dir f) staged w = (Ok (path, e), w') -> inside dir path.
Proof.
  induction attempts as [|attempts IH]; intros n dir f staged w path e w' Hf Hn; cbn [place_from]; [done|].
  intros (r & w1 & _ & (r2 & w2 & _ & H)%bind_ok)%bind_ok. destruct r2 as [u|e2].
  - apply bind_ok in H as (r3 & w3 & _ & H). destruct (Join_inside dir f Hf) as (Hi & pre & Ep & Hpre & Hg).
    assert (Hc : inside dir (if (0 <? n)%nat then numberedPath (Join dir f) n else Join dir f)).
    { destruct (0 <? n)%nat; [|done]. rewrite Ep. destruct (numberedPath_plain pre f n) as (g & -> & ?); [done..|lia|]. by apply Hg. }
    by destruct r3; apply ret_ok in H as [[= -> _] _].
  - case_bool_decide; [|done]. eapply IH; [done| |exact H]. lia.
Qed.

(** C36: Whatever name the sender gave the file, and however many names were taken,
    the path [placeFile] reports is a plain name directly in the output
    directory. *)
Theorem placed_inside_directory (opts : OpenPaths) (filename staged : string) (w w' : World (CliState S)) (path : string) (e : option err) :
  placeFile opts filename staged w = (Ok (path, e), w') -> inside (op_OutputDir opts) path.
Proof. apply place_from_confined; [apply safeFilename_plain|lia]. Qed.
End confined.
