(* ===== verification/ClientProofs.v ===== *)
(** * The body of an open, and the size the client expects

    Reading an [exactBody] in whatever pieces it arrives yields the recorded
    number of bytes or an error, and the client's bound on a text secret is the
    server's. *)

From S2P Require Import Prelude GoStrings Codec World ObjectStorage AgeFormat Http RateLimit Config Url ClientCrypto ShareLink Files Client CliOpen.

Definition flat (chunks : list string) : string := foldr String.append "" chunks.

Lemma take_bytes_0 s : take_bytes 0 s = "".
Proof. by destruct s. Qed.
Lemma take_bytes_all s : take_bytes (String.length s) s = s.
Proof. induction s as [|a s IH]; [done|]. change (String.String a (take_bytes (String.length s) s) = String.String a s). by rewrite IH. Qed.
Lemma take_drop_bytes k s : take_bytes k s +:+ drop_bytes k s = s.
Proof.
  revert s. induction k as [|k IH]; intros [|a s]; try done.
  change (String.String a (take_bytes k s +:+ drop_bytes k s) = String.String a s). by rewrite IH.
Qed.
Lemma take_bytes_length k s : (k <= String.length s)%nat -> String.length (take_bytes k s) = k.
Proof.
  revert s. induction k as [|k IH]; intros [|a s] H; simpl in H; try done; [lia|].
  change (S (String.length (take_bytes k s)) = S k). rewrite IH; lia.
Qed.
Lemma take_bytes_app s t n : take_bytes (String.length s + n) (s +:+ t) = s +:+ take_bytes n t.
Proof.
  induction s as [|a s IH]; [done|].
  change (String.String a (take_bytes (String.length s + n) (s +:+ t)) = String.String a (s +:+ take_bytes n t)). by rewrite IH.
Qed.
Lemma drop_bytes_ne k c : (k < String.length c)%nat -> drop_bytes k c <> "".
Proof. revert c. induction k as [|k IH]; intros [|a c]; simpl; try done; try lia. intros. apply IH. lia. Qed.

(** One piece less to read. *)
Lemma exact_reading_app size data rest e : strlen data <= size ->
  exact_reading size (data +:+ rest) e =
  MkReading (data +:+ released (exact_reading (size - strlen data) rest e)) (failure (exact_reading (size - strlen data) rest e)).
Proof.
  intros Hd. unfold exact_reading. rewrite strlen_app, Nat2Z.inj_add.
  destruct (Z.ltb_spec size (strlen data + strlen rest)), (Z.ltb_spec (size - strlen data) (strlen rest)); try lia; simpl.
  - f_equal. replace (Z.to_nat size) with (String.length data + Z.to_nat (size - strlen data))%nat by lia. by rewrite take_bytes_app.
  - destruct (Z.ltb_spec (strlen data + strlen rest) size), (Z.ltb_spec (strlen rest) (size - strlen data)); try lia; done.
Qed.

Lemma source_read_spec k c cs e : (0 < k)%nat -> c <> "" ->
  exists data cs', source_read k (MkSource (c :: cs) e) = (data, None, MkSource cs' e) /\
    data <> "" /\ (String.length data <= k)%nat /\ data +:+ flat cs' = flat (c :: cs) /\
    (Forall (fun c => c <> "") cs -> Forall (fun c => c <> "") cs').
Proof.
  intros Hk Hc. unfold source_read. cbn [so_chunks so_end]. destruct (Nat.ltb_spec k (String.length c)).
  - exists (take_bytes k c), (drop_bytes k c :: cs). split; [done|]. rewrite take_bytes_length by lia. split_and!; [|lia| |].
    + intros E. pose proof (take_bytes_length k c) as Hl. rewrite E in Hl. simpl in Hl. lia.
    + simpl. by rewrite <-append_assoc, take_drop_bytes.
    + constructor; [by apply drop_bytes_ne|done].
  - exists c, cs. split_and!; [done|done|lia|done|done].
Qed.

Lemma drain_spec k (Hk : (0 < k)%nat) e : forall fuel chunks size, 0 <= size ->
  Forall (fun c => c <> "") chunks -> (String.length (flat chunks) < fuel)%nat ->
  drain fuel k (MkExact (MkSource chunks e) size) = Some (exact_reading size (flat chunks) e).
Proof.
  induction fuel as [|fuel IH]; intros chunks size Hs Hne Hf; [lia|]. cbn [drain]. unfold exact_read. cbn [eb_remaining eb_body].
  destruct (Z.eqb_spec size 0) as [->|Hz].
  { destruct chunks as [|c cs]; [done|]. apply Forall_cons in Hne as [Hc Hne].
    destruct (source_read_spec 1 c cs e) as (data & cs' & -> & Hd & _ & Hfl & _); [lia|done|].
    assert (0 < String.length data)%nat by (destruct data; simpl; [done|lia]).
    destruct (Nat.ltb_spec 0 (String.length data)); [|lia]. unfold exact_reading.
    destruct (Z.ltb_spec 0 (strlen (flat (c :: cs)))); [by rewrite take_bytes_0|].
    rewrite <-Hfl, strlen_app in *. lia. }
  set (k' := if size <? Z.of_nat k then Z.to_nat size else k).
  assert (Hk' : (0 < k')%nat /\ Z.of_nat k' <= size) by (unfold k'; destruct (Z.ltb_spec size (Z.of_nat k)); lia).
  destruct chunks as [|c cs].
  - unfold source_read, exact_reading. cbn [so_chunks so_end strlen flat foldr String.length].
    destruct (Z.ltb_spec size (Z.of_nat 0)); [lia|]. destruct (Z.ltb_spec (Z.of_nat 0) size); [|lia].
    destruct e; [|done]. rewrite Z.sub_0_r. destruct (Z.ltb_spec 0 size); [done|lia].
  - apply Forall_cons in Hne as [Hc Hne]. destruct (source_read_spec k' c cs e) as (data & cs' & -> & Hd & Hl & Hfl & Hall); [lia|done|].
    assert (0 < String.length data)%nat by (destruct data; simpl; [done|lia]).
    rewrite <-Hfl in Hf |- *. rewrite strlen_app in Hf. rewrite IH; [|lia|auto|lia]. simpl. by rewrite exact_reading_app by lia.
Qed.

(** Read in pieces of any size, from chunks of any size, the body of an open
    yields exactly the recorded number of bytes and ends, or yields an error:
    short, long, or the network's. *)
Theorem exact_body_exact (k fuel : nat) (chunks : list string) (e : read_error) (size : Z) :
  (0 < k)%nat -> 0 <= size -> Forall (fun c => c <> "") chunks -> (String.length (flat chunks) < fuel)%nat ->
  exists r, drain fuel k (MkExact (MkSource chunks e) size) = Some r /\
    (failure r = None <-> strlen (flat chunks) = size) /\
    (failure r = None -> released r = flat chunks) /\ strlen (released r) <= size.
Proof.
  intros Hk Hs Hne Hf. exists (exact_reading size (flat chunks) e). split; [by apply drain_spec|]. unfold exact_reading.
  destruct (Z.ltb_spec size (strlen (flat chunks))); simpl.
  - split_and!; [split; [done|lia]|done|]. rewrite take_bytes_length; lia.
  - destruct (Z.ltb_spec (strlen (flat chunks)) size); simpl; (split_and!; [split; (done || lia)|done|lia]).
Qed.

(** The client's copy of the size formula is the server's. *)
Theorem client_size_formula (n : Z) : ageFileBytes n = MaxCiphertextBytes n.
Proof.
  unfold ageFileBytes, MaxCiphertextBytes, AgeHeaderAllowanceBytes, agePayloadNonceBytes, ageTagBytes, ageChunkBytes.
  by replace (n + 64 * 1024 - 1) with (n + 65535) by lia.
Qed.

Lemma exact_body_exact_witness :
  exists r, drain 20 3 (MkExact (MkSource ["ciph"; "ertext"] EOF) 10) = Some r /\ released r = "ciphertext".
Proof.
  destruct (exact_body_exact 3 20 ["ciph"; "ertext"] EOF 10) as (r & E & H1 & H2 & _); [lia|lia|by repeat constructor|simpl; lia|].
  exists r. split; [exact E|]. apply H2, H1. reflexivity.
Defined.
