(* ===== verification/CliWitnesses.v ===== *)
(** * Instances for the command-line client

    A transparent age library that satisfies the laws of [AgeSpec], a small
    file system, and a deployment that holds one secret, on which the theorems
    about the client are applied. *)

From S2P Require Import Prelude GoStrings Codec World ObjectStorage AgeFormat Http RateLimit Config Url Json GoJson ClientCrypto ShareLink Flags Files Client GoDuration CliSend CliOpen Cli FilesProofs CliProofs CliRunProofs PathProofs.
From stdpp Require Import pretty.
#[local] Open Scope Z_scope.

(** ** A transparent age library *)
Definition key_char (b : bool) : string := if b then "Q" else "Z".
Definition open_with (header file : string) : option string :=
  if has_prefix header file then Some (drop_bytes (String.length header) file) else None.

Definition clear_age : Age := {|
  HybridIdentity := bool;
  identity_string b := IdentityPrefix +:+ key_char b;
  ParseHybridIdentity s :=
    if bool_decide (s = IdentityPrefix +:+ "Q") then Some true
    else if bool_decide (s = IdentityPrefix +:+ "Z") then Some false else None;
  GenerateHybridIdentity t := Some (Nat.even t);
  age_encrypt t b p := Ok (ageMagic +:+ key_char b +:+ p);
  age_decrypt b src :=
    match open_with (ageMagic +:+ key_char b) (released src) with
    | Some p => Ok (MkReading p (failure src))
    | None => Err NoIdentityMatch
    end;
  scrypt_encrypt t w pass p := Ok (ageMagic +:+ pass +:+ Json.char 0 p);
  scrypt_decrypt m pass f :=
    match open_with (ageMagic +:+ pass +:+ Json.char 0 "") f with
    | Some p => Ok (MkReading p None)
    | None => Err NoIdentityMatch
    end;
|}.
#[export] Existing Instance clear_age.

Lemma drop_bytes_app s t : drop_bytes (String.length s) (s +:+ t) = t.
Proof. induction s as [|c s IH]; [by destruct t|]. exact IH. Qed.
Lemma open_with_app header p : open_with header (header +:+ p) = Some p.
Proof. unfold open_with. by rewrite has_prefix_app, drop_bytes_app. Qed.

#[export] Instance clear_age_spec : AgeSpec.
Proof.
  split.
  - by intros [].
  - by intros [].
  - by intros [].
  - intros t b p f [= <-]. cbn [age_decrypt clear_age released failure]. by rewrite <-append_assoc, open_with_app.
  - intros t b p f [= <-]. apply has_prefix_app.
  - intros t b p f [= <-]. unfold age_size. rewrite !strlen_app. destruct b; cbn [key_char];
      change (String.length ageMagic) with 22%nat; cbn [String.length]; lia.
  - intros t w m pass p f [= <-] _. cbn [scrypt_decrypt clear_age].
    replace (ageMagic +:+ pass +:+ Json.char 0 p) with ((ageMagic +:+ pass +:+ Json.char 0 "") +:+ p) by (by rewrite !append_assoc).
    by rewrite open_with_app.
  - intros t w pass p f [= <-]. apply has_prefix_app.
Qed.

(** ** A file system and a deployment *)
#[export] Instance calm_env : Env.
Proof.
  refine {| clk _ := 0; db_fault _ := false; rand_bytes _ n := Some (repeat_byte 7 n) |}.
  intros t n s [= <-]. induction n as [|n IH]; simpl; congruence.
Defined.

#[export] Instance calm_os : Os := {|
  resolve p := p; stat_dir _ := Ok true; temp_dir := "/tmp"; temp_part t := pretty t;
  os_fault _ := None; remove_fault _ := None; partial_write _ := 0%nat;
|}.

Definition stored : string := ageMagic +:+ "Q" +:+ "the secret".

(** One secret of the given kind; its identity is in the link. *)
#[export] Instance deployment : Network string := fun req kind =>
  if bool_decide (cq_Method req = "POST")
  then (Some (MkResp 200 [("Flick-Kind", kind); ("Flick-Encrypted-Filename", Base64.encode Base64.StdEncoding (ageMagic +:+ "Q" +:+ "..\notes.txt"))]
                (RawBody (MkStream stored true))), kind)
  else (Some (MkResp 200 [] (JsonBody (JObject [("kind", JString kind)]))), kind).

#[export] Instance deployment_codec : ClientCodec := {|
  marshal_create r := cs_Ciphertext r;
  marshal_open p := default "" p;
  marshal_empty := "{}";
  decode_limits _ := None;
  decode_created _ := Some (MkCreated "id" "later" None);
  decode_metadata b :=
    match b with
    | JsonBody (JObject [(_, JString kind)]) => Some (MkMeta "id" kind None (strlen stored) "later")
    | _ => None
    end;
  decode_finalized _ := Some true;
  decode_api_error _ := "";
  body_bytes b := match b with RawBody s => s | _ => MkStream "" true end;
|}.

Definition files0 : FS := MkFS {[ "notes.txt" := 0%nat ]} {[ 0%nat := "old" ]} 1.
Definition world0 (kind : string) : World (CliState string) := MkWorld (MkCli files0 kind []) 0 0 [].
Definition link0 : ShareLink := MkLink "http://flick" "id" (Some true).
Definition open0 (output : string) : OpenOptions (S := string) := MkOpen link0 None (MkPaths output ".").

Lemma prompt0 output : prompt_ok (open0 output).
Proof. by intros p w r w'. Qed.

(** A file secret named like a file that is there is saved beside it. *)
Lemma open_never_overwrites_witness : exists res w',
  Open (NewClient "http://flick/") (open0 "") (world0 "file") = (Ok (res, None), w') /\
  or_WrittenPath res = "notes-1.txt" /\ entries (fs (db w')) !! "notes.txt" = Some 0%nat /\ inodes (fs (db w')) !! 0%nat = Some "old".
Proof.
  destruct (Open (NewClient "http://flick/") (open0 "") (world0 "file")) as [r w'] eqn:E.
  destruct (open_never_overwrites _ _ (prompt0 "") _ _ _ "notes.txt" 0%nat E) as [H1 H2]; [done|simpl; lia|].
  assert (Hr : match r with Ok (res, None) => or_WrittenPath res = "notes-1.txt" | _ => False end).
  { replace r with (Open (NewClient "http://flick/") (open0 "") (world0 "file")).1 by (rewrite E; reflexivity). vm_compute. repeat split. }
  destruct r as [[res [e|]]|e]; [destruct Hr| |destruct Hr]. exists res, w'. exact (conj eq_refl (conj Hr (conj H1 H2))).
Defined.

Lemma open_saves_whole_or_nothing_witness : exists res w',
  Open (NewClient "http://flick/") (open0 "out.txt") (world0 "text") = (Ok (res, None), w') /\
  content_at (fs (db w')) "out.txt" = Some (or_Plaintext res) /\ or_Plaintext res = "the secret".
Proof.
  destruct (Open (NewClient "http://flick/") (open0 "out.txt") (world0 "text")) as [r w'] eqn:E.
  pose proof (open_saves_whole_or_nothing _ _ (prompt0 "out.txt") _ _ _ E) as H.
  assert (Hr : match r with
    | Ok (res, None) => or_WrittenPath res = "out.txt" /\ or_Kind res = "text" /\ or_Plaintext res = "the secret" | _ => False end).
  { replace r with (Open (NewClient "http://flick/") (open0 "out.txt") (world0 "text")).1 by (rewrite E; reflexivity). vm_compute. repeat split. }
  destruct r as [[res [e|]]|e]; [destruct Hr| |destruct Hr]. destruct Hr as (Hw & Hk & Hp). exists res, w'.
  split; [reflexivity|]. split; [|exact Hp].
  destruct H as (id & opened & _ & _ & _ & _ & _ & _ & _ & _ & Ht & Hs & _ & _).
  destruct (Hs "out.txt") as (p & Hu & Hc); [left; symmetry; exact Hw|discriminate|]. rewrite Hc.
  rewrite Ht in Hu by (rewrite Hk; discriminate). injection Hu as ->. reflexivity.
Defined.

Lemma open_consumes_last_witness : exists r w' req,
  Open (NewClient "http://flick/") (open0 "") (world0 "text") = (r, w') /\ is_ok r = true /\
  cq_URL req = "http://flick/api/secrets/id/open" /\ exists probes, gets probes /\ sent (db w') = probes ++ [req].
Proof.
  destruct (Open (NewClient "http://flick/") (open0 "") (world0 "text")) as [r w'] eqn:E.
  assert (Hr : is_ok r = true).
  { replace r with (Open (NewClient "http://flick/") (open0 "") (world0 "text")).1 by (rewrite E; reflexivity). vm_compute. reflexivity. }
  destruct (open_consumes_last _ _ (prompt0 "") _ _ _ E) as (probes & Hg & [[_ [e ->]]|(h & b & _ & _ & _ & _ & _ & Hs)]); [discriminate|].
  eexists r, w', _. split; [reflexivity|]. split; [exact Hr|]. split; [|exists probes; split; [exact Hg|exact Hs]]. vm_compute. reflexivity.
Defined.

(** A staged file whose sender named it after a path outside the directory. *)
Definition staged0 : World (CliState string) :=
  MkWorld (MkCli (MkFS {[ ".flick-partial-1" := 0%nat; "out/passwd" := 1%nat ]} {[ 0%nat := "new"; 1%nat := "old" ]} 2) "file" []) 0 0 [].

Lemma placed_inside_directory_witness : exists path w',
  placeFile (MkPaths "" "out") "../../etc/passwd" ".flick-partial-1" staged0 = (Ok (path, None), w') /\
  path = "out/passwd-1" /\ inside "out" path.
Proof.
  destruct (placeFile (MkPaths "" "out") "../../etc/passwd" ".flick-partial-1" staged0) as [r w'] eqn:E.
  assert (Hr : match r with Ok (path, None) => path = "out/passwd-1" | _ => False end).
  { replace r with (placeFile (MkPaths "" "out") "../../etc/passwd" ".flick-partial-1" staged0).1 by (rewrite E; reflexivity).
    vm_compute. reflexivity. }
  destruct r as [[path [e|]]|e]; [destruct Hr| |destruct Hr]. exists path, w'.
  exact (conj eq_refl (conj Hr (placed_inside_directory (MkPaths "" "out") _ _ _ _ _ _ E))).
Defined.

Lemma share_link_roundtrip_witness :
  ParseShareLink (BuildShareLink "https://flick.example:8443/app/" "Zm9v_bar-1" (Some true)) =
    Ok (MkLink "https://flick.example:8443/app" "Zm9v_bar-1" (Some true)).
Proof. apply (share_link_roundtrip "https" "flick.example:8443" "/app"); [split; (split; [by right|by vm_compute]) || by vm_compute|by vm_compute..]. Defined.

Lemma hoisted_flags_parse_witness :
  Parse_args send_flags (hoistFlags send_flags ["the text"; "-ttl"; "24h"; "--json"]) = Ok ([("ttl", "24h"); ("json", "true")], ["the text"]).
Proof.
  apply (hoisted_flags_parse send_flags ["the text"; "-ttl"; "24h"; "--json"] [("ttl", "24h"); ("json", "true")] ["the text"] None);
    [by vm_compute|by right].
Defined.

(** ** The commands *)
#[export] Instance no_terminal : Terminal := {| IsTerminal _ := false; ReadPassword s _ := (Err ErrEOF, s) |}.
#[export] Instance no_environ : Environ := fun _ => None.
Definition tty0 : Tty := MkTty "" None "before|" [].
Definition world1 (kind : string) : World (CliState (string * Tty)) := MkWorld (MkCli files0 (kind, tty0) []) 0 0 [].
Definition args0 : list string := ["http://flick/s/id#key=" +:+ IdentityPrefix +:+ "Q"; "-output-dir"; "."].

(** A text secret is on standard output. *)
Lemma open_command_accounts_witness : exists w' p,
  runOpen args0 (world1 "text") = (Ok tt, w') /\ accounted p (world1 "text") (Ok tt) w' /\
  stdout (peer (db w')).2 = "before|the secret".
Proof.
  destruct (runOpen args0 (world1 "text")) as [r w'] eqn:E.
  assert (Hr : r = Ok tt).
  { replace r with (runOpen args0 (world1 "text")).1 by (rewrite E; reflexivity). vm_compute. reflexivity. }
  subst r. destruct (open_command_accounts _ _ _ _ E) as [(_ & _ & _ & _ & _ & _ & _ & p & _ & _ & _ & _ & Ha)|[Hx _]]; [|by destruct Hx].
  exists w', p. split; [reflexivity|]. split; [exact Ha|].
  replace w' with (runOpen args0 (world1 "text")).2 by (rewrite E; reflexivity). vm_compute. reflexivity.
Defined.
