(* ===== verification/HttpApi.v ===== *)
(** * The handlers of the API (src/internal/httpapi/secrets.go, requests.go)

    Each handler is a computation that always answers: the errors of the stores
    become responses.  What the handlers take from [encoding/json] and from the
    request package's strict decoder is the class [HttpCodec]: a body decodes to
    the value of a request structure, or does not. *)

From S2P Require Import Prelude GoStrings World GoTime Codec Schema AgeFormat Outbox ObjectStorage SecretStore RequestStore RequestCleanup Reaper Http.
From stdpp Require Import pretty.
#[local] Open Scope Z_scope.

Definition createBodyOverheadLimit : Z := 64 * 1024.

Record createSecretRequest := MkCreateReq {
  cr_Kind : string;
  cr_Ciphertext : string;
  cr_KDF : KDFParams;
  cr_Proof : string;
  cr_WrappedIdentity : option string;
  cr_EncryptedFilename : option string;
  cr_ContentType : option string;
  cr_SizeBytes : Z;
  cr_TTLSeconds : Z;
  cr_MaxViews : Z;
}.

(** [decoder.Decode] of a structure with unknown fields disallowed, and whether
    the next [Decode] found the end of the body. *)
Class HttpCodec := {
  decode_create : string -> option (createSecretRequest * bool);
  decode_open : string -> option (string * bool);
  decode_cleanup : string -> option (string * string * bool);
  decode_ack : string -> option (string * string * bool);
  (** [json.Unmarshal] of an object into a map: its keys *)
  object_keys : string -> option (list string);
  (** [Decode] into a map, [None] for [null]: its keys *)
  decode_map : string -> option (option (list string) * bool);
  (** [requests.DecodeObject] *)
  decode_request_create : string -> option (string * option Z);
  decode_submit : string -> option SubmitInput;
  decode_upload : string -> option UploadInput;
  decode_attempt : string -> option AttemptInput;
}.

Record Server := MkServer {
  sv_secrets : SecretStore.Store;
  sv_requests : option RequestStore.Options;
  sv_outbox : option outboxEnqueuer;
  sv_payloadInlineMaxBytes : Z;
  sv_advertisedInlineMaxBytes : Z;
  sv_maxFileBytes : Z;
  sv_allowedOrigin : string;
  sv_internalToken : string;
  sv_metricsToken : string;
  sv_pipeRelayEnabled : bool;
  sv_natsConnected : option (nat -> bool);   (** the broker's liveness at a tick, when it is wired *)
}.

(** ** Errors *)
Definition writeSecretError (e : err) : Response :=
  match e with
  | SecretsErr ErrNotFound => writeError 404 "not_found" "secret was not found"
  | SecretsErr ErrConsumed => writeError 410 "consumed" "secret has already been consumed"
  | SecretsErr ErrExpired => writeError 410 "expired" "secret has expired"
  | SecretsErr ErrInvalidAccess => writeError 403 "invalid_access" "access proof is invalid"
  | SecretsErr ErrPayloadTooLarge => writeError 413 "payload_too_large" "encrypted payload is too large"
  | SecretsErr ErrUnsupportedKind => writeError 400 "unsupported_kind" "only text and file secrets are supported"
  | SecretsErr ErrUnsupportedViews => writeError 400 "unsupported_max_views" "only one-time secrets are supported"
  | SecretsErr ErrNotPending => writeError 409 "not_pending" "secret is not pending upload"
  | SecretsErr ErrObjectMissing => writeError 422 "object_missing" "uploaded object is missing or oversized"
  | SecretsErr ErrInvalidInput => writeError 400 "invalid_secret" "secret metadata is invalid"
  | _ => writeError 500 "internal_error" "request failed"
  end.

Definition writeOpenError (e : err) : Response :=
  match e with
  | SecretsErr ErrInvalidAccess => writeError 403 "invalid_access" "access proof is invalid"
  | _ => writeSecretError e
  end.

Definition writeManagementError (e : err) : Response :=
  match e with
  | SecretsErr ErrManagementUnavailable => writeError 404 "management_unavailable" "management link is unavailable"
  | _ => writeError 503 "management_status_failed" "management status is temporarily unavailable"
  end.

Definition writeRequestError (e : err) : Response :=
  match e with
  | RequestsErr ErrUnavailable => writeError 404 "request_unavailable" "request is unavailable"
  | RequestsErr ErrInvalid => writeError 400 "invalid_request" "input does not match the request contract"
  | RequestsErr ErrTooLarge => writeError 413 "payload_too_large" "request payload exceeds the configured limit"
  | RequestsErr ErrConflict => writeError 409 "request_conflict" "request state or attempt conflicts"
  | _ => writeError 503 "storage_unavailable" "request storage is temporarily unavailable"
  end.

(** Go's [if err != nil { write the error; return }]. *)
Definition or_error {A} (m : M ApiDB A) (onerr : err -> Response) (k : A -> M ApiDB Response) : M ApiDB Response :=
  let! r := attempt m in
  match r with Err e => ret (onerr e) | Ok a => k a end.

Definition too_large : Response := writeError 413 "payload_too_large" "request body is too large".
Definition sensitive : Response :=
  writeError 400 "sensitive_field_forbidden" "passphrases, plaintext, and keys must not be sent to the API".
Definition bad_contract (what : string) : Response :=
  writeError 400 "invalid_json" ("request body does not match the " +:+ what +:+ " contract").
Definition not_one_object : Response :=
  writeError 400 "invalid_json" "request body must contain exactly one JSON object".
Definition bad_proof : Response := writeError 400 "invalid_access_proof" "access proof must be base64 encoded".
Definition no_store (r : Response) : Response := with_header "Cache-Control" "no-store" r.

Section secrets.
Context {ENV : Env} {HC : HttpCodec} (s : Server).

Definition createSecretBodyLimit : Z :=
  wrap64 (wrap64 (Z.quot (wrap64 (sv_payloadInlineMaxBytes s + 2)) 3 * 4) + createBodyOverheadLimit).

Definition sensitive_key (k : string) : bool :=
  bool_decide (k ∈ ["passphrase"; "password"; "plaintext"; "key"; "derived_key"; "secret"]).
Definition hasSensitiveField (body : string) : bool :=
  match object_keys body with None => false | Some ks => existsb sensitive_key ks end.

Definition normalizeMaxViews (v : Z) : Z := if v =? 0 then 1 else v.

(** The start of the handlers that take a JSON body. *)
Definition read_body {A} (limit : Z) (b : stream) (decode : string -> option (A * bool)) (what : string)
    (k : A -> M ApiDB Response) : M ApiDB Response :=
  match read_all limit b with
  | ReadTooLarge | ReadFailed => ret too_large
  | ReadOk body =>
      if hasSensitiveField body then ret sensitive
      else match decode body with
           | None => ret (bad_contract what)
           | Some (_, false) => ret not_one_object
           | Some (x, true) => k x
           end
  end.

(** A proof is optional; one that is sent must be well formed. *)
Definition optional_proof (proof : string) (k : string -> M ApiDB Response) : M ApiDB Response :=
  if bool_decide (proof = "") then k ""
  else match hashAccessProof proof with None => ret bad_proof | Some h => k h end.

Definition createLargeSecret (req : createSecretRequest) : M ApiDB Response :=
  optional_proof (cr_Proof req) (fun h =>
    or_error (CreateLarge (sv_secrets s) (MkCreateLargeInput (cr_Kind req) (cr_KDF req) h (cr_WrappedIdentity req)
                (cr_EncryptedFilename req) (cr_ContentType req) (cr_SizeBytes req) (cr_TTLSeconds req)
                (normalizeMaxViews (cr_MaxViews req))))
      writeSecretError (fun res =>
    ret (writeJSON 201 (JObject [
      ("management_token", JString (lr_ManagementToken res));
      ("management_expires_at", JString (formatTime (lr_ExpiresAt res)));
      ("id", JString (lr_ID res));
      ("expires_at", JString (formatTime (lr_ExpiresAt res)));
      ("upload", JObject [
        ("url", JString (URL (lr_Upload res)));
        ("method", JString (Method (lr_Upload res)));
        ("expires_at", JString (formatTime (UploadExpiresAt (lr_Upload res))));
        ("headers", JObject (prod_map id JString <$> Headers (lr_Upload res)))])])))).

Definition createSecret (r : Request) : M ApiDB Response :=
  let! resp := read_body createSecretBodyLimit (rq_Body r) decode_create "create secret" (fun req =>
    if bool_decide (cr_Ciphertext req = "") then createLargeSecret req
    else match Base64.decode Base64.StdEncoding (cr_Ciphertext req) with
    | None => ret (writeError 400 "invalid_ciphertext" "ciphertext must be base64 encoded")
    | Some ciphertext =>
        optional_proof (cr_Proof req) (fun h =>
          or_error (SecretStore.Create (sv_secrets s) (MkCreateInput (cr_Kind req) ciphertext (cr_KDF req) h
                      (cr_WrappedIdentity req) (cr_EncryptedFilename req) (cr_ContentType req) (cr_SizeBytes req)
                      (cr_TTLSeconds req) (normalizeMaxViews (cr_MaxViews req))))
            writeSecretError (fun created =>
          ret (writeJSON 201 (JObject [
            ("management_token", JString (ManagementToken created));
            ("management_expires_at", JString (formatTime (ExpiresAt created)));
            ("id", JString (ID created));
            ("expires_at", JString (formatTime (ExpiresAt created)))]))))
    end) in
  ret (no_store resp).

Definition finalizeSecret (id : string) : M ApiDB Response :=
  or_error (SecretStore.Finalize (sv_secrets s) id) writeSecretError (fun _ =>
  ret (writeJSON 200 (JObject [("finalized", JBool true); ("id", JString id)]))).

Definition kdf_json (k : KDFParams) : json :=
  JObject [("algorithm", JString (Algorithm k)); ("salt", JString (Salt k));
           ("iterations", JInt (Iterations k)); ("key_length_bits", JInt (KeyLengthBits k))].

Definition getSecretMetadata (id : string) : M ApiDB Response :=
  or_error (SecretStore.Metadata id) writeSecretError (fun m =>
  ret (writeJSON 200 (JObject (
    [("id", JString (md_ID m)); ("kind", JString (md_Kind m))] ++
    (if bool_decide (Algorithm (md_AccessKDF m) <> "")
     then [("access", JObject [("kdf", kdf_json (md_AccessKDF m))])] else []) ++
    [("size_bytes", JInt (md_SizeBytes m)); ("expires_at", JString (formatTime (md_ExpiresAt m)))])))).

Definition optional_header (name : string) (v : option string) : list (string * string) :=
  match v with Some x => [(name, x)] | None => [] end.

Definition opened_response (sec : Secret) (b : stream) : Response :=
  MkResp 200
    ([("Cache-Control", "no-store"); ("Content-Type", "application/octet-stream");
      ("Content-Length", pretty (SizeBytes sec)); ("Flick-Kind", SecretKind sec);
      ("Flick-Expires-At", formatTime (ExpiresAt sec))] ++
     optional_header "Flick-Content-Type" (ContentType sec) ++
     optional_header "Flick-Encrypted-Filename" (EncryptedFilename sec) ++
     optional_header "Flick-Wrapped-Identity" (WrappedIdentity sec))
    (RawBody b).

Definition openSecret (id : string) (r : Request) : M ApiDB Response :=
  read_body createBodyOverheadLimit (rq_Body r) decode_open "open secret" (fun proof =>
    optional_proof proof (fun h =>
      match sv_outbox s with
      | None => ret (writeOpenError (Fail "outbox store is required"))
      | Some ob =>
          or_error (openAndEnqueueCleanup (sv_secrets s) ob id h) writeOpenError (fun sec =>
          match Body sec with
          | None => ret (opened_response sec (MkStream (Ciphertext sec) true))
          | Some b =>
              do! enqueueOpenedObjectCleanup ob (StorageKey sec) in
              ret (opened_response sec b)
          end)
      end)).

Definition httpValidCleanupReason (reason : string) : bool :=
  bool_decide (reason ∈ ["consumed"; "expired"; "orphan"; "manual"; "retry"]).

Definition cleanupSecret (id : string) (r : Request) : M ApiDB Response :=
  read_body createBodyOverheadLimit (rq_Body r) decode_cleanup "cleanup secret" (fun x =>
    if bool_decide (x.1 = "") || negb (httpValidCleanupReason x.2)
    then ret (writeError 400 "invalid_cleanup" "cleanup metadata is invalid")
    else or_error (Cleanup id) writeSecretError (fun cleaned =>
         ret (writeJSON 200 (JObject [("id", JString id); ("cleaned", JBool cleaned)])))).

(** ** Management *)
Definition outcome_text (o : outcome) : string :=
  match o with Opened => "opened" | Locked => "locked" | Cancelled => "cancelled" | Unavailable => "unavailable" end.
Definition status_text (st : status) : string :=
  match st with
  | StOutcome o => outcome_text o
  | StState Active => "active"
  | StState PendingUpload => "pending_upload"
  end.

Definition managementResponse (st : ManagementStatus) : json :=
  JObject [("id", JString (ms_ID st)); ("status", JString (status_text (ms_Status st)));
           ("expires_at", JString (formatTime (ms_ExpiresAt st)));
           ("management_expires_at", JString (formatTime (ms_ExpiresAt st)));
           ("can_cancel", JBool (ms_CanCancel st))].

Definition getManagementStatus (id : string) (r : Request) : M ApiDB Response :=
  or_error (Management (sv_secrets s) id (managementBearer (rq_Header r))) writeManagementError (fun st =>
  ret (writeJSON 200 (managementResponse st))).

(** The credential is checked before the body is read. *)
Definition revokeSecret (id : string) (r : Request) : M ApiDB Response :=
  let token := managementBearer (rq_Header r) in
  or_error (Management (sv_secrets s) id token) writeManagementError (fun _ =>
  match read_all createBodyOverheadLimit (rq_Body r) with
  | ReadOk body =>
      match decode_map body with
      | Some (Some [], true) =>
          or_error (SecretStore.Revoke (sv_secrets s) id token) writeManagementError (fun res =>
          match res with
          | NotCancellable st =>
              ret (writeJSON 409 (JObject [("error", errorBody "not_cancellable" "Delivery cannot be cancelled");
                                           ("status", managementResponse st)]))
          | Revoked st => ret (writeJSON 200 (managementResponse st))
          end)
      | _ => ret (writeError 400 "invalid_json" "request body must be an empty JSON object")
      end
  | _ => ret (writeError 400 "invalid_json" "request body must be an empty JSON object")
  end).

Definition acknowledgeObjectCleanup (r : Request) : M ApiDB Response :=
  let bad := writeError 400 "invalid_json" "invalid cleanup acknowledgement" in
  match read_all createBodyOverheadLimit (rq_Body r) with
  | ReadOk body =>
      match decode_ack body with
      | Some ((jobID, key), true) =>
          let! res := attempt (
            if has_prefix ObjectPrefix key then
              match sv_requests s with
              | None => throw (RequestsErr ErrStorage)
              | Some _ => RequestCleanup.AcknowledgeObjectCleanup jobID key
              end
            else Reaper.AcknowledgeObjectCleanup jobID key) in
          ret (match res with
               | Err (SecretsErr ErrInvalidInput) | Err (RequestsErr ErrInvalid) =>
                   writeError 400 "invalid_cleanup" "invalid cleanup acknowledgement"
               | Err _ => writeError 503 "cleanup_ack_failed" "cleanup acknowledgement is temporarily unavailable"
               | Ok _ => MkResp 204 [] NoBody
               end)
      | _ => ret bad
      end
  | _ => ret bad
  end.
End secrets.

(** ** Requests (requests.go) *)
Definition readRequestBody (limit : Z) (b : stream) : result string :=
  match read_all limit b with
  | ReadOk x => Ok x
  | ReadTooLarge => rerr ErrTooLarge
  | ReadFailed => rerr ErrInvalid
  end.

Definition state_text (st : request_state) : string :=
  match st with
  | Waiting => "waiting" | Uploading => "uploading" | Submitted => "submitted"
  | ReqConsumed => "consumed" | ReqCancelled => "cancelled" | ReqUnavailable => "unavailable"
  end.

Definition created_json (c : Created) : json :=
  JObject [("id", JString (c_ID c)); ("expires_at", JString (formatTime (c_ExpiresAt c)));
           ("submission_token", JString (SubmissionToken c)); ("retrieval_token", JString (RetrievalToken c))].
Definition instructions_json (i : InstructionsView) : json :=
  JObject [("public_key", JString (i_PublicKey i)); ("fingerprint", JString (i_Fingerprint i));
           ("expires_at", JString (formatTime (i_ExpiresAt i))); ("generation", JInt (i_Generation i));
           ("can_submit", JBool (i_CanSubmit i))].
Definition owner_json (o : OwnerStatus) : json :=
  JObject [("public_key", JString (o_PublicKey o)); ("fingerprint", JString (o_Fingerprint o));
           ("expires_at", JString (formatTime (o_ExpiresAt o))); ("state", JString (state_text (o_State o)))].
Definition receipt_json (r : RequestStore.Receipt) : json :=
  JObject [("generation", JInt (rc_Generation r)); ("state", JString (rc_State r))].
Definition upload_json (u : UploadResult) : json :=
  JObject ([("generation", JInt (ur_Generation u)); ("state", JString (ur_State u))] ++
    match ur_Upload u with
    | Some i => [("upload", JObject [("url", JString (URL i)); ("method", JString (Method i));
                   ("expires_at", JString (formatTime (UploadExpiresAt i)));
                   ("headers", JObject (prod_map id JString <$> Headers i))])]
    | None => [] end ++
    match ur_ReservationExpiresAt u with
    | Some t => [("reservation_expires_at", JString (formatTime t))] | None => [] end).

Section requests.
Context {ENV : Env} {RC : RequestCodec} {HC : HttpCodec} (s : Server) (rs : RequestStore.Options).

(** [requestReady]: the rest of a request route, behind its two guards. *)
Definition requestReady (r : Request) (next : RequestStore.Options -> M ApiDB Response) : M ApiDB Response :=
  match sv_requests s with
  | None => ret (writeRequestError (Fail "request store unavailable"))
  | Some store =>
      if bool_decide (rq_RawQuery r <> "") then ret (writeRequestError (RequestsErr ErrInvalid)) else next store
  end.

(** A body that must decode, and one that must be empty. *)
Definition request_body {A} (limit : Z) (r : Request) (decode : string -> option A) (k : A -> M ApiDB Response) :
    M ApiDB Response :=
  match readRequestBody limit (rq_Body r) with
  | Err e => ret (writeRequestError e)
  | Ok body => match decode body with None => ret (writeRequestError (RequestsErr ErrInvalid)) | Some x => k x end
  end.
Definition empty_body (b : string) : option unit := if bool_decide (b = "") then Some tt else None.

Definition answer {A} (m : M ApiDB A) (f : A -> Response) : M ApiDB Response :=
  or_error m writeRequestError (fun a => ret (f a)).

Definition createRequest (r : Request) : M ApiDB Response :=
  request_body 4096 r decode_request_create (fun x =>
    answer (RequestStore.Create rs x.1 x.2) (fun c => writeJSON 201 (created_json c))).

Definition getRequestInstructions (id : string) (r : Request) : M ApiDB Response :=
  answer (RequestStore.Instructions rs id (requestBearer (rq_Header r))) (fun i => writeJSON 200 (instructions_json i)).

Definition submitRequest (id : string) (r : Request) : M ApiDB Response :=
  request_body (createSecretBodyLimit s) r decode_submit (fun i =>
    answer (RequestStore.Submit rs id (requestBearer (rq_Header r)) i) (fun x => writeJSON 200 (receipt_json x))).

Definition getRequestAttempt (id : string) (r : Request) : M ApiDB Response :=
  request_body 1024 r decode_attempt (fun i =>
    answer (RequestStore.Attempt rs id (requestBearer (rq_Header r)) (ai_Generation i) (ai_AttemptToken i))
      (fun x => writeJSON 200 (receipt_json x))).

Definition getRequestOwner (id : string) (r : Request) : M ApiDB Response :=
  answer (RequestStore.Owner rs id (requestBearer (rq_Header r))) (fun o => writeJSON 200 (owner_json o)).

Definition opened_request_response (o : OpenedRequest) : Response :=
  MkResp 200
    ([("Cache-Control", "no-store"); ("Content-Type", "application/octet-stream");
      ("Content-Length", pretty (op_SizeBytes o)); ("Flick-Kind", op_Kind o)] ++
     (if bool_decide (EnvFilename (op_Envelope o) <> "")
      then [("Flick-Encrypted-Filename", EnvFilename (op_Envelope o))] else []))
    (RawBody (op_Body o)).

(** A failure to queue the clean-up is logged. *)
Definition openRequest (id : string) (r : Request) : M ApiDB Response :=
  request_body 4096 r empty_body (fun _ =>
    or_error (RequestStore.Open rs id (requestBearer (rq_Header r))) writeRequestError (fun o =>
    do! (if bool_decide (op_ObjectKey o <> "")
         then do! attempt (RequestStore.FinishOpen rs id (op_ObjectKey o)) in ret tt else ret tt) in
    ret (opened_request_response o))).

Definition revokeRequest (id : string) (r : Request) : M ApiDB Response :=
  request_body 4096 r empty_body (fun _ =>
    answer (RequestStore.Revoke rs id (requestBearer (rq_Header r)))
      (fun _ => writeJSON 200 (JObject [("state", JString "cancelled")]))).

Definition reserveRequest (id : string) (r : Request) : M ApiDB Response :=
  request_body 16384 r decode_upload (fun i =>
    answer (RequestStore.Reserve rs id (requestBearer (rq_Header r)) i) (fun u => writeJSON 200 (upload_json u))).

Definition requestAttemptMutation (id : string) (r : Request) (abandon : bool) : M ApiDB Response :=
  request_body 1024 r decode_attempt (fun i =>
    answer (if abandon then RequestStore.Abandon rs id (requestBearer (rq_Header r)) i
            else RequestStore.Finalize rs id (requestBearer (rq_Header r)) i)
      (fun x => writeJSON 200 (receipt_json x))).
Definition finalizeRequest (id : string) (r : Request) : M ApiDB Response := requestAttemptMutation id r false.
Definition abandonRequest (id : string) (r : Request) : M ApiDB Response := requestAttemptMutation id r true.
End requests.
