(* ===== verification/HttpJson.v ===== *)
(** * The bodies of requests as JSON (src/internal/httpapi, src/internal/requests/validation.go)

    The structures the handlers decode a body into, and [DecodeObject], the
    strict decoder of the request routes: with them [HttpCodec] and
    [RequestCodec] are the rules of package [encoding/json], and what remains a
    parameter is the age library's parser of recipients. *)

From S2P Require Import Prelude GoStrings Codec World GoTime Schema AgeFormat Outbox ObjectStorage SecretStore RequestStore Http RateLimit Config Json JsonProofs GoJson HttpApi.
From stdpp Require Import pretty.
#[local] Open Scope Z_scope.

(** ** Secrets *)
Definition kdf_fields : list (field KDFParams) := [
  ("algorithm", set_string (fun x k => Build_KDFParams x (Salt k) (Iterations k) (KeyLengthBits k)));
  ("salt", set_string (fun x k => Build_KDFParams (Algorithm k) x (Iterations k) (KeyLengthBits k)));
  ("iterations", set_int (fun x k => Build_KDFParams (Algorithm k) (Salt k) x (KeyLengthBits k)));
  ("key_length_bits", set_int (fun x k => Build_KDFParams (Algorithm k) (Salt k) (Iterations k) x))].

(** [accessRequest]. *)
Definition access_fields : list (field (KDFParams * string)) := [
  ("kdf", set_struct true kdf_fields fst (fun k a => (k, a.2)));
  ("proof", set_string (fun x a => (a.1, x)))].

Definition create_fields : list (field createSecretRequest) := [
  ("kind", set_string (fun x r => MkCreateReq x (cr_Ciphertext r) (cr_KDF r) (cr_Proof r) (cr_WrappedIdentity r) (cr_EncryptedFilename r) (cr_ContentType r) (cr_SizeBytes r) (cr_TTLSeconds r) (cr_MaxViews r)));
  ("ciphertext", set_string (fun x r => MkCreateReq (cr_Kind r) x (cr_KDF r) (cr_Proof r) (cr_WrappedIdentity r) (cr_EncryptedFilename r) (cr_ContentType r) (cr_SizeBytes r) (cr_TTLSeconds r) (cr_MaxViews r)));
  ("access", set_struct true access_fields (fun r => (cr_KDF r, cr_Proof r)) (fun x r => MkCreateReq (cr_Kind r) (cr_Ciphertext r) x.1 x.2 (cr_WrappedIdentity r) (cr_EncryptedFilename r) (cr_ContentType r) (cr_SizeBytes r) (cr_TTLSeconds r) (cr_MaxViews r)));
  ("wrapped_identity", set_string_ptr (fun x r => MkCreateReq (cr_Kind r) (cr_Ciphertext r) (cr_KDF r) (cr_Proof r) x (cr_EncryptedFilename r) (cr_ContentType r) (cr_SizeBytes r) (cr_TTLSeconds r) (cr_MaxViews r)));
  ("encrypted_filename", set_string_ptr (fun x r => MkCreateReq (cr_Kind r) (cr_Ciphertext r) (cr_KDF r) (cr_Proof r) (cr_WrappedIdentity r) x (cr_ContentType r) (cr_SizeBytes r) (cr_TTLSeconds r) (cr_MaxViews r)));
  ("content_type", set_string_ptr (fun x r => MkCreateReq (cr_Kind r) (cr_Ciphertext r) (cr_KDF r) (cr_Proof r) (cr_WrappedIdentity r) (cr_EncryptedFilename r) x (cr_SizeBytes r) (cr_TTLSeconds r) (cr_MaxViews r)));
  ("size_bytes", set_int (fun x r => MkCreateReq (cr_Kind r) (cr_Ciphertext r) (cr_KDF r) (cr_Proof r) (cr_WrappedIdentity r) (cr_EncryptedFilename r) (cr_ContentType r) x (cr_TTLSeconds r) (cr_MaxViews r)));
  ("ttl_seconds", set_int (fun x r => MkCreateReq (cr_Kind r) (cr_Ciphertext r) (cr_KDF r) (cr_Proof r) (cr_WrappedIdentity r) (cr_EncryptedFilename r) (cr_ContentType r) (cr_SizeBytes r) x (cr_MaxViews r)));
  ("max_views", set_int (fun x r => MkCreateReq (cr_Kind r) (cr_Ciphertext r) (cr_KDF r) (cr_Proof r) (cr_WrappedIdentity r) (cr_EncryptedFilename r) (cr_ContentType r) (cr_SizeBytes r) (cr_TTLSeconds r) x))].
Definition no_kdf : KDFParams := Build_KDFParams "" "" 0 0.
Definition zero_create : createSecretRequest := MkCreateReq "" "" no_kdf "" None None None 0 0 0.

Definition open_fields : list (field string) := [("access_proof", set_string (fun x _ => x))].
Definition cleanup_fields : list (field (string * string)) := [
  ("job_id", set_string (fun x r => (x, r.2))); ("reason", set_string (fun x r => (r.1, x)))].
Definition ack_fields : list (field (string * string)) := [
  ("job_id", set_string (fun x r => (x, r.2))); ("object_key", set_string (fun x r => (r.1, x)))].

(** ** [DecodeObject] *)

(** The loop over the members: [None] for a member that is not allowed, that
    was seen before or that is null; otherwise the keys that were seen. *)
Fixpoint object_loop (allowed seen : list string) (ms : list member) : option (list string) :=
  match ms with
  | [] => Some seen
  | m :: ms =>
      if negb (bool_decide (mb_key m ∈ allowed)) || bool_decide (mb_key m ∈ seen) then None
      else match mb_value m with VNull => None | _ => object_loop allowed (mb_key m :: seen) ms end
  end.

Definition DecodeObject {A} (fields : list (field A)) (zero : A) (required optional : list string) (data : string) : option A :=
  d ← read_document data;
  match d.1 with
  | DObject ms =>
      seen ← object_loop (required ++ optional) [] ms;
      if negb (at_end d.2) then None
      else if negb (forallb (fun key => bool_decide (key ∈ seen)) required) then None
      else unmarshal_struct fields zero data
  | _ => None
  end.

(** ** Requests *)
Definition request_create_fields : list (field (string * option Z)) := [
  ("public_key", set_string (fun x r => (x, r.2))); ("ttl_seconds", set_int_ptr (fun x r => (r.1, x)))].

Definition submit_fields : list (field SubmitInput) := [
  ("generation", set_int (fun x r => MkSubmitInput x (si_AttemptToken r) (si_Kind r) (si_SizeBytes r) (si_Envelope r) (si_Ciphertext r)));
  ("attempt_token", set_string (fun x r => MkSubmitInput (si_Generation r) x (si_Kind r) (si_SizeBytes r) (si_Envelope r) (si_Ciphertext r)));
  ("kind", set_string (fun x r => MkSubmitInput (si_Generation r) (si_AttemptToken r) x (si_SizeBytes r) (si_Envelope r) (si_Ciphertext r)));
  ("size_bytes", set_int (fun x r => MkSubmitInput (si_Generation r) (si_AttemptToken r) (si_Kind r) x (si_Envelope r) (si_Ciphertext r)));
  ("envelope", set_raw (fun x r => MkSubmitInput (si_Generation r) (si_AttemptToken r) (si_Kind r) (si_SizeBytes r) x (si_Ciphertext r)));
  ("ciphertext", set_string (fun x r => MkSubmitInput (si_Generation r) (si_AttemptToken r) (si_Kind r) (si_SizeBytes r) (si_Envelope r) x))].

Definition upload_fields : list (field UploadInput) := [
  ("generation", set_int (fun x r => MkUploadInput x (ui_AttemptToken r) (ui_Kind r) (ui_SizeBytes r) (ui_Envelope r) (ui_CiphertextSHA256 r)));
  ("attempt_token", set_string (fun x r => MkUploadInput (ui_Generation r) x (ui_Kind r) (ui_SizeBytes r) (ui_Envelope r) (ui_CiphertextSHA256 r)));
  ("kind", set_string (fun x r => MkUploadInput (ui_Generation r) (ui_AttemptToken r) x (ui_SizeBytes r) (ui_Envelope r) (ui_CiphertextSHA256 r)));
  ("size_bytes", set_int (fun x r => MkUploadInput (ui_Generation r) (ui_AttemptToken r) (ui_Kind r) x (ui_Envelope r) (ui_CiphertextSHA256 r)));
  ("envelope", set_raw (fun x r => MkUploadInput (ui_Generation r) (ui_AttemptToken r) (ui_Kind r) (ui_SizeBytes r) x (ui_CiphertextSHA256 r)));
  ("ciphertext_sha256", set_string (fun x r => MkUploadInput (ui_Generation r) (ui_AttemptToken r) (ui_Kind r) (ui_SizeBytes r) (ui_Envelope r) x))].

Definition attempt_fields : list (field AttemptInput) := [
  ("generation", set_int (fun x r => MkAttemptInput x (ai_AttemptToken r)));
  ("attempt_token", set_string (fun x r => MkAttemptInput (ai_Generation r) x))].

Definition envelope_fields : list (field Envelope) := [
  ("version", set_int (fun x e => MkEnvelope x (EnvFilename e)));
  ("encrypted_filename", set_string (fun x e => MkEnvelope (Version e) x))].
Definition envelope_value (e : Envelope) : value :=
  VObject (("version", Json.VInt (Version e)) ::
           if bool_decide (EnvFilename e = "") then [] else [("encrypted_filename", VString (EnvFilename e))]).

(** A structure whose last but one field is a raw message written by
    [json.Marshal], which is copied. *)
Definition marshal_payload (last kind : string) (size : Z) (envelope text : string) : string :=
  "{" +:+ Json.quoted "kind" +:+ ":" +:+ Json.quoted kind +:+ "," +:+ Json.quoted "size_bytes" +:+ ":" +:+ pretty size +:+ "," +:+
  Json.quoted "envelope" +:+ ":" +:+ envelope +:+ "," +:+ Json.quoted last +:+ ":" +:+ Json.quoted text +:+ "}".

(** ** The codecs *)
#[export] Instance json_http : HttpCodec := {|
  decode_create := decode_struct true create_fields zero_create;
  decode_open := decode_struct true open_fields "";
  decode_cleanup := decode_struct true cleanup_fields ("", "");
  decode_ack := decode_struct true ack_fields ("", "");
  object_keys s := match decode_keys s with Some (Some ks, true) => Some ks | Some (None, true) => Some [] | _ => None end;
  decode_map := decode_keys;
  decode_request_create := DecodeObject request_create_fields ("", None) ["public_key"] ["ttl_seconds"];
  decode_submit := DecodeObject submit_fields (MkSubmitInput 0 "" "" 0 "" "")
    ["generation"; "attempt_token"; "kind"; "size_bytes"; "envelope"; "ciphertext"] [];
  decode_upload := DecodeObject upload_fields (MkUploadInput 0 "" "" 0 "" "")
    ["generation"; "attempt_token"; "kind"; "size_bytes"; "envelope"; "ciphertext_sha256"] [];
  decode_attempt := DecodeObject attempt_fields (MkAttemptInput 0 "") ["generation"; "attempt_token"] [];
|}.

Lemma utf8_ascii_string s : ascii_string s = true -> Json.utf8_valid s = true.
Proof.
  intros Hs. apply utf8_ascii. revert Hs. unfold ascii_string. induction s as [|c s IH]; [done|].
  change (String.list_ascii_of_string (String.String c s)) with (c :: String.list_ascii_of_string s).
  cbn [forallb all_ascii]. rewrite !andb_true_iff. intros [Hc Hs]. split; [|by apply IH].
  apply Nat.ltb_lt in Hc. apply Z.ltb_lt. unfold byte_val, Ascii.nat_of_ascii in *. lia.
Qed.

(** What [validateEnvelope] writes, [loadEnvelope] reads. *)
Lemma envelope_reads_back v f : - 2 ^ 63 <= v < 2 ^ 63 -> ascii_string f = true ->
  unmarshal_struct envelope_fields (MkEnvelope 0 "") (Json.print (envelope_value (MkEnvelope v f))) = Some (MkEnvelope v f).
Proof.
  intros Hv Hf. unfold unmarshal_struct, envelope_value. cbn [Version EnvFilename].
  rewrite <-(app_nil_str (Json.print _)). rewrite decode_struct_written.
  - case_bool_decide as E; repeat decode_step; [rewrite E|]; reflexivity.
  - apply writable_document. apply Forall_cons. split; [by split; [|eexists]|].
    case_bool_decide; [done|]. apply Forall_singleton. split; [done|]. by apply utf8_ascii_string.
Qed.

Section requests.
Context (parse_recipient : string -> option string).
Definition json_requests : RequestCodec := {|
  DecodeEnvelope := DecodeObject envelope_fields (MkEnvelope 0 "") ["version"] ["encrypted_filename"];
  MarshalEnvelope e := Json.print (envelope_value e);
  UnmarshalEnvelope := unmarshal_struct envelope_fields (MkEnvelope 0 "");
  MarshalPayload := marshal_payload "ciphertext";
  MarshalUpload := marshal_payload "ciphertext_sha256";
  ParseHybridRecipient := parse_recipient;
  envelope_roundtrip := envelope_reads_back;
|}.
End requests.
