(* ===== verification/Router.v ===== *)
(** * Routing, middleware and the service endpoints (src/internal/httpapi/router.go)

    [NewRouter] and the middleware around the handlers, in the order the router
    composes them.  Matching a path against the patterns of the table is the
    work of the router library: [serve] is given the endpoint it found and the
    value of [{id}].  The pipe endpoints are in PipeHttp.v. *)

From S2P Require Import Prelude GoStrings World GoTime Codec Schema Outbox ObjectStorage SecretStore RequestStore Reaper Float64 Http RateLimit HttpApi.

Inductive endpoint :=
  | Healthz | Readyz | Metrics | GetConfig
  | CreateSecret | FinalizeSecret | GetSecretMetadata | GetManagementStatus | RevokeSecret | OpenSecret
  | CreateRequest | GetRequestInstructions | SubmitRequest | ReserveRequest | FinalizeRequest | AbandonRequest
  | GetRequestAttempt | GetRequestOwner | OpenRequest | RevokeRequest
  | CleanupSecretRoute | AcknowledgeRoute.

Definition route_table : list (string * string * endpoint) := [
  ("GET", "/healthz", Healthz); ("GET", "/readyz", Readyz); ("GET", "/metrics", Metrics); ("GET", "/api/config", GetConfig);
  ("POST", "/api/secrets", CreateSecret); ("POST", "/api/secrets/{id}/finalize", FinalizeSecret);
  ("GET", "/api/secrets/{id}", GetSecretMetadata); ("GET", "/api/secrets/{id}/management", GetManagementStatus);
  ("POST", "/api/secrets/{id}/revoke", RevokeSecret); ("POST", "/api/secrets/{id}/open", OpenSecret);
  ("POST", "/api/requests/", CreateRequest); ("GET", "/api/requests/{id}", GetRequestInstructions);
  ("POST", "/api/requests/{id}/submit", SubmitRequest); ("POST", "/api/requests/{id}/upload", ReserveRequest);
  ("POST", "/api/requests/{id}/finalize", FinalizeRequest); ("POST", "/api/requests/{id}/abandon", AbandonRequest);
  ("POST", "/api/requests/{id}/attempt", GetRequestAttempt); ("GET", "/api/requests/{id}/owner", GetRequestOwner);
  ("POST", "/api/requests/{id}/open", OpenRequest); ("POST", "/api/requests/{id}/revoke", RevokeRequest);
  ("POST", "/internal/secrets/{id}/cleanup", CleanupSecretRoute);
  ("POST", "/internal/object-reconciliation/ack", AcknowledgeRoute)].

(** The limiters of the handlers here. *)
Record Limiters := MkLimiters {
  openLimiter : rateLimiter;
  createLimiter : rateLimiter;
  managementLimiter : rateLimiter;
  requestLimiter : rateLimiter;
}.

Record RouterOptions := MkRouterOptions {
  ro_PayloadInlineMaxBytes : Z;
  ro_AdvertisedInlineMaxBytes : Z;
  ro_MaxFileBytes : Z;
  ro_AllowedOrigin : string;
  ro_InternalToken : string;
  ro_MetricsToken : string;
  ro_OpenRatePerMinute : Z;
  ro_CreateRatePerMinute : Z;
  ro_TrustedProxies : list IPNet;
  ro_OutboxStore : option outboxEnqueuer;
  ro_NATSConnected : option (nat -> bool);
  ro_RequestStore : option RequestStore.Options;
  ro_PipeRelayEnabled : bool;
}.

Definition NewRouter (secretStore : SecretStore.Store) (o : RouterOptions) : Server * Limiters :=
  let inline := if ro_PayloadInlineMaxBytes o <=? 0 then 1048576 else ro_PayloadInlineMaxBytes o in
  let advertised := if ro_AdvertisedInlineMaxBytes o <=? 0 then inline else ro_AdvertisedInlineMaxBytes o in
  let maxFile := if ro_MaxFileBytes o <=? 0 then 268435456 else ro_MaxFileBytes o in
  (MkServer secretStore (ro_RequestStore o) (ro_OutboxStore o) inline advertised maxFile
     (trim_right_byte slash (ro_AllowedOrigin o)) (ro_InternalToken o) (ro_MetricsToken o)
     (ro_PipeRelayEnabled o) (ro_NATSConnected o),
   MkLimiters (newRateLimiter (ro_OpenRatePerMinute o) (ro_TrustedProxies o))
     (newRateLimiter (ro_CreateRatePerMinute o) (ro_TrustedProxies o))
     (newRateLimiter (ro_OpenRatePerMinute o) (ro_TrustedProxies o))
     (newRateLimiter (ro_OpenRatePerMinute o) (ro_TrustedProxies o))).

Definition ok_status : json := JObject [("status", JString "ok")].
Definition healthz : Response := writeJSON 200 ok_status.

Definition getConfig (s : Server) : Response :=
  with_header "Cache-Control" "public, max-age=300"
    (writeJSON 200 (JObject [("payload_inline_max_bytes", JInt (sv_advertisedInlineMaxBytes s));
                             ("max_file_bytes", JInt (sv_maxFileBytes s));
                             ("pipe_relay_enabled", JBool (sv_pipeRelayEnabled s))])).

Definition no_store_path (p : string) : bool :=
  bool_decide (p = "/api/requests") || has_prefix "/api/requests/" p || has_prefix "/api/pipe/" p || has_prefix "/api/v1/pipe/" p.

(** The headers [cors] adds, newest first. *)
Definition cors_headers (s : Server) (r : Request) : list (string * string) :=
  let origin := trim_right_byte slash (header_get "Origin" (rq_Header r)) in
  (if bool_decide (sv_allowedOrigin s <> "") && bool_decide (origin = sv_allowedOrigin s)
   then [("Vary", "Origin");
         ("Access-Control-Expose-Headers", "Flick-Kind, Flick-Content-Type, Flick-Encrypted-Filename, Flick-Wrapped-Identity, Flick-Expires-At, X-Flick-Pipe-Salt");
         ("Access-Control-Allow-Headers", "Content-Type, Authorization, X-Flick-Pipe-Code, Flick-Kind, Flick-Encrypted-Filename");
         ("Access-Control-Allow-Methods", "GET, POST, OPTIONS");
         ("Access-Control-Allow-Origin", origin)] else []) ++
  (if no_store_path (rq_Path r) then [("Cache-Control", "no-store")] else []) ++
  [("X-Content-Type-Options", "nosniff")].

Definition add_headers (h : list (string * string)) (r : Response) : Response :=
  MkResp (rs_Status r) (rs_Header r ++ h) (rs_Body r).

Section serve.
Context {ENV : Env} {RC : RequestCodec} {HC : HttpCodec} (s : Server) (metrics_page : Response).

Definition readyz : M ApiDB Response :=
  or_error (sql_query "ping" (fun _ => tt)) (fun _ => writeError 503 "not_ready" "database is not ready") (fun _ =>
  match sv_natsConnected s with
  | None => ret (writeJSON 200 ok_status)
  | Some up =>
      let! ok := ask up in
      ret (if ok then writeJSON 200 ok_status else writeError 503 "not_ready" "message broker is not ready")
  end).

(** A limiter in front of the rest of a route. *)
Definition limited (get : Limiters -> rateLimiter) (put : rateLimiter -> Limiters -> Limiters)
    (key : rateLimiter -> string) (l : Limiters) (next : M ApiDB Response) : M ApiDB (Response * Limiters) :=
  let! t := now in
  let '(refused, rl) := charge (get l) (key (get l)) t in
  match refused with
  | Some resp => ret (resp, put rl l)
  | None => let! resp := next in ret (resp, put rl l)
  end.

Definition put_open rl l := MkLimiters rl (createLimiter l) (managementLimiter l) (requestLimiter l).
Definition put_create rl l := MkLimiters (openLimiter l) rl (managementLimiter l) (requestLimiter l).
Definition put_management rl l := MkLimiters (openLimiter l) (createLimiter l) rl (requestLimiter l).
Definition put_request rl l := MkLimiters (openLimiter l) (createLimiter l) (managementLimiter l) rl.

Definition unlimited (l : Limiters) (m : M ApiDB Response) : M ApiDB (Response * Limiters) :=
  let! resp := m in ret (resp, l).

(** [managementNoStore] is outside the limiter. *)
Definition management_route (id : string) (r : Request) (l : Limiters) (h : M ApiDB Response) : M ApiDB (Response * Limiters) :=
  let! x := limited managementLimiter put_management (fun rl => limit_key rl r id) l h in
  ret (no_store x.1, x.2).

(** The routes under [/api/requests]: ready first, then the limiter. *)
Definition request_route (r : Request) (l : Limiters)
    (limiter : Limiters -> M ApiDB Response -> M ApiDB (Response * Limiters)) (h : RequestStore.Options -> M ApiDB Response) :
    M ApiDB (Response * Limiters) :=
  match sv_requests s with
  | None => unlimited l (requestReady s r h)
  | Some store =>
      if bool_decide (rq_RawQuery r <> "") then unlimited l (requestReady s r h) else limiter l (h store)
  end.

Definition by_client (r : Request) (l : Limiters) (h : M ApiDB Response) : M ApiDB (Response * Limiters) :=
  limited requestLimiter put_request (fun rl => clientIP (trustedProxies rl) r) l h.
Definition by_path_create (r : Request) (l : Limiters) (h : M ApiDB Response) : M ApiDB (Response * Limiters) :=
  limited createLimiter put_create (fun rl => limit_key rl r (rq_Path r)) l h.

Definition guarded (refusal : option Response) (l : Limiters) (h : M ApiDB Response) : M ApiDB (Response * Limiters) :=
  match refusal with Some resp => ret (resp, l) | None => unlimited l h end.

Definition handle (e : endpoint) (id : string) (r : Request) (l : Limiters) : M ApiDB (Response * Limiters) :=
  match e with
  | Healthz => ret (healthz, l)
  | Readyz => unlimited l readyz
  | Metrics => guarded (metricsAuth (sv_metricsToken s) (rq_Header r)) l (ret metrics_page)
  | GetConfig => ret (getConfig s, l)
  | CreateSecret => by_path_create r l (createSecret s r)
  | FinalizeSecret => unlimited l (finalizeSecret s id)
  | GetSecretMetadata => unlimited l (getSecretMetadata id)
  | GetManagementStatus => management_route id r l (getManagementStatus s id r)
  | RevokeSecret => management_route id r l (revokeSecret s id r)
  | OpenSecret => limited openLimiter put_open (fun rl => limit_key rl r (rq_Path r)) l (openSecret s id r)
  | CreateRequest => request_route r l (by_path_create r) (fun rs => createRequest rs r)
  | GetRequestInstructions => request_route r l (by_client r) (fun rs => getRequestInstructions rs id r)
  | SubmitRequest => request_route r l (by_client r) (fun rs => submitRequest s rs id r)
  | ReserveRequest => request_route r l (by_client r) (fun rs => reserveRequest rs id r)
  | FinalizeRequest => request_route r l (by_client r) (fun rs => finalizeRequest rs id r)
  | AbandonRequest => request_route r l (by_client r) (fun rs => abandonRequest rs id r)
  | GetRequestAttempt => request_route r l (by_client r) (fun rs => getRequestAttempt rs id r)
  | GetRequestOwner => request_route r l (by_client r) (fun rs => getRequestOwner rs id r)
  | OpenRequest => request_route r l (by_client r) (fun rs => openRequest rs id r)
  | RevokeRequest => request_route r l (by_client r) (fun rs => revokeRequest rs id r)
  | CleanupSecretRoute => guarded (internalAuth (sv_internalToken s) (rq_Header r)) l (cleanupSecret id r)
  | AcknowledgeRoute => guarded (internalAuth (sv_internalToken s) (rq_Header r)) l (acknowledgeObjectCleanup s r)
  end.

(** [cors] is outside every route and answers a preflight itself. *)
Definition serve (e : endpoint) (id : string) (r : Request) (l : Limiters) : M ApiDB (Response * Limiters) :=
  if bool_decide (rq_Method r = "OPTIONS") then ret (MkResp 204 (cors_headers s r) NoBody, l)
  else
    let! x := handle e id r l in
    ret (add_headers (cors_headers s r) x.1, x.2).
End serve.
