(* ===== verification/Contract.v ===== *)
(** * The contract between the client and the API

    Both ends write and read JSON of their own structures: flickcli/client.go
    those of the client, httpapi/secrets.go those of the server.  Here the two
    meet: what the client marshals the server decodes as the same request, and
    what the server answers the client decodes as the same response. *)

From S2P Require Import Prelude GoStrings Codec World GoTime Schema AgeFormat Outbox Url ObjectStorage SecretStore Http RateLimit Config Json JsonProofs GoJson ClientCrypto Client ClientJson RequestStore HttpApi HttpJson Router.
From stdpp Require Import pretty.
#[local] Open Scope Z_scope.

(** ** What the server makes of a request *)
Definition present (s : string) : option string := if bool_decide (s = "") then None else Some s.

Definition server_kdf (k : ClientCrypto.KDFParams) : Schema.KDFParams :=
  Build_KDFParams (kdf_Algorithm k) (kdf_Salt k) (kdf_Iterations k) (kdf_KeyLengthBits k).
Definition client_kdf (k : Schema.KDFParams) : ClientCrypto.KDFParams :=
  MkKDF (Algorithm k) (Salt k) (Iterations k) (Schema.KeyLengthBits k).

Definition received (r : CreateSecretRequest) : createSecretRequest :=
  HttpApi.MkCreateReq (cs_Kind r) (cs_Ciphertext r)
    (match cs_Access r with Some v => server_kdf (av_KDF v) | None => no_kdf end)
    (match cs_Access r with Some v => av_Proof v | None => "" end)
    (present (cs_WrappedIdentity r)) (present (cs_EncryptedFilename r)) (present (cs_ContentType r))
    (cs_SizeBytes r) (cs_TTLSeconds r) (cs_MaxViews r).

(** Strings are UTF-8 and sizes have 64 bits. *)
Definition sendable_kdf (k : ClientCrypto.KDFParams) : Prop :=
  Json.utf8_valid (kdf_Algorithm k) = true /\ Json.utf8_valid (kdf_Salt k) = true /\
  int64 (kdf_Iterations k) /\ int64 (kdf_KeyLengthBits k).
Record sendable (r : CreateSecretRequest) : Prop := {
  send_strings : Forall (fun s => Json.utf8_valid s = true)
    [cs_Kind r; cs_Ciphertext r; cs_WrappedIdentity r; cs_EncryptedFilename r; cs_ContentType r];
  send_access : match cs_Access r with Some v => sendable_kdf (av_KDF v) /\ Json.utf8_valid (av_Proof v) = true | None => True end;
  send_ints : int64 (cs_SizeBytes r) /\ int64 (cs_MaxViews r);
}.

(** ** Text the two ends write *)
Definition ascii_byte (c : Ascii.ascii) : bool := byte_val c <? 128.
Lemma utf8_bytes s : all_bytes ascii_byte s = true -> Json.utf8_valid s = true.
Proof. intros Hs. apply utf8_ascii. revert Hs. induction s as [|a s IH]; [done|]. cbn. rewrite !andb_true_iff. naive_solver. Qed.

Lemma get_bytes p l : all_bytes p l = true -> forall k, (k < String.length l)%nat -> exists c, String.get k l = Some c /\ p c = true.
Proof.
  induction l as [|a l IH]; cbn; intros Hl k Hk; [lia|]. apply andb_true_iff in Hl as [Ha Hl].
  destruct k as [|k]; [by exists a|]. apply IH; [done|lia].
Qed.

(** What base64 writes is of its alphabet. *)
Lemma encode_bytes p e b : all_bytes p (Base64.alphabet e) = true -> String.length (Base64.alphabet e) = 64%nat ->
  (Base64.padded e = true -> p Base64.pad_char = true) -> all_bytes p (Base64.encode e b) = true.
Proof.
  intros Ha Hl Hp.
  assert (Hs : forall n, 0 <= n < 64 -> p (Base64.sextet e n) = true).
  { intros n Hn. unfold Base64.sextet. destruct (get_bytes p _ Ha (Z.to_nat n)) as (c & -> & Hc); [lia|done]. }
  assert (Hd : forall v, 0 <= v < 16777216 -> 0 <= v / 262144 < 64) by (intros v Hv; split; [apply Z.div_pos|apply Z.div_lt_upper_bound]; lia).
  assert (Hm : forall v, 0 <= v mod 64 < 64) by (intros; by apply Z.mod_pos_bound).
  induction b as [|x|x y|x y z r IH] using Base64.string_ind3; [done|..]; cbn [Base64.encode all_bytes];
    pose proof (byte_val_range x); try pose proof (byte_val_range y); try pose proof (byte_val_range z);
    rewrite !Hs by (apply Hm || (apply Hd; lia)); cbn [andb]; [..|done];
    destruct (Base64.padded e); cbn [all_bytes]; rewrite ?Hp by done; done.
Qed.

Lemma encode_empty e b : Base64.encode e b = "" -> b = "".
Proof. by destruct b as [|x [|y [|z r]]]. Qed.

Lemma encode_utf8 e b : e = Base64.StdEncoding \/ e = Base64.RawURLEncoding -> Json.utf8_valid (Base64.encode e b) = true.
Proof. intros [->| ->]; apply utf8_bytes, encode_bytes; by vm_compute. Qed.

Lemma pad_bytes w : forall n, all_bytes ascii_byte (pad w n) = true.
Proof.
  induction w as [|w IH]; intros n; [done|]. cbn [pad]. rewrite all_bytes_app, IH. cbn [all_bytes]. rewrite andb_true_r.
  pose proof (Z.mod_pos_bound n 10 ltac:(lia)). unfold digit, ascii_byte, byte_val. apply Z.ltb_lt.
  pose proof (Ascii.nat_ascii_embedding (Z.to_nat (48 + n `mod` 10)) ltac:(lia)) as E. unfold Ascii.nat_of_ascii in E. lia.
Qed.
Lemma trim_bytes p s : all_bytes p s = true -> all_bytes p (trim_zeros s) = true.
Proof.
  induction s as [|a s IH]; [done|]. cbn. intros [Ha Hs]%andb_true_iff. specialize (IH Hs).
  destruct (trim_zeros s); [by case_decide; cbn; rewrite ?Ha|]. cbn in *. by rewrite Ha.
Qed.
Lemma formatTime_utf8 t : Json.utf8_valid (formatTime t) = true.
Proof.
  apply utf8_bytes. unfold formatTime, format_seconds, nano_fraction.
  destruct (_ =? 0); rewrite !all_bytes_app, !pad_bytes; [done|]. by rewrite trim_bytes by apply pad_bytes.
Qed.

(** ** Decoding what was written *)
Lemma decode_omit {A} strict (fields : list (field A)) k s ms a name f a' :
  field_of fields k = Some (name, f) ->
  (s <> "" -> f (MkMember k (Json.print (VString s)) (VString s)) a = Some a') -> (s = "" -> a = a') ->
  decode_members strict fields (written (omit_empty k s ++ ms)) a = decode_members strict fields (written ms) a'.
Proof.
  intros Hf Hs He. unfold omit_empty. case_bool_decide as E; [by rewrite He|].
  cbn [app written map fst snd]. by erewrite decode_cons by eauto.
Qed.

Lemma decode_omit_ptr {A} strict (fields : list (field A)) k s ms a name g :
  field_of fields k = Some (name, set_string_ptr g) -> g None a = a ->
  decode_members strict fields (written (omit_empty k s ++ ms)) a = decode_members strict fields (written ms) (g (present s) a).
Proof.
  intros Hf Hg. apply (decode_omit strict fields k s ms a name _ _ Hf); unfold present; case_bool_decide; [done|done|done|done].
Qed.

Definition fits (depth : nat) (ms : list (string * value)) : Prop :=
  Forall (fun m => Json.utf8_valid m.1 = true /\ writable depth m.2) ms.
Lemma fits_cons depth k v ms : Json.utf8_valid k = true -> writable depth v -> fits depth ms -> fits depth ((k, v) :: ms).
Proof. intros Hk Hv Hms. by apply Forall_cons. Qed.
Lemma fits_nil depth : fits depth [].
Proof. apply Forall_nil_2. Qed.
Lemma fits_app depth ms ns : fits depth ms -> fits depth ns -> fits depth (ms ++ ns).
Proof. apply Forall_app_2. Qed.
Lemma fits_omit depth k s : Json.utf8_valid k = true -> Json.utf8_valid s = true -> fits depth (omit_empty k s).
Proof. intros Hk Hs. unfold omit_empty. case_bool_decide; [apply fits_nil|]. apply fits_cons; [done|by destruct depth|apply fits_nil]. Qed.
Lemma fits_string depth s : Json.utf8_valid s = true -> writable depth (VString s).
Proof. by destruct depth. Qed.
Lemma fits_int depth z : writable depth (Json.VInt z).
Proof. destruct depth; by exists z. Qed.
Lemma fits_bool depth b : writable depth (VBool b).
Proof. by destruct depth. Qed.
Lemma fits_object depth ms : (0 < depth)%nat -> fits (depth - 1) ms -> writable depth (VObject ms).
Proof. apply writable_object. Qed.
Lemma fits_document ms : fits (Json.maxNestingDepth - 1) ms -> writable Json.maxNestingDepth (VObject ms).
Proof. apply writable_document. Qed.

Create HintDb fits discriminated.
#[export] Hint Resolve fits_cons fits_nil fits_app fits_omit fits_string fits_int fits_bool : fits.
#[export] Hint Extern 1 (writable _ (VObject _)) => apply fits_object; [unfold Json.maxNestingDepth; lia|] : fits.
#[export] Hint Extern 1 (Json.utf8_valid _ = true) => first [assumption|reflexivity] : fits.

Lemma create_fits r : sendable r -> fits (Json.maxNestingDepth - 1) (create_members r).
Proof.
  intros [Hs Ha _]. rewrite !Forall_cons in Hs. destruct Hs as (? & ? & ? & ? & ? & _). unfold create_members.
  assert (fits (Json.maxNestingDepth - 1) (access_value (cs_Access r))).
  { destruct (cs_Access r) as [v|]; [|apply fits_nil]. destruct Ha as [(? & ? & _ & _) ?]. unfold access_value, kdf_value. auto 20 with fits. }
  auto 20 with fits.
Qed.

Lemma decode_access (v : AccessVerifier) : sendable_kdf (av_KDF v) -> forall raw r,
  set_struct true access_fields (fun r => (cr_KDF r, cr_Proof r))
    (fun x r => HttpApi.MkCreateReq (cr_Kind r) (cr_Ciphertext r) x.1 x.2 (cr_WrappedIdentity r) (cr_EncryptedFilename r) (cr_ContentType r) (cr_SizeBytes r) (cr_TTLSeconds r) (cr_MaxViews r))
    (MkMember "access" raw (VObject [("kdf", kdf_value (av_KDF v)); ("proof", VString (av_Proof v))])) r =
  Some (HttpApi.MkCreateReq (cr_Kind r) (cr_Ciphertext r) (server_kdf (av_KDF v)) (av_Proof v) (cr_WrappedIdentity r) (cr_EncryptedFilename r) (cr_ContentType r) (cr_SizeBytes r) (cr_TTLSeconds r) (cr_MaxViews r)).
Proof.
  intros (_ & _ & Hi & Hk) raw r. unfold set_struct. cbn [mb_value].
  cbn [nested map fst snd]. erewrite decode_cons; [|reflexivity|].
  2:{ unfold set_struct. cbn [mb_value]. unfold kdf_value. do 4 decode_step. reflexivity. }
  decode_step. reflexivity.
Qed.

Lemma decode_fail {A} strict (fields : list (field A)) k raw v ms a name f :
  field_of fields k = Some (name, f) -> f (MkMember k raw v) a = None -> decode_members strict fields (MkMember k raw v :: ms) a = None.
Proof. intros Hf Ha. cbn [decode_members mb_key]. rewrite Hf. cbn [snd]. by rewrite Ha. Qed.

(** Each field of a request is assigned by copying the others. *)
Ltac create_columns :=
  cbn [cr_Kind cr_Ciphertext cr_KDF cr_Proof cr_WrappedIdentity cr_EncryptedFilename cr_ContentType cr_SizeBytes cr_TTLSeconds cr_MaxViews].

(** The API reads what the client wrote; a time to live of more than 64 bits
    is refused. *)
Lemma decode_create_sent (r : CreateSecretRequest) : sendable r ->
  decode_create (marshal_create r) = if bool_decide (int64 (cs_TTLSeconds r)) then Some (received r, true) else None.
Proof.
  intros Hr. pose proof (create_fits r Hr) as Hf. destruct Hr as [_ Ha (Hs & Hv)].
  unfold decode_create, marshal_create, json_http, json_client. rewrite <-(app_nil_str (Json.print _)).
  rewrite decode_struct_written by (by apply fits_document). unfold create_members, zero_create.
  change ([("kind", VString (cs_Kind r))] ++ ?l) with (("kind", VString (cs_Kind r)) :: l). decode_step.
  erewrite decode_omit; [|reflexivity|reflexivity|by intros ->]. cbv beta.
  assert (Hacc : forall ms q, cr_KDF q = no_kdf -> cr_Proof q = "" ->
    decode_members true create_fields (written (access_value (cs_Access r) ++ ms)) q =
    decode_members true create_fields (written ms)
      (HttpApi.MkCreateReq (cr_Kind q) (cr_Ciphertext q) (match cs_Access r with Some v => server_kdf (av_KDF v) | None => no_kdf end)
         (match cs_Access r with Some v => av_Proof v | None => "" end)
         (cr_WrappedIdentity q) (cr_EncryptedFilename q) (cr_ContentType q) (cr_SizeBytes q) (cr_TTLSeconds q) (cr_MaxViews q))).
  { intros ms q E1 E2. revert Ha. destruct (cs_Access r) as [v|]; intros Ha; [|cbn match; rewrite <-E1, <-E2; by destruct q].
    cbn [access_value app written map fst snd]. erewrite decode_cons; [reflexivity|reflexivity|]. by apply decode_access, Ha. }
  rewrite Hacc by done. create_columns.
  do 3 (erewrite decode_omit_ptr; [|reflexivity|reflexivity]; create_columns).
  decode_step. create_columns. case_bool_decide as Ht; [do 2 (decode_step; create_columns); reflexivity|].
  cbn [written map fst snd]. erewrite decode_fail; [reflexivity|reflexivity|].
  unfold set_int, Json.VInt. cbn [mb_value]. by rewrite parse_int_written, bool_decide_false.
Qed.

(** ** Nothing the client sends looks like a plaintext or a key *)
Lemma read_keys ms : fits (Json.maxNestingDepth - 1) ms -> object_keys (Json.print (VObject ms)) = Some ms.*1.
Proof.
  intros Hf. unfold object_keys, json_http, decode_keys. rewrite <-(app_nil_str (Json.print _)).
  rewrite read_document_written by (by apply fits_document). cbn [mbind option_bind fst snd].
  replace (mb_key <$> written ms) with ms.*1; [done|]. clear Hf. induction ms as [|m ms IH]; [done|].
  cbn [fmap list_fmap written map mb_key] in *. by f_equal.
Qed.

Lemma plain_omit k s : sensitive_key k = false -> existsb sensitive_key (omit_empty k s).*1 = false.
Proof. intros Hk. unfold omit_empty. case_bool_decide; [done|]. cbn. by rewrite Hk. Qed.

Lemma create_not_sensitive r : sendable r -> hasSensitiveField (marshal_create r) = false.
Proof.
  intros Hr. unfold hasSensitiveField, marshal_create, json_client. rewrite read_keys by (by apply create_fits).
  unfold create_members. rewrite !fmap_app, !existsb_app, !plain_omit by reflexivity.
  by destruct (cs_Access r).
Qed.

(** The body of an open. *)
Lemma decode_open_sent proof : Json.utf8_valid (default "" proof) = true ->
  decode_open (marshal_open proof) = Some (default "" proof, true) /\ hasSensitiveField (marshal_open proof) = false.
Proof.
  intros Hp. unfold hasSensitiveField, decode_open, marshal_open, json_client.
  assert (Hf : fits (Json.maxNestingDepth - 1) (open_members proof)).
  { destruct proof as [p|]; unfold open_members; cbn [default] in Hp; auto with fits. }
  rewrite read_keys by done. split; [|by destruct proof].
  unfold json_http. rewrite <-(app_nil_str (Json.print _)). rewrite decode_struct_written by (by apply fits_document).
  destruct proof as [p|]; [|reflexivity]. unfold open_members. decode_step. reflexivity.
Qed.

(** ** What the client makes of a response *)
Lemma decode_answer {A} (fields : list (field A)) zero l :
  fits (Json.maxNestingDepth - 1) (map (fun f => (f.1, of_json f.2)) l) ->
  decode_response fields zero (JsonBody (JObject l)) =
  decode_members false fields (written (map (fun f => (f.1, of_json f.2)) l)) zero.
Proof.
  intros Hf. unfold decode_response. cbn [body_text]. unfold Encode, render. cbn [of_json].
  rewrite read_document_written by (by apply fits_document). reflexivity.
Qed.

Lemma decode_skip {A} (fields : list (field A)) k raw v ms a : field_of fields k = None ->
  decode_members false fields (MkMember k raw v :: ms) a = decode_members false fields ms a.
Proof. intros Hf. cbn [decode_members mb_key]. by rewrite Hf. Qed.

Ltac read_step := cbn [written nested map of_json fst snd app];
  first [rewrite decode_skip by reflexivity | decode_step].

Lemma limits_read (s : Server) : int64 (sv_advertisedInlineMaxBytes s) -> int64 (sv_maxFileBytes s) ->
  decode_limits (rs_Body (getConfig s)) = Some (MkLimits (sv_advertisedInlineMaxBytes s) (sv_maxFileBytes s)).
Proof.
  intros Ha Hm. unfold decode_limits, json_client. cbn [rs_Body getConfig with_header writeJSON].
  rewrite decode_answer by (cbn [map of_json fst snd]; auto 10 with fits). do 3 read_step. reflexivity.
Qed.

Lemma created_read id expires token management :
  Forall (fun s => Json.utf8_valid s = true) [id; expires; token; management] ->
  decode_created (JsonBody (JObject [("management_token", JString token); ("management_expires_at", JString management);
    ("id", JString id); ("expires_at", JString expires)])) = Some (Client.MkCreated id expires None).
Proof.
  rewrite !Forall_cons. intros (? & ? & ? & ? & _). unfold decode_created, json_client.
  rewrite decode_answer by (cbn [map of_json fst snd]; auto 10 with fits). do 4 read_step. reflexivity.
Qed.

Lemma finalized_read id : Json.utf8_valid id = true ->
  decode_finalized (JsonBody (JObject [("finalized", JBool true); ("id", JString id)])) = Some true.
Proof.
  intros ?. unfold decode_finalized, json_client.
  rewrite decode_answer by (cbn [map of_json fst snd]; auto 10 with fits). do 2 read_step. reflexivity.
Qed.

(** The metadata of a secret, with its KDF parameters when it has a passphrase. *)
Definition metadata_json (m : SecretStore.SecretMetadata) : json :=
  JObject ([("id", JString (SecretStore.md_ID m)); ("kind", JString (SecretStore.md_Kind m))] ++
    (if bool_decide (Algorithm (md_AccessKDF m) <> "") then [("access", JObject [("kdf", kdf_json (md_AccessKDF m))])] else []) ++
    [("size_bytes", JInt (SecretStore.md_SizeBytes m)); ("expires_at", JString (formatTime (SecretStore.md_ExpiresAt m)))]).
Definition metadata_seen (m : SecretStore.SecretMetadata) : Client.SecretMetadata :=
  MkMeta (SecretStore.md_ID m) (SecretStore.md_Kind m)
    (if bool_decide (Algorithm (md_AccessKDF m) <> "") then Some (client_kdf (md_AccessKDF m)) else None)
    (SecretStore.md_SizeBytes m) (formatTime (SecretStore.md_ExpiresAt m)).

Lemma client_kdf_read k raw (a : Client.SecretMetadata) : sendable_kdf (client_kdf k) -> Client.md_Access a = None ->
  set_struct_ptr false accessMetadata (MkKDF "" "" 0 0) Client.md_Access
    (fun x m => MkMeta (Client.md_ID m) (Client.md_Kind m) x (Client.md_SizeBytes m) (Client.md_ExpiresAt m))
    (MkMember "access" raw (VObject [("kdf", of_json (kdf_json k))])) a =
  Some (MkMeta (Client.md_ID a) (Client.md_Kind a) (Some (client_kdf k)) (Client.md_SizeBytes a) (Client.md_ExpiresAt a)).
Proof.
  intros (_ & _ & Hi & Hk) Ha. unfold set_struct_ptr. cbn [mb_value]. rewrite Ha. cbn [default].
  cbn [nested map fst snd]. erewrite decode_cons; [|reflexivity|].
  2:{ unfold set_struct. cbn [mb_value]. unfold kdf_json. cbn [of_json map fst snd client_kdf kdf_Iterations kdf_KeyLengthBits] in *.
      do 4 decode_step. reflexivity. }
  reflexivity.
Qed.

Lemma metadata_read m : Json.utf8_valid (SecretStore.md_ID m) = true -> Json.utf8_valid (SecretStore.md_Kind m) = true ->
  Json.utf8_valid (formatTime (SecretStore.md_ExpiresAt m)) = true -> int64 (SecretStore.md_SizeBytes m) ->
  sendable_kdf (client_kdf (md_AccessKDF m)) ->
  decode_metadata (JsonBody (metadata_json m)) = Some (metadata_seen m).
Proof.
  intros ? ? ? Hs Hk. pose proof Hk as (? & ? & _ & _). unfold decode_metadata, json_client, metadata_json, metadata_seen.
  cbn [client_kdf kdf_Algorithm kdf_Salt] in *.
  case_bool_decide; (rewrite decode_answer by (unfold kdf_json; cbn [map of_json fst snd app]; auto 20 with fits)).
  - do 2 read_step. cbn [written nested map of_json fst snd app]. erewrite decode_cons; [|reflexivity|by apply client_kdf_read].
    do 2 read_step. reflexivity.
  - do 4 read_step. reflexivity.
Qed.

(** The code of an error, whatever its message, when the envelope is not cut. *)
Lemma error_read status code message : Json.utf8_valid code = true -> Json.utf8_valid message = true ->
  (String.length (body_text (rs_Body (writeError status code message))) <= 4096)%nat ->
  decode_api_error (rs_Body (writeError status code message)) = code.
Proof.
  intros Hc Hm Hl. unfold decode_api_error, json_client.
  replace (Json.bytes 4096 _) with (body_text (rs_Body (writeError status code message))).
  2:{ symmetry. apply bytes_all. done. }
  unfold error_of_text. cbn [rs_Body writeError writeJSON body_text]. unfold Encode, render, errorBody. cbn [of_json map fst snd].
  rewrite read_document_written by (apply fits_document; auto 10 with fits). reflexivity.
Qed.

(** The upload the API signs for a large file. *)
Definition upload_answer (u : UploadInstruction) : json :=
  JObject [("url", JString (URL u)); ("method", JString (Method u)); ("expires_at", JString (formatTime (UploadExpiresAt u)));
           ("headers", JObject (prod_map id JString <$> Headers u))].
Definition upload_seen (u : UploadInstruction) : PresignedUpload :=
  Client.MkUpload (URL u) (Method u) (formatTime (UploadExpiresAt u)) (Headers u).

Lemma filter_keep {A} (P : A -> Prop) `{!forall x, Decision (P x)} (l : list A) : (forall x, x ∈ l -> P x) -> filter P l = l.
Proof.
  induction l as [|x l IH]; intros Hl; [done|]. rewrite filter_cons_True by (apply Hl; set_solver). f_equal. apply IH. set_solver.
Qed.

Lemma put_fresh kvs : forall l, NoDup (l ++ kvs).*1 -> fold_left put_key kvs l = l ++ kvs.
Proof.
  induction kvs as [|[k v] kvs IH]; intros l Hn; [by rewrite app_nil_r|]. cbn [fold_left].
  rewrite fmap_app in Hn. cbn in Hn.
  assert (Hk : put_key l (k, v) = l ++ [(k, v)]).
  { unfold put_key. f_equal. apply filter_keep. intros p Hp E. apply NoDup_app in Hn as (_ & Hd & _).
    apply (Hd p.1); [by apply list_elem_of_fmap_2|]. rewrite E. cbn. set_solver. }
  rewrite Hk, IH, <-app_assoc; [done|]. by rewrite <-app_assoc, fmap_app.
Qed.

Lemma headers_members (h : list (string * string)) : map (fun f : string * json => (f.1, of_json f.2)) (prod_map id JString <$> h) = prod_map id VString <$> h.
Proof. induction h as [|[k v] h IH]; [done|]. cbn in *. by rewrite IH. Qed.
Lemma headers_fit depth (h : list (string * string)) : Forall (fun p => Json.utf8_valid p.1 = true /\ Json.utf8_valid p.2 = true) h ->
  fits depth (prod_map id VString <$> h).
Proof. induction 1 as [|[k v] h [] Hh IH]; [apply fits_nil|]. cbn in *. auto with fits. Qed.
Lemma headers_read (h : list (string * string)) raw (u : PresignedUpload) : NoDup h.*1 -> pu_Headers u = [] ->
  set_strings pu_Headers (fun x u => Client.MkUpload (pu_URL u) (pu_Method u) (pu_ExpiresAt u) x)
    (MkMember "headers" raw (VObject (prod_map id VString <$> h))) u =
  Some (Client.MkUpload (pu_URL u) (pu_Method u) (pu_ExpiresAt u) h).
Proof.
  intros Hn Hu. unfold set_strings. cbn [mb_value]. rewrite Hu.
  replace (mapM _ (prod_map id VString <$> h)) with (Some h).
  - cbn [mbind option_bind]. by rewrite put_fresh.
  - clear Hn Hu. induction h as [|[k v] h IH]; [done|]. cbn in *. by rewrite <-IH.
Qed.

Lemma created_large_read sid expires token (u : UploadInstruction) :
  Forall (fun s => Json.utf8_valid s = true) [sid; expires; token; URL u; Method u; formatTime (UploadExpiresAt u)] ->
  Forall (fun p => Json.utf8_valid p.1 = true /\ Json.utf8_valid p.2 = true) (Headers u) -> NoDup (Headers u).*1 ->
  decode_created (JsonBody (JObject [("management_token", JString token); ("management_expires_at", JString expires);
    ("id", JString sid); ("expires_at", JString expires); ("upload", upload_answer u)])) =
  Some (Client.MkCreated sid expires (Some (upload_seen u))).
Proof.
  rewrite !Forall_cons. intros (? & ? & ? & ? & ? & ? & _) Hh Hn. unfold decode_created, json_client, upload_answer.
  assert (forall depth, fits depth (prod_map id VString <$> Headers u)) by (by intros; apply headers_fit).
  rewrite decode_answer; (cbn [map of_json fst snd]; rewrite headers_members); [|auto 20 with fits].
  cbn [written map of_json fst snd]. do 4 read_step. erewrite decode_cons; [|reflexivity|].
  2:{ unfold set_struct_ptr. cbn [mb_value default cd_Upload]. do 3 decode_step.
      erewrite decode_cons; [|reflexivity|by apply headers_read]. reflexivity. }
  reflexivity.
Qed.
