(* ===== verification/Deployment.v ===== *)
(** * The client against the API

    One deployment: the client's requests go over HTTP to the router of
    router.go and its handlers.  The state of the peer is the world of the API
    (its database, its clock) with its rate limiters.  Matching a path against
    the patterns of the route table is the work of the router library: [route]
    is a parameter with the law that the patterns match. *)

From stdpp Require Import pretty.
From S2P Require Import Prelude GoStrings Codec World GoTime Schema AgeFormat Outbox ObjectStorage SecretStore SecretProofs Http RateLimit Config ConfigProofs Json JsonProofs GoJson Url ClientCrypto ShareLink Files Client ClientJson GoDuration CliSend CliOpen ClientProofs RequestStore RequestFinalize HttpApi HttpJson Router Contract.
#[local] Open Scope Z_scope.

(** ** Routes *)

(** A pattern with a value for [{id}], and whether it has one. *)
Definition fill_pattern (pattern id : string) : string * bool :=
  let '(a, b, found) := Cut "{id}" pattern in if found then (a +:+ id +:+ b, true) else (pattern, false).

(** Bytes that stand for themselves in a path segment. *)
Definition plain_byte (c : Ascii.ascii) : bool := is_letter c || is_digit c || contains_byte c "-_".

Class Routes (route : string -> string -> option (endpoint * string)) : Prop :=
  routes_match : forall m p e id, (m, p, e) ∈ route_table -> id <> "" -> all_bytes plain_byte id = true ->
    route m (fill_pattern p id).1 = Some (e, if (fill_pattern p id).2 then id else "").

Lemma plain_escape id : all_bytes plain_byte id = true -> PathEscape id = id.
Proof.
  intros Hb. unfold PathEscape. apply escape_plain. revert Hb. apply all_bytes_mono.
  by apply (all_ascii_impl plain_byte (fun c => negb (shouldEscape c encodePathSegment))).
Qed.
Lemma plain_path a id b : all_bytes path_byte a = true -> all_bytes plain_byte id = true -> all_bytes path_byte b = true ->
  all_bytes path_byte (a +:+ id +:+ b) = true.
Proof.
  intros Ha Hi Hb. rewrite !all_bytes_app, Ha, Hb. rewrite (all_bytes_mono plain_byte path_byte id); [done| |done].
  by apply (all_ascii_impl plain_byte path_byte).
Qed.

(** ** The network *)
Section network.
Context (SRV : Env) {RC : RequestCodec} (s : Server) (metrics_page : Response) (remote : string).
Context (route : string -> string -> option (endpoint * string)).

Definition API : Type := World ApiDB * Limiters.

(** What the server makes of a request for a URL. *)
Definition arrives (u : URL) (req : CliRequest) : Request :=
  MkReq (cq_Method req) (u_Path u) (u_RawQuery u) remote (cq_Header req) (MkStream (default "" (cq_Body req)) true).

Definition not_routed : Response := MkResp 404 [] NoBody.

Definition api_network : Network API := fun req st =>
  match Parse (cq_URL req) with
  | None => (None, st)
  | Some u =>
      match route (cq_Method req) (u_Path u) with
      | None => (Some not_routed, st)
      | Some (e, id) =>
          match @serve SRV RC json_http s metrics_page e id (arrives u req) st.2 st.1 with
          | (Ok (resp, l), w) => (Some resp, (w, l))
          | (Err _, w) => (None, (w, st.2))
          end
      end
  end.
End network.

(** ** The length of a proof *)
Lemma xor_length s : forall t, String.length (xor_bytes s t) = Nat.min (String.length s) (String.length t).
Proof. induction s as [|a s IH]; intros [|b t]; cbn; auto. Qed.
Lemma pbkdf2_length password salt n : String.length (pbkdf2_key password salt n) = 32%nat.
Proof.
  unfold pbkdf2_key. set (u1 := hmac password _).
  assert (Hu : String.length u1 = 32%nat) by apply Sha256.sum_length. clearbody u1.
  generalize (Z.to_nat (n - 1)) as k. intros k.
  assert (H : String.length (Nat.iter k (fun '(u, t) => let u' := hmac password u in (u', xor_bytes t u')) (u1, u1)).2 = 32%nat); [|done].
  induction k as [|k IH]; [done|]. rewrite Nat.iter_succ. destruct (Nat.iter k _ _) as [u t]. cbv zeta. cbn [snd] in *.
  rewrite xor_length, IH. unfold hmac. by rewrite Sha256.sum_length.
Qed.

(** ** Requests that arrive *)
Section arriving.
Context (SRV : Env) {RC : RequestCodec} (s : Server) (metrics_page : Response) (remote : string).
Context (route : string -> string -> option (endpoint * string)) `{!Routes route}.
Context (scheme host : string) (Hbase : origin_ok scheme host "").
#[local] Instance net : Network API := api_network SRV s metrics_page remote route.
Abbreviation base := (scheme +:+ "://" +:+ host).

Definition arrived (m path : string) (h : list (string * string)) (body : option string) : Request :=
  MkReq m path "" remote h (MkStream (default "" body) true).

Lemma base_parses path : all_bytes path_byte (String.String slash path) = true ->
  Parse (base +:+ String.String slash path) = Some (MkURL scheme "" host (String.String slash path) "" "" "").
Proof.
  intros Hp.
  assert (Hu : all_bytes url_byte (String.String slash path) = true).
  { revert Hp. apply all_bytes_mono. by apply (all_ascii_impl path_byte url_byte). }
  assert (Hl : parse (scheme +:+ "://" +:+ host +:+ String.String slash path) = Some (MkURL scheme "" host (String.String slash path) "" "" "")).
  { apply (parse_link scheme host ""); [done|done|]. apply unescape_plain_all; [done|]. apply contains_none. revert Hp. apply all_bytes_mono.
    by apply (all_ascii_impl path_byte (fun a => negb (Ascii.eqb a percent))). }
  unfold Parse. rewrite cut_on_none.
  - rewrite !append_assoc, Hl. done.
  - rewrite !append_assoc. apply url_byte_not; [|done]. destruct Hbase as [[_ Hs] [_ Hh] _ _ _]. rewrite !all_bytes_app, Hu.
    rewrite (all_bytes_mono scheme_byte url_byte scheme) by (done || by apply (all_ascii_impl scheme_byte url_byte)).
    rewrite (all_bytes_mono host_byte url_byte host) by (done || by apply (all_ascii_impl host_byte url_byte)). done.
Qed.

(** A request for a route of the table reaches its handler. *)
Lemma reaches m p e id rest h body st resp l w : (m, p, e) ∈ route_table -> id <> "" -> all_bytes plain_byte id = true ->
  (fill_pattern p id).1 = String.String slash rest -> all_bytes path_byte (String.String slash rest) = true -> m <> "OPTIONS" ->
  @handle SRV RC json_http s metrics_page e (if (fill_pattern p id).2 then id else "") (arrived m (String.String slash rest) h body) st.2 st.1 = (Ok (resp, l), w) ->
  net_do (MkCReq m (base +:+ String.String slash rest) h body) st =
    (Some (add_headers (cors_headers s (arrived m (String.String slash rest) h body)) resp), (w, l)).
Proof.
  intros Ht Hid Hb Hf Hp Hm Hh. unfold net_do, net, api_network. cbn [cq_URL cq_Method]. rewrite base_parses by done.
  cbn [u_Path]. rewrite <-Hf at 1. rewrite (routes_match m p e id) by done. rewrite ?Hf.
  change (arrives remote _ _) with (arrived m (String.String slash rest) h body).
  unfold serve. change (rq_Method (arrived m (String.String slash rest) h body)) with m. rewrite bool_decide_false by done.
  unfold bind. rewrite Hh. done.
Qed.

Ltac in_table := unfold route_table; rewrite !elem_of_cons; tauto.

(** ** What the client's calls do *)
Section calls.
Context {ENV : Env} {AGE : Age} {AS : AgeSpec} {OS : Os} {MI : Mime}.
Context (c : Client) (Hc : baseURL c = base).

Definition after (w : World (CliState API)) (p : API) (reqs : list CliRequest) : World (CliState API) :=
  set_db (MkCli (fs (db w)) p (sent (db w) ++ reqs)) w.

Lemma send_runs m path (body : option string) w resp p : let req := MkCReq m (base +:+ path) (if body then [("Content-Type", "application/json")] else []) body in
  net_do req (peer (db w)) = (Some resp, p) -> success (rs_Status resp) = true ->
  send c m path body w = (Ok resp, after w p [req]).
Proof. intros req Hn Hs. unfold send, http_do, bind. rewrite Hc. fold req. rewrite Hn, Hs. done. Qed.

Lemma do_json_runs {A} m path (body : option string) (decode : resp_body -> option A) a w resp p :
  let req := MkCReq m (base +:+ path) (if body then [("Content-Type", "application/json")] else []) body in
  net_do req (peer (db w)) = (Some resp, p) -> success (rs_Status resp) = true -> decode (rs_Body resp) = Some a ->
  do_json c m path body decode w = (Ok a, after w p [req]).
Proof. intros req Hn Hs Hd. unfold do_json. erewrite bind_runs by (by apply send_runs). by rewrite Hd. Qed.

Definition limits_of : Limits :=
  MkLimits (if 0 <? sv_advertisedInlineMaxBytes s then sv_advertisedInlineMaxBytes s else DefaultPayloadInlineMaxBytes)
           (if 0 <? sv_maxFileBytes s then sv_maxFileBytes s else DefaultMaxFileBytes).

Lemma Config_runs w : int64 (sv_advertisedInlineMaxBytes s) -> int64 (sv_maxFileBytes s) ->
  Client.Config c w = (Ok limits_of, after w (peer (db w)) [MkCReq "GET" (base +:+ "/api/config") [] None]).
Proof.
  intros Ha Hm. unfold Client.Config. destruct (peer (db w)) as [sw l] eqn:Ep.
  erewrite bind_runs.
  2:{ apply attempt_ok. eapply (do_json_runs "GET" "/api/config" None decode_limits).
      - rewrite Ep. apply (reaches "GET" "/api/config" GetConfig "x" "api/config" [] None _ (getConfig s) l); try done. in_table.
      - reflexivity.
      - by apply limits_read. }
  done.
Qed.
(** The metadata of a secret that is there. *)
Lemma Metadata_call id m sw sw' l (w : World (CliState API)) : peer (db w) = (sw, l) -> id <> "" -> all_bytes plain_byte id = true ->
  @SecretStore.Metadata SRV id sw = (Ok m, sw') ->
  decode_metadata (JsonBody (metadata_json m)) = Some (metadata_seen m) ->
  Client.GetSecretMetadata c id w = (Ok (metadata_seen m), after w (sw', l) [MkCReq "GET" (base +:+ "/api/secrets/" +:+ id) [] None]).
Proof.
  intros Ep Hid Hb Hm Hd. unfold Client.GetSecretMetadata. rewrite plain_escape by done.
  eapply (do_json_runs "GET" ("/api/secrets/" +:+ id) None decode_metadata).
  - rewrite Ep. apply (reaches "GET" "/api/secrets/{id}" Router.GetSecretMetadata id ("api/secrets/" +:+ id) [] None _ (writeJSON 200 (metadata_json m)) l); try done.
    + in_table.
    + cbn. by rewrite append_nil_r.
    + rewrite <-(append_nil_r id). by apply (plain_path "/api/secrets/" id "").
    + cbn [fill_pattern fst snd]. unfold handle, unlimited, getSecretMetadata, or_error. cbn [fst snd].
      erewrite bind_runs; [reflexivity|]. erewrite bind_runs by (by apply attempt_ok). reflexivity.
  - reflexivity.
  - exact Hd.
Qed.

(** A create that succeeds. *)
Definition create_input (r : createSecretRequest) (ciphertext hash : string) : CreateInput :=
  MkCreateInput (cr_Kind r) ciphertext (cr_KDF r) hash (cr_WrappedIdentity r) (cr_EncryptedFilename r) (cr_ContentType r)
    (cr_SizeBytes r) (cr_TTLSeconds r) (normalizeMaxViews (cr_MaxViews r)).
Definition proof_hash (proof hash : string) : Prop :=
  if bool_decide (proof = "") then hash = "" else hashAccessProof proof = Some hash.

Lemma secret_error_fails e : success (rs_Status (writeSecretError e)) = false.
Proof. destruct e as [[]|[]|[]|[]| |]; reflexivity. Qed.

(** What the answer to a create says of the store. *)
Definition created_by (r : CreateSecretRequest) (w w' : World ApiDB) (resp : Response) : Prop :=
  int64 (cs_TTLSeconds r) /\ exists sec ciphertext hash,
    Base64.decode Base64.StdEncoding (cs_Ciphertext r) = Some ciphertext /\ proof_hash (cr_Proof (received r)) hash /\
    @SecretStore.Create SRV (sv_secrets s) (create_input (received r) ciphertext hash) w = (Ok sec, w') /\
    rs_Body resp = JsonBody (JObject [("management_token", JString (ManagementToken sec)); ("management_expires_at", JString (formatTime (ExpiresAt sec)));
      ("id", JString (SecretStore.ID sec)); ("expires_at", JString (formatTime (ExpiresAt sec)))]).

Lemma optional_proof_run proof k (w : World ApiDB) (P : Response -> World ApiDB -> Prop) :
  P bad_proof w -> (forall hash, proof_hash proof hash -> exists resp w', k hash w = (Ok resp, w') /\ P resp w') ->
  exists resp w', optional_proof proof k w = (Ok resp, w') /\ P resp w'.
Proof.
  intros Hbad Hk. unfold optional_proof, proof_hash in *. case_bool_decide; [by apply Hk|].
  destruct (hashAccessProof proof) as [h|]; [by apply Hk|]. by exists bad_proof, w.
Qed.

Lemma createSecret_answers r q (w : World ApiDB) : sendable r -> cs_Ciphertext r <> "" -> rq_Body q = MkStream (marshal_create r) true ->
  exists resp w', @createSecret SRV json_http s q w = (Ok resp, w') /\ (success (rs_Status resp) = true -> created_by r w w' resp).
Proof.
  intros Hr Hne Hq. unfold createSecret, read_body. rewrite Hq. unfold read_all. cbn [content complete].
  assert (Hsimple : forall resp0, success (rs_Status resp0) = false -> exists resp w',
    bind (ret resp0) (fun resp => ret (no_store resp)) w = (Ok resp, w') /\ (success (rs_Status resp) = true -> created_by r w w' resp)).
  { intros resp0 H0. eexists _, _. split; [reflexivity|]. cbn [rs_Status no_store with_header]. by rewrite H0. }
  destruct (_ <? _); [by apply Hsimple|]. rewrite create_not_sensitive, decode_create_sent by done.
  case_bool_decide as Ht; [|by apply Hsimple]. rewrite bool_decide_false by done.
  change (cr_Ciphertext (received r)) with (cs_Ciphertext r).
  destruct (Base64.decode Base64.StdEncoding (cs_Ciphertext r)) as [ciphertext|] eqn:Ed; [|by apply Hsimple].
  set (P resp w' := success (rs_Status resp) = true -> created_by r w w' resp).
  match goal with |- exists resp w', bind (optional_proof ?p ?k) _ _ = _ /\ _ =>
    enough (exists resp w', optional_proof p k w = (Ok resp, w') /\ P resp w') as (resp & w' & H1 & H2) end.
  { exists (no_store resp), w'. erewrite bind_runs by exact H1. split; [done|]. exact H2. }
  apply optional_proof_run; [done|]. intros hash Hh. unfold or_error.
  destruct (@SecretStore.Create SRV (sv_secrets s) (create_input (received r) ciphertext hash) w) as [[sec|e] w'] eqn:E.
  - eexists _, w'. erewrite bind_runs by (apply attempt_ok; exact E). split; [reflexivity|].
    intros _. split; [done|]. by exists sec, ciphertext, hash.
  - exists (writeSecretError e), w'. erewrite bind_runs by (apply attempt_ok; exact E). split; [reflexivity|].
    intros H. by rewrite secret_error_fails in H.
Qed.

Lemma create_handled r q l (sw : World ApiDB) : sendable r -> cs_Ciphertext r <> "" -> rq_Body q = MkStream (marshal_create r) true ->
  exists resp l' sw', @handle SRV RC json_http s metrics_page Router.CreateSecret "" q l sw = (Ok (resp, l'), sw') /\
    openLimiter l' = openLimiter l /\ (success (rs_Status resp) = true -> created_by r (bump sw) sw' resp).
Proof.
  intros Hr Hne Hq. unfold handle, by_path_create, limited. erewrite bind_runs by reflexivity. unfold charge.
  destruct (allow _ _ _) as [[] rl].
  - destruct (createSecret_answers r q (bump sw) Hr Hne Hq) as (resp & sw' & H1 & H2).
    exists resp, (put_create rl l), sw'. erewrite bind_runs by exact H1. done.
  - eexists _, _, _. split; [reflexivity|done].
Qed.

(** The request that creates a secret. *)
Definition create_post (r : CreateSecretRequest) : CliRequest :=
  MkCReq "POST" (base +:+ "/api/secrets") [("Content-Type", "application/json")] (Some (marshal_create r)).

Lemma Create_call r sw l (w : World (CliState API)) created w' : peer (db w) = (sw, l) -> sendable r -> cs_Ciphertext r <> "" ->
  Client.CreateSecret c r w = (Ok created, w') ->
  exists l' sw' resp, openLimiter l' = openLimiter l /\ created_by r (bump sw) sw' resp /\
    decode_created (rs_Body resp) = Some created /\ w' = after w (sw', l') [create_post r].
Proof.
  intros Ep Hr Hne. set (q := arrived "POST" "/api/secrets" [("Content-Type", "application/json")] (Some (marshal_create r))).
  destruct (create_handled r q l sw Hr Hne eq_refl) as (resp & l' & sw' & Hh & Hl & Hcr).
  assert (Hn : net_do (S := API) (create_post r) (sw, l) = (Some (add_headers (cors_headers s q) resp), (sw', l'))).
  { apply (reaches "POST" "/api/secrets" Router.CreateSecret "x" "api/secrets" _ (Some (marshal_create r)) (sw, l) resp l' sw'); try done. in_table. }
  unfold Client.CreateSecret, do_json, send, http_do, bind. rewrite Ep, Hc. cbn beta iota. fold (create_post r). rewrite Hn.
  cbn [rs_Status rs_Body add_headers]. destruct (success (rs_Status resp)) eqn:Es; cbn beta iota delta [ret throw]; [|done].
  change (rs_Body (add_headers (cors_headers s q) resp)) with (rs_Body resp).
  destruct (decode_created (rs_Body resp)) as [cr|] eqn:Ed; cbn beta iota delta [ret throw]; [|done]. intros [= <- <-].
  exists l', sw', resp. split_and!; auto.
Qed.

(** What the answer of a create tells the client. *)
Lemma created_known r sw sw' resp created : created_by r sw sw' resp -> decode_created (rs_Body resp) = Some created ->
  exists sec ciphertext hash, Base64.decode Base64.StdEncoding (cs_Ciphertext r) = Some ciphertext /\
    proof_hash (cr_Proof (received r)) hash /\
    @SecretStore.Create SRV (sv_secrets s) (create_input (received r) ciphertext hash) sw = (Ok sec, sw') /\
    created = Client.MkCreated (SecretStore.ID sec) (formatTime (ExpiresAt sec)) None /\ all_bytes plain_byte (SecretStore.ID sec) = true /\
    SecretStore.ID sec <> "".
Proof.
  intros (_ & sec & ciphertext & hash & Hd & Hh & HC & Hb) Hdc. exists sec, ciphertext, hash.
  pose proof HC as HC'. apply Create_ok in HC' as (raw & tok & Hraw & _ & _ & _ & _ & _ & _ & Hid & _ & Htok & _).
  rewrite Hb, created_read in Hdc.
  - injection Hdc as <-. split_and!; try done; rewrite Hid.
    + apply encode_bytes; by vm_compute.
    + apply rand_bytes_len in Hraw. by eapply encode_raw_nonempty.
  - rewrite Hid, Htok. repeat constructor; try apply formatTime_utf8; apply encode_utf8; auto.
Qed.

(** Opening an inline secret that is there. *)
Section opening.
Context {CODEC : EventCodec} `{!NoFaults (ENV := SRV)} (ob : outboxEnqueuer) `{!OutboxSpec (ENV := SRV) ob}.
Context (Hob : sv_outbox s = Some ob).

(** The bodies of the client's open, and what the server reads of them. *)
Definition open_body (proof : string) : string := marshal_open (if bool_decide (proof <> "") then Some proof else None).
Lemma open_body_read proof : Json.utf8_valid proof = true ->
  decode_open (open_body proof) = Some (proof, true) /\ hasSensitiveField (open_body proof) = false.
Proof.
  intros Hp. unfold open_body. case_bool_decide as E; [by apply (decode_open_sent (Some proof))|].
  subst proof. by apply (decode_open_sent None).
Qed.

(** The secret the open hands out, as the client sees it. *)
Definition open_post (id proof : string) : CliRequest :=
  MkCReq "POST" (base +:+ "/api/secrets/" +:+ id +:+ "/open") [("Content-Type", "application/json")] (Some (open_body proof)).

Lemma openSecret_answers id proof hash r raw q (w : World ApiDB) :
  openable id hash r (db w) -> Json.utf8_valid proof = true -> proof_hash proof hash ->
  strlen (open_body proof) <= createBodyOverheadLimit -> rq_Body q = MkStream (open_body proof) true ->
  (forall n, (tick w <= n <= 8 + tick w)%nat -> @clk SRV n < s_expires r /\ sane_clock (@clk SRV n)) ->
  @rand_bytes SRV (tick w) 18 = Some raw -> t_outbox (db w) !! Base64.encode Base64.RawURLEncoding raw = None ->
  exists w2 t, @openSecret SRV json_http s id q w =
      (Ok (opened_response (secret_of (db w) id r) (MkStream (payload_of (db w) id) true)), w2) /\
    t_secrets (db w2) !! id = Some (viewed t r) /\ t_payloads (db w2) = t_payloads (db w).
Proof.
  intros Ho Hu Hh Hlen Hq Hclk Hraw Hfresh.
  destruct (inline_opens (ENV := SRV) (sv_secrets s) ob id hash r w raw Ho Hclk Hraw Hfresh) as (w2 & t & Hrun & Hrow & Hpay).
  exists w2, t. split; [|done]. unfold openSecret, read_body. rewrite Hq. unfold read_all. cbn [content complete].
  replace (createBodyOverheadLimit <? _) with false by (symmetry; by apply Z.ltb_ge).
  destruct (open_body_read proof Hu) as [-> ->]. rewrite Hob.
  assert (Hgo : forall k, k hash w = (Ok (opened_response (secret_of (db w) id r) (MkStream (payload_of (db w) id) true)), w2) ->
    optional_proof proof k w = (Ok (opened_response (secret_of (db w) id r) (MkStream (payload_of (db w) id) true)), w2)).
  { intros k Hk. unfold optional_proof. unfold proof_hash in Hh. case_bool_decide; [by rewrite <-Hh|by rewrite Hh]. }
  apply Hgo. unfold or_error. erewrite bind_runs by (apply attempt_ok; exact Hrun). reflexivity.
Qed.


Lemma header_values_app name h k : header_values name (h ++ k) = header_values name h ++ header_values name k.
Proof. unfold header_values. by rewrite filter_app, fmap_app. Qed.
Lemma cors_silent name q : name ∈ ["Flick-Kind"; "Flick-Content-Type"; "Flick-Expires-At"; "Flick-Encrypted-Filename"; "Flick-Wrapped-Identity"] ->
  header_values name (cors_headers s q) = [].
Proof.
  intros Hn. unfold cors_headers. rewrite !header_values_app. rewrite !elem_of_cons, elem_of_nil in Hn.
  destruct Hn as [->|[->|[->|[->|[->|[]]]]]]; (destruct (_ && _)); (destruct (no_store_path _)); reflexivity.
Qed.
Lemma with_cors_get name h q : name ∈ ["Flick-Kind"; "Flick-Content-Type"; "Flick-Expires-At"; "Flick-Encrypted-Filename"; "Flick-Wrapped-Identity"] ->
  header_get name (h ++ cors_headers s q) = header_get name h.
Proof. intros Hn. unfold header_get. by rewrite header_values_app, cors_silent, app_nil_r. Qed.

(** What a client reads of an opened secret. *)
Definition seen_as (sec : Secret) (wrapped : option string) (body : reading) : OpenedSecret :=
  MkOpenedSecret (SecretKind sec) (default "" (ContentType sec)) (formatTime (ExpiresAt sec)) (default "" (EncryptedFilename sec)) wrapped body.

Lemma opened_read sec q (wrapped : option string) : SecretKind sec = "text" \/ SecretKind sec = "file" ->
  WrappedIdentity sec = Base64.encode Base64.StdEncoding <$> wrapped -> wrapped <> Some "" ->
  strlen (Ciphertext sec) = SizeBytes sec ->
  openedSecret (add_headers (cors_headers s q) (opened_response sec (MkStream (Ciphertext sec) true))) (SizeBytes sec) =
  Ok (seen_as sec wrapped (MkReading (Ciphertext sec) None)).
Proof.
  intros Hk Hw Hwne Hsz. unfold openedSecret. cbn [rs_Header add_headers]. rewrite !with_cors_get by set_solver.
  assert (Hkind : header_get "Flick-Kind" (rs_Header (opened_response sec (MkStream (Ciphertext sec) true))) = SecretKind sec) by reflexivity.
  assert (Hexp : header_get "Flick-Expires-At" (rs_Header (opened_response sec (MkStream (Ciphertext sec) true))) = formatTime (ExpiresAt sec)) by reflexivity.
  rewrite Hkind, Hexp. replace (bool_decide (SecretKind sec <> "text") && bool_decide (SecretKind sec <> "file")) with false by (by destruct Hk as [-> | ->]).
  cbn [refuse_if rbind].
  replace (headerBytes _ "Flick-Wrapped-Identity") with (@Ok (option string) wrapped).
  - cbn [rbind]. unfold seen_as. do 2 f_equal.
    + unfold opened_response. cbn [rs_Header]. by destruct (ContentType sec), (EncryptedFilename sec), (WrappedIdentity sec).
    + unfold opened_response. cbn [rs_Header]. by destruct (ContentType sec), (EncryptedFilename sec), (WrappedIdentity sec).
    + unfold exact_reading. cbn. rewrite Hsz, Z.ltb_irrefl. done.
  - symmetry. unfold headerBytes. cbn [rs_Header add_headers]. rewrite with_cors_get by set_solver. unfold opened_response. cbn [rs_Header]. rewrite Hw.
    assert (Hg : header_get "Flick-Wrapped-Identity"
      ([("Cache-Control", "no-store"); ("Content-Type", "application/octet-stream"); ("Content-Length", pretty (SizeBytes sec));
        ("Flick-Kind", SecretKind sec); ("Flick-Expires-At", formatTime (ExpiresAt sec))] ++
       optional_header "Flick-Content-Type" (ContentType sec) ++ optional_header "Flick-Encrypted-Filename" (EncryptedFilename sec) ++
       optional_header "Flick-Wrapped-Identity" (Base64.encode Base64.StdEncoding <$> wrapped)) =
      default "" (Base64.encode Base64.StdEncoding <$> wrapped)) by (by destruct (ContentType sec), (EncryptedFilename sec), wrapped).
    rewrite Hg. destruct wrapped as [x|]; cbn [fmap option_fmap option_map from_option id]; [|done].
    rewrite bool_decide_false by (intros E; apply encode_empty in E; by subst). rewrite (Base64.decode_encode Base64.StdEncoding). done.
Qed.

(** The call that opens. *)
Lemma Open_call id proof hash r raw wrapped sw l (w : World (CliState API)) : peer (db w) = (sw, l) ->
  all_bytes plain_byte id = true -> openable id hash r (db sw) -> Json.utf8_valid proof = true -> proof_hash proof hash ->
  strlen (open_body proof) <= createBodyOverheadLimit ->
  (forall n, (S (tick sw) <= n <= 9 + tick sw)%nat -> @clk SRV n < s_expires r /\ sane_clock (@clk SRV n)) ->
  (forall k t, (charge (openLimiter l) k t).1 = None) ->
  @rand_bytes SRV (S (tick sw)) 18 = Some raw -> t_outbox (db sw) !! Base64.encode Base64.RawURLEncoding raw = None ->
  s_kind r = "text" \/ s_kind r = "file" -> s_wrapped r = Base64.encode Base64.StdEncoding <$> wrapped -> wrapped <> Some "" ->
  strlen (payload_of (db sw) id) = s_size r -> 0 < s_size r ->
  exists sw' l' t,
    Client.OpenSecret c id proof (s_size r) w =
      (Ok (seen_as (secret_of (db sw) id r) wrapped (MkReading (payload_of (db sw) id) None)), after w (sw', l') [open_post id proof]) /\
    t_secrets (db sw') !! id = Some (viewed t r) /\ t_payloads (db sw') = t_payloads (db sw).
Proof.
  intros Ep Hb Ho Hu Hh Hlen Hclk Hadm Hraw Hfresh Hk Hw Hwne Hsz Hpos.
  set (q := arrived "POST" ("/api/secrets/" +:+ id +:+ "/open") [("Content-Type", "application/json")] (Some (open_body proof))).
  destruct (openSecret_answers id proof hash r raw q (bump sw)) as (sw' & t & Hrun & Hrow & Hpay); try done.
  pose proof (oa_id _ _ _ _ Ho) as Hid.
  destruct (allow (limit_key (openLimiter l) q (rq_Path q)) (@clk SRV (tick sw)) (openLimiter l)) as [ok rl] eqn:Ea.
  pose proof (Hadm (limit_key (openLimiter l) q (rq_Path q)) (@clk SRV (tick sw))) as Hok. unfold charge in Hok. rewrite Ea in Hok.
  destruct ok; [|done]. exists sw', (put_open rl l), t. split; [|done].
  set (resp := opened_response (secret_of (db sw) id r) (MkStream (payload_of (db sw) id) true)).
  assert (Hn : net_do (S := API) (open_post id proof) (sw, l) = (Some (add_headers (cors_headers s q) resp), (sw', put_open rl l))).
  { apply (reaches "POST" "/api/secrets/{id}/open" Router.OpenSecret id ("api/secrets/" +:+ id +:+ "/open") _ (Some (open_body proof)) (sw, l) resp _ sw'); try done.
    - in_table.
    - by apply (plain_path "/api/secrets/" id "/open").
    - unfold handle, limited. erewrite bind_runs by reflexivity. cbn [fst snd]. unfold charge. change (arrived "POST" _ _ _) with q. rewrite Ea.
      erewrite bind_runs by exact Hrun. reflexivity. }
  unfold Client.OpenSecret, open_path. rewrite plain_escape by done. fold (open_body proof).
  rewrite fail_if_runs by (apply Z.leb_gt; lia).
  erewrite bind_runs by (apply send_runs; [rewrite Ep; exact Hn|reflexivity]).
  unfold lift. f_equal. by apply (opened_read (secret_of (db sw) id r) q wrapped).
Qed.

(** ** Sending a text *)

(** How the request lets the opener in: with the link alone, or with the
    passphrase, which also wraps the identity. *)
Definition admits (passphrase : string) (id : HybridIdentity) (r : CreateSecretRequest) : Prop :=
  if bool_decide (passphrase = "") then cs_Access r = None /\ cs_WrappedIdentity r = ""
  else exists v t wrapped, cs_Access r = Some v /\ DeriveAccessProof passphrase (av_KDF v) = Ok (av_Proof v) /\
    sendable_kdf (av_KDF v) /\ kdf_Algorithm (av_KDF v) <> "" /\
    scrypt_encrypt t WrapWorkFactor passphrase (identity_string id) = Ok wrapped /\
    cs_WrappedIdentity r = Base64.encode Base64.StdEncoding wrapped.

Lemma with_passphrase_ok o id r (w : World (CliState API)) r' w' : cs_Access r = None -> cs_WrappedIdentity r = "" ->
  with_passphrase o id r w = (Ok r', w') ->
  db w' = db w /\ admits (so_Passphrase o) id r' /\
  r' = Client.MkCreateReq (cs_Kind r) (cs_Ciphertext r) (cs_Access r') (cs_WrappedIdentity r') (cs_EncryptedFilename r) (cs_ContentType r)
         (cs_SizeBytes r) (cs_TTLSeconds r) (cs_MaxViews r).
Proof.
  intros Ha Hwi. unfold with_passphrase, admits. case_bool_decide as E.
  - rewrite bool_decide_false by done. unfold addPassphrase, NewAccessVerifier, WrapIdentity. intros H. msteps H.
    repeat match goal with H : bind _ _ _ = (Ok _, _) |- _ => progress msteps H end.
    match goal with H : rand_bytes _ _ = Some ?salt |- _ => rename salt into sa end. split; [done|]. split; [|done].
    match goal with Hd : DeriveAccessProof _ _ = Ok ?p, He : scrypt_encrypt ?t _ _ _ = Ok ?x |- _ =>
      exists (MkVerifier (MkKDF KDFAlgorithm (Base64.encode Base64.StdEncoding sa) KDFIterations KeyLengthBits) p), t, x;
      split; [reflexivity|]; split; [exact Hd|]; split; [|split; [discriminate|split; [exact He|reflexivity]]] end.
    split; [reflexivity|]. split; [apply encode_utf8; by left|]. split; by vm_compute.
  - rewrite bool_decide_true by (by destruct (so_Passphrase o)). intros H. mstep H. split; [done|]. split; [done|]. by destruct r.
Qed.

Lemma Send_text_ok o (w : World (CliState API)) res w' : so_FileName o = "" -> Send c o w = (Ok res, w') ->
  exists limits w0 id t body r created w2,
    Client.Config c w = (Ok limits, w0) /\ age_encrypt t id (so_Text o) = Ok body /\
    (0 < li_PayloadInlineMaxBytes limits -> strlen (so_Text o) <= li_PayloadInlineMaxBytes limits) /\
    admits (so_Passphrase o) id r /\
    r = Client.MkCreateReq "text" (Base64.encode Base64.StdEncoding body) (cs_Access r) (cs_WrappedIdentity r) "" "" (strlen body) (ttl_seconds (so_TTL o)) 1 /\
    db w2 = db w0 /\ Client.CreateSecret c r w2 = (Ok created, w') /\ res = send_result c o id created false.
Proof.
  intros Hf. unfold Send. intros H. apply bind_ok in H as (u & w1 & Hv & H). mstep Hv.
  apply bind_ok in H as (limits & w0 & Hl & H). apply bind_ok in H as (id & w3 & Hid & H). unfold NewIdentity in Hid.
  apply bind_ok in Hid as (g & w4 & Hg & Hid). mstep Hg. destruct (GenerateHybridIdentity _) as [i|]; [|done]. mstep Hid.
  assert (Hs : send_text c o i limits (bump w0) = (Ok res, w')).
  { rewrite Hf in H. by destruct (so_File o). }
  clear H. unfold send_text, seal, EncryptTo in Hs.
  apply bind_ok in Hs as (u1 & w5 & H1 & Hs). mstep H1. apply bind_ok in Hs as (body & w6 & H2 & Hs). msteps H2.
  apply bind_ok in Hs as (r & w7 & H3 & Hs). apply bind_ok in Hs as (created & w8 & H4 & Hs). mstep Hs.
  apply with_passphrase_ok in H3 as (Hdb & Ha & Hr); [|done|done].
  exists limits, w0, i, (tick (bump w0)), body, r, created, w7. split_and!; try done.
  intros Hpos. apply andb_false_iff in H1 as [H1|H1]; [apply Z.ltb_ge in H1; lia|by apply Z.ltb_ge in H1].
Qed.

(** What a text that was sent has left in the database. *)
Record delivered (o : SendOptions) (i : HybridIdentity) (sid hash : string) (r : CreateSecretRequest) (row : secret_row) (d : ApiDB) : Prop := {
  dl_open : openable sid hash row d;
  dl_id : all_bytes plain_byte sid = true;
  dl_admits : admits (so_Passphrase o) i r;
  dl_hash : proof_hash (cr_Proof (received r)) hash;
  dl_kind : s_kind row = "text";
  dl_kdf : s_access_kdf row = server_kdf ∘ av_KDF <$> cs_Access r;
  dl_wrapped : s_wrapped row = present (cs_WrappedIdentity r);
  dl_size : s_size row = strlen (payload_of d sid);
  dl_body : exists t, age_encrypt t i (so_Text o) = Ok (payload_of d sid);
  dl_short : strlen (so_Text o) <= li_PayloadInlineMaxBytes limits_of;
}.

Context (Hadv : 0 < sv_advertisedInlineMaxBytes s <= 2 ^ 53) (Hmax : int64 (sv_maxFileBytes s)).

Lemma advertised : li_PayloadInlineMaxBytes limits_of = sv_advertisedInlineMaxBytes s.
Proof. unfold limits_of. cbn. by destruct (Z.ltb_spec 0 (sv_advertisedInlineMaxBytes s)); [|lia]. Qed.

Lemma body_size t i o body : age_encrypt t i (so_Text o) = Ok body -> strlen (so_Text o) <= sv_advertisedInlineMaxBytes s ->
  strlen body <= ageFileBytes (sv_advertisedInlineMaxBytes s) /\ strlen body < 2 ^ 62.
Proof.
  intros He Hs. apply encrypt_size in He. rewrite client_size_formula, MaxCiphertextBytes_exact by (unfold max_exact; lia).
  pose proof (age_size_mono (strlen (so_Text o)) (sv_advertisedInlineMaxBytes s) ltac:(lia)).
  assert (age_size (sv_advertisedInlineMaxBytes s) < 2 ^ 62); [|lia]. unfold age_size.
  assert ((sv_advertisedInlineMaxBytes s + 65535) / 65536 <= 2 ^ 54) by (apply Z.div_le_upper_bound; lia). lia.
Qed.

Lemma hash_nonempty proof hash : proof_hash proof hash -> (proof = "" <-> hash = "").
Proof.
  unfold proof_hash. case_bool_decide as E; [by intros ->|]. unfold hashAccessProof. rewrite bool_decide_false by done.
  destruct (Base64.decode _ _) as [b|]; [|done]. case_bool_decide; [done|]. intros [= <-]. split; [done|].
  intros H0%encode_empty. pose proof (Sha256.sum_length b) as Hl. by rewrite H0 in Hl.
Qed.

Lemma send_result_id o i created large : sr_ID (send_result c o i created large) = cd_ID created.
Proof. unfold send_result. by case_bool_decide. Qed.

Lemma proof_ascii passphrase kdf proof : DeriveAccessProof passphrase kdf = Ok proof ->
  exists key, proof = Base64.encode Base64.StdEncoding key.
Proof.
  unfold DeriveAccessProof. destruct (ValidateKDF kdf); [|done]. cbn [rbind]. destruct (refuse_if _ _); [|done]. cbn [rbind].
  destruct (Base64.decode _ _); [|done]. intros [= <-]. eauto.
Qed.

Lemma derived_nonempty passphrase kdf proof : DeriveAccessProof passphrase kdf = Ok proof -> proof <> "".
Proof.
  unfold DeriveAccessProof. destruct (ValidateKDF kdf); [|done]. cbn [rbind]. destruct (refuse_if _ _); [|done]. cbn [rbind].
  destruct (Base64.decode _ _); [|done]. intros [= <-] E%encode_empty. apply (f_equal String.length) in E.
  rewrite pbkdf2_length in E. done.
Qed.

Lemma admits_sendable o i r t body : admits (so_Passphrase o) i r -> age_encrypt t i (so_Text o) = Ok body ->
  strlen (so_Text o) <= sv_advertisedInlineMaxBytes s ->
  r = Client.MkCreateReq "text" (Base64.encode Base64.StdEncoding body) (cs_Access r) (cs_WrappedIdentity r) "" "" (strlen body) (ttl_seconds (so_TTL o)) 1 ->
  sendable r /\ cs_Ciphertext r <> "".
Proof.
  intros Ha He Hs Hr. destruct (body_size _ _ _ _ He Hs) as [_ Hlen]. split.
  - rewrite Hr. split; cbn [cs_Kind cs_Ciphertext cs_Access cs_WrappedIdentity cs_EncryptedFilename cs_ContentType cs_SizeBytes cs_MaxViews].
    + assert (Hw : Json.utf8_valid (cs_WrappedIdentity r) = true).
      { clear Hr. unfold admits in Ha. case_bool_decide; [by destruct Ha as [_ ->]|].
        destruct Ha as (v & t' & x & _ & _ & _ & _ & _ & ->). apply encode_utf8. by left. }
      rewrite !Forall_cons, Forall_nil. split_and!; [reflexivity|apply encode_utf8; by left|exact Hw|reflexivity..|exact I].
    + clear Hr. unfold admits in Ha. case_bool_decide; [by destruct Ha as [-> _]|].
      destruct Ha as (v & t' & x & -> & Hp & Hk & _). split; [exact Hk|].
      apply proof_ascii in Hp as [key ->]. apply encode_utf8. by left.
    + unfold int64. split; lia.
  - rewrite Hr. cbn [cs_Ciphertext]. intros E%encode_empty. subst body. apply encrypt_magic in He. done.
Qed.

(** The columns of the row. *)
Lemma row_columns passphrase i r body hash sid tm : admits passphrase i r -> proof_hash (cr_Proof (received r)) hash ->
  let row := created_row (create_input (received r) body hash) sid tm in
  s_kind row = cs_Kind r /\ s_access_kdf row = server_kdf ∘ av_KDF <$> cs_Access r /\
  s_wrapped row = present (cs_WrappedIdentity r) /\ s_size row = cs_SizeBytes r.
Proof.
  intros Ha Hh%hash_nonempty. unfold created_row, modelAColumns, create_input.
  cbn [in_AccessProofHash in_AccessKDF received cr_KDF cr_Proof] in *.
  assert (Hacc : (cs_Access r = None /\ hash = "") \/ exists v, cs_Access r = Some v /\ hash <> "").
  { unfold admits in Ha. case_bool_decide; [left; destruct Ha as [E _]; rewrite E in Hh; split; [done|by apply Hh]|right].
    destruct Ha as (v & t & x & E & Hd & _). exists v. split; [done|]. rewrite E in Hh. intros H0. apply Hh in H0.
    by apply derived_nonempty in Hd. }
  destruct Hacc as [[-> ->]|(v & -> & Hne)]; [rewrite bool_decide_true by done|rewrite bool_decide_false by done]; done.
Qed.

(** A text that was sent is in the database, under the id of the result, and
    can be opened. *)
Lemma Send_delivers o (w : World (CliState API)) res w' : so_FileName o = "" -> Send c o w = (Ok res, w') ->
  map_Forall (fun _ m => management_check m = true) (t_management (db (peer (db w)).1)) ->
  exists i r sw l hash row, peer (db w') = (sw, l) /\ delivered o i (sr_ID res) hash r row (db sw) /\
    sr_Link res = BuildShareLink (if bool_decide (so_ShareOrigin o = "") then baseURL c else so_ShareOrigin o) (sr_ID res)
                    (if bool_decide (so_Passphrase o = "") then Some i else None).
Proof.
  intros Hf HS Hm. apply Send_text_ok in HS as (limits & w0 & i & t & body & r & created & w2 & Hcfg & He & Hs & Ha & Hr & Hdb & HC & ->); [|done].
  rewrite Config_runs in Hcfg by (unfold int64; lia || done). injection Hcfg as <- <-. rewrite advertised in Hs. specialize (Hs ltac:(lia)).
  destruct (admits_sendable _ _ _ _ _ Ha He Hs Hr) as [Hsd Hne].
  destruct (peer (db w)) as [sw0 l0] eqn:Ep.
  apply (Create_call r sw0 l0) in HC as (l & sw & resp & _ & Hcr & Hd & ->); [|by rewrite Hdb|done|done].
  destruct (created_known _ _ _ _ _ Hcr Hd) as (sec & ciphertext & hash & Hdec & Hh & HCr & -> & Hb & Hid).
  rewrite Hr in Hdec. cbn [cs_Ciphertext] in Hdec. rewrite (Base64.decode_encode Base64.StdEncoding) in Hdec. injection Hdec as <-.
  destruct (created_openable (ENV := SRV) _ _ _ _ _ HCr Hm) as (Ho & Hp & _). cbn [in_AccessProofHash create_input in_Ciphertext] in Ho, Hp.
  exists i, r, sw, l, hash. eexists. split; [done|]. split.
  - destruct (row_columns _ _ _ body _ (SecretStore.ID sec) (@clk SRV (S (tick (bump sw0)))) Ha Hh) as (H1 & H2 & H3 & H4).
    rewrite send_result_id. cbn [cd_ID]. split; [exact Ho|done|done|done| |exact H2|exact H3| |rewrite Hp; by exists t|by rewrite advertised].
    + etrans; [exact H1|]. by rewrite Hr.
    + rewrite Hp. etrans; [exact H4|]. by rewrite Hr.
  - unfold send_result. by repeat case_bool_decide.
Qed.

(** ** Opening a text *)
Lemma escape_plain_text text : all_bytes (fun c => ascii_byte c && bool_decide (Json.escape_ascii c = String.String c "")) text = true -> Json.escape text = text.
Proof.
  unfold Json.escape. induction text as [|a text IH]; [done|]. cbn [all_bytes]. intros [[Ha Hp]%andb_true_iff Hs]%andb_true_iff.
  apply bool_decide_eq_true in Hp. cbn [String.length Json.escape_scan]. unfold ascii_byte in Ha. cbn [Json.rune_width]. rewrite Ha, Hp.
  change (String.String a "" +:+ Json.escape_scan (String.length text) text) with (String.String a (Json.escape_scan (String.length text) text)). by rewrite IH.
Qed.

Lemma encode_length e b : (String.length (Base64.encode e b) <= 4 * String.length b)%nat.
Proof.
  induction b as [|x|x y|x y z r IH] using Base64.string_ind3; [done|..]; cbn [Base64.encode String.length];
    [destruct (Base64.padded e); cbn [String.length]; lia..|lia].
Qed.

Lemma open_body_short passphrase kdf proof : proof = "" \/ DeriveAccessProof passphrase kdf = Ok proof ->
  Json.utf8_valid proof = true /\ strlen (open_body proof) <= createBodyOverheadLimit.
Proof.
  intros [->|Hp]; [by split; vm_compute|]. pose proof (derived_nonempty _ _ _ Hp) as Hne.
  assert (exists key, proof = Base64.encode Base64.StdEncoding key /\ String.length key = 32%nat) as (key & -> & Hl).
  { unfold DeriveAccessProof in Hp. destruct (ValidateKDF kdf); [|done]. cbn [rbind] in Hp. destruct (refuse_if _ _); [|done]. cbn [rbind] in Hp.
    destruct (Base64.decode _ _); [|done]. injection Hp as <-. eexists. split; [done|apply pbkdf2_length]. }
  split; [apply encode_utf8; by left|]. unfold open_body. rewrite bool_decide_true by done.
  unfold marshal_open, json_client, open_members. cbn [Json.print map String.concat fst snd]. unfold Json.quoted.
  rewrite (escape_plain_text (Base64.encode _ _)) by (apply encode_bytes; by vm_compute).
  pose proof (encode_length Base64.StdEncoding key) as He. unfold createBodyOverheadLimit, Json.char.
  rewrite ?strlen_app. cbn [String.length]. rewrite ?strlen_app. cbn [String.length].
  change (String.length (Json.escape "access_proof")) with 12%nat. lia.
Qed.

Lemma Metadata_runs id h r (sw : World ApiDB) : openable id h r (db sw) -> @clk SRV (S (tick sw)) < s_expires r ->
  @SecretStore.Metadata SRV id sw =
    (Ok (MkMetadata id (s_kind r) (default kdf_zero (s_access_kdf r)) (s_size r) (s_expires r)), bump (bump sw)).
Proof.
  intros [Hid _ Hr _ Hun _ Hp _ _ _] Ht. unfold SecretStore.Metadata.
  rewrite fail_if_runs by (by apply bool_decide_false). erewrite bind_runs by apply sql_query_runs. rewrite Hr.
  assert (Hpay : is_some (t_payloads (db sw) !! id) = true).
  { unfold payload_of in Hp. by destruct (t_payloads (db sw) !! id). }
  rewrite Hpay, orb_true_r. rewrite fail_if_runs by (by rewrite Hun). erewrite bind_runs by reflexivity.
  rewrite fail_if_runs by (apply negb_false_iff; by apply before_true). done.
Qed.

(** Once opened, it is reported as consumed. *)
Lemma Metadata_gone id h r t d (sw : World ApiDB) : openable id h r d ->
  t_secrets (db sw) !! id = Some (viewed t r) -> t_payloads (db sw) = t_payloads d ->
  @SecretStore.Metadata SRV id sw = (Err (SecretsErr ErrConsumed), bump sw).
Proof.
  intros [Hid _ _ _ _ _ Hp _ _ _] Hr Hd. unfold SecretStore.Metadata.
  rewrite fail_if_runs by (by apply bool_decide_false). erewrite bind_runs by apply sql_query_runs. rewrite Hr, Hd.
  assert (Hpay : is_some (t_payloads d !! id) = true).
  { unfold payload_of in Hp. by destruct (t_payloads d !! id). }
  by rewrite Hpay, orb_true_r.
Qed.

Lemma unwrap_wrapped t passphrase i wrapped : passphrase <> "" ->
  scrypt_encrypt t WrapWorkFactor passphrase (identity_string i) = Ok wrapped -> UnwrapIdentity wrapped passphrase = Ok i.
Proof.
  intros Hne He. unfold UnwrapIdentity. rewrite bool_decide_false by done. cbn [refuse_if rbind].
  rewrite (scrypt_roundtrip t WrapWorkFactor MaxWrapWorkFactor passphrase (identity_string i) wrapped He) by done.
  pose proof (identity_short i) as Hs. unfold read_limited, maxIdentityBytes, maxKeyFragmentChars in *. cbn [released failure].
  destruct (Z.leb_spec (1024 + 1) (strlen (identity_string i))); [lia|].
  destruct (Z.ltb_spec 1024 (strlen (identity_string i))); [lia|]. cbn [refuse_if rbind]. apply ParseIdentity_string.
Qed.

(** What the opener needs: the wrapped identity the API returns is the one
    that was sent, and with it, or with the link, the identity comes back. *)
Lemma access_prepared o i r link paths (m : Client.SecretMetadata) (w : World (CliState API)) :
  admits (so_Passphrase o) i r -> Client.md_Access m = av_KDF <$> cs_Access r ->
  sl_Identity link = (if bool_decide (so_Passphrase o = "") then Some i else None) ->
  exists a wrapped, prepare_access (MkOpen link (Some (ret (so_Passphrase o))) paths) m w = (Ok a, w) /\
    access_proof a = cr_Proof (received r) /\ (access_proof a = "" \/ exists kdf, DeriveAccessProof (so_Passphrase o) kdf = Ok (access_proof a)) /\
    present (cs_WrappedIdentity r) = Base64.encode Base64.StdEncoding <$> wrapped /\ wrapped <> Some "" /\
    forall opened, os_WrappedIdentity opened = wrapped -> identity_of a opened = Ok i.
Proof.
  intros Ha Hm Hl. unfold prepare_access. cbn [oo_Passphrase oo_Link]. rewrite Hm, Hl. unfold admits in Ha. cbn [received cr_Proof].
  case_bool_decide as E.
  - destruct Ha as [-> ->]. exists (ByLink i), None. split_and!; try done. by left.
  - destruct Ha as (v & t & x & -> & Hd & _ & _ & He & ->). exists (ByPassphrase (so_Passphrase o) (av_Proof v)), (Some x).
    cbn [fmap option_fmap option_map]. split_and!; [|done| | |by intros [= ->]; apply scrypt_magic in He|].
    + erewrite bind_runs by reflexivity. unfold lift, bind. by rewrite Hd.
    + right. by exists (av_KDF v).
    + unfold present. rewrite bool_decide_false; [done|]. intros E0%encode_empty. subst x. by apply scrypt_magic in He.
    + intros opened Ho. unfold identity_of. rewrite Ho. by apply (unwrap_wrapped t).
Qed.

Lemma metadata_delivered o i sid hash r row d : delivered o i sid hash r row d ->
  let m := MkMetadata sid (s_kind row) (default kdf_zero (s_access_kdf row)) (s_size row) (s_expires row) in
  decode_metadata (JsonBody (metadata_json m)) = Some (metadata_seen m) /\ Client.md_Access (metadata_seen m) = av_KDF <$> cs_Access r.
Proof.
  intros [Ho Hid Ha _ Hk Hkdf _ Hsz [t Hb] Hshort] m.
  assert (Hacc : Client.md_Access (metadata_seen m) = av_KDF <$> cs_Access r /\ sendable_kdf (client_kdf (default kdf_zero (s_access_kdf row)))).
  { unfold metadata_seen, m. cbn [Client.md_Access SecretStore.md_AccessKDF]. rewrite Hkdf. unfold admits in Ha. case_bool_decide.
    - destruct Ha as [-> _]. done.
    - destruct Ha as (v & _ & _ & -> & _ & Hs & Hne & _). cbn [fmap option_fmap option_map compose from_option id].
      rewrite bool_decide_true by done. by destruct (av_KDF v). }
  destruct Hacc as [Hacc Hs]. split; [|exact Hacc]. apply metadata_read.
  - apply utf8_bytes. revert Hid. apply all_bytes_mono. by apply (all_ascii_impl plain_byte ascii_byte).
  - cbn. by rewrite Hk.
  - apply formatTime_utf8.
  - cbn [SecretStore.md_SizeBytes m]. rewrite Hsz. rewrite advertised in Hshort.
    destruct (body_size _ _ _ _ Hb Hshort) as [_ Hl]. unfold int64. lia.
  - exact Hs.
Qed.

(** The server's clock and random source while it serves one open. *)
Definition in_time (sw : World ApiDB) (sid : string) : Prop :=
  forall n, (tick sw <= n <= 12 + tick sw)%nat ->
    sane_clock (@clk SRV n) /\ (forall row, t_secrets (db sw) !! sid = Some row -> @clk SRV n < s_expires row) /\
    exists raw, @rand_bytes SRV n 18 = Some raw /\ t_outbox (db sw) !! Base64.encode Base64.RawURLEncoding raw = None.
Definition admitting (l : Limiters) : Prop := forall k t, (charge (openLimiter l) k t).1 = None.

Lemma Open_delivered o i sid hash r row sw l link paths (w : World (CliState API)) :
  peer (db w) = (sw, l) -> delivered o i sid hash r row (db sw) -> in_time sw sid -> admitting l ->
  sl_ID link = sid -> sl_Identity link = (if bool_decide (so_Passphrase o = "") then Some i else None) -> op_OutputPath paths = "" ->
  exists shown w' sw' l' t, CliOpen.Open c (CliOpen.MkOpen link (Some (ret (so_Passphrase o))) paths) w = (Ok (shown, None), w') /\
    or_Kind shown = "text" /\ or_Plaintext shown = so_Text o /\ peer (db w') = (sw', l') /\
    t_secrets (db sw') !! sid = Some (viewed t row) /\ t_payloads (db sw') = t_payloads (db sw).
Proof.
  intros Ep Hdel Htime Hadm Hsid Hident Hout. pose proof (metadata_delivered _ _ _ _ _ _ _ Hdel) as [Hdec Hacc].
  destruct Hdel as [Ho Hb Ha Hh Hk _ Hw Hsz [te He] Hshort]. pose proof (oa_id _ _ _ _ Ho) as Hid.
  destruct (Htime (S (tick sw)) ltac:(lia)) as (_ & Hexp & _). specialize (Hexp row (oa_row _ _ _ _ Ho)).
  pose proof (Metadata_runs _ _ _ _ Ho Hexp) as Hm. cbn zeta in Hdec.
  set (m := MkMetadata sid (s_kind row) _ _ _) in *.
  pose proof (Metadata_call sid m sw (bump (bump sw)) l w Ep Hid Hb Hm Hdec) as Hget.
  set (w1 := after w (bump (bump sw), l) _) in Hget.
  destruct (access_prepared o i r link paths (metadata_seen m) w1 Ha Hacc Hident) as (a & wrapped & Hpa & Hproof & Hderived & Hwr & Hwne & Hidof).
  rewrite advertised in Hshort. destruct (body_size _ _ _ _ He Hshort) as [Hfits Hl].
  pose proof (Config_runs w1 ltac:(unfold int64; lia) Hmax) as Hcfg. set (w2 := after w1 _ _) in Hcfg.
  destruct (Htime (3 + tick sw)%nat ltac:(lia)) as (_ & _ & raw & Hraw & Hfresh).
  destruct (open_body_short (so_Passphrase o) (match cs_Access r with Some v => av_KDF v | None => MkKDF "" "" 0 0 end) (access_proof a)) as [Hpu Hpl].
  { destruct Hderived as [|[kdf Hd]]; [by left|]. right. rewrite Hproof in *. cbn [received cr_Proof] in *.
    unfold admits in Ha. case_bool_decide; [destruct Ha as [E _]; rewrite E in Hd; by apply derived_nonempty in Hd|].
    destruct Ha as (v & _ & _ & -> & Hv & _). exact Hv. }
  destruct (Open_call sid (access_proof a) hash row raw wrapped (bump (bump sw)) l w2) as (sw' & l' & t & Hopen & Hrow & Hpay); try done.
  { by rewrite Hproof. }
  { intros n Hn. cbn [tick bump] in Hn. destruct (Htime n ltac:(lia)) as (H1 & H2 & _). split; [by apply H2, (oa_row _ _ _ _ Ho)|done]. }
  { by left. }
  { by rewrite Hw. }
  { rewrite Hsz. apply encrypt_magic in He. change (payload_of (db (bump (bump sw))) sid) with (payload_of (db sw) sid) in *.
    destruct (payload_of (db sw) sid); [done|]. cbn [String.length]. lia. }
  exists (MkResult "text" (so_Text o) "" (default "" (s_content_type row)) "" "" false), (after w2 (sw', l') [open_post sid (access_proof a)]), sw', l', t.
  split; [|done]. unfold CliOpen.Open.
  assert (Hprep : prepare c (MkOpen link (Some (ret (so_Passphrase o))) paths) w = (Ok (metadata_seen m, a, MkDest None ""), w2)).
  { unfold prepare. cbn [oo_Link oo_Paths]. rewrite Hsid. rewrite fail_if_runs by (by apply bool_decide_false).
    erewrite bind_runs by exact Hget. erewrite bind_runs by exact Hpa.
    change (Client.md_Kind (metadata_seen m)) with (s_kind row). rewrite Hk. rewrite bool_decide_true by done.
    erewrite bind_runs.
    2:{ erewrite bind_runs by exact Hcfg. rewrite advertised. change (Client.md_SizeBytes (metadata_seen m)) with (s_size row).
        unfold fail_if. destruct (Z.ltb_spec (ageFileBytes (sv_advertisedInlineMaxBytes s)) (s_size row)); [lia|reflexivity]. }
    unfold reserveDestination. rewrite Hout. rewrite bool_decide_false by naive_solver. by rewrite bool_decide_true by done. }
  erewrite bind_runs by exact Hprep. cbv beta iota. change (Client.md_SizeBytes (metadata_seen m)) with (s_size row). cbn [oo_Link]. rewrite Hsid.
  erewrite bind_runs by (apply attempt_ok; exact Hopen). cbv beta iota.
  rewrite Hidof by done. change (os_Kind _) with (s_kind row). rewrite Hk. rewrite bool_decide_true by done.
  unfold openText, unsealReader, DecryptWith. change (os_Body _) with (MkReading (payload_of (db sw) sid) None).
  rewrite (decrypt_encrypt te i (so_Text o) _ He). cbn [rbind failure released oo_Paths]. rewrite bool_decide_true by done.
  change (os_Kind _) with (s_kind row). by rewrite Hk.
Qed.

(** A second open stops at the metadata. *)
Lemma Metadata_consumed id sw l (w : World (CliState API)) : peer (db w) = (sw, l) -> id <> "" -> all_bytes plain_byte id = true ->
  @SecretStore.Metadata SRV id sw = (Err (SecretsErr ErrConsumed), bump sw) ->
  exists w', Client.GetSecretMetadata c id w = (Err (APIError "consumed"), w').
Proof.
  intros Ep Hid Hb Hm. unfold Client.GetSecretMetadata. rewrite plain_escape by done.
  set (resp := writeSecretError (SecretsErr ErrConsumed)).
  set (req := MkCReq "GET" (base +:+ "/api/secrets/" +:+ id) [] None).
  set (q := arrived "GET" ("/api/secrets/" +:+ id) [] None).
  assert (Hn : net_do (S := API) req (sw, l) = (Some (add_headers (cors_headers s q) resp), (bump sw, l))).
  { apply (reaches "GET" "/api/secrets/{id}" Router.GetSecretMetadata id ("api/secrets/" +:+ id) [] None (sw, l) resp l (bump sw)); try done.
    - in_table.
    - cbn. by rewrite append_nil_r.
    - rewrite <-(append_nil_r id). by apply (plain_path "/api/secrets/" id "").
    - unfold handle, unlimited, getSecretMetadata, or_error. cbn [fill_pattern fst snd].
      erewrite bind_runs; [reflexivity|]. erewrite bind_runs by (apply attempt_ok; exact Hm). reflexivity. }
  assert (He : readAPIError (add_headers (cors_headers s q) resp) = APIError "consumed").
  { unfold readAPIError. change (rs_Body (add_headers (cors_headers s q) resp)) with (rs_Body resp).
    unfold resp, writeSecretError. by rewrite error_read by (reflexivity || (vm_compute; lia)). }
  eexists. unfold do_json, send, http_do, bind. rewrite Ep, Hc. cbn beta iota. fold req. rewrite Hn. cbn beta iota.
  change (success (rs_Status (add_headers (cors_headers s q) resp))) with false. cbn beta iota delta [throw].
  rewrite He. reflexivity.
Qed.

Lemma Open_consumed o sid hash row sw sw' l' t link paths (w : World (CliState API)) :
  peer (db w) = (sw', l') -> openable sid hash row (db sw) -> all_bytes plain_byte sid = true -> sl_ID link = sid ->
  t_secrets (db sw') !! sid = Some (viewed t row) -> t_payloads (db sw') = t_payloads (db sw) ->
  exists w', CliOpen.Open c (CliOpen.MkOpen link (Some (ret (so_Passphrase o))) paths) w = (Err (APIError "consumed"), w').
Proof.
  intros Ep Ho Hb Hsid Hrow Hpay. pose proof (oa_id _ _ _ _ Ho) as Hid.
  destruct (Metadata_consumed sid sw' l' w Ep Hid Hb (Metadata_gone sid hash row t (db sw) sw' Ho Hrow Hpay)) as (w' & Hg).
  exists w'. unfold CliOpen.Open, prepare. cbn [oo_Link]. rewrite Hsid. unfold bind at 1.
  rewrite fail_if_runs by (by apply bool_decide_false). unfold bind at 1. by rewrite Hg.
Qed.

Lemma trim_base : trim_right_byte slash base = base.
Proof.
  destruct Hbase as [_ [Hne Hh] _ _ _]. rewrite <-append_assoc.
  assert (Ht : forall p t, t <> "" -> all_bytes host_byte t = true -> trim_right_byte slash (p +:+ t) = p +:+ t); [|by apply Ht].
  assert (H0 : forall t, t <> "" -> all_bytes host_byte t = true -> trim_right_byte slash t = t).
  { induction t as [|a t IH]; [done|]. intros _ [Ha Ht]%andb_true_iff. cbn [trim_right_byte].
    destruct t as [|b t]; [|by rewrite IH]. cbn. destruct (Ascii.eqb_spec a slash) as [->|]; [by vm_compute in Ha|done]. }
  induction p as [|a p IH]; intros t Hn Ht; [by apply H0|].
  change (String.String a p +:+ t) with (String.String a (p +:+ t)). cbn [trim_right_byte]. rewrite IH by done.
  destruct (p +:+ t) eqn:E; [|done]. destruct p; [by subst|done].
Qed.

(** C3: A text sent through the command line client can be opened through
    its link, once.  When [Send] succeeds, with a passphrase or without, the
    link parses, and [Open] on the deployment it names, before the expiry and
    with the same passphrase, prints the text that was sent; after that,
    [Open] fails with the API's answer that the secret was consumed. *)
Theorem sent_text_opens_once (o : SendOptions) (paths : OpenPaths) (w w1 : World (CliState API)) (res : SendResult) sw l :
  so_FileName o = "" -> so_ShareOrigin o = "" -> op_OutputPath paths = "" ->
  map_Forall (fun _ m => management_check m = true) (t_management (db (peer (db w)).1)) ->
  Send c o w = (Ok res, w1) ->
  peer (db w1) = (sw, l) -> in_time sw (sr_ID res) -> admitting l ->
  exists link shown w2 w3, ParseShareLink (sr_Link res) = Ok link /\
    let open := CliOpen.Open (NewClient (sl_Origin link)) (CliOpen.MkOpen link (Some (ret (so_Passphrase o))) paths) in
    open w1 = (Ok (shown, None), w2) /\ or_Kind shown = "text" /\ or_Plaintext shown = so_Text o /\
    open w2 = (Err (APIError "consumed"), w3).
Proof.
  intros Hf Hor Hout Hm HS Ep Htime Hadm.
  destruct (Send_delivers o w res w1 Hf HS Hm) as (i & r & sw0 & l0 & hash & row & Ep' & Hdel & Hlink).
  rewrite Ep in Ep'. injection Ep' as <- <-. pose proof Hdel as [Ho Hb _ _ _ _ _ _ _ _].
  rewrite Hor, bool_decide_true, Hc in Hlink by done.
  set (identity := if bool_decide (so_Passphrase o = "") then Some i else None) in Hlink.
  assert (Hnob : contains_byte slash (sr_ID res) = false /\ contains_byte percent (sr_ID res) = false).
  { split; apply contains_none; revert Hb; apply all_bytes_mono;
      [by apply (all_ascii_impl plain_byte (fun a => negb (Ascii.eqb a slash)))|by apply (all_ascii_impl plain_byte (fun a => negb (Ascii.eqb a percent)))]. }
  assert (Hparse : ParseShareLink (sr_Link res) = Ok (MkLink base (sr_ID res) identity)).
  { rewrite Hlink. rewrite (parse_built scheme host "" base (sr_ID res) identity Hbase) by
      (by rewrite ?trim_base, ?append_nil_r || apply (oa_id _ _ _ _ Ho) || apply Hnob).
    unfold PathUnescape. rewrite unescape_plain_all by (done || apply Hnob). by rewrite append_nil_r. }
  assert (Hsame : NewClient base = c) by (unfold NewClient; rewrite trim_base, <-Hc; by destruct c).
  exists (MkLink base (sr_ID res) identity). cbn [sl_Origin]. rewrite Hsame.
  destruct (Open_delivered o i _ hash r row sw l (MkLink base (sr_ID res) identity) paths w1 Ep Hdel Htime Hadm eq_refl eq_refl Hout)
    as (shown & w2 & sw' & l' & t & Hopen & Hk & Hp & Ep2 & Hrow & Hpay).
  destruct (Open_consumed o _ hash row sw sw' l' t (MkLink base (sr_ID res) identity) paths w2 Ep2 Ho Hb eq_refl Hrow Hpay) as (w3 & Hagain).
  by exists shown, w2, w3.
Qed.
End opening.
End calls.
End arriving.
