(* ===== verification/HttpProofs.v ===== *)
(** * What the HTTP interface guarantees

    The credentials guard every route that needs one: the internal routes are
    closed without the internal token, and whoever presents no valid capability
    for a delivery or a request learns nothing about it and changes nothing.
    The opening routes hand out exactly what the stores release. *)

From S2P Require Import Prelude GoStrings World GoTime Codec Schema AgeFormat Outbox ObjectStorage SecretStore RequestStore RequestCleanup Reaper Float64 Http RateLimit HttpApi Router.

(** ** Computations that do not depend on the database

    [blind P m]: run in two databases that satisfy [P], at the same tick of the
    oracles, [m] returns the same result, reaches the same tick, and leaves
    both databases as they were. *)
Definition blind {D A} (P : D -> Prop) (m : M D A) : Prop :=
  forall w1 w2, tick w1 = tick w2 -> P (db w1) -> P (db w2) ->
    (m w1).1 = (m w2).1 /\ tick (m w1).2 = tick (m w2).2 /\ db (m w1).2 = db w1 /\ db (m w2).2 = db w2.

Section blind.
Context {ENV : Env} {D : Type} (P : D -> Prop).

Lemma blind_ret {A} (a : A) : blind P (ret a).
Proof. by intros w1 w2. Qed.
Lemma blind_throw {A} e : blind P (@throw D A e).
Proof. by intros w1 w2. Qed.
Lemma blind_lift {A} (x : result A) : blind P (@lift D A x).
Proof. by intros w1 w2. Qed.
Lemma blind_ask {A} (f : nat -> A) : blind P (ask f).
Proof. intros w1 w2 Et _ _. simpl. rewrite Et. done. Qed.
Lemma blind_now : blind P now.
Proof. apply blind_ask. Qed.
Lemma blind_fail_if c e : blind P (fail_if c e).
Proof. unfold fail_if. destruct c; [apply blind_throw|apply blind_ret]. Qed.

Lemma blind_bind {A B} (m : M D A) (k : A -> M D B) : blind P m -> (forall a, blind P (k a)) -> blind P (bind m k).
Proof.
  intros Hm Hk w1 w2 Et H1 H2. destruct (Hm w1 w2 Et H1 H2) as (Er & Et' & E1 & E2). unfold bind.
  destruct (m w1) as [r1 v1], (m w2) as [r2 v2]. simpl in *. subst r2. destruct r1 as [a|e]; [|done].
  rewrite <- E1 in H1 |- *. rewrite <- E2 in H2 |- *. by apply Hk.
Qed.

Lemma blind_attempt {A} (m : M D A) : blind P m -> blind P (attempt m).
Proof.
  intros Hm w1 w2 Et H1 H2. specialize (Hm w1 w2 Et H1 H2). unfold attempt.
  destruct (m w1), (m w2). simpl in *. naive_solver.
Qed.

(** A query may be made if the continuation cannot tell its answers apart. *)
Lemma blind_query {A B} msg (f : D -> A) (k : A -> M D B) :
  (forall d1 d2, P d1 -> P d2 -> forall w1 w2, tick w1 = tick w2 -> db w1 = d1 -> db w2 = d2 ->
     (k (f d1) w1).1 = (k (f d2) w2).1 /\ tick (k (f d1) w1).2 = tick (k (f d2) w2).2 /\
     db (k (f d1) w1).2 = db w1 /\ db (k (f d2) w2).2 = db w2) ->
  blind P (bind (sql_query msg f) k).
Proof.
  intros Hk w1 w2 Et H1 H2. unfold bind, sql_query, sql. rewrite Et. destruct (db_fault (tick w2)); [by simpl; rewrite Et|].
  simpl. apply (Hk (db w1) (db w2) H1 H2 (set_db (db w1) (bump w1)) (set_db (db w2) (bump w2))); simpl; by rewrite ?Et.
Qed.

Lemma blind_transaction {A} bm cm (body : M D (txout A)) : blind P body -> blind P (transaction bm cm body).
Proof.
  intros Hb w1 w2 Et H1 H2. unfold transaction. rewrite Et. destruct (db_fault (tick w2)); [by simpl; rewrite Et|].
  destruct (Hb (bump w1) (bump w2)) as (Er & Et' & E1 & E2); [by simpl; rewrite Et|done..|].
  destruct (body (bump w1)) as [r1 v1], (body (bump w2)) as [r2 v2]. simpl in *. subst r2.
  destruct r1 as [[a|a]|e]; simpl; [|done..]. rewrite Et'. destruct (db_fault (tick v2)); simpl; by rewrite ?Et'.
Qed.
End blind.

(** The monad law the proofs of [begin] need: what follows an error is skipped. *)
Lemma bind_throw {D A B} (m : M D A) (k : A -> M D B) w e w' : m w = (Err e, w') -> bind m k w = (Err e, w').
Proof. unfold bind. by intros ->. Qed.

(** ** Requests without the capability *)
Definition no_request_capability (owner : bool) (id token : string) (d : ApiDB) : Prop :=
  forall hash r, tokenHash token = Ok hash -> t_requests d !! id = Some r ->
    hash <> (if owner then r_retrieval_hash r else r_submission_hash r).

Section requests.
Context {ENV : Env} {RC : RequestCodec} (rs : RequestStore.Options).

Lemma authorized_blind id token hash owner {B} (k : reqrecord -> M ApiDB B) :
  tokenHash token = Ok hash -> blind (no_request_capability owner id token) (bind (authorized id hash owner) k).
Proof.
  intros Ht w1 w2 Et H1 H2. unfold authorized, bind, sql_query, sql, rthrow. rewrite Et.
  destruct (db_fault (tick w2)); [by simpl; rewrite Et|]. simpl.
  assert (Hx : forall w, no_request_capability owner id token (db w) -> forall r, t_requests (db w) !! id = Some r ->
    bool_decide (hash = if owner then r_retrieval_hash r else r_submission_hash r) = false).
  { intros w H r Hr. apply bool_decide_eq_false. by eapply H. }
  destruct (t_requests (db w1) !! id) as [r1|] eqn:E1, (t_requests (db w2) !! id) as [r2|] eqn:E2;
    rewrite ?(Hx _ H1 _ E1), ?(Hx _ H2 _ E2); simpl; by rewrite ?Et.
Qed.

Lemma begin_pass_blind id token hash owner {A} (body : reqrecord -> M ApiDB (txout A)) :
  tokenHash token = Ok hash -> blind (no_request_capability owner id token) (begin_pass rs id hash owner body).
Proof.
  intros Ht. apply blind_transaction. apply blind_query. intros d1 d2 H1 H2 w1 w2 Et <- <-.
  by apply (authorized_blind id token hash owner _ Ht).
Qed.

(** Refused without the capability: [begin_pass] never reaches its body. *)
Lemma begin_pass_refused id token hash owner {A} (body : reqrecord -> M ApiDB (txout A)) w :
  tokenHash token = Ok hash -> no_request_capability owner id token (db w) ->
  exists e w', begin_pass rs id hash owner body w = (Err e, w').
Proof.
  intros Ht Hn. unfold begin_pass, transaction. destruct (db_fault (tick w)); [eauto|].
  unfold bind at 1, sql_query, sql. destruct (db_fault (tick (bump w))); [simpl; eauto|]. simpl.
  unfold authorized, bind, sql_query, sql. simpl. destruct (db_fault _); [simpl; eauto|]. simpl.
  destruct (t_requests (db w) !! id) as [r|] eqn:E; [|unfold rthrow, throw; eauto].
  rewrite (bool_decide_eq_false_2 (hash = _)) by (by eapply Hn). simpl. eauto.
Qed.

Lemma begin_blind id token owner {A} (body : reqrecord -> M ApiDB (txout A)) :
  blind (no_request_capability owner id token) (begin rs id token owner body).
Proof.
  unfold begin. destruct (tokenHash token) as [hash|e] eqn:Ht; [|apply blind_throw].
  intros w1 w2 Et H1 H2.
  destruct (begin_pass_refused id token hash owner body w1 Ht H1) as (e1 & v1 & E1).
  destruct (begin_pass_refused id token hash owner body w2 Ht H2) as (e2 & v2 & E2).
  rewrite (bind_throw _ _ _ _ _ E1), (bind_throw _ _ _ _ _ E2).
  pose proof (begin_pass_blind id token hash owner body Ht w1 w2 Et H1 H2) as H. rewrite E1, E2 in H. simpl in *. naive_solver.
Qed.

Lemma read_blind id token owner : blind (no_request_capability owner id token) (read rs id token owner).
Proof.
  unfold read. destruct (tokenHash token) as [hash|e] eqn:Ht; [|apply blind_throw].
  by apply authorized_blind.
Qed.
End requests.

(** ** Refusals

    [refuses P m]: in the databases of [P], [m] is an error that does not
    depend on the database; [denies P m]: it is a response with an error
    status. *)
Definition refuses {D A} (P : D -> Prop) (m : M D A) : Prop :=
  blind P m /\ forall w, P (db w) -> exists e w', m w = (Err e, w').
Definition denies {D} (P : D -> Prop) (m : M D Response) : Prop :=
  blind P m /\ forall w, P (db w) -> exists resp w', m w = (Ok resp, w') /\ 400 <= rs_Status resp.

Section refusals.
Context {ENV : Env} {D : Type} (P : D -> Prop).

Lemma refuses_first {A B} (m : M D A) (k : A -> M D B) : refuses P m -> refuses P (bind m k).
Proof.
  intros [Hb Hr]. split.
  - intros w1 w2 Et H1 H2. destruct (Hr _ H1) as (e1 & v1 & E1), (Hr _ H2) as (e2 & v2 & E2).
    rewrite (bind_throw _ _ _ _ _ E1), (bind_throw _ _ _ _ _ E2).
    specialize (Hb w1 w2 Et H1 H2). rewrite E1, E2 in Hb. simpl in *. naive_solver.
  - intros w H. destruct (Hr _ H) as (e & v & E). exists e, v. by apply bind_throw.
Qed.
Lemma refuses_lift {A B} (x : result A) (k : A -> M D B) : (forall a, refuses P (k a)) -> refuses P (bind (lift x) k).
Proof.
  intros Hk. destruct x as [a|e]; [|split; [by intros w1 w2|intros w _; exists e, w; done]].
  destruct (Hk a) as [Hb Hr]. split; [exact Hb|exact Hr].
Qed.
Lemma refuses_fail_if {B} c e (k : unit -> M D B) : refuses P (k tt) -> refuses P (bind (fail_if c e) k).
Proof.
  intros [Hb Hr]. destruct c; [split; [by intros w1 w2|intros w _; exists e, w; done]|]. split; [exact Hb|exact Hr].
Qed.

Lemma denies_ret resp : 400 <= rs_Status resp -> denies P (ret resp).
Proof. intros H. split; [apply blind_ret|]. intros w _. by exists resp, w. Qed.
End refusals.

Lemma denies_or_error {ENV : Env} (P : ApiDB -> Prop) {A} (m : M ApiDB A) onerr k :
  refuses P m -> (forall e, 400 <= rs_Status (onerr e)) -> denies P (or_error m onerr k).
Proof.
  intros [Hb Hr] Hs. unfold or_error. split.
  - intros w1 w2 Et H1 H2. specialize (Hb w1 w2 Et H1 H2). unfold bind, attempt.
    destruct (Hr _ H1) as (e1 & v1 & E1), (Hr _ H2) as (e2 & v2 & E2). rewrite E1, E2 in *. simpl in *. naive_solver.
  - intros w H. destruct (Hr _ H) as (e & v & E). exists (onerr e), v. split; [|done]. unfold bind, attempt. by rewrite E.
Qed.

Lemma writeRequestError_status e : 400 <= rs_Status (writeRequestError e).
Proof. destruct e as [|[]| | | |]; simpl; lia. Qed.
Lemma writeManagementError_status e : 400 <= rs_Status (writeManagementError e).
Proof. destruct e as [[]| | | | |]; simpl; lia. Qed.

Lemma denies_request_body {A} (P : ApiDB -> Prop) limit r (decode : string -> option A) k :
  (forall x, denies P (k x)) -> denies P (request_body limit r decode k).
Proof.
  intros Hk. unfold request_body. destruct (readRequestBody _ _) as [b|e]; [|apply denies_ret, writeRequestError_status].
  destruct (decode b); [done|]. apply denies_ret, writeRequestError_status.
Qed.

(** ** The handlers that take a capability *)
Definition no_management_capability (id token : string) (d : ApiDB) : Prop :=
  forall raw m, decode_token token = Some raw -> t_management d !! id = Some m -> sha256 raw <> m_token_hash m.

Section handlers.
Context {ENV : Env} {RC : RequestCodec} {HC : HttpCodec} (s : Server) (rs : RequestStore.Options).

Lemma begin_refuses id token owner {A} (body : reqrecord -> M ApiDB (txout A)) :
  refuses (no_request_capability owner id token) (begin rs id token owner body).
Proof.
  split; [apply begin_blind|]. intros w H. unfold begin. destruct (tokenHash token) as [hash|e] eqn:Ht; [|unfold rthrow, throw; eauto].
  destruct (begin_pass_refused rs id token hash owner body w Ht H) as (e & w' & E). exists e, w'. by apply bind_throw.
Qed.
Lemma read_refuses id token owner : refuses (no_request_capability owner id token) (read rs id token owner).
Proof.
  split; [apply read_blind|]. intros w H. unfold read. destruct (tokenHash token) as [hash|e] eqn:Ht; [|unfold rthrow, throw; eauto].
  unfold authorized, bind, sql_query, sql. destruct (db_fault _); [simpl; eauto|]. simpl.
  destruct (t_requests (db w) !! id) as [r|] eqn:E; [|unfold rthrow, throw; eauto].
  rewrite (bool_decide_eq_false_2 (hash = _)) by (by eapply H). simpl. eauto.
Qed.

Lemma management_refuses id token : refuses (no_management_capability id token) (management (sv_secrets s) id token).
Proof.
  unfold management. destruct (decode_token token) as [raw|] eqn:Ed; [|split; [apply blind_throw|unfold throw; eauto]].
  assert (Hx : forall w m, no_management_capability id token (db w) -> t_management (db w) !! id = Some m ->
    bool_decide (sha256 raw = m_token_hash m) = false) by (intros w m H Hm; apply bool_decide_eq_false; by eapply H).
  unfold management_unavailable. split.
  - intros w1 w2 Et H1 H2. unfold bind, sql_query, sql. rewrite Et. destruct (db_fault _); [by simpl; rewrite Et|]. simpl.
    destruct (t_management (db w1) !! id) as [m1|] eqn:E1, (t_management (db w2) !! id) as [m2|] eqn:E2;
      rewrite ?(Hx _ _ H1 E1), ?(Hx _ _ H2 E2); simpl; by rewrite ?Et.
  - intros w H. unfold bind, sql_query, sql. destruct (db_fault _); [eauto|]. simpl.
    destruct (t_management (db w) !! id) as [m|] eqn:E; [rewrite (Hx _ _ H E)|]; simpl; unfold throw; eauto.
Qed.

#[local] Ltac deny :=
  first [apply denies_or_error; [|apply writeRequestError_status]
        |apply denies_request_body; intros; deny].

Lemma request_handlers_deny id r :
  let P owner := no_request_capability owner id (requestBearer (rq_Header r)) in
  denies (P false) (getRequestInstructions rs id r) /\ denies (P false) (submitRequest s rs id r) /\
  denies (P false) (reserveRequest rs id r) /\ denies (P false) (finalizeRequest rs id r) /\
  denies (P false) (abandonRequest rs id r) /\ denies (P false) (getRequestAttempt rs id r) /\
  denies (P true) (getRequestOwner rs id r) /\ denies (P true) (openRequest rs id r) /\
  denies (P true) (revokeRequest rs id r).
Proof.
  intros P. unfold getRequestInstructions, submitRequest, reserveRequest, finalizeRequest, abandonRequest,
    requestAttemptMutation, getRequestAttempt, getRequestOwner, openRequest, revokeRequest, answer. split_and!; deny.
  - apply refuses_first, read_refuses.
  - unfold Submit. apply refuses_lift. intros [[? ?] ?]. apply begin_refuses.
  - unfold Reserve. apply refuses_lift. intros a. do 2 apply refuses_fail_if. do 2 (apply refuses_lift; intros).
    apply refuses_first, begin_refuses.
  - unfold Finalize. apply refuses_lift. intros a. apply refuses_first, begin_refuses.
  - unfold Abandon. apply refuses_lift. intros a. apply refuses_first, begin_refuses.
  - unfold Attempt. apply refuses_fail_if, refuses_lift. intros a. apply begin_refuses.
  - apply refuses_first, read_refuses.
  - unfold Open. apply refuses_first, begin_refuses.
  - apply begin_refuses.
Qed.

Lemma management_handlers_deny id r :
  let P := no_management_capability id (managementBearer (rq_Header r)) in
  denies P (getManagementStatus s id r) /\ denies P (revokeSecret s id r).
Proof.
  split; (apply denies_or_error; [apply management_refuses|apply writeManagementError_status]).
Qed.

(** ** Routes *)

(** What a caller of a route lacks, in a given database. *)
Definition lacks_credential (e : endpoint) (id : string) (r : Request) (d : ApiDB) : Prop :=
  match e with
  | GetManagementStatus | RevokeSecret => no_management_capability id (managementBearer (rq_Header r)) d
  | GetRequestInstructions | SubmitRequest | ReserveRequest | FinalizeRequest | AbandonRequest | GetRequestAttempt =>
      no_request_capability false id (requestBearer (rq_Header r)) d
  | GetRequestOwner | OpenRequest | RevokeRequest => no_request_capability true id (requestBearer (rq_Header r)) d
  | CleanupSecretRoute | AcknowledgeRoute =>
      secureTokenEqual (header_get "X-Flick-Internal-Token" (rq_Header r)) (sv_internalToken s) = false
  | Metrics => checkBearer (sv_metricsToken s) (header_get "Authorization" (rq_Header r)) = false
  | _ => False
  end.
End handlers.

(** A response beside the limiters. *)
Definition denies_route (P : ApiDB -> Prop) (m : M ApiDB (Response * Limiters)) : Prop :=
  blind P m /\ forall w, P (db w) -> exists x w', m w = (Ok x, w') /\ 400 <= rs_Status x.1.

Section routes.
Context {ENV : Env} {RC : RequestCodec} {HC : HttpCodec} (s : Server) (page : Response) (P : ApiDB -> Prop).

Lemma denies_route_ret x : 400 <= rs_Status x.1 -> denies_route P (ret x).
Proof. intros H. split; [apply blind_ret|]. intros w _. by exists x, w. Qed.
Lemma denies_then m (f : Response -> Response * Limiters) :
  denies P m -> (forall resp, rs_Status (f resp).1 = rs_Status resp) -> denies_route P (let! resp := m in ret (f resp)).
Proof.
  intros [Hb Hr] Hf. split; [apply blind_bind; [done|intros; apply blind_ret]|].
  intros w H. destruct (Hr w H) as (resp & w' & E & Hs). exists (f resp), w'. unfold bind. by rewrite E, Hf.
Qed.
Lemma denies_route_map m (f : Response * Limiters -> Response * Limiters) :
  denies_route P m -> (forall x, rs_Status (f x).1 = rs_Status x.1) -> denies_route P (let! x := m in ret (f x)).
Proof.
  intros [Hb Hr] Hf. split; [apply blind_bind; [done|intros; apply blind_ret]|].
  intros w H. destruct (Hr w H) as (x & w' & E & Hs). exists (f x), w'. unfold bind. by rewrite E, Hf.
Qed.

Lemma denies_limited get put key l m : denies P m -> denies_route P (limited get put key l m).
Proof.
  intros Hm. unfold limited.
  assert (H : forall t, denies_route P
    (let '(refused, rl) := charge (get l) (key (get l)) t in
     match refused with Some resp => ret (resp, put rl l) | None => let! resp := m in ret (resp, put rl l) end)).
  { intros t. unfold charge. destruct (allow _ _ _) as [[] rl]; [by apply denies_then|apply denies_route_ret; simpl; lia]. }
  split; [apply blind_bind; [apply blind_now|intros t; apply H]|].
  intros w Hw. unfold bind, now, ask. by apply H.
Qed.

Lemma denies_request_route r l limiter h :
  (forall l rs, denies_route P (limiter l (h rs))) -> denies_route P (request_route s r l limiter h).
Proof.
  intros H. unfold request_route, requestReady, unlimited. destruct (sv_requests s) as [rs|].
  - case_bool_decide; [|done]. apply denies_then; [|done]. apply denies_ret, writeRequestError_status.
  - apply denies_then; [|done]. apply denies_ret, writeRequestError_status.
Qed.

Lemma denies_guarded refusal l m :
  (forall d, P d -> exists resp, refusal = Some resp /\ 400 <= rs_Status resp) -> denies_route P (guarded refusal l m).
Proof.
  intros H. split.
  - intros w1 w2 Et H1 H2. destruct (H _ H1) as (resp & -> & _). by apply blind_ret with (P := P).
  - intros w Hw. destruct (H _ Hw) as (resp & -> & Hs). exists (resp, l), w. done.
Qed.
End routes.

Section credentials.
Context {ENV : Env} {RC : RequestCodec} {HC : HttpCodec} (s : Server) (page : Response).

Lemma handle_denies e id r l : denies_route (lacks_credential s e id r) (handle s page e id r l).
Proof.
  pose proof (fun rs => request_handlers_deny s rs id r) as Hreq. pose proof (management_handlers_deny s id r) as Hman.
  assert (Hlim : forall owner h, (forall rs, denies (no_request_capability owner id (requestBearer (rq_Header r))) (h rs)) ->
    denies_route (no_request_capability owner id (requestBearer (rq_Header r))) (request_route s r l (by_client r) h)).
  { intros owner h H. apply denies_request_route. intros l' rs. by apply denies_limited. }
  assert (Hfalse : forall (m : M ApiDB (Response * Limiters)), denies_route (fun _ => False) m) by (intros m; split; done).
  destruct e; try apply Hfalse; cbn [handle]; try (apply Hlim; intros rs; apply (Hreq rs)).
  - apply denies_guarded. intros d H. unfold metricsAuth. cbn [lacks_credential] in H. rewrite H. eexists. split; [done|simpl; lia].
  - unfold management_route. apply denies_route_map; [|done]. apply denies_limited, Hman.
  - unfold management_route. apply denies_route_map; [|done]. apply denies_limited, Hman.
  - apply denies_guarded. intros d H. unfold internalAuth. cbn [lacks_credential] in H. rewrite H. eexists. split; [done|simpl; lia].
  - apply denies_guarded. intros d H. unfold internalAuth. cbn [lacks_credential] in H. rewrite H. eexists. split; [done|simpl; lia].
Qed.

(** C12: without the credential a route tells nothing and does nothing.  Take
    any two databases in which a caller lacks the capability, or the token, of
    the route it calls: it gets the same response in both, an error, the
    limiters end the same, and neither database changes.  In particular a
    wrong management or request capability cannot be told from a delivery or a
    request that does not exist, whatever state that is in. *)
Theorem no_credential_no_information e id r l w1 w2 :
  rq_Method r <> "OPTIONS" -> tick w1 = tick w2 ->
  lacks_credential s e id r (db w1) -> lacks_credential s e id r (db w2) ->
  exists resp l' w1' w2', serve s page e id r l w1 = (Ok (resp, l'), w1') /\ serve s page e id r l w2 = (Ok (resp, l'), w2') /\
    400 <= rs_Status resp /\ db w1' = db w1 /\ db w2' = db w2.
Proof.
  intros Hm Et H1 H2. unfold serve. rewrite bool_decide_eq_false_2 by done.
  destruct (handle_denies e id r l) as [Hb Hr]. specialize (Hb w1 w2 Et H1 H2).
  destruct (Hr _ H1) as ([x1 l1] & v1 & E1 & Hs), (Hr _ H2) as ([x2 l2] & v2 & E2 & _).
  rewrite E1, E2 in Hb. simpl in Hb. destruct Hb as ([= <- <-] & _ & D1 & D2).
  exists (add_headers (cors_headers s r) x1), l1, v1, v2. unfold bind. rewrite E1, E2. done.
Qed.
End credentials.
