(* ===== verification/HttpHistory.v ===== *)
(** * The HTTP server refines the transition system

    Every request the server answers is a sequence of steps of the system of
    Lifecycle.v, and its response says which deliveries that sequence made: the
    promises proved of histories are promises about what clients receive. *)

From S2P Require Import Prelude GoStrings World GoTime Codec Schema AgeFormat Outbox ObjectStorage SecretStore SecretProofs RequestStore RequestCleanup RequestFrames Reaper Lifecycle Float64 Http RateLimit HttpApi Router HttpProofs.

(** ** Read-only computations *)
#[export] Instance still_stable : Stable still.
Proof.
  split; [split|..]; unfold still; simpl.
  - by intros w.
  - intros w1 w2 w3 [-> ->] [-> ->]. done.
  - done.
  - intros w w1 [_ E]. done.
Qed.

Section reads.
Context (o : Objects.Store ApiDB) `{!Objects.Spec o}.
Lemma still_Open k : respects still (Objects.Open o k).
Proof. intros w. destruct (Objects.Open o k w) eqn:E. apply Objects.Open_quiet in E as (? & ? & _). done. Qed.
Lemma still_PresignPUT k n t : respects still (Objects.PresignPUT o k n t).
Proof. intros w. destruct (Objects.PresignPUT o k n t w) eqn:E. apply Objects.PresignPUT_quiet in E as (? & ? & _). done. Qed.
End reads.
#[export] Hint Resolve still_Open still_PresignPUT : flick.

(** ** What a response says was delivered *)
Definition json_id (r : Response) : string :=
  match rs_Body r with
  | JsonBody (JObject fields) =>
      match list_find (fun p => p.1 = "id") fields with Some (_, (_, JString x)) => x | _ => "" end
  | _ => ""
  end.

Definition response_events (e : endpoint) (id : string) (r : Response) : list event :=
  match e with
  | CreateSecret => if rs_Status r =? 201 then [SecretCreated (json_id r)] else []
  | OpenSecret => if rs_Status r =? 200 then [SecretOpened id] else []
  | CreateRequest => if rs_Status r =? 201 then [RequestCreated (json_id r)] else []
  | OpenRequest => if rs_Status r =? 200 then [RequestOpened id] else []
  | _ => []
  end.

(** The events a client sees; the others are the receipts of submissions and
    the copies of uploads. *)
Definition visible (e : event) : bool :=
  match e with SecretCreated _ | SecretOpened _ | RequestCreated _ | RequestOpened _ => true | _ => false end.
Abbreviation seen evs := (filter (fun e => visible e = true) evs).

Lemma error_events e id r : 400 <= rs_Status r -> response_events e id r = [].
Proof. intros H. destruct e; simpl; try done; by case_match; destruct_bools; try lia. Qed.

Section traces.
Context {ENV : Env} {CODEC : EventCodec} {RC : RequestCodec} {DATES : SqliteDate} {BROKER : Broker}.
Context (st : SecretStore.Store) (rs : RequestStore.Options) (ob : outboxEnqueuer) (rp : Reaper).
Abbreviation History := (history st rs ob rp).

(** [traces m Q]: a run of [m] is a history, whose events and result satisfy
    [Q]. *)
Definition traces {A} (m : M ApiDB A) (Q : result A -> list event -> Prop) : Prop :=
  forall w c, exists evs c', History (MkSys w c) evs (MkSys (m w).2 c') /\ Q (m w).1 evs.

Lemma traces_ret {A} (a : A) (Q : result A -> list event -> Prop) : Q (Ok a) [] -> traces (ret a) Q.
Proof. intros H w c. exists [], c. split; [constructor|done]. Qed.
Lemma traces_err {A} e (Q : result A -> list event -> Prop) : Q (Err e) [] -> traces (throw e) Q.
Proof. intros H w c. exists [], c. split; [constructor|done]. Qed.

Lemma traces_bind {A B} (m : M ApiDB A) (k : A -> M ApiDB B) (Q : result B -> list event -> Prop) :
  traces m (fun r e1 => match r with
                        | Ok a => traces (k a) (fun r' e2 => Q r' (e1 ++ e2))
                        | Err e => Q (Err e) e1 end) ->
  traces (bind m k) Q.
Proof.
  intros H w c. destruct (H w c) as (e1 & c1 & H1 & HQ). unfold bind. destruct (m w) as [[a|e] w1]; simpl in *.
  - destruct (HQ w1 c1) as (e2 & c2 & H2 & HQ2). exists (e1 ++ e2), c2. split; [by eapply history_trans|done].
  - by exists e1, c1.
Qed.

Lemma traces_mono {A} (m : M ApiDB A) (P Q : result A -> list event -> Prop) :
  traces m P -> (forall r evs, P r evs -> Q r evs) -> traces m Q.
Proof. intros H HPQ w c. destruct (H w c) as (evs & c' & Hh & HP). exists evs, c'. auto. Qed.

Lemma traces_attempt {A} (m : M ApiDB A) (Q : result (result A) -> list event -> Prop) :
  traces m (fun r evs => Q (Ok r) evs) -> traces (attempt m) Q.
Proof. intros H w c. specialize (H w c). unfold attempt. by destruct (m w). Qed.

Lemma traces_still {A} (m : M ApiDB A) (Q : result A -> list event -> Prop) :
  respects still m -> (forall r, Q r []) -> traces m Q.
Proof.
  intros Hm HQ w c. specialize (Hm w). exists [], c. split; [|done]. apply history_step. by apply step_idle.
Qed.

(** An oracle never fails. *)
Lemma traces_ask {A B} (f : nat -> A) (k : A -> M ApiDB B) (Q : result B -> list event -> Prop) :
  (forall a, traces (k a) Q) -> traces (bind (ask f) k) Q.
Proof.
  intros H w c. unfold bind, ask. destruct (H (f (tick w)) (bump w) c) as (evs & c' & Hh & HQ).
  exists ([] ++ evs), c'. split; [|done]. eapply history_trans; [|exact Hh]. apply history_step. by apply step_idle.
Qed.

Lemma traces_op {A} o (m : M ApiDB A) f (Q : result A -> list event -> Prop) :
  exec st rs ob rp o = tag m f ->
  (forall a, Q (Ok a) (f a)) -> (forall e w w', m w = (Err e, w') -> Q (Err e) []) -> traces m Q.
Proof.
  intros E Hok Herr w c. destruct (m w) as [r w'] eqn:Em.
  assert (Ex : exec st rs ob rp o w = (match r with Ok a => Ok (f a) | Err e => Err e end, w')).
  { rewrite E. unfold tag, bind. rewrite Em. by destruct r. }
  apply (step_op _ _ _ _ _ _ c) in Ex. apply history_step in Ex. eexists _, c. split; [exact Ex|]. destruct r; [apply Hok|by eapply Herr].
Qed.

(** A fallible step whose outcome is a response. *)
Lemma traces_or_error {A} (m : M ApiDB A) onerr k (Q : result Response -> list event -> Prop) :
  traces m (fun r e1 => match r with
                        | Ok a => traces (k a) (fun r' e2 => Q r' (e1 ++ e2))
                        | Err e => Q (Ok (onerr e)) e1 end) ->
  traces (or_error m onerr k) Q.
Proof.
  intros H. apply traces_bind, traces_attempt. eapply traces_mono; [exact H|]. intros [a|e] evs HQ; [done|].
  apply traces_ret. by rewrite app_nil_r.
Qed.

(** ** Handlers *)

(** [m] answers, and the answer tells what it did. *)
Definition answers (e : endpoint) (id : string) (r : result Response) (evs : list event) : Prop :=
  exists resp, r = Ok resp /\ seen evs = response_events e id resp.

Lemma answers_error e id resp evs : 400 <= rs_Status resp -> seen evs = [] -> answers e id (Ok resp) evs.
Proof. intros Hs He. exists resp. by rewrite error_events. Qed.

(** An operation none of whose events a client sees. *)
Lemma traces_quiet_op {A} o (m : M ApiDB A) f :
  exec st rs ob rp o = tag m f -> (forall a, seen (f a) = []) -> traces m (fun _ evs => seen evs = []).
Proof. intros E Hf. eapply traces_op; [exact E|done|done]. Qed.
End traces.

Section server.
Context {ENV : Env} {CODEC : EventCodec} {RC : RequestCodec} {DATES : SqliteDate} {BROKER : Broker} {HC : HttpCodec}.
Context (sv : Server) (rs : RequestStore.Options) (ob : outboxEnqueuer) (rp : Reaper) (page : Response).
Context `{!StoreSpec (sv_secrets sv)} `{!OptionsSpec rs}.
Context (Hrs : forall x, sv_requests sv = Some x -> x = rs) (Hob : forall x, sv_outbox sv = Some x -> x = ob).
Abbreviation Traces := (traces (sv_secrets sv) rs ob rp).

Lemma writeSecretError_status e : 400 <= rs_Status (writeSecretError e).
Proof. destruct e as [[]| | | | |]; simpl; lia. Qed.
Lemma writeOpenError_status e : 400 <= rs_Status (writeOpenError e).
Proof. destruct e as [[]| | | | |]; simpl; lia. Qed.
#[local] Hint Resolve writeSecretError_status writeOpenError_status writeRequestError_status writeManagementError_status : core.

(** The shapes the handlers share. *)
Lemma traces_error e id resp : 400 <= rs_Status resp -> Traces (ret resp) (answers e id).
Proof. intros H. apply traces_ret. by apply answers_error. Qed.

Lemma traces_read_body {A} e id limit b (decode : string -> option (A * bool)) what k :
  (forall x, Traces (k x) (answers e id)) -> Traces (read_body limit b decode what k) (answers e id).
Proof.
  intros Hk. unfold read_body. destruct (read_all limit b); try (apply traces_error; simpl; lia).
  destruct (hasSensitiveField _); [apply traces_error; simpl; lia|].
  destruct (decode _) as [[x []]|]; [apply Hk|apply traces_error; simpl; lia..].
Qed.
Lemma traces_optional_proof e id proof k :
  (forall h, Traces (k h) (answers e id)) -> Traces (optional_proof proof k) (answers e id).
Proof.
  intros Hk. unfold optional_proof. case_bool_decide; [apply Hk|].
  destruct (hashAccessProof proof); [apply Hk|apply traces_error; simpl; lia].
Qed.
Lemma traces_request_body {A} e id limit r (decode : string -> option A) k :
  (forall x, Traces (k x) (answers e id)) -> Traces (request_body limit r decode k) (answers e id).
Proof.
  intros Hk. unfold request_body. destruct (readRequestBody _ _) as [b|err]; [|by apply traces_error].
  destruct (decode b); [apply Hk|by apply traces_error].
Qed.

(** One operation, then a response that tells its events. *)
Lemma traces_answer {A} e id o (m : M ApiDB A) f onerr g :
  exec (sv_secrets sv) rs ob rp o = tag m f -> (forall x, 400 <= rs_Status (onerr x)) ->
  (forall a, seen (f a) = response_events e id (g a)) ->
  Traces (or_error m onerr (fun a => ret (g a))) (answers e id).
Proof.
  intros E Hs Hf. apply traces_or_error. eapply traces_op; [exact E|..].
  - intros a. apply traces_ret. rewrite app_nil_r. exists (g a). by rewrite Hf.
  - intros x w w' _. by apply answers_error.
Qed.

(** A computation whose events no client sees, then a response that tells none. *)
Lemma traces_unseen {A} e id (m : M ApiDB A) onerr g :
  Traces m (fun _ evs => seen evs = []) -> (forall x, 400 <= rs_Status (onerr x)) ->
  (forall a, response_events e id (g a) = []) ->
  Traces (or_error m onerr (fun a => ret (g a))) (answers e id).
Proof.
  intros Hm Hs Hg. apply traces_or_error. eapply traces_mono; [exact Hm|]. intros [a|x] evs He.
  - apply traces_ret. rewrite app_nil_r. exists (g a). by rewrite Hg.
  - by apply answers_error.
Qed.

(** A read first, such as the check of a credential. *)
Lemma traces_after_read {A} e id (m : M ApiDB A) onerr k :
  respects still m -> (forall x, 400 <= rs_Status (onerr x)) -> (forall a, Traces (k a) (answers e id)) ->
  Traces (or_error m onerr k) (answers e id).
Proof.
  intros Hm Hs Hk. apply traces_or_error, traces_still; [done|]. intros [a|x]; [exact (Hk a)|by apply answers_error].
Qed.

(** *** Secrets *)
Lemma createSecret_traces id r : Traces (createSecret sv r) (answers CreateSecret id).
Proof.
  assert (Hns : forall (m : M ApiDB Response), Traces m (answers CreateSecret id) ->
    Traces (let! resp := m in ret (no_store resp)) (answers CreateSecret id)).
  { intros m Hm. apply traces_bind. eapply traces_mono; [exact Hm|]. intros r' evs (resp & -> & E).
    apply traces_ret. rewrite app_nil_r. by exists (no_store resp). }
  apply Hns, traces_read_body. intros req. case_bool_decide.
  - unfold createLargeSecret. apply traces_optional_proof. intros h.
    by eapply (traces_answer _ _ (OpCreateLarge _)).
  - destruct (Base64.decode _ _); [|apply traces_error; simpl; lia]. apply traces_optional_proof. intros h.
    by eapply (traces_answer _ _ (OpCreate _)).
Qed.

Lemma finalizeSecret_traces id : Traces (finalizeSecret sv id) (answers FinalizeSecret id).
Proof. by eapply (traces_answer _ _ (OpFinalize id)). Qed.

Lemma getSecretMetadata_traces id : Traces (getSecretMetadata id) (answers GetSecretMetadata id).
Proof.
  apply traces_after_read; [unfold Metadata; solve_respects|done|]. intros m. apply traces_ret. by eexists.
Qed.

Lemma management_still id token : respects still (management (sv_secrets sv) id token).
Proof. unfold management. solve_respects. Qed.

Lemma getManagementStatus_traces id r : Traces (getManagementStatus sv id r) (answers GetManagementStatus id).
Proof. apply traces_after_read; [apply management_still|done|]. intros m. apply traces_ret. by eexists. Qed.

Lemma revokeSecret_traces id r : Traces (revokeSecret sv id r) (answers RevokeSecret id).
Proof.
  apply traces_after_read; [apply management_still|done|]. intros _.
  destruct (read_all _ _); try (apply traces_error; simpl; lia).
  destruct (decode_map _) as [[[[|]|] []]|]; try (apply traces_error; simpl; lia).
  apply traces_or_error. eapply (traces_op _ _ _ _ (OpRevoke id _)); [done|..].
  - intros [s1|s1]; apply traces_ret; eexists; (split; [done|done]).
  - intros x' w w' _. by apply answers_error.
Qed.

Lemma openSecret_traces id r : Traces (openSecret sv id r) (answers OpenSecret id).
Proof.
  apply traces_read_body. intros proof. apply traces_optional_proof. intros h.
  destruct (sv_outbox sv) as [o|] eqn:Eo; [|apply traces_error; simpl; lia]. assert (o = ob) as -> by (by apply Hob).
  apply traces_or_error. eapply (traces_op _ _ _ _ (OpOpen id h)); [done| |intros x w w' _; by apply answers_error].
  intros sec. destruct (Body sec) as [b|].
  - apply traces_bind. eapply (traces_op _ _ _ _ (OpBodySent (StorageKey sec))); [done|..].
    + intros []. apply traces_ret. by eexists.
    + intros x w w' E. unfold enqueueOpenedObjectCleanup in E. merr E.
  - apply traces_ret. by eexists.
Qed.

Lemma cleanupSecret_traces id r : Traces (cleanupSecret id r) (answers CleanupSecretRoute id).
Proof.
  apply traces_read_body. intros [j reason]. destruct (_ || _); [apply traces_error; simpl; lia|].
  by eapply (traces_answer _ _ (OpCleanup id)).
Qed.

Lemma acknowledge_traces id r : Traces (acknowledgeObjectCleanup sv r) (answers AcknowledgeRoute id).
Proof.
  assert (Hun : forall (m : M ApiDB unit) g, Traces m (fun _ evs => seen evs = []) ->
    Traces (let! res := attempt m in ret (g res)) (answers AcknowledgeRoute id)).
  { intros m g Hm. apply traces_bind, traces_attempt. eapply traces_mono; [exact Hm|]. intros x evs E.
    apply traces_ret. rewrite app_nil_r. eexists. by rewrite E. }
  unfold acknowledgeObjectCleanup. destruct (read_all _ _); try (apply traces_error; simpl; lia).
  destruct (decode_ack _) as [[[j key] []]|]; try (apply traces_error; simpl; lia). apply Hun.
  destruct (has_prefix _ _).
  - destruct (sv_requests sv); [|by apply traces_err]. by eapply (traces_quiet_op _ _ _ _ (OpReqAcknowledge j key)).
  - by eapply (traces_quiet_op _ _ _ _ (OpAcknowledge j key)).
Qed.

(** *** Requests *)
Lemma createRequest_traces id r : Traces (createRequest rs r) (answers CreateRequest id).
Proof. apply traces_request_body. intros [k t]. by eapply (traces_answer _ _ (OpReqCreate k t)). Qed.

(** The two views of a request read it the same way. *)
Lemma read_view_traces {A} e id tok owner (f : reqrecord -> A) g :
  (forall a, response_events e id (g a) = []) ->
  Traces (answer (let! x := read rs id tok owner in ret (f x)) g) (answers e id).
Proof.
  intros Hg. apply traces_unseen; [|done..]. apply traces_bind.
  eapply (traces_op _ _ _ _ (OpReqRead id tok owner)); [done| |done]. intros a. by apply traces_ret.
Qed.
Lemma getRequestInstructions_traces id r : Traces (getRequestInstructions rs id r) (answers GetRequestInstructions id).
Proof. by apply read_view_traces. Qed.
Lemma getRequestOwner_traces id r : Traces (getRequestOwner rs id r) (answers GetRequestOwner id).
Proof. by apply read_view_traces. Qed.

Lemma submitRequest_traces id r : Traces (submitRequest sv rs id r) (answers SubmitRequest id).
Proof.
  apply traces_request_body. intros i. eapply (traces_answer _ _ (OpReqSubmit id _ i)); [done|done|].
  intros a. by destruct (tokenHash _).
Qed.
Lemma getRequestAttempt_traces id r : Traces (getRequestAttempt rs id r) (answers GetRequestAttempt id).
Proof. apply traces_request_body. intros i. by eapply (traces_answer _ _ (OpReqAttempt id _ _ _)). Qed.
Lemma revokeRequest_traces id r : Traces (revokeRequest rs id r) (answers RevokeRequest id).
Proof. apply traces_request_body. intros _. by eapply (traces_answer _ _ (OpReqRevoke id _)). Qed.

(** A pure check keeps a computation unseen. *)
Lemma unseen_lift {A B} (x : result A) (k : A -> M ApiDB B) :
  (forall a, Traces (k a) (fun _ evs => seen evs = [])) -> Traces (bind (lift x) k) (fun _ evs => seen evs = []).
Proof. intros H. destruct x as [a|e]; [apply H|by apply traces_err]. Qed.
Lemma unseen_fail_if {B} c e (k : unit -> M ApiDB B) :
  Traces (k tt) (fun _ evs => seen evs = []) -> Traces (bind (fail_if c e) k) (fun _ evs => seen evs = []).
Proof. intros H. destruct c; [by apply traces_err|apply H]. Qed.
(** An unseen operation, then reads. *)
Lemma unseen_then_still {A B} o (m : M ApiDB A) f (k : A -> M ApiDB B) :
  exec (sv_secrets sv) rs ob rp o = tag m f -> (forall a, seen (f a) = []) -> (forall a, respects still (k a)) ->
  Traces (bind m k) (fun _ evs => seen evs = []).
Proof.
  intros E Hf Hk. apply traces_bind. eapply traces_op; [exact E| |done]. intros a. apply traces_still; [done|].
  intros x. by rewrite app_nil_r.
Qed.

Lemma reserveRequest_traces id r : Traces (reserveRequest rs id r) (answers ReserveRequest id).
Proof.
  pose proof (options_objects (s:=rs)) as Ho.
  apply traces_request_body. intros i. apply traces_unseen; [|done..]. unfold Reserve.
  apply unseen_lift. intros a. do 2 apply unseen_fail_if. apply unseen_lift. intros env. apply unseen_lift. intros ck.
  eapply (unseen_then_still (OpReqReserve id _ a _ env ck i)); [done|done|].
  intros [g|g key deadline]; unfold rthrow; solve_respects.
Qed.

Lemma abandonRequest_traces id r : Traces (abandonRequest rs id r) (answers AbandonRequest id).
Proof.
  apply traces_request_body. intros i. eapply (traces_answer _ _ (OpReqAbandon id _ i)); done.
Qed.

Lemma finalizeRequest_traces id r : Traces (finalizeRequest rs id r) (answers FinalizeRequest id).
Proof.
  apply traces_request_body. intros i. apply traces_unseen; [|done..]. unfold Finalize.
  destruct (validateAttempt i) as [attempt|e] eqn:Ev; [|by apply traces_err].
  intros w c. cbn [bind lift]. unfold bind, lift. 
  set (tok := requestBearer (rq_Header r)).
  destruct (finalizeFirst rs id tok attempt i w) as [res w1] eqn:E1.
  pose proof (step_finalize_first (sv_secrets sv) rs ob rp id tok attempt i w c res w1 Ev E1) as S1.
  destruct res as [[rc|a]|e]; [by eexists _, _; split; [by apply history_step|]| |by eexists _, _; split; [by apply history_step|]].
  destruct (Objects rs) as [obj|] eqn:Eo; [|by eexists _, _; split; [by apply history_step|]].
  unfold finalizeAttempt, bind. destruct (copyVerified obj a w1) as [res2 w2] eqn:E2.
  pose proof (step_finalize_copy (sv_secrets sv) rs ob rp obj id a i w1 ((id, a, i, false) :: c) res2 w2
    ltac:(left) Eo E2) as S2.
  pose proof (history_trans _ _ _ _ _ _ _ _ _ (history_step _ _ _ _ _ _ _ S1) (history_step _ _ _ _ _ _ _ S2)) as S12.
  destruct res2 as [u|e]; [|by eexists _, _; split; [exact S12|]].
  destruct (acceptAttempt rs id tok attempt a i w2) as [res3 w3] eqn:E3.
  pose proof (step_finalize_accept (sv_secrets sv) rs ob rp id tok attempt a i w2 ((id, a, i, true) :: (id, a, i, false) :: c) res3 w3 Ev
    ltac:(left) E3) as S3.
  eexists _, _. split; [eapply history_trans; [exact S12|apply history_step, S3]|]. by destruct res3.
Qed.

Lemma openRequest_traces id r : Traces (openRequest rs id r) (answers OpenRequest id).
Proof.
  pose proof (options_objects (s:=rs)) as Ho. apply traces_request_body. intros _.
  assert (Hopen : Traces (Open rs id (requestBearer (rq_Header r)))
    (fun res evs => seen evs = match res with Ok _ => [RequestOpened id] | Err _ => [] end)).
  { unfold Open. apply traces_bind. eapply (traces_op _ _ _ _ (OpReqOpen id _)); [done| |done].
    intros [o|kind size env key]; [by apply traces_ret|]. cbn [app].
    destruct (Objects rs) as [obj|] eqn:Eo; [|by apply traces_err]. destruct key as [k|]; [|by apply traces_err].
    apply traces_bind. apply traces_still; [solve_respects|]. intros [u|e]; [|done]. cbn [app].
    apply traces_bind, traces_attempt. apply traces_still; [apply still_Open; by apply Ho|].
    intros [[body len]|e]; [|by apply traces_err]. cbn [app].
    apply traces_bind. apply traces_still; [solve_respects|]. intros [u'|e]; [|done]. cbn [app].
    apply traces_bind. eapply (traces_op _ _ _ _ (OpReqConsume id _ k)); [done| |done]. intros a. by apply traces_ret. }
  apply traces_or_error. eapply traces_mono; [exact Hopen|]. intros [o|e] evs E; [|by apply answers_error].
  apply traces_bind. 
  assert (Hfin : Traces (if bool_decide (op_ObjectKey o <> "")
    then do! attempt (RequestStore.FinishOpen rs id (op_ObjectKey o)) in ret tt else ret tt)
    (fun res evs' => res = Ok tt /\ seen evs' = [])).
  { case_bool_decide; [|by apply traces_ret]. apply traces_bind, traces_attempt.
    eapply (traces_op _ _ _ _ (OpReqFinishOpen id _)); [done|..]; intros; by apply traces_ret. }
  eapply traces_mono; [exact Hfin|]. intros x evs' [-> E']. apply traces_ret. rewrite app_nil_r. eexists.
  split; [done|]. by rewrite filter_app, E, E'.
Qed.

(** *** Routes *)
Definition route_answers (e : endpoint) (id : string) (r : result (Response * Limiters)) (evs : list event) : Prop :=
  exists resp l, r = Ok (resp, l) /\ seen evs = response_events e id resp.

Lemma response_events_same e id x y :
  rs_Status x = rs_Status y -> rs_Body x = rs_Body y -> response_events e id x = response_events e id y.
Proof. intros Hs Hb. unfold response_events, json_id. by rewrite Hs, Hb. Qed.

Lemma route_error e id resp l : 400 <= rs_Status resp -> Traces (ret (resp, l)) (route_answers e id).
Proof. intros H. apply traces_ret. exists resp, l. by rewrite error_events. Qed.
Lemma route_unlimited e id l m : Traces m (answers e id) -> Traces (unlimited l m) (route_answers e id).
Proof.
  intros H. apply traces_bind. eapply traces_mono; [exact H|]. intros r evs (resp & -> & E).
  apply traces_ret. exists resp, l. by rewrite app_nil_r.
Qed.
Lemma route_limited e id get put key l m : Traces m (answers e id) -> Traces (limited get put key l m) (route_answers e id).
Proof.
  intros H. apply traces_ask. intros t. unfold charge. destruct (allow _ _ _) as [[] rl]; [|apply route_error; simpl; lia].
  by apply route_unlimited.
Qed.
Lemma route_map e id m (f : Response * Limiters -> Response * Limiters) :
  Traces m (route_answers e id) ->
  (forall x, rs_Status (f x).1 = rs_Status x.1 /\ rs_Body (f x).1 = rs_Body x.1) ->
  Traces (let! x := m in ret (f x)) (route_answers e id).
Proof.
  intros H Hf. apply traces_bind. eapply traces_mono; [exact H|]. intros r evs (resp & l & -> & E).
  apply traces_ret. exists (f (resp, l)).1, (f (resp, l)).2. destruct (Hf (resp, l)) as [H1 H2].
  rewrite app_nil_r, E. split; [by destruct (f _)|]. by apply response_events_same.
Qed.
Lemma route_request e id r l limiter h :
  (forall l, Traces (limiter l (h rs)) (route_answers e id)) -> Traces (request_route sv r l limiter h) (route_answers e id).
Proof.
  intros H. unfold request_route, requestReady. destruct (sv_requests sv) as [x|] eqn:Ex.
  - assert (x = rs) as -> by (by apply Hrs). case_bool_decide; [|apply H]. apply route_unlimited. by apply traces_error.
  - apply route_unlimited. by apply traces_error.
Qed.
Lemma route_guarded e id refusal l m :
  (forall resp, refusal = Some resp -> 400 <= rs_Status resp) -> Traces m (answers e id) ->
  Traces (guarded refusal l m) (route_answers e id).
Proof.
  intros Hr Hm. unfold guarded. destruct refusal as [resp|]; [apply route_error; by apply Hr|by apply route_unlimited].
Qed.

Lemma readyz_traces id : Traces (readyz sv) (answers Readyz id).
Proof.
  apply traces_after_read; [solve_respects|intros; simpl; lia|]. intros _.
  destruct (sv_natsConnected sv) as [up|]; [|apply traces_ret; by eexists].
  apply traces_ask. intros ok. apply traces_ret. destruct ok; by eexists.
Qed.

Lemma route_by_client e id r r' l h : Traces (h rs) (answers e id) -> Traces (request_route sv r l (by_client r') h) (route_answers e id).
Proof. intros H. apply route_request. intros l'. unfold by_client. by apply route_limited. Qed.
Lemma route_by_path e id r l m : Traces m (answers e id) -> Traces (by_path_create r l m) (route_answers e id).
Proof. intros H. unfold by_path_create. by apply route_limited. Qed.

Lemma handle_traces e id r l : Traces (handle sv page e id r l) (route_answers e id).
Proof.
  destruct e; cbn [handle].
  - apply traces_ret. by eexists _, _.
  - apply route_unlimited, readyz_traces.
  - apply route_guarded; [|apply traces_ret; by eexists]. unfold metricsAuth. intros resp. case_match; [done|].
    intros [= <-]. simpl. lia.
  - apply traces_ret. by eexists _, _.
  - apply route_by_path, createSecret_traces.
  - apply route_unlimited, finalizeSecret_traces.
  - apply route_unlimited, getSecretMetadata_traces.
  - apply route_map; [|done]. apply route_limited, getManagementStatus_traces.
  - apply route_map; [|done]. apply route_limited, revokeSecret_traces.
  - apply route_limited, openSecret_traces.
  - apply route_request. intros l'. apply route_by_path, createRequest_traces.
  - apply route_by_client, getRequestInstructions_traces.
  - apply route_by_client, submitRequest_traces.
  - apply route_by_client, reserveRequest_traces.
  - apply route_by_client, finalizeRequest_traces.
  - apply route_by_client, abandonRequest_traces.
  - apply route_by_client, getRequestAttempt_traces.
  - apply route_by_client, getRequestOwner_traces.
  - apply route_by_client, openRequest_traces.
  - apply route_by_client, revokeRequest_traces.
  - apply route_guarded; [|apply cleanupSecret_traces]. unfold internalAuth. intros resp. case_match; [done|].
    intros [= <-]. simpl. lia.
  - apply route_guarded; [|apply acknowledge_traces]. unfold internalAuth. intros resp. case_match; [done|].
    intros [= <-]. simpl. lia.
Qed.

Lemma serve_traces e id r l : rq_Method r <> "OPTIONS" -> Traces (serve sv page e id r l) (route_answers e id).
Proof.
  intros Hm. unfold serve. rewrite bool_decide_eq_false_2 by done. apply route_map; [apply handle_traces|done].
Qed.

(** C9: a served request is a history that its response tells.  Whatever the
    request, the state of the process and the failures, the server answers;
    what it did to the database is a sequence of steps of the transition
    system, and the deliveries and creations of that sequence are exactly the
    ones the response reports: a secret or a request was opened exactly if the
    answer to its open route is 200, and created exactly if it is 201, under
    the id in the body. *)
Theorem serve_refines_history e id r l w c res w' :
  rq_Method r <> "OPTIONS" -> serve sv page e id r l w = (res, w') ->
  exists resp l' evs c', res = Ok (resp, l') /\
    history (sv_secrets sv) rs ob rp (MkSys w c) evs (MkSys w' c') /\
    filter (fun ev => visible ev = true) evs = response_events e id resp.
Proof.
  intros Hm E. destruct (serve_traces e id r l Hm w c) as (evs & c' & Hh & resp & l' & E1 & E2).
  rewrite E in Hh, E1. simpl in *. by exists resp, l', evs, c'.
Qed.

(** ** A server's life *)
Record call := MkCall { call_endpoint : endpoint; call_id : string; call_request : Request }.

(** Requests served one after the other. *)
Fixpoint serve_all (calls : list call) (l : Limiters) : M ApiDB (list Response) :=
  match calls with
  | [] => ret []
  | x :: calls =>
      let! y := serve sv page (call_endpoint x) (call_id x) (call_request x) l in
      let! rest := serve_all calls y.2 in
      ret (y.1 :: rest)
  end.

Definition call_events (x : call) (r : Response) : list event := response_events (call_endpoint x) (call_id x) r.

Lemma serve_all_traces calls l :
  Forall (fun x => rq_Method (call_request x) <> "OPTIONS") calls ->
  Traces (serve_all calls l) (fun r evs => exists rsps, r = Ok rsps /\ length rsps = length calls /\
    seen evs = concat (zip_with call_events calls rsps)).
Proof.
  revert l. induction calls as [|x calls IH]; intros l Hc; [apply traces_ret; by exists []|].
  apply Forall_cons in Hc as [Hm Hc]. cbn [serve_all]. apply traces_bind.
  eapply traces_mono; [by apply serve_traces|]. intros r0 e1 (resp & l' & -> & E1).
  apply traces_bind. eapply traces_mono; [by apply IH|]. intros r1 e2 (rsps & -> & Hl & E2).
  apply traces_ret. exists (resp :: rsps). rewrite app_nil_r, filter_app, E1, E2. simpl. by rewrite Hl.
Qed.

Context `{!OutboxSpec ob} (Hrp : OutboxSpec (reaper_outbox rp)).

Lemma times_seen ev evs : visible ev = true -> times ev evs = times ev (seen evs).
Proof.
  intros Hv. unfold times. rewrite list_filter_filter. f_equal. apply list_filter_iff.
  intros x. split; [intros ->; by split|by intros [? _]].
Qed.

(** C2: over HTTP a secret is handed out at most once.  However many requests
    of whatever kind are served, at most one answer to an open of a given
    secret is a 200, unless the id was also handed out as a new one. *)
Theorem http_secret_delivered_once calls l w rsps w' id :
  Forall (fun x => rq_Method (call_request x) <> "OPTIONS") calls ->
  serve_all calls l w = (Ok rsps, w') ->
  SecretCreated id ∉ concat (zip_with call_events calls rsps) ->
  (times (SecretOpened id) (concat (zip_with call_events calls rsps)) <= 1)%nat.
Proof.
  intros Hc E Hn. destruct (serve_all_traces calls l Hc w []) as (evs & c' & Hh & rsps' & E1 & _ & E2).
  rewrite E in E1, Hh. simpl in *. injection E1 as <-. rewrite <- E2 in Hn |- *. rewrite <- times_seen by done.
  apply (at_most_once (sv_secrets sv) rs ob rp (evolves_at id) (SecretCreated id) (SecretOpened id) (openable id)) in Hh as (_ & H & _);
    [done|..].
  - intros. by eapply (step_evolves (sv_secrets sv) rs ob rp).
  - apply evolves_openable.
  - intros. by eapply (step_open (sv_secrets sv) rs ob rp).
  - intros Hin. apply Hn. apply list_elem_of_filter. done.
Qed.
End server.
