(* ===== verification/Worker.v ===== *)
(** * The cleanup worker (src/internal/worker, and the consumer of
      src/internal/events)

    The worker keeps its own database of receipts, attempts and dead letters.
    [Start] claims one attempt of a job under a lease, [finishAttempt] ends it,
    [Process] runs the handler between the two, and [ConsumeMessages] turns the
    outcome into an acknowledgement, a redelivery or a termination. *)

From S2P Require Import Prelude World GoTime Codec Schema Outbox ObjectStorage.

Definition ProcessingLease : Z := Minute.
Definition DefaultMaxAttempts : Z := 3.

Inductive receipt_state := StateProcessing | StateSucceeded | StateFailed | StateDead.
#[export] Instance receipt_state_eq : EqDecision receipt_state.
Proof. solve_decision. Defined.
Inductive attempt_result := AttemptRunning | AttemptSucceeded | AttemptFailed.
#[export] Instance attempt_result_eq : EqDecision attempt_result.
Proof. solve_decision. Defined.

(** ** The worker database ([MigrateWorker]) *)
Record Receipt := MkReceiptRow {
  rc_kind : string;
  rc_state : receipt_state;
  rc_attempts : Z;
  rc_last_error : option string;
  rc_first_seen : time;
  rc_updated : time;
  rc_completed : option time;
}.

Record Attempt := MkAttemptRow {
  at_job : string;
  at_number : Z;
  at_started : time;
  at_finished : option time;
  at_result : attempt_result;
  at_error : option string;
}.

Record DeadLetter := MkDeadLetter { dl_kind : string; dl_payload : string; dl_error : string; dl_created : time }.

(** [t_sequence] is the last id of the autoincrement column. *)
Record WorkerDB := MkWorkerDB {
  t_receipts : gmap string Receipt;
  t_attempts : gmap Z Attempt;
  t_sequence : Z;
  t_dead : gmap string DeadLetter;
}.

Definition empty_worker_db : WorkerDB := MkWorkerDB ∅ ∅ 0 ∅.

Definition set_receipts x d := MkWorkerDB x (t_attempts d) (t_sequence d) (t_dead d).
Definition set_attempts x d := MkWorkerDB (t_receipts d) x (t_sequence d) (t_dead d).
Definition set_dead x d := MkWorkerDB (t_receipts d) (t_attempts d) (t_sequence d) x.

Definition receipt_check (r : Receipt) : bool := 0 <=? rc_attempts r.

Definition insert_receipt (id : string) (r : Receipt) (d : WorkerDB) : option (unit * WorkerDB) :=
  m ← ins receipt_check id r (t_receipts d); Some (tt, set_receipts m d).
Definition update_receipt (id : string) (P : Receipt -> bool) (f : Receipt -> Receipt) (d : WorkerDB) :
    option (Z * WorkerDB) :=
  '(n, m) ← upd receipt_check id P f (t_receipts d); Some (n, set_receipts m d).

(** [insert into job_attempts], with [LastInsertId]; the job must exist. *)
Definition insert_attempt (a : Attempt) (d : WorkerDB) : option (Z * WorkerDB) :=
  if is_some (t_receipts d !! at_job a)
  then let id := t_sequence d + 1 in
       Some (id, MkWorkerDB (t_receipts d) (<[id := a]> (t_attempts d)) id (t_dead d))
  else None.

Definition update_attempt (id : Z) (P : Attempt -> bool) (f : Attempt -> Attempt) (d : WorkerDB) :
    option (Z * WorkerDB) :=
  match t_attempts d !! id with
  | Some a => if P a then Some (1, set_attempts (<[id := f a]> (t_attempts d)) d) else Some (0, d)
  | None => Some (0, d)
  end.

(** [update job_attempts ... where job_id = ? and result = 'running']. *)
Definition interrupt_attempts (jobID : string) (t : time) (d : WorkerDB) : option (unit * WorkerDB) :=
  Some (tt, set_attempts ((fun a =>
    if bool_decide (at_job a = jobID) && bool_decide (at_result a = AttemptRunning)
    then MkAttemptRow (at_job a) (at_number a) (at_started a) (Some t) AttemptFailed None else a) <$> t_attempts d) d).

Definition is_failure (jobID : string) (a : Attempt) : bool :=
  bool_decide (at_job a = jobID) && bool_decide (at_result a = AttemptFailed) && is_some (at_error a).

Definition failures (jobID : string) (d : WorkerDB) : gmap Z Attempt :=
  filter (fun p : Z * Attempt => is_failure jobID p.2 = true) (t_attempts d).

Definition later_attempt (a b : Z * Attempt) : Prop := at_number b.2 <= at_number a.2.
#[export] Instance later_attempt_dec a b : Decision (later_attempt a b).
Proof. unfold later_attempt. apply _. Defined.

Definition earlier_attempt (a b : Z * Attempt) : Prop := at_number a.2 <= at_number b.2.
#[export] Instance earlier_attempt_dec a b : Decision (earlier_attempt a b).
Proof. unfold earlier_attempt. apply _. Defined.

(** [order by attempt desc limit 1]. *)
Definition last_failure (jobID : string) (d : WorkerDB) : option string :=
  match merge_sort later_attempt (map_to_list (failures jobID d)) with
  | [] => None
  | (_, a) :: _ => at_error a
  end.

Definition upsert_dead (id : string) (l : DeadLetter) (d : WorkerDB) : option (unit * WorkerDB) :=
  Some (tt, set_dead (<[id := l]> (t_dead d)) d).

(** ** The receipt store (store.go) *)
Record StartedAttempt := MkStarted { st_ID : Z; st_Attempt : Z }.
Inductive StartResult := StartedJob (a : StartedAttempt) | AlreadySucceededJob.

Section store.
Context {ENV : Env}.
Abbreviation W := (M WorkerDB) (only parsing).

Definition loadReceipt (jobID : string) : M WorkerDB Receipt :=
  let! row := sql_query "load job receipt" (fun d => t_receipts d !! jobID) in
  match row with Some r => ret r | None => throw (WorkerErr ErrReceiptNotFound) end.

Definition loadAttempt (id : Z) : M WorkerDB Attempt :=
  let! row := sql_query "scan job attempt" (fun d => t_attempts d !! id) in
  match row with Some a => ret a | None => throw (WorkerErr ErrReceiptNotFound) end.

(** [Attempts]: [order by attempt]. *)
Definition Attempts (jobID : string) : M WorkerDB (list (Z * Attempt)) :=
  sql_query "list job attempts" (fun d =>
    merge_sort earlier_attempt (map_to_list (filter (fun p : Z * Attempt => at_job p.2 = jobID) (t_attempts d)))).

Definition DeadLetterRecord (jobID : string) : M WorkerDB DeadLetter :=
  let! row := sql_query "load dead letter" (fun d => t_dead d !! jobID) in
  match row with Some l => ret l | None => throw (WorkerErr ErrReceiptNotFound) end.

Definition failureCount (jobID : string) : M WorkerDB Z :=
  sql_query "count failures" (fun d => Z.of_nat (size (failures jobID d))).

Definition requireAffected (n : Z) : M WorkerDB unit := fail_if (negb (n =? 1)) (WorkerErr ErrReceiptNotFound).

Definition rc_dead (msg : string) (t : time) (r : Receipt) : Receipt :=
  MkReceiptRow (rc_kind r) StateDead (rc_attempts r) (Some msg) (rc_first_seen r) t (Some t).

Definition deadLetter (jobID : string) (receipt : Receipt) (payload msg : string) (t : time) : M WorkerDB unit :=
  let! n := sql "update dead job receipt" (update_receipt jobID
    (fun r => bool_decide (rc_state r = rc_state receipt) && (rc_attempts r =? rc_attempts receipt)) (rc_dead msg t)) in
  do! requireAffected n in
  sql "upsert dead letter" (upsert_dead jobID (MkDeadLetter (rc_kind receipt) payload msg t)).

Definition rc_claimed (n : Z) (t : time) (r : Receipt) : Receipt :=
  MkReceiptRow (rc_kind r) StateProcessing n None (rc_first_seen r) t (rc_completed r).

(** The tail of [Start]: claim the next attempt. *)
Definition claimAttempt (jobID : string) (receipt : Receipt) (t : time) : M WorkerDB (txout (result StartResult)) :=
  let n := rc_attempts receipt + 1 in
  let! k := sql "update job receipt for attempt" (update_receipt jobID (fun _ => true) (rc_claimed n t)) in
  do! requireAffected k in
  let! id := sql "insert job attempt" (insert_attempt (MkAttemptRow jobID n t None AttemptRunning None)) in
  ret (Commit (Ok (StartedJob (MkStarted id n)))).

Definition startTx (jobID kind payload : string) (maxFailures : Z) : M WorkerDB (txout (result StartResult)) :=
  let! loaded := attempt (loadReceipt jobID) in
  let! rc := (match loaded with
              | Ok r => ret (r, false)
              | Err e =>
                  if decide (e = WorkerErr ErrReceiptNotFound) then
                    let! t := now in
                    let r := MkReceiptRow kind StateProcessing 0 None t t None in
                    do! sql "insert job receipt" (insert_receipt jobID r) in
                    ret (r, true)
                  else throw e
              end) in
  let '(receipt, created) := rc in
  do! fail_if (negb (bool_decide (rc_kind receipt = kind))) (WorkerErr ErrInvalidJob) in
  if bool_decide (rc_state receipt = StateSucceeded) then ret (Commit (Ok AlreadySucceededJob))
  else
    do! fail_if (bool_decide (rc_state receipt = StateDead)) (WorkerErr ErrJobDead) in
    let! t := now in
    do! (if negb created && bool_decide (rc_state receipt = StateProcessing) then
           do! fail_if (before t (rc_updated receipt + ProcessingLease)) (WorkerErr ErrJobProcessing) in
           sql "recover interrupted attempt" (interrupt_attempts jobID t)
         else ret tt) in
    if (created : bool) then claimAttempt jobID receipt t
    else
      let! count := failureCount jobID in
      if maxFailures <=? count then
        let! lastError := sql_query "load final job failure" (last_failure jobID) in
        match lastError with
        | None => throw (Fail "load final job failure")
        | Some msg =>
            do! deadLetter jobID receipt payload msg t in
            ret (Commit (Err (WorkerErr ErrJobDead)))
        end
      else claimAttempt jobID receipt t.

Definition Start (jobID kind payload : string) (maxFailures : Z) : M WorkerDB StartResult :=
  do! fail_if (bool_decide (jobID = "") || bool_decide (kind = "") || bool_decide (payload = "") || (maxFailures <? 1))
        (WorkerErr ErrInvalidJob) in
  let! r := transaction "begin start job" "commit start job" (startTx jobID kind payload maxFailures) in
  lift r.

Definition at_finish (res : attempt_result) (t : time) (msg : option string) (a : Attempt) : Attempt :=
  MkAttemptRow (at_job a) (at_number a) (at_started a) (Some t) res msg.

(** [completed_at = coalesce(?, completed_at)]. *)
Definition rc_finish (st : receipt_state) (msg : option string) (t : time) (completed : option time) (r : Receipt) : Receipt :=
  MkReceiptRow (rc_kind r) st (rc_attempts r) msg (rc_first_seen r) t
    (match completed with Some c => Some c | None => rc_completed r end).

(** How an attempt ends: it succeeded, or it failed with a text. *)
Definition finishTx (id : Z) (failure : option string) (payload : string) (maxFailures : Z) : M WorkerDB (txout bool) :=
  let! a := loadAttempt id in
  do! fail_if (negb (bool_decide (at_result a = AttemptRunning))) (WorkerErr ErrStaleAttempt) in
  let! receipt := loadReceipt (at_job a) in
  do! fail_if (negb (bool_decide (rc_state receipt = StateProcessing)) || negb (rc_attempts receipt =? at_number a))
        (WorkerErr ErrStaleAttempt) in
  let! t := now in
  let res := match failure with Some _ => AttemptFailed | None => AttemptSucceeded end in
  let! k := sql "update job attempt" (update_attempt id (fun x => bool_decide (at_result x = AttemptRunning))
    (at_finish res t failure)) in
  do! requireAffected k in
  let st := match failure with Some _ => StateFailed | None => StateSucceeded end in
  let completed := match failure with Some _ => None | None => Some t end in
  let! k := sql "update job receipt" (update_receipt (at_job a)
    (fun r => bool_decide (rc_state r = StateProcessing) && (rc_attempts r =? at_number a))
    (rc_finish st failure t completed)) in
  do! fail_if (negb (k =? 1)) (WorkerErr ErrStaleAttempt) in
  match failure with
  | None => ret (Commit false)
  | Some msg =>
      let! count := failureCount (at_job a) in
      if maxFailures <=? count then
        let failed := MkReceiptRow (rc_kind receipt) StateFailed (rc_attempts receipt) (rc_last_error receipt)
          (rc_first_seen receipt) (rc_updated receipt) (rc_completed receipt) in
        do! deadLetter (at_job a) failed payload msg t in
        ret (Commit true)
      else ret (Commit false)
  end.

Definition finishAttempt (id : Z) (failure : option string) (payload : string) (maxFailures : Z) : M WorkerDB bool :=
  transaction "begin finish job attempt" "commit finish job attempt" (finishTx id failure payload maxFailures).

Definition MarkSucceeded (id : Z) : M WorkerDB unit :=
  do! finishAttempt id None "" 0 in ret tt.

Definition MarkFailed (id : Z) (jobErr payload : string) (maxFailures : Z) : M WorkerDB bool :=
  do! fail_if (bool_decide (payload = "") || (maxFailures <? 1)) (WorkerErr ErrInvalidJob) in
  finishAttempt id (Some jobErr) payload maxFailures.
End store.

(** ** The cleanup handler (cleanup.go) *)

(** What the handler meets outside the process, at a tick: the internal API's
    answers (a status and a body, or a transport error), the strict decoding of
    its response, the cancellation of the worker's context, the broker's answer
    to an acknowledgement, and the text of an error. *)
Class Internal := {
  post_cleanup : nat -> string -> string -> string -> option (Z * string);
  decode_cleanup : string -> option (string * bool);
  post_ack : nat -> string -> string -> option Z;
  ctx_done : nat -> bool;
  broker_ok : nat -> bool;
  error_text : err -> string;
}.

Definition invalid_job : err := WorkerErr ErrInvalidJob.

Definition managed_prefixes : list string := ["managed/secrets/"; "managed/requests/"].
Definition requiresObjectAcknowledgement (key : string) : bool :=
  existsb (fun p => has_prefix p key && negb (bool_decide (key = p))) managed_prefixes.

Definition validCleanupReason (reason : string) : bool :=
  bool_decide (reason ∈ [ReasonConsumed; ReasonExpired; ReasonOrphan; ReasonManual; ReasonRetry]).

Definition cleanupReason (ev : JobEvent) : result string :=
  if bool_decide (Kind ev = KindDeleteSecret) then
    if bool_decide (Reason ev = "") then Ok ReasonConsumed
    else if validCleanupReason (Reason ev) then Ok (Reason ev) else Err invalid_job
  else Err invalid_job.

Section handler.
Context {ENV : Env} {API : Internal}.

Record CleanupRequest := MkCleanupRequest { cr_SecretID : string; cr_JobID : string; cr_Reason : string }.

Definition CleanupSecret (req : CleanupRequest) : M WorkerDB bool :=
  do! fail_if (blank (cr_SecretID req) || blank (cr_JobID req) || blank (cr_Reason req)) invalid_job in
  do! emit (EffCleanup (cr_SecretID req) (cr_JobID req) (cr_Reason req)) in
  let! resp := ask (fun t => post_cleanup t (cr_SecretID req) (cr_JobID req) (cr_Reason req)) in
  match resp with
  | None => throw (Fail "call cleanup endpoint")
  | Some (status, body) =>
      do! fail_if ((status <? 200) || (300 <=? status)) (Fail "cleanup endpoint returned an error status") in
      match decode_cleanup body with
      | None => throw (Fail "decode cleanup response")
      | Some (id, cleaned) =>
          do! fail_if (negb (bool_decide (id = cr_SecretID req))) (Fail "cleanup response id") in
          ret cleaned
      end
  end.

Definition AcknowledgeObjectCleanup (ev : JobEvent) : M WorkerDB unit :=
  do! fail_if (negb (bool_decide (Kind ev = KindDeleteOCIObject)) || bool_decide (JobID ev = "") ||
               negb (requiresObjectAcknowledgement (ObjectKey ev))) invalid_job in
  do! emit (EffObjectAck (JobID ev) (ObjectKey ev)) in
  let! resp := ask (fun t => post_ack t (JobID ev) (ObjectKey ev)) in
  match resp with
  | None => throw (Fail "object cleanup acknowledgement request failed")
  | Some status => fail_if (negb (status =? 204)) (Fail "object cleanup acknowledgement status")
  end.

(** [CleanupHandler], with or without object storage. *)
Definition handleObjectDelete (objects : option (Objects.Store WorkerDB)) (ev : JobEvent) : M WorkerDB unit :=
  do! fail_if (blank (ObjectKey ev)) invalid_job in
  match objects with
  | None => fail_if (requiresObjectAcknowledgement (ObjectKey ev)) (Fail "managed object deletion requires object storage")
  | Some o => Objects.Delete o (ObjectKey ev)
  end.

Definition HandleJob (objects : option (Objects.Store WorkerDB)) (ev : JobEvent) : M WorkerDB unit :=
  if bool_decide (Kind ev = KindDeleteOCIObject) then handleObjectDelete objects ev
  else
    let! reason := lift (cleanupReason ev) in
    do! fail_if (blank (SecretID ev)) invalid_job in
    do! fail_if (blank (JobID ev)) invalid_job in
    do! CleanupSecret (MkCleanupRequest (SecretID ev) (JobID ev) reason) in ret tt.
End handler.

(** ** The processor (processor.go) *)
Record Processor := MkProcessor {
  handler : JobEvent -> M WorkerDB unit;
  maxAttempts : Z;
  acknowledger : option (JobEvent -> M WorkerDB unit);
}.

Definition NewProcessor (h : JobEvent -> M WorkerDB unit) (max : Z) (ack : option (JobEvent -> M WorkerDB unit)) :
    result Processor :=
  let max := if max =? 0 then DefaultMaxAttempts else max in
  if max <? 0 then Err (Fail "max attempts must be positive") else Ok (MkProcessor h max ack).

Inductive ProcessResult :=
  | Succeeded (already : bool)
  | DeadLettered (already : bool)
  | AlreadyProcessing.

Inductive MessageAction := MessageAck | MessageRetry | MessageTerminate.

Record ConsumerResult := MkConsumed { Acked : Z; Naked : Z; Terminated : Z }.

Section processor.
Context {ENV : Env} {CODEC : EventCodec} {API : Internal} (p : Processor).

Definition finishFailed (ev : JobEvent) (payload : string) (a : StartedAttempt) (jobErr : err) : M WorkerDB ProcessResult :=
  let! dead := MarkFailed (st_ID a) (error_text jobErr) payload (maxAttempts p) in
  if (dead : bool) then ret (DeadLettered false) else throw jobErr.

(** The body of [Process], up to its deferred acknowledgement. *)
Definition processBody (ev : JobEvent) : M WorkerDB ProcessResult :=
  let! payload := lift (JSON ev) in
  let! started := attempt (Start (JobID ev) (Kind ev) payload (maxAttempts p)) in
  match started with
  | Err e =>
      if decide (e = WorkerErr ErrJobProcessing) then ret AlreadyProcessing
      else if decide (e = WorkerErr ErrJobDead) then ret (DeadLettered true)
      else throw e
  | Ok AlreadySucceededJob => ret (Succeeded true)
  | Ok (StartedJob a) =>
      let! r := attempt (handler p ev) in
      let! stopped := ask ctx_done in
      do! fail_if stopped (Fail "context canceled") in
      match r with
      | Err jobErr => finishFailed ev payload a jobErr
      | Ok _ => do! MarkSucceeded (st_ID a) in ret (Succeeded false)
      end
  end.

Definition needs_ack (ev : JobEvent) (r : ProcessResult) : bool :=
  match r with Succeeded _ | DeadLettered _ => true | AlreadyProcessing => false end &&
  bool_decide (Kind ev = KindDeleteOCIObject) && requiresObjectAcknowledgement (ObjectKey ev).

Definition Process (payloadJSON : string) : M WorkerDB ProcessResult :=
  let! ev := lift (decodeJobEvent payloadJSON) in
  let! r := processBody ev in
  do! (if needs_ack ev r then
         match acknowledger p with
         | None => throw (Fail "managed object cleanup acknowledger is required")
         | Some ack => ack ev
         end
       else ret tt) in
  ret r.

Definition ProcessMessage (payloadJSON : string) : M WorkerDB MessageAction :=
  let! r := attempt (Process payloadJSON) in
  match r with
  | Err e => if decide (e = invalid_job) then ret MessageTerminate else throw e
  | Ok (DeadLettered _) => ret MessageTerminate
  | Ok AlreadyProcessing => ret MessageRetry
  | Ok (Succeeded _) => ret MessageAck
  end.

(** *** Consuming a batch (consumer.go) *)
Definition resolveMessageAction (r : result MessageAction) : MessageAction :=
  match r with
  | Ok action => action
  | Err e => if decide (e = EventsErr ErrInvalidEvent) then MessageTerminate else MessageRetry
  end.

Definition action_effect (action : MessageAction) (payload : string) : effect :=
  match action with MessageAck => EffAck payload | MessageRetry => EffNak payload | MessageTerminate => EffTerm payload end.

Definition applyMessageAction (payload : string) (action : MessageAction) : M WorkerDB unit :=
  let! ok := ask broker_ok in
  if ok then emit (action_effect action payload)
  else throw (Fail match action with
                   | MessageAck => "ack nats message" | MessageRetry => "nak nats message"
                   | MessageTerminate => "term nats message" end).

Definition count_action (action : MessageAction) (r : ConsumerResult) : ConsumerResult :=
  match action with
  | MessageAck => MkConsumed (Acked r + 1) (Naked r) (Terminated r)
  | MessageRetry => MkConsumed (Acked r) (Naked r + 1) (Terminated r)
  | MessageTerminate => MkConsumed (Acked r) (Naked r) (Terminated r + 1)
  end.

Fixpoint consume_all (messages : list string) (res : ConsumerResult) : M WorkerDB ConsumerResult :=
  match messages with
  | [] => ret res
  | m :: messages =>
      let! r := attempt (ProcessMessage m) in
      let action := resolveMessageAction r in
      do! applyMessageAction m action in
      consume_all messages (count_action action res)
  end.

Definition ConsumeMessages (messages : list string) : M WorkerDB ConsumerResult :=
  consume_all messages (MkConsumed 0 0 0).
End processor.
