(* ===== verification/Migrations.v ===== *)
(** * Migrations (src/internal/db/migrations.go and requests.go)

    A database file as the tables it has: each missing, in the shape of the
    format before age, or current.  [MigrateAPI] runs statement by statement;
    a run that fails in the middle leaves the statements before it applied, and
    the next start of the process runs it again.  Rows of the old shapes are
    dropped unread and carry no data here.  An index that is not unique changes
    no result and is left out. *)

From S2P Require Import Prelude World GoTime Schema Worker.

Inductive table (A : Type) := Missing | Before | Current (rows : gmap string A).
Arguments Missing {A}.
Arguments Before {A}.
Arguments Current {A} rows.
Definition rows_of {A} (t : table A) : gmap string A := match t with Current m => m | _ => ∅ end.
Definition is_before {A} (t : table A) : bool := match t with Before => true | _ => false end.
Definition is_missing {A} (t : table A) : bool := match t with Missing => true | _ => false end.

(** ** The file of the API *)
Record Catalog := MkCatalog {
  k_secrets : table secret_row;
  k_payloads : option (gmap string payload_row);
  k_cursor : option (option cursor_row);
  k_pending : option (gmap string string);
  k_management : option (gmap string management_row);
  k_requests : table request_row;
  k_request_payloads : option (gmap string string);
  k_outbox : option (gmap string outbox_row);
  k_upload_index : bool;
  k_final_index : bool;
  k_request_cursor : option (option cursor_row);
  k_request_pending : option (gmap string string);
}.
Definition new_file : Catalog := MkCatalog Missing None None None None Missing None None false false None None.

Definition put_secrets x c := MkCatalog x (k_payloads c) (k_cursor c) (k_pending c) (k_management c) (k_requests c)
  (k_request_payloads c) (k_outbox c) (k_upload_index c) (k_final_index c) (k_request_cursor c) (k_request_pending c).
Definition put_payloads x c := MkCatalog (k_secrets c) x (k_cursor c) (k_pending c) (k_management c) (k_requests c)
  (k_request_payloads c) (k_outbox c) (k_upload_index c) (k_final_index c) (k_request_cursor c) (k_request_pending c).
Definition put_cursor x c := MkCatalog (k_secrets c) (k_payloads c) x (k_pending c) (k_management c) (k_requests c)
  (k_request_payloads c) (k_outbox c) (k_upload_index c) (k_final_index c) (k_request_cursor c) (k_request_pending c).
Definition put_pending x c := MkCatalog (k_secrets c) (k_payloads c) (k_cursor c) x (k_management c) (k_requests c)
  (k_request_payloads c) (k_outbox c) (k_upload_index c) (k_final_index c) (k_request_cursor c) (k_request_pending c).
Definition put_management x c := MkCatalog (k_secrets c) (k_payloads c) (k_cursor c) (k_pending c) x (k_requests c)
  (k_request_payloads c) (k_outbox c) (k_upload_index c) (k_final_index c) (k_request_cursor c) (k_request_pending c).
Definition put_requests x c := MkCatalog (k_secrets c) (k_payloads c) (k_cursor c) (k_pending c) (k_management c) x
  (k_request_payloads c) (k_outbox c) (k_upload_index c) (k_final_index c) (k_request_cursor c) (k_request_pending c).
Definition put_request_payloads x c := MkCatalog (k_secrets c) (k_payloads c) (k_cursor c) (k_pending c) (k_management c) (k_requests c)
  x (k_outbox c) (k_upload_index c) (k_final_index c) (k_request_cursor c) (k_request_pending c).
Definition put_outbox x c := MkCatalog (k_secrets c) (k_payloads c) (k_cursor c) (k_pending c) (k_management c) (k_requests c)
  (k_request_payloads c) x (k_upload_index c) (k_final_index c) (k_request_cursor c) (k_request_pending c).
Definition put_upload_index x c := MkCatalog (k_secrets c) (k_payloads c) (k_cursor c) (k_pending c) (k_management c) (k_requests c)
  (k_request_payloads c) (k_outbox c) x (k_final_index c) (k_request_cursor c) (k_request_pending c).
Definition put_final_index x c := MkCatalog (k_secrets c) (k_payloads c) (k_cursor c) (k_pending c) (k_management c) (k_requests c)
  (k_request_payloads c) (k_outbox c) (k_upload_index c) x (k_request_cursor c) (k_request_pending c).
Definition put_request_cursor x c := MkCatalog (k_secrets c) (k_payloads c) (k_cursor c) (k_pending c) (k_management c) (k_requests c)
  (k_request_payloads c) (k_outbox c) (k_upload_index c) (k_final_index c) x (k_request_pending c).
Definition put_request_pending x c := MkCatalog (k_secrets c) (k_payloads c) (k_cursor c) (k_pending c) (k_management c) (k_requests c)
  (k_request_payloads c) (k_outbox c) (k_upload_index c) (k_final_index c) (k_request_cursor c) x.

(** ** Statements *)
Definition Statement (D : Type) := D -> option (unit * D).

(** [create table if not exists]. *)
Definition create_table {A D} (get : D -> table A) (put : table A -> D -> D) : Statement D := fun c =>
  Some (tt, if is_missing (get c) then put (Current ∅) c else c).
Definition create_if_missing {A D} (get : D -> option A) (put : option A -> D -> D) (empty : A) : Statement D := fun c =>
  Some (tt, match get c with None => put (Some empty) c | Some _ => c end).
(** [insert or ignore into cursor (id) values (1)]. *)
Definition insert_cursor (get : Catalog -> option (option cursor_row)) (put : option (option cursor_row) -> Catalog -> Catalog) :
    Statement Catalog := fun c =>
  match get c with
  | Some None => Some (tt, put (Some (Some (MkCursor "" 0))) c)
  | Some (Some _) => Some (tt, c)
  | None => None
  end.
(** [create unique index if not exists ... where key is not null]. *)
Definition keys_distinct (key : request_row -> option string) (m : gmap string request_row) : bool :=
  bool_decide (NoDup (omap (fun p : string * request_row => key p.2) (map_to_list m))).
Definition create_index (key : request_row -> option string) (has : Catalog -> bool) (put : bool -> Catalog -> Catalog) :
    Statement Catalog := fun c =>
  if has c then Some (tt, c)
  else match k_requests c with
       | Current m => if keys_distinct key m then Some (tt, put true c) else None
       | _ => None
       end.

Definition drop_secrets : Statement Catalog := fun c =>
  if is_missing (k_secrets c) then None else Some (tt, put_secrets Missing c).
(** The indexes go with the table. *)
Definition drop_requests : Statement Catalog := fun c =>
  if is_missing (k_requests c) then None
  else Some (tt, put_upload_index false (put_final_index false (put_requests Missing c))).
Definition decide_outcome (m : management_row) : management_row :=
  if is_none (m_outcome m) then MkManagement (m_token_hash m) (m_expires m) (Some Unavailable) else m.
(** [update secret_management set outcome = 'unavailable' where outcome is null]. *)
Definition outcomes_unavailable : Statement Catalog := fun c =>
  match k_management c with
  | Some m => Some (tt, put_management (Some (decide_outcome <$> m)) c)
  | None => None
  end.

(** [sqlite_master] and [pragma table_info], for the names the code asks for. *)
Definition table_exists (name : string) (c : Catalog) : bool :=
  if bool_decide (name = "requests") then negb (is_missing (k_requests c))
  else if bool_decide (name = "secret_management") then is_some (k_management c) else false.
Definition column_exists (name column : string) (c : Catalog) : bool :=
  if bool_decide (name = "secrets" /\ column = "nonce") then is_before (k_secrets c)
  else if bool_decide (name = "requests" /\ column = "consumed_at")
  then negb (is_missing (k_requests c)) && negb (is_before (k_requests c)) else false.

Section migrate.
Context {ENV : Env}.

Definition tableExists (name : string) : M Catalog bool := sql_query "inspect tables" (table_exists name).
Definition columnExists (name column : string) : M Catalog bool := sql_query "inspect columns" (column_exists name column).

Definition dropAESGCMSecrets : M Catalog unit :=
  let! legacy := columnExists "secrets" "nonce" in
  if negb legacy then ret tt
  else transaction "begin aes-gcm secrets drop" "commit aes-gcm secrets drop"
    (let! hasManagement := tableExists "secret_management" in
     do! (if hasManagement : bool then sql "drop aes-gcm secrets" outcomes_unavailable else ret tt) in
     do! sql "drop aes-gcm secrets" (fun c => Some (tt, put_payloads None c)) in
     do! sql "drop aes-gcm secrets" drop_secrets in
     ret (Commit tt)).

Definition dropRSARequests : M Catalog unit :=
  let! exists_ := tableExists "requests" in
  if negb exists_ then ret tt
  else
    let! hasConsumedAt := columnExists "requests" "consumed_at" in
    if hasConsumedAt : bool then ret tt
    else transaction "begin" "commit"
      (do! sql "drop RSA request tables" (fun c => Some (tt, put_request_payloads None c)) in
       do! sql "drop RSA request tables" drop_requests in
       ret (Commit tt)).

Fixpoint apply_all {D} (msg : string) (l : list (Statement D)) : M D unit :=
  match l with
  | [] => ret tt
  | st :: l => do! sql msg st in apply_all msg l
  end.

Definition api_statements : list (Statement Catalog) :=
  [create_table k_secrets put_secrets; create_if_missing k_payloads put_payloads ∅;
   create_if_missing k_cursor put_cursor None; insert_cursor k_cursor put_cursor;
   create_if_missing k_pending put_pending ∅; create_if_missing k_management put_management ∅;
   create_table k_requests put_requests; create_if_missing k_request_payloads put_request_payloads ∅;
   create_if_missing k_outbox put_outbox ∅].
Definition request_statements : list (Statement Catalog) :=
  [create_index r_upload_key k_upload_index put_upload_index; create_index r_final_key k_final_index put_final_index;
   create_if_missing k_request_cursor put_request_cursor None; insert_cursor k_request_cursor put_request_cursor;
   create_if_missing k_request_pending put_request_pending ∅].
Definition normalizeRequestsSchema : M Catalog unit := apply_all "migrate request storage" request_statements.

Definition MigrateAPI : M Catalog unit :=
  do! dropAESGCMSecrets in
  do! dropRSARequests in
  do! apply_all "apply api migration" api_statements in
  normalizeRequestsSchema.
End migrate.

(** ** The file of the worker *)
Record WorkerCatalog := MkWorkerCatalog {
  k_receipts : option (gmap string Receipt);
  k_attempts : option (gmap Z Attempt * Z);
  k_dead : option (gmap string DeadLetter);
}.
Definition put_receipts x c := MkWorkerCatalog x (k_attempts c) (k_dead c).
Definition put_attempts x c := MkWorkerCatalog (k_receipts c) x (k_dead c).
Definition put_dead x c := MkWorkerCatalog (k_receipts c) (k_attempts c) x.
Definition worker_statements : list (Statement WorkerCatalog) :=
  [create_if_missing k_receipts put_receipts ∅; create_if_missing k_attempts put_attempts (∅, 0);
   create_if_missing k_dead put_dead ∅].
Definition MigrateWorker {ENV : Env} : M WorkerCatalog unit := apply_all "apply worker migration" worker_statements.

(** ** What a migration makes of a file *)

(** The database of a file: the rows of current tables, nothing of the old
    ones, and the deliveries of an old table recorded as unavailable. *)
Definition migrated (c : Catalog) : ApiDB :=
  let old := is_before (k_secrets c) in
  MkApiDB (rows_of (k_secrets c))
    (if old then ∅ else default ∅ (k_payloads c))
    (if old then decide_outcome <$> default ∅ (k_management c) else default ∅ (k_management c))
    (default (MkCursor "" 0) (mjoin (k_cursor c))) (default ∅ (k_pending c))
    (rows_of (k_requests c))
    (if is_before (k_requests c) then ∅ else default ∅ (k_request_payloads c))
    (default (MkCursor "" 0) (mjoin (k_request_cursor c))) (default ∅ (k_request_pending c))
    (default ∅ (k_outbox c)).

(** The file that holds a database, with every table and index. *)
Definition catalog_of (d : ApiDB) : Catalog :=
  MkCatalog (Current (t_secrets d)) (Some (t_payloads d)) (Some (Some (t_cursor d))) (Some (t_pending d))
    (Some (t_management d)) (Current (t_requests d)) (Some (t_request_payloads d)) (Some (t_outbox d)) true true
    (Some (Some (t_request_cursor d))) (Some (t_request_pending d)).

Lemma migrated_new_file : migrated new_file = empty_db.
Proof. reflexivity. Qed.
Lemma migrated_catalog_of d : migrated (catalog_of d) = d.
Proof. by destruct d. Qed.
Lemma decide_outcome_twice m : decide_outcome (decide_outcome m) = decide_outcome m.
Proof. unfold decide_outcome. by destruct (m_outcome m) eqn:E; cbn; rewrite ?E. Qed.

(** A run of statements, on the file alone. *)
Fixpoint run_all {D} (l : list (Statement D)) (c : D) : option D :=
  match l with [] => Some c | st :: l => '(_, c') ← st c; run_all l c' end.

Section proofs.
Context {ENV : Env}.

Lemma apply_all_ok {D} msg (l : list (Statement D)) w w' : apply_all msg l w = (Ok tt, w') -> run_all l (db w) = Some (db w').
Proof.
  revert w. induction l as [|st l IH]; intros w H; cbn in *; [by injection H as <-|].
  apply bind_ok in H as (u & w1 & H1 & H). mstep H1. rewrite H1. cbn. by apply IH in H.
Qed.
Lemma apply_all_runs {D} {NF : NoFaults} msg (l : list (Statement D)) w c : run_all l (db w) = Some c ->
  exists w', apply_all msg l w = (Ok tt, w') /\ db w' = c.
Proof.
  revert w. induction l as [|st l IH]; intros w H; cbn in *; [injection H as <-; by exists w|].
  destruct (st (db w)) as [[[] c1]|] eqn:E; [|done]. cbn in H.
  destruct (IH (set_db c1 (bump w)) H) as (w' & Hr & Hc). exists w'. split; [|done].
  erewrite bind_runs; [exact Hr|by apply sql_runs].
Qed.
(** A relation every statement keeps. *)
Lemma apply_all_respects {D} (R : relation D) `{!PreOrder R} msg (l : list (Statement D)) :
  Forall (fun st => forall c u c', st c = Some (u, c') -> R c c') l -> respects (on_db R) (apply_all msg l).
Proof.
  induction 1 as [|st l Hst _ IH]; cbn; [apply respects_ret; apply _|].
  apply respects_bind; [apply _|by apply respects_sql|by intros].
Qed.

(** *** The statements *)
Definition same_contents (c c' : Catalog) : Prop := migrated c' = migrated c.
#[local] Instance same_contents_preorder : PreOrder same_contents.
Proof. split; [done|]. unfold same_contents. intros c1 c2 c3 H1 H2. congruence. Qed.

Lemma api_statements_keep : Forall (fun st => forall c u c', st c = Some (u, c') -> same_contents c c') api_statements.
Proof.
  unfold api_statements, create_table, is_missing, create_if_missing, insert_cursor, same_contents.
  repeat apply Forall_cons_2; [..|apply Forall_nil_2]; intros c u c' H; destruct c; cbn in H;
    repeat match type of H with context [match ?x with _ => _ end] => is_var x; destruct x end; (discriminate || by injection H as _ <-).
Qed.
Lemma create_index_keeps key has put c u c' : (forall b c, same_contents c (put b c)) ->
  create_index key has put c = Some (u, c') -> same_contents c c'.
Proof.
  intros Hp. unfold create_index. destruct (has c); [by intros [= _ <-]|]. destruct (k_requests c); try done.
  destruct (keys_distinct _ _); [|done]. intros [= _ <-]. apply Hp.
Qed.
Lemma request_statements_keep : Forall (fun st => forall c u c', st c = Some (u, c') -> same_contents c c') request_statements.
Proof.
  repeat apply Forall_cons_2; [..|apply Forall_nil_2]; intros c u c'; try (by apply create_index_keeps).
  all: unfold create_if_missing, insert_cursor, same_contents; intros H; destruct c as [? ? ? ? ? ? ? ? ? ? [[]|] []]; cbn in H; (discriminate || by injection H as _ <-).
Qed.

(** *** The two drops *)
Definition after_drops (c : Catalog) : Prop := is_before (k_secrets c) = false /\ is_before (k_requests c) = false.

(** The four questions the code asks of the schema. *)
Lemma nonce_exists c : column_exists "secrets" "nonce" c = is_before (k_secrets c).
Proof. reflexivity. Qed.
Lemma consumed_at_exists c :
  column_exists "requests" "consumed_at" c = negb (is_missing (k_requests c)) && negb (is_before (k_requests c)).
Proof. reflexivity. Qed.
Lemma requests_exists c : table_exists "requests" c = negb (is_missing (k_requests c)).
Proof. reflexivity. Qed.
Lemma management_exists c : table_exists "secret_management" c = is_some (k_management c).
Proof. reflexivity. Qed.

(** What the committed transactions leave. *)
Definition secrets_dropped (c : Catalog) : Catalog :=
  put_secrets Missing (put_payloads None (put_management (option_map (fun m => decide_outcome <$> m) (k_management c)) c)).
Definition requests_dropped (c : Catalog) : Catalog :=
  put_upload_index false (put_final_index false (put_requests Missing (put_request_payloads None c))).

Lemma secrets_dropped_same c : is_before (k_secrets c) = true -> same_contents c (secrets_dropped c).
Proof.
  destruct c as [s ? ? ? m ? ? ? ? ? ? ?]. unfold same_contents, migrated. cbn. intros Hb.
  destruct s; try done. destruct m as [m|]; cbn; [done|]. by rewrite fmap_empty.
Qed.
Lemma requests_dropped_same c : is_before (k_requests c) = true -> same_contents c (requests_dropped c).
Proof. destruct c as [? ? ? ? ? r ? ? ? ? ? ?]. unfold same_contents, migrated. cbn. intros Hb. by destruct r. Qed.

Lemma drop_secrets_body w x w1 :
  (let! hasManagement := tableExists "secret_management" in
   do! (if hasManagement : bool then sql "drop aes-gcm secrets" outcomes_unavailable else ret tt) in
   do! sql "drop aes-gcm secrets" (fun c => Some (tt, put_payloads None c)) in
   do! sql "drop aes-gcm secrets" drop_secrets in
   ret (Commit tt)) w = (Ok x, w1) ->
  x = Commit tt /\ db w1 = secrets_dropped (db w).
Proof.
  unfold tableExists. intros H. apply bind_ok in H as (has & w2 & H1 & H). mstep H1. cbn in H.
  apply bind_ok in H as (u & w3 & Hm & H). msteps H. injection H1 as _ <-. split; [done|]. cbn in H3 |- *.
  unfold drop_secrets in H3. destruct (is_missing _); [done|]. injection H3 as _ <-. rewrite management_exists in Hm.
  destruct (k_management (db w)) as [m|] eqn:Em; cbn [is_some] in Hm.
  - mstep Hm. unfold outcomes_unavailable in Hm. cbn in Hm. rewrite Em in Hm. injection Hm as _ <-.
    cbn. unfold secrets_dropped. by rewrite Em.
  - mstep Hm. unfold secrets_dropped. rewrite Em. cbn. destruct (db w). cbn in *. by subst.
Qed.

Lemma dropAESGCM_spec w res w' : dropAESGCMSecrets w = (res, w') ->
  db w' = db w /\ (res = Ok tt -> is_before (k_secrets (db w)) = false) \/
  is_before (k_secrets (db w)) = true /\ db w' = secrets_dropped (db w).
Proof.
  intros H. unfold dropAESGCMSecrets, columnExists in H. destruct res as [[]|e].
  - apply bind_ok in H as (legacy & w1 & H1 & H). mstep H1. rewrite nonce_exists in H.
    destruct (is_before (k_secrets (db w))) eqn:Eb; cbn [negb] in H; [|left; by apply ret_ok in H as [_ ->]].
    right. split; [done|]. apply transaction_ok in H as (_ & [(w1 & H & _)|(w1 & H & _ & ->)]);
      apply drop_secrets_body in H as [? E]; done.
  - left. split; [|done]. apply bind_err in H as [H|(legacy & w1 & H1 & H)]; [by merr H|]. mstep H1. destruct (negb _); [done|].
    by apply transaction_err in H.
Qed.

Lemma drop_requests_body w x w1 :
  (do! sql "drop RSA request tables" (fun c => Some (tt, put_request_payloads None c)) in
   do! sql "drop RSA request tables" drop_requests in
   ret (Commit tt)) w = (Ok x, w1) -> x = Commit tt /\ db w1 = requests_dropped (db w).
Proof.
  intros H. msteps H. split; [done|]. injection H0 as _ <-. unfold drop_requests in H2. cbn in H2 |- *.
  destruct (is_missing _); [done|]. by injection H2 as _ <-.
Qed.

Lemma dropRSA_spec w res w' : dropRSARequests w = (res, w') ->
  db w' = db w /\ (res = Ok tt -> is_before (k_requests (db w)) = false) \/
  is_before (k_requests (db w)) = true /\ db w' = requests_dropped (db w).
Proof.
  intros H. unfold dropRSARequests, tableExists, columnExists in H. destruct res as [[]|e].
  - apply bind_ok in H as (has & w1 & H1 & H). mstep H1. rewrite requests_exists in H.
    destruct (k_requests (db w)) as [| |m] eqn:Er; cbn [is_missing negb] in H; [left; by apply ret_ok in H as [_ ->]| |].
    all: apply bind_ok in H as (col & w1 & H1 & H); mstep H1; rewrite consumed_at_exists in H; cbn [db bump] in H; rewrite Er in H;
      cbn [is_missing is_before negb andb] in H.
    + right. split; [done|]. apply transaction_ok in H as (_ & [(w1 & H & _)|(w1 & H & _ & ->)]);
        apply drop_requests_body in H as [? E]; done.
    + left. by apply ret_ok in H as [_ ->].
  - left. split; [|done]. apply bind_err in H as [H|(has & w1 & H1 & H)]; [by merr H|]. mstep H1. destruct (negb _); [done|].
    apply bind_err in H as [H|(col & w1 & H1 & H)]; [by merr H|]. mstep H1. destruct (column_exists _ _ _); [done|].
    by apply transaction_err in H.
Qed.

(** *** The statements, once no old table is left *)
Definition current (c : Catalog) : Prop := is_before (k_secrets c) = false /\ is_before (k_requests c) = false.

Lemma create_table_run {A D} (get : D -> table A) put c : is_before (get c) = false -> put (get c) c = c ->
  create_table get put c = Some (tt, put (Current (rows_of (get c))) c).
Proof. unfold create_table. destruct (get c) as [| |m]; [done|done|]. cbn. by intros _ ->. Qed.
Lemma create_if_missing_run {A D} (get : D -> option A) put e c : put (get c) c = c ->
  create_if_missing get put e c = Some (tt, put (Some (default e (get c))) c).
Proof. unfold create_if_missing. destruct (get c) as [m|]; [|done]. cbn. by intros ->. Qed.

Lemma insert_cursor_run get put c o : get c = Some o -> put (get c) c = c ->
  insert_cursor get put c = Some (tt, put (Some (Some (default (MkCursor "" 0) o))) c).
Proof. unfold insert_cursor. intros -> Hp. destruct o as [cu|]; [|done]. cbn. by rewrite Hp. Qed.

(** The indexes can be built, or are there. *)
Definition indexable (c : Catalog) : Prop :=
  (k_upload_index c = true \/ keys_distinct r_upload_key (rows_of (k_requests c)) = true) /\
  (k_final_index c = true \/ keys_distinct r_final_key (rows_of (k_requests c)) = true).

Lemma api_run c : current c -> run_all api_statements c =
  Some (MkCatalog (Current (rows_of (k_secrets c))) (Some (default ∅ (k_payloads c)))
    (Some (Some (default (MkCursor "" 0) (mjoin (k_cursor c))))) (Some (default ∅ (k_pending c)))
    (Some (default ∅ (k_management c))) (Current (rows_of (k_requests c))) (Some (default ∅ (k_request_payloads c)))
    (Some (default ∅ (k_outbox c))) (k_upload_index c) (k_final_index c) (k_request_cursor c) (k_request_pending c)).
Proof.
  destruct c as [[| |m] p cu pe mg [| |r] rp o u f rcu rpe]; intros [Hs Hr]; try done;
    destruct p, cu as [[cu|]|], pe, mg, rp, o; reflexivity.
Qed.

Lemma create_index_run key has put c m : k_requests c = Current m -> has c = true \/ keys_distinct key m = true ->
  (has c = true -> put true c = c) -> create_index key has put c = Some (tt, put true c).
Proof.
  unfold create_index. intros -> Hi Hp. destruct (has c); [by rewrite Hp|]. destruct Hi as [|E]; [done|by rewrite E].
Qed.
Lemma create_index_ok key has put c u c' m : k_requests c = Current m -> create_index key has put c = Some (u, c') ->
  has c = true \/ keys_distinct key m = true.
Proof. unfold create_index. intros ->. destruct (has c); [by left|]. destruct (keys_distinct key m); [by right|done]. Qed.

Lemma request_run c m : k_requests c = Current m -> indexable c -> run_all request_statements c =
  Some (MkCatalog (k_secrets c) (k_payloads c) (k_cursor c) (k_pending c) (k_management c) (k_requests c)
    (k_request_payloads c) (k_outbox c) true true (Some (Some (default (MkCursor "" 0) (mjoin (k_request_cursor c)))))
    (Some (default ∅ (k_request_pending c)))).
Proof.
  destruct c as [s p cu pe mg r rp o u f rcu rpe]. cbn -[keys_distinct]. intros -> [Hu Hf]. cbn -[keys_distinct] in Hu, Hf.
  destruct u, f, rcu as [[cu'|]|], rpe; destruct Hu as [Hu|Hu]; try discriminate; destruct Hf as [Hf|Hf]; try discriminate;
    unfold create_index; cbn -[keys_distinct]; rewrite ?Hu; cbn -[keys_distinct]; rewrite ?Hf; reflexivity.
Qed.
Lemma request_ok c m c' : k_requests c = Current m -> run_all request_statements c = Some c' -> indexable c.
Proof.
  intros Hr H. unfold request_statements in H. cbn [run_all] in H. apply bind_Some in H as ([u c1] & H1 & H).
  apply bind_Some in H as ([u2 c2] & H2 & _). split; rewrite Hr; cbn [rows_of].
  - by eapply create_index_ok.
  - assert (E : k_requests c1 = Current m /\ k_final_index c1 = k_final_index c).
    { unfold create_index in H1. destruct (k_upload_index c); [by injection H1 as _ <-|]. rewrite Hr in H1.
      destruct (keys_distinct _ _); [|done]. by injection H1 as _ <-. }
    destruct E as [E1 <-]. by eapply create_index_ok.
Qed.

(** A run of all the statements ends with the file of the migrated database. *)
Lemma statements_run c c1 c2 : current c -> run_all api_statements c = Some c1 -> run_all request_statements c1 = Some c2 ->
  c2 = catalog_of (migrated c) /\ indexable c.
Proof.
  intros Hc H1 H2. rewrite api_run in H1 by done. injection H1 as <-. pose proof H2 as Hi.
  apply (request_ok _ (rows_of (k_requests c))) in Hi; [|done]. rewrite (request_run _ (rows_of (k_requests c))) in H2 by done.
  injection H2 as <-. split; [|exact Hi].
  destruct c as [s p cu pe m r rp o u f rcu rpe], Hc as [Hs Hr]. unfold catalog_of, migrated. cbn in Hs, Hr |- *. by rewrite Hs, Hr.
Qed.

(** *** [MigrateAPI] *)
Lemma same_after_AESGCM w res w' : dropAESGCMSecrets w = (res, w') ->
  same_contents (db w) (db w') /\ (res = Ok tt -> is_before (k_secrets (db w')) = false).
Proof.
  intros [[-> H]|[Hb ->]]%dropAESGCM_spec; [by split|]. split; [by apply secrets_dropped_same|done].
Qed.
Lemma same_after_RSA w res w' : dropRSARequests w = (res, w') ->
  same_contents (db w) (db w') /\ k_secrets (db w') = k_secrets (db w) /\ (res = Ok tt -> is_before (k_requests (db w')) = false).
Proof.
  intros [[-> H]|[Hb ->]]%dropRSA_spec; [by split_and!|]. split_and!; [by apply requests_dropped_same|done|done].
Qed.
Lemma same_after_all msg l w res w' : Forall (fun st => forall c u c', st c = Some (u, c') -> same_contents c c') l ->
  apply_all msg l w = (res, w') -> same_contents (db w) (db w').
Proof. intros Hl E. pose proof (apply_all_respects same_contents msg l Hl w) as H. by rewrite E in H. Qed.

Lemma MigrateAPI_same w res w' : MigrateAPI w = (res, w') -> same_contents (db w) (db w').
Proof.
  intros H. unfold MigrateAPI, bind in H.
  destruct (dropAESGCMSecrets w) as [r1 w1] eqn:E1. apply same_after_AESGCM in E1 as [S1 _].
  destruct r1 as [[]|e]; [|by injection H as _ <-]. etrans; [exact S1|].
  destruct (dropRSARequests w1) as [r2 w2] eqn:E2. apply same_after_RSA in E2 as [S2 _].
  destruct r2 as [[]|e]; [|by injection H as _ <-]. etrans; [exact S2|].
  destruct (apply_all _ api_statements w2) as [r3 w3] eqn:E3. apply same_after_all in E3 as S3; [|exact api_statements_keep].
  destruct r3 as [[]|e]; [|by injection H as _ <-]. etrans; [exact S3|].
  eapply same_after_all; [exact request_statements_keep|exact H].
Qed.
Lemma MigrateAPI_done w w' : MigrateAPI w = (Ok tt, w') -> db w' = catalog_of (migrated (db w)).
Proof.
  intros H. unfold MigrateAPI in H.
  apply bind_ok in H as ([] & w1 & H1 & H). apply same_after_AESGCM in H1 as [S1 B1]. specialize (B1 eq_refl).
  apply bind_ok in H as ([] & w2 & H2 & H). apply same_after_RSA in H2 as (S2 & B2 & B3). specialize (B3 eq_refl).
  apply bind_ok in H as ([] & w3 & H3 & H). apply apply_all_ok in H3, H.
  assert (Hc : current (db w2)) by (split; [by rewrite B2|done]).
  destruct (statements_run _ _ _ Hc H3 H) as [-> _]. by rewrite S2, S1.
Qed.

(** A file that is complete stays as it is, also when statements fail. *)
Lemma complete_statements d :
  Forall (fun st => st (catalog_of d) = Some (tt, catalog_of d)) (api_statements ++ request_statements).
Proof. repeat apply Forall_cons_2; [..|apply Forall_nil_2]; reflexivity. Qed.
Lemma complete_after_all msg l d w res w' : Forall (fun st => st (catalog_of d) = Some (tt, catalog_of d)) l ->
  db w = catalog_of d -> apply_all msg l w = (res, w') -> db w' = catalog_of d.
Proof.
  intros Hl. revert w. induction Hl as [|st l Hst _ IH]; intros w Hw H; cbn in H; [by injection H as _ <-|].
  unfold bind in H. destruct (sql msg st w) as [[u|e] w1] eqn:E.
  - apply (IH w1); [|exact H]. mstep E. rewrite Hw, Hst in E. by injection E as _ <-.
  - injection H as _ <-. apply sql_err in E as [_ ->]. done.
Qed.
Lemma MigrateAPI_complete w res w' d : db w = catalog_of d -> MigrateAPI w = (res, w') -> db w' = catalog_of d.
Proof.
  intros Hw H. destruct (proj1 (Forall_app _ _ _) (complete_statements d)) as [Ha Hr]. unfold MigrateAPI, bind in H.
  destruct (dropAESGCMSecrets w) as [r1 w1] eqn:E1. apply dropAESGCM_spec in E1 as [[E1 _]|[E1 _]]; [|by rewrite Hw in E1].
  rewrite Hw in E1. destruct r1 as [[]|e]; [|by injection H as _ <-].
  destruct (dropRSARequests w1) as [r2 w2] eqn:E2. apply dropRSA_spec in E2 as [[E2 _]|[E2 _]]; [|by rewrite E1 in E2].
  rewrite E1 in E2. destruct r2 as [[]|e]; [|by injection H as _ <-].
  destruct (apply_all _ api_statements w2) as [r3 w3] eqn:E3. apply (complete_after_all _ _ d) in E3; [|done..].
  destruct r3 as [[]|e]; [|by injection H as _ <-]. by apply (complete_after_all _ _ d) in H.
Qed.

(** *** Starts of the process that fail, one after the other *)
Inductive failed_starts : World Catalog -> World Catalog -> Prop :=
  | starts_none w : failed_starts w w
  | starts_again w e w1 w2 : MigrateAPI w = (Err e, w1) -> failed_starts w1 w2 -> failed_starts w w2.

(** C11: a migration survives its interruptions.  However many starts fail and
    at whatever statement, the first that succeeds leaves exactly the database
    the first start would have made: every row of a current table, nothing of
    an old one, the deliveries of an old table recorded as unavailable; and on
    a complete file it changes nothing, whatever fails. *)
Theorem migration_survives_interruption w w1 res w2 :
  failed_starts w w1 -> MigrateAPI w1 = (res, w2) ->
  migrated (db w2) = migrated (db w) /\
  (res = Ok tt -> db w2 = catalog_of (migrated (db w))) /\
  (forall d, db w = catalog_of d -> db w2 = catalog_of d).
Proof.
  induction 1 as [w|w e w1 w3 H1 _ IH]; intros H.
  - split_and!; [by eapply MigrateAPI_same|by intros ->; apply MigrateAPI_done|]. intros d Hd. by eapply MigrateAPI_complete.
  - destruct (IH H) as (A & B & C). pose proof (MigrateAPI_same _ _ _ H1) as S. split_and!.
    + by rewrite A, S.
    + intros E. by rewrite B, S.
    + intros d Hd. apply C. by eapply MigrateAPI_complete.
Qed.

(** *** When every call answers *)
Context {NF : NoFaults}.

Lemma dropAESGCM_runs w : exists w', dropAESGCMSecrets w = (Ok tt, w').
Proof.
  unfold dropAESGCMSecrets, columnExists, tableExists. erewrite bind_runs by apply sql_query_runs. rewrite nonce_exists.
  destruct (k_secrets (db w)) as [| |m] eqn:Es; cbn [is_before negb]; [by eexists| |by eexists].
  destruct (k_management (db w)) as [m|] eqn:Em; eexists; apply transaction_runs;
    erewrite bind_runs by apply sql_query_runs; rewrite management_exists; cbn [db bump]; rewrite Em; cbn [is_some].
  - erewrite bind_runs by (apply sql_runs; unfold outcomes_unavailable; cbn; by rewrite Em).
    erewrite bind_runs by (by apply sql_runs).
    erewrite bind_runs by (apply sql_runs; unfold drop_secrets; cbn; by rewrite Es). reflexivity.
  - erewrite bind_runs by reflexivity. erewrite bind_runs by (by apply sql_runs).
    erewrite bind_runs by (apply sql_runs; unfold drop_secrets; cbn; by rewrite Es). reflexivity.
Qed.
Lemma dropRSA_runs w : exists w', dropRSARequests w = (Ok tt, w').
Proof.
  unfold dropRSARequests, columnExists, tableExists. erewrite bind_runs by apply sql_query_runs. rewrite requests_exists.
  destruct (k_requests (db w)) as [| |m] eqn:Es; cbn [is_missing negb]; [by eexists|..].
  all: erewrite bind_runs by apply sql_query_runs; rewrite consumed_at_exists; cbn [db bump]; rewrite Es;
    cbn [is_missing is_before negb andb].
  2: by eexists.
  eexists. apply transaction_runs. erewrite bind_runs by (by apply sql_runs).
  erewrite bind_runs by (apply sql_runs; unfold drop_requests; cbn; by rewrite Es). reflexivity.
Qed.

(** It succeeds from every file whose requests do not share a key. *)
Lemma MigrateAPI_runs w :
  keys_distinct r_upload_key (rows_of (k_requests (db w))) = true ->
  keys_distinct r_final_key (rows_of (k_requests (db w))) = true -> exists w', MigrateAPI w = (Ok tt, w').
Proof.
  intros Hu Hf. destruct (dropAESGCM_runs w) as [w1 E1]. destruct (dropRSA_runs w1) as [w2 E2].
  apply same_after_AESGCM in E1 as S1. apply same_after_RSA in E2 as S2. destruct S1 as [S1 B1], S2 as (S2 & B2 & B3).
  assert (Hc : current (db w2)) by (split; [rewrite B2|]; auto).
  assert (Hr : rows_of (k_requests (db w2)) = rows_of (k_requests (db w))).
  { transitivity (rows_of (k_requests (db w1))).
    - exact (f_equal t_requests S2).
    - exact (f_equal t_requests S1). }
  destruct (apply_all_runs "apply api migration" _ w2 _ (api_run _ Hc)) as (w3 & E3 & D3).
  edestruct (apply_all_runs "migrate request storage" request_statements w3) as (w4 & E4 & _).
  { rewrite D3. apply (request_run _ (rows_of (k_requests (db w2)))); [done|].
    split; right; cbn; by rewrite Hr. }
  exists w4. unfold MigrateAPI. erewrite bind_runs by exact E1. erewrite bind_runs by exact E2. by erewrite bind_runs by exact E3.
Qed.
End proofs.

(** ** The worker's file *)
Definition worker_db (c : WorkerCatalog) : WorkerDB :=
  let '(attempts, sequence) := default (∅, 0) (k_attempts c) in
  MkWorkerDB (default ∅ (k_receipts c)) attempts sequence (default ∅ (k_dead c)).
Definition worker_file (d : WorkerDB) : WorkerCatalog :=
  MkWorkerCatalog (Some (t_receipts d)) (Some (t_attempts d, t_sequence d)) (Some (t_dead d)).

(** The worker's migration keeps every row, also when it fails midway, and ends
    with every table. *)
Theorem worker_migration_keeps {ENV : Env} w res w' :
  MigrateWorker w = (res, w') ->
  worker_db (db w') = worker_db (db w) /\ (res = Ok tt -> db w' = worker_file (worker_db (db w))).
Proof.
  intros H. split.
  - assert (P : PreOrder (fun c c' : WorkerCatalog => worker_db c' = worker_db c)) by (split; [done|intros ? ? ? -> ->; done]).
    pose proof (apply_all_respects (fun c c' => worker_db c' = worker_db c) "apply worker migration" worker_statements) as Hr.
    unfold MigrateWorker in H. specialize (Hr ltac:(repeat apply Forall_cons_2; [..|apply Forall_nil_2];
      intros [[] [] []] u c' E; by injection E as _ <-) w). by rewrite H in Hr.
  - intros ->. apply apply_all_ok in H. destruct (db w) as [[] [[]|] []]; by injection H as <-.
Qed.

(** ** A file of the old format, upgraded by a process that first fails *)
Module Upgrade.
#[local] Instance stumbling : Env.
Proof.
  refine {| clk := fun _ => 0; db_fault := fun t => (t =? 9)%nat; rand_bytes := fun _ _ => None |}. done.
Defined.
Definition undecided : management_row := MkManagement "capability" 0 None.
Definition old_file : World Catalog :=
  MkWorld (MkCatalog Before (Some {["old" := {| p_ciphertext := "nonce"; p_created := 0 |}]}) None None
    (Some {["old" := undecided]}) Before None None false false None None) 0 0 [].
Definition first : result unit * World Catalog := MigrateAPI old_file.
Lemma failed_once : is_ok first.1 = false -> failed_starts old_file first.2.
Proof.
  unfold first. destruct (MigrateAPI old_file) as [[u|e] w'] eqn:E; [done|]. intros _. by eapply starts_again; [exact E|constructor].
Qed.
Definition second : result unit * World Catalog := MigrateAPI first.2.

Lemma migration_survives_interruption_witness :
  is_ok first.1 = false /\ is_missing (k_secrets (db first.2)) = true /\ is_missing (k_requests (db first.2)) = false /\
  second.1 = Ok tt /\ db second.2 = catalog_of (migrated (db old_file)) /\
  m_outcome <$> t_management (migrated (db second.2)) !! "old" = Some (Some Unavailable).
Proof.
  split_and!; [by vm_compute..| |by vm_compute].
  assert (E : second.1 = Ok tt) by (by vm_compute).
  destruct (migration_survives_interruption old_file first.2 second.1 second.2) as (_ & H & _).
  - apply failed_once. by vm_compute.
  - unfold second. apply surjective_pairing.
  - by apply H.
Defined.
End Upgrade.
