(* ===== verification/WorkerProofs.v ===== *)
(** * Correctness of the cleanup worker

    The receipt database is well formed after any interleaving of claims and
    completions by any number of workers: one running attempt per job, a late
    completion is fenced off, outcomes are final, the failure budget is kept,
    and a message is only acknowledged once its job has succeeded. *)

From S2P Require Import Prelude World GoTime Codec Schema Outbox ObjectStorage SecretProofs Worker.

(** ** Well-formed receipt databases *)
Record wf (d : WorkerDB) : Prop := {
  wf_attempt : forall id a, t_attempts d !! id = Some a -> id <= t_sequence d /\
    exists r, t_receipts d !! at_job a = Some r /\ 1 <= at_number a <= rc_attempts r /\
      (at_result a = AttemptRunning -> rc_state r = StateProcessing /\ at_number a = rc_attempts r);
  wf_distinct : forall id id' a a', t_attempts d !! id = Some a -> t_attempts d !! id' = Some a' ->
    at_job a = at_job a' -> at_number a = at_number a' -> id = id';
  wf_dead : forall j r, t_receipts d !! j = Some r -> rc_state r = StateDead -> is_some (t_dead d !! j) = true;
  wf_succeeded : forall j r, t_receipts d !! j = Some r -> rc_state r = StateSucceeded ->
    exists id a, t_attempts d !! id = Some a /\ at_job a = j /\ at_result a = AttemptSucceeded;
}.

Definition idle (j : string) (d : WorkerDB) : Prop :=
  forall id a, t_attempts d !! id = Some a -> at_job a = j -> at_result a <> AttemptRunning.

(** *** Reading the database *)
Section reads.
Context {ENV : Env}.
#[local] Instance earlier_attempt_total : Total earlier_attempt.
Proof. intros a b. unfold earlier_attempt. lia. Qed.
#[local] Instance earlier_attempt_trans : Transitive earlier_attempt.
Proof. intros a b c. unfold earlier_attempt. lia. Qed.

(** The attempts of a job, in the order of their numbers, none twice. *)
Lemma Attempts_spec j w l w' : Attempts j w = (Ok l, w') -> wf (db w) ->
  StronglySorted earlier_attempt l /\ NoDup (map (fun p => at_number p.2) l) /\
  forall id a, (id, a) ∈ l <-> t_attempts (db w) !! id = Some a /\ at_job a = j.
Proof.
  intros H Hw. apply sql_query_ok in H as (_ & -> & _).
  set (m := filter (fun p : Z * Attempt => at_job p.2 = j) (t_attempts (db w))).
  assert (Hm : forall id a, m !! id = Some a <-> t_attempts (db w) !! id = Some a /\ at_job a = j)
    by (intros id a; unfold m; by rewrite map_lookup_filter_Some).
  split_and!.
  - apply (StronglySorted_merge_sort earlier_attempt).
  - rewrite (Permutation_map _ (merge_sort_Permutation earlier_attempt (map_to_list m))).
    apply NoDup_fmap_2_strong; [|apply NoDup_map_to_list]. intros [i a] [i' a'] Hi Hi' E. cbn in E.
    apply elem_of_map_to_list, Hm in Hi as [Hi Ej], Hi' as [Hi' Ej'].
    assert (i = i') as -> by (eapply (wf_distinct _ Hw); eauto; congruence). congruence.
  - intros id a. rewrite merge_sort_Permutation, elem_of_map_to_list. apply Hm.
Qed.

(** A dead job has its record. *)
Lemma dead_job_recorded j r w : wf (db w) -> t_receipts (db w) !! j = Some r -> rc_state r = StateDead ->
  (DeadLetterRecord j w).1 <> Err (WorkerErr ErrReceiptNotFound).
Proof.
  intros Hw Hr Hd. pose proof (wf_dead _ Hw _ _ Hr Hd) as Hs. unfold DeadLetterRecord, bind.
  destruct (sql_query _ _ w) as [[row|e] w1] eqn:E.
  - apply sql_query_ok in E as (_ & -> & _). by destruct (t_dead (db w) !! j).
  - apply sql_query_err in E as [-> _]. done.
Qed.
End reads.

(** *** The database steps of the operations *)
Definition interrupted (j : string) (t : time) (a : Attempt) : Attempt :=
  if bool_decide (at_job a = j) && bool_decide (at_result a = AttemptRunning)
  then MkAttemptRow (at_job a) (at_number a) (at_started a) (Some t) AttemptFailed None else a.
Definition interrupt (j : string) (t : time) (d : WorkerDB) : WorkerDB :=
  set_attempts (interrupted j t <$> t_attempts d) d.

Definition claimed (j : string) (n : Z) (t : time) (r : Receipt) (d : WorkerDB) : WorkerDB :=
  MkWorkerDB (<[j := rc_claimed n t r]> (t_receipts d))
    (<[t_sequence d + 1 := MkAttemptRow j n t None AttemptRunning None]> (t_attempts d))
    (t_sequence d + 1) (t_dead d).

Definition finished (id : Z) (a : Attempt) (r : Receipt) (failure : option string) (t : time) (d : WorkerDB) : WorkerDB :=
  let res := match failure with Some _ => AttemptFailed | None => AttemptSucceeded end in
  let st := match failure with Some _ => StateFailed | None => StateSucceeded end in
  let completed := match failure with Some _ => None | None => Some t end in
  set_receipts (<[at_job a := rc_finish st failure t completed r]> (t_receipts d))
    (set_attempts (<[id := at_finish res t failure a]> (t_attempts d)) d).

Definition buried (j : string) (r : Receipt) (l : DeadLetter) (msg : string) (t : time) (d : WorkerDB) : WorkerDB :=
  set_dead (<[j := l]> (t_dead d)) (set_receipts (<[j := rc_dead msg t r]> (t_receipts d)) d).

Lemma interrupted_job j t a : at_job (interrupted j t a) = at_job a /\ at_number (interrupted j t a) = at_number a.
Proof. unfold interrupted. by destruct (_ && _). Qed.
Lemma interrupted_running j t a :
  at_result (interrupted j t a) = AttemptRunning -> interrupted j t a = a /\ at_job a <> j.
Proof. unfold interrupted. do 2 case_bool_decide; simpl; naive_solver. Qed.
Lemma interrupted_succeeded j t a : at_result a = AttemptSucceeded -> interrupted j t a = a.
Proof. intros E. unfold interrupted. rewrite E. by rewrite andb_false_r. Qed.

Lemma wf_interrupt j t d : wf d -> wf (interrupt j t d) /\ idle j (interrupt j t d).
Proof.
  intros [A D X S]. split.
  - split; simpl.
    + intros id a' E. rewrite lookup_fmap in E. apply fmap_Some in E as (a & E & ->).
      destruct (interrupted_job j t a) as [-> ->]. destruct (A id a E) as (? & r & ? & ? & Hr).
      split; [done|]. exists r. split_and!; [done|lia|lia|]. intros Hrun.
      pose proof (interrupted_running j t a Hrun) as [Hi _]. rewrite Hi in Hrun. auto.
    + intros id id' a1 a2 E1 E2 Hj Hn. rewrite lookup_fmap in E1, E2.
      apply fmap_Some in E1 as (b1 & E1 & ->). apply fmap_Some in E2 as (b2 & E2 & ->).
      destruct (interrupted_job j t b1) as [J1 N1], (interrupted_job j t b2) as [J2 N2].
      eapply (D id id' b1 b2); congruence.
    + done.
    + intros j' r Hr Hs. destruct (S j' r Hr Hs) as (id & a & E & Hj & Hres). exists id, a.
      rewrite lookup_fmap, E. simpl. by rewrite interrupted_succeeded.
  - intros id a' E Hj Hrun. simpl in E. rewrite lookup_fmap in E. apply fmap_Some in E as (a & E & ->).
    destruct (interrupted_job j t a) as [J _]. apply interrupted_running in Hrun as [_ Hne]. congruence.
Qed.

Lemma wf_claimed j n t r d :
  wf d -> idle j d -> t_receipts d !! j = Some r -> n = rc_attempts r + 1 -> 0 <= rc_attempts r ->
  rc_state r <> StateSucceeded -> wf (claimed j n t r d).
Proof.
  intros [A D X S] Hi Hr -> Hge Hns.
  assert (Hfresh : t_attempts d !! (t_sequence d + 1) = None).
  { destruct (t_attempts d !! (t_sequence d + 1)) eqn:E; [|done]. apply A in E as [? _]. lia. }
  assert (Hlt : forall id a, t_attempts d !! id = Some a -> at_job a = j -> at_number a < rc_attempts r + 1).
  { intros id a E Hj. destruct (A id a E) as (_ & r' & Hr' & Hn & _). rewrite Hj, Hr in Hr'.
    injection Hr' as <-. lia. }
  split; simpl.
  - intros id a E. apply lookup_insert_Some in E as [[<- <-]|[Hne E]]; simpl.
    + split; [lia|]. rewrite lookup_insert_eq. eexists. split_and!; [done|simpl; lia..|done].
    + destruct (A id a E) as (? & r' & Hr' & Hn & Hrun). split; [lia|].
      destruct (decide (at_job a = j)) as [Hj|Hj].
      * rewrite Hj, lookup_insert_eq. eexists. split; [done|]. simpl. specialize (Hlt id a E Hj).
        split; [lia|]. intros Hx. by destruct (Hi id a E Hj).
      * rewrite lookup_insert_ne by done. eauto.
  - intros id id' a a' E E' Hj Hn.
    apply lookup_insert_Some in E as [[<- <-]|[Hne E]]; apply lookup_insert_Some in E' as [[<- <-]|[Hne' E']]; simpl in *; [done|..].
    + specialize (Hlt id' a' E' ltac:(congruence)). lia.
    + specialize (Hlt id a E ltac:(congruence)). lia.
    + by eapply D.
  - intros j' r' Hr' Hs. apply lookup_insert_Some in Hr' as [[<- <-]|[_ Hr']]; [done|eauto].
  - intros j' r' Hr' Hs. apply lookup_insert_Some in Hr' as [[<- <-]|[_ Hr']]; [done|].
    destruct (S j' r' Hr' Hs) as (id & a & E & ? & ?). exists id, a. split; [|done].
    rewrite lookup_insert_ne; [done|]. intros <-. congruence.
Qed.

Lemma wf_finished id a r failure t d :
  wf d -> t_attempts d !! id = Some a -> at_result a = AttemptRunning -> t_receipts d !! at_job a = Some r ->
  wf (finished id a r failure t d) /\ idle (at_job a) (finished id a r failure t d).
Proof.
  intros [A D X S] Ha Hrun Hr. destruct (A id a Ha) as (Hs & r0 & Hr0 & Hn & Hcur).
  assert (r0 = r) as -> by congruence. destruct (Hcur Hrun) as [Hp Hnum].
  assert (Hone : forall id' a', t_attempts d !! id' = Some a' -> at_job a' = at_job a -> at_result a' = AttemptRunning -> id' = id).
  { intros id' a' E Hj Hx. destruct (A id' a' E) as (_ & r' & Hr' & _ & Hc). rewrite Hj, Hr in Hr'. injection Hr' as <-.
    destruct (Hc Hx) as [_ Hn']. eapply D; [exact E|exact Ha|done|congruence]. }
  assert (Hidle : idle (at_job a) (finished id a r failure t d)).
  { intros id' a' E Hj Hx. simpl in E. apply lookup_insert_Some in E as [[<- <-]|[Hne E]]; [by destruct failure|].
    apply Hne. symmetry. by eapply Hone. }
  split; [|done]. split; simpl.
  - intros id' a' E. apply lookup_insert_Some in E as [[<- <-]|[Hne E]]; simpl.
    + split; [done|]. rewrite lookup_insert_eq. eexists. split_and!; [done|simpl; lia..|by destruct failure].
    + destruct (A id' a' E) as (? & r' & Hr' & Hn' & Hrun'). split; [done|].
      destruct (decide (at_job a' = at_job a)) as [Hj|Hj].
      * rewrite Hj, lookup_insert_eq. eexists. split; [done|]. simpl. rewrite Hj, Hr in Hr'. injection Hr' as <-.
        split; [done|]. intros Hx. destruct Hne. symmetry. by eapply Hone.
      * rewrite lookup_insert_ne by done. eauto.
  - intros i1 i2 a1 a2 E1 E2 Hj Hnum'. simpl in E1, E2.
    assert (Hold : forall i x, <[id := at_finish (match failure with Some _ => AttemptFailed | None => AttemptSucceeded end) t failure a]> (t_attempts d) !! i = Some x ->
      exists y, t_attempts d !! i = Some y /\ at_job y = at_job x /\ at_number y = at_number x).
    { intros i x E. apply lookup_insert_Some in E as [[<- <-]|[_ E]]; eauto. }
    destruct (Hold _ _ E1) as (y1 & F1 & J1 & N1). destruct (Hold _ _ E2) as (y2 & F2 & J2 & N2).
    eapply (D i1 i2 y1 y2); congruence.
  - intros j' r' Hr' Hd. apply lookup_insert_Some in Hr' as [[<- <-]|[_ Hr']]; [by destruct failure|eauto].
  - intros j' r' Hr' Hd. apply lookup_insert_Some in Hr' as [[<- <-]|[_ Hr']].
    + exists id. eexists. rewrite lookup_insert_eq. split_and!; [done|done|]. simpl in *. by destruct failure.
    + destruct (S j' r' Hr' Hd) as (i & x & E & Hj & Hx). exists i, x. split; [|done].
      rewrite lookup_insert_ne; [done|]. intros <-. congruence.
Qed.

Lemma wf_buried j r l msg t d :
  wf d -> idle j d -> t_receipts d !! j = Some r -> wf (buried j r l msg t d).
Proof.
  intros [A D X S] Hi Hr. split; simpl; [|done|..].
  - intros id a E. destruct (A id a E) as (? & r' & Hr' & Hn & Hrun). split; [done|].
    destruct (decide (at_job a = j)) as [Hj|Hj].
    + rewrite Hj, lookup_insert_eq. eexists. split; [done|]. simpl. rewrite Hj, Hr in Hr'. injection Hr' as <-.
      split; [done|]. intros Hx. by destruct (Hi id a E Hj).
    + rewrite lookup_insert_ne by done. eauto.
  - intros j' r' Hr' Hs. apply lookup_insert_Some in Hr' as [[<- <-]|[Hne Hr']]; [by rewrite lookup_insert_eq|].
    rewrite lookup_insert_ne by done. eauto.
  - intros j' r' Hr' Hs. apply lookup_insert_Some in Hr' as [[<- <-]|[_ Hr']]; [done|eauto].
Qed.

(** ** What a claim and a completion commit *)
Definition fresh_receipt (kind : string) (t : time) : Receipt := MkReceiptRow kind StateProcessing 0 None t t None.

(** The database an existing receipt is claimed or buried from: an expired
    lease first interrupts its attempt. *)
Definition recovered (j : string) (r : Receipt) (t : time) (d : WorkerDB) : WorkerDB :=
  if bool_decide (rc_state r = StateProcessing) then interrupt j t d else d.

Definition claimable (r : Receipt) (t : time) : Prop :=
  rc_state r = StateFailed \/ (rc_state r = StateProcessing /\ rc_updated r + ProcessingLease <= t).

(** [t] is the clock reading of a claim on an existing receipt. *)
Inductive start_effect (j kind payload : string) (m : Z) (t : time) (d : WorkerDB) : result StartResult -> WorkerDB -> Prop :=
  | start_done r :
      t_receipts d !! j = Some r -> rc_kind r = kind -> rc_state r = StateSucceeded ->
      start_effect j kind payload m t d (Ok AlreadySucceededJob) d
  | start_new t0 t1 :
      t_receipts d !! j = None ->
      start_effect j kind payload m t d (Ok (StartedJob (MkStarted (t_sequence d + 1) 1)))
        (claimed j 1 t1 (fresh_receipt kind t0) (set_receipts (<[j := fresh_receipt kind t0]> (t_receipts d)) d))
  | start_again r :
      t_receipts d !! j = Some r -> rc_kind r = kind -> claimable r t ->
      Z.of_nat (size (failures j (recovered j r t d))) < m ->
      start_effect j kind payload m t d (Ok (StartedJob (MkStarted (t_sequence d + 1) (rc_attempts r + 1))))
        (claimed j (rc_attempts r + 1) t r (recovered j r t d))
  | start_bury r msg :
      t_receipts d !! j = Some r -> rc_kind r = kind -> claimable r t ->
      m <= Z.of_nat (size (failures j (recovered j r t d))) -> last_failure j (recovered j r t d) = Some msg ->
      start_effect j kind payload m t d (Err (WorkerErr ErrJobDead))
        (buried j r (MkDeadLetter kind payload msg t) msg t (recovered j r t d)).

Inductive finish_effect (id : Z) (failure : option string) (payload : string) (m : Z) (d : WorkerDB) : bool -> WorkerDB -> Prop :=
  | finish_plain a r t :
      t_attempts d !! id = Some a -> at_result a = AttemptRunning -> t_receipts d !! at_job a = Some r ->
      rc_state r = StateProcessing -> rc_attempts r = at_number a ->
      (is_some failure = true -> Z.of_nat (size (failures (at_job a) (finished id a r failure t d))) < m) ->
      finish_effect id failure payload m d false (finished id a r failure t d)
  | finish_dead a r t msg r1 :
      t_attempts d !! id = Some a -> at_result a = AttemptRunning -> t_receipts d !! at_job a = Some r ->
      rc_state r = StateProcessing -> rc_attempts r = at_number a -> failure = Some msg ->
      m <= Z.of_nat (size (failures (at_job a) (finished id a r failure t d))) ->
      r1 = rc_finish StateFailed failure t None r ->
      finish_effect id failure payload m d true
        (buried (at_job a) r1 (MkDeadLetter (rc_kind r) payload msg t) msg t (finished id a r failure t d)).

Section store.
Context {ENV : Env}.
Implicit Types w : World WorkerDB.

Lemma update_receipt_Some id P f d n d' :
  update_receipt id P f d = Some (n, d') ->
  (n = 0 /\ d' = d /\ forall r, t_receipts d !! id = Some r -> P r = false) \/
  (exists r, n = 1 /\ t_receipts d !! id = Some r /\ P r = true /\
    d' = set_receipts (<[id := f r]> (t_receipts d)) d).
Proof.
  unfold update_receipt. destruct (upd _ _ _ _ _) as [[n' x]|] eqn:E; [|done]. intros [= <- <-].
  apply upd_Some in E as [(-> & -> & ?)|(r & -> & ? & ? & _ & ->)]; [left; by destruct d|right; eauto 10].
Qed.

Lemma claimAttempt_ok j r0 t w out w' :
  claimAttempt j r0 t w = (Ok out, w') ->
  exists r, t_receipts (db w) !! j = Some r /\
    out = Commit (Ok (StartedJob (MkStarted (t_sequence (db w) + 1) (rc_attempts r0 + 1)))) /\
    db w' = claimed j (rc_attempts r0 + 1) t r (db w).
Proof.
  intros H. unfold claimAttempt, requireAffected in H.
  apply bind_ok in H as (k & w1 & Hu & H). mstep Hu. apply bind_ok in H as (u & w2 & Hk & H). mstep Hk.
  apply bind_ok in H as (id & w3 & Hi & H). mstep Hi. msteps H.
  apply update_receipt_Some in Hu as [(-> & _)|(r & -> & Hr & _ & ->)]; [done|].
  unfold insert_attempt in Hi. simpl in Hi. rewrite lookup_insert_eq in Hi. injection Hi as <- <-. eauto.
Qed.

Lemma deadLetter_ok j receipt payload msg t w u w' :
  deadLetter j receipt payload msg t w = (Ok u, w') ->
  exists r, t_receipts (db w) !! j = Some r /\ rc_state r = rc_state receipt /\ rc_attempts r = rc_attempts receipt /\
    db w' = buried j r (MkDeadLetter (rc_kind receipt) payload msg t) msg t (db w).
Proof.
  intros H. unfold deadLetter, requireAffected in H.
  apply bind_ok in H as (k & w1 & Hu & H). mstep Hu. apply bind_ok in H as (u2 & w2 & Hk & H). mstep Hk.
  mstep H. injection H as _ <-.
  apply update_receipt_Some in Hu as [(-> & _)|(r & -> & Hr & HP & ->)]; [done|]. destruct_bools. eauto 10.
Qed.

Lemma loadReceipt_ok j w r w' : loadReceipt j w = (Ok r, w') -> t_receipts (db w) !! j = Some r /\ w' = bump w.
Proof.
  intros H. unfold loadReceipt in H. apply bind_ok in H as (o & w1 & Hq & H). mstep Hq.
  destruct (t_receipts (db w) !! j); msteps H; eauto.
Qed.
Lemma loadReceipt_none j w w' :
  loadReceipt j w = (Err (WorkerErr ErrReceiptNotFound), w') -> t_receipts (db w) !! j = None /\ db w' = db w.
Proof.
  intros H. unfold loadReceipt in H. apply bind_err in H as [H|(o & w1 & Hq & H)].
  - apply sql_query_err in H as [H _]. done.
  - mstep Hq. destruct (t_receipts (db w) !! j); merr H; done.
Qed.

Lemma startTx_ok j kind payload m w out w' :
  startTx j kind payload m w = (Ok out, w') ->
  exists res, out = Commit res /\ start_effect j kind payload m (clk (S (tick w))) (db w) res (db w').
Proof.
  intros H. unfold startTx in H. apply bind_ok in H as (loaded & w1 & Hl & H). mstep Hl.
  apply bind_ok in H as ([r created] & w2 & Hr & H).
  destruct loaded as [r0|e].
  - apply loadReceipt_ok in Hl as [Hr0 ->]. msteps Hr. simplify_eq.
    apply bind_ok in H as (u1 & w3 & Hk & H). mstep Hk. destruct_bools.
    destruct (decide (rc_state r0 = StateSucceeded)) as [Hs|Hs].
    { rewrite bool_decide_true in H by done. msteps H. eexists. split; [done|]. simpl. by eapply start_done. }
    rewrite bool_decide_false in H by done.
    apply bind_ok in H as (u2 & w4 & Hd & H). mstep Hd. destruct_bools.
    apply bind_ok in H as (t & w5 & Ht & H). apply now_ok in Ht as [Et ->]. simpl in Et.
    apply bind_ok in H as (u3 & w6 & Hrec & H). simpl in Hrec.
    assert (Hw6 : db w6 = recovered j r0 t (db w) /\ claimable r0 t).
    { unfold recovered, claimable. case_bool_decide as Hp; simpl in Hrec.
      - apply bind_ok in Hrec as (u4 & w7 & Hb & Hrec). mstep Hb. mstep Hrec. injection Hrec as _ <-.
        unfold before in Hb. destruct_bools. simpl. split; [done|]. right. split; [done|lia].
      - msteps Hrec. simpl. split; [done|]. left. by destruct (rc_state r0). }
    destruct Hw6 as [Ew6 Hcl]. apply bind_ok in H as (count & w7 & Hc & H). unfold failureCount in Hc. mstep Hc.
    destruct (Z.leb_spec m (Z.of_nat (size (failures j (db w6))))) as [Hle|Hlt].
    + apply bind_ok in H as (le & w8 & Hq & H). mstep Hq. simpl in H.
      destruct (last_failure j (db w6)) as [msg|] eqn:El; [|by msteps H].
      apply bind_ok in H as (u4 & w9 & Hdl & H). msteps H.
      apply deadLetter_ok in Hdl as (r' & Hr' & _ & _ & E). simpl in Hr', E. rewrite Ew6 in *.
      assert (r' = r0) as -> by (unfold recovered in Hr'; case_bool_decide; simpl in Hr'; congruence).
      eexists. split; [done|]. rewrite E. by eapply start_bury.
    + apply claimAttempt_ok in H as (r' & Hr' & -> & E). simpl in Hr', E. rewrite Ew6 in *.
      assert (r' = r0) as -> by (unfold recovered in Hr'; case_bool_decide; simpl in Hr'; congruence).
      eexists. split; [done|]. rewrite E.
      assert (Eseq : forall x, t_sequence (recovered j r0 x (db w)) = t_sequence (db w))
        by (intros; unfold recovered; by case_bool_decide).
      simpl. rewrite Ew6, Eseq. by eapply start_again.
  - destruct (decide _) as [->|]; [|by msteps Hr]. apply loadReceipt_none in Hl as [Hn Ed].
    apply bind_ok in Hr as (t0 & w3 & Ht & Hr). mstep Ht. apply bind_ok in Hr as (u & w4 & Hi & Hr). mstep Hi. msteps Hr.
    unfold insert_receipt in Hi. destruct (ins _ _ _ _) as [x|] eqn:Ei; [|done]. injection Hi as <-.
    apply ins_Some in Ei as (_ & _ & ->). simplify_eq.
    apply bind_ok in H as (u1 & w5 & Hk & H). mstep Hk. simpl in H.
    apply bind_ok in H as (u2 & w6 & Hd & H). mstep Hd. apply bind_ok in H as (t & w7 & Ht & H). mstep Ht.
    apply bind_ok in H as (u3 & w8 & Hx & H). msteps Hx.
    apply claimAttempt_ok in H as (r' & Hr' & -> & E). simpl in *. rewrite lookup_insert_eq in Hr'. injection Hr' as <-.
    eexists. split; [done|]. rewrite E, Ed. by eapply (start_new j kind payload m).
Qed.

Lemma loadAttempt_ok id w a w' : loadAttempt id w = (Ok a, w') -> t_attempts (db w) !! id = Some a /\ db w' = db w.
Proof.
  intros H. unfold loadAttempt in H. apply bind_ok in H as (o & w1 & Hq & H). mstep Hq.
  destruct (t_attempts (db w) !! id); msteps H; eauto.
Qed.

Lemma finishTx_ok id failure payload m w out w' :
  finishTx id failure payload m w = (Ok out, w') ->
  exists b, out = Commit b /\ finish_effect id failure payload m (db w) b (db w').
Proof.
  intros H. unfold finishTx, requireAffected in H.
  apply bind_ok in H as (a & w1 & Ha & H). apply loadAttempt_ok in Ha as [Ha Ed1].
  apply bind_ok in H as (u1 & w2 & H1 & H). mstep H1. destruct_bools.
  apply bind_ok in H as (r & w3 & Hr & H). apply loadReceipt_ok in Hr as [Hr ->].
  apply bind_ok in H as (u2 & w4 & H2 & H). mstep H2. destruct_bools.
  apply bind_ok in H as (t & w5 & Ht & H). apply now_ok in Ht as [_ ->].
  apply bind_ok in H as (k & w6 & Hu & H). mstep Hu. apply bind_ok in H as (u3 & w7 & Hk & H). mstep Hk.
  unfold update_attempt in Hu. simpl in Hu. rewrite Ed1, Ha in Hu. rewrite bool_decide_true in Hu by done.
  injection Hu as <- <-.
  apply bind_ok in H as (k2 & w8 & Hu2 & H). mstep Hu2. apply bind_ok in H as (u4 & w9 & Hk2 & H). mstep Hk2.
  apply update_receipt_Some in Hu2 as [(-> & _)|(r' & -> & Hr' & _ & ->)]; [done|]. simpl in Hr'.
  rewrite Ed1 in Hr. assert (r' = r) as -> by congruence.
  match type of H with context [set_db ?d ?wx] => assert (Efin : d = finished id a r failure t (db w)) by
    (unfold finished; by destruct failure) end.
  rewrite Efin in H. clear Efin.
  destruct failure as [msg|].
  - apply bind_ok in H as (count & w10 & Hc & H). unfold failureCount in Hc. mstep Hc. simpl in H.
    destruct (Z.leb_spec m (Z.of_nat (size (failures (at_job a) (finished id a r (Some msg) t (db w)))))) as [Hle|Hlt].
    + apply bind_ok in H as (u5 & w11 & Hd & H). msteps H. apply deadLetter_ok in Hd as (r2 & Hr2 & _ & _ & E).
      simpl in Hr2, E. rewrite lookup_insert_eq in Hr2. injection Hr2 as <-.
      eexists. split; [done|]. rewrite E. by eapply finish_dead.
    + msteps H. eexists. split; [done|]. simpl. by eapply finish_plain.
  - msteps H. eexists. split; [done|]. simpl. by eapply finish_plain.
Qed.

Lemma Start_spec j kind payload m w res w' :
  Start j kind payload m w = (res, w') ->
  (start_effect j kind payload m (clk (S (S (tick w)))) (db w) res (db w') /\ 1 <= m) \/ (db w' = db w /\ exists e, res = Err e).
Proof.
  intros H. unfold Start in H. destruct res as [x|e].
  - apply bind_ok in H as (u & w0 & Hv & H). mstep Hv. apply bind_ok in H as (r & w1 & Ht & H). mstep H.
    left. destruct_bools. split; [|lia].
    apply transaction_ok in Ht as (_ & [(wx & Hb & ->)|(wx & Hb & _ & ->)]); apply startTx_ok in Hb as (res & Hc & He); [done|].
    by injection Hc as <-.
  - apply bind_err in H as [H|(u & w0 & Hv & H)]; [merr H; right; eauto|]. mstep Hv. destruct_bools.
    apply bind_err in H as [H|(r & w1 & Ht & H)]; [right; split; [by apply transaction_err in H|eauto]|]. merr H.
    apply transaction_ok in Ht as (_ & [(wx & Hb & ->)|(wx & Hb & _ & ->)]); apply startTx_ok in Hb as (res & Hc & He); [done|].
    injection Hc as <-. left. split; [done|lia].
Qed.

Lemma finishAttempt_spec id failure payload m w res w' :
  finishAttempt id failure payload m w = (res, w') ->
  match res with
  | Ok b => finish_effect id failure payload m (db w) b (db w')
  | Err _ => db w' = db w
  end.
Proof.
  intros H. unfold finishAttempt in H. destruct res as [b|e]; [|by apply transaction_err in H].
  apply transaction_ok in H as (_ & [(wx & Hb & ->)|(wx & Hb & _ & ->)]); apply finishTx_ok in Hb as (b' & Hc & He); [done|].
  by injection Hc as <-.
Qed.
End store.

(** ** Preservation *)
Lemma wf_empty : wf empty_worker_db.
Proof. split; simpl; intros *; rewrite ?lookup_empty; done. Qed.


(** *** Counting failures *)
Lemma failures_interrupt j' j t d : size (failures j' (interrupt j t d)) = size (failures j' d).
Proof.
  unfold failures, interrupt. simpl. rewrite map_filter_fmap, map_size_fmap. f_equal.
  apply map_filter_ext. intros i a _. simpl. unfold is_failure, interrupted.
  destruct (bool_decide (at_job a = j) && bool_decide (at_result a = AttemptRunning)) eqn:E; [|done]. destruct_bools. simpl.
  rewrite (bool_decide_false (at_result a = AttemptFailed)) by congruence. by rewrite !andb_false_r.
Qed.
Lemma failures_recovered j' j r t d : size (failures j' (recovered j r t d)) = size (failures j' d).
Proof. unfold recovered. case_bool_decide; [apply failures_interrupt|done]. Qed.

Lemma failures_claimed j' j n t r d :
  t_attempts d !! (t_sequence d + 1) = None -> size (failures j' (claimed j n t r d)) = size (failures j' d).
Proof.
  intros Hn. unfold failures, claimed. simpl. rewrite map_filter_insert_False.
  - by rewrite delete_id.
  - unfold is_failure. simpl. by rewrite andb_false_r.
Qed.

Lemma failures_finished j' id a r failure t d :
  t_attempts d !! id = Some a -> at_result a = AttemptRunning ->
  size (failures j' (finished id a r failure t d)) =
    (size (failures j' d) + if is_some failure && bool_decide (at_job a = j') then 1 else 0)%nat.
Proof.
  intros Ha Hrun. unfold failures, finished. simpl.
  assert (Hold : is_failure j' a = false) by (unfold is_failure; rewrite Hrun; by rewrite andb_false_r).
  assert (Hnone : filter (fun p : Z * Attempt => is_failure j' p.2 = true) (t_attempts d) !! id = None).
  { apply map_lookup_filter_None. right. intros x Hx. simpl. assert (x = a) as -> by congruence. congruence. }
  destruct failure as [msg|]; simpl.
  - case_bool_decide as Hj.
    + rewrite map_filter_insert_True by (unfold is_failure; simpl; by rewrite bool_decide_true).
      rewrite map_size_insert_None by done. lia.
    + rewrite map_filter_insert_False by (unfold is_failure; simpl; by rewrite bool_decide_false).
      rewrite map_filter_delete, delete_id by done. lia.
  - rewrite map_filter_insert_False by (unfold is_failure; simpl; by rewrite andb_false_r).
    rewrite map_filter_delete, delete_id by done. lia.
Qed.

(** ** The invariant of the shared database *)
Record inv (m : Z) (d : WorkerDB) : Prop := {
  inv_wf : wf d;
  inv_nonneg : forall j r, t_receipts d !! j = Some r -> 0 <= rc_attempts r;
  inv_budget : forall j, Z.of_nat (size (failures j d)) <= m /\
    (m <= Z.of_nat (size (failures j d)) -> exists r, t_receipts d !! j = Some r /\ rc_state r = StateDead);
}.

(** Receipts keep their kind, outcomes are final, attempts only end. *)
Record receipt_le (r r' : Receipt) : Prop := {
  rle_kind : rc_kind r' = rc_kind r;
  rle_attempts : rc_attempts r <= rc_attempts r';
  rle_final : rc_state r = StateSucceeded \/ rc_state r = StateDead -> r' = r;
}.
Record attempt_le (a a' : Attempt) : Prop := {
  ale_id : (at_job a', at_number a', at_started a') = (at_job a, at_number a, at_started a);
  ale_final : at_result a <> AttemptRunning -> a' = a;
}.
Definition work_le (d d' : WorkerDB) : Prop :=
  (forall j r, t_receipts d !! j = Some r -> exists r', t_receipts d' !! j = Some r' /\ receipt_le r r') /\
  (forall id a, t_attempts d !! id = Some a -> exists a', t_attempts d' !! id = Some a' /\ attempt_le a a').

Lemma receipt_le_refl r : receipt_le r r.
Proof. by split. Qed.
Lemma attempt_le_refl a : attempt_le a a.
Proof. by split. Qed.
#[local] Hint Resolve receipt_le_refl attempt_le_refl : core.

#[export] Instance work_le_preorder : PreOrder work_le.
Proof.
  split; [intros d; split; eauto|]. intros d1 d2 d3 [A1 B1] [A2 B2]. split.
  - intros j r Hr. destruct (A1 j r Hr) as (r2 & Hr2 & [K1 N1 F1]). destruct (A2 j r2 Hr2) as (r3 & Hr3 & [K2 N2 F2]).
    exists r3. split; [done|]. split; [congruence|lia|]. intros H. specialize (F1 H). subst. auto.
  - intros id a Ha. destruct (B1 id a Ha) as (a2 & Ha2 & [I1 F1]). destruct (B2 id a2 Ha2) as (a3 & Ha3 & [I2 F2]).
    exists a3. split; [done|]. split; [congruence|]. intros H. specialize (F1 H). subst. auto.
Qed.

Lemma work_le_interrupt j t d : work_le d (interrupt j t d).
Proof.
  split; [eauto|]. intros id a Ha. simpl. rewrite lookup_fmap, Ha. eexists. split; [done|].
  unfold interrupted. destruct (_ && _) eqn:E; [|done]. destruct_bools. by split.
Qed.
Lemma work_le_recovered j r t d : work_le d (recovered j r t d).
Proof. unfold recovered. case_bool_decide; [apply work_le_interrupt|reflexivity]. Qed.

Lemma work_le_receipt d d' j r r' :
  t_receipts d !! j = Some r -> receipt_le r r' -> t_receipts d' = <[j := r']> (t_receipts d) ->
  (forall id a, t_attempts d !! id = Some a -> exists a', t_attempts d' !! id = Some a' /\ attempt_le a a') -> work_le d d'.
Proof.
  intros Hr Hle E Ha. split; [|done]. intros j' x Hx. rewrite E. destruct (decide (j' = j)) as [->|Hne].
  - rewrite lookup_insert_eq. assert (x = r) as -> by congruence. eauto.
  - rewrite lookup_insert_ne by done. eauto.
Qed.

Lemma work_le_claimed j n t r d :
  t_receipts d !! j = Some r -> rc_attempts r <= n -> rc_state r <> StateSucceeded -> rc_state r <> StateDead ->
  t_attempts d !! (t_sequence d + 1) = None -> work_le d (claimed j n t r d).
Proof.
  intros Hr Hn Hs Hd Hf. apply (work_le_receipt _ _ j r (rc_claimed n t r)); [done| |done|].
  - split; [done|done|]. by intros [|].
  - intros id a Ha. exists a. split; [|done]. simpl. rewrite lookup_insert_ne; [done|]. intros <-. congruence.
Qed.

Lemma wf_fresh_id d : wf d -> t_attempts d !! (t_sequence d + 1) = None.
Proof.
  intros Hw. destruct (t_attempts d !! (t_sequence d + 1)) eqn:E; [|done]. apply (wf_attempt _ Hw) in E as [? _]. lia.
Qed.

(** No attempt of a job whose receipt is not processing is running. *)
Lemma wf_idle d j r : wf d -> t_receipts d !! j = Some r -> rc_state r <> StateProcessing -> idle j d.
Proof.
  intros Hw Hr Hs id a Ha Hj Hrun. destruct (wf_attempt _ Hw id a Ha) as (_ & r' & Hr' & _ & Hx).
  rewrite Hj, Hr in Hr'. injection Hr' as <-. by destruct (Hx Hrun).
Qed.

Lemma wf_recovered d j r t : wf d -> t_receipts d !! j = Some r ->
  wf (recovered j r t d) /\ idle j (recovered j r t d) /\ t_receipts (recovered j r t d) = t_receipts d.
Proof.
  intros Hw Hr. unfold recovered. case_bool_decide as Hp.
  - destruct (wf_interrupt j t d Hw). auto.
  - split_and!; [done| |done]. by eapply wf_idle.
Qed.

(** [inv], except that job [j] may have spent its budget without being dead. *)
Record inv_but (j : string) (m : Z) (d : WorkerDB) : Prop := {
  but_wf : wf d;
  but_nonneg : forall j r, t_receipts d !! j = Some r -> 0 <= rc_attempts r;
  but_budget : forall j', Z.of_nat (size (failures j' d)) <= m /\
    (m <= Z.of_nat (size (failures j' d)) -> j' = j \/ exists r, t_receipts d !! j' = Some r /\ rc_state r = StateDead);
}.
Lemma inv_inv_but j m d : inv m d -> inv_but j m d.
Proof. intros [Hw Hn Hb]. split; [done..|]. intros j'. destruct (Hb j') as [? H]. split; auto. Qed.

Definition unsettled (r : Receipt) : Prop := rc_state r <> StateSucceeded /\ rc_state r <> StateDead.

Lemma inv_recovered m j r t d : inv m d -> t_receipts d !! j = Some r ->
  inv m (recovered j r t d) /\ idle j (recovered j r t d) /\ t_receipts (recovered j r t d) !! j = Some r /\
  work_le d (recovered j r t d).
Proof.
  intros [Hw Hn Hb] Hr. destruct (wf_recovered d j r t Hw Hr) as (Hw1 & Hi1 & Er).
  split_and!; [|done|by rewrite Er|apply work_le_recovered].
  split; [done|by rewrite Er|]. intros j'. rewrite failures_recovered, Er. apply Hb.
Qed.

Lemma inv_registered m j r0 d : inv m d -> t_receipts d !! j = None -> rc_state r0 = StateProcessing -> rc_attempts r0 = 0 ->
  let d1 := set_receipts (<[j := r0]> (t_receipts d)) d in inv m d1 /\ idle j d1 /\ work_le d d1.
Proof.
  intros [Hw Hnn Hb] Hn Hs H0 d1. split_and!.
  - split.
    + destruct Hw as [A D X S]. split; simpl; [|done|..].
      * intros id a Ha. destruct (A id a Ha) as (? & r & Hr & ? & ?). split; [done|]. exists r. split; [|done].
        rewrite lookup_insert_ne; [done|congruence].
      * intros j' r Hr Hst. apply lookup_insert_Some in Hr as [[<- <-]|[_ Hr]]; [congruence|eauto].
      * intros j' r Hr Hst. apply lookup_insert_Some in Hr as [[<- <-]|[_ Hr]]; [congruence|eauto].
    + intros j' r Hr. simpl in Hr. apply lookup_insert_Some in Hr as [[<- <-]|[_ Hr]]; [lia|eauto].
    + intros j'. destruct (Hb j') as [H2 H3]. split; [done|]. intros H4. destruct (H3 H4) as (r & Hr & Hd).
      exists r. split; [|done]. simpl. rewrite lookup_insert_ne; [done|congruence].
  - intros id a Ha Hj _. destruct (wf_attempt _ Hw id a Ha) as (_ & r & Hr & _). congruence.
  - split; [|eauto]. intros j' x Hx. simpl. rewrite lookup_insert_ne; [eauto|congruence].
Qed.

Lemma inv_claimed m j t r d : inv m d -> idle j d -> t_receipts d !! j = Some r -> unsettled r ->
  inv m (claimed j (rc_attempts r + 1) t r d) /\ work_le d (claimed j (rc_attempts r + 1) t r d).
Proof.
  intros [Hw Hnn Hb] Hi Hr [Hns Hnd]. pose proof (Hnn j r Hr). pose proof (wf_fresh_id d Hw) as Hf. split.
  - split.
    + by apply wf_claimed.
    + intros j' x Hx. simpl in Hx. apply lookup_insert_Some in Hx as [[<- <-]|[_ Hx]]; [simpl; lia|eauto].
    + intros j'. rewrite failures_claimed by done. destruct (Hb j') as [H2 H3]. split; [done|]. intros H4.
      destruct (H3 H4) as (x & Hx & Hd). exists x. split; [|done]. simpl. rewrite lookup_insert_ne; [done|congruence].
  - apply work_le_claimed; try done. lia.
Qed.

Lemma inv_buried m j r l msg t d : inv_but j m d -> idle j d -> t_receipts d !! j = Some r -> unsettled r ->
  inv m (buried j r l msg t d) /\ work_le d (buried j r l msg t d).
Proof.
  intros [Hw Hnn Hb] Hi Hr [Hns Hnd]. split.
  - split.
    + by apply wf_buried.
    + intros j' x Hx. simpl in Hx. apply lookup_insert_Some in Hx as [[<- <-]|[_ Hx]]; [simpl|]; eauto.
    + intros j'. destruct (Hb j') as [H2 H3]. split; [done|]. intros H4. simpl.
      destruct (decide (j' = j)) as [->|Hne]; [rewrite lookup_insert_eq; eauto|].
      rewrite lookup_insert_ne by done. by destruct (H3 H4) as [?|?].
  - eapply (work_le_receipt _ _ j _ _ Hr); [|reflexivity|eauto]. split; [done|simpl; lia|]. by intros [|].
Qed.

Lemma inv_finished m id a r failure t d :
  inv m d -> t_attempts d !! id = Some a -> at_result a = AttemptRunning -> t_receipts d !! at_job a = Some r ->
  rc_state r = StateProcessing ->
  inv_but (at_job a) m (finished id a r failure t d) /\ idle (at_job a) (finished id a r failure t d) /\
  work_le d (finished id a r failure t d).
Proof.
  intros [Hw Hnn Hb] Ha Hrun Hr Hp. destruct (wf_finished id a r failure t d Hw Ha Hrun Hr) as [Hw1 Hi1].
  split_and!; [split; [done|..]|done|].
  - intros j x Hx. simpl in Hx. apply lookup_insert_Some in Hx as [[<- <-]|[_ Hx]]; [simpl|]; eauto.
  - intros j. rewrite (failures_finished j id a r failure t d) by done. destruct (Hb j) as [H2 H3]. simpl.
    destruct (decide (at_job a = j)) as [<-|Hne].
    + split; [|by left]. destruct (decide (m <= Z.of_nat (size (failures (at_job a) d)))) as [Hx|Hx].
      * destruct (H3 Hx) as (x & Hx' & Hd). congruence.
      * destruct (is_some failure && _); lia.
    + rewrite bool_decide_false, andb_false_r, Nat.add_0_r by done. split; [done|]. intros H4. right.
      destruct (H3 H4) as (x & Hx & Hd). exists x. by rewrite lookup_insert_ne.
  - eapply (work_le_receipt _ _ (at_job a) r); [done| |done|].
    + split; [done|simpl; lia|]. rewrite Hp. by intros [|].
    + intros i x Hx. simpl. destruct (decide (i = id)) as [->|Hne]; [|rewrite lookup_insert_ne by done; eauto].
      rewrite lookup_insert_eq. assert (x = a) as -> by congruence. eexists. split; [done|]. by split.
Qed.

Lemma start_effect_inv j kind payload m t d res d' :
  inv m d -> start_effect j kind payload m t d res d' -> inv m d' /\ work_le d d'.
Proof.
  intros Hinv H. destruct H as [r Hr Hk Hs|t0 t1 Hn|r Hr Hk Hcl Hlt|r msg Hr Hk Hcl Hge Hlast].
  - split; [done|reflexivity].
  - destruct (inv_registered m j (fresh_receipt kind t0) d) as (H1 & Hi & Hl); [done..|].
    destruct (inv_claimed m j t1 (fresh_receipt kind t0) _ H1 Hi) as [H2 Hl2]; [by apply lookup_insert_eq|done|].
    split; [done|]. by etrans.
  - destruct (inv_recovered m j r t d Hinv Hr) as (H1 & Hi & Hr1 & Hl).
    destruct (inv_claimed m j t r _ H1 Hi Hr1) as [H2 Hl2]; [by destruct Hcl as [E|[E _]]; split; rewrite E|].
    split; [done|]. by etrans.
  - destruct (inv_recovered m j r t d Hinv Hr) as (H1 & Hi & Hr1 & Hl).
    destruct (inv_buried m j r (MkDeadLetter kind payload msg t) msg t _ (inv_inv_but j _ _ H1) Hi Hr1) as [H2 Hl2];
      [by destruct Hcl as [E|[E _]]; split; rewrite E|].
    split; [done|]. by etrans.
Qed.

Lemma finish_effect_inv id failure payload m d b d' :
  inv m d -> finish_effect id failure payload m d b d' -> inv m d' /\ work_le d d'.
Proof.
  intros Hinv H. destruct H as [a r t Ha Hrun Hr Hp Hn Hlt|a r t msg r1 Ha Hrun Hr Hp Hn -> Hge ->].
  - destruct (inv_finished m id a r failure t d Hinv Ha Hrun Hr Hp) as (H1 & Hi & Hl). split; [|done].
    destruct H1 as [Hw Hnn Hb]. split; [done..|]. intros j. destruct (Hb j) as [H2 H3]. split; [done|]. intros H4.
    destruct (H3 H4) as [->|?]; [|done]. destruct (is_some failure) eqn:Ef; [specialize (Hlt eq_refl); lia|].
    rewrite (failures_finished (at_job a)), Ef in H4 by done. simpl in H4. rewrite Nat.add_0_r in H4.
    destruct (proj2 (inv_budget _ _ Hinv (at_job a)) H4) as (x & Hx & Hd). congruence.
  - destruct (inv_finished m id a r (Some msg) t d Hinv Ha Hrun Hr Hp) as (H1 & Hi & Hl).
    destruct (inv_buried m (at_job a) (rc_finish StateFailed (Some msg) t None r) (MkDeadLetter (rc_kind r) payload msg t) msg t _ H1 Hi)
      as [H2 Hl2]; [by apply lookup_insert_eq|done|].
    split; [done|]. by etrans.
Qed.

(** ** Any number of workers

    [wstep]: one call on the shared receipt database, by some worker, at some
    time, whatever else that worker is doing. *)
Section workers.
Context {ENV : Env} (m : Z).
Implicit Types w : World WorkerDB.

Inductive wstep : WorkerDB -> WorkerDB -> Prop :=
  | ws_start j kind payload w res w' : Start j kind payload m w = (res, w') -> wstep (db w) (db w')
  | ws_succeeded id w res w' : MarkSucceeded id w = (res, w') -> wstep (db w) (db w')
  | ws_failed id jobErr payload w res w' : MarkFailed id jobErr payload m w = (res, w') -> wstep (db w) (db w').

Lemma Start_inv j kind payload w res w' :
  Start j kind payload m w = (res, w') -> inv m (db w) -> inv m (db w') /\ work_le (db w) (db w').
Proof.
  intros [[H _]|[-> _]]%Start_spec Hi; [by eapply start_effect_inv|]. split; [done|reflexivity].
Qed.

Lemma MarkSucceeded_spec id w res w' :
  MarkSucceeded id w = (res, w') ->
  match res with
  | Ok _ => exists b m', finish_effect id None "" m' (db w) b (db w')
  | Err _ => db w' = db w
  end.
Proof.
  unfold MarkSucceeded, bind. destruct (finishAttempt id None "" 0 w) as [[b|e] w1] eqn:E; intros [= <- <-];
    apply finishAttempt_spec in E; eauto.
Qed.
Lemma MarkFailed_spec id jobErr payload w res w' :
  MarkFailed id jobErr payload m w = (res, w') ->
  match res with
  | Ok b => finish_effect id (Some jobErr) payload m (db w) b (db w') /\ 1 <= m
  | Err _ => db w' = db w
  end.
Proof.
  unfold MarkFailed, bind, fail_if. destruct (_ || _) eqn:Ev; [by intros [= <- <-]|]. simpl. intros H.
  destruct_bools. apply finishAttempt_spec in H. destruct res; [|done]. split; [done|lia].
Qed.

(** A success does not depend on the failure limit. *)
Lemma finish_success_limit id payload k d b d' :
  finish_effect id None payload k d b d' -> finish_effect id None payload m d b d'.
Proof. intros H. inversion H; subst; [|done]. by eapply finish_plain. Qed.

Lemma wstep_inv d d' : wstep d d' -> inv m d -> inv m d' /\ work_le d d'.
Proof.
  intros H Hi. destruct H as [j kind payload w res w' H|id w res w' H|id jobErr payload w res w' H].
  - by eapply Start_inv.
  - apply MarkSucceeded_spec in H. destruct res; [|rewrite H; split; [done|reflexivity]].
    destruct H as (b & k & H). eapply finish_effect_inv; [done|by eapply finish_success_limit].
  - apply MarkFailed_spec in H. destruct res; [|rewrite H; split; [done|reflexivity]].
    destruct H as [H _]. by eapply finish_effect_inv.
Qed.

Lemma wsteps_inv d d' : rtc wstep d d' -> inv m d -> inv m d' /\ work_le d d'.
Proof.
  induction 1 as [d|d1 d2 d3 H12 _ IH]; intros Hi; [split; [done|reflexivity]|].
  destruct (wstep_inv _ _ H12 Hi) as [H2 L12]. destruct (IH H2) as [H3 L23]. split; [done|]. by etrans.
Qed.

Lemma inv_empty : 1 <= m -> inv m empty_worker_db.
Proof.
  intros Hm. split; [apply wf_empty|by intros j r|]. intros j.
  assert (E : size (failures j empty_worker_db) = 0%nat) by (unfold failures; simpl; by rewrite map_filter_empty).
  rewrite E. split; [lia|]. lia.
Qed.
End workers.

(** ** Theorems of the receipt store *)
Section receipts.
Context {ENV : Env} (m : Z) (Hm : 1 <= m).
Implicit Types w : World WorkerDB.

(** C18: at most one attempt of a job runs.  In every database that any number
    of workers can produce, whatever they interleave and whichever calls fail,
    two running attempts of the same job are the same row; it is the latest
    attempt of a receipt that is being processed. *)
Theorem one_running_attempt d id id' a a' :
  rtc (wstep m) empty_worker_db d ->
  t_attempts d !! id = Some a -> t_attempts d !! id' = Some a' -> at_job a = at_job a' ->
  at_result a = AttemptRunning -> at_result a' = AttemptRunning ->
  id = id' /\ exists r, t_receipts d !! at_job a = Some r /\ rc_state r = StateProcessing /\ rc_attempts r = at_number a.
Proof.
  intros H Ha Ha' Hj Hr Hr'. destruct (wsteps_inv m _ _ H (inv_empty m Hm)) as [[Hw _ _] _].
  destruct (wf_attempt _ Hw id a Ha) as (_ & r & Hrc & _ & H1). destruct (H1 Hr) as [Hp Hn].
  destruct (wf_attempt _ Hw id' a' Ha') as (_ & r' & Hrc' & _ & H1'). destruct (H1' Hr') as [_ Hn'].
  split; [|by exists r]. rewrite <- Hj in Hrc'. assert (r' = r) as -> by congruence.
  eapply (wf_distinct _ Hw); [exact Ha|exact Ha'|done|congruence].
Qed.

(** outcomes are final and history is kept.  From any database the workers
    can produce, whatever they do next, a job that succeeded or was
    dead-lettered keeps its receipt exactly, no job or attempt disappears, and
    an attempt that ended never changes. *)
Theorem outcomes_final d d' :
  rtc (wstep m) empty_worker_db d -> rtc (wstep m) d d' ->
  (forall j r, t_receipts d !! j = Some r -> rc_state r = StateSucceeded \/ rc_state r = StateDead ->
     t_receipts d' !! j = Some r) /\
  (forall id a, t_attempts d !! id = Some a -> at_result a <> AttemptRunning -> t_attempts d' !! id = Some a).
Proof.
  intros H H'. destruct (wsteps_inv m _ _ H (inv_empty m Hm)) as [Hi _].
  destruct (wsteps_inv m _ _ H' Hi) as [_ [Hr Ha]]. split.
  - intros j r Hj Hs. destruct (Hr j r Hj) as (r' & Hr' & Hle). by rewrite Hr', (rle_final _ _ Hle Hs).
  - intros id a Hid Hs. destruct (Ha id a Hid) as (a' & Ha' & Hle). by rewrite Ha', (ale_final _ _ Hle Hs).
Qed.

(** C20: the failure budget.  In every database the workers can produce, a job
    has at most [m] attempts that failed with an error, attempts interrupted by
    an expired lease not counted, and one that has [m] of them is dead with its
    dead letter recorded. *)
Theorem failure_budget d j :
  rtc (wstep m) empty_worker_db d ->
  Z.of_nat (size (failures j d)) <= m /\
  (Z.of_nat (size (failures j d)) = m ->
     (exists r, t_receipts d !! j = Some r /\ rc_state r = StateDead) /\ is_some (t_dead d !! j) = true).
Proof.
  intros H. destruct (wsteps_inv m _ _ H (inv_empty m Hm)) as [[Hw _ Hb] _]. destruct (Hb j) as [H1 H2].
  split; [done|]. intros E. destruct H2 as (r & Hr & Hd); [lia|]. split; [eauto|]. by apply (wf_dead _ Hw j r).
Qed.

Lemma recovered_sequence j r t d : t_sequence (recovered j r t d) = t_sequence d.
Proof. unfold recovered. by case_bool_decide. Qed.

Lemma start_effect_attempt j kind payload k t d a d' :
  start_effect j kind payload k t d (Ok (StartedJob a)) d' ->
  exists x, t_attempts d' !! st_ID a = Some x /\ at_job x = j /\ at_result x = AttemptRunning.
Proof.
  intros H. inversion H; subst; simpl; rewrite ?recovered_sequence, lookup_insert_eq; eauto.
Qed.

(** A claim leaves no earlier attempt of the job running. *)
Lemma claim_supersedes j kind payload w a w' id x :
  inv m (db w) -> Start j kind payload m w = (Ok (StartedJob a), w') ->
  t_attempts (db w) !! id = Some x -> at_job x = j ->
  exists x', t_attempts (db w') !! id = Some x' /\ at_result x' <> AttemptRunning.
Proof.
  intros Hi H Hx Hj. apply Start_spec in H as [[H _]|[_ [e ?]]]; [|done].
  assert (Hid : id <= t_sequence (db w)) by (by destruct (wf_attempt _ (inv_wf _ _ Hi) id x Hx)).
  inversion H as [|t0 t1 Hn|r Hr Hk Hcl Hlt|]; subst.
  - destruct (wf_attempt _ (inv_wf _ _ Hi) id x Hx) as (_ & r & Hr & _). congruence.
  - destruct (inv_recovered m _ _ (clk (S (S (tick w)))) _ Hi Hr) as (_ & Hidle & _ & [_ Hle]).
    destruct (Hle id x Hx) as (x' & Hx' & Hal). exists x'. split.
    + simpl. rewrite recovered_sequence, lookup_insert_ne; [done|lia].
    + apply (Hidle id x' Hx'). pose proof (ale_id _ _ Hal). congruence.
Qed.

(** C19: a late completion is fenced off.  When a job has been claimed again,
    the handler of an earlier attempt can no longer record anything: marking
    its attempt succeeded or failed is refused and leaves the database
    unchanged, however long afterwards it comes. *)
Theorem late_completion_fenced j kind payload kind' payload' w0 a w1 w2 b w3 w4 :
  rtc (wstep m) empty_worker_db (db w0) ->
  Start j kind payload m w0 = (Ok (StartedJob a), w1) -> rtc (wstep m) (db w1) (db w2) ->
  Start j kind' payload' m w2 = (Ok (StartedJob b), w3) -> rtc (wstep m) (db w3) (db w4) ->
  (forall res w5, MarkSucceeded (st_ID a) w4 = (res, w5) -> is_ok res = false /\ db w5 = db w4) /\
  (forall jobErr res w5 p, MarkFailed (st_ID a) jobErr p m w4 = (res, w5) -> is_ok res = false /\ db w5 = db w4).
Proof.
  intros H0 HS1 H12 HS2 H34. destruct (wsteps_inv m _ _ H0 (inv_empty m Hm)) as [I0 _].
  destruct (Start_inv m _ _ _ _ _ _ HS1 I0) as [I1 _]. destruct (wsteps_inv m _ _ H12 I1) as [I2 [_ L12]].
  destruct (Start_inv m _ _ _ _ _ _ HS2 I2) as [I3 _]. destruct (wsteps_inv m _ _ H34 I3) as [_ [_ L34]].
  apply Start_spec in HS1 as [[HS1 _]|[_ [e ?]]]; [|done]. apply start_effect_attempt in HS1 as (x & Hx & Hj & _).
  destruct (L12 _ _ Hx) as (x2 & Hx2 & Hle2).
  destruct (claim_supersedes _ _ _ _ _ _ _ _ I2 HS2 Hx2) as (x3 & Hx3 & Hnr); [pose proof (ale_id _ _ Hle2); congruence|].
  destruct (L34 _ _ Hx3) as (x4 & Hx4 & Hle4). pose proof (ale_final _ _ Hle4 Hnr) as ->.
  assert (Hno : forall f p k b d', ~ finish_effect (st_ID a) f p k (db w4) b d') by (intros f p k b' d' He; inversion He; congruence).
  split.
  - intros res w5 H. apply MarkSucceeded_spec in H. destruct res; [|done]. destruct H as (b' & k & H). by apply Hno in H.
  - intros jobErr res w5 p H. apply MarkFailed_spec in H. destruct res; [|done]. destruct H as [H _]. by apply Hno in H.
Qed.

(** The lease excludes.  While the lease of an attempt runs, no worker can
    claim the job: [Start] refuses and changes nothing. *)
Theorem lease_excludes j kind payload w res w' r :
  Start j kind payload m w = (res, w') -> t_receipts (db w) !! j = Some r -> rc_state r = StateProcessing ->
  clk (S (S (tick w))) < rc_updated r + ProcessingLease ->
  (exists e, res = Err e) /\ db w' = db w.
Proof.
  intros H Hr Hp Ht. apply Start_spec in H as [[H _]|[-> [e ->]]]; [|eauto].
  inversion H as [r0 Hr0|t0 t1 Hn|r0 Hr0 _ Hcl|r0 msg Hr0 _ Hcl]; subst; simplify_eq.
  all: try (unfold claimable in Hcl; destruct Hcl as [?|[_ ?]]; [congruence|lia]). congruence.
Qed.

Lemma Start_runs {NF : NoFaults} j kind payload w res d' :
  j <> "" -> kind <> "" -> payload <> "" ->
  (exists w1, startTx j kind payload m (bump w) = (Ok (Commit res), w1) /\ db w1 = d') ->
  exists w', Start j kind payload m w = (res, w') /\ db w' = d'.
Proof.
  intros Hj Hk Hp (w1 & H & Ed). exists (bump w1). split; [|done]. unfold Start.
  rewrite fail_if_runs by (rewrite !bool_decide_false by done; simpl; lia).
  erewrite bind_runs by (apply transaction_runs; exact H). done.
Qed.

Lemma claimAttempt_runs {NF : NoFaults} j r t w :
  t_receipts (db w) !! j = Some r -> 0 <= rc_attempts r ->
  exists w1, claimAttempt j r t w =
    (Ok (Commit (Ok (StartedJob (MkStarted (t_sequence (db w) + 1) (rc_attempts r + 1))))), w1) /\
    db w1 = claimed j (rc_attempts r + 1) t r (db w).
Proof.
  intros Hr Hn. unfold claimAttempt, requireAffected. eexists.
  erewrite bind_runs.
  2:{ apply sql_runs. unfold update_receipt, upd. rewrite Hr. unfold receipt_check. simpl.
      rewrite (proj2 (Z.leb_le 0 _)) by lia. reflexivity. }
  rewrite fail_if_runs by done. erewrite bind_runs.
  2:{ apply sql_runs. unfold insert_attempt. simpl. rewrite lookup_insert_eq. reflexivity. }
  simpl. split; reflexivity.
Qed.

(** an expired lease is reclaimed.  When the lease of a processing job has
    run out and its failure budget is not spent, a worker with an answering
    database gets the next attempt; the abandoned one is recorded as failed
    without an error and does not count against the budget. *)
Theorem expired_lease_reclaimed {NF : NoFaults} j payload w r id x :
  inv m (db w) -> t_receipts (db w) !! j = Some r -> rc_state r = StateProcessing ->
  rc_updated r + ProcessingLease <= clk (S (S (tick w))) ->
  Z.of_nat (size (failures j (db w))) < m -> j <> "" -> rc_kind r <> "" -> payload <> "" ->
  t_attempts (db w) !! id = Some x -> at_job x = j -> at_result x = AttemptRunning ->
  exists a w' x', Start j (rc_kind r) payload m w = (Ok (StartedJob a), w') /\ st_Attempt a = rc_attempts r + 1 /\
    t_attempts (db w') !! id = Some x' /\ at_result x' = AttemptFailed /\ at_error x' = None /\
    size (failures j (db w')) = size (failures j (db w)).
Proof.
  intros Hi Hr Hp Ht Hf Hj Hk Hpl Hx Hxj Hrun. pose proof (inv_nonneg _ _ Hi j r Hr) as Hn.
  set (t := clk (S (S (tick w)))) in *. set (d1 := interrupt j t (db w)).
  assert (Hr1 : t_receipts d1 !! j = Some r) by done.
  assert (Hrun1 : exists w1, startTx j (rc_kind r) payload m (bump w) =
    (Ok (Commit (Ok (StartedJob (MkStarted (t_sequence (db w) + 1) (rc_attempts r + 1))))), w1) /\
    db w1 = claimed j (rc_attempts r + 1) t r d1).
  { unfold startTx. erewrite bind_runs.
    2:{ unfold attempt, loadReceipt. erewrite bind_runs by apply sql_query_runs. simpl. rewrite Hr. reflexivity. }
    erewrite bind_runs by reflexivity. cbv beta iota.
    rewrite fail_if_runs by (by rewrite bool_decide_true). rewrite Hp, bool_decide_false by done.
    rewrite fail_if_runs by done. erewrite bind_runs by reflexivity. simpl. fold t.
    erewrite bind_runs.
    2:{ rewrite fail_if_runs by (unfold before; apply Z.ltb_ge; lia). apply sql_runs. unfold interrupt_attempts. reflexivity. }
    erewrite bind_runs by apply sql_query_runs. simpl. fold (interrupted j t). fold (interrupt j t (db w)). fold d1.
    unfold d1 at 1. rewrite failures_interrupt. rewrite (proj2 (Z.leb_gt m _)) by done.
    by apply (claimAttempt_runs j r t (bump (set_db d1 (bump (bump (bump (bump w))))))). }
  destruct (Start_runs j (rc_kind r) payload w _ _ Hj Hk Hpl Hrun1) as (w' & HS & Ed).
  assert (Hfresh : t_attempts d1 !! (t_sequence d1 + 1) = None) by (apply wf_fresh_id, wf_interrupt; by destruct Hi).
  eexists _, w', (interrupted j t x). split; [exact HS|]. rewrite Ed. split; [done|].
  rewrite failures_claimed by done. split_and!.
  - simpl. rewrite lookup_insert_ne.
    + by rewrite lookup_fmap, Hx.
    + destruct (wf_attempt _ (inv_wf _ _ Hi) id x Hx) as [? _]. lia.
  - unfold interrupted. by rewrite !bool_decide_true.
  - unfold interrupted. by rewrite !bool_decide_true.
  - apply failures_interrupt.
Qed.
End receipts.
