(* ===== verification/ConsumerProofs.v ===== *)
(** * Correctness of the processor and the consumer

    A message is acknowledged only once its job's receipt says it succeeded. *)

From S2P Require Import Prelude World GoTime Codec Schema Outbox ObjectStorage Worker WorkerProofs.

(** ** The processor and the consumer *)

(** Nothing was acknowledged. *)
Definition no_ack {D} (w w' : World D) : Prop :=
  exists tl, trace w' = trace w ++ tl /\ forall p, EffAck p ∉ tl.

#[export] Instance no_ack_stable {D} : Stable (@no_ack D).
Proof.
  split; [split|..].
  - intros w. exists []. rewrite app_nil_r. split; [done|]. intros p. apply not_elem_of_nil.
  - intros w1 w2 w3 (t1 & E1 & N1) (t2 & E2 & N2). exists (t1 ++ t2). rewrite E2, E1, app_assoc. split; [done|].
    intros p [Hp|Hp]%elem_of_app; [by apply N1 in Hp|by apply N2 in Hp].
  - intros w. exists []. rewrite app_nil_r. split; [done|]. intros p. apply not_elem_of_nil.
  - done.
Qed.
Lemma no_ack_same {D} (w w' : World D) : trace w' = trace w -> no_ack w w'.
Proof. intros E. exists []. rewrite app_nil_r. split; [done|]. intros p. apply not_elem_of_nil. Qed.

(** What the processor assumes of its handler and its acknowledger: they leave
    the receipt database alone and acknowledge no message. *)
Class HandlerSpec (h : JobEvent -> M WorkerDB unit) := {
  handler_reads ev : reads_only (h ev);
  handler_no_ack ev : respects no_ack (h ev);
}.

Section processor.
Context {ENV : Env} {CODEC : EventCodec} {API : Internal}.
Implicit Types w : World WorkerDB.

Lemma no_ack_emit e : (forall p, e <> EffAck p) -> respects no_ack (@emit WorkerDB e).
Proof.
  intros He w. exists [e]. split; [done|]. intros p Hp%list_elem_of_singleton. by destruct (He p).
Qed.
Lemma no_ack_sql {A} msg (f : WorkerDB -> option (A * WorkerDB)) : respects no_ack (sql msg f).
Proof. apply respects_sql_world; [apply _|]. intros. by apply no_ack_same. Qed.
#[local] Hint Resolve no_ack_sql : flick.

(** The cleanup handler and the HTTP acknowledger are such. *)
#[export] Instance HandleJob_spec objects :
  (forall o, objects = Some o -> Objects.Spec o) -> HandlerSpec (HandleJob objects).
Proof.
  intros Ho. split; intros ev; unfold HandleJob, handleObjectDelete, CleanupSecret.
  - destruct objects as [o|]; [pose proof (Ho o eq_refl)|]; solve_respects.
  - assert (Hd : forall o k, objects = Some o -> respects no_ack (Objects.Delete o k)).
    { intros o k E w. pose proof (Ho o E). destruct (Objects.Delete o k w) as [r w'] eqn:Ed.
      apply Objects.Delete_spec in Ed as (_ & _ & [E'|E']); simpl; [by apply no_ack_same|].
      exists [EffDelete k]. split; [done|]. by intros p Hp%list_elem_of_singleton. }
    destruct objects as [o|]; solve_respects; try (by apply no_ack_emit); by apply Hd.
Qed.
#[export] Instance AcknowledgeObjectCleanup_spec : HandlerSpec AcknowledgeObjectCleanup.
Proof. split; intros ev; unfold AcknowledgeObjectCleanup; solve_respects. by apply no_ack_emit. Qed.

Context (p : Processor) (m : Z) (Hmax : maxAttempts p = m) `{!HandlerSpec (handler p)}.
Context (Hack : forall k, acknowledger p = Some k -> HandlerSpec k).

Lemma Start_no_ack j kind payload k : respects no_ack (Start j kind payload k).
Proof.
  unfold Start, startTx, claimAttempt, loadReceipt, failureCount, deadLetter, requireAffected. solve_respects.
Qed.
Lemma finishAttempt_no_ack id f payload k : respects no_ack (finishAttempt id f payload k).
Proof.
  unfold finishAttempt, finishTx, loadAttempt, loadReceipt, failureCount, deadLetter, requireAffected. solve_respects.
Qed.
#[local] Hint Resolve Start_no_ack finishAttempt_no_ack handler_no_ack handler_reads : flick.

Lemma Process_no_ack payload : respects no_ack (Process p payload).
Proof.
  assert (forall k ev, acknowledger p = Some k -> respects no_ack (k ev)) by (intros k ev E; by apply (Hack k E)).
  unfold Process, processBody, finishFailed, MarkFailed, MarkSucceeded. solve_respects.
Qed.

(** The message's job has succeeded. *)
Definition job_succeeded (payload : string) (d : WorkerDB) : Prop :=
  exists ev r, decodeJobEvent payload = Ok ev /\ t_receipts d !! JobID ev = Some r /\ rc_state r = StateSucceeded.

Lemma job_succeeded_le payload d d' : work_le d d' -> job_succeeded payload d -> job_succeeded payload d'.
Proof.
  intros [Hr _] (ev & r & He & Hj & Hs). destruct (Hr _ _ Hj) as (r' & Hr' & Hle).
  rewrite (rle_final _ _ Hle (or_introl Hs)) in Hr'. exists ev, r. auto.
Qed.

(** What a run of the body commits, and with which result. *)
Lemma processBody_spec ev w r w' :
  processBody p ev w = (r, w') ->
  rtc (wstep m) (db w) (db w') /\
  (forall b, r = Ok (Succeeded b) -> inv m (db w) ->
     exists rc, t_receipts (db w') !! JobID ev = Some rc /\ rc_state rc = StateSucceeded).
Proof.
  intros H. unfold processBody in H. rewrite Hmax in H. destruct (JSON ev) as [payload|e]; [|by injection H as <- <-].
  unfold lift, bind at 1, attempt at 1 in H. unfold bind at 1 in H.
  destruct (Start (JobID ev) (Kind ev) payload m w) as [rs w1] eqn:ES.
  assert (H01 : rtc (wstep m) (db w) (db w1)) by (apply rtc_once; by eapply ws_start).
  destruct rs as [[a|]|e].
  - unfold bind at 1, attempt in H. destruct (handler p ev w1) as [rh w2] eqn:Eh.
    apply (reads_only_db _ _ _ _ (handler_reads ev)) in Eh. unfold bind at 1, ask in H.
    unfold bind at 1, fail_if in H. destruct (ctx_done (tick w2)); [injection H as <- <-; simpl; rewrite Eh; by split|].
    unfold ret in H. simpl in H. destruct rh as [u|jobErr].
    + unfold bind in H. destruct (MarkSucceeded (st_ID a) (bump w2)) as [rm w3] eqn:EM.
      assert (H13 : rtc (wstep m) (db w1) (db w3)).
      { rewrite <- Eh. apply rtc_once. exact (ws_succeeded m _ (bump w2) _ _ EM). }
      destruct rm as [u'|e]; injection H as <- <-; (split; [by etrans|]); [|done]. intros b _ Hinv.
      apply MarkSucceeded_spec in EM as (b' & k & He). simpl in He. rewrite Eh in He.
      apply Start_spec in ES as [[ES _]|[_ [e ?]]]; [|done]. apply start_effect_attempt in ES as (x & Hx & Hj & _).
      inversion He as [a0 r0 t0 Ha0 _ Hr0 _ _ _|]; [|done]. subst. simpl.
      assert (a0 = x) as -> by congruence. rewrite Hj, lookup_insert_eq. eauto.
    + unfold finishFailed in H. rewrite Hmax in H. unfold bind in H.
      destruct (MarkFailed (st_ID a) (error_text jobErr) payload m (bump w2)) as [rm w3] eqn:EM.
      assert (H13 : rtc (wstep m) (db w1) (db w3)).
      { rewrite <- Eh. apply rtc_once. exact (ws_failed m _ _ _ (bump w2) _ _ EM). }
      destruct rm as [[|]|e]; injection H as <- <-; (split; [by etrans|done]).
  - injection H as <- <-. split; [done|]. intros b _ _. apply Start_spec in ES as [[ES _]|[_ [e ?]]]; [|done].
    inversion ES; subst. simplify_eq. eauto.
  - destruct (decide _); [injection H as <- <-; by split|]. destruct (decide _); injection H as <- <-; by split.
Qed.

Lemma Process_spec payload w r w' :
  Process p payload w = (r, w') ->
  rtc (wstep m) (db w) (db w') /\
  (forall b, r = Ok (Succeeded b) -> inv m (db w) -> job_succeeded payload (db w')).
Proof.
  intros H. unfold Process, lift in H. unfold bind at 1 in H.
  destruct (decodeJobEvent payload) as [ev|e] eqn:Ed; [|by injection H as <- <-].
  unfold bind at 1 in H. destruct (processBody p ev w) as [rb w1] eqn:Eb. apply processBody_spec in Eb as [H01 Hs].
  destruct rb as [rb|e]; [|by injection H as <- <-].
  unfold bind in H. destruct (needs_ack ev rb).
  - destruct (acknowledger p) as [k|] eqn:Ek; [|by injection H as <- <-].
    pose proof (Hack k eq_refl). destruct (k ev w1) as [rk w2] eqn:Er.
    apply (reads_only_db _ _ _ _ (handler_reads ev)) in Er. destruct rk; injection H as <- <-; rewrite Er; (split; [done|]); [|done].
    intros b [= ->] Hi. destruct (Hs b eq_refl Hi) as (rc & ? & ?). by exists ev, rc.
  - injection H as <- <-. split; [done|]. intros b [= ->] Hi. destruct (Hs b eq_refl Hi) as (rc & ? & ?). by exists ev, rc.
Qed.

Lemma ProcessMessage_spec payload w r w' :
  ProcessMessage p payload w = (r, w') ->
  rtc (wstep m) (db w) (db w') /\ no_ack w w' /\
  (resolveMessageAction r = MessageAck -> inv m (db w) -> job_succeeded payload (db w')).
Proof.
  intros H. unfold ProcessMessage, bind, attempt in H. pose proof (Process_no_ack payload w) as Hn.
  destruct (Process p payload w) as [rp w1] eqn:Ep. apply Process_spec in Ep as [H1 Hs]. simpl in Hn.
  destruct rp as [[b|b|]|e]; try (injection H as <- <-; split_and!; [done..|]; simpl; try done).
  - intros _ Hi. by apply (Hs b).
  - destruct (decide (e = invalid_job)); injection H as <- <-; split_and!; try done.
    simpl. by destruct (decide _).
Qed.

Lemma consume_spec msgs res w r w' :
  consume_all p msgs res w = (r, w') -> inv m (db w) ->
  rtc (wstep m) (db w) (db w') /\
  exists tl, trace w' = trace w ++ tl /\ forall payload, EffAck payload ∈ tl -> job_succeeded payload (db w').
Proof.
  revert res w. induction msgs as [|x msgs IH]; intros res w H Hi; cbn [consume_all] in H.
  { injection H as _ <-. split; [done|]. exists []. rewrite app_nil_r. split; [done|]. intros payload Hp. by apply not_elem_of_nil in Hp. }
  unfold bind at 1, attempt in H. destruct (ProcessMessage p x w) as [rp w1] eqn:Ep.
  apply ProcessMessage_spec in Ep as (H01 & (tl1 & E1 & N1) & Hs).
  destruct (wsteps_inv m _ _ H01 Hi) as [Hi1 Hle1].
  assert (Hstop : exists tl, trace w1 = trace w ++ tl /\ forall payload, EffAck payload ∈ tl -> job_succeeded payload (db w1)).
  { exists tl1. split; [done|]. intros payload Hp. by apply N1 in Hp. }
  unfold bind, applyMessageAction, bind, ask in H. destruct (broker_ok (tick w1)); [|injection H as _ <-; by split].
  simpl in H. apply IH in H as [H12 (tl2 & E2 & N2)]; [|done]. simpl in *.
  split; [by etrans|]. exists (tl1 ++ [action_effect (resolveMessageAction rp) x] ++ tl2).
  rewrite E2, E1, <- !app_assoc. split; [done|]. intros payload Hp.
  apply elem_of_app in Hp as [Hp|Hp]; [by apply N1 in Hp|]. apply elem_of_cons in Hp as [Hp|Hp]; [|by apply N2].
  destruct (wsteps_inv m _ _ H12 Hi1) as [_ Hle2]. eapply job_succeeded_le; [exact Hle2|].
  destruct (resolveMessageAction rp); simpl in Hp; [|done..]. injection Hp as <-. by apply Hs.
Qed.

(** a message is acknowledged only when its job is done.  Whatever a batch
    contains and whatever fails on the way, every acknowledgement the consumer
    sent is for a message whose job's receipt is in state succeeded when the
    batch ends; everything else stays with the broker or is terminated. *)
Theorem acknowledged_only_after_success msgs w r w' :
  1 <= m -> rtc (wstep m) empty_worker_db (db w) -> ConsumeMessages p msgs w = (r, w') ->
  exists tl, trace w' = trace w ++ tl /\ forall payload, EffAck payload ∈ tl -> job_succeeded payload (db w').
Proof.
  intros Hm H0 H. destruct (wsteps_inv m _ _ H0 (inv_empty m Hm)) as [Hi _].
  by destruct (consume_spec _ _ _ _ _ H Hi) as [_ ?].
Qed.
End processor.
