(* ===== verification/JetStream.v ===== *)
(** * Streams and consumers of the broker (src/internal/events/nats.go, consumer.go)

    What both processes do to JetStream before they use it: the stream gets the
    job subject, the durable consumer gets the configuration the worker wants.
    The broker is a parameter, a state with the operations of the NATS client;
    its laws say what a successful operation left behind. *)

From S2P Require Import Prelude World.
#[local] Open Scope Z_scope.

(** ** The client library's types *)
Inductive storage_type := FileStorage | MemoryStorage.
Inductive retention_policy := LimitsPolicy | InterestPolicy | WorkQueuePolicy.
Inductive ack_policy := AckNonePolicy | AckAllPolicy | AckExplicitPolicy.
Inductive deliver_policy :=
  | DeliverAllPolicy | DeliverLastPolicy | DeliverNewPolicy | DeliverByStartSequencePolicy
  | DeliverByStartTimePolicy | DeliverLastPerSubjectPolicy.
Inductive replay_policy := ReplayInstantPolicy | ReplayOriginalPolicy.
#[export] Instance ack_policy_eq : EqDecision ack_policy.
Proof. solve_decision. Defined.
#[export] Instance deliver_policy_eq : EqDecision deliver_policy.
Proof. solve_decision. Defined.
#[export] Instance replay_policy_eq : EqDecision replay_policy.
Proof. solve_decision. Defined.

(** The fields the program sets; [rest] stands for those it leaves alone. *)
Record StreamConfig := MkStreamConfig {
  sc_Name : string;
  sc_Subjects : list string;
  sc_Storage : storage_type;
  sc_Retention : retention_policy;
  sc_rest : string;
}.
Record ConsumerConfig := MkConsumerConfig {
  cc_Durable : string;
  cc_AckPolicy : ack_policy;
  cc_DeliverPolicy : deliver_policy;
  cc_FilterSubject : string;
  cc_MaxDeliver : Z;
  cc_ReplayPolicy : replay_policy;
  cc_rest : string;
}.

Inductive js_error := ErrStreamNotFound | ErrConsumerNotFound | ErrTimeout | JsOther.
Inductive js_answer (A : Type) := JsOk (a : A) | JsErr (e : js_error).
Arguments JsOk {A} a.
Arguments JsErr {A} e.

(** A subscription bound to a stream and a durable consumer. *)
Record Subscription := MkSub { sub_Stream : string; sub_Durable : string }.

Class JetStream (B : Type) := {
  js_StreamInfo : nat -> string -> B -> js_answer StreamConfig;
  js_AddStream : nat -> StreamConfig -> B -> js_answer unit * B;
  js_UpdateStream : nat -> StreamConfig -> B -> js_answer unit * B;
  js_ConsumerInfo : nat -> string -> string -> B -> js_answer ConsumerConfig;
  js_AddConsumer : nat -> string -> ConsumerConfig -> B -> js_answer unit * B;
  js_UpdateConsumer : nat -> string -> ConsumerConfig -> B -> js_answer unit * B;
  js_PullSubscribe : nat -> string -> string -> Subscription -> B -> js_answer unit * B;
  js_FetchMessages : nat -> Subscription -> Z -> Z -> B -> js_answer (list string) * B;
}.

(** What the broker keeps of a configuration it was given; it fills in the
    fields that were left out. *)
Definition keeps_stream (c c' : StreamConfig) : Prop :=
  sc_Name c' = sc_Name c /\ sc_Subjects c' = sc_Subjects c /\ sc_Storage c' = sc_Storage c /\ sc_Retention c' = sc_Retention c.

Definition consumerConfigMatches (existing wanted : ConsumerConfig) : bool :=
  bool_decide (cc_Durable existing = cc_Durable wanted) &&
  bool_decide (cc_AckPolicy existing = cc_AckPolicy wanted) &&
  bool_decide (cc_DeliverPolicy existing = cc_DeliverPolicy wanted) &&
  bool_decide (cc_FilterSubject existing = cc_FilterSubject wanted) &&
  (cc_MaxDeliver existing =? cc_MaxDeliver wanted) &&
  bool_decide (cc_ReplayPolicy existing = cc_ReplayPolicy wanted).

(** The documented behaviour: reading finds what is there, a change that
    succeeds is there afterwards, and nothing else changes.  Of a change that
    failed nothing is said but that it touched nothing else. *)
Class JetStreamSpec (B : Type) `{JetStream B} := {
  streams : B -> gmap string StreamConfig;
  consumers : B -> gmap (string * string) ConsumerConfig;
  streams_named b s c : streams b !! s = Some c -> sc_Name c = s;
  StreamInfo_found t s b c : js_StreamInfo t s b = JsOk c -> streams b !! s = Some c;
  StreamInfo_missing t s b : js_StreamInfo t s b = JsErr ErrStreamNotFound -> streams b !! s = None;
  AddStream_keeps t c b r b' : js_AddStream t c b = (r, b') ->
    consumers b' = consumers b /\ (forall s, s <> sc_Name c -> streams b' !! s = streams b !! s);
  AddStream_stores t c b b' : js_AddStream t c b = (JsOk tt, b') ->
    exists c', streams b' !! sc_Name c = Some c' /\ keeps_stream c c';
  UpdateStream_keeps t c b r b' : js_UpdateStream t c b = (r, b') ->
    consumers b' = consumers b /\ (forall s, s <> sc_Name c -> streams b' !! s = streams b !! s);
  UpdateStream_stores t c b b' : js_UpdateStream t c b = (JsOk tt, b') ->
    exists c', streams b' !! sc_Name c = Some c' /\ keeps_stream c c';
  ConsumerInfo_found t s d b c : js_ConsumerInfo t s d b = JsOk c -> consumers b !! (s, d) = Some c;
  ConsumerInfo_missing t s d b : js_ConsumerInfo t s d b = JsErr ErrConsumerNotFound -> consumers b !! (s, d) = None;
  AddConsumer_keeps t s c b r b' : js_AddConsumer t s c b = (r, b') ->
    streams b' = streams b /\ (forall k, k <> (s, cc_Durable c) -> consumers b' !! k = consumers b !! k);
  AddConsumer_stores t s c b b' : js_AddConsumer t s c b = (JsOk tt, b') ->
    exists c', consumers b' !! (s, cc_Durable c) = Some c' /\ consumerConfigMatches c' c = true;
  UpdateConsumer_keeps t s c b r b' : js_UpdateConsumer t s c b = (r, b') ->
    streams b' = streams b /\ (forall k, k <> (s, cc_Durable c) -> consumers b' !! k = consumers b !! k);
  UpdateConsumer_stores t s c b b' : js_UpdateConsumer t s c b = (JsOk tt, b') ->
    exists c', consumers b' !! (s, cc_Durable c) = Some c' /\ consumerConfigMatches c' c = true;
}.

(** ** The program *)
Definition DefaultConsumerDurable : string := "flick-worker".
Definition DefaultConsumerBatch : Z := 8.
Definition DefaultMaxDeliver : Z := -1.
Definition DefaultFetchWait : Z := 2 * Second.

Section program.
Context {B : Type} {JS : JetStream B}.

(** A call that may change the broker. *)
Definition js_call {A} (msg : string) (f : nat -> B -> js_answer A * B) : M B A := fun w =>
  let '(r, b) := f (tick w) (db w) in
  (match r with JsOk a => Ok a | JsErr _ => Err (Fail msg) end, set_db b (bump w)).
(** One that only reads it. *)
Definition js_read {A} (f : nat -> B -> A) : M B A := fun w => (Ok (f (tick w) (db w)), bump w).

Definition EnsureStream (stream subject : string) : M B unit :=
  do! fail_if (bool_decide (stream = "")) (Fail "nats stream is required") in
  do! fail_if (bool_decide (subject = "")) (Fail "nats subject is required") in
  let! info := js_read (fun t => js_StreamInfo t stream) in
  match info with
  | JsOk c =>
      if bool_decide (subject ∈ sc_Subjects c) then ret tt
      else js_call "update nats stream" (fun t => js_UpdateStream t
             (MkStreamConfig (sc_Name c) (sc_Subjects c ++ [subject]) (sc_Storage c) (sc_Retention c) (sc_rest c)))
  | JsErr ErrStreamNotFound =>
      js_call "add nats stream" (fun t => js_AddStream t (MkStreamConfig stream [subject] FileStorage WorkQueuePolicy ""))
  | JsErr _ => throw (Fail "read nats stream info")
  end.

Definition wanted_consumer (subject durable : string) (maxDeliver : Z) : ConsumerConfig :=
  MkConsumerConfig durable AckExplicitPolicy DeliverAllPolicy subject
    (if maxDeliver =? 0 then DefaultMaxDeliver else maxDeliver) ReplayInstantPolicy "".

Definition EnsureConsumer (stream subject durable : string) (maxDeliver : Z) : M B unit :=
  do! fail_if (bool_decide (stream = "")) (Fail "nats stream is required") in
  do! fail_if (bool_decide (subject = "")) (Fail "nats subject is required") in
  do! fail_if (bool_decide (durable = "")) (Fail "nats durable consumer is required") in
  let config := wanted_consumer subject durable maxDeliver in
  let! info := js_read (fun t => js_ConsumerInfo t stream durable) in
  match info with
  | JsErr ErrConsumerNotFound => js_call "add nats consumer" (fun t => js_AddConsumer t stream config)
  | JsErr _ => throw (Fail "read nats consumer info")
  | JsOk existing =>
      if consumerConfigMatches existing config then ret tt
      else js_call "update nats consumer" (fun t => js_UpdateConsumer t stream config)
  end.

Definition PullSubscribe (stream subject durable : string) : M B Subscription :=
  do! fail_if (bool_decide (stream = "")) (Fail "nats stream is required") in
  do! fail_if (bool_decide (subject = "")) (Fail "nats subject is required") in
  do! fail_if (bool_decide (durable = "")) (Fail "nats durable consumer is required") in
  do! js_call "pull subscribe nats consumer" (fun t => js_PullSubscribe t subject durable (MkSub stream durable)) in
  ret (MkSub stream durable).

(** A timeout is an empty batch. *)
Definition Fetch (cancelled : nat -> bool) (sub : option Subscription) (batch maxWait : Z) : M B (list string) :=
  match sub with
  | None => throw (Fail "nats subscription is required")
  | Some sub =>
      let batch := if batch <=? 0 then DefaultConsumerBatch else batch in
      let maxWait := if maxWait <=? 0 then DefaultFetchWait else maxWait in
      let! stopped := ask cancelled in
      do! fail_if stopped (Fail "context canceled") in
      fun w =>
        let '(r, b) := js_FetchMessages (tick w) sub batch maxWait (db w) in
        (match r with
         | JsOk messages => Ok messages
         | JsErr ErrTimeout => Ok []
         | JsErr _ => Err (Fail "fetch nats messages")
         end, set_db b (bump w))
  end.
End program.

(** ** What it leaves behind *)
Section laws.
Context {B : Type} {JS : JetStream B} {SPEC : JetStreamSpec B}.

Lemma matches_spec a b : consumerConfigMatches a b = true <->
  cc_Durable a = cc_Durable b /\ cc_AckPolicy a = cc_AckPolicy b /\ cc_DeliverPolicy a = cc_DeliverPolicy b /\
  cc_FilterSubject a = cc_FilterSubject b /\ cc_MaxDeliver a = cc_MaxDeliver b /\ cc_ReplayPolicy a = cc_ReplayPolicy b.
Proof. unfold consumerConfigMatches. rewrite !andb_true_iff, !bool_decide_eq_true, Z.eqb_eq. tauto. Qed.

Lemma js_call_ok {A} msg (f : nat -> B -> js_answer A * B) w a w' :
  js_call msg f w = (Ok a, w') -> f (tick w) (db w) = (JsOk a, db w').
Proof. unfold js_call. destruct (f _ _) as [[x|e] b]; [|done]. by intros [= -> <-]. Qed.

Definition only_stream (stream : string) (w w' : World B) : Prop :=
  consumers (db w') = consumers (db w) /\ forall s, s <> stream -> streams (db w') !! s = streams (db w) !! s.

(** The stream after [EnsureStream]: the one that was there with the subject
    added, or a new one. *)
Definition covers (subject : string) (before : option StreamConfig) (c : StreamConfig) : Prop :=
  match before with
  | Some c0 => sc_Storage c = sc_Storage c0 /\ sc_Retention c = sc_Retention c0 /\
      sc_Subjects c = if bool_decide (subject ∈ sc_Subjects c0) then sc_Subjects c0 else sc_Subjects c0 ++ [subject]
  | None => sc_Storage c = FileStorage /\ sc_Retention c = WorkQueuePolicy /\ sc_Subjects c = [subject]
  end.

Lemma covers_subject subject before c : covers subject before c -> subject ∈ sc_Subjects c.
Proof.
  destruct before as [c0|]; intros (_ & _ & ->); [|by apply list_elem_of_singleton].
  case_bool_decide; [done|]. apply elem_of_app. right. by apply list_elem_of_singleton.
Qed.

(** A call to the broker touches neither the gauge nor the trace. *)
Lemma call_respects {A} (R : relation (World B)) `{!Stable R} (HR : forall w d, R w (set_db d w)) msg (f : nat -> B -> js_answer A * B) :
  respects R (js_call msg f).
Proof. intros w. unfold js_call. destruct (f _ _) as [r b]. cbn. etrans; [apply stable_bump|]. exact (HR (bump w) b). Qed.
Lemma read_respects {A} (R : relation (World B)) `{!Stable R} (f : nat -> B -> A) : respects R (js_read f).
Proof. intros w. apply stable_bump. Qed.
Lemma EnsureStream_respects (R : relation (World B)) `{!Stable R} (HR : forall w d, R w (set_db d w)) stream subject :
  respects R (EnsureStream stream subject).
Proof. unfold EnsureStream. pose proof @call_respects. pose proof @read_respects. solve_respects. Qed.
Lemma EnsureStream_frame stream subject (w w' : World B) r :
  EnsureStream stream subject w = (r, w') -> active_uploads w' = active_uploads w /\ trace w' = trace w.
Proof.
  intros H. pose proof (EnsureStream_respects same_gauge ltac:(done) stream subject w) as Hg.
  pose proof (EnsureStream_respects same_trace ltac:(done) stream subject w) as Ht. by rewrite H in Hg, Ht.
Qed.

Lemma EnsureStream_ok stream subject (w w' : World B) u :
  EnsureStream stream subject w = (Ok u, w') ->
  (exists c, streams (db w') !! stream = Some c /\ covers subject (streams (db w) !! stream) c) /\ only_stream stream w w'.
Proof.
  unfold EnsureStream. intros H. apply bind_ok in H as (? & w0 & [_ ->]%fail_if_ok & H).
  apply bind_ok in H as (? & w1 & [_ ->]%fail_if_ok & H). unfold bind, js_read in H.
  destruct (js_StreamInfo (tick w) stream (db w)) as [c|e] eqn:Ei.
  - apply StreamInfo_found in Ei. rewrite Ei. pose proof (streams_named _ _ _ Ei) as Hn. cbn [covers]. case_bool_decide.
    + injection H as _ <-. split; [|done]. by exists c.
    + destruct u. apply js_call_ok in H. pose proof (UpdateStream_keeps _ _ _ _ _ H) as [Hc Hs].
      apply UpdateStream_stores in H as (c' & Hc' & ? & ? & ? & ?). cbn [sc_Name] in *. rewrite Hn in *.
      split; [exists c'; by split_and!|by split].
  - destruct e; [|done..]. apply StreamInfo_missing in Ei. rewrite Ei. destruct u. apply js_call_ok in H.
    pose proof (AddStream_keeps _ _ _ _ _ H) as [Hc Hs]. apply AddStream_stores in H as (c' & Hc' & ? & ? & ? & ?).
    split; [exists c'; by split_and!|by split].
Qed.

Lemma EnsureConsumer_ok stream subject durable maxDeliver (w w' : World B) u :
  EnsureConsumer stream subject durable maxDeliver w = (Ok u, w') ->
  (exists c, consumers (db w') !! (stream, durable) = Some c /\
     consumerConfigMatches c (wanted_consumer subject durable maxDeliver) = true) /\
  streams (db w') = streams (db w) /\
  forall k, k <> (stream, durable) -> consumers (db w') !! k = consumers (db w) !! k.
Proof.
  unfold EnsureConsumer. intros H. do 3 apply bind_ok in H as (? & ? & [_ ->]%fail_if_ok & H).
  unfold bind, js_read in H. destruct (js_ConsumerInfo _ _ _ _) as [c|e] eqn:Ei.
  - apply ConsumerInfo_found in Ei. destruct (consumerConfigMatches c _) eqn:Em.
    + injection H as _ <-. split_and!; [by exists c|done|done].
    + destruct u. apply js_call_ok in H. pose proof (UpdateConsumer_keeps _ _ _ _ _ _ H) as [Hs Hc].
      apply UpdateConsumer_stores in H. by split_and!.
  - destruct e; [done| |done..]. destruct u. apply js_call_ok in H.
    pose proof (AddConsumer_keeps _ _ _ _ _ _ H) as [Hs Hc]. apply AddConsumer_stores in H. by split_and!.
Qed.
End laws.

Section theorems.
Context {B : Type} {JS : JetStream B} {SPEC : JetStreamSpec B}.

(** Setting up the stream is complete and done once.  When [EnsureStream]
    succeeds the stream takes the job subject; a stream that was there keeps its
    storage, its retention and all its subjects in their order, a new one is a
    work queue on disk; no other stream and no consumer changed; and a further
    call changes nothing, as long as the broker answers it. *)
Theorem stream_set_up_once stream subject (w w' : World B) :
  EnsureStream stream subject w = (Ok tt, w') ->
  (exists c, streams (db w') !! stream = Some c /\ covers subject (streams (db w) !! stream) c /\ subject ∈ sc_Subjects c) /\
  only_stream stream w w' /\
  forall w2 t, db w2 = db w' -> t = tick w2 -> (exists c, js_StreamInfo t stream (db w') = JsOk c) ->
    exists w3, EnsureStream stream subject w2 = (Ok tt, w3) /\ db w3 = db w'.
Proof.
  intros H. pose proof H as Hok. apply EnsureStream_ok in Hok as [(c & Hc & Hcov) Honly].
  split_and!; [exists c; eauto using covers_subject|done|]. intros w2 t Ew -> [c2 Hi].
  unfold EnsureStream, bind, fail_if in *. destruct (bool_decide (stream = "")); [done|]. destruct (bool_decide (subject = "")); [done|].
  exists (bump w2). unfold js_read. cbn [ret]. rewrite Ew, Hi. apply StreamInfo_found in Hi. assert (c2 = c) as -> by congruence.
  rewrite bool_decide_true; [done|]. eauto using covers_subject.
Qed.
End theorems.

(** ** A broker in memory *)
Module Memory.
Record broker := MkBroker { b_streams : gmap string StreamConfig; b_consumers : gmap (string * string) ConsumerConfig; b_queue : list string }.

Definition answer {A} (e : js_error) (o : option A) : js_answer A := match o with Some a => JsOk a | None => JsErr e end.
Definition put_stream (c : StreamConfig) (b : broker) : broker := MkBroker (<[sc_Name c := c]> (b_streams b)) (b_consumers b) (b_queue b).
Definition put_consumer (s : string) (c : ConsumerConfig) (b : broker) : broker :=
  MkBroker (b_streams b) (<[(s, cc_Durable c) := c]> (b_consumers b)) (b_queue b).

Definition fetch (n : Z) (b : broker) : js_answer (list string) * broker :=
  match b_queue b with
  | [] => (JsErr ErrTimeout, b)
  | q => (JsOk (take (Z.to_nat n) q), MkBroker (b_streams b) (b_consumers b) (drop (Z.to_nat n) q))
  end.

(** A stream goes by the name it is stored under. *)
Definition named (s : string) (c : StreamConfig) : StreamConfig :=
  MkStreamConfig s (sc_Subjects c) (sc_Storage c) (sc_Retention c) (sc_rest c).
Definition all_streams (b : broker) : gmap string StreamConfig := map_imap (fun s c => Some (named s c)) (b_streams b).
Lemma all_streams_lookup b s : all_streams b !! s = named s <$> b_streams b !! s.
Proof. unfold all_streams. rewrite map_lookup_imap. by destruct (b_streams b !! s). Qed.

#[export] Instance jetstream : JetStream broker := {|
  js_StreamInfo _ s b := answer ErrStreamNotFound (named s <$> b_streams b !! s);
  js_AddStream _ c b := (JsOk tt, put_stream c b);
  js_UpdateStream _ c b := (JsOk tt, put_stream c b);
  js_ConsumerInfo _ s d b := answer ErrConsumerNotFound (b_consumers b !! (s, d));
  js_AddConsumer _ s c b := (JsOk tt, put_consumer s c b);
  js_UpdateConsumer _ s c b := (JsOk tt, put_consumer s c b);
  js_PullSubscribe _ _ _ _ b := (JsOk tt, b);
  js_FetchMessages _ _ n _ b := fetch n b;
|}.

Lemma answer_ok {A} e (o : option A) a : answer e o = JsOk a -> o = Some a.
Proof. destruct o; [by intros [= ->]|done]. Qed.
Lemma answer_missing {A} e (o : option A) e' : answer e o = JsErr e' -> o = None.
Proof. by destruct o. Qed.

Lemma put_stream_lookup c b s : all_streams (put_stream c b) !! s = if decide (s = sc_Name c) then Some c else all_streams b !! s.
Proof.
  rewrite !all_streams_lookup. cbn. case_decide as E; [rewrite E, lookup_insert_eq; by destruct c|by rewrite lookup_insert_ne].
Qed.
Lemma put_consumer_lookup s c b k : b_consumers (put_consumer s c b) !! k = if decide (k = (s, cc_Durable c)) then Some c else b_consumers b !! k.
Proof. cbn. case_decide as E; [rewrite E; apply lookup_insert_eq|by rewrite lookup_insert_ne]. Qed.

Lemma put_stream_stores c b : exists c', all_streams (put_stream c b) !! sc_Name c = Some c' /\ keeps_stream c c'.
Proof. exists c. rewrite put_stream_lookup, decide_True by done. done. Qed.
Lemma put_stream_others c b s : s <> sc_Name c -> all_streams (put_stream c b) !! s = all_streams b !! s.
Proof. intros H. by rewrite put_stream_lookup, decide_False. Qed.
Lemma put_consumer_stores s c b : exists c', b_consumers (put_consumer s c b) !! (s, cc_Durable c) = Some c' /\ consumerConfigMatches c' c = true.
Proof. exists c. rewrite put_consumer_lookup, decide_True by done. split; [done|by apply matches_spec]. Qed.
Lemma put_consumer_others s c b k : k <> (s, cc_Durable c) -> b_consumers (put_consumer s c b) !! k = b_consumers b !! k.
Proof. intros H. by rewrite put_consumer_lookup, decide_False. Qed.

#[export] Instance jetstream_spec : JetStreamSpec broker.
Proof.
  refine {| streams := all_streams; consumers := b_consumers |}; cbn.
  - intros b s c. rewrite all_streams_lookup. intros (c0 & _ & ->)%fmap_Some. done.
  - intros _ s b c H%answer_ok. by rewrite all_streams_lookup.
  - intros _ s b H%answer_missing. by rewrite all_streams_lookup.
  - intros _ c b r b' [= <- <-]. split; [done|apply put_stream_others].
  - intros _ c b b' [= <-]. apply put_stream_stores.
  - intros _ c b r b' [= <- <-]. split; [done|apply put_stream_others].
  - intros _ c b b' [= <-]. apply put_stream_stores.
  - intros _ s d b c. apply answer_ok.
  - intros _ s d b. apply answer_missing.
  - intros _ s c b r b' [= <- <-]. split; [done|apply put_consumer_others].
  - intros _ s c b b' [= <-]. apply put_consumer_stores.
  - intros _ s c b r b' [= <- <-]. split; [done|apply put_consumer_others].
  - intros _ s c b b' [= <-]. apply put_consumer_stores.
Defined.

Definition calm : World broker := MkWorld (MkBroker ∅ ∅ []) 0 0 [].
Definition other : broker := put_stream (MkStreamConfig "FLICK_JOBS" ["audit"] MemoryStorage LimitsPolicy "5 days") (db calm).

Example subject_added :
  let w := (EnsureStream "FLICK_JOBS" "flick.jobs" (set_db other calm)).2 in
  (sc_Subjects <$> b_streams (db w) !! "FLICK_JOBS") = Some ["audit"; "flick.jobs"] /\
  b_streams (db (EnsureStream "FLICK_JOBS" "flick.jobs" w).2) = b_streams (db w).
Proof. by vm_compute. Qed.
End Memory.
