(* ===== verification/Loops.v ===== *)
(** * The background loops (src/internal/events/outbox_runner.go,
      src/internal/secrets/reaper.go, src/internal/worker/runner.go)

    The publisher and the reaper tick until their context is cancelled and only
    log the errors of a round; the worker's consumer stops at the first error.
    A loop is given a number of rounds and says whether it returned; what holds
    for every number of rounds holds of the loop. *)

From S2P Require Import Prelude World GoTime Schema Outbox ObjectStorage SecretStore RequestStore Reaper Worker WorkerProofs ConsumerProofs JetStream.
#[local] Open Scope Z_scope.

(** ** Loops over a ticker *)

(** [ctx.Err()] at a tick, and which case of the select of [<-ctx.Done()] and
    [<-ticker.C] is taken there: [true] for the context. *)
Class Signals := { ctx_err : nat -> bool; done_chosen : nat -> bool }.

Section ticking.
Context {SIG : Signals} {D : Type}.

(** [true]: the loop returned. *)
Fixpoint ticking (body : M D unit) (rounds : nat) : M D bool :=
  match rounds with
  | O => ret false
  | S rounds =>
      let! stop := ask ctx_err in
      if (stop : bool) then ret true
      else
        do! body in
        let! stop := ask done_chosen in
        if (stop : bool) then ret true else ticking body rounds
  end.
End ticking.

Definition DefaultOutboxPublisherLimit : Z := 50.
Definition DefaultOutboxPublisherInterval : Z := 2 * Second.
Definition DefaultReaperInterval : Z := Minute.
(** The interval the ticker gets. *)
Definition loop_interval (fallback interval : Z) : Z := if interval <=? 0 then fallback else interval.

Section api_loops.
Context {ENV : Env} {CODEC : EventCodec} {BROKER : Broker} {DATES : SqliteDate} {SIG : Signals}.

Definition publishOutboxBatch (publisher : OutboxPublisher) (limit : Z) : M ApiDB unit :=
  do! attempt (PublishDue publisher limit) in ret tt.

Definition RunOutboxPublisher (publisher : OutboxPublisher) (limit : Z) : nat -> M ApiDB bool :=
  let limit := if limit <=? 0 then DefaultOutboxPublisherLimit else limit in
  ticking (publishOutboxBatch publisher limit).

Definition runReaperTick (reaper : Reaper) : M ApiDB unit := do! attempt (ClaimOnce reaper) in ret tt.

Definition RunReaper (reaper : Reaper) : nat -> M ApiDB bool := ticking (runReaperTick reaper).
End api_loops.

(** ** The worker's loop *)

(** A step on one half of the state. *)
Definition on_fst {D B A} (m : M D A) : M (D * B) A := fun w =>
  let '(r, w') := m (MkWorld (db w).1 (tick w) (active_uploads w) (trace w)) in
  (r, MkWorld (db w', (db w).2) (tick w') (active_uploads w') (trace w')).
Definition on_snd {D B A} (m : M B A) : M (D * B) A := fun w =>
  let '(r, w') := m (MkWorld (db w).2 (tick w) (active_uploads w) (trace w)) in
  (r, MkWorld ((db w).1, db w') (tick w') (active_uploads w') (trace w')).

Record RunnerOptions := MkRunner {
  rn_Stream : string;
  rn_Subject : string;
  rn_Durable : string;
  rn_MaxDeliver : Z;
  rn_BatchSize : Z;
  rn_FetchWait : Z;
}.

Definition NewConsumerRunner (opts : RunnerOptions) : result RunnerOptions :=
  if bool_decide (rn_Stream opts = "") then Err (Fail "nats stream is required")
  else if bool_decide (rn_Subject opts = "") then Err (Fail "nats subject is required")
  else Ok (MkRunner (rn_Stream opts) (rn_Subject opts)
    (if bool_decide (rn_Durable opts = "") then DefaultConsumerDurable else rn_Durable opts)
    (if rn_MaxDeliver opts =? 0 then DefaultMaxDeliver else rn_MaxDeliver opts)
    (if rn_BatchSize opts <=? 0 then DefaultConsumerBatch else rn_BatchSize opts)
    (if rn_FetchWait opts <=? 0 then DefaultFetchWait else rn_FetchWait opts)).

Section consumer.
Context {ENV : Env} {CODEC : EventCodec} {API : Internal} {B : Type} {JS : JetStream B}.
Context (p : Processor) (opts : RunnerOptions).

(** An error ends the loop, as an error unless the context is cancelled. *)
Definition stop_with (e : err) : M (WorkerDB * B) bool :=
  let! stop := ask ctx_done in if (stop : bool) then ret true else throw e.

Fixpoint consume_rounds (sub : Subscription) (rounds : nat) : M (WorkerDB * B) bool :=
  match rounds with
  | O => ret false
  | S rounds =>
      let! stop := ask ctx_done in
      if (stop : bool) then ret true
      else
        let! batch := attempt (on_snd (Fetch ctx_done (Some sub) (rn_BatchSize opts) (rn_FetchWait opts))) in
        match batch with
        | Err e => stop_with e
        | Ok [] => consume_rounds sub rounds
        | Ok messages =>
            let! r := attempt (on_fst (ConsumeMessages p messages)) in
            match r with
            | Err e => stop_with e
            | Ok _ => consume_rounds sub rounds
            end
        end
  end.

Definition Run (rounds : nat) : M (WorkerDB * B) bool :=
  do! on_snd (EnsureConsumer (rn_Stream opts) (rn_Subject opts) (rn_Durable opts) (rn_MaxDeliver opts)) in
  let! sub := on_snd (PullSubscribe (rn_Stream opts) (rn_Subject opts) (rn_Durable opts)) in
  consume_rounds sub rounds.
End consumer.

(** ** A ticking loop and its body *)
Section ticking_laws.
Context {SIG : Signals} {D : Type}.
Implicit Types w : World D.

Definition total (body : M D unit) : Prop := forall w, exists w', body w = (Ok tt, w').

Lemma attempt_total {A} (m : M D A) : total (do! attempt m in ret tt).
Proof. intros w. unfold bind, attempt. destruct (m w) as [r w']. by exists w'. Qed.

Lemma ticking_ok body rounds w r w' : total body -> ticking body rounds w = (r, w') ->
  exists b, r = Ok b /\ (b = true -> exists n, ctx_err n = true \/ done_chosen n = true).
Proof.
  intros Ht. revert w. induction rounds as [|rounds IH]; intros w H; cbn [ticking] in H; [injection H as <- _; by exists false|].
  unfold bind at 1, ask in H. destruct (ctx_err (tick w)) eqn:Ec; [injection H as <- _; eauto|].
  destruct (Ht (bump w)) as [w1 E]. unfold bind at 1 in H. rewrite E in H.
  unfold bind, ask in H. destruct (done_chosen (tick w1)) eqn:Ed; [injection H as <- _; eauto|]. by apply IH in H.
Qed.

Lemma ticking_keeps (I : World D -> Prop) body rounds w :
  (forall w, I w -> I (bump w)) -> (forall w, I w -> I (body w).2) -> I w -> I (ticking body rounds w).2.
Proof.
  intros Hb Hk. revert w. induction rounds as [|rounds IH]; intros w Hw; cbn [ticking]; [done|].
  unfold bind at 1, ask. destruct (ctx_err (tick w)); [by apply Hb|]. unfold bind at 1.
  pose proof (Hk _ (Hb _ Hw)) as H1. destruct (body (bump w)) as [[u|e] w1]; cbn [snd] in *; [|done].
  unfold bind, ask. destruct (done_chosen (tick w1)); [by apply Hb|]. by apply IH, Hb.
Qed.

(** One round of a loop that is not cancelled. *)
Lemma ticking_round body rounds w : total body ->
  (forall n, ctx_err n = false) -> (forall n, done_chosen n = false) ->
  ticking body (S rounds) w = ticking body rounds (bump (body (bump w)).2).
Proof.
  intros Ht H1 H2. cbn [ticking]. unfold bind at 1, ask. rewrite H1. destruct (Ht (bump w)) as [w1 E].
  unfold bind at 1. rewrite E. unfold bind, ask. by rewrite H2.
Qed.
End ticking_laws.

(** ** The publisher's loop *)
Section publisher.
Context {ENV : Env} {CODEC : EventCodec} {BROKER : Broker} {SIG : Signals}.

Definition tick_le {D} (w w' : World D) : Prop := (tick w <= tick w')%nat.
#[global] Instance tick_le_stable {D} : Stable (@tick_le D).
Proof. split; [split|..]; unfold tick_le; cbn; intros; try (intros ?; lia); lia. Qed.
Lemma tick_emit {D} e : respects (@tick_le D) (emit e).
Proof. intros w. unfold tick_le. done. Qed.
Lemma tick_sql {D A} msg (f : D -> option (A * D)) : respects tick_le (sql msg f).
Proof. apply respects_sql_world; [apply _|]. intros w a d _. unfold tick_le. done. Qed.

#[local] Hint Resolve tick_emit tick_sql : flick.
Lemma publish_all_ticks p t l res : respects tick_le (publish_all p t l res).
Proof.
  revert res. induction l as [|r l IH]; intros res; cbn [publish_all]; [apply respects_ret; apply _|].
  unfold Publish, MarkFailed, MarkPublished, Outbox.requireAffected. solve_respects.
Qed.
Lemma PublishDue_ticks p limit : respects tick_le (PublishDue p limit).
Proof. unfold PublishDue, ListDue. solve_respects. apply publish_all_ticks. Qed.

(** Rows the publisher can deliver. *)
Definition deliverable (r : outbox_row) : Prop :=
  (exists e, decodeJobEvent (o_payload r) = Ok e) /\ outbox_check r = true /\ o_subject r <> "" /\ o_payload r <> "".
Definition deliverables (d : ApiDB) : Prop := map_Forall (fun _ => deliverable) (t_outbox d).

Definition backlog (d : ApiDB) : gmap string outbox_row := filter (fun p => not_published p.2 = true) (t_outbox d).

(** A round in which database and broker answer publishes what it selects. *)
Lemma publishing_round `{!NoFaults} p limit (w : World ApiDB) : let t := clk (tick w) in
  (forall n s m, s <> "" -> m <> "" -> js_publish n s m = None) ->
  0 < limit -> 0 < retryDelay p -> zero_time < t -> deliverables (db w) ->
  exists res w', PublishDue p limit w = (Ok res, w') /\
    (forall id row, (id, row) ∈ select_due t limit (db w) -> exists tm, t_outbox (db w') !! id = Some (published_row tm row)) /\
    (forall id, id ∉ (select_due t limit (db w)).*1 -> t_outbox (db w') !! id = t_outbox (db w) !! id).
Proof.
  intros t Hbr Hl Hp Ht Hd.
  destruct (publish_due_processes_all p limit w Hl Hp Ht) as (res & w' & E & _ & Hin & Hout).
  { intros id r Hr. by apply Hd in Hr as (? & _). }
  { intros id r Hr. by apply Hd in Hr as (_ & ? & _). }
  exists res, w'. split_and!; [done| |done]. intros id row Hs. destruct (Hin _ _ Hs) as (row' & Hr' & Hproc).
  apply select_due_elem in Hs as [Hr _]. apply Hd in Hr as (_ & _ & Hsub & Hpay).
  destruct Hproc as [(tm & -> & _)|(tm & msg & _ & [?|[?|(n & Hn)]])]; [by exists tm|done|done|]. by rewrite Hbr in Hn.
Qed.

Lemma deliverable_published t r : deliverable r -> deliverable (published_row t r).
Proof. done. Qed.

Lemma round_backlog t limit d d' :
  (forall id row, (id, row) ∈ select_due t limit d -> exists tm, t_outbox d' !! id = Some (published_row tm row)) ->
  (forall id, id ∉ (select_due t limit d).*1 -> t_outbox d' !! id = t_outbox d !! id) ->
  (deliverables d -> deliverables d') /\ (select_due t limit d <> [] -> (size (backlog d') < size (backlog d))%nat).
Proof.
  intros Hin Hout.
  assert (Hrow : forall id r', t_outbox d' !! id = Some r' ->
    t_outbox d !! id = Some r' \/ exists tm row, t_outbox d !! id = Some row /\ r' = published_row tm row).
  { intros id r' Hr'. destruct (decide (id ∈ (select_due t limit d).*1)) as [Hs|Hs]; [|left; by rewrite <-Hout].
    apply list_elem_of_fmap in Hs as ([id' row] & -> & Hs). cbn in *. destruct (Hin _ _ Hs) as [tm E].
    right. exists tm, row. split; [by apply select_due_elem in Hs as []|congruence]. }
  split.
  - intros Hd id r' [Hr|(tm & row & Hr & ->)]%Hrow; [by apply (Hd id)|]. by apply deliverable_published, (Hd id).
  - intros Hne. apply map_subset_size. destruct (select_due t limit d) as [|[id row] l] eqn:E; [done|].
    destruct (Hin id row) as [tm Hid]; [by left|].
    assert (Hs : (id, row) ∈ select_due t limit d) by (rewrite E; by left). apply select_due_elem in Hs as [Hr Hdue]. split.
    + intros k. destruct (backlog d' !! k) as [r'|] eqn:Ek; [|by destruct (backlog d !! k)].
      apply map_lookup_filter_Some in Ek as [Ek Hn]. destruct (Hrow _ _ Ek) as [Ek'|(tm' & row' & _ & ->)]; [|done].
      assert (Eb : backlog d !! k = Some r') by (by apply map_lookup_filter_Some). by rewrite Eb.
    + intros Hsub. specialize (Hsub id).
      assert (Hb : backlog d !! id = Some row).
      { apply map_lookup_filter_Some. split; [done|]. unfold due, not_published in *. cbn. by destruct (o_state row). }
      assert (Hb' : backlog d' !! id = None) by (apply map_lookup_filter_None; right; intros r' Hr'; rewrite Hid in Hr'; by injection Hr' as <-).
      rewrite Hb, Hb' in Hsub. done.
Qed.

Lemma select_due_some t limit d id row : 0 < limit -> t_outbox d !! id = Some row -> due t row = true -> select_due t limit d <> [].
Proof.
  intros Hl Hr Hd E. assert (H : (id, row) ∈ select_due t limit d); [|rewrite E in H; by apply elem_of_nil in H].
  apply select_complete; [|done|done]. unfold select_due in E. rewrite E. done.
Qed.

Section delivery.
Context `{!NoFaults} (p : OutboxPublisher) (limit : Z) (start : nat) (id : string) (subject payload : string).
Context (Hbr : forall n s m, s <> "" -> m <> "" -> js_publish n s m = None).
Context (Hlimit : 0 < limit) (Hdelay : 0 < retryDelay p).
Context (Hrun : forall n, ctx_err n = false) (Hwait : forall n, done_chosen n = false).
Context (Hclk : forall n, (start <= n)%nat -> zero_time < clk n /\ four_digit_year (clk n) = true).

(** The row is published, or due at every reading of the clock. *)
Definition delivery (d : ApiDB) : Prop :=
  exists r, t_outbox d !! id = Some r /\ o_subject r = subject /\ o_payload r = payload /\
    (o_state r = OutboxPublished \/
     four_digit_year (o_next_attempt r) = true /\ forall n, (start <= n)%nat -> o_next_attempt r + Second <= clk n).

Lemma delivery_due d n : delivery d -> (start <= n)%nat ->
  (exists r, t_outbox d !! id = Some r /\ o_state r = OutboxPublished) \/
  (exists r, t_outbox d !! id = Some r /\ due (clk n) r = true).
Proof.
  intros (r & Hr & _ & _ & [Hp|[Hy Hn]]) Hle; [left; eauto|]. destruct (not_published r) eqn:E.
  - right. exists r. split; [done|]. apply (due_to_the_second (clk n) r); [by apply Hclk|done|done|by apply Hn].
  - left. exists r. split; [done|]. unfold not_published in E. by destruct (o_state r).
Qed.

Definition published_already (d : ApiDB) : Prop := exists r, t_outbox d !! id = Some r /\ o_state r = OutboxPublished.

Lemma empty_backlog d : delivery d -> (size (backlog d) <= 0)%nat -> published_already d.
Proof.
  intros (r & Hr & _) Hs. exists r. split; [done|].
  assert (Hb : backlog d !! id = None) by (rewrite (map_size_empty_inv (backlog d)) by lia; apply lookup_empty).
  apply map_lookup_filter_None in Hb as [|Hb]; [congruence|]. specialize (Hb r Hr).
  unfold not_published in Hb. cbn in Hb. by destruct (o_state r).
Qed.

Lemma delivery_keeps d d' t : delivery d -> outbox_grows d d' ->
  (forall i row, (i, row) ∈ select_due t limit d -> exists tm, t_outbox d' !! i = Some (published_row tm row)) ->
  (forall i, i ∉ (select_due t limit d).*1 -> t_outbox d' !! i = t_outbox d !! i) -> delivery d'.
Proof.
  intros (r & Hr & Hs & Hp & Hcase) Hg Hin Hout. destruct (Hg _ _ Hr) as (r1 & Hr1 & Hs1 & Hp1 & Hsame).
  exists r1. split_and!; [done|congruence|congruence|]. destruct Hcase as [Hst|Hn]; [left; by rewrite Hsame|].
  destruct (decide (id ∈ (select_due t limit d).*1)) as [Hsel|Hsel].
  - apply list_elem_of_fmap in Hsel as ([i row] & Ei & Hsel). cbn in Ei. subst i. apply Hin in Hsel as [tm E1].
    left. rewrite Hr1 in E1. by injection E1 as ->.
  - right. rewrite Hout, Hr in Hr1 by done. by injection Hr1 as <-.
Qed.

Lemma delivered_by rounds : forall w : World ApiDB, (start <= tick w)%nat -> deliverables (db w) -> accepted w -> delivery (db w) ->
  published_already (db w) \/ (size (backlog (db w)) <= rounds)%nat ->
  exists w', ticking (publishOutboxBatch p limit) rounds w = (Ok false, w') /\ accepted w' /\
    delivery (db w') /\ published_already (db w').
Proof.
  induction rounds as [|rounds IH]; intros w Hw Hd Ha Hv Hsize.
  - exists w. split_and!; [done|done|done|]. destruct Hsize as [?|Hsize]; [done|by apply empty_backlog].
  - rewrite ticking_round by (done || apply attempt_total).
    set (w0 := bump w). destruct (publishing_round p limit w0) as (res & w1 & E & Hin & Hout);
      [done|done|done|apply Hclk; cbn; lia|done|].
    assert (Eb : (publishOutboxBatch p limit w0).2 = w1) by (unfold publishOutboxBatch, bind, attempt; by rewrite E).
    rewrite Eb. destruct (PublishDue_accepted p limit w0 _ _ Ha E) as [Ha1 Hg].
    destruct (round_backlog _ _ _ _ Hin Hout) as [Hd1 Hless].
    pose proof (PublishDue_ticks p limit w0) as Htick. unfold tick_le in Htick. rewrite E in Htick. cbn in Htick.
    pose proof (delivery_keeps _ _ _ Hv Hg Hin Hout) as Hv1.
    apply (IH (bump w1)); [cbn; lia|by apply Hd1|done|done|]. cbn.
    destruct (delivery_due (db w) (tick w0) Hv ltac:(cbn; lia)) as [(r & Hr & Hst)|(r & Hr & Hdue)].
    + left. destruct (Hg _ _ Hr) as (r1 & Hr1 & _ & _ & Hsame). exists r1. split; [done|]. by rewrite Hsame.
    + destruct Hsize as [(r' & Hr' & Hst)|Hsize]; [assert (r' = r) as -> by congruence; unfold due in Hdue; by rewrite Hst in Hdue|].
      right. specialize (Hless ltac:(by eapply select_due_some)). cbn in Hless. lia.
Qed.
End delivery.
End publisher.

Section publisher_theorems.
Context {ENV : Env} {CODEC : EventCodec} {BROKER : Broker} {SIG : Signals}.

(** The publisher's loop fails at nothing: whatever batch fails and whatever
    the broker refuses, it goes on until its context is cancelled; every row it
    marked was accepted, and no row is lost. *)
Theorem publisher_loop_safe (p : OutboxPublisher) limit rounds (w : World ApiDB) r w' :
  RunOutboxPublisher p limit rounds w = (r, w') -> accepted w ->
  (exists b, r = Ok b /\ (b = true -> exists n, ctx_err n = true \/ done_chosen n = true)) /\
  accepted w' /\ outbox_grows (db w) (db w').
Proof.
  intros H Ha. split; [exact (ticking_ok _ _ _ _ _ (attempt_total _) H)|].
  pose proof (ticking_keeps (fun w1 => accepted w1 /\ outbox_grows (db w) (db w1))
    (publishOutboxBatch p (if limit <=? 0 then DefaultOutboxPublisherLimit else limit)) rounds w) as Hk.
  unfold RunOutboxPublisher in H. rewrite H in Hk. apply Hk; [done| |by split]. intros w1 [Ha1 Hg1].
  unfold publishOutboxBatch, bind, attempt. destruct (PublishDue _ _ w1) as [r2 w2] eqn:E.
  apply PublishDue_accepted in E as [Ha2 Hg2]; [|done]. cbn. split; [done|by etrans].
Qed.

(** C23: Every due job is published.  While the database answers, the broker accepts
    and nothing is cancelled, the publisher's loop publishes a row whose next
    attempt lies a second in the past within as many rounds as there are rows
    to publish, however many others are due before it and whatever the limit of
    a round; and the broker accepted its message. *)
Theorem due_jobs_published `{!NoFaults} (p : OutboxPublisher) limit rounds (w : World ApiDB) id row :
  (forall n s m, s <> "" -> m <> "" -> js_publish n s m = None) ->
  (forall n, ctx_err n = false) -> (forall n, done_chosen n = false) ->
  (forall n, (tick w <= n)%nat -> zero_time < clk n /\ four_digit_year (clk n) = true /\ o_next_attempt row + Second <= clk n) ->
  0 < retryDelay p -> deliverables (db w) -> accepted w ->
  t_outbox (db w) !! id = Some row -> o_state row <> OutboxPublished -> four_digit_year (o_next_attempt row) = true ->
  (size (backlog (db w)) <= rounds)%nat ->
  exists w' row', RunOutboxPublisher p limit rounds w = (Ok false, w') /\
    t_outbox (db w') !! id = Some row' /\ o_state row' = OutboxPublished /\
    EffPublish (o_subject row) (o_payload row) ∈ trace w'.
Proof.
  intros Hbr Hc Hd Hclk Hp Hdel Ha Hr Hs Hy Hsize.
  assert (Hv : delivery (tick w) id (o_subject row) (o_payload row) (db w)).
  { exists row. split_and!; [done..|]. right. split; [done|]. intros n Hn. by apply Hclk. }
  destruct (delivered_by p (if limit <=? 0 then DefaultOutboxPublisherLimit else limit) (tick w) id (o_subject row) (o_payload row)
    Hbr ltac:(unfold DefaultOutboxPublisherLimit; destruct (Z.leb_spec limit 0); lia) Hp Hc Hd
    ltac:(intros n Hn; destruct (Hclk n Hn) as (? & ? & _); by split) rounds w) as (w' & E & Ha' & Hv' & r' & Hr' & Hst);
    [done|done|done|done|by right|].
  exists w', r'. split_and!; [done|done|done|]. destruct Hv' as (r2 & Hr2 & Es & Ep & _).
  assert (r2 = r') as -> by congruence. rewrite <-Es, <-Ep. by apply (Ha' id r').
Qed.
End publisher_theorems.

(** ** The worker's run *)
Section worker.
Context {ENV : Env} {CODEC : EventCodec} {API : Internal} {B : Type} {JS : JetStream B}.
Context (p : Processor) (m : Z) (Hmax : maxAttempts p = m) `{!HandlerSpec (handler p)}.
Context (Hack : forall k, acknowledger p = Some k -> HandlerSpec k).
Implicit Types w : World (WorkerDB * B).

(** Receipts as workers leave them, and nothing acknowledged that did not
    succeed. *)
Definition acknowledges w w' : Prop :=
  inv m (db w).1 ->
  rtc (wstep m) (db w).1 (db w').1 /\
  exists tl, trace w' = trace w ++ tl /\ forall payload, EffAck payload ∈ tl -> job_succeeded payload (db w').1.

Lemma acknowledges_idle w w' : (db w').1 = (db w).1 -> trace w' = trace w -> acknowledges w w'.
Proof.
  intros E1 E2 _. rewrite E1, E2. split; [done|]. exists []. rewrite app_nil_r. split; [done|]. intros payload H. by apply not_elem_of_nil in H.
Qed.

Lemma acknowledges_trans w1 w2 w3 : acknowledges w1 w2 -> acknowledges w2 w3 -> acknowledges w1 w3.
Proof.
  intros H12 H23 Hi. destruct (H12 Hi) as (S1 & t1 & E1 & N1). destruct (wsteps_inv m _ _ S1 Hi) as [Hi2 _].
  destruct (H23 Hi2) as (S2 & t2 & E2 & N2). destruct (wsteps_inv m _ _ S2 Hi2) as [_ Hle].
  split; [by etrans|]. exists (t1 ++ t2). rewrite E2, E1, app_assoc. split; [done|].
  intros payload [Hp|Hp]%elem_of_app; [by eapply job_succeeded_le, N1|by apply N2].
Qed.

Lemma acknowledges_bind {A C} (x : M (WorkerDB * B) A) (k : A -> M (WorkerDB * B) C) :
  respects acknowledges x -> (forall a, respects acknowledges (k a)) -> respects acknowledges (bind x k).
Proof.
  intros Hx Hk w. specialize (Hx w). unfold bind. destruct (x w) as [[a|e] w1]; cbn in *; [|done].
  by eapply acknowledges_trans, Hk.
Qed.
Lemma acknowledges_same {A} (x : M (WorkerDB * B) A) : (forall w, (db (x w).2).1 = (db w).1 /\ trace (x w).2 = trace w) -> respects acknowledges x.
Proof. intros H w. by apply acknowledges_idle; apply H. Qed.
Lemma acknowledges_attempt {A} (x : M (WorkerDB * B) A) : respects acknowledges x -> respects acknowledges (attempt x).
Proof. intros H w. specialize (H w). unfold attempt. by destruct (x w). Qed.

(** What is done to the broker alone. *)
Lemma acknowledges_broker {A} (x : M B A) : respects same_trace x -> respects acknowledges (on_snd x).
Proof.
  intros H. apply acknowledges_same. intros w. unfold on_snd. specialize (H (MkWorld (db w).2 (tick w) (active_uploads w) (trace w))).
  by destruct (x _) as [r w1].
Qed.
Lemma trace_call {A} msg (f : nat -> B -> js_answer A * B) : respects same_trace (js_call msg f).
Proof. intros w. unfold js_call, same_trace. by destruct (f _ _). Qed.
Lemma trace_read {A} (f : nat -> B -> A) : respects same_trace (js_read f).
Proof. done. Qed.
#[local] Hint Resolve trace_call trace_read : flick.
Lemma EnsureConsumer_trace s subj d n : respects same_trace (EnsureConsumer s subj d n).
Proof. unfold EnsureConsumer. solve_respects. Qed.
Lemma PullSubscribe_trace s subj d : respects same_trace (PullSubscribe s subj d).
Proof. unfold PullSubscribe. solve_respects. Qed.
Lemma Fetch_trace c sub n wait : respects same_trace (Fetch c sub n wait).
Proof.
  unfold Fetch. destruct sub; [|apply respects_throw; apply _].
  apply respects_bind; [apply _|solve_respects|]. intros stopped. apply respects_bind; [apply _|solve_respects|].
  intros _ w. unfold same_trace. by destruct (js_FetchMessages _ _ _ _ _).
Qed.

Lemma acknowledges_batch messages : respects acknowledges (on_fst (ConsumeMessages p messages)).
Proof.
  intros w Hi. unfold on_fst. destruct (ConsumeMessages p messages _) as [r w1] eqn:E.
  by apply (consume_spec p m Hmax Hack) in E.
Qed.

Lemma consume_rounds_acknowledges opts sub rounds : respects acknowledges (consume_rounds p opts sub rounds).
Proof.
  assert (Hstop : forall e, respects acknowledges (@stop_with API B e)).
  { intros e. apply acknowledges_same. intros w. unfold stop_with, bind, ask. by destruct (ctx_done _). }
  induction rounds as [|rounds IH]; cbn [consume_rounds]; [by apply acknowledges_same|].
  apply acknowledges_bind; [by apply acknowledges_same|]. intros [|]; [by apply acknowledges_same|].
  apply acknowledges_bind; [apply acknowledges_attempt, acknowledges_broker, Fetch_trace|].
  intros [[|x l]|e]; [done| |done]. apply acknowledges_bind; [apply acknowledges_attempt, acknowledges_batch|]. by intros [].
Qed.

Lemma Run_acknowledges opts rounds w r w' :
  rtc (wstep m) empty_worker_db (db w).1 -> 1 <= m -> Run p opts rounds w = (r, w') ->
  rtc (wstep m) (db w).1 (db w').1 /\
  exists tl, trace w' = trace w ++ tl /\ forall payload, EffAck payload ∈ tl -> job_succeeded payload (db w').1.
Proof.
  intros H0 Hm H. destruct (wsteps_inv m _ _ H0 (inv_empty m Hm)) as [Hi _].
  assert (Hr : respects acknowledges (Run p opts rounds)).
  { apply acknowledges_bind; [apply acknowledges_broker, EnsureConsumer_trace|]. intros _.
    apply acknowledges_bind; [apply acknowledges_broker, PullSubscribe_trace|]. intros sub. apply consume_rounds_acknowledges. }
  specialize (Hr w Hi). by rewrite H in Hr.
Qed.
End worker.
