(* ===== verification/PipeRelay.v ===== *)
(** * The live pipe relay (src/internal/piperelay/coordinator.go)

    Rendezvous sessions between one sender and one receiver, held in memory.
    A session is shared by the goroutines that found it, so sessions live in a
    heap and the coordinator's map holds their addresses: a session removed
    from the map is still the one its sender and receiver hold.  Each critical
    section of the coordinator's mutex is one function of its state; the calls
    that wait in a [select] are a section that connects, and one function per
    case of the [select]; [step] interleaves the sections of any number of
    callers. *)

From S2P Require Import Prelude GoStrings World GoTime Codec.

Inductive relay_error :=
  | ErrCapacityExceeded | ErrNotFound | ErrSessionClosed | ErrSessionBurned
  | ErrAlreadyConnected | ErrInvalidCode | ErrExpired
  | ErrContext                       (** [ctx.Err()] *)
  | ErrCopy (msg : string)           (** an error of the body or of the pipe *)
  | ErrRelay (msg : string).         (** an error with no sentinel *)
#[export] Instance relay_error_eq : EqDecision relay_error.
Proof. solve_decision. Defined.

Definition defaultMaxConcurrent : Z := 100.
Definition defaultTTL : Z := 3 * Minute.
Definition defaultCleanInterval : Z := 30 * Second.
Definition defaultMaxTransferDuration : Z := 10 * Minute.

Record SessionMetadata := MkMeta { md_Kind : string; md_EncryptedFilename : string }.

(** What closes an end of an [io.Pipe]: end of file, or an error. *)
Inductive close_cause := CloseEOF | CloseErr (e : relay_error).

Record Session := MkSession {
  codeHash : string;
  salt : string;
  createdAt : time;
  expiresAt : time;
  failedAttempts : Z;
  burned : bool;
  kind : string;
  encryptedFilename : string;
  receiverReady : bool;                    (** the channel is closed *)
  senderReady : bool;
  done_ : bool;
  writerClosed : option close_cause;       (** the first [CloseWithError] wins *)
  readerClosed : option close_cause;
}.

Abbreviation loc := nat.

Record CoordinatorOptions := MkCoordinatorOptions {
  opt_MaxConcurrent : Z; opt_TTL : Z; opt_CleanInterval : Z; opt_MaxTransferDuration : Z }.

Record Coordinator := MkCoordinator {
  heap : gmap loc Session;
  next_loc : loc;
  sessions : gmap string loc;
  maxConcurrent : Z;
  ttl : Z;
  cleanInterval : Z;
  maxTransferDuration : Z;
  stopped : bool;
}.

Definition NewCoordinator (opts : CoordinatorOptions) : Coordinator :=
  MkCoordinator ∅ 0 ∅
    (if opt_MaxConcurrent opts <=? 0 then defaultMaxConcurrent else opt_MaxConcurrent opts)
    (if opt_TTL opts <=? 0 then defaultTTL else opt_TTL opts)
    (if opt_CleanInterval opts <=? 0 then defaultCleanInterval else opt_CleanInterval opts)
    (if opt_MaxTransferDuration opts <=? 0 then defaultMaxTransferDuration else opt_MaxTransferDuration opts)
    false.

(** ** Codes *)

Fixpoint decimal (s : string) : bool :=
  match s with
  | "" => true
  | String.String a r => (0x30 <=? byte_val a) && (byte_val a <=? 0x39) && decimal r
  end.

Definition NormalizeCode (raw : string) : relay_error + string :=
  let normalized := remove_byte (Ascii.ascii_of_nat 32) (remove_byte (Ascii.ascii_of_nat 45) (TrimSpace raw)) in
  if negb (String.length normalized =? 6)%nat || negb (decimal normalized) then inl ErrInvalidCode
  else inr normalized.

(** [GenerateCode], with [rand.Int(rand.Reader, 900000)] as its argument. *)
Definition GenerateCode (n : option Z) : relay_error + string :=
  match n with
  | None => inl (ErrRelay "generate random code")
  | Some n => inr (pad 6 (n + 100000))
  end.

(** ** Sessions *)
Definition set_session (l : loc) (s : Session) (c : Coordinator) : Coordinator :=
  MkCoordinator (<[l := s]> (heap c)) (next_loc c) (sessions c) (maxConcurrent c) (ttl c) (cleanInterval c)
    (maxTransferDuration c) (stopped c).
Definition set_sessions (m : gmap string loc) (c : Coordinator) : Coordinator :=
  MkCoordinator (heap c) (next_loc c) m (maxConcurrent c) (ttl c) (cleanInterval c) (maxTransferDuration c) (stopped c).

Definition close_end (old : option close_cause) (cause : close_cause) : option close_cause :=
  match old with Some c => Some c | None => Some cause end.

(** [s.closeOnce.Do(...)]: [done_] is closed by its first run. *)
Definition close_session (cause : close_cause) (s : Session) : Session :=
  if done_ s then s
  else MkSession (codeHash s) (salt s) (createdAt s) (expiresAt s) (failedAttempts s) (burned s) (kind s)
         (encryptedFilename s) (receiverReady s) (senderReady s) true
         (close_end (writerClosed s) cause) (close_end (readerClosed s) cause).

Definition close_writer (cause : close_cause) (s : Session) : Session :=
  MkSession (codeHash s) (salt s) (createdAt s) (expiresAt s) (failedAttempts s) (burned s) (kind s)
    (encryptedFilename s) (receiverReady s) (senderReady s) (done_ s) (close_end (writerClosed s) cause) (readerClosed s).

Definition connect_receiver (s : Session) : Session :=
  MkSession (codeHash s) (salt s) (createdAt s) (expiresAt s) (failedAttempts s) (burned s) (kind s)
    (encryptedFilename s) true (senderReady s) (done_ s) (writerClosed s) (readerClosed s).
Definition connect_sender (s : Session) : Session :=
  MkSession (codeHash s) (salt s) (createdAt s) (expiresAt s) (failedAttempts s) (burned s) (kind s)
    (encryptedFilename s) (receiverReady s) true (done_ s) (writerClosed s) (readerClosed s).
Definition set_metadata (m : SessionMetadata) (s : Session) : Session :=
  MkSession (codeHash s) (salt s) (createdAt s) (expiresAt s) (failedAttempts s) (burned s) (md_Kind m)
    (md_EncryptedFilename m) (receiverReady s) (senderReady s) (done_ s) (writerClosed s) (readerClosed s).
Definition count_failure (s : Session) : Session :=
  MkSession (codeHash s) (salt s) (createdAt s) (expiresAt s) (failedAttempts s + 1)
    (if 3 <=? failedAttempts s + 1 then true else burned s) (kind s)
    (encryptedFilename s) (receiverReady s) (senderReady s) (done_ s) (writerClosed s) (readerClosed s).

Definition update_session (l : loc) (f : Session -> Session) (c : Coordinator) : Coordinator :=
  match heap c !! l with Some s => set_session l (f s) c | None => c end.

Definition removeLocked (hash : string) (cause : relay_error) (c : Coordinator) : Coordinator :=
  match sessions c !! hash with
  | None => c
  | Some l => update_session l (close_session (CloseErr cause)) (set_sessions (delete hash (sessions c)) c)
  end.

Definition burnSession (hash : string) (c : Coordinator) : Coordinator := removeLocked hash ErrSessionClosed c.

(** The session a code names. *)
Definition find_session (hash : string) (c : Coordinator) : option (loc * Session) :=
  l ← sessions c !! hash; s ← heap c !! l; Some (l, s).

(** ** Operations *)

(** The loop of [Init]: at most [tries] draws, the first code not in use. *)
Fixpoint pick_code (tries : nat) (draw : nat -> option Z) (i : nat) (c : Coordinator) : relay_error + string :=
  match tries with
  | O => inl (ErrRelay "piperelay: failed to generate unique code")
  | S tries =>
      match GenerateCode (draw i) with
      | inl e => inl e
      | inr code => if bool_decide (sessions c !! sha256 code = None) then inr code
                    else pick_code tries draw (S i) c
      end
  end.

Definition new_session (hash slt : string) (t : time) (c : Coordinator) : Session :=
  MkSession hash slt t (t + ttl c) 0 false "" "" false false false None None.

Definition add_session (s : Session) (c : Coordinator) : Coordinator :=
  MkCoordinator (<[next_loc c := s]> (heap c)) (S (next_loc c)) (<[codeHash s := next_loc c]> (sessions c))
    (maxConcurrent c) (ttl c) (cleanInterval c) (maxTransferDuration c) (stopped c).

(** [Init]; [slt] is [rand.Read] of 16 bytes, [t] the clock. *)
Definition Init (draw : nat -> option Z) (slt : option string) (t : time) (c : Coordinator) :
    (relay_error + string * string * Z) * Coordinator :=
  if maxConcurrent c <=? Z.of_nat (size (sessions c)) then (inl ErrCapacityExceeded, c)
  else match pick_code 10 draw 0 c with
  | inl e => (inl e, c)
  | inr code =>
      match slt with
      | None => (inl (ErrRelay "generate salt"), c)
      | Some x => (inr (code, x, Z.quot (ttl c) Second), add_session (new_session (sha256 code) x t c) c)
      end
  end.

(** [WaitReceiver] up to its [select]. *)
Definition wait_find (rawCode : string) (c : Coordinator) : relay_error + loc :=
  match NormalizeCode rawCode with
  | inl e => inl e
  | inr code => match find_session (sha256 code) c with None => inl ErrNotFound | Some (l, _) => inr l end
  end.

(** [Receive] up to its [select]. *)
Definition receive_connect (rawCode : string) (c : Coordinator) : (relay_error + loc * string) * Coordinator :=
  match NormalizeCode rawCode with
  | inl e => (inl e, c)
  | inr code =>
      let hash := sha256 code in
      match find_session hash c with
      | None => (inl ErrNotFound, c)
      | Some (l, s) =>
          if burned s then (inl ErrSessionBurned, c)
          else if receiverReady s then (inl ErrAlreadyConnected, c)
          else (inr (l, hash), set_session l (connect_receiver s) c)
      end
  end.

(** [Send] up to its [select]: the metadata is stored before the [Once]. *)
Definition send_connect (rawCode : string) (meta : SessionMetadata) (c : Coordinator) :
    (relay_error + loc * string) * Coordinator :=
  match NormalizeCode rawCode with
  | inl e => (inl e, c)
  | inr code =>
      let hash := sha256 code in
      match find_session hash c with
      | None => (inl ErrNotFound, c)
      | Some (l, s) =>
          if burned s then (inl ErrSessionBurned, c)
          else
            let s := set_metadata meta s in
            if senderReady s then (inl ErrAlreadyConnected, set_session l s c)
            else (inr (l, hash), set_session l (connect_sender s) c)
      end
  end.

(** [RecordFailedAttempt]: whether it burned the session, and its error. *)
Definition RecordFailedAttempt (rawCode : string) (c : Coordinator) : (bool * option relay_error) * Coordinator :=
  match NormalizeCode rawCode with
  | inl e => ((false, Some e), c)
  | inr code =>
      let hash := sha256 code in
      match find_session hash c with
      | None => ((false, Some ErrNotFound), c)
      | Some (l, s) =>
          let s := count_failure s in
          if 3 <=? failedAttempts s
          then ((true, Some ErrSessionBurned), removeLocked hash ErrSessionBurned (set_session l s c))
          else ((false, None), set_session l s c)
      end
  end.

Definition ActiveSessions (c : Coordinator) : Z := Z.of_nat (size (sessions c)).

(** The loops of [cleanExpired] and [Close] over the map. *)
Fixpoint remove_all (hashes : list string) (cause : relay_error) (c : Coordinator) : Coordinator :=
  match hashes with
  | [] => c
  | h :: hashes => remove_all hashes cause (removeLocked h cause c)
  end.

Definition expired_hashes (now : time) (c : Coordinator) : list string :=
  (filter (fun p => match heap c !! p.2 with Some s => before (expiresAt s) now | None => false end = true)
     (map_to_list (sessions c))).*1.

Definition cleanExpired (now : time) (c : Coordinator) : Coordinator :=
  remove_all (expired_hashes now c) ErrExpired c.

Definition Close (c : Coordinator) : Coordinator :=
  if stopped c then c
  else
    let c := MkCoordinator (heap c) (next_loc c) (sessions c) (maxConcurrent c) (ttl c) (cleanInterval c)
               (maxTransferDuration c) true in
    remove_all (map_to_list (sessions c)).*1 ErrSessionClosed c.

(** ** Callers

    Where a call of [Receive] (with the handler that streams its result) or of
    [Send] stands, with the session it found. *)
Inductive thread :=
  | RWaiting (l : loc) (hash : string)                                   (** in the [select] of [Receive] *)
  | RStreaming (l : loc) (hash slt : string) (meta : SessionMetadata)    (** [Receive] returned these *)
  | RCleanup (l : loc) (hash : string) (res : option relay_error)        (** about to run [cleanup] *)
  | RClosing (l : loc) (hash : string) (res : option relay_error)        (** in [cleanup], before [burnSession] *)
  | RFinished (l : loc) (res : option relay_error)
  | SWaiting (l : loc) (hash : string)                                   (** in the [select] of [Send] *)
  | SCopying (l : loc) (hash : string)
  | SBurning (l : loc) (hash : string) (e : relay_error)                 (** about to run [burnSession] *)
  | SFinished (l : loc) (res : option relay_error).

(** The cases of the two [select]s; [peer] is the channel of the other party. *)
Inductive select_case := PeerReady | SessionDone | CtxDone | TimedOut.

Definition case_enabled (peer : bool) (now : time) (s : Session) (k : select_case) : bool :=
  match k with
  | PeerReady => peer
  | SessionDone => done_ s
  | CtxDone => true
  | TimedOut => negb (before now (expiresAt s))
  end.

Definition receive_case (l : loc) (hash : string) (s : Session) (k : select_case) : thread :=
  match k with
  | PeerReady => RStreaming l hash (salt s) (MkMeta (kind s) (encryptedFilename s))
  | SessionDone => RFinished l (Some ErrSessionClosed)
  | CtxDone => RCleanup l hash (Some ErrContext)
  | TimedOut => RCleanup l hash (Some ErrExpired)
  end.

Definition send_case (l : loc) (hash : string) (s : Session) (k : select_case) : thread * Session :=
  match k with
  | PeerReady => (SCopying l hash, s)
  | SessionDone => (SFinished l (Some ErrSessionClosed), s)
  | CtxDone => (SBurning l hash ErrContext, close_writer (CloseErr ErrContext) s)
  | TimedOut => (SBurning l hash ErrExpired, close_writer (CloseErr ErrExpired) s)
  end.

(** The result of [WaitReceiver], which changes nothing. *)
Definition wait_case (k : select_case) : option relay_error :=
  match k with
  | PeerReady => None
  | SessionDone => Some ErrSessionClosed
  | CtxDone => Some ErrContext
  | TimedOut => Some ErrExpired
  end.

(** [pr.Close()] of the receiving handler. *)
Definition close_reader (s : Session) : Session :=
  MkSession (codeHash s) (salt s) (createdAt s) (expiresAt s) (failedAttempts s) (burned s) (kind s)
    (encryptedFilename s) (receiverReady s) (senderReady s) (done_ s) (writerClosed s)
    (close_end (readerClosed s) (CloseErr (ErrCopy "io: read/write on closed pipe"))).

(** The moves a caller makes on its own. *)
Definition move (t : thread) (c : Coordinator) : option (thread * Coordinator) :=
  match t with
  | RStreaming l hash _ _ => Some (RCleanup l hash None, update_session l close_reader c)
  | RCleanup l hash res => Some (RClosing l hash res, update_session l (close_session CloseEOF) c)
  | RClosing l hash res => Some (RFinished l res, burnSession hash c)
  | SBurning l hash e => Some (SFinished l (Some e), burnSession hash c)
  | _ => None
  end.

(** The end of [io.CopyBuffer]. *)
Definition copy_end (l : loc) (hash : string) (copyErr : option relay_error) (c : Coordinator) : thread * Coordinator :=
  match copyErr with
  | Some e => (SBurning l hash e, update_session l (close_writer (CloseErr e)) c)
  | None => (SFinished l None, update_session l (close_writer CloseEOF) c)
  end.

Record relay := MkRelay { coord : Coordinator; threads : gmap nat thread }.

Definition connected (f : loc -> string -> thread) (tid : nat) (r : relay_error + loc * string) (ts : gmap nat thread) :
    gmap nat thread :=
  match r with inl _ => ts | inr (l, hash) => <[tid := f l hash]> ts end.

Inductive step : relay -> relay -> Prop :=
  | step_init draw slt t c ts : step (MkRelay c ts) (MkRelay (Init draw slt t c).2 ts)
  | step_receive raw tid c ts : ts !! tid = None ->
      step (MkRelay c ts) (MkRelay (receive_connect raw c).2 (connected RWaiting tid (receive_connect raw c).1 ts))
  | step_send raw meta tid c ts : ts !! tid = None ->
      step (MkRelay c ts) (MkRelay (send_connect raw meta c).2 (connected SWaiting tid (send_connect raw meta c).1 ts))
  | step_receive_case k now tid l hash s c ts :
      ts !! tid = Some (RWaiting l hash) -> heap c !! l = Some s -> case_enabled (senderReady s) now s k = true ->
      step (MkRelay c ts) (MkRelay c (<[tid := receive_case l hash s k]> ts))
  | step_send_case k now tid l hash s c ts :
      ts !! tid = Some (SWaiting l hash) -> heap c !! l = Some s -> case_enabled (receiverReady s) now s k = true ->
      step (MkRelay c ts) (MkRelay (set_session l (send_case l hash s k).2 c) (<[tid := (send_case l hash s k).1]> ts))
  | step_move tid t t' c c' ts :
      ts !! tid = Some t -> move t c = Some (t', c') -> step (MkRelay c ts) (MkRelay c' (<[tid := t']> ts))
  | step_copied tid l hash copyErr c ts :
      ts !! tid = Some (SCopying l hash) ->
      step (MkRelay c ts) (MkRelay (copy_end l hash copyErr c).2 (<[tid := (copy_end l hash copyErr c).1]> ts))
  | step_failed raw c ts : step (MkRelay c ts) (MkRelay (RecordFailedAttempt raw c).2 ts)
  | step_clean now c ts : step (MkRelay c ts) (MkRelay (cleanExpired now c) ts)
  | step_close c ts : step (MkRelay c ts) (MkRelay (Close c) ts).
