(* ===== verification/PipeRelayProofs.v ===== *)
(** * Correctness of the pipe relay

    The coordinator's well-formedness, the pairing of one receiver with one
    sender, the codes, the cleaner, and what the failed-attempt counter does
    and does not count. *)

From S2P Require Import Prelude GoStrings World GoTime Codec PipeRelay.

(** ** Well-formed coordinators *)
Record wf (c : Coordinator) : Prop := {
  wf_next : forall l s, heap c !! l = Some s -> (l < next_loc c)%nat;
  wf_map : forall h l, sessions c !! h = Some l -> exists s, heap c !! l = Some s /\ codeHash s = h /\
    burned s = false /\ 0 <= failedAttempts s <= 2;
  wf_size : Z.of_nat (size (sessions c)) <= maxConcurrent c;
}.

Lemma wf_new opts : wf (NewCoordinator opts).
Proof.
  split; [done|done|]. simpl. rewrite map_size_empty. unfold defaultMaxConcurrent.
  destruct (Z.leb_spec (opt_MaxConcurrent opts) 0); lia.
Qed.

(** An update that does not touch what the map relies on. *)
Definition inert (f : Session -> Session) : Prop :=
  forall s, codeHash (f s) = codeHash s /\ burned (f s) = burned s /\ failedAttempts (f s) = failedAttempts s /\
    salt (f s) = salt s /\ expiresAt (f s) = expiresAt s.

Lemma inert_close cause : inert (close_session cause).
Proof. intros s. unfold close_session. by destruct (done_ s). Qed.
Lemma inert_close_writer cause : inert (close_writer cause).
Proof. done. Qed.
Lemma inert_close_reader : inert close_reader.
Proof. done. Qed.
Lemma inert_connect_receiver : inert connect_receiver.
Proof. done. Qed.
Lemma inert_connect_sender : inert connect_sender.
Proof. done. Qed.
Lemma inert_metadata m : inert (set_metadata m).
Proof. done. Qed.
Lemma inert_comp f g : inert f -> inert g -> inert (fun s => f (g s)).
Proof. intros Hf Hg s. destruct (Hf (g s)) as (? & ? & ? & ? & ?), (Hg s) as (? & ? & ? & ? & ?). split_and!; congruence. Qed.
#[local] Hint Resolve inert_close inert_close_writer inert_close_reader inert_connect_receiver inert_connect_sender
  inert_metadata inert_comp : flick.

Lemma update_session_heap l f c l' :
  heap (update_session l f c) !! l' = if decide (l = l') then f <$> heap c !! l' else heap c !! l'.
Proof.
  unfold update_session. destruct (heap c !! l) as [s|] eqn:E; simpl.
  - destruct (decide (l = l')) as [<-|]; [rewrite lookup_insert_eq, E; done|by rewrite lookup_insert_ne].
  - destruct (decide (l = l')) as [<-|]; [by rewrite E|done].
Qed.

Lemma update_session_rest l f c :
  next_loc (update_session l f c) = next_loc c /\ sessions (update_session l f c) = sessions c /\
  maxConcurrent (update_session l f c) = maxConcurrent c /\ ttl (update_session l f c) = ttl c.
Proof. unfold update_session. by destruct (heap c !! l). Qed.

Lemma set_session_update l s f c : heap c !! l = Some s -> set_session l (f s) c = update_session l f c.
Proof. unfold update_session. by intros ->. Qed.

Lemma wf_update l f c : inert f -> wf c -> wf (update_session l f c).
Proof.
  intros Hf [Hn Hm Hs]. destruct (update_session_rest l f c) as (E1 & E2 & E3 & _). split.
  - intros l' s'. rewrite update_session_heap, E1. destruct (decide (l = l')) as [<-|]; [|apply Hn].
    destruct (heap c !! l) as [s|] eqn:E; [|done]. intros _. by eapply Hn.
  - intros h l'. rewrite E2. intros Hl. destruct (Hm h l' Hl) as (s & Hh & Hc & Hb & Ha). rewrite update_session_heap.
    destruct (decide (l = l')); [|by exists s]. rewrite Hh. destruct (Hf s) as (F1 & F2 & F3 & _).
    exists (f s). split_and!; [done|congruence|congruence|lia|lia].
  - by rewrite E2, E3.
Qed.

Lemma wf_delete h c : wf c -> wf (set_sessions (delete h (sessions c)) c).
Proof.
  intros [Hn Hm Hs]. split; simpl; [done| |].
  - intros h' l Hl. apply lookup_delete_Some in Hl as [_ Hl]. by apply Hm.
  - etrans; [|exact Hs]. apply inj_le, map_subseteq_size, delete_subseteq.
Qed.

Lemma wf_remove h cause c : wf c -> wf (removeLocked h cause c).
Proof.
  intros Hw. unfold removeLocked. destruct (sessions c !! h) as [l|]; [|done].
  apply wf_update; [auto with flick|]. by apply wf_delete.
Qed.

Lemma wf_remove_all hs cause c : wf c -> wf (remove_all hs cause c).
Proof. revert c. induction hs as [|h hs IH]; intros c Hw; simpl; [done|]. by apply IH, wf_remove. Qed.

Lemma find_session_Some h c l s : find_session h c = Some (l, s) <-> sessions c !! h = Some l /\ heap c !! l = Some s.
Proof.
  unfold find_session. destruct (sessions c !! h) as [l'|]; simpl; [|naive_solver].
  destruct (heap c !! l') eqn:E; simpl; naive_solver.
Qed.

Lemma find_session_None h c : wf c -> find_session h c = None -> sessions c !! h = None.
Proof.
  intros Hw. unfold find_session. destruct (sessions c !! h) as [l|] eqn:E; [|done]. simpl.
  destruct (wf_map c Hw h l E) as (s & -> & _). done.
Qed.

(** Setting a session no code names. *)
Lemma wf_set_unnamed l s c :
  wf c -> is_Some (heap c !! l) -> (forall h, sessions c !! h <> Some l) -> wf (set_session l s c).
Proof.
  intros [Hn Hm Hs] [s0 Hl] Hno. split; simpl; [| |done].
  - intros l' s'. destruct (decide (l = l')) as [<-|]; [intros _; by eapply Hn|]. rewrite lookup_insert_ne by done. apply Hn.
  - intros h l' Hh. destruct (decide (l = l')) as [<-|]; [by destruct (Hno h)|]. rewrite lookup_insert_ne by done. by apply Hm.
Qed.

Lemma map_injective c h h' l : wf c -> sessions c !! h = Some l -> sessions c !! h' = Some l -> h = h'.
Proof.
  intros Hw H1 H2. destruct (wf_map c Hw h l H1) as (s & E & <- & _), (wf_map c Hw h' l H2) as (s' & E' & <- & _). congruence.
Qed.

Lemma pick_code_fresh tries draw i c code : pick_code tries draw i c = inr code -> sessions c !! sha256 code = None.
Proof.
  revert i. induction tries as [|n IH]; intros i; cbn [pick_code]; [done|].
  destruct (GenerateCode (draw i)) as [e|x]; [done|]. case_bool_decide; [by intros [= <-]|apply IH].
Qed.

Lemma wf_Init draw slt t c : wf c -> wf (Init draw slt t c).2.
Proof.
  intros Hw. unfold Init. destruct (Z.leb_spec (maxConcurrent c) (Z.of_nat (size (sessions c)))); [done|].
  destruct (pick_code 10 draw 0 c) as [e|code] eqn:Ep; [done|]. destruct slt as [x|]; [|done].
  apply pick_code_fresh in Ep. destruct Hw as [Hn Hm Hs]. unfold add_session. cbn [snd codeHash new_session]. split; simpl.
  - intros l s. destruct (decide (next_loc c = l)) as [<-|]; [lia|]. rewrite lookup_insert_ne by done.
    intros Hl. apply Hn in Hl. lia.
  - intros h l. destruct (decide (sha256 code = h)) as [<-|].
    + rewrite lookup_insert_eq. intros [= <-]. rewrite lookup_insert_eq. eexists. split_and!; [done|done|done|simpl; lia..].
    + rewrite lookup_insert_ne by done. intros Hl. destruct (Hm h l Hl) as (s & Hh & ?).
      exists s. rewrite lookup_insert_ne; [done|]. intros <-. apply Hn in Hh. lia.
  - rewrite map_size_insert_None by done. lia.
Qed.

Lemma wf_receive raw c : wf c -> wf (receive_connect raw c).2.
Proof.
  intros Hw. unfold receive_connect. destruct (NormalizeCode raw) as [e|code]; [done|].
  destruct (find_session _ c) as [[l s]|] eqn:E; [|done]. apply find_session_Some in E as [_ E].
  destruct (burned s); [done|]. destruct (receiverReady s); [done|]. cbn [snd].
  rewrite (set_session_update l s connect_receiver) by done. apply wf_update; auto with flick.
Qed.

Lemma wf_send raw meta c : wf c -> wf (send_connect raw meta c).2.
Proof.
  intros Hw. unfold send_connect. destruct (NormalizeCode raw) as [e|code]; [done|].
  destruct (find_session _ c) as [[l s]|] eqn:E; [|done]. apply find_session_Some in E as [_ E].
  destruct (burned s); [done|]. cbn [set_metadata senderReady]. destruct (senderReady s); cbn [snd].
  - rewrite (set_session_update l s (set_metadata meta)) by done. apply wf_update; auto with flick.
  - rewrite (set_session_update l s (fun s => connect_sender (set_metadata meta s))) by done. apply wf_update; auto with flick.
Qed.

Lemma wf_failed raw c : wf c -> wf (RecordFailedAttempt raw c).2.
Proof.
  intros Hw. unfold RecordFailedAttempt. destruct (NormalizeCode raw) as [e|code]; [done|].
  destruct (find_session _ c) as [[l s]|] eqn:E; [|done]. apply find_session_Some in E as [Eh E].
  destruct (wf_map c Hw _ _ Eh) as (s0 & E0 & Hc & Hb & Ha). assert (s0 = s) as -> by congruence. clear E0.
  cbn [count_failure failedAttempts]. destruct (Z.leb_spec 3 (failedAttempts s + 1)); cbn [snd].
  - unfold removeLocked. cbn [sessions set_session]. rewrite Eh. apply wf_update; [auto with flick|].
    change (set_sessions (delete (sha256 code) (sessions c)) (set_session l (count_failure s) c))
      with (set_session l (count_failure s) (set_sessions (delete (sha256 code) (sessions c)) c)).
    apply wf_set_unnamed; [by apply wf_delete|by exists s|]. simpl. intros h [Hne Hl]%lookup_delete_Some.
    apply Hne. by eapply map_injective.
  - destruct Hw as [Hn Hm Hs]. split; simpl; [| |done].
    + intros l' s'. destruct (decide (l = l')) as [<-|]; [intros _; by eapply Hn|]. rewrite lookup_insert_ne by done. apply Hn.
    + intros h l' Hl. destruct (decide (l = l')) as [<-|].
      * rewrite lookup_insert_eq. eexists. split; [done|]. simpl. destruct (Hm h l Hl) as (s1 & E1 & <- & _).
        assert (s1 = s) as -> by congruence. rewrite (proj2 (Z.leb_gt 3 _)) by lia. split_and!; [done|done|lia|lia].
      * rewrite lookup_insert_ne by done. by apply Hm.
Qed.

Lemma wf_Close c : wf c -> wf (Close c).
Proof.
  intros Hw. unfold Close. destruct (stopped c); [done|]. apply wf_remove_all. by destruct Hw as [? ? ?].
Qed.

Lemma wf_move t c t' c' : wf c -> move t c = Some (t', c') -> wf c'.
Proof.
  intros Hw H. destruct t; simplify_eq/=; try (by apply wf_remove); apply wf_update; auto with flick.
Qed.

Lemma wf_step r r' : step r r' -> wf (coord r) -> wf (coord r').
Proof.
  intros H Hw. destruct H; simpl in *.
  - by apply wf_Init.
  - by apply wf_receive.
  - by apply wf_send.
  - done.
  - rewrite (set_session_update l s (fun s => (send_case l hash s k).2)) by done. apply wf_update; [|done].
    intros s'. by destruct k.
  - by eapply wf_move.
  - destruct copyErr; apply wf_update; auto with flick.
  - by apply wf_failed.
  - by apply wf_remove_all.
  - by apply wf_Close.
Qed.

(** ** One receiver and one sender per session *)
Definition receives (t : thread) : option loc :=
  match t with
  | RWaiting l _ | RStreaming l _ _ _ | RCleanup l _ _ | RClosing l _ _ | RFinished l _ => Some l
  | _ => None
  end.
Definition sends (t : thread) : option loc :=
  match t with SWaiting l _ | SCopying l _ | SBurning l _ _ | SFinished l _ => Some l | _ => None end.

Definition flag (f : Session -> bool) (c : Coordinator) (l : loc) : bool :=
  match heap c !! l with Some s => f s | None => false end.

(** The callers of one side, finished ones included, and the sessions whose
    channel of that side is closed, match one to one. *)
Record paired (who : thread -> option loc) (f : Session -> bool) (c : Coordinator) (ts : gmap nat thread) : Prop := {
  pd_flag : forall l, flag f c l = true <-> exists tid t, ts !! tid = Some t /\ who t = Some l;
  pd_one : forall t1 t2 a b l, ts !! t1 = Some a -> ts !! t2 = Some b -> who a = Some l -> who b = Some l -> t1 = t2;
}.

(** Neither channel of any session changes. *)
Definition calm (c c' : Coordinator) : Prop :=
  (forall l, flag receiverReady c' l = flag receiverReady c l) /\ (forall l, flag senderReady c' l = flag senderReady c l) /\
  (forall l s, heap c !! l = Some s -> exists s', heap c' !! l = Some s' /\ salt s' = salt s).
#[export] Instance calm_preorder : PreOrder calm.
Proof.
  split.
  - intros c. split_and!; [done|done|eauto].
  - intros c1 c2 c3 (A1 & A2 & A3) (B1 & B2 & B3). split_and!; [congruence|congruence|].
    intros l s Hs. destruct (A3 l s Hs) as (s2 & H2 & E2), (B3 l s2 H2) as (s3 & H3 & E3). exists s3. split; congruence.
Qed.

Lemma flag_update f g l c l' :
  (forall s, f (g s) = f s) -> flag f (update_session l g c) l' = flag f c l'.
Proof.
  intros Hg. unfold flag. rewrite update_session_heap. destruct (decide (l = l')); [|done].
  destruct (heap c !! l'); simpl; [apply Hg|done].
Qed.

Lemma calm_update l g c :
  inert g -> (forall s, receiverReady (g s) = receiverReady s) -> (forall s, senderReady (g s) = senderReady s) ->
  calm c (update_session l g c).
Proof.
  intros Hi H1 H2. split_and!; [intros; by apply flag_update..|].
  intros l' s Hs. rewrite update_session_heap, Hs. destruct (decide (l = l')); [|eauto].
  exists (g s). split; [done|]. by destruct (Hi s) as (_ & _ & _ & ? & _).
Qed.

Lemma close_session_flags cause s :
  receiverReady (close_session cause s) = receiverReady s /\ senderReady (close_session cause s) = senderReady s.
Proof. unfold close_session. by destruct (done_ s). Qed.

Lemma calm_close l cause c : calm c (update_session l (close_session cause) c).
Proof. apply calm_update; [auto with flick|..]; intros s; apply close_session_flags. Qed.

Lemma calm_remove h cause c : calm c (removeLocked h cause c).
Proof.
  unfold removeLocked. destruct (sessions c !! h) as [l|]; [|reflexivity].
  etrans; [|apply calm_close]. split_and!; [done|done|eauto].
Qed.
Lemma calm_remove_all hs cause c : calm c (remove_all hs cause c).
Proof. revert c. induction hs as [|h hs IH]; intros c; simpl; [reflexivity|]. etrans; [apply calm_remove|apply IH]. Qed.

Lemma calm_Init draw slt t c : wf c -> calm c (Init draw slt t c).2.
Proof.
  intros Hw. unfold Init. destruct (_ <=? _); [reflexivity|]. destruct (pick_code _ _ _ _) as [e|code]; [reflexivity|].
  destruct slt as [x|]; [|reflexivity]. unfold add_session, calm, flag. cbn [snd heap].
  assert (Hn : heap c !! next_loc c = None).
  { destruct (heap c !! next_loc c) as [s|] eqn:E; [|done]. apply (wf_next c Hw) in E. lia. }
  split_and!; intros l.
  1, 2: destruct (decide (next_loc c = l)) as [<-|]; [by rewrite lookup_insert_eq, Hn|by rewrite lookup_insert_ne].
  intros s Hs. exists s. split; [|done]. rewrite lookup_insert_ne; [done|]. congruence.
Qed.

Lemma calm_failed raw c : calm c (RecordFailedAttempt raw c).2.
Proof.
  unfold RecordFailedAttempt. destruct (NormalizeCode raw) as [e|code]; [reflexivity|].
  destruct (find_session _ c) as [[l s]|] eqn:E; [|reflexivity]. apply find_session_Some in E as [_ E].
  assert (Hc : calm c (set_session l (count_failure s) c)).
  { unfold calm, flag. cbn [heap set_session]. split_and!; intros l'.
    1, 2: destruct (decide (l = l')) as [<-|]; [by rewrite lookup_insert_eq, E|by rewrite lookup_insert_ne].
    intros s' Hs'. destruct (decide (l = l')) as [<-|]; [rewrite lookup_insert_eq|rewrite lookup_insert_ne by done; eauto].
    eexists. split; [done|]. simpl. congruence. }
  destruct (_ <=? _); cbn [snd]; [|exact Hc]. etrans; [exact Hc|apply calm_remove].
Qed.

Lemma calm_Close c : calm c (Close c).
Proof.
  unfold Close. destruct (stopped c); [reflexivity|]. etrans; [|apply calm_remove_all]. split_and!; [done|done|eauto].
Qed.

Lemma calm_move t c t' c' : move t c = Some (t', c') -> calm c c' /\ receives t' = receives t /\ sends t' = sends t.
Proof.
  intros H. destruct t; simplify_eq/=; (split; [|done]); first [apply calm_remove|apply calm_close|by apply calm_update].
Qed.

(** A step that keeps the channels and every caller's session. *)
Lemma paired_calm who f c c' ts tid t t' :
  (forall l, flag f c' l = flag f c l) -> ts !! tid = Some t -> who t' = who t ->
  paired who f c ts -> paired who f c' (<[tid := t']> ts).
Proof.
  intros Hf Ht Hw [Hp H1].
  assert (Hl : forall t0 a l, <[tid := t']> ts !! t0 = Some a -> who a = Some l -> exists b, ts !! t0 = Some b /\ who b = Some l).
  { intros t0 a l. destruct (decide (tid = t0)) as [<-|]; [rewrite lookup_insert_eq|rewrite lookup_insert_ne by done; eauto].
    intros [= <-] Ha. exists t. split; [done|congruence]. }
  split.
  - intros l. rewrite Hf, Hp. split.
    + intros (t0 & a & Ha & Hwa). destruct (decide (tid = t0)) as [<-|].
      * exists tid, t'. rewrite lookup_insert_eq. split; [done|congruence].
      * exists t0, a. by rewrite lookup_insert_ne.
    + intros (t0 & a & Ha & Hwa). destruct (Hl _ _ _ Ha Hwa) as (b & Hb & Hwb). eauto.
  - intros t1 t2 a b l Ha Hb Hwa Hwb. destruct (Hl _ _ _ Ha Hwa) as (? & ? & ?), (Hl _ _ _ Hb Hwb) as (? & ? & ?).
    eapply H1; eauto.
Qed.

Lemma paired_same who f c c' ts : (forall l, flag f c' l = flag f c l) -> paired who f c ts -> paired who f c' ts.
Proof. intros Hf [Hp H1]. split; [|done]. intros l. by rewrite Hf. Qed.

(** A caller that closes the channel of a session joins. *)
Lemma paired_join who f c c' ts tid t l :
  ts !! tid = None -> who t = Some l -> flag f c l = false ->
  (forall l', flag f c' l' = if decide (l = l') then true else flag f c l') ->
  paired who f c ts -> paired who f c' (<[tid := t]> ts).
Proof.
  intros Hn Hw Hf Hf' [Hp H1].
  assert (Hno : forall t0 a, ts !! t0 = Some a -> who a = Some l -> False).
  { intros t0 a Ha Hwa. assert (flag f c l = true) by (apply Hp; eauto). congruence. }
  split.
  - intros l'. rewrite Hf'. destruct (decide (l = l')) as [<-|Hne].
    + split; [intros _|done]. exists tid, t. by rewrite lookup_insert_eq.
    + rewrite Hp. split.
      * intros (t0 & a & Ha & Hwa). exists t0, a. rewrite lookup_insert_ne; [done|]. congruence.
      * intros (t0 & a & Ha & Hwa). destruct (decide (tid = t0)) as [<-|].
        -- rewrite lookup_insert_eq in Ha. congruence.
        -- rewrite lookup_insert_ne in Ha by done. eauto.
  - intros t1 t2 a b l' Ha Hb Hwa Hwb.
    destruct (decide (tid = t1)) as [<-|], (decide (tid = t2)) as [<-|]; [done|..].
    + rewrite lookup_insert_eq in Ha. rewrite lookup_insert_ne in Hb by done. simplify_eq. exfalso. by eapply Hno.
    + rewrite lookup_insert_eq in Hb. rewrite lookup_insert_ne in Ha by done. simplify_eq. exfalso. by eapply Hno.
    + rewrite lookup_insert_ne in Ha, Hb by done. by eapply H1.
Qed.

(** A caller of the other side does not matter. *)
Lemma paired_other who f c ts tid t :
  ts !! tid = None -> who t = None -> paired who f c ts -> paired who f c (<[tid := t]> ts).
Proof.
  intros Hn Hw [Hp H1].
  assert (Hl : forall t0 a l, <[tid := t]> ts !! t0 = Some a -> who a = Some l -> ts !! t0 = Some a).
  { intros t0 a l. destruct (decide (tid = t0)) as [<-|]; [rewrite lookup_insert_eq|by rewrite lookup_insert_ne].
    intros [= <-]. congruence. }
  split; [|intros; eapply H1; eauto].
  intros l. rewrite Hp. split; intros (t0 & a & Ha & Hwa); exists t0, a; (split; [|done]).
  - rewrite lookup_insert_ne; [done|]. congruence.
  - by eapply Hl.
Qed.

(** A caller that got past its [select] has its peer; a receiver was given its
    session's salt. *)
Definition met (c : Coordinator) (t : thread) : Prop :=
  match t with
  | RStreaming l _ slt _ => flag senderReady c l = true /\ exists s, heap c !! l = Some s /\ salt s = slt
  | SCopying l _ => flag receiverReady c l = true
  | _ => True
  end.

Record inv (r : relay) : Prop := {
  inv_wf : wf (coord r);
  inv_receivers : paired receives receiverReady (coord r) (threads r);
  inv_senders : paired sends senderReady (coord r) (threads r);
  inv_met : map_Forall (fun _ => met (coord r)) (threads r);
}.

(** Channels only close, and salts are fixed. *)
Definition flags_le (c c' : Coordinator) : Prop :=
  (forall l, flag receiverReady c l = true -> flag receiverReady c' l = true) /\
  (forall l, flag senderReady c l = true -> flag senderReady c' l = true) /\
  (forall l s, heap c !! l = Some s -> exists s', heap c' !! l = Some s' /\ salt s' = salt s).
Lemma calm_flags_le c c' : calm c c' -> flags_le c c'.
Proof. intros (A & B & C). split_and!; [|by intros l; rewrite ?B|done]. intros l. by rewrite A. Qed.

Lemma met_le c c' t : flags_le c c' -> met c t -> met c' t.
Proof.
  intros (A & B & C). destruct t; simpl; try done; [|by apply A].
  intros [H1 (s & Hs & <-)]. split; [by apply B|]. destruct (C l s Hs) as (s' & ? & ?). eauto.
Qed.
Lemma met_all_le c c' (ts : gmap nat thread) : flags_le c c' -> map_Forall (fun _ => met c) ts -> map_Forall (fun _ => met c') ts.
Proof. intros H Hm tid t Ht. eapply met_le; [done|]. by apply (Hm tid). Qed.

Lemma inv_calm r c' ts' tid t t' :
  inv r -> calm (coord r) c' -> wf c' -> threads r !! tid = Some t -> ts' = <[tid := t']> (threads r) ->
  receives t' = receives t -> sends t' = sends t -> met c' t' -> inv (MkRelay c' ts').
Proof.
  intros [Hw Hr Hs Hm] Hc Hw' Ht -> E1 E2 Hmt. split; simpl; [done|..].
  - eapply paired_calm; [apply Hc|done|done|done].
  - eapply paired_calm; [apply Hc|done|done|done].
  - apply map_Forall_insert_2; [done|]. by eapply met_all_le; [apply calm_flags_le|].
Qed.

Lemma inv_still r c' : inv r -> calm (coord r) c' -> wf c' -> inv (MkRelay c' (threads r)).
Proof.
  intros [Hw Hr Hs Hm] Hc Hw'. split; simpl; [done|by eapply paired_same; [apply Hc|]..|].
  by eapply met_all_le; [apply calm_flags_le|].
Qed.

Lemma flag_set f l s c l' : flag f (set_session l s c) l' = if decide (l = l') then f s else flag f c l'.
Proof.
  unfold flag. simpl. destruct (decide (l = l')) as [<-|]; [by rewrite lookup_insert_eq|by rewrite lookup_insert_ne].
Qed.
Lemma flag_at f l s c : heap c !! l = Some s -> flag f c l = f s.
Proof. unfold flag. by intros ->. Qed.

Lemma flags_le_set l s s' c :
  heap c !! l = Some s -> (receiverReady s = true -> receiverReady s' = true) ->
  (senderReady s = true -> senderReady s' = true) -> salt s' = salt s -> flags_le c (set_session l s' c).
Proof.
  intros E H1 H2 H3. split_and!.
  1, 2: intros l'; rewrite flag_set; destruct (decide (l = l')) as [<-|]; [rewrite (flag_at _ _ _ _ E)|]; auto.
  intros l' s0 H0. simpl. destruct (decide (l = l')) as [<-|]; [rewrite lookup_insert_eq|rewrite lookup_insert_ne by done; eauto].
  exists s'. split; [done|congruence].
Qed.

Lemma inv_receive raw tid r :
  inv r -> threads r !! tid = None ->
  inv (MkRelay (receive_connect raw (coord r)).2 (connected RWaiting tid (receive_connect raw (coord r)).1 (threads r))).
Proof.
  intros Hi Hn. pose proof (wf_receive raw _ (inv_wf _ Hi)) as Hw'. unfold receive_connect in *.
  destruct (NormalizeCode raw) as [e|code]; [by destruct r|].
  destruct (find_session _ _) as [[l s]|] eqn:E; [|by destruct r]. apply find_session_Some in E as [_ E].
  destruct (burned s); [by destruct r|]. destruct (receiverReady s) eqn:Er; [by destruct r|]. cbn [fst snd connected] in *.
  destruct Hi as [Hw Hr Hs Hm]. split; simpl; [done|..].
  - eapply (paired_join _ _ (coord r) _ _ _ _ l); [done|done|by rewrite (flag_at _ _ _ _ E)| |done].
    intros l'. by rewrite flag_set.
  - apply paired_other; [done|done|]. eapply paired_same; [|done]. intros l'. rewrite flag_set.
    destruct (decide (l = l')) as [<-|]; [by rewrite (flag_at _ _ _ _ E)|done].
  - apply map_Forall_insert_2; [done|]. eapply met_all_le; [|done]. by eapply flags_le_set.
Qed.

Lemma inv_send raw meta tid r :
  inv r -> threads r !! tid = None ->
  inv (MkRelay (send_connect raw meta (coord r)).2 (connected SWaiting tid (send_connect raw meta (coord r)).1 (threads r))).
Proof.
  intros Hi Hn. pose proof (wf_send raw meta _ (inv_wf _ Hi)) as Hw'. unfold send_connect in *.
  destruct (NormalizeCode raw) as [e|code]; [by destruct r|].
  destruct (find_session _ _) as [[l s]|] eqn:E; [|by destruct r]. apply find_session_Some in E as [_ E].
  destruct (burned s); [by destruct r|]. cbn [set_metadata senderReady] in *.
  destruct (senderReady s) eqn:Er; cbn [fst snd connected] in *.
  { apply inv_still; [done| |done]. rewrite (set_session_update l s (set_metadata meta)) by done. by apply calm_update. }
  destruct Hi as [Hw Hr Hs Hm]. split; simpl; [done|..].
  - apply paired_other; [done|done|]. eapply paired_same; [|done]. intros l'. rewrite flag_set.
    destruct (decide (l = l')) as [<-|]; [by rewrite (flag_at _ _ _ _ E)|done].
  - eapply (paired_join _ _ (coord r) _ _ _ _ l); [done|done|by rewrite (flag_at _ _ _ _ E)| |done].
    intros l'. by rewrite flag_set.
  - apply map_Forall_insert_2; [done|]. eapply met_all_le; [|done]. by eapply flags_le_set.
Qed.

Lemma inv_step r r' : step r r' -> inv r -> inv r'.
Proof.
  intros H Hi. pose proof (wf_step _ _ H (inv_wf _ Hi)) as Hw'. destruct H; simpl in *.
  - apply (inv_still (MkRelay c ts)); [done|apply calm_Init; by destruct Hi|done].
  - by apply (inv_receive raw tid (MkRelay c ts)).
  - by apply (inv_send raw meta tid (MkRelay c ts)).
  - eapply (inv_calm (MkRelay c ts)); [done|reflexivity|done|done|done|by destruct k|by destruct k|].
    destruct k; simpl in *; try done. rewrite (flag_at _ _ _ _ H0). eauto.
  - rewrite (set_session_update l s (fun s => (send_case l hash s k).2)) in * by done.
    assert (Hc : calm c (update_session l (fun s => (send_case l hash s k).2) c)) by (apply calm_update; by destruct k).
    eapply (inv_calm (MkRelay c ts)); [done|exact Hc|done|done|done|by destruct k|by destruct k|].
    destruct k; simpl in *; try done. destruct Hc as [-> _]. by rewrite (flag_at _ _ _ _ H0).
  - destruct (calm_move _ _ _ _ H0) as (Hc & E1 & E2). eapply (inv_calm (MkRelay c ts)); try done.
    by destruct t; simplify_eq/=.
  - eapply (inv_calm (MkRelay c ts)); [done| |done|done|done|by destruct copyErr|by destruct copyErr|by destruct copyErr].
    destruct copyErr; by apply calm_update.
  - apply (inv_still (MkRelay c ts)); [done|apply calm_failed|done].
  - apply (inv_still (MkRelay c ts)); [done|apply calm_remove_all|done].
  - apply (inv_still (MkRelay c ts)); [done|apply calm_Close|done].
Qed.

Lemma inv_start opts : inv (MkRelay (NewCoordinator opts) ∅).
Proof.
  split; simpl; [apply wf_new|split..|apply map_Forall_empty]; try done; intros l; split; try done;
    by intros (? & ? & ? & _).
Qed.

Definition reachable (opts : CoordinatorOptions) (r : relay) : Prop := rtc step (MkRelay (NewCoordinator opts) ∅) r.
Lemma reachable_inv opts r : reachable opts r -> inv r.
Proof.
  intros H. unfold reachable in H. remember (MkRelay (NewCoordinator opts) ∅) as r0 eqn:E0.
  assert (Hi : inv r0) by (subst; apply inv_start). clear E0. induction H as [|r1 r2 r3 Hs _ IH]; [done|].
  apply IH. by eapply inv_step.
Qed.

(** ** Codes *)
Lemma decimal_byte a : (0x30 <=? byte_val a) && (byte_val a <=? 0x39) = true ->
  (48 <= Ascii.nat_of_ascii a <= 57)%nat.
Proof.
  intros [H1%Z.leb_le H2%Z.leb_le]%andb_true_iff. unfold byte_val in *. unfold Ascii.nat_of_ascii. lia.
Qed.

Lemma graphic_decimal s : decimal s = true -> graphic s.
Proof.
  induction s as [|a s IH]; [done|]. cbn [decimal]. intros [Ha Hs]%andb_true_iff. apply decimal_byte in Ha.
  split; [lia|auto].
Qed.

Lemma remove_byte_decimal c s : (Ascii.nat_of_ascii c < 48)%nat -> decimal s = true -> remove_byte c s = s.
Proof.
  intros Hc. induction s as [|a s IH]; [done|]. cbn [decimal]. intros [Ha Hs]%andb_true_iff. cbn [remove_byte].
  apply decimal_byte in Ha. destruct (Ascii.eqb_spec a c) as [->|]; [lia|]. by rewrite IH.
Qed.

Lemma NormalizeCode_graphic s code :
  graphic s -> remove_byte (Ascii.ascii_of_nat 45) s = code -> String.length code = 6%nat -> decimal code = true ->
  NormalizeCode s = inr code.
Proof.
  intros Hg E Hl Hd. unfold NormalizeCode. rewrite TrimSpace_graphic, E by done.
  rewrite (remove_byte_decimal (Ascii.ascii_of_nat 32)) by (done || (vm_compute; lia)). by rewrite Hl, Hd.
Qed.

Lemma NormalizeCode_decimal s : String.length s = 6%nat -> decimal s = true -> NormalizeCode s = inr s.
Proof.
  intros Hl Hd. apply NormalizeCode_graphic; [by apply graphic_decimal| |done|done].
  apply remove_byte_decimal; [vm_compute; lia|done].
Qed.

(** What [NormalizeCode] returns is six digits. *)
Lemma NormalizeCode_ok raw code : NormalizeCode raw = inr code -> String.length code = 6%nat /\ decimal code = true.
Proof.
  unfold NormalizeCode. destruct (_ || _) eqn:E; [done|]. intros [= <-].
  apply orb_false_iff in E as [E1%negb_false_iff E2%negb_false_iff]. by apply Nat.eqb_eq in E1.
Qed.

Lemma decimal_app s t : decimal (s +:+ t) = decimal s && decimal t.
Proof.
  induction s as [|a s IH]; [done|]. change (String.String a s +:+ t) with (String.String a (s +:+ t)).
  cbn [decimal]. by rewrite IH, andb_assoc.
Qed.

Lemma decimal_pad w n : decimal (pad w n) = true.
Proof.
  revert n. induction w as [|w IH]; intros n; [done|]. cbn [pad]. rewrite decimal_app, IH.
  pose proof (Z.mod_pos_bound n 10). cbn [decimal andb]. unfold byte_val, digit.
  assert (Hk : exists k, Z.to_nat (48 + n mod 10) = k /\ (48 <= k <= 57)%nat) by (eexists; split; [done|lia]).
  destruct Hk as (k & -> & Hk). rewrite ?andb_true_r. do 58 (destruct k as [|k]; [first [lia|done]|]). lia.
Qed.

(** The code as people write it. *)
Definition dashed (code : string) : string :=
  String.substring 0 3 code +:+ "-" +:+ String.substring 3 3 code.

Lemma NormalizeCode_dashed code :
  String.length code = 6%nat -> decimal code = true -> NormalizeCode (dashed code) = inr code.
Proof.
  intros Hl Hd. pose proof (graphic_decimal _ Hd) as Hg.
  destruct code as [|a0 [|a1 [|a2 [|a3 [|a4 [|a5 [|a6 r]]]]]]]; try done. apply NormalizeCode_graphic; [| |done|done].
  - destruct Hg as (? & ? & ? & ? & ? & ? & _). unfold dashed. simpl. split_and!; first [lia|done|vm_compute; lia].
  - cbn [decimal] in Hd. destruct_bools.
    assert (Hn : forall a, 0x30 <= byte_val a -> Ascii.eqb a (Ascii.ascii_of_nat 45) = false).
    { intros a Ha. destruct (Ascii.eqb_spec a (Ascii.ascii_of_nat 45)) as [->|]; [by vm_compute in Ha|done]. }
    unfold dashed. simpl. by rewrite !Hn.
Qed.

Lemma pick_code_shape tries draw i c code :
  pick_code tries draw i c = inr code -> String.length code = 6%nat /\ decimal code = true.
Proof.
  revert i. induction tries as [|n IH]; intros i; cbn [pick_code]; [done|].
  destruct (draw i) as [k|]; cbn [GenerateCode]; [|done]. case_bool_decide; [|apply IH]. intros E. assert (code = pad 6 (k + 100000)) as -> by congruence.
  split; [apply length_pad|apply decimal_pad].
Qed.

(** ** Removal *)
Lemma remove_sessions h cause c : sessions (removeLocked h cause c) = delete h (sessions c).
Proof.
  unfold removeLocked. destruct (sessions c !! h) as [l|] eqn:E; [|by rewrite delete_id].
  by destruct (update_session_rest l (close_session (CloseErr cause)) (set_sessions (delete h (sessions c)) c)) as (_ & -> & _).
Qed.

Lemma remove_all_sessions hs cause c h :
  sessions (remove_all hs cause c) !! h = if decide (h ∈ hs) then None else sessions c !! h.
Proof.
  revert c. induction hs as [|h' hs IH]; intros c; cbn [remove_all].
  { rewrite decide_False; [done|apply not_elem_of_nil]. }
  rewrite IH, remove_sessions. destruct (decide (h ∈ hs)) as [Hi|Hi].
  - rewrite decide_True; [done|by right].
  - destruct (decide (h' = h)) as [<-|Hne].
    + rewrite lookup_delete_eq, decide_True; [done|by left].
    + rewrite lookup_delete_ne by done. rewrite decide_False; [done|]. rewrite elem_of_cons. naive_solver.
Qed.

(** The heap: a removed session is closed, the others are untouched. *)
Lemma remove_heap h cause c l :
  heap (removeLocked h cause c) !! l =
    if bool_decide (sessions c !! h = Some l) then close_session (CloseErr cause) <$> heap c !! l else heap c !! l.
Proof.
  unfold removeLocked. destruct (sessions c !! h) as [l'|] eqn:E; [|done]. rewrite update_session_heap. simpl.
  destruct (decide (l' = l)) as [<-|]; [by rewrite bool_decide_true|]. rewrite bool_decide_false; [done|]. congruence.
Qed.

Lemma remove_all_closed hs cause c h l :
  wf c -> h ∈ hs -> sessions c !! h = Some l ->
  exists s, heap (remove_all hs cause c) !! l = Some s /\ done_ s = true.
Proof.
  assert (Hstay : forall hs c l s, heap c !! l = Some s -> done_ s = true ->
    exists s', heap (remove_all hs cause c) !! l = Some s' /\ done_ s' = true).
  { clear. induction hs as [|h hs IH]; intros c l s Hs Hd; cbn [remove_all]; [eauto|].
    apply (IH _ _ (if bool_decide (sessions c !! h = Some l) then close_session (CloseErr cause) s else s)).
    - rewrite remove_heap, Hs. by case_bool_decide.
    - case_bool_decide; [|done]. unfold close_session. by rewrite Hd. }
  revert c. induction hs as [|h' hs IH]; intros c Hw Hin Hl; [by apply not_elem_of_nil in Hin|]. cbn [remove_all].
  destruct (decide (h' = h)) as [->|Hne].
  - destruct (wf_map c Hw h l Hl) as (s & Hs & _). apply (Hstay _ _ _ (close_session (CloseErr cause) s)).
    + by rewrite remove_heap, bool_decide_true, Hs.
    + unfold close_session. by destruct (done_ s) eqn:E.
  - apply elem_of_cons in Hin as [->|Hin]; [done|]. apply IH; [by apply wf_remove|done|].
    rewrite remove_sessions. by rewrite lookup_delete_ne.
Qed.

Lemma remove_all_untouched hs cause c l :
  (forall h, h ∈ hs -> sessions c !! h <> Some l) -> heap (remove_all hs cause c) !! l = heap c !! l.
Proof.
  revert c. induction hs as [|h hs IH]; intros c Hno; cbn [remove_all]; [done|].
  rewrite IH.
  - rewrite remove_heap, bool_decide_false; [done|]. apply Hno. by left.
  - intros h' Hh'. rewrite remove_sessions. intros [_ Hl]%lookup_delete_Some. apply (Hno h'); [by right|done].
Qed.

Lemma expired_hashes_spec now c h :
  wf c -> h ∈ expired_hashes now c <-> exists l s, sessions c !! h = Some l /\ heap c !! l = Some s /\ expiresAt s < now.
Proof.
  intros Hw. unfold expired_hashes. rewrite list_elem_of_fmap. split.
  - intros ([h' l] & -> & [Hp Hin]%list_elem_of_filter). simpl in *. apply elem_of_map_to_list in Hin.
    destruct (heap c !! l) as [s|] eqn:E; [|done]. apply before_true in Hp. eauto.
  - intros (l & s & Hl & Hs & Ht). exists (h, l). split; [done|]. apply list_elem_of_filter. split.
    + simpl. rewrite Hs. by apply before_true.
    + by apply elem_of_map_to_list.
Qed.

(** The limit is the configured one. *)
Lemma remove_limit hs cause c : maxConcurrent (remove_all hs cause c) = maxConcurrent c.
Proof.
  revert c. induction hs as [|h hs IH]; intros c; cbn [remove_all]; [done|]. rewrite IH. unfold removeLocked.
  destruct (sessions c !! h); [|done]. by rewrite (proj1 (proj2 (proj2 (update_session_rest _ _ _)))).
Qed.

Lemma step_limit r r' : step r r' -> maxConcurrent (coord r') = maxConcurrent (coord r).
Proof.
  assert (Hu : forall l f c, maxConcurrent (update_session l f c) = maxConcurrent c)
    by (intros; by destruct (update_session_rest l f c) as (_ & _ & -> & _)).
  assert (Hr : forall h e c, maxConcurrent (removeLocked h e c) = maxConcurrent c)
    by (intros h e c; exact (remove_limit [h] e c)).
  intros H. destruct H; simpl.
  - unfold Init. by repeat case_match.
  - unfold receive_connect. by repeat case_match.
  - unfold send_connect. by repeat case_match.
  - done.
  - done.
  - destruct t; simplify_eq/=; unfold burnSession; by rewrite ?Hu, ?Hr.
  - destruct copyErr; simpl; by rewrite Hu.
  - unfold RecordFailedAttempt. repeat case_match; simpl; by rewrite ?Hr.
  - apply remove_limit.
  - unfold Close. case_match; [done|]. by rewrite remove_limit.
Qed.

(** ** Theorems *)

(** C38: a code pairs one receiver with one sender.  In every state the relay
    can reach, however the calls interleave and whichever of them fail, two
    receiving calls that joined the same session are the same call, and so are
    two sending calls; a call that streams holds its session's salt, and
    exactly one sending call joined that session. *)
Theorem relay_pairs_once opts r t1 a :
  reachable opts r -> threads r !! t1 = Some a ->
  (forall t2 b l, threads r !! t2 = Some b -> receives a = Some l -> receives b = Some l -> t1 = t2) /\
  (forall t2 b l, threads r !! t2 = Some b -> sends a = Some l -> sends b = Some l -> t1 = t2) /\
  (forall l h slt meta, a = RStreaming l h slt meta ->
     (exists s, heap (coord r) !! l = Some s /\ salt s = slt) /\
     exists t2 b, threads r !! t2 = Some b /\ sends b = Some l).
Proof.
  intros [Hw Hr Hs Hm]%reachable_inv Ha. split_and!.
  - intros. by eapply (pd_one _ _ _ _ Hr).
  - intros. by eapply (pd_one _ _ _ _ Hs).
  - intros l h slt meta ->. specialize (Hm _ _ Ha). destruct Hm as [Hf Hsalt]. split; [done|].
    by apply (pd_flag _ _ _ _ Hs).
Qed.

(** the relay is bounded.  In every reachable state the number of sessions
    is at most the configured maximum, every code in use names a session of
    its own that is not burned and has fewer than three failures, and [Init]
    fails for lack of capacity exactly when the maximum is reached. *)
Theorem relay_bounded opts r draw slt t :
  reachable opts r ->
  ActiveSessions (coord r) <= maxConcurrent (NewCoordinator opts) /\
  (forall h l, sessions (coord r) !! h = Some l ->
     (exists s, heap (coord r) !! l = Some s /\ burned s = false /\ failedAttempts s < 3) /\
     forall h', sessions (coord r) !! h' = Some l -> h' = h) /\
  ((Init draw slt t (coord r)).1 = inl ErrCapacityExceeded <-> ActiveSessions (coord r) = maxConcurrent (NewCoordinator opts)).
Proof.
  intros H. pose proof (reachable_inv _ _ H) as [Hw _ _ _].
  assert (El : maxConcurrent (coord r) = maxConcurrent (NewCoordinator opts)).
  { unfold reachable in H. remember (MkRelay (NewCoordinator opts) ∅) as r0 eqn:E0.
    assert (E : maxConcurrent (coord r0) = maxConcurrent (NewCoordinator opts)) by (by subst).
    rewrite <- E. clear E0 E Hw. induction H as [|r1 r2 r3 Hs _ IH]; [done|]. by rewrite IH, (step_limit _ _ Hs). }
  pose proof (wf_size _ Hw) as Hsz. unfold ActiveSessions. rewrite <- El. split_and!; [done| |].
  - intros h l Hl. destruct (wf_map _ Hw h l Hl) as (s & ? & ? & ? & ?). split; [exists s; split_and!; [done|done|lia]|].
    intros h' Hl'. by eapply map_injective.
  - unfold Init. destruct (Z.leb_spec (maxConcurrent (coord r)) (Z.of_nat (size (sessions (coord r))))).
    + split; [intros _; lia|done].
    + split; [|lia]. assert (Hp : forall n i, pick_code n draw i (coord r) <> inl ErrCapacityExceeded).
      { induction n as [|n IH]; intros i; cbn [pick_code]; [done|]. destruct (draw i); cbn [GenerateCode]; [|done].
        case_bool_decide; [done|apply IH]. }
      specialize (Hp 10%nat 0%nat). destruct (pick_code 10 draw 0 (coord r)) as [e|code]; [|by destruct slt].
      cbn [fst]. congruence.
Qed.

(** the code that [Init] hands out connects.  It was not in use, reads the
    same when it is typed with a dash in the middle, and the receiver and the
    sender that present it are both connected to the new session. *)
Theorem init_code_connects draw slt t c code x n c' meta :
  Init draw slt t c = (inr (code, x, n), c') ->
  sessions c !! sha256 code = None /\ NormalizeCode code = inr code /\ NormalizeCode (dashed code) = inr code /\
  exists l, (receive_connect (dashed code) c').1 = inr (l, sha256 code) /\
    (send_connect code meta (receive_connect (dashed code) c').2).1 = inr (l, sha256 code).
Proof.
  unfold Init. destruct (_ <=? _); [done|]. destruct (pick_code 10 draw 0 c) as [e|y] eqn:Ep; [done|].
  destruct slt as [z|]; [|done]. intros E. assert (y = code /\ z = x) as [-> ->] by (split; congruence).
  assert (Ec : c' = add_session (new_session (sha256 code) x t c) c) by congruence. subst c'. clear E.
  pose proof (pick_code_fresh _ _ _ _ _ Ep) as Hf. apply pick_code_shape in Ep as [Hl Hd].
  pose proof (NormalizeCode_decimal _ Hl Hd) as N1. pose proof (NormalizeCode_dashed _ Hl Hd) as N2.
  split_and!; [done..|]. exists (next_loc c). unfold receive_connect, send_connect. rewrite N1, N2.
  set (s := new_session (sha256 code) x t c) in *.
  assert (E1 : find_session (sha256 code) (add_session s c) = Some (next_loc c, s)).
  { apply find_session_Some. unfold add_session. simpl. by rewrite !lookup_insert_eq. }
  rewrite E1. cbn [burned receiverReady new_session s fst snd]. split; [done|].
  assert (E2 : find_session (sha256 code) (set_session (next_loc c) (connect_receiver s) (add_session s c)) =
    Some (next_loc c, connect_receiver s)).
  { apply find_session_Some. unfold add_session, set_session. simpl. by rewrite !lookup_insert_eq. }
  rewrite E2. done.
Qed.

(** The cleaner is exact.  After [cleanExpired] a code names a session
    exactly if it did before and the session has not expired; a removed session
    is closed, so that both its callers are released, and the sessions still
    named are untouched. *)
Theorem cleaner_exact now c :
  wf c ->
  (forall h l, sessions (cleanExpired now c) !! h = Some l <->
     sessions c !! h = Some l /\ exists s, heap c !! l = Some s /\ now <= expiresAt s) /\
  (forall h l, sessions c !! h = Some l ->
     match sessions (cleanExpired now c) !! h with
     | Some _ => heap (cleanExpired now c) !! l = heap c !! l
     | None => exists s, heap (cleanExpired now c) !! l = Some s /\ done_ s = true
     end).
Proof.
  intros Hw. unfold cleanExpired. split.
  - intros h l. rewrite remove_all_sessions. destruct (decide (h ∈ expired_hashes now c)) as [Hi|Hi].
    + split; [done|]. intros (Hl & s & Hs & Ht). apply expired_hashes_spec in Hi as (l' & s' & Hl' & Hs' & Ht'); [|done].
      assert (l' = l) as -> by congruence. assert (s' = s) as -> by congruence. lia.
    + split; [|by intros [? _]]. intros Hl. split; [done|]. destruct (wf_map c Hw h l Hl) as (s & Hs & _). exists s. split; [done|].
      destruct (Z.le_gt_cases now (expiresAt s)); [done|]. destruct Hi. apply expired_hashes_spec; [done|]. eauto 10.
  - intros h l Hl. rewrite remove_all_sessions. destruct (decide (h ∈ expired_hashes now c)) as [Hi|Hi].
    + by eapply remove_all_closed.
    + rewrite Hl. apply remove_all_untouched. intros h' Hh' Hl'. apply Hi.
      by rewrite (map_injective c h h' l).
Qed.

(** Recording a refused receive changes the coordinator only if the code was
    right and its receiver already connected. *)
Lemma refused_receive_counts raw c e :
  wf c -> (receive_connect raw c).1 = inl e -> (RecordFailedAttempt raw c).2 <> c ->
  e = ErrAlreadyConnected /\ exists code l s, NormalizeCode raw = inr code /\
    find_session (sha256 code) c = Some (l, s) /\ receiverReady s = true.
Proof.
  intros Hw. unfold receive_connect, RecordFailedAttempt. destruct (NormalizeCode raw) as [e'|code]; [done|].
  destruct (find_session (sha256 code) c) as [[l s]|] eqn:E; [|done].
  assert (Hb : burned s = false).
  { apply find_session_Some in E as [Eh El]. destruct (wf_map c Hw _ _ Eh) as (s' & Es & _ & Hb & _). congruence. }
  rewrite Hb. destruct (receiverReady s) eqn:Er; [|done]. cbn [fst]. intros [= <-] _. split; [done|]. eauto 10.
Qed.

(** a rejected sender still replaces the metadata.  When a second sender
    presents the code of a session that already has one, [Send] refuses it with
    [ErrAlreadyConnected], and from then on the session carries the second
    sender's kind and filename, which are what a receiver is given. *)
Theorem rejected_sender_overwrites raw code meta c l s now :
  NormalizeCode raw = inr code -> find_session (sha256 code) c = Some (l, s) -> burned s = false -> senderReady s = true ->
  exists c' s', send_connect raw meta c = (inl ErrAlreadyConnected, c') /\ find_session (sha256 code) c' = Some (l, s') /\
    case_enabled (senderReady s') now s' PeerReady = true /\
    receive_case l (sha256 code) s' PeerReady = RStreaming l (sha256 code) (salt s) meta.
Proof.
  intros Hn Hf Hb Hs. exists (set_session l (set_metadata meta s) c), (set_metadata meta s).
  unfold send_connect. rewrite Hn, Hf, Hb. cbn [senderReady set_metadata]. rewrite Hs. split_and!; [done| |done|].
  - apply find_session_Some in Hf as [Hh Hl]. apply find_session_Some. simpl. by rewrite lookup_insert_eq.
  - by destruct meta.
Qed.

(** ** Witnesses: a session, its two parties and an intruder *)
Module RelayWitness.
Definition opts : CoordinatorOptions := MkCoordinatorOptions 1 0 0 0.
Definition draw (i : nat) : option Z := Some (23456 + Z.of_nat i).
Definition code : string := "123456".
Definition salt16 : string := "0123456789abcdef".
Definition meta : SessionMetadata := MkMeta "file" "name".
Definition intruder : SessionMetadata := MkMeta "text" "".
Definition r0 : relay := MkRelay (NewCoordinator opts) ∅.
Definition r1 : relay := MkRelay (Init draw (Some salt16) 0 (coord r0)).2 (threads r0).
Definition r2 : relay :=
  MkRelay (receive_connect "123-456" (coord r1)).2 (connected RWaiting 1 (receive_connect "123-456" (coord r1)).1 (threads r1)).
Definition r3 : relay :=
  MkRelay (send_connect code meta (coord r2)).2 (connected SWaiting 2 (send_connect code meta (coord r2)).1 (threads r2)).
Definition no_session : Session := MkSession "" "" 0 0 0 false "" "" false false false None None.
Definition session (r : relay) : Session := default no_session (heap (coord r) !! 0%nat).
Definition streaming : thread := receive_case 0 (sha256 code) (session r3) PeerReady.
Definition r4 : relay := MkRelay (coord r3) (<[1%nat := streaming]> (threads r3)).

Lemma r4_reachable : reachable opts r4.
Proof.
  apply rtc_l with r1; [exact (step_init draw (Some salt16) 0 (coord r0) (threads r0))|].
  apply rtc_l with r2; [by apply (step_receive "123-456" 1 (coord r1) (threads r1))|].
  apply rtc_l with r3; [apply (step_send code meta 2 (coord r2) (threads r2)); by vm_compute|].
  apply rtc_l with r4; [|apply rtc_refl].
  apply (step_receive_case PeerReady 0 1 0 (sha256 code) (session r3) (coord r3) (threads r3)); by vm_compute.
Qed.

Lemma relay_pairs_once_witness :
  threads r4 !! 1%nat = Some (RStreaming 0 (sha256 code) salt16 meta) /\
  exists t2 b, threads r4 !! t2 = Some b /\ sends b = Some 0%nat.
Proof.
  assert (E : threads r4 !! 1%nat = Some (RStreaming 0 (sha256 code) salt16 meta)) by (by vm_compute).
  split; [exact E|].
  destruct (relay_pairs_once opts r4 1 (RStreaming 0 (sha256 code) salt16 meta) r4_reachable E) as (_ & _ & H).
  by destruct (H _ _ _ _ eq_refl) as [_ ?].
Defined.

Lemma relay_bounded_witness :
  ActiveSessions (coord r4) = 1 /\ (Init draw (Some salt16) 5 (coord r4)).1 = inl ErrCapacityExceeded.
Proof.
  assert (E : ActiveSessions (coord r4) = 1) by (by vm_compute).
  split; [exact E|]. apply (relay_bounded opts r4 draw (Some salt16) 5 r4_reachable). exact E.
Defined.

Lemma init_code_connects_witness :
  NormalizeCode (dashed code) = inr code.
Proof.
  apply (init_code_connects draw (Some salt16) 0 (coord r0) code salt16 180 (coord r1) meta). by vm_compute.
Defined.

Lemma cleaner_exact_witness :
  sessions (cleanExpired (200 * Second) (coord r4)) !! sha256 code = None /\
  exists s, heap (cleanExpired (200 * Second) (coord r4)) !! 0%nat = Some s /\ done_ s = true.
Proof.
  destruct (cleaner_exact (200 * Second) (coord r4) (inv_wf _ (reachable_inv _ _ r4_reachable))) as [_ H].
  assert (E : sessions (cleanExpired (200 * Second) (coord r4)) !! sha256 code = None) by (by vm_compute).
  split; [exact E|]. specialize (H (sha256 code) 0%nat ltac:(by vm_compute)). rewrite E in H. exact H.
Defined.

Lemma rejected_sender_overwrites_witness :
  exists c' s', send_connect code intruder (coord r3) = (inl ErrAlreadyConnected, c') /\
    receive_case 0 (sha256 code) s' PeerReady = RStreaming 0 (sha256 code) salt16 intruder.
Proof.
  destruct (rejected_sender_overwrites code code intruder (coord r3) 0 (session r3) 0) as (c' & s' & H1 & _ & _ & H4);
    [by vm_compute..|].
  exists c', s'. split; [exact H1|]. rewrite H4. by vm_compute.
Defined.
End RelayWitness.
