(* ===== verification/PipeLifetimes.v ===== *)
(** * The life of a rendezvous session

    A code names a session from the [Init] that drew it until its removal, and
    never names it again; a receiving call that has ended has left its session
    unnamed.  PipeHttp.v uses this to say which session a failed attempt,
    recorded in a critical section of its own, can fall on. *)

From S2P Require Import Prelude GoStrings World GoTime Codec PipeRelay PipeRelayProofs.

Definition named (c : Coordinator) (l : loc) : Prop := exists h, sessions c !! h = Some l.

(** What every critical section keeps: a code comes to name only new sessions,
    and a session keeps its code and its closed receiver channel. *)
Record ages (c c' : Coordinator) : Prop := {
  ag_next : (next_loc c <= next_loc c')%nat;
  ag_map : forall h l, sessions c' !! h = Some l -> sessions c !! h = Some l \/ (next_loc c <= l)%nat;
  ag_heap : forall l s, heap c !! l = Some s -> exists s', heap c' !! l = Some s' /\ codeHash s' = codeHash s /\
    (receiverReady s = true -> receiverReady s' = true);
}.
#[export] Instance ages_preorder : PreOrder ages.
Proof.
  split.
  - intros c. split; eauto.
  - intros c1 c2 c3 [A1 A2 A3] [B1 B2 B3]. split; [lia| |].
    + intros h l Hl. destruct (B2 h l Hl) as [H|H]; [by apply A2|right; lia].
    + intros l s Hs. destruct (A3 l s Hs) as (s2 & H2 & E2 & R2), (B3 l s2 H2) as (s3 & H3 & E3 & R3).
      exists s3. split_and!; [done|congruence|auto].
Qed.

Lemma ages_unnamed c c' l : ages c c' -> (l < next_loc c)%nat -> ~ named c l -> ~ named c' l.
Proof. intros [_ Hm _] Hl Hn [h Hh]. destruct (Hm h l Hh) as [H|H]; [apply Hn; by exists h|lia]. Qed.

(** An update that keeps the code and the channels, and one that also keeps
    whether the session is closed. *)
Definition keeps (f : Session -> Session) : Prop :=
  forall s, codeHash (f s) = codeHash s /\ (receiverReady s = true -> receiverReady (f s) = true).

Lemma ages_update l f c : keeps f -> ages c (update_session l f c).
Proof.
  intros Hf. destruct (update_session_rest l f c) as (E1 & E2 & _). split; [by rewrite E1|rewrite E2; auto|].
  intros l' s Hs. rewrite update_session_heap, Hs. destruct (decide (l = l')); [|eauto]. exists (f s). split; [done|]. apply Hf.
Qed.

Lemma keeps_close cause : keeps (close_session cause).
Proof. intros s. unfold close_session. by destruct (done_ s). Qed.

Lemma ages_delete h c : ages c (set_sessions (delete h (sessions c)) c).
Proof. split; simpl; [done| |eauto]. intros h' l [_ H]%lookup_delete_Some. by left. Qed.

Lemma ages_remove h cause c : ages c (removeLocked h cause c).
Proof.
  unfold removeLocked. destruct (sessions c !! h); [|reflexivity]. etrans; [apply ages_delete|]. apply ages_update, keeps_close.
Qed.

(** ** Which sections close a session that a code still names *)

(** Only what the sections of a coordinator need of its well-formedness. *)
Record sane (c : Coordinator) : Prop := {
  sn_next : forall l s, heap c !! l = Some s -> (l < next_loc c)%nat;
  sn_one : forall h h' l, sessions c !! h = Some l -> sessions c !! h' = Some l -> h = h';
}.
Lemma wf_sane c : wf c -> sane c.
Proof. intros Hw. split; [apply Hw|]. intros h h' l. by apply map_injective. Qed.

Lemma sane_update l f c : sane c -> sane (update_session l f c).
Proof.
  intros [Hn H1]. destruct (update_session_rest l f c) as (E1 & E2 & _). split; [|by rewrite E2].
  intros l' s'. rewrite update_session_heap, E1. destruct (decide (l = l')) as [<-|]; [|apply Hn].
  destruct (heap c !! l) as [s|] eqn:E; [|done]. intros _. by eapply Hn.
Qed.

(** A session closed since [c] is not named. *)
Definition closes_unnamed (c c' : Coordinator) : Prop :=
  forall l s', heap c' !! l = Some s' -> done_ s' = true ->
    (exists s, heap c !! l = Some s /\ done_ s = true) \/ ~ named c' l.

Lemma closes_refl c : closes_unnamed c c.
Proof. intros l s' H1 H2. eauto. Qed.
Lemma closes_trans c1 c2 c3 : sane c2 -> ages c2 c3 -> closes_unnamed c1 c2 -> closes_unnamed c2 c3 -> closes_unnamed c1 c3.
Proof.
  intros Hs Ha H12 H23 l s3 H3 D3. destruct (H23 l s3 H3 D3) as [(s2 & H2 & D2)|]; [|by right].
  destruct (H12 l s2 H2 D2) as [|Hn]; [by left|]. right. eapply ages_unnamed; [done| |done]. by eapply sn_next.
Qed.

Lemma closes_update l f c : (forall s, done_ (f s) = done_ s) -> closes_unnamed c (update_session l f c).
Proof.
  intros Hf l' s'. rewrite update_session_heap. destruct (decide (l = l')) as [<-|]; [|eauto].
  destruct (heap c !! l) as [s|]; [|done]. intros [= <-]. rewrite Hf. eauto.
Qed.

Lemma closes_remove h cause c : sane c -> closes_unnamed c (removeLocked h cause c).
Proof.
  intros Hc l s'. rewrite remove_heap. case_bool_decide as Hl; [|eauto]. intros _ _. right. intros [h' Hh'].
  rewrite remove_sessions in Hh'. apply lookup_delete_Some in Hh' as [Hne Hh']. apply Hne. by eapply sn_one.
Qed.

Lemma sane_remove h cause c : sane c -> sane (removeLocked h cause c).
Proof.
  intros Hc. unfold removeLocked. destruct (sessions c !! h); [|done]. apply sane_update. destruct Hc as [Hn H1].
  split; simpl; [done|]. intros h1 h2 l [_ A]%lookup_delete_Some [_ B]%lookup_delete_Some. by eapply H1.
Qed.

(** The two together, for the sections that close a session only when no code
    names it any more. *)
Definition tame (c c' : Coordinator) : Prop := ages c c' /\ closes_unnamed c c'.

Lemma tame_refl c : tame c c.
Proof. split; [reflexivity|apply closes_refl]. Qed.
Lemma tame_trans c1 c2 c3 : sane c2 -> tame c1 c2 -> tame c2 c3 -> tame c1 c3.
Proof. intros Hs [A1 C1] [A2 C2]. split; [by etrans|by eapply closes_trans]. Qed.
Lemma tame_update l f c : keeps f -> (forall s, done_ (f s) = done_ s) -> tame c (update_session l f c).
Proof. intros Hk Hd. split; [by apply ages_update|by apply closes_update]. Qed.
Lemma tame_set l s f c : heap c !! l = Some s -> keeps f -> (forall s, done_ (f s) = done_ s) -> tame c (set_session l (f s) c).
Proof. intros Hl Hk Hd. rewrite (set_session_update l s f) by done. by apply tame_update. Qed.
Lemma tame_remove h cause c : sane c -> tame c (removeLocked h cause c).
Proof. intros Hs. split; [apply ages_remove|by apply closes_remove]. Qed.
#[local] Hint Resolve tame_refl sane_remove : flick.

Lemma tame_remove_all hs cause c : sane c -> tame c (remove_all hs cause c).
Proof.
  revert c. induction hs as [|h hs IH]; intros c Hs; cbn [remove_all]; [apply tame_refl|].
  eapply tame_trans; [|by apply tame_remove|apply IH]; by apply sane_remove.
Qed.

Lemma tame_Init draw slt t c : wf c -> tame c (Init draw slt t c).2.
Proof.
  intros Hw. unfold Init. destruct (_ <=? _); [apply tame_refl|]. destruct (pick_code _ _ _ _) as [e|code]; [apply tame_refl|].
  destruct slt as [x|]; [|apply tame_refl]. cbn [snd]. split; [split|]; simpl; [lia| | |].
  - intros h l. destruct (decide (sha256 code = h)) as [<-|]; [rewrite lookup_insert_eq; intros [= <-]; by right|].
    rewrite lookup_insert_ne by done. by left.
  - intros l s Hl. exists s. split; [|done]. rewrite lookup_insert_ne; [done|]. intros <-. apply (wf_next c Hw) in Hl. lia.
  - intros l s'. simpl. destruct (decide (next_loc c = l)) as [<-|]; [rewrite lookup_insert_eq; by intros [= <-]|].
    rewrite lookup_insert_ne by done. eauto.
Qed.

Lemma tame_receive raw c : tame c (receive_connect raw c).2.
Proof.
  unfold receive_connect. destruct (NormalizeCode raw) as [?|code]; [apply tame_refl|].
  destruct (find_session _ c) as [[l s]|] eqn:E; [|apply tame_refl]. apply find_session_Some in E as [_ E].
  destruct (burned s); [apply tame_refl|]. destruct (receiverReady s); [apply tame_refl|]. by apply tame_set.
Qed.

Lemma tame_send raw meta c : tame c (send_connect raw meta c).2.
Proof.
  unfold send_connect. destruct (NormalizeCode raw) as [?|code]; [apply tame_refl|].
  destruct (find_session _ c) as [[l s]|] eqn:E; [|apply tame_refl]. apply find_session_Some in E as [_ E].
  destruct (burned s); [apply tame_refl|]. cbn [set_metadata senderReady].
  destruct (senderReady s); [by apply tame_set|by apply (tame_set l s (fun x => connect_sender (set_metadata meta x)))].
Qed.

Lemma tame_failed raw c : sane c -> tame c (RecordFailedAttempt raw c).2.
Proof.
  intros Hs. unfold RecordFailedAttempt. destruct (NormalizeCode raw) as [?|code]; [apply tame_refl|].
  destruct (find_session _ c) as [[l s]|] eqn:E; [|apply tame_refl]. apply find_session_Some in E as [_ E].
  assert (Ht : tame c (set_session l (count_failure s) c)) by by apply tame_set.
  assert (Hs' : sane (set_session l (count_failure s) c)) by (rewrite (set_session_update l s) by done; by apply sane_update).
  destruct (_ <=? _); [|exact Ht]. eapply tame_trans; [done|exact Ht|]. by apply tame_remove.
Qed.

Lemma tame_Close c : sane c -> tame c (Close c).
Proof.
  intros Hs. unfold Close. destruct (stopped c); [apply tame_refl|].
  eapply tame_trans; [| |apply tame_remove_all]; [by destruct Hs|split; [split; eauto|intros ?; eauto]|by destruct Hs].
Qed.

(** ** The receiving calls *)
Definition in_session (t : thread) : option (loc * string) :=
  match t with
  | RWaiting l hash | RStreaming l hash _ _ | RCleanup l hash _ | RClosing l hash _ => Some (l, hash)
  | _ => None
  end.

Definition hash_of (c : Coordinator) (l : loc) (hash : string) : Prop := exists s, heap c !! l = Some s /\ codeHash s = hash.
Definition ended (c : Coordinator) (l : loc) : Prop := (l < next_loc c)%nat /\ ~ named c l.

Lemma hash_ages c c' l hash : ages c c' -> hash_of c l hash -> hash_of c' l hash.
Proof. intros [_ _ Ha] (s & Hs & <-). destruct (Ha l s Hs) as (s' & ? & ? & _). by exists s'. Qed.
Lemma ended_ages c c' l : ages c c' -> ended c l -> ended c' l.
Proof. intros Ha [Hl Hn]. split; [destruct Ha; lia|by eapply ages_unnamed]. Qed.

(** A call carries its session's code; once it has ended, no code names the
    session it had. *)
Definition call_ok (c : Coordinator) (t : thread) : Prop :=
  (forall l hash, in_session t = Some (l, hash) -> hash_of c l hash) /\ (forall l res, t = RFinished l res -> ended c l).

(** A session is closed while a code names it only between the two sections of
    its receiver's [cleanup]. *)
Record lifetimes (r : relay) : Prop := {
  lt_calls : map_Forall (fun _ => call_ok (coord r)) (threads r);
  lt_done : forall l s, heap (coord r) !! l = Some s -> done_ s = true ->
    ~ named (coord r) l \/ exists tid hash res, threads r !! tid = Some (RClosing l hash res);
}.

Lemma call_ok_ages c c' t : ages c c' -> call_ok c t -> call_ok c' t.
Proof. intros Ha [H1 H2]. split; [intros; eapply hash_ages; eauto|intros; eapply ended_ages; eauto]. Qed.

(** A section of a call that is not closing. *)
Lemma lifetimes_call c c' ts tid t t' :
  sane c -> tame c c' -> ts !! tid = t ->
  (forall l hash res, t = Some (RClosing l hash res) -> ~ named c' l) -> call_ok c' t' ->
  lifetimes (MkRelay c ts) -> lifetimes (MkRelay c' (<[tid := t']> ts)).
Proof.
  intros Hs [Ha Hc] Ht Hcl Hok [H1 H2]. split; simpl in *.
  - apply map_Forall_insert_2; [done|]. intros tid' t0 H0. eapply call_ok_ages; [done|]. by apply (H1 tid').
  - intros l s' Hl Hd. destruct (Hc l s' Hl Hd) as [(s & Hs0 & Hd0)|]; [|by left].
    destruct (H2 l s Hs0 Hd0) as [Hn|(tid' & hash & res & H)].
    + left. eapply ages_unnamed; [done| |done]. by eapply sn_next.
    + destruct (decide (tid = tid')) as [<-|Hne]; [left; apply (Hcl l hash res); congruence|].
      right. exists tid', hash, res. by rewrite lookup_insert_ne.
Qed.

(** A section of the coordinator alone. *)
Lemma lifetimes_still c c' ts : sane c -> tame c c' -> lifetimes (MkRelay c ts) -> lifetimes (MkRelay c' ts).
Proof.
  intros Hs [Ha Hc] [H1 H2]. split; simpl in *.
  - intros tid t Ht. eapply call_ok_ages; [done|]. by apply (H1 tid).
  - intros l s' Hl Hd. destruct (Hc l s' Hl Hd) as [(s & Hs0 & Hd0)|]; [|by left].
    destruct (H2 l s Hs0 Hd0) as [Hn|]; [|by right]. left. eapply ages_unnamed; [done| |done]. by eapply sn_next.
Qed.

Lemma call_ok_other c t : in_session t = None -> (forall l res, t <> RFinished l res) -> call_ok c t.
Proof. intros Hn Hf. split; [congruence|]. intros l res ->. by destruct (Hf l res). Qed.

Lemma removed_unnamed h cause c l : wf c -> hash_of c l h -> ~ named (removeLocked h cause c) l.
Proof.
  intros Hw (s & Hs & Hh) [h' Hl]. rewrite remove_sessions in Hl. apply lookup_delete_Some in Hl as [Hne Hl].
  destruct (wf_map c Hw h' l Hl) as (s' & Hs' & Hh' & _). congruence.
Qed.

(** [cleanup]: its first section closes the session, its second unnames it. *)
Lemma lifetimes_cleanup l hash res c ts tid :
  sane c -> ts !! tid = Some (RCleanup l hash res) -> lifetimes (MkRelay c ts) ->
  lifetimes (MkRelay (update_session l (close_session CloseEOF) c) (<[tid := RClosing l hash res]> ts)).
Proof.
  intros Hs Ht [H1 H2]. assert (Ha : ages c (update_session l (close_session CloseEOF) c)) by apply ages_update, keeps_close.
  split; simpl in *.
  - apply map_Forall_insert_2.
    + destruct (H1 tid _ Ht) as [Hh _]. split; [|done]. intros l' h' [= <- <-]. eapply hash_ages; [done|]. by apply Hh.
    + intros tid' t H0. eapply call_ok_ages; [done|]. by apply (H1 tid').
  - intros l' s'. rewrite update_session_heap. destruct (decide (l = l')) as [<-|Hne].
    + intros _ _. right. exists tid, hash, res. by rewrite lookup_insert_eq.
    + intros Hl Hd. destruct (H2 l' s' Hl Hd) as [Hn|(tid' & h' & r' & H)].
      * left. eapply ages_unnamed; [done| |done]. by eapply sn_next.
      * right. exists tid', h', r'. rewrite lookup_insert_ne; [done|]. congruence.
Qed.

Lemma lifetimes_move tid t t' c c' ts :
  wf c -> ts !! tid = Some t -> move t c = Some (t', c') -> lifetimes (MkRelay c ts) ->
  lifetimes (MkRelay c' (<[tid := t']> ts)).
Proof.
  intros Hw Ht Hm Hl. pose proof (wf_sane _ Hw) as Hs. pose proof (lt_calls _ Hl tid _ Ht) as [Hh Hf]. simpl in Hh.
  destruct t; simplify_eq/=.
  - eapply lifetimes_call; [done|by apply tame_update|done|by intros ??? [=]| |done].
    split; [|done]. intros l' h' [= <- <-]. eapply hash_ages; [by apply ages_update|]. by apply Hh.
  - by apply lifetimes_cleanup.
  - assert (Hn : ~ named (burnSession hash c) l) by (apply removed_unnamed; [done|by apply Hh]).
    eapply lifetimes_call; [done|by apply tame_remove|done|by intros ??? [= <- _ _]| |done].
    split; [done|]. intros l' res' [= <- _]. split; [|done]. destruct (Hh l hash eq_refl) as (s & Hl' & _).
    pose proof (ag_next _ _ (ages_remove hash ErrSessionClosed c)). apply (wf_next c Hw) in Hl'. unfold burnSession. lia.
  - eapply lifetimes_call; [done|by apply tame_remove|done|by intros ??? [=]|by apply call_ok_other|done].
Qed.

Lemma lifetimes_receive_case k now tid l hash s c ts :
  inv (MkRelay c ts) -> ts !! tid = Some (RWaiting l hash) -> heap c !! l = Some s ->
  case_enabled (senderReady s) now s k = true -> lifetimes (MkRelay c ts) ->
  lifetimes (MkRelay c (<[tid := receive_case l hash s k]> ts)).
Proof.
  intros Hi Ht Hl Hk H. pose proof (wf_sane _ (inv_wf _ Hi)) as Hs. simpl in Hs.
  pose proof (lt_calls _ H tid _ Ht) as [Hh _]. simpl in Hh. specialize (Hh l hash eq_refl).
  eapply lifetimes_call; [done|apply tame_refl|done|by intros ??? [=]| |done].
  assert (Hlive : forall t, in_session t = Some (l, hash) -> (forall l res, t <> RFinished l res) -> call_ok c t).
  { intros t E Hf. split; [intros l' h'; rewrite E; by intros [= <- <-]|]. intros l' res ->. by destruct (Hf l' res). }
  destruct k; simpl in Hk |- *; try by apply Hlive.
  split; [done|]. intros l' res [= <- _]. split; [by eapply (sn_next c)|].
  destruct (lt_done _ H l s Hl Hk) as [|(tid' & h' & res' & H')]; [done|]. simpl in H'.
  pose proof (pd_one _ _ _ _ (inv_receivers _ Hi) tid tid' _ _ l Ht H' eq_refl eq_refl) as ->. congruence.
Qed.

Lemma lifetimes_step r r' : step r r' -> inv r -> lifetimes r -> lifetimes r'.
Proof.
  intros H Hi Hl. pose proof (inv_wf _ Hi) as Hw. pose proof (wf_sane _ Hw) as Hs. destruct H; simpl in *.
  - eapply lifetimes_still; [done|by apply tame_Init|done].
  - pose proof (tame_receive raw c) as Ht. revert Ht. unfold receive_connect. destruct (NormalizeCode raw) as [?|code]; [done|].
    destruct (find_session _ c) as [[l s]|] eqn:E; [|done]. apply find_session_Some in E as [Eh E].
    destruct (burned s); [done|]. destruct (receiverReady s); [done|]. cbn [fst snd connected]. intros Ht.
    eapply lifetimes_call; [done|exact Ht|done|by intros ??? [=]| |done]. split; [|done]. intros l' h' [= <- <-].
    destruct (wf_map c Hw _ _ Eh) as (s' & Es & Ec & _). eapply hash_ages; [apply Ht|]. by exists s'.
  - pose proof (tame_send raw meta c) as Ht. revert Ht. destruct (send_connect raw meta c) as [[e|[l hash]] c'].
    + cbn. intros Ht. by eapply lifetimes_still.
    + cbn. intros Ht. eapply lifetimes_call; [done|exact Ht|done|by intros ??? [=]|by apply call_ok_other|done].
  - by eapply lifetimes_receive_case.
  - eapply lifetimes_call; [done| |done|by intros ??? [=]|by apply call_ok_other; destruct k|done].
    apply (tame_set l s (fun s => (send_case l hash s k).2)); [done|intros x; by destruct k|intros x; by destruct k].
  - by eapply lifetimes_move.
  - eapply lifetimes_call; [done| |done|by intros ??? [=]|by apply call_ok_other; destruct copyErr|done].
    destruct copyErr; by apply tame_update.
  - eapply lifetimes_still; [done|by apply tame_failed|done].
  - eapply lifetimes_still; [done|by apply tame_remove_all|done].
  - eapply lifetimes_still; [done|by apply tame_Close|done].
Qed.

Lemma lifetimes_steps r r' : rtc step r r' -> inv r -> lifetimes r -> inv r' /\ lifetimes r'.
Proof.
  induction 1 as [|r1 r2 r3 Hs _ IH]; intros Hi Hl; [done|]. apply IH; [by eapply inv_step|by eapply lifetimes_step].
Qed.

Lemma reachable_lifetimes opts r : reachable opts r -> lifetimes r.
Proof.
  intros H. apply (lifetimes_steps _ _ H); [apply inv_start|]. split; simpl; [apply map_Forall_empty|done].
Qed.

(** ** From one state to a later one *)
Lemma step_ages r r' : step r r' -> inv r -> ages (coord r) (coord r').
Proof.
  intros H Hi. pose proof (inv_wf _ Hi) as Hw. pose proof (wf_sane _ Hw) as Hs. destruct H; simpl in *.
  - by apply tame_Init.
  - apply tame_receive.
  - apply tame_send.
  - reflexivity.
  - apply (tame_set l s (fun s => (send_case l hash s k).2)); [done|intros x; by destruct k|intros x; by destruct k].
  - destruct t; simplify_eq/=; first [apply ages_remove|apply ages_update, keeps_close|by apply ages_update].
  - destruct copyErr; by apply ages_update.
  - by apply tame_failed.
  - by apply tame_remove_all.
  - by apply tame_Close.
Qed.

Lemma steps_ages r r' : rtc step r r' -> inv r -> ages (coord r) (coord r').
Proof.
  induction 1 as [|r1 r2 r3 Hs _ IH]; intros Hi; [reflexivity|].
  etrans; [by eapply step_ages|]. apply IH. by eapply inv_step.
Qed.

(** A receiving call keeps its session. *)
Lemma step_receives r r' tid t : step r r' -> threads r !! tid = Some t ->
  exists t', threads r' !! tid = Some t' /\ receives t' = receives t.
Proof.
  assert (Hins : forall (ts : gmap nat thread) tid' a b, ts !! tid' = Some a -> receives b = receives a -> ts !! tid = Some t ->
    exists t', <[tid' := b]> ts !! tid = Some t' /\ receives t' = receives t).
  { intros ts tid' a b Ha Hb Ht. destruct (decide (tid' = tid)) as [<-|Hne].
    - rewrite lookup_insert_eq. exists b. split; [done|congruence].
    - rewrite lookup_insert_ne by done. eauto. }
  assert (Hnew : forall (ts : gmap nat thread) tid' b, ts !! tid' = None -> ts !! tid = Some t ->
    exists t', <[tid' := b]> ts !! tid = Some t' /\ receives t' = receives t).
  { intros ts tid' b Hn Ht. exists t. split; [|done]. rewrite lookup_insert_ne; [done|]. congruence. }
  intros H Ht. destruct H; simpl in *; eauto.
  - destruct (receive_connect raw c) as [[e|[l hash]] c']; simpl; eauto.
  - destruct (send_connect raw meta c) as [[e|[l hash]] c']; simpl; eauto.
  - eapply Hins; [done| |done]. by destruct k.
  - eapply Hins; [done| |done]. by destruct k.
  - eapply Hins; [done| |done]. by apply calm_move in H0 as (_ & ? & _).
  - eapply Hins; [done| |done]. by destruct copyErr.
Qed.

Lemma steps_receives r r' tid t : rtc step r r' -> threads r !! tid = Some t ->
  exists t', threads r' !! tid = Some t' /\ receives t' = receives t.
Proof.
  intros H. revert t. induction H as [|r1 r2 r3 Hs _ IH]; intros t Ht; [eauto|].
  destruct (step_receives _ _ _ _ Hs Ht) as (t2 & H2 & E2). destruct (IH _ H2) as (t3 & H3 & E3). exists t3. split; [done|congruence].
Qed.
