(* ===== verification/PipeHttp.v ===== *)
(** * The pipe handlers (src/internal/httpapi/piperelay.go)

    What the HTTP interface of the live relay answers for each outcome of the
    coordinator.  A handler whose client has gone writes nothing: such an
    answer is [None].  The refusal of a receiver records a failed attempt under
    the code it presented, in a critical section of its own: between [Receive]'s
    and that one, the relay moves on. *)

From S2P Require Import Prelude GoStrings World GoTime Codec ObjectStorage Http PipeRelay PipeRelayProofs PipeLifetimes.

(** [err.Error()]. *)
Definition error_text (e : relay_error) : string :=
  match e with
  | ErrCapacityExceeded => "piperelay: maximum concurrent pipe sessions reached"
  | ErrNotFound => "piperelay: rendezvous session not found or expired"
  | ErrSessionClosed => "piperelay: rendezvous session closed"
  | ErrSessionBurned => "piperelay: rendezvous session burned due to excessive failed attempts"
  | ErrAlreadyConnected => "piperelay: party already connected to session"
  | ErrInvalidCode => "piperelay: code must be a 6-digit numeric string"
  | ErrExpired => "piperelay: rendezvous session expired"
  | ErrContext => "context canceled"
  | ErrCopy msg | ErrRelay msg => msg
  end.

(** [io.ErrClosedPipe]. *)
Definition closed_pipe : relay_error := ErrCopy "io: read/write on closed pipe".

Definition pipe_disabled : Response := writeError 503 "service_unavailable" "live pipe relay is disabled".
Definition missing_code : Response := writeError 400 "bad_request" "missing X-Flick-Pipe-Code header".
Definition bad_code : Response := writeError 400 "bad_request" "invalid 6-digit pipe code".
Definition code_not_found : Response := writeError 404 "not_found" "pipe rendezvous not found or expired".
Definition code_expired : Response := writeError 410 "expired" "pipe rendezvous expired".
Definition session_closed : Response := writeError 410 "closed" "pipe session closed".
Definition session_burned : Response := writeError 410 "burned" "pipe session burned".
Definition pipe_code (r : Request) : string := header_get "X-Flick-Pipe-Code" (rq_Header r).

(** The guards of the handlers that take a code. *)
Definition with_code {A} (enabled : bool) (r : Request) (refuse : Response -> A) (k : string -> A) : A :=
  if negb enabled then refuse pipe_disabled
  else if bool_decide (pipe_code r = "") then refuse missing_code
  else k (pipe_code r).

Definition initPipe (enabled : bool) (draw : nat -> option Z) (slt : option string) (t : time) (c : Coordinator) :
    Response * Coordinator :=
  if negb enabled then (pipe_disabled, c)
  else match Init draw slt t c with
  | (inl ErrCapacityExceeded, c) =>
      (with_header "Retry-After" "30"
         (writeError 429 "capacity_exceeded" "server is at maximum concurrent pipe relay capacity"), c)
  | (inl _, c) => (writeError 500 "internal_error" "failed to initialize pipe rendezvous", c)
  | (inr (code, x, n), c) =>
      (writeJSON 201 (JObject [("code", JString code); ("salt", JString (Base64.encode Base64.StdEncoding x));
                               ("expires_in", JInt n)]), c)
  end.

(** [waitPipe], once [WaitReceiver] has returned; [gone] is whether the client's
    context has ended. *)
Definition wait_response (gone : bool) (res : option relay_error) : option Response :=
  match res with
  | None => Some (writeJSON 200 (JObject [("status", JString "ready")]))
  | Some ErrInvalidCode => Some bad_code
  | Some ErrNotFound => Some code_not_found
  | Some ErrExpired => Some code_expired
  | Some ErrSessionBurned => Some session_burned
  | Some ErrSessionClosed => Some session_closed
  | Some e => if gone then None else Some (writeError 500 "internal_error" (error_text e))
  end.

(** The headers of a stream. *)
Definition receive_headers (slt : string) (meta : SessionMetadata) : list (string * string) :=
  [("Content-Type", "application/octet-stream"); ("Cache-Control", "no-store");
   ("X-Flick-Pipe-Salt", Base64.encode Base64.StdEncoding slt)] ++
  (if bool_decide (PipeRelay.md_Kind meta <> "") then [("Flick-Kind", PipeRelay.md_Kind meta)] else []) ++
  (if bool_decide (md_EncryptedFilename meta <> "") then [("Flick-Encrypted-Filename", md_EncryptedFilename meta)] else []).

(** Where a run of [receivePipe] stands: done without having reached the
    relay, in the [select] of [Receive], streaming, or with the error of
    [Receive] and the failed attempt still to record. *)
Inductive receive_run :=
  | RxAnswered (resp : Response)
  | RxWaiting (code : string) (l : loc) (hash : string)
  | RxStreaming (header : list (string * string))
  | RxRefused (code : string) (e : relay_error).

(** [receivePipe] up to the end of [Receive]'s first critical section. *)
Definition receivePipe (enabled : bool) (r : Request) (c : Coordinator) : receive_run * Coordinator :=
  with_code enabled r (fun resp => (RxAnswered resp, c)) (fun code =>
    match receive_connect code c with
    | (inr (l, hash), c) => (RxWaiting code l hash, c)
    | (inl e, c) => (RxRefused code e, c)
    end).

(** [receivePipe] when the call of [Receive] it waits in has returned. *)
Definition receive_returned (code : string) (t : thread) : option receive_run :=
  match t with
  | RStreaming _ _ slt meta => Some (RxStreaming (receive_headers slt meta))
  | RFinished _ (Some e) => Some (RxRefused code e)
  | _ => None
  end.

(** [receivePipe] from [RecordFailedAttempt] on, a later critical section. *)
Definition receive_refusal (gone : bool) (code : string) (e : relay_error) (c : Coordinator) : option Response * Coordinator :=
  let '((isBurned, _), c) := RecordFailedAttempt code c in
  let burned_out := writeError 410 "burned" "pipe rendezvous burned due to excessive failed attempts" in
  (if isBurned then Some burned_out
   else match e with
   | ErrSessionBurned => Some burned_out
   | ErrInvalidCode => Some bad_code
   | ErrNotFound => Some code_not_found
   | ErrExpired => Some code_expired
   | ErrAlreadyConnected => Some (writeError 409 "already_connected" "receiver is already connected to this pipe session")
   | ErrSessionClosed => Some session_closed
   | e => if gone then None else Some (writeError 500 "internal_error" (error_text e))
   end, c).

(** [sendPipe], once [Send] has returned. *)
Definition send_response (gone : bool) (n : Z) (res : option relay_error) : option Response :=
  match res with
  | None => Some (writeJSON 200 (JObject [("status", JString "completed"); ("bytes_transferred", JInt n)]))
  | Some ErrInvalidCode => Some bad_code
  | Some ErrNotFound => Some code_not_found
  | Some ErrExpired => Some code_expired
  | Some ErrAlreadyConnected => Some (writeError 409 "already_connected" "sender is already active on this pipe session")
  | Some ErrSessionBurned => Some session_burned
  | Some ErrSessionClosed => Some session_closed
  | Some e =>
      if decide (e = closed_pipe)
      then Some (writeError 502 "receiver_disconnected" "receiver disconnected during live stream")
      else if gone then None else Some (writeError 502 "transfer_failed" (error_text e))
  end.

Definition sendPipe (enabled gone : bool) (r : Request) (c : Coordinator) : (option Response + loc * string) * Coordinator :=
  with_code enabled r (fun resp => (inl (Some resp), c)) (fun code =>
    let meta := MkMeta (header_get "Flick-Kind" (rq_Header r)) (header_get "Flick-Encrypted-Filename" (rq_Header r)) in
    match send_connect code meta c with
    | (inr x, c) => (inr x, c)
    | (inl e, c) => (inl (send_response gone 0 (Some e)), c)
    end).

(** ** The three-strikes rule *)

(** A receive request that finds the relay in [st1] and is refused: [Receive]
    fails at once, or it waits while the relay moves on and then fails.  In
    [st2] the handler has the error and has not recorded the attempt yet. *)
Inductive refused_receive (enabled : bool) (r : Request) (st1 : relay) (code : string) (e : relay_error) : relay -> Prop :=
  | refused_at_once c1 :
      receivePipe enabled r (coord st1) = (RxRefused code e, c1) ->
      refused_receive enabled r st1 code e (MkRelay c1 (threads st1))
  | refused_later tid l hash c1 t st2 :
      receivePipe enabled r (coord st1) = (RxWaiting code l hash, c1) -> threads st1 !! tid = None ->
      rtc step (MkRelay c1 (<[tid := RWaiting l hash]> (threads st1))) st2 ->
      threads st2 !! tid = Some t -> receive_returned code t = Some (RxRefused code e) ->
      refused_receive enabled r st1 code e st2.

Lemma receive_connect_refused raw c e c1 : receive_connect raw c = (inl e, c1) -> c1 = c.
Proof.
  unfold receive_connect. destruct (NormalizeCode raw) as [?|code]; [by intros [= _ <-]|].
  destruct (find_session _ c) as [[l x]|]; [|by intros [= _ <-]]. destruct (burned x); [by intros [= _ <-]|].
  destruct (receiverReady x); [by intros [= _ <-]|done].
Qed.

Lemma receivePipe_refused enabled r c code e c1 :
  receivePipe enabled r c = (RxRefused code e, c1) -> receive_connect code c = (inl e, c) /\ c1 = c.
Proof.
  unfold receivePipe, with_code. destruct enabled; simpl; [|done]. case_bool_decide; [done|].
  destruct (receive_connect _ c) as [[e'|[l hash]] c2] eqn:E; [|done]. intros [= <- <- <-].
  by rewrite (receive_connect_refused _ _ _ _ E) in E |- *.
Qed.

Lemma receivePipe_waiting enabled r c code l hash c1 :
  receivePipe enabled r c = (RxWaiting code l hash, c1) -> receive_connect code c = (inr (l, hash), c1).
Proof.
  unfold receivePipe, with_code. destruct enabled; simpl; [|done]. case_bool_decide; [done|].
  destruct (receive_connect _ c) as [[e'|[l' hash']] c2] eqn:E; [done|]. by intros [= <- <- <- <-].
Qed.

(** A recorded attempt that changes the relay is one more failure of the
    session the code names. *)
Lemma RecordFailedAttempt_counts raw c x c' : RecordFailedAttempt raw c = (x, c') -> c' <> c ->
  exists norm l s s', NormalizeCode raw = inr norm /\ find_session (sha256 norm) c = Some (l, s) /\
    heap c' !! l = Some s' /\ failedAttempts s' = failedAttempts s + 1.
Proof.
  unfold RecordFailedAttempt. destruct (NormalizeCode raw) as [?|norm]; [by intros [= _ <-]|].
  destruct (find_session _ c) as [[l s]|] eqn:E; [|by intros [= _ <-]]. intros H _. exists norm, l, s.
  destruct (_ <=? _); injection H as _ <-.
  - apply find_session_Some in E as [Eh E]. eexists. rewrite remove_heap. simpl. rewrite Eh, bool_decide_true, lookup_insert_eq by done.
    split_and!; [done|by rewrite find_session_Some|done|]. unfold close_session. simpl. by destruct (done_ s).
  - eexists. simpl. by rewrite lookup_insert_eq.
Qed.

Lemma refused_reachable opts enabled r st1 code e st2 :
  reachable opts st1 -> refused_receive enabled r st1 code e st2 -> rtc step st1 st2.
Proof.
  intros Hr [c1 H|tid l hash c1 t st2' H Hn Hs _ _].
  - apply receivePipe_refused in H as [_ ->]. by destruct st1.
  - apply receivePipe_waiting in H. eapply rtc_l; [|exact Hs]. destruct st1 as [c ts]. simpl in *.
    pose proof (step_receive code tid c ts Hn) as Hst. by rewrite H in Hst.
Qed.

(** Once a waiting receive has failed, no code names the session it had. *)
Lemma refused_later_ended opts enabled r st1 code tid l hash c1 t e st2 :
  reachable opts st1 -> receivePipe enabled r (coord st1) = (RxWaiting code l hash, c1) -> threads st1 !! tid = None ->
  rtc step (MkRelay c1 (<[tid := RWaiting l hash]> (threads st1))) st2 ->
  threads st2 !! tid = Some t -> receive_returned code t = Some (RxRefused code e) -> ended (coord st2) l.
Proof.
  intros Hr H Hn Hs Ht He. assert (Hr2 : reachable opts st2).
  { eapply rtc_trans; [exact Hr|]. by eapply (refused_reachable opts enabled r st1 code e), refused_later. }
  destruct (steps_receives _ _ tid (RWaiting l hash) Hs) as (t' & Ht' & E); [apply lookup_insert_eq|].
  assert (t' = t) as -> by congruence. destruct (lt_calls _ (reachable_lifetimes _ _ Hr2) tid _ Ht) as [_ Hf].
  destruct t; simplify_eq/=. by eapply Hf.
Qed.

(** C40: on which session a strike falls.  A receive request is refused, at
    once or after it has waited, and later its handler records the failed
    attempt; in between the relay moves on in any way.  If recording it changes
    the relay, it is one more failure of the session the code then names, and
    that session
    - was there when the request arrived, with its receiver connected: the
      request presented a right code a second time, and it is answered 409, or
      410 when the strike burns the session; or
    - was begun after the request arrived.
    So a wrong guess is never counted, unless [Init] draws the guessed code
    before the attempt is recorded, and then against a session nobody had
    guessed at. *)
Theorem strikes_duplicates_or_newcomers opts enabled gone r st1 st2 st3 code e resp c' :
  reachable opts st1 -> refused_receive enabled r st1 code e st2 -> rtc step st2 st3 ->
  receive_refusal gone code e (coord st3) = (resp, c') -> c' <> coord st3 ->
  exists norm l s s', NormalizeCode code = inr norm /\ find_session (sha256 norm) (coord st3) = Some (l, s) /\
    heap c' !! l = Some s' /\ failedAttempts s' = failedAttempts s + 1 /\
    ((e = ErrAlreadyConnected /\
      (exists s1, find_session (sha256 norm) (coord st1) = Some (l, s1) /\ receiverReady s1 = true) /\
      exists x, resp = Some x /\ (rs_Status x = 409 \/ rs_Status x = 410)) \/
     (next_loc (coord st1) <= l)%nat).
Proof.
  intros Hr1 Href H23 Hrec Hne. pose proof (reachable_inv _ _ Hr1) as Hi1.
  pose proof (refused_reachable _ _ _ _ _ _ _ Hr1 Href) as H12.
  unfold receive_refusal in Hrec. destruct (RecordFailedAttempt code (coord st3)) as [[b err] c3] eqn:Er.
  injection Hrec as Hresp <-. destruct (RecordFailedAttempt_counts _ _ _ _ Er Hne) as (norm & l & s & s' & Hnorm & Hf & Hs' & Hcount).
  exists norm, l, s, s'. split_and!; [done..|].
  apply find_session_Some in Hf as [Hh3 _]. pose proof (steps_ages _ _ (rtc_trans _ _ _ H12 H23) Hi1) as Ha.
  destruct (ag_map _ _ Ha _ _ Hh3) as [Hh1|]; [left|by right].
  destruct (wf_map _ (inv_wf _ Hi1) _ _ Hh1) as (s1 & Hs1 & _ & Hb & _).
  assert (Hf1 : find_session (sha256 norm) (coord st1) = Some (l, s1)) by by apply find_session_Some.
  destruct Href as [c1 H|tid l0 hash c1 t st2 H Hn Hs Ht He].
  - apply receivePipe_refused in H as [H _]. unfold receive_connect in H. rewrite Hnorm, Hf1, Hb in H.
    destruct (receiverReady s1) eqn:Hready; [|done]. injection H as <-. split_and!; [done|eauto|].
    destruct b; rewrite <- Hresp; eexists; (split; [done|simpl; auto]).
  - exfalso. pose proof (refused_later_ended _ _ _ _ _ _ _ _ _ _ _ _ Hr1 H Hn Hs Ht He) as Hend.
    apply receivePipe_waiting in H. unfold receive_connect in H. rewrite Hnorm, Hf1, Hb in H.
    destruct (receiverReady s1); [done|]. injection H as <- _ _.
    assert (Hi2 : inv st2) by (apply (reachable_inv opts); by eapply rtc_trans).
    destruct (ended_ages _ _ _ (steps_ages _ _ H23 Hi2) Hend) as [_ Hno]. apply Hno. by eexists.
Qed.

(** A second receiver presents the code of the session of [RelayWitness]. *)
Definition duplicate : Request :=
  MkReq "GET" "/api/pipe/receive" "" "" [("X-Flick-Pipe-Code", "123456")] (MkStream "" true).
Definition strikes (c : Coordinator) : option Z := failedAttempts <$> heap c !! 0%nat.

(** The same request to an empty relay is a wrong guess; before it is recorded,
    [Init] draws the code. *)
Definition drawn : relay := RelayWitness.r1.

Lemma duplicate_refused :
  refused_receive true duplicate RelayWitness.r4 "123456" ErrAlreadyConnected RelayWitness.r4.
Proof. apply (refused_at_once true duplicate RelayWitness.r4 "123456" ErrAlreadyConnected (coord RelayWitness.r4)). by vm_compute. Qed.
Lemma guess_refused : refused_receive true duplicate RelayWitness.r0 "123456" ErrNotFound RelayWitness.r0.
Proof. apply (refused_at_once true duplicate RelayWitness.r0 "123456" ErrNotFound (coord RelayWitness.r0)). by vm_compute. Qed.

Lemma duplicate_counted :
  strikes (coord RelayWitness.r4) = Some 0 /\
  strikes (receive_refusal false "123456" ErrAlreadyConnected (coord RelayWitness.r4)).2 = Some 1.
Proof. split; by vm_compute. Qed.
Lemma guess_counted :
  strikes (coord drawn) = Some 0 /\ strikes (receive_refusal false "123456" ErrNotFound (coord drawn)).2 = Some 1 /\
  (receive_refusal false "123456" ErrNotFound (coord drawn)).1 = Some code_not_found.
Proof. split_and!; by vm_compute. Qed.

(** Both happen: a duplicate is counted and answered; and a wrong guess is
    answered "not found" and yet counted, against a session begun after it. *)
Lemma strikes_duplicates_or_newcomers_witness :
  (exists x, (receive_refusal false "123456" ErrAlreadyConnected (coord RelayWitness.r4)).1 = Some x /\
    (rs_Status x = 409 \/ rs_Status x = 410)) /\
  (receive_refusal false "123456" ErrNotFound (coord drawn)).1 = Some code_not_found /\
  exists norm l s, find_session (sha256 norm) (coord drawn) = Some (l, s) /\ (next_loc (coord RelayWitness.r0) <= l)%nat.
Proof.
  split; [|split; [exact (proj2 (proj2 guess_counted))|]].
  - destruct duplicate_counted as [H0 H1].
    destruct (strikes_duplicates_or_newcomers RelayWitness.opts true false duplicate RelayWitness.r4 RelayWitness.r4
      RelayWitness.r4 "123456" ErrAlreadyConnected _ _ RelayWitness.r4_reachable duplicate_refused (rtc_refl _ _) (surjective_pairing _))
      as (norm & l & s & s' & _ & Hf & _ & _ & [(_ & _ & H)|Hl]).
    + intros E. rewrite E, H0 in H1. discriminate H1.
    + exact H.
    + exfalso. apply find_session_Some in Hf as [_ Hf].
      apply (wf_next _ (inv_wf _ (reachable_inv _ _ RelayWitness.r4_reachable))) in Hf. lia.
  - destruct guess_counted as (H0 & H1 & _).
    destruct (strikes_duplicates_or_newcomers RelayWitness.opts true false duplicate RelayWitness.r0 RelayWitness.r0
      drawn "123456" ErrNotFound _ _ (rtc_refl _ _) guess_refused
      (rtc_once _ _ (step_init RelayWitness.draw (Some RelayWitness.salt16) 0 (coord RelayWitness.r0) (threads RelayWitness.r0)))
      (surjective_pairing _)) as (norm & l & s & s' & _ & Hf & _ & _ & [(E & _)|Hl]).
    + intros E. rewrite E, H0 in H1. discriminate H1.
    + discriminate E.
    + exists norm, l, s. split; [exact Hf|exact Hl].
Defined.
