(* ===== verification/Witnesses.v ===== *)
(** * A concrete service, and the theorems at work in it

    Concrete collaborators (the clock and codec of [Concrete], a bucket, an
    envelope codec, SQLite's dates, the internal API) that satisfy the
    interfaces the theorems assume, a scenario that runs the operations on
    them, and for each theorem with hypotheses a lemma that applies it to a
    run of the scenario. *)

From S2P Require Import Prelude World GoTime Codec Schema AgeFormat Outbox ObjectStorage SecretStore SecretProofs SecretUploads RequestStore RequestCleanup RequestFrames RequestProofs RequestObjects RequestFinalize Reaper ReaperProofs Lifecycle SchemaProofs Worker WorkerProofs ConsumerProofs.
Import Concrete.

Module Scenario.
#[export] Existing Instance broker.

(** ** Collaborators *)

(** A bucket in which every object has the same content. *)
Definition stored : string := ageMagic +:+ "sealed bytes".
Definition bucket (D : Type) : Objects.Store D := {|
  Objects.List := fun _ _ _ => ret (MkPage ["managed/secrets/lost"; "managed/secrets/"; "other"] "");
  Objects.PresignPUT := fun key _ ttl => let! t := now in ret (MkUpload ("https://bucket/" +:+ key) "PUT" (t + ttl) []);
  Objects.Head := fun key => ret (MkInfo key true (strlen stored) "");
  Objects.Open := fun _ => ret (MkStream stored true, strlen stored);
  Objects.Delete := fun key => emit (EffDelete key);
  Objects.PutStream := fun key body n verify =>
    match verify (content body) with
    | Some e => throw e
    | None => if strlen (content body) =? n then emit (EffPut key (content body)) else throw (Fail "short body")
    end;
|}.
#[export] Instance bucket_spec D : Objects.Spec (bucket D).
Proof.
  split; simpl.
  - intros p c n w r w' [= _ <-]. by split_and!.
  - intros k n t w r w' [= _ <-]. by split_and!.
  - intros k w r w' [= _ <-]. by split_and!.
  - intros k w r w' [= _ <-]. by split_and!.
  - done.
  - intros k w r w' [= _ <-]. split_and!; [done..|by right].
  - intros k body n verify w r w' H. destruct (verify (content body)) eqn:Ev.
    { injection H as <- <-. split_and!; [done|done|by left|done]. }
    destruct (Z.eqb_spec (strlen (content body)) n); injection H as <- <-; split_and!; try done; simpl; eauto 10.
    intros _ E. apply (f_equal length) in E. rewrite length_app in E. simpl in E. lia.
Qed.

Definition jobs : outboxEnqueuer := store_enqueuer {| subject := "flick.jobs" |}.

#[export] Instance dates : SqliteDate.
Proof.
  refine {| datetime := fun t => t / Second; julianday := fun t => t / 1000000 |}.
  - intros a b H. by apply Z.div_le_mono.
  - intros a b H. by apply Z.div_le_mono.
  - intros a b H. pose proof (Z.div_le_mono (a + 1 * 1000000) b 1000000). rewrite Z.div_add in *; lia.
Defined.

Definition env_text (e : Envelope) : string := string_of_pos (encode (Version e, EnvFilename e)).
Definition env_parse (s : string) : option Envelope :=
  '(v, f) ← (decode (pos_of_string s) : option (Z * string)); Some (MkEnvelope v f).
#[export] Instance envelopes : RequestCodec.
Proof.
  refine {| DecodeEnvelope := env_parse; MarshalEnvelope := env_text; UnmarshalEnvelope := env_parse;
            MarshalPayload := fun k n e c => k +:+ e +:+ c; MarshalUpload := fun k n e c => k +:+ e +:+ c;
            ParseHybridRecipient := Some |}.
  intros v f _ _. unfold env_parse, env_text. by rewrite pos_of_string_of, decode_encode.
Defined.

#[export] Instance internal : Internal := {|
  post_cleanup := fun _ id _ _ => Some (200, id);
  decode_cleanup := fun body => Some (body, true);
  post_ack := fun _ _ _ => Some 204;
  ctx_done := fun _ => false;
  broker_ok := fun _ => true;
  error_text := fun _ => "failed";
|}.

(** ** The stores *)
Definition store : Store := MkStore 65536 1048576 (5 * Minute) (15 * Minute) 60 86400 (Some (bucket ApiDB)) (Some jobs).
#[export] Instance store_spec : StoreSpec store.
Proof. split; intros o [= <-]; apply _. Qed.
Definition requests : Options := MkOptions (Some (bucket ApiDB)) (Some jobs) 65536 1048576 60 3600 86400.
#[export] Instance requests_spec : OptionsSpec requests.
Proof. split; intros o [= <-]; apply _. Qed.
Definition reaper : Reaper := NewReaper store jobs (Some requests) 0.
Lemma reaper_jobs : OutboxSpec (reaper_outbox reaper).
Proof. simpl. apply _. Qed.

Example stores_valid : SecretStore.NewStore store = Ok store /\ RequestStore.NewStore requests = Ok requests.
Proof. split; reflexivity. Qed.

(** ** Secrets *)
Definition w0 : World ApiDB := MkWorld empty_db 0 0 [].
Definition text : CreateInput :=
  MkCreateInput KindText stored kdf_zero "" None None None (strlen stored) 3600 1.
Definition kdf : KDFParams := {| Algorithm := KDFPBKDF2SHA256; Salt := "c2FsdA=="; Iterations := 600000; KeyLengthBits := 256 |}.
Definition locked : CreateInput :=
  MkCreateInput KindText stored kdf "proof" (Some (Base64.encode Base64.StdEncoding stored)) None None (strlen stored) 3600 1.
Definition large : CreateLargeInput :=
  MkCreateLargeInput KindFile kdf_zero "" None (Some (Base64.encode Base64.StdEncoding stored)) None (strlen stored) 3600 1.

(** The value and the world a run that succeeds ends with. *)
Definition value {A} (d : A) (r : result A) : A := match r with Ok a => a | Err _ => d end.
Lemma ran {D A} (d : A) (m : M D A) (w : World D) :
  is_ok (m w).1 = true -> m w = (Ok (value d (m w).1), (m w).2).
Proof. by destruct (m w) as [[a|e] w']. Qed.
Lemma ran_unit {D} (m : M D unit) (w : World D) : is_ok (m w).1 = true -> m w = (Ok tt, (m w).2).
Proof. by destruct (m w) as [[[]|e] w']. Qed.
Definition failure {A} (r : result A) : err := match r with Ok _ => Fail "" | Err e => e end.
Lemma refused {D A} (m : M D A) (w : World D) (e : err) :
  is_ok (m w).1 = false -> failure (m w).1 = e -> m w = (Err e, (m w).2).
Proof. destruct (m w) as [[a|e'] w']; [done|]. simpl. by intros _ ->. Qed.

(** An open secret, one behind a proof, and an upload. *)
Definition no_secret : Secret := MkSecretValue "" "" "" SqliteBlob "" "" None kdf_zero None None None 0 0 "".
Definition created : World ApiDB := (SecretStore.Create store locked w0).2.
Definition secret : Secret := value no_secret (SecretStore.Create store locked w0).1.
Lemma created_run : SecretStore.Create store locked w0 = (Ok secret, created).
Proof. unfold secret, created. apply ran. by vm_compute. Qed.
Definition uploaded : World ApiDB := (CreateLarge store large w0).2.
Definition upload_id : string := match (CreateLarge store large w0).1 with Ok l => lr_ID l | _ => "" end.
Definition upload_token : string := match (CreateLarge store large w0).1 with Ok l => lr_ManagementToken l | _ => "" end.

Lemma open_releases_only_authorized_witness :
  is_ok (openAndEnqueueCleanup store jobs (ID secret) "proof" created).1 = true /\
  exists r, t_secrets (db created) !! ID secret = Some r /\ authorizes r "proof".
Proof.
  split; [by vm_compute|].
  destruct (open_releases_only_authorized store jobs (ID secret) "proof" created
    (value no_secret (openAndEnqueueCleanup store jobs (ID secret) "proof" created).1)
    (openAndEnqueueCleanup store jobs (ID secret) "proof" created).2)
    as (r & t & j & tj & (Hr & _) & Ha & _).
  { apply ran. by vm_compute. }
  exists r. by split.
Defined.

Lemma open_failure_effect_witness :
  exists r t, live (db created) t (ID secret) r /\ ~ authorizes r "guess".
Proof.
  destruct (open_failure_effect store jobs (ID secret) "guess" created (SecretsErr ErrInvalidAccess)
    (openAndEnqueueCleanup store jobs (ID secret) "guess" created).2) as [_ H].
  { apply refused; by vm_compute. }
  destruct (H eq_refl) as (r & t & Hl & Ha & _). eauto.
Defined.

(** Five wrong guesses do happen. *)
Definition guess (w : World ApiDB) : World ApiDB := (openAndEnqueueCleanup store jobs (ID secret) "guess" w).2.
Lemma guess_again n w w' :
  is_ok (openAndEnqueueCleanup store jobs (ID secret) "guess" w).1 = false ->
  failure (openAndEnqueueCleanup store jobs (ID secret) "guess" w).1 = SecretsErr ErrInvalidAccess ->
  guesses store jobs (ID secret) n (guess w) w' -> guesses store jobs (ID secret) (S n) w w'.
Proof. intros H1 H2. apply guesses_wrong with "guess". unfold guess. by apply refused. Qed.
Lemma at_most_five_wrong_guesses_witness :
  (forall r, t_secrets (db created) !! ID secret = Some r -> 0 <= s_failed r) /\
  guesses store jobs (ID secret) 5 created (Nat.iter 5 guess created) /\
  locked_out (ID secret) (db (Nat.iter 5 guess created)) /\
  exists e w2, openAndEnqueueCleanup store jobs (ID secret) "proof" (Nat.iter 5 guess created) = (Err e, w2) /\
    e <> SecretsErr ErrInvalidAccess /\ db w2 = db (Nat.iter 5 guess created).
Proof.
  assert (H0 : forall r, t_secrets (db created) !! ID secret = Some r -> 0 <= s_failed r).
  { intros r Hr. assert (E : s_failed <$> t_secrets (db created) !! ID secret = Some 0) by (by vm_compute).
    rewrite Hr in E. injection E as ->. done. }
  assert (H : guesses store jobs (ID secret) 5 created (Nat.iter 5 guess created)).
  { do 5 (apply guess_again; [by vm_compute|by vm_compute|]). apply guesses_done. }
  destruct (at_most_five_wrong_guesses store jobs _ _ _ _ H0 H) as (_ & H5 & _).
  destruct (H5 eq_refl) as [HL Hno]. split_and!; [exact H0|exact H|exact HL|].
  apply Hno. reflexivity.
Defined.

Definition job_bytes : string := match rand_bytes (tick created) 18 with Some s => s | None => "" end.
Lemma create_open_roundtrip_witness :
  exists sec' w2, openAndEnqueueCleanup store jobs (ID secret) "proof" created = (Ok sec', w2) /\ Ciphertext sec' = stored.
Proof.
  destruct (create_open_roundtrip store jobs locked w0 secret created job_bytes) as (sec' & w2 & H & Hc & _).
  - exact created_run.
  - apply (bool_decide_unpack _). by vm_compute.
  - intros n Hn. replace (tick created) with 8%nat in Hn by (by vm_compute).
    do 17 (destruct n as [|n]; [first [lia|split; [by vm_compute|split; by vm_compute]]|]). lia.
  - by vm_compute.
  - by vm_compute.
  - exists sec', w2. split; [exact H|exact Hc].
Defined.

Lemma create_management_roundtrip_witness :
  exists w2, Management store (ID secret) (ManagementToken secret) created =
    (Ok (MkStatus (ID secret) (StState Active) (ExpiresAt secret) true), w2).
Proof. apply (create_management_roundtrip store locked w0); [exact created_run|by vm_compute]. Defined.

Lemma finalize_activates_exact_size_witness :
  pending_count (db uploaded) = 1 /\ pending_count (db (SecretStore.Finalize store upload_id uploaded).2) = 0 /\
  exists row, t_secrets (db uploaded) !! upload_id = Some row.
Proof.
  split_and!; [by vm_compute..|].
  destruct (finalize_activates_exact_size store upload_id uploaded (Ok tt) (SecretStore.Finalize store upload_id uploaded).2)
    as (row & Hr & _); [|by exists row].
  apply ran_unit. by vm_compute.
Defined.

Lemma revoke_cancels_witness :
  exists st, (SecretStore.Revoke store upload_id upload_token uploaded).1 = Ok (Revoked st) /\
    ms_Status st = StOutcome Cancelled.
Proof.
  pose proof (revoke_cancels store upload_id upload_token uploaded _ _ (surjective_pairing _)) as H.
  assert (E : match (SecretStore.Revoke store upload_id upload_token uploaded).1 with
              | Ok (Revoked _) => true | _ => false end = true) by (by vm_compute).
  destruct (SecretStore.Revoke store upload_id upload_token uploaded).1 as [[st|st]|e]; [|discriminate..].
  exists st. split; [reflexivity|apply H].
Defined.

(** ** Requests *)
Definition recipient : string := recipientPrefix +:+ "q".
Definition no_created : Created := MkCreated "" 0 "" "".
Definition asked : World ApiDB := (RequestStore.Create requests recipient None w0).2.
Definition request : Created := value no_created (RequestStore.Create requests recipient None w0).1.
Definition no_row : request_row :=
  MkRequest "" "" "" "" ReqUnavailable 0 None None None None None SqliteBlob None None None None None 0.
Definition request_at (w : World ApiDB) : request_row := default no_row (t_requests (db w) !! c_ID request).
Lemma request_found (w : World ApiDB) :
  is_some (t_requests (db w) !! c_ID request) = true -> t_requests (db w) !! c_ID request = Some (request_at w).
Proof. unfold request_at. by destruct (t_requests (db w) !! c_ID request). Qed.

Definition attempt_token (n : nat) : string :=
  Base64.encode Base64.RawURLEncoding (String.string_of_list_ascii (replicate 32 (Ascii.ascii_of_nat n))).
Definition submission : SubmitInput :=
  MkSubmitInput 1 (attempt_token 7) "text" (strlen stored) (env_text (MkEnvelope envelopeVersion ""))
    (Base64.encode Base64.StdEncoding stored).
Definition upload : UploadInput :=
  MkUploadInput 1 (attempt_token 7) "file" (strlen stored)
    (env_text (MkEnvelope envelopeVersion (Base64.encode Base64.StdEncoding stored)))
    (Base64.encode Base64.StdEncoding (sha256 stored)).
Definition attempt : AttemptInput := MkAttemptInput 1 (attempt_token 7).
Definition reserved : World ApiDB := (Reserve requests (c_ID request) (SubmissionToken request) upload asked).2.
(** A thousand seconds later the reservation has lapsed. *)
Definition later {D} (w : World D) : World D := MkWorld (db w) (1000 + tick w) (active_uploads w) (trace w).

Lemma later_db {D} (w : World D) : db (later w) = db w.
Proof. reflexivity. Qed.

Definition hash_of (token : string) : string := match tokenHash token with Ok h => h | Err _ => "" end.
Definition lapse : M ApiDB (option unit) :=
  begin_pass requests (c_ID request) (hash_of (SubmissionToken request)) false (fun _ => ret (Rollback tt)).
Lemma begin_recursion_stops_witness :
  lapse (later reserved) = (Ok None, (lapse (later reserved)).2) /\
  lapse (lapse (later reserved)).2 <> (Ok None, (lapse (lapse (later reserved)).2).2).
Proof.
  assert (H : lapse (later reserved) = (Ok None, (lapse (later reserved)).2)).
  { assert (E : match (lapse (later reserved)).1 with Ok None => true | _ => false end = true) by (by vm_compute).
    destruct (lapse (later reserved)) as [[[u|]|e] w']; [discriminate|reflexivity|discriminate]. }
  split; [exact H|]. apply (begin_recursion_stops requests (c_ID request) (hash_of (SubmissionToken request)) false
    (fun _ => ret (Rollback tt)) (later reserved)). exact H.
Defined.

Lemma finalize_copies_only_verified_witness :
  exists e, trace (Finalize requests (c_ID request) (SubmissionToken request) attempt reserved).2 = [e] /\
    verified_copy (c_ID request) attempt (db reserved) e.
Proof.
  assert (E : is_ok (Finalize requests (c_ID request) (SubmissionToken request) attempt reserved).1 = true /\
    length (trace (Finalize requests (c_ID request) (SubmissionToken request) attempt reserved).2) = 1%nat /\
    trace reserved = []) by (by vm_compute).
  assert (Hck : map_Forall (fun _ r => request_check r = true) (t_requests (db reserved)))
    by (apply (bool_decide_unpack _); by vm_compute).
  destruct (finalize_copies_only_verified requests (c_ID request) (SubmissionToken request) attempt reserved _ _
    Hck (surjective_pairing _)) as [[Ht _]|(e & Ht & Hv)].
  - destruct E as (_ & E & E0). rewrite Ht, E0 in E. discriminate E.
  - exists e. destruct E as (_ & _ & E0). rewrite Ht, E0. by split.
Defined.

Definition no_receipt : RequestStore.Receipt := MkReceipt 0 "".
Definition submitted : World ApiDB := (Submit requests (c_ID request) (SubmissionToken request) submission asked).2.
Lemma submit_open_roundtrip_witness :
  exists c env w2, Open requests (c_ID request) (RetrievalToken request) submitted =
      (Ok (MkOpened "text" (strlen stored) env (MkStream c true) ""), w2) /\
    Base64.encode Base64.StdEncoding c = si_Ciphertext submission.
Proof.
  destruct (submit_open_roundtrip requests (c_ID request) (SubmissionToken request) (RetrievalToken request)
    submission asked (value no_receipt (Submit requests (c_ID request) (SubmissionToken request) submission asked).1)
    submitted (request_at asked)) as (c & env & w2 & H & Hc & _).
  - apply request_found. by vm_compute.
  - by vm_compute.
  - by vm_compute.
  - by vm_compute.
  - by vm_compute.
  - unfold submitted. apply ran. by vm_compute.
  - by vm_compute.
  - intros n Hn. assert (E : tick submitted = 11%nat) by (by vm_compute). rewrite E in Hn.
    do 24 (destruct n as [|n]; [first [lia|by vm_compute]|]). lia.
  - exists c, env, w2. split; [exact H|exact Hc].
Defined.

(** ** The reaper *)
Definition no_secret_row : secret_row :=
  MkSecret "" SqliteBlob "" None None None None None 0 0 0 0 Active 0 None 0 0 None.
Definition upload_row : secret_row := default no_secret_row (t_secrets (db uploaded) !! upload_id).
Lemma upload_found : t_secrets (db uploaded) !! upload_id = Some upload_row.
Proof.
  assert (E : is_some (t_secrets (db uploaded) !! upload_id) = true) by (by vm_compute).
  unfold upload_row. by destruct (t_secrets (db uploaded) !! upload_id).
Qed.
Definition abandoned : World ApiDB := later uploaded.

Lemma reaper_reclaims_expired_witness :
  (claimExpired reaper abandoned).1 = Ok 1 /\ t_secrets (db (claimExpired reaper abandoned).2) !! upload_id = None /\
  has_job (s_key upload_row) (db (claimExpired reaper abandoned).2).
Proof.
  assert (E : (claimExpired reaper abandoned).1 = Ok 1) by (by vm_compute).
  destruct (reaper_reclaims_expired reaper reaper_jobs abandoned 1 (claimExpired reaper abandoned).2 upload_id upload_row)
    as [_ H].
  - rewrite <- E. apply surjective_pairing.
  - by vm_compute.
  - exact upload_found.
  - split_and!; by vm_compute.
  - by vm_compute.
  - by vm_compute.
  - intros [_ H]. assert (Hs : s_state upload_row = PendingUpload) by (by vm_compute). apply H in Hs.
    revert Hs. by vm_compute.
  - split; [exact E|]. destruct H as (H1 & _ & H2); [by vm_compute|]. split; [exact H1|]. apply H2. by vm_compute.
Defined.

Lemma reaper_spares_usable_witness :
  t_secrets (db (claimExpired reaper uploaded).2) !! upload_id = Some upload_row.
Proof.
  apply (reaper_spares_usable reaper reaper_jobs uploaded (claimExpired reaper uploaded).1
    (claimExpired reaper uploaded).2 upload_id upload_row).
  - apply surjective_pairing.
  - exact upload_found.
  - split_and!; by vm_compute.
  - left. split; [by vm_compute|]. split; [by vm_compute|]. intros _. by vm_compute.
Defined.

Lemma reaper_bucket : forall o, objects (Reaper.store reaper) = Some o -> Objects.Spec o.
Proof. intros o [= <-]. apply _. Qed.
Lemma reconcile_queues_only_orphans_witness :
  size (t_outbox (db (ReconcileOnce reaper uploaded).2)) = 1%nat /\
  t_outbox (db uploaded) = ∅ /\
  exists obj page w1, objects (Reaper.store reaper) = Some obj /\ listed_page reaper obj uploaded page w1 /\
    swept reaper (Keys page) (clk (S (S (tick w1)))) (db uploaded) (db (ReconcileOnce reaper uploaded).2).
Proof.
  assert (E1 : size (t_outbox (db (ReconcileOnce reaper uploaded).2)) = 1%nat) by (by vm_compute).
  assert (E0 : t_outbox (db uploaded) = ∅) by (apply (bool_decide_unpack _); by vm_compute).
  split_and!; [exact E1|exact E0|].
  destruct (reconcile_queues_only_orphans reaper reaper_jobs reaper_bucket uploaded (ReconcileOnce reaper uploaded).1
    (ReconcileOnce reaper uploaded).2) as [_ [Hc|H]]; [apply surjective_pairing| |exact H].
  exfalso. assert (E : t_outbox (db (ReconcileOnce reaper uploaded).2) = t_outbox (db uploaded)).
  { destruct Hc as [->|[c ->]]; done. }
  rewrite E, E0, map_size_empty in E1. discriminate E1.
Defined.

(** ** Histories *)
Abbreviation History := (history store requests jobs reaper).

Fixpoint run_ops (l : list op) (w : World ApiDB) : list event * World ApiDB :=
  match l with
  | [] => ([], w)
  | o :: l => let '(res, w1) := exec store requests jobs reaper o w in
              let '(evs, w2) := run_ops l w1 in (events_of res ++ evs, w2)
  end.
Lemma run_ops_history l w : History (MkSys w []) (run_ops l w).1 (MkSys (run_ops l w).2 []).
Proof.
  revert w. induction l as [|o l IH]; intros w; simpl; [constructor|].
  destruct (exec store requests jobs reaper o w) as [res w1] eqn:E. specialize (IH w1).
  destruct (run_ops l w1) as [evs w2]. eapply (history_trans _ _ _ _ _ _ (MkSys w1 [])); [|exact IH].
  apply history_step. eapply step_op; exact E.
Qed.

Definition opens : list op := [OpOpen (ID secret) "guess"; OpOpen (ID secret) "proof"; OpOpen (ID secret) "proof"].
Lemma secret_opened_at_most_once_witness :
  times (SecretOpened (ID secret)) (run_ops opens created).1 = 1%nat /\ ~ openable (ID secret) (db (run_ops opens created).2).
Proof.
  assert (E : times (SecretOpened (ID secret)) (run_ops opens created).1 = 1%nat) by (by vm_compute).
  split; [exact E|].
  destruct (secret_opened_at_most_once store requests jobs reaper reaper_jobs (MkSys created []) (run_ops opens created).1
    (MkSys (run_ops opens created).2 []) (ID secret)) as [_ H].
  - apply run_ops_history.
  - apply (bool_decide_unpack _). by vm_compute.
  - by apply H.
Defined.

Definition exchange : list op :=
  [OpReqSubmit (c_ID request) (SubmissionToken request) submission;
   OpReqSubmit (c_ID request) (SubmissionToken request) submission;
   OpReqOpen (c_ID request) (RetrievalToken request); OpReqOpen (c_ID request) (RetrievalToken request)].
Lemma request_opened_at_most_once_witness :
  times (RequestOpened (c_ID request)) (run_ops exchange asked).1 = 1%nat /\
  ~ unfinished (c_ID request) (db (run_ops exchange asked).2).
Proof.
  assert (E : times (RequestOpened (c_ID request)) (run_ops exchange asked).1 = 1%nat) by (by vm_compute).
  split; [exact E|].
  destruct (request_opened_at_most_once store requests jobs reaper reaper_jobs (MkSys asked []) (run_ops exchange asked).1
    (MkSys (run_ops exchange asked).2 []) (c_ID request)) as [_ H].
  - apply run_ops_history.
  - apply (bool_decide_unpack _). by vm_compute.
  - by apply H.
Defined.

(** The retry is answered with the receipt of the first submission. *)
Lemma request_accepts_one_attempt_witness :
  times (RequestAccepted (c_ID request) (hash_of (attempt_token 7))) (run_ops exchange asked).1 = 2%nat /\
  forall a, RequestAccepted (c_ID request) a ∈ (run_ops exchange asked).1 -> a = hash_of (attempt_token 7).
Proof.
  split; [by vm_compute|]. intros a Ha.
  apply (request_accepts_one_attempt store requests jobs reaper reaper_jobs (MkSys asked []) (run_ops exchange asked).1
    (MkSys (run_ops exchange asked).2 []) (c_ID request)).
  - apply run_ops_history.
  - apply (bool_decide_unpack _). by vm_compute.
  - exact Ha.
  - apply (bool_decide_unpack _). by vm_compute.
Defined.

Definition opened : World ApiDB := (run_ops opens created).2.
Lemma jobs_never_lost_witness :
  size (t_outbox (db opened)) = 1%nat /\
  outbox_grows (db (later opened)) (db (run_ops [OpClaim] (later opened)).2).
Proof.
  split; [by vm_compute|].
  apply (jobs_never_lost store requests jobs reaper reaper_jobs (MkSys (later opened) []) (run_ops [OpClaim] (later opened)).1
    (MkSys (run_ops [OpClaim] (later opened)).2 [])). apply run_ops_history.
Defined.

Definition no_key : string := "".
Definition upload_key : string := default no_key (r_upload_key (request_at reserved)).
Definition abandon : list op := [OpReqAbandon (c_ID request) (SubmissionToken request) attempt].
Lemma no_request_object_forgotten_witness :
  holds_key (c_ID request) upload_key (db reserved) /\
  (holds_key (c_ID request) upload_key (db (run_ops abandon reserved).2) \/
   has_job upload_key (db (run_ops abandon reserved).2)).
Proof.
  assert (Hk : holds_key (c_ID request) upload_key (db reserved)).
  { exists (request_at reserved). split; [apply request_found; by vm_compute|left; by vm_compute]. }
  split; [exact Hk|].
  apply (no_request_object_forgotten store requests jobs reaper reaper_jobs (MkSys reserved []) [] (MkSys reserved [])
    (run_ops abandon reserved).1 (MkSys (run_ops abandon reserved).2 [])).
  - constructor.
  - apply run_ops_history.
  - reflexivity.
  - assert (E : (run_ops abandon reserved).1 = []) by (by vm_compute). rewrite E.
    clear. intros l1 l2 id El Hc. symmetry in El. apply app_nil in El as [-> _]. by apply not_elem_of_nil in Hc.
  - assert (H : map_Forall (fun _ r => negb (bool_decide (r_state r = Waiting)) = true) (t_requests (db reserved)))
      by (apply (bool_decide_unpack _); by vm_compute).
    intros id r Hr Hw. apply H in Hr. rewrite Hw in Hr. discriminate Hr.
  - exact Hk.
Defined.

Definition traffic : list op := [OpCreateLarge large; OpFinalize upload_id; OpClaim].
Lemma gauge_counts_pending_witness :
  balanced w0 /\ active_uploads (run_ops [OpCreateLarge large] w0).2 = 1 /\ balanced (run_ops traffic w0).2.
Proof.
  assert (H0 : balanced w0) by (split; [by vm_compute|apply map_Forall_empty]).
  split_and!; [exact H0|by vm_compute|].
  apply (gauge_counts_pending store requests jobs reaper reaper_jobs (MkSys w0 []) (run_ops traffic w0).1
    (MkSys (run_ops traffic w0).2 [])); [apply run_ops_history|exact H0].
Defined.

(** A text and an upload are created, the upload is finalized, the text opened. *)
Definition deliveries : list op := [OpCreate locked; OpCreateLarge large; OpFinalize upload_id; OpOpen (ID secret) "proof"].
Lemma database_well_typed_witness :
  size (t_payloads (db (run_ops [OpCreate locked] w0).2)) = 1%nat /\ size (t_secrets (db (run_ops deliveries w0).2)) = 2%nat /\
  well_typed (db (run_ops deliveries w0).2).
Proof.
  split_and!; [by vm_compute..|].
  apply (database_well_typed store requests jobs reaper reaper_jobs (MkSys w0 []) (run_ops deliveries w0).1
    (MkSys (run_ops deliveries w0).2 [])); [apply run_ops_history|exact empty_well_typed].
Defined.

(** ** The worker *)
Definition v0 : World WorkerDB := MkWorld empty_worker_db 0 0 [].
Definition budget : Z := 2.
Lemma budget_positive : 1 <= budget.
Proof. done. Qed.
Definition go (w : World WorkerDB) : World WorkerDB := (Start "job" KindDeleteSecret "payload" budget w).2.
Definition succeed (w : World WorkerDB) : World WorkerDB := (MarkSucceeded 1 w).2.
Definition fail_ (id : Z) (w : World WorkerDB) : World WorkerDB := (MarkFailed id "boom" "payload" budget w).2.
Lemma go_step w : wstep budget (db w) (db (go w)).
Proof. eapply ws_start. apply surjective_pairing. Qed.
Lemma succeed_step w : wstep budget (db w) (db (succeed w)).
Proof. eapply ws_succeeded. apply surjective_pairing. Qed.
Lemma fail_step id w : wstep budget (db w) (db (fail_ id w)).
Proof. eapply ws_failed. apply surjective_pairing. Qed.

Definition no_attempt : Attempt := MkAttemptRow "" 0 0 None AttemptRunning None.
Definition attempt_at (id : Z) (w : World WorkerDB) : Attempt := default no_attempt (t_attempts (db w) !! id).
Lemma attempt_found id (w : World WorkerDB) :
  is_some (t_attempts (db w) !! id) = true -> t_attempts (db w) !! id = Some (attempt_at id w).
Proof. unfold attempt_at. by destruct (t_attempts (db w) !! id). Qed.
Definition no_receipt_row : Receipt := MkReceiptRow "" StateProcessing 0 None 0 0 None.
Definition receipt_at (w : World WorkerDB) : Receipt := default no_receipt_row (t_receipts (db w) !! "job").
Lemma receipt_found (w : World WorkerDB) :
  is_some (t_receipts (db w) !! "job") = true -> t_receipts (db w) !! "job" = Some (receipt_at w).
Proof. unfold receipt_at. by destruct (t_receipts (db w) !! "job"). Qed.
Definition running : World WorkerDB := go v0.
Lemma running_reached : rtc (wstep budget) empty_worker_db (db running).
Proof. eapply rtc_once. apply (go_step v0). Qed.

Lemma one_running_attempt_witness :
  exists r, t_receipts (db running) !! at_job (attempt_at 1 running) = Some r /\ rc_state r = StateProcessing.
Proof.
  destruct (one_running_attempt budget budget_positive (db running) 1 1 (attempt_at 1 running) (attempt_at 1 running))
    as (_ & r & Hr & Hs & _).
  - exact running_reached.
  - apply attempt_found. by vm_compute.
  - apply attempt_found. by vm_compute.
  - reflexivity.
  - by vm_compute.
  - by vm_compute.
  - exists r. by split.
Defined.

Lemma outcomes_final_witness :
  t_receipts (db (go (later (succeed running)))) !! "job" = Some (receipt_at (succeed running)).
Proof.
  apply (outcomes_final budget budget_positive (db (succeed running)) (db (go (later (succeed running))))).
  - eapply rtc_r; [exact running_reached|apply succeed_step].
  - rewrite <- (later_db (succeed running)) at 1. eapply rtc_once, go_step.
  - apply receipt_found. by vm_compute.
  - left. by vm_compute.
Defined.

Definition spent : World WorkerDB := fail_ 2 (go (fail_ 1 running)).
Lemma failure_budget_witness :
  size (failures "job" (db spent)) = 2%nat /\ is_some (t_dead (db spent) !! "job") = true.
Proof.
  assert (E : size (failures "job" (db spent)) = 2%nat) by (by vm_compute).
  split; [exact E|]. destruct (failure_budget budget budget_positive (db spent) "job") as [_ H].
  - eapply rtc_r; [|apply fail_step]. eapply rtc_r; [|apply go_step]. eapply rtc_r; [|apply fail_step]. exact running_reached.
  - destruct H as [_ H]; [by rewrite E|exact H].
Defined.

Definition no_start : StartResult := AlreadySucceededJob.
Definition started_as (a : StartedAttempt) (r : result StartResult) : bool :=
  match r with Ok (StartedJob b) => (st_ID a =? st_ID b) && (st_Attempt a =? st_Attempt b) | _ => false end.
Lemma go_starts a w :
  started_as a (Start "job" KindDeleteSecret "payload" budget w).1 = true ->
  Start "job" KindDeleteSecret "payload" budget w = (Ok (StartedJob a), go w).
Proof.
  unfold go. destruct (Start _ _ _ _ w) as [[[[x y]|]|e] w']; [|discriminate..]. destruct a as [x' y']. simpl.
  intros [->%Z.eqb_eq ->%Z.eqb_eq]%andb_true_iff. reflexivity.
Qed.

Definition reclaimed_job : World WorkerDB := go (later running).
Lemma late_completion_fenced_witness :
  is_ok (MarkSucceeded 1 reclaimed_job).1 = false /\ db (MarkSucceeded 1 reclaimed_job).2 = db reclaimed_job.
Proof.
  destruct (late_completion_fenced budget budget_positive "job" KindDeleteSecret "payload" KindDeleteSecret "payload"
    v0 (MkStarted 1 1) running (later running) (MkStarted 2 2) reclaimed_job reclaimed_job) as [H _].
  - apply rtc_refl.
  - apply go_starts. by vm_compute.
  - rewrite (later_db running). apply rtc_refl.
  - apply go_starts. by vm_compute.
  - apply rtc_refl.
  - eapply H. apply surjective_pairing.
Defined.

Lemma lease_excludes_witness : db (go running) = db running.
Proof.
  apply (lease_excludes budget "job" KindDeleteSecret "payload" running (Start "job" KindDeleteSecret "payload" budget running).1
    (go running) (receipt_at running)).
  - apply surjective_pairing.
  - apply receipt_found. by vm_compute.
  - by vm_compute.
  - by vm_compute.
Defined.

Lemma expired_lease_reclaimed_witness :
  exists a w', Start "job" KindDeleteSecret "payload" budget (later running) = (Ok (StartedJob a), w') /\ st_Attempt a = 2.
Proof.
  destruct (expired_lease_reclaimed budget budget_positive (NF := env_no_faults) "job" "payload" (later running) (receipt_at running) 1 (attempt_at 1 running))
    as (a & w' & x' & H & Ha & _).
  - rewrite (later_db running). apply (wsteps_inv budget _ _ running_reached (inv_empty budget budget_positive)).
  - rewrite (later_db running). apply (receipt_found running). by vm_compute.
  - by vm_compute.
  - by vm_compute.
  - by vm_compute.
  - by vm_compute.
  - by vm_compute.
  - by vm_compute.
  - rewrite (later_db running). apply (attempt_found 1 running). by vm_compute.
  - by vm_compute.
  - by vm_compute.
  - exists a, w'. split; [exact H|exact Ha].
Defined.

(** *** A batch of messages *)
Definition processor : Processor :=
  MkProcessor (HandleJob (Some (bucket WorkerDB))) budget (Some AcknowledgeObjectCleanup).
Definition message (ev : JobEvent) : string := match JSON ev with Ok s => s | Err _ => "" end.
Definition batch : list string :=
  [message (MkJobEvent "j1" KindDeleteOCIObject "" "managed/secrets/a" ReasonExpired epoch ∅); "garbage"].
Lemma acknowledged_only_after_success_witness :
  length (trace (ConsumeMessages processor batch v0).2) = 4%nat /\
  exists tl, trace (ConsumeMessages processor batch v0).2 = [] ++ tl /\
    forall payload, EffAck payload ∈ tl -> job_succeeded payload (db (ConsumeMessages processor batch v0).2).
Proof.
  split; [by vm_compute|].
  assert (HandlerSpec (handler processor)) by (apply HandleJob_spec; intros o [= <-]; apply _).
  assert (Hack : forall k, acknowledger processor = Some k -> HandlerSpec k) by (intros k [= <-]; apply _).
  apply (acknowledged_only_after_success processor budget eq_refl Hack batch v0 (ConsumeMessages processor batch v0).1).
  - exact budget_positive.
  - apply rtc_refl.
  - apply surjective_pairing.
Defined.

End Scenario.
