(* ===== verification/SharingWitnesses.v ===== *)
(** * Concurrent finalizes at work

    A scheduler that runs the steps of Sharing.v one by one, and two runs of it
    on the service of Witnesses.v: two finalizes of one upload that share a
    copy, and a finalize that is handed the receipt of another attempt. *)

From S2P Require Import Prelude World GoTime Codec Schema Outbox ObjectStorage SecretStore RequestStore Reaper Lifecycle Sharing Witnesses.
Import Concrete Scenario.

Module Concurrent.

(** ** A scheduler *)
Inductive action :=
  | Arrive (k : nat) (id token : string) (i : AttemptInput)
  | Turn (k : nat)
  | Other (o : op).

(** The next step of caller [k]. *)
Definition turn (k : nat) (x : shared) : option (list event * shared) :=
  c ← callers x !! k;
  match cl_state c with
  | Checked =>
      match finalizing x !! cl_id c with
      | Some n => Some ([], move k c (Joined n) (sh_world x) (copies x) x)
      | None => let n := size (calls x) in
                match calls x !! n with None => Some ([], make_call k n c x) | Some _ => None end
      end
  | Leading n =>
      if (copies x <? maxCopies)%nat then Some ([], move k c (Copying n) (sh_world x) (S (copies x)) x) else None
  | Copying n =>
      let '(res, w') := copyVerified (bucket ApiDB) (cl_object c) (sh_world x) in
      Some ([], move k c (match res with Ok _ => Accepting n | Err e => Returning n (Err e) end) w' (copies x - 1) x)
  | Accepting n =>
      let '(res, w') := acceptAttempt requests (cl_id c) (cl_token c) (cl_attempt c) (cl_object c) (cl_input c) (sh_world x) in
      Some (match res with Ok _ => [RequestAccepted (cl_id c) (cl_attempt c)] | Err _ => [] end,
            move k c (Returning n res) w' (copies x) x)
  | Returning n r => Some ([], close_call k n c r x)
  | Joined n =>
      call ← calls x !! n; r ← call_done call; Some ([], move k c (Woken n r) (sh_world x) (copies x) x)
  | _ => None
  end.

Definition arrive (k : nat) (id token : string) (i : AttemptInput) (x : shared) : option (list event * shared) :=
  match validateAttempt i, callers x !! k with
  | Ok attempt, None =>
      match finalizeFirst requests id token attempt i (sh_world x) with
      | (Ok (inr a), w') => Some ([CopyStarted id],
          MkShared w' (finalizing x) (calls x) (<[k := MkCaller id token attempt i a Checked]> (callers x)) (copies x))
      | _ => None
      end
  | _, _ => None
  end.

Definition act (a : action) (x : shared) : option (list event * shared) :=
  match a with
  | Arrive k id token i => arrive k id token i x
  | Turn k => turn k x
  | Other o => let '(res, w') := exec store requests jobs reaper o (sh_world x) in
               Some (events_of res, MkShared w' (finalizing x) (calls x) (callers x) (copies x))
  end.

(** An action that is not possible is skipped. *)
Fixpoint schedule (l : list action) (x : shared) : list event * shared :=
  match l with
  | [] => ([], x)
  | a :: l =>
      match act a x with
      | Some (new, y) => let '(evs, z) := schedule l y in (new ++ evs, z)
      | None => schedule l x
      end
  end.

Abbreviation ShareStep := (share_step store requests jobs reaper).
Abbreviation Sharing := (sharing store requests jobs reaper).

Lemma turn_step k x new y : turn k x = Some (new, y) -> ShareStep x new y.
Proof.
  unfold turn. intros H. apply bind_Some in H as (c & Hk & H). apply sh_advance.
  destruct (cl_state c) as [|n|n|n|n r|n|n r|n r|] eqn:Hc; try done.
  - destruct (finalizing x !! cl_id c) as [n|] eqn:Hf; [injection H as <- <-; by eapply sh_join|].
    destruct (calls x !! size (calls x)) eqn:Hn; [done|]. injection H as <- <-. by eapply sh_lead.
  - destruct (Nat.ltb_spec (copies x) maxCopies) as [Hm|Hm]; [|done]. injection H as <- <-. by eapply sh_slot.
  - destruct (copyVerified (bucket ApiDB) (cl_object c) (sh_world x)) as [res w'] eqn:E. injection H as <- <-. by eapply sh_copy.
  - destruct (acceptAttempt requests _ _ _ _ _ _) as [res w'] eqn:E. injection H as <- <-. by eapply sh_accept.
  - injection H as <- <-. by eapply sh_close.
  - apply bind_Some in H as (call & Hn & H). apply bind_Some in H as (r & Hd & [= <- <-]). by eapply sh_wake.
Qed.
Lemma act_step a x new y : act a x = Some (new, y) -> ShareStep x new y.
Proof.
  destruct a as [k id token i|k|o]; simpl.
  - unfold arrive. destruct (validateAttempt i) as [at_|e] eqn:Ev; [|done]. destruct (callers x !! k) eqn:Hk; [done|].
    destruct (finalizeFirst requests id token at_ i (sh_world x)) as [[[rc|a]|e] w'] eqn:E; try done.
    intros [= <- <-]. by eapply sh_first.
  - apply turn_step.
  - destruct (exec store requests jobs reaper o (sh_world x)) as [res w'] eqn:E. intros [= <- <-]. by eapply sh_op.
Qed.

Lemma sharing_cons x new y evs z : ShareStep x new y -> Sharing y evs z -> Sharing x (new ++ evs) z.
Proof.
  intros Hs. induction 1 as [y|y evs y' more z _ IH Hs'].
  - rewrite app_nil_r. rewrite <-(app_nil_l new). by eapply sharing_snoc; [constructor|].
  - rewrite app_assoc. by eapply sharing_snoc; [apply IH|].
Qed.
Lemma schedule_sharing l x : Sharing x (schedule l x).1 (schedule l x).2.
Proof.
  revert x. induction l as [|a l IH]; intros x; simpl; [constructor|].
  destruct (act a x) as [[new y]|] eqn:E; [|apply IH]. specialize (IH y). apply act_step in E.
  destruct (schedule l y) as [evs z]. by eapply sharing_cons.
Qed.

(** ** Two finalizes of one upload *)
Definition finalize (k : nat) : action := Arrive k (c_ID request) (SubmissionToken request) attempt.
Definition together : list action :=
  [finalize 0; finalize 1; Turn 0; Turn 1; Turn 0; Turn 0; Turn 0; Turn 0; Turn 1].
Definition state_of (k : nat) (x : shared) : option caller_state := cl_state <$> callers x !! k.

Definition woken_as (st : option caller_state) : option Receipt :=
  match st with Some (Woken _ (Ok rc)) => Some rc | _ => None end.
Lemma woken_at k x rc : woken_as (state_of k x) = Some rc ->
  exists c n, callers x !! k = Some c /\ cl_state c = Woken n (Ok rc).
Proof.
  unfold state_of. destruct (callers x !! k) as [c|]; [|done]. cbn. intros H. exists c.
  destruct (cl_state c) as [| | | | | | |n [rc'|e]|]; try done. injection H as ->. by exists n.
Qed.

Definition shared_run : list event * shared := schedule together (started reserved).
Lemma finalize_copies_shared_witness :
  woken_as (state_of 1 shared_run.2) = Some (MkReceipt 1 "submitted") /\ length (trace (sh_world shared_run.2)) = 1%nat /\
  exists id k' c' n, callers shared_run.2 !! k' = Some c' /\ cl_state c' = Finished n (Ok (MkReceipt 1 "submitted")) /\
    RequestAccepted id (cl_attempt c') ∈ shared_run.1.
Proof.
  assert (E : woken_as (state_of 1 shared_run.2) = Some (MkReceipt 1 "submitted")) by (by vm_compute).
  split_and!; [exact E|by vm_compute|]. apply woken_at in E as (c & n & Hk & Hs).
  destruct (finalize_copies_shared store requests jobs reaper reserved shared_run.1 shared_run.2 (schedule_sharing _ _))
    as (_ & _ & _ & H).
  destruct (H 1%nat c n _ Hk Hs) as (k' & c' & Hk' & _ & Hs' & Ha). exists (cl_id c), k', c', n.
  split_and!; [exact Hk'|exact Hs'|]. apply (Ha (MkReceipt 1 "submitted")). reflexivity.
Defined.

(** Both have asked, one leads, the other waits for it. *)
Definition asked_twice : list event * shared := schedule [finalize 0; finalize 1; Turn 0; Turn 1] (started reserved).
Lemma finalizes_all_return_witness :
  work asked_twice.2 = 6%nat /\
  exists n evs y, callers_run requests n asked_twice.2 evs y /\ (n <= 6)%nat /\ map_Forall (fun _ c => returned c) (callers y).
Proof.
  assert (E : work asked_twice.2 = 6%nat) by (by vm_compute). split; [exact E|].
  destruct (finalizes_all_return store requests jobs reaper reserved asked_twice.1 asked_twice.2 (bucket ApiDB)
    (schedule_sharing _ _) eq_refl) as [(n & evs & y & Hr & Hd) Hb].
  exists n, evs, y. split_and!; [exact Hr| |exact Hd]. rewrite <-E. exact (proj1 (Hb n evs y Hr)).
Defined.

Lemma shared_finalizes_refine_history_witness :
  length shared_run.1 = 3%nat /\
  exists copied, history store requests jobs reaper (MkSys reserved []) shared_run.1 (MkSys (sh_world shared_run.2) copied).
Proof.
  split; [by vm_compute|].
  apply (shared_finalizes_refine_history store requests jobs reaper reserved shared_run.1 shared_run.2).
  apply schedule_sharing.
Defined.

(** ** A receipt for another attempt

    [finalizing] is keyed by the request, while its comment in store.go speaks
    of the same attempt.  Between the first transaction of a finalize and the
    mutex its attempt may be abandoned and replaced by another, whose finalize
    is then the one in flight. *)
Definition envelope2 : string := env_text (MkEnvelope envelopeVersion (Base64.encode Base64.StdEncoding stored)).
Definition checksum2 : string := Base64.encode Base64.StdEncoding (sha256 stored).
Definition reserve2 : op :=
  let i := MkUploadInput 2 (attempt_token 8) "file" (strlen stored) envelope2 checksum2 in
  let env := match validateEnvelope envelope2 "file" with Ok e => e | Err _ => "" end in
  let ck := match canonicalBase64 checksum2 32 32 with Ok c => c | Err _ => "" end in
  OpReqReserve (c_ID request) (SubmissionToken request) (hash_of (attempt_token 8))
    (sha256 (MarshalUpload "file" (strlen stored) env checksum2)) env ck i.
Definition replaced : list action :=
  [finalize 0; Other (OpReqAbandon (c_ID request) (SubmissionToken request) attempt); Other reserve2;
   Arrive 1 (c_ID request) (SubmissionToken request) (MkAttemptInput 2 (attempt_token 8));
   Turn 1; Turn 0; Turn 1; Turn 1; Turn 1; Turn 1; Turn 0].
Definition replaced_run : list event * shared := schedule replaced (started reserved).

(** The caller asked for generation 1, and no submission of its attempt was
    accepted. *)
Definition unearned (evs : list event) (c : caller) : bool :=
  bool_decide (ai_Generation (cl_input c) = 1 /\ RequestAccepted (cl_id c) (cl_attempt c) ∉ evs).
Lemma unearned_at evs k x c : unearned evs <$> callers x !! k = Some true -> callers x !! k = Some c ->
  ai_Generation (cl_input c) = 1 /\ RequestAccepted (cl_id c) (cl_attempt c) ∉ evs.
Proof. intros H Hk. rewrite Hk in H. apply (bool_decide_eq_true_1 _). change (Some (unearned evs c) = Some true) in H. by injection H. Qed.

(** C39: a finalize can be handed the receipt of another attempt.  There is an
    interleaving, abandon and a second reservation between the two parts of a
    finalize, after which a caller has returned a receipt, of a generation
    that is not the one it asked for, although no submission of its attempt
    was accepted. *)
Theorem joined_receipt_of_another_attempt :
  exists evs x c n rc, sharing store requests jobs reaper (started reserved) evs x /\
    callers x !! 0%nat = Some c /\ cl_state c = Woken n (Ok rc) /\ rc_Generation rc <> ai_Generation (cl_input c) /\
    RequestAccepted (cl_id c) (cl_attempt c) ∉ evs.
Proof.
  assert (E : woken_as (state_of 0 replaced_run.2) = Some (MkReceipt 2 "submitted")) by (by vm_compute).
  assert (Eu : unearned replaced_run.1 <$> callers replaced_run.2 !! 0%nat = Some true) by (by vm_compute).
  apply woken_at in E as (c & n & Hk & Hs). destruct (unearned_at _ _ _ _ Eu Hk) as [Hg Hn].
  exists replaced_run.1, replaced_run.2, c, n, (MkReceipt 2 "submitted").
  split_and!; [apply schedule_sharing|exact Hk|exact Hs|rewrite Hg; discriminate|exact Hn].
Qed.
End Concurrent.
