(* ===== verification/HttpWitnesses.v ===== *)
(** * The HTTP theorems at work

    The service of Witnesses.v behind its HTTP interface: a decoder of the
    bodies used here, a server, and the theorems applied to requests it
    serves. *)

From S2P Require Import Prelude GoStrings World GoTime Codec Schema AgeFormat Outbox ObjectStorage SecretStore SecretProofs RequestStore RequestFrames Reaper Lifecycle Float64 Http RateLimit HttpApi Router HttpProofs HttpHistory Witnesses.
Import Concrete Scenario.

Module HttpScenario.

(** Bodies are ["{}"]; anything else does not decode. *)
Definition braces {A} (x : A) (b : string) : option (A * bool) := if bool_decide (b = "{}") then Some (x, true) else None.
#[export] Instance bodies : HttpCodec := {|
  decode_create := fun _ => None;
  decode_open := braces "";
  decode_cleanup := braces ("job", "consumed");
  decode_ack := braces ("job", "managed/secrets/x");
  object_keys := fun _ => Some [];
  decode_map := braces (Some []);
  decode_request_create := fun _ => None;
  decode_submit := fun _ => None;
  decode_upload := fun _ => None;
  decode_attempt := fun _ => None;
|}.

Definition options : RouterOptions :=
  MkRouterOptions 65536 0 0 "https://flick.example" "internal" "metrics" 5 5 [] (Some jobs) None (Some requests) false.
Definition server : Server := (NewRouter store options).1.
Definition limiters : Limiters := (NewRouter store options).2.
Definition page : Response := MkResp 200 [] NoBody.

Definition live : World ApiDB := (SecretStore.Create store text w0).2.
Definition live_id : string := ID (value no_secret (SecretStore.Create store text w0).1).
Definition empty : World ApiDB := MkWorld empty_db (tick live) 0 [].

Definition post (path : string) (headers : list (string * string)) : Request :=
  MkReq "POST" path "" "203.0.113.9:4711" headers (MkStream "{}" true).

(** A well-formed management token that is not the secret's. *)
Definition forged : string := Base64.encode Base64.RawURLEncoding "0123456789abcdef0123456789abcdef".
Definition forgery : Request := post "/revoke" [("Authorization", "Bearer " +:+ forged)].

Lemma forgery_lacks : lacks_credential server RevokeSecret live_id forgery (db live) /\
  lacks_credential server RevokeSecret live_id forgery (db empty).
Proof.
  assert (E : bool_decide (sha256 <$> decode_token (managementBearer (rq_Header forgery)) =
                           m_token_hash <$> t_management (db live) !! live_id) = false) by (by vm_compute).
  apply bool_decide_eq_false in E. split.
  - intros raw m Hr Hm Heq. apply E. rewrite Hr, Hm. simpl. by rewrite Heq.
  - intros raw m _ Hm. simpl in Hm. by rewrite lookup_empty in Hm.
Qed.

Lemma no_credential_no_information_witness :
  exists resp l' w1' w2', serve server page RevokeSecret live_id forgery limiters live = (Ok (resp, l'), w1') /\
    serve server page RevokeSecret live_id forgery limiters empty = (Ok (resp, l'), w2') /\
    400 <= rs_Status resp /\ db w1' = db live /\ db w2' = db empty.
Proof.
  destruct forgery_lacks as [H1 H2].
  apply (no_credential_no_information server page RevokeSecret live_id forgery limiters live empty); [|reflexivity|exact H1|exact H2].
  intros H. discriminate H.
Defined.

Lemma requests_wired x : sv_requests server = Some x -> x = requests.
Proof. by intros [= <-]. Qed.
Lemma jobs_wired x : sv_outbox server = Some x -> x = jobs.
Proof. by intros [= <-]. Qed.

Definition opening : Request := post "/api/secrets/x/open" [].
Definition answered : result (Response * Limiters) * World ApiDB := serve server page OpenSecret live_id opening limiters live.

Lemma serve_refines_history_witness :
  exists resp l' evs c', answered.1 = Ok (resp, l') /\
    history store requests jobs reaper (MkSys live []) evs (MkSys answered.2 c') /\
    filter (fun ev => visible ev = true) evs = response_events OpenSecret live_id resp.
Proof.
  apply (serve_refines_history server requests jobs reaper page requests_wired jobs_wired OpenSecret live_id opening limiters live []).
  - intros H. discriminate H.
  - apply surjective_pairing.
Defined.

(** Two opens of one secret: the first is answered with it, the second is not. *)
Definition two_opens : list call := [MkCall OpenSecret live_id opening; MkCall OpenSecret live_id opening].
Definition two_answers : list Response := value [] (serve_all server page two_opens limiters live).1.

Lemma two_answers_run :
  serve_all server page two_opens limiters live = (Ok two_answers, (serve_all server page two_opens limiters live).2).
Proof. apply ran. by vm_compute. Qed.

Lemma http_secret_delivered_once_witness :
  rs_Status <$> two_answers = [200; 410] /\
  (times (SecretOpened live_id) (concat (zip_with call_events two_opens two_answers)) <= 1)%nat.
Proof.
  split; [by vm_compute|].
  apply (http_secret_delivered_once server requests jobs reaper page requests_wired jobs_wired reaper_jobs two_opens limiters live
    two_answers (serve_all server page two_opens limiters live).2 live_id).
  - repeat constructor; intros H; discriminate H.
  - apply two_answers_run.
  - apply (bool_decide_unpack _). by vm_compute.
Defined.
End HttpScenario.
