(* ===== verification/EndToEnd.v ===== *)
(** * A deployment to send to and open from

    A router library that satisfies [Routes], and the theorem about the whole
    path from the client to the database and back, applied to a text that is
    sent without a passphrase. *)

From S2P Require Import Prelude GoStrings Codec World GoTime Schema AgeFormat Outbox ObjectStorage SecretStore SecretProofs Http RateLimit RateLimitProofs Url ClientCrypto ShareLink Files Client ClientJson GoDuration CliSend CliOpen PathProofs CliWitnesses RequestStore HttpApi HttpJson Router Contract Deployment Witnesses HttpWitnesses.
Import Concrete Scenario HttpScenario.
#[local] Open Scope Z_scope.

Module EndToEnd.

(** ** A router *)
Fixpoint match_path (pattern path : list string) : option string :=
  match pattern, path with
  | [], [] => Some ""
  | p :: ps, s :: ss =>
      if bool_decide (p = "{id}") then if bool_decide (s = "") then None else rest ← match_path ps ss; Some (s +:+ rest)
      else if bool_decide (p = s) then match_path ps ss else None
  | _, _ => None
  end.
Definition find_route (m path : string) : option (endpoint * string) :=
  head (omap (fun x => let '(m', p, e) := x in
    if bool_decide (m = m') then id ← match_path (split_on slash p) (split_on slash path); Some (e, id) else None) route_table).

Lemma split_segment id t : contains_byte slash id = false -> split_on slash (id +:+ String.String slash t) = id :: split_on slash t.
Proof.
  induction id as [|a id IH]; [done|]. cbn [contains_byte]. intros [Ha Hi]%orb_false_iff.
  change (String.String a id +:+ String.String slash t) with (String.String a (id +:+ String.String slash t)). cbn [split_on].
  by rewrite Ha, IH.
Qed.

Lemma split_ne s : split_on slash s <> [].
Proof. destruct s as [|a s]; [done|]. cbn [split_on]. destruct (Ascii.eqb a slash); [done|]. by destruct (split_on slash s). Qed.
Lemma split_after a t : split_on slash (a +:+ String.String slash t) = split_on slash a ++ split_on slash t.
Proof.
  induction a as [|x a IH]; [done|]. change (String.String x a +:+ String.String slash t) with (String.String x (a +:+ String.String slash t)).
  cbn [split_on]. rewrite IH. destruct (Ascii.eqb x slash); [done|]. destruct (split_on slash a) eqn:E; [by apply split_ne in E|done].
Qed.

(** The segments of a pattern with a value for [{id}].  The patterns of the
    table are literal, or have one [{id}] after a slash and before another or
    the end. *)
Definition fill_segments (id p : string) : list string := (fun s => if bool_decide (s = "{id}") then id else s) <$> split_on slash p.
Definition pattern_form (id p : string) : Prop :=
  ((fill_pattern p id).1 = p /\ fill_segments id p = split_on slash p) \/
  (exists a, (fill_pattern p id).1 = (a +:+ "/") +:+ id +:+ "" /\ fill_segments id p = split_on slash a ++ [id]) \/
  (exists a b, (fill_pattern p id).1 = (a +:+ "/") +:+ id +:+ String.String slash b /\ fill_segments id p = split_on slash a ++ id :: split_on slash b).
Lemma table_forms id : Forall (fun x => pattern_form id x.1.2) route_table.
Proof.
  unfold route_table, pattern_form. repeat apply Forall_cons_2; [..|apply Forall_nil_2]; cbn [fst snd].
  all: match goal with |- context [fill_pattern ?p] =>
    match eval vm_compute in (Cut "{id}" p) with
    | (_, _, false) => left; split; reflexivity
    | (?a, "", true) => right; left; let a' := eval vm_compute in (String.substring 0 (String.length a - 1) a) in exists a'; split; reflexivity
    | (?a, String.String _ ?b, true) => right; right; let a' := eval vm_compute in (String.substring 0 (String.length a - 1) a) in exists a', b; split; reflexivity
    end end.
Qed.

Lemma fill_split id p : pattern_form id p -> contains_byte slash id = false -> split_on slash (fill_pattern p id).1 = fill_segments id p.
Proof.
  intros Hf Hs. destruct Hf as [[-> ->]|[(a & -> & ->)|(a & b & -> & ->)]]; [done|..]; rewrite append_assoc.
  - change ("/" +:+ id +:+ "") with (String.String slash (id +:+ "")). rewrite append_nil_r, split_after. by rewrite (split_plain slash id).
  - change ("/" +:+ id +:+ String.String slash b) with (String.String slash (id +:+ String.String slash b)).
    by rewrite split_after, split_segment.
Qed.

(** Matching where [None] stands for a value of [{id}]: no match, a match with
    or without one, or unknown when it depends on the value. *)
Definition holes (p : string) : list (option string) := (fun s => if bool_decide (s = "{id}") then None else Some s) <$> split_on slash p.
Fixpoint match_holes (pattern : list string) (path : list (option string)) : option (option bool) :=
  match pattern, path with
  | [], [] => Some (Some false)
  | p :: ps, None :: ss =>
      if bool_decide (p = "{id}") then
        match match_holes ps ss with Some (Some false) => Some (Some true) | Some None => Some None | _ => None end
      else if bool_decide (p = "") then Some None else None
  | p :: ps, Some s :: ss =>
      if bool_decide (p = "{id}") then if bool_decide (s = "") then Some None else None
      else if bool_decide (p = s) then match_holes ps ss else Some None
  | _, _ => Some None
  end.
Fixpoint find_holes (m : string) (path : list (option string)) (table : list (string * string * endpoint)) : option (endpoint * bool) :=
  match table with
  | [] => None
  | (m', p, e) :: table =>
      if bool_decide (m = m') then
        match match_holes (split_on slash p) path with
        | Some (Some has) => Some (e, has)
        | Some None => find_holes m path table
        | None => None
        end
      else find_holes m path table
  end.

Lemma holes_table : Forall (fun x => find_holes x.1.1 (holes x.1.2) route_table = Some (x.2, (fill_pattern x.1.2 "").2)) route_table.
Proof. repeat (apply Forall_cons_2; [by vm_compute|]). apply Forall_nil_2. Qed.

Section value.
Context (id : string) (Hid : id <> "").
Lemma match_holes_ok path : forall ps r, match_holes ps path = Some r ->
  match_path ps (default id <$> path) = match r with None => None | Some has => Some (if has : bool then id else "") end.
Proof.
  induction path as [|o path IH]; intros [|p ps] r H; cbn [match_holes] in H; [by injection H as <-..|by destruct o; injection H as <-|].
  cbn [fmap list_fmap match_path]. destruct o as [s|]; cbn [default from_option].
  - repeat case_bool_decide; (done || (injection H as <-; done) || by apply IH).
  - cbn [Datatypes.id]. case_bool_decide; [rewrite bool_decide_false by done|].
    + destruct (match_holes ps path) as [[[]|]|] eqn:E; [done| |by injection H as <-; rewrite (IH _ _ E)|done].
      injection H as <-. rewrite (IH _ _ E). cbn. by rewrite append_nil_r.
    + case_bool_decide as E; [|done]. injection H as <-. subst p. by rewrite bool_decide_false by congruence.
Qed.

Lemma find_holes_ok m path e has table : find_holes m (holes path) table = Some (e, has) ->
  head (omap (fun x => let '(m', p, e) := x in
    if bool_decide (m = m') then i ← match_path (split_on slash p) (fill_segments id path); Some (e, i) else None) table) =
  Some (e, if has then id else "").
Proof.
  assert (Hfill : fill_segments id path = default id <$> holes path).
  { unfold fill_segments, holes. rewrite <-list_fmap_compose. apply list_fmap_ext. intros i x _. cbn. by case_bool_decide. }
  rewrite Hfill. induction table as [|[[m' p] e'] table IH]; [done|]. cbn [find_holes omap list_omap]. case_bool_decide; [|by apply IH].
  destruct (match_holes (split_on slash p) (holes path)) as [r|] eqn:E; [|done]. rewrite (match_holes_ok _ _ _ E).
  destruct r as [h|]; [by intros [= <- <-]|]. apply IH.
Qed.
End value.

#[export] Instance find_routes : Routes find_route.
Proof.
  intros m p e id Hin Hid Hb.
  assert (Hs : contains_byte slash id = false).
  { apply contains_none. revert Hb. apply all_bytes_mono. by apply (all_ascii_impl plain_byte (fun a => negb (Ascii.eqb a slash))). }
  pose proof (table_forms id) as Hforms. rewrite Forall_forall in Hforms. specialize (Hforms _ Hin).
  pose proof holes_table as Hholes. rewrite Forall_forall in Hholes. specialize (Hholes _ Hin). cbn [fst snd] in *.
  unfold find_route. rewrite (fill_split id p Hforms Hs). rewrite (find_holes_ok id Hid m p e _ _ Hholes).
  unfold fill_pattern. by destruct (Cut "{id}" p) as [[? ?] []].
Qed.

(** ** A text, sent and opened *)
Definition api : Network API := api_network env server page "203.0.113.9:4711" find_route.
#[export] Existing Instance api.
#[export] Instance mime : Mime := fun _ => "".

Lemma flick_origin : origin_ok "https" "flick.example" "".
Proof. split; [by vm_compute|by vm_compute|by vm_compute|split; [by left|done]|by vm_compute]. Qed.

Definition flick : Client := NewClient "https://flick.example/".
Definition note : SendOptions := MkSend "the password is swordfish" "" None "" "" (60 * Minute) "".
Definition sender : World (CliState API) := MkWorld (MkCli files0 (w0, limiters) []) 0 0 [].
Definition no_result : SendResult := MkSent "" "" "" "" false.
Definition sent_note : result SendResult * World (CliState API) := Send (ENV := calm_env) (NET := api) (CC := json_client) flick note sender.
Definition sent_result : SendResult := value no_result sent_note.1.
Definition shared : World (CliState API) := sent_note.2.

(** A limiter that was never used admits anything. *)
Lemma fresh_admits k t : (charge (newRateLimiter 5 []) k t).1 = None.
Proof.
  unfold charge, allow. cbn [newRateLimiter buckets]. rewrite lookup_empty. cbn [from_option Datatypes.id].
  rewrite refill_still by done. reflexivity.
Qed.

Lemma shared_admits : admitting (peer (db shared)).2.
Proof. intros k t. assert (E : openLimiter (peer (db shared)).2 = newRateLimiter 5 []) by (by vm_compute). rewrite E. apply fresh_admits. Qed.

Lemma shared_in_time : in_time env (peer (db shared)).1 (sr_ID sent_result).
Proof.
  assert (E : s_expires <$> t_secrets (db (peer (db shared)).1) !! sr_ID sent_result = Some (epoch + 3602 * Second)) by (by vm_compute).
  assert (Et : tick (peer (db shared)).1 = 9%nat) by (by vm_compute).
  assert (Eo : t_outbox (db (peer (db shared)).1) !! sr_ID sent_result = None) by (by vm_compute).
  unfold in_time. rewrite Et. intros n Hn. split_and!.
  - assert (H : forallb (fun n => four_digit_year (clk n) && negb (clk n =? zero_time)) (seq 9 13) = true) by (by vm_compute).
    rewrite forallb_forall in H. specialize (H n). rewrite in_seq in H. specialize (H ltac:(lia)).
    apply andb_true_iff in H as [H1 H2]. split; [exact H1|]. apply negb_true_iff in H2. by apply Z.eqb_neq.
  - intros row Hr. rewrite Hr in E. injection E as ->. change (clk n) with (epoch + Z.of_nat n * Second). unfold Second. lia.
  - eexists. split; [reflexivity|]. exact Eo.
Qed.

Lemma sent_text_opens_once_witness : exists link shown w2 w3, ParseShareLink (sr_Link sent_result) = Ok link /\
  or_Plaintext shown = "the password is swordfish" /\
  CliOpen.Open (NET := api) (CC := json_client) (NewClient (sl_Origin link)) (CliOpen.MkOpen link (Some (ret "")) (MkPaths "" ".")) shared = (Ok (shown, None), w2) /\
  CliOpen.Open (NET := api) (CC := json_client) (NewClient (sl_Origin link)) (CliOpen.MkOpen link (Some (ret "")) (MkPaths "" ".")) w2 = (Err (APIError "consumed"), w3).
Proof.
  destruct (sent_text_opens_once env server page "203.0.113.9:4711" find_route "https" "flick.example" flick_origin (ENV := calm_env)
    flick eq_refl jobs eq_refl ltac:(split; by vm_compute) ltac:(split; by vm_compute) note (MkPaths "" ".") sender shared sent_result
    (peer (db shared)).1 (peer (db shared)).2)
    as (link & shown & w2 & w3 & Hl & Ho & _ & Hp & Ha).
  - reflexivity.
  - reflexivity.
  - reflexivity.
  - apply map_Forall_empty.
  - unfold shared, sent_result. apply ran. by vm_compute.
  - apply surjective_pairing.
  - apply shared_in_time.
  - apply shared_admits.
  - exists link, shown, w2, w3. exact (conj Hl (conj Hp (conj Ho Ha))).
Defined.
End EndToEnd.
