(* ===== verification/Service.v ===== *)
(** * The two processes (src/cmd/flick-api/main.go, src/cmd/flick-worker/main.go)

    How a loaded configuration becomes a running process: which stores are
    built with which limits, what is done to the broker and the gauge before
    the first request, and how the API process ends when one of its goroutines
    does.  What starting depends on outside the program is an oracle. *)

From S2P Require Import Prelude GoStrings World GoTime Codec Schema AgeFormat Outbox ObjectStorage SecretStore SecretProofs RequestStore RequestFrames RequestProofs Reaper Float64 Http RateLimit HttpApi Router PipeRelay Lifecycle Config ConfigProofs Worker WorkerProofs ConsumerProofs JetStream Loops.
#[local] Open Scope Z_scope.

(** Whether each step of starting succeeds at a tick: the exporter of traces,
    opening a database file, creating its tables, connecting to the broker and
    its JetStream context; and the broker's liveness afterwards. *)
Class Platform := {
  tracing_ok : nat -> string -> string -> bool;
  sqlite_ok : nat -> string -> bool;
  migrate_ok : nat -> bool;
  nats_ok : nat -> string -> bool;
  jetstream_ok : nat -> bool;
  nats_up : nat -> bool;
}.

(** ** Constructors that main calls *)
Definition storage_New (cfg : S3Config) : result S3Config :=
  if negb (s3_Enabled cfg) then Err (Fail "storage backend is disabled")
  else if bool_decide (s3_Bucket cfg = "") || bool_decide (s3_Region cfg = "") then Err (Fail "bucket and region are required")
  else if bool_decide (s3_AccessKeyID cfg = "") || bool_decide (s3_SecretAccessKey cfg = "")
  then Err (Fail "access key id and secret access key are required")
  else Ok cfg.

Definition NewOutboxStore (subj : string) : result OutboxStore :=
  if bool_decide (subj = "") then Err (Fail "subject is required") else Ok {| subject := subj |}.

Record CleanupClient := MkCleanupClient { cc_baseURL : string; cc_token : string }.
Definition NewCleanupClient (baseURL token : string) : result CleanupClient :=
  let baseURL := trim_right_byte slash (TrimSpace baseURL) in
  let token := TrimSpace token in
  if bool_decide (baseURL = "") then Err (Fail "internal api base url is required")
  else if bool_decide (token = "") then Err (Fail "internal token is required")
  else Ok (MkCleanupClient baseURL token).

Section start.
Context {ENV : Env} {PF : Platform} {D : Type}.

(** A step of starting that is nothing but its success. *)
Definition step_of (msg : string) (f : nat -> bool) : M D unit := let! ok := ask f in fail_if (negb ok) (Fail msg).

Definition SetupTracing (service endpoint : string) : M D unit := step_of "setup tracing" (fun t => tracing_ok t service endpoint).
(** [OpenSQLite] and the migration, of a database whose tables are current. *)
Definition open_database (path : string) : M D unit :=
  do! fail_if (bool_decide (path = "")) (Fail "sqlite path is required") in
  do! step_of "open sqlite" (fun t => sqlite_ok t path) in
  step_of "migrate" migrate_ok.
Definition ConnectNATS (url : string) : M D unit :=
  do! fail_if (bool_decide (url = "")) (Fail "nats url is required") in
  step_of "connect nats" (fun t => nats_ok t url).
Definition NewNATSJetStreamPublisher : M D unit := step_of "create jetstream context" jetstream_ok.
Definition NewNATSJetStreamConsumer : M D unit := step_of "create jetstream context" jetstream_ok.
Definition uploads_set (n : Z) : M D unit := fun w => (Ok tt, MkWorld (db w) (tick w) n (trace w)).

Context {AWS : S3}.
(** The object store, when it is enabled. *)
Definition object_store (cfg : S3Config) : result (option (Objects.Store D)) :=
  if s3_Enabled cfg then
    match storage_New cfg with Ok _ => Ok (Some Client) | Err e => Err e end
  else Ok None.
End start.

(** ** The API process *)
Record ApiProcess := MkApi {
  ap_outbox : OutboxStore;
  ap_secrets : SecretStore.Store;
  ap_requests : RequestStore.Options;
  ap_publisher : OutboxPublisher;
  ap_relay : option Coordinator;
  ap_server : Server;
  ap_limiters : Limiters;
  ap_reaper : Reaper;
  ap_reaper_interval : Z;
}.

Section api.
Context {ENV : Env} {CODEC : EventCodec} {BROKER : Broker} {AWS : S3} {PF : Platform} {B : Type} {JS : JetStream B}.

(** The stores and the server, once everything before them succeeded. *)
Definition api_secrets (cfg : Config) (objects : option (Objects.Store ApiDB)) (ob : outboxEnqueuer) : result SecretStore.Store :=
  SecretStore.NewStore (SecretStore.MkStore (cfg_PayloadInlineMaxBytes cfg) (MaxCiphertextBytes (cfg_MaxFileBytes cfg)) 0 0
    (cfg_MinTTLSeconds cfg) (cfg_MaxTTLSeconds cfg) objects (Some ob)).
Definition api_requests (cfg : Config) (objects : option (Objects.Store ApiDB)) (ob : outboxEnqueuer) : result RequestStore.Options :=
  RequestStore.NewStore (RequestStore.MkOptions objects (Some ob) (cfg_PayloadInlineMaxBytes cfg) (MaxCiphertextBytes (cfg_MaxFileBytes cfg))
    (cfg_MinTTLSeconds cfg) (cfg_DefaultTTLSeconds cfg) (cfg_MaxTTLSeconds cfg)).
Definition api_router (cfg : Config) (inline most : Z) (ob : outboxEnqueuer) (requests : RequestStore.Options) : RouterOptions :=
  MkRouterOptions (cfg_PayloadInlineMaxBytes cfg) inline most (cfg_PublicBaseURL cfg) (cfg_InternalToken cfg) (cfg_MetricsToken cfg)
    (cfg_OpenRatePerMinute cfg) (cfg_CreateRatePerMinute cfg) (cfg_TrustedProxies cfg) (Some ob) (Some nats_up) (Some requests)
    (cfg_PipeRelayEnabled cfg).

Definition api_reaper (cfg : Config) (st : SecretStore.Store) (ob : outboxEnqueuer) (requests : RequestStore.Options) : Reaper :=
  NewReaper st ob (Some requests) (cfg_ReaperBatchSize cfg).

(** [time.Duration(cfg.ReaperIntervalSeconds) * time.Second] wraps around. *)
Definition reaper_interval (cfg : Config) : Z := loop_interval DefaultReaperInterval (wrap64 (cfg_ReaperIntervalSeconds cfg * Second)).

(** The gauge is set from the table; a count that fails is only logged. *)
Definition seed_uploads : M ApiDB unit :=
  let! n := attempt CountPendingUploads in
  match n with Ok n => uploads_set n | Err _ => ret tt end.

(** [main] up to the goroutines; [None] while the advertised limits are still
    being computed after [fuel] steps. *)
Definition api_boot (fuel : nat) (cfg : Config) : M (ApiDB * B) (option ApiProcess) :=
  do! SetupTracing "flick-api" (cfg_OTLPEndpoint cfg) in
  do! open_database (cfg_APIDBPath cfg) in
  let! objects := lift (object_store (cfg_S3 cfg)) in
  let! outboxStore := lift (NewOutboxStore (cfg_NATSJobSubject cfg)) in
  let ob := store_enqueuer outboxStore in
  let! secretStore := lift (api_secrets cfg objects ob) in
  do! on_fst seed_uploads in
  do! ConnectNATS (cfg_NATSURL cfg) in
  do! NewNATSJetStreamPublisher in
  do! on_snd (EnsureStream (cfg_NATSStream cfg) (cfg_NATSJobSubject cfg)) in
  let publisher := NewOutboxPublisher 0 in
  let! requestStore := lift (api_requests cfg objects ob) in
  let relay := if cfg_PipeRelayEnabled cfg then Some (NewCoordinator (MkCoordinatorOptions (cfg_PipeMaxConcurrent cfg) 0 0 0)) else None in
  match EffectivePayloadInlineMaxBytes fuel cfg, EffectiveMaxFileBytes fuel cfg with
  | Some inline, Some most =>
      let '(server, limiters) := NewRouter secretStore (api_router cfg inline most ob requestStore) in
      ret (Some (MkApi outboxStore secretStore requestStore publisher relay server limiters
        (api_reaper cfg secretStore ob requestStore)
        (reaper_interval cfg)))
  | _, _ => ret None
  end.
End api.

(** ** How the API process ends *)
Inductive serve_result := ServeClosed | ServeNil | ServeFailed.
Inductive first_end := ServerFirst | PublisherFirst | ReaperFirst | SignalFirst.
Inductive exit := Stopped | Fatal (msg : string).

Definition serve_fatal (s : serve_result) (next : exit) : exit :=
  match s with ServeFailed => Fatal "serve api" | _ => next end.
Definition loop_fatal {A} (msg : string) (r : result A) (next : exit) : exit :=
  match r with Err _ => Fatal msg | Ok _ => next end.

(** The select and the waiting after it. *)
Definition api_exit {A} (first : first_end) (server : serve_result) (publisher reaper : result A) : exit :=
  let wait_server k := serve_fatal server k in
  let wait_publisher k := loop_fatal "run outbox publisher" publisher k in
  let wait_reaper k := loop_fatal "run reaper" reaper k in
  match first with
  | ServerFirst => serve_fatal server (wait_publisher (wait_reaper Stopped))
  | PublisherFirst => wait_publisher (wait_server (wait_reaper Stopped))
  | ReaperFirst => wait_reaper (wait_server (wait_publisher Stopped))
  | SignalFirst => wait_server (wait_publisher (wait_reaper Stopped))
  end.

(** ** The worker process *)
Section worker.
Context {ENV : Env} {CODEC : EventCodec} {API : Internal} {AWS : S3} {PF : Platform} {B : Type} {JS : JetStream B}.

Definition worker_boot (cfg : Config) : M (WorkerDB * B) (Processor * RunnerOptions) :=
  do! SetupTracing "flick-worker" (cfg_OTLPEndpoint cfg) in
  do! open_database (cfg_WorkerDBPath cfg) in
  do! ConnectNATS (cfg_NATSURL cfg) in
  do! NewNATSJetStreamConsumer in
  do! lift (NewCleanupClient (cfg_InternalAPIBaseURL cfg) (cfg_InternalToken cfg)) in
  let! objects := lift (object_store (cfg_S3 cfg)) in
  let! processor := lift (NewProcessor (HandleJob objects) 0 (Some AcknowledgeObjectCleanup)) in
  let! opts := lift (NewConsumerRunner (MkRunner (cfg_NATSStream cfg) (cfg_NATSJobSubject cfg) "" 0 0 0)) in
  ret (processor, opts).

Definition worker_main (cfg : Config) (rounds : nat) : M (WorkerDB * B) bool :=
  let! x := worker_boot cfg in
  Run x.1 x.2 rounds.
End worker.

(** ** What starting does *)
Section halves.
Context {D B A : Type}.
Lemma on_fst_ok (m : M D A) (w w' : World (D * B)) a : on_fst m w = (Ok a, w') ->
  exists w1, m (MkWorld (db w).1 (tick w) (active_uploads w) (trace w)) = (Ok a, w1) /\
    w' = MkWorld (db w1, (db w).2) (tick w1) (active_uploads w1) (trace w1).
Proof. unfold on_fst. destruct (m _) as [r w1]. intros [= -> <-]. eauto. Qed.
Lemma on_snd_ok (m : M B A) (w w' : World (D * B)) a : on_snd m w = (Ok a, w') ->
  exists w1, m (MkWorld (db w).2 (tick w) (active_uploads w) (trace w)) = (Ok a, w1) /\
    w' = MkWorld ((db w).1, db w1) (tick w1) (active_uploads w1) (trace w1).
Proof. unfold on_snd. destruct (m _) as [r w1]. intros [= -> <-]. eauto. Qed.
End halves.

(** A step of the platform changes nothing but the tick. *)
Definition only_ticks {D} (w w' : World D) : Prop := db w' = db w /\ active_uploads w' = active_uploads w /\ trace w' = trace w.
#[export] Instance only_ticks_stable {D} : Stable (@only_ticks D).
Proof.
  split; [split|..]; unfold only_ticks; [done| |done|].
  - intros w1 w2 w3 (? & ? & ?) (? & ? & ?). split_and!; congruence.
  - intros w w1 (_ & ? & ?). done.
Qed.

Section platform.
Context {ENV : Env} {PF : Platform} {D : Type}.
Lemma ticks_step msg f : respects (@only_ticks D) (step_of msg f).
Proof. unfold step_of. solve_respects. Qed.
#[local] Hint Resolve ticks_step : flick.
Lemma ticks_tracing s e : respects (@only_ticks D) (SetupTracing s e).
Proof. apply ticks_step. Qed.
Lemma ticks_database p : respects (@only_ticks D) (open_database p).
Proof. unfold open_database. solve_respects. Qed.
Lemma ticks_connect u : respects (@only_ticks D) (ConnectNATS u).
Proof. unfold ConnectNATS. solve_respects. Qed.
Lemma ticks_jetstream : respects (@only_ticks D) NewNATSJetStreamPublisher.
Proof. apply ticks_step. Qed.
Lemma ticks_consumer : respects (@only_ticks D) NewNATSJetStreamConsumer.
Proof. apply ticks_step. Qed.
Lemma ticks_ok {A} (m : M D A) w a w' : respects only_ticks m -> m w = (Ok a, w') -> only_ticks w w'.
Proof. intros H E. specialize (H w). by rewrite E in H. Qed.
End platform.

(** ** The API process that started *)
Section booted.
Context {ENV : Env} {CODEC : EventCodec} {RC : RequestCodec} {DATES : SqliteDate} {BROKER : Broker} {AWS : S3} {PF : Platform}.
Context {B : Type} {JS : JetStream B} {SPEC : JetStreamSpec B}.

(** What starting leaves of the API's database and gauge. *)
Definition api_world (w : World (ApiDB * B)) : World ApiDB := MkWorld (db w).1 (tick w) (active_uploads w) (trace w).

(** The parts of the process are built from one configuration and share one
    outbox, one bucket and one pair of stores. *)
Record wired (cfg : Config) (inline most : Z) (a : ApiProcess) : Prop := {
  wi_outbox : ap_outbox a = {| subject := cfg_NATSJobSubject cfg |};
  wi_objects : exists objects, object_store (cfg_S3 cfg) = Ok objects /\
    api_secrets cfg objects (store_enqueuer (ap_outbox a)) = Ok (ap_secrets a) /\
    api_requests cfg objects (store_enqueuer (ap_outbox a)) = Ok (ap_requests a);
  wi_publisher : ap_publisher a = NewOutboxPublisher 0;
  wi_server : (ap_server a, ap_limiters a) = NewRouter (ap_secrets a) (api_router cfg inline most (store_enqueuer (ap_outbox a)) (ap_requests a));
  wi_reaper : ap_reaper a = api_reaper cfg (ap_secrets a) (store_enqueuer (ap_outbox a)) (ap_requests a);
}.

Lemma seed_uploads_ok (w w' : World ApiDB) u : seed_uploads w = (Ok u, w') ->
  db w' = db w /\ trace w' = trace w /\ active_uploads w' = if db_fault (tick w) then active_uploads w else pending_count (db w).
Proof.
  unfold seed_uploads, bind, attempt, CountPendingUploads, sql_query, sql, ret.
  destruct (db_fault (tick w)); intros H; by injection H as _ <-.
Qed.

Lemma api_boot_ok fuel cfg (w w' : World (ApiDB * B)) a : api_boot fuel cfg w = (Ok (Some a), w') ->
  exists inline most n, EffectivePayloadInlineMaxBytes fuel cfg = Some inline /\ EffectiveMaxFileBytes fuel cfg = Some most /\
    wired cfg inline most a /\ (db w').1 = (db w).1 /\ trace w' = trace w /\
    active_uploads w' = (if db_fault n then active_uploads w else pending_count (db w).1) /\
    (exists c, streams (db w').2 !! cfg_NATSStream cfg = Some c /\ covers (cfg_NATSJobSubject cfg) (streams (db w).2 !! cfg_NATSStream cfg) c).
Proof.
  unfold api_boot. intros H.
  apply bind_ok in H as (? & w1 & H1 & H). apply ticks_ok in H1 as (D1 & G1 & T1); [|apply ticks_tracing].
  apply bind_ok in H as (? & w2 & H2 & H). apply ticks_ok in H2 as (D2 & G2 & T2); [|apply ticks_database].
  apply bind_ok in H as (objects & w3 & [Ho ->]%lift_ok & H). apply bind_ok in H as (ob & w4 & [Hob ->]%lift_ok & H). cbv zeta in H.
  apply bind_ok in H as (st & w5 & [Hst ->]%lift_ok & H).
  apply bind_ok in H as (? & w6 & (v6 & H6 & ->)%on_fst_ok & H). apply seed_uploads_ok in H6 as (D6 & T6 & G6).
  apply bind_ok in H as (? & w7 & H7 & H). apply ticks_ok in H7 as (D7 & G7 & T7); [|apply ticks_connect].
  apply bind_ok in H as (? & w8 & H8 & H). apply ticks_ok in H8 as (D8 & G8 & T8); [|apply ticks_jetstream].
  apply bind_ok in H as (? & w9 & (v9 & H9 & ->)%on_snd_ok & H).
  pose proof (EnsureStream_frame _ _ _ _ _ H9) as [G9 T9]. apply EnsureStream_ok in H9 as [Hstream _].
  apply bind_ok in H as (rq & w10 & [Hrq ->]%lift_ok & H).
  destruct (EffectivePayloadInlineMaxBytes fuel cfg) as [inline|]; [|done]. destruct (EffectiveMaxFileBytes fuel cfg) as [most|]; [|done].
  destruct (NewRouter st _) as [server limiters] eqn:Er. injection H as <- <-.
  exists inline, most, (tick w2). cbn in *. rewrite D8, D7 in *. cbn in *. rewrite D6, D2, D1 in *.
  split_and!; [done|done| |done|congruence|by rewrite G9, G8, G7, G6, G2, G1|exact Hstream].
  unfold NewOutboxStore in Hob. case_bool_decide; [done|]. injection Hob as <-. split; cbn; [done| |done|done|done]. by exists objects.
Qed.

Lemma object_store_ok cfg objects : object_store (D := ApiDB) cfg = Ok objects ->
  objects = if s3_Enabled cfg then Some Client else None.
Proof. unfold object_store. destruct (s3_Enabled cfg); [destruct (storage_New cfg)|]; by intros [= <-]. Qed.

Lemma api_secrets_ok cfg objects ob st : api_secrets cfg objects ob = Ok st ->
  st = SecretStore.MkStore (cfg_PayloadInlineMaxBytes cfg) (MaxCiphertextBytes (cfg_MaxFileBytes cfg)) (5 * Minute) (15 * Minute)
    (cfg_MinTTLSeconds cfg) (cfg_MaxTTLSeconds cfg) objects (Some ob).
Proof. unfold api_secrets, SecretStore.NewStore. repeat case_match; (done || by intros [= <-]). Qed.

Lemma api_requests_ok cfg objects ob rq : api_requests cfg objects ob = Ok rq ->
  rq = RequestStore.MkOptions objects (Some ob) (cfg_PayloadInlineMaxBytes cfg) (MaxCiphertextBytes (cfg_MaxFileBytes cfg))
    (cfg_MinTTLSeconds cfg) (cfg_DefaultTTLSeconds cfg) (cfg_MaxTTLSeconds cfg) /\
  0 < MaxCiphertextBytes (cfg_MaxFileBytes cfg) /\ cfg_MaxTTLSeconds cfg * Second < 2 ^ 63.
Proof.
  unfold api_requests, RequestStore.NewStore. cbn. destruct (_ || _) eqn:E; [done|]. intros [= <-]. destruct_bools.
  split_and!; [done|lia|]. unfold Second in *. change (Z.quot (2 ^ 63 - 1) 1000000000) with 9223372036 in *. lia.
Qed.

Lemma wired_stores cfg inline most a : wired cfg inline most a -> StoreSpec (ap_secrets a) /\ OptionsSpec (ap_requests a).
Proof.
  intros [Ho (objects & Hob & Hst & Hrq) _ _ _]. apply object_store_ok in Hob. apply api_secrets_ok in Hst. apply api_requests_ok in Hrq as [Hrq _].
  rewrite Hst, Hrq. split; split; cbn; intros o; [|intros [= <-]; apply _| |intros [= <-]; apply _];
    rewrite Hob; (destruct (s3_Enabled _); [intros [= <-]; apply _|done]).
Qed.
End booted.

Section api_theorems.
Context {ENV : Env} {CODEC : EventCodec} {RC : RequestCodec} {DATES : SqliteDate} {BROKER : Broker} {AWS : S3} {PF : Platform}.
Context {B : Type} {JS : JetStream B} {SPEC : JetStreamSpec B}.

(** Every collaborator of starting answers. *)
Definition answering : Prop :=
  (forall t s e, tracing_ok t s e = true) /\ (forall t p, sqlite_ok t p = true) /\ (forall t, migrate_ok t = true) /\
  (forall t u, nats_ok t u = true) /\ (forall t, jetstream_ok t = true) /\
  (forall t s (b : B), js_StreamInfo t s b = JsErr ErrStreamNotFound \/ exists c, js_StreamInfo t s b = JsOk c) /\
  (forall t c (b : B), exists b', js_AddStream t c b = (JsOk tt, b')) /\
  (forall t c (b : B), exists b', js_UpdateStream t c b = (JsOk tt, b')).

Lemma step_runs {D} msg f (w : World D) : (forall t, f t = true) -> step_of msg f w = (Ok tt, bump w).
Proof. intros H. unfold step_of, bind, ask, fail_if. by rewrite H. Qed.
Lemma seed_runs (w : World (ApiDB * B)) : exists w', on_fst seed_uploads w = (Ok tt, w').
Proof. unfold on_fst, seed_uploads, bind, attempt. destruct (CountPendingUploads _) as [[n|e] v]; cbn; eauto. Qed.

Lemma EnsureStream_runs stream subj (w : World (ApiDB * B)) : stream <> "" -> subj <> "" ->
  (forall t s (b : B), js_StreamInfo t s b = JsErr ErrStreamNotFound \/ exists c, js_StreamInfo t s b = JsOk c) ->
  (forall t c (b : B), exists b', js_AddStream t c b = (JsOk tt, b')) ->
  (forall t c (b : B), exists b', js_UpdateStream t c b = (JsOk tt, b')) ->
  exists w', on_snd (EnsureStream stream subj) w = (Ok tt, w').
Proof.
  intros Hs Hj Hinfo Hadd Hupd. unfold on_snd. set (v := MkWorld _ _ _ _).
  assert (H : exists v', EnsureStream stream subj v = (Ok tt, v')); [|destruct H as [v' ->]; eauto].
  unfold EnsureStream. rewrite !bool_decide_false by done. unfold bind, fail_if, js_read, ret.
  destruct (Hinfo (tick v) stream (db v)) as [E|[c E]]; rewrite E.
  - unfold js_call. destruct (Hadd (tick (bump v)) (MkStreamConfig stream [subj] FileStorage WorkQueuePolicy "") (db (bump v))) as [b' ->]. eauto.
  - case_bool_decide; [eauto|]. unfold js_call. edestruct Hupd as [b' ->]. eauto.
Qed.

(** C10: Starting is the restart of the transition system.  When the API process
    starts, its stores keep the interfaces every theorem about them assumes and
    share one outbox, whose subject the broker's stream takes; and what starting
    did to database and gauge is a history of the stores' transition system in
    which nothing was created or delivered, unless the count of pending uploads
    failed, when the gauge is as it was. *)
Theorem booting_refines_restart fuel cfg (w w' : World (ApiDB * B)) a copies :
  api_boot fuel cfg w = (Ok (Some a), w') ->
  let ob := store_enqueuer (ap_outbox a) in
  StoreSpec (ap_secrets a) /\ OptionsSpec (ap_requests a) /\
  SecretStore.outbox (ap_secrets a) = Some ob /\ Outbox (ap_requests a) = Some ob /\
  sv_outbox (ap_server a) = Some ob /\ reaper_outbox (ap_reaper a) = ob /\
  sv_secrets (ap_server a) = ap_secrets a /\ sv_requests (ap_server a) = Some (ap_requests a) /\
  (exists c, streams (db w').2 !! cfg_NATSStream cfg = Some c /\ subject (ap_outbox a) ∈ sc_Subjects c) /\
  (db w').1 = (db w).1 /\
  ((exists n, db_fault n = true) /\ active_uploads w' = active_uploads w \/
   history (ap_secrets a) (ap_requests a) ob (ap_reaper a) (MkSys (api_world w) copies) [] (MkSys (api_world w') [])).
Proof.
  intros H ob. apply api_boot_ok in H as (inline & most & n & _ & _ & Hw & Hdb & Htr & Hg & (c & Hc & Hcov)).
  destruct (wired_stores _ _ _ _ Hw) as [H1 H2]. destruct Hw as [Hob (objects & Hobj & Hst & Hrq) _ Hsv Hrp].
  apply api_secrets_ok in Hst. apply api_requests_ok in Hrq as [Hrq _]. unfold NewRouter in Hsv. injection Hsv as Hsv _.
  split_and!; [done|done|by rewrite Hst|by rewrite Hrq|by rewrite Hsv|by rewrite Hrp|by rewrite Hsv|by rewrite Hsv| |done|].
  { exists c. split; [done|]. rewrite Hob. by eapply covers_subject. }
  destruct (db_fault n) eqn:Ef; [left; by split; [exists n|]|right]. change (@nil event) with (@nil event ++ []). eapply history_snoc; [apply history_step, step_restart|].
  apply step_idle. split; cbn; [done|]. by rewrite Hg.
Qed.

(** The ticker of the reaper gets a positive interval, the configured one up to
    the seconds a duration can hold; a larger number, which [Load] accepts,
    wraps around. *)
Theorem reaper_interval_positive cfg : 0 < reaper_interval cfg /\
  (0 < cfg_ReaperIntervalSeconds cfg <= 9223372036 -> reaper_interval cfg = cfg_ReaperIntervalSeconds cfg * Second) /\
  (cfg_ReaperIntervalSeconds cfg = 18446744074 -> reaper_interval cfg = 290448384).
Proof.
  unfold reaper_interval, loop_interval. split_and!.
  - destruct (Z.leb_spec (wrap64 (cfg_ReaperIntervalSeconds cfg * Second)) 0); [done|lia].
  - intros H. unfold Second. rewrite wrap64_id by lia. destruct (Z.leb_spec (cfg_ReaperIntervalSeconds cfg * 1000000000) 0); lia.
  - by intros ->.
Qed.

Lemma max_ciphertext_mono n m : 0 <= n <= m -> m <= max_exact -> MaxCiphertextBytes n <= MaxCiphertextBytes m.
Proof. intros Hn Hm. rewrite !MaxCiphertextBytes_exact by lia. pose proof (age_size_mono n m Hn). lia. Qed.

(** C32: What a booted API advertises its stores accept.  For a loaded
    configuration of sizes below 2^62: the age file of any text up to the
    advertised inline limit fits the inline limits of both stores; the age file
    of any file up to the advertised file limit fits the object limit of both
    stores, and without a bucket the inline limit; lifetimes fit a duration.  The
    one exception is the smallest inline limit [Load] accepts, where the limits
    are zero: [NewRouter] takes them for unset and advertises the whole inline
    limit and, without a bucket, 256 MiB. *)
Theorem advertised_limits_accepted env fuel cfg (w w' : World (ApiDB * B)) a :
  Load env = Ok cfg -> cfg_PayloadInlineMaxBytes cfg < max_exact - 1 -> cfg_MaxFileBytes cfg <= max_exact ->
  cfg_PayloadInlineMaxBytes cfg / 2 ^ 20 + 65 <= Z.of_nat fuel ->
  api_boot fuel cfg w = (Ok (Some a), w') ->
  let inline := sv_advertisedInlineMaxBytes (ap_server a) in
  let most := sv_maxFileBytes (ap_server a) in
  payloadInlineMaxBytes (ap_secrets a) = PayloadInlineMaxBytes (ap_requests a) /\
  maxObjectBytes (ap_secrets a) = MaxObjectBytes (ap_requests a) /\
  (0 < minTTL (ap_secrets a) <= maxTTL (ap_secrets a) /\ maxTTL (ap_secrets a) * Second < 2 ^ 63) /\
  (MaxCiphertextBytes 0 < cfg_PayloadInlineMaxBytes cfg ->
   0 < inline /\ 0 < most /\
   (forall n, 0 <= n <= inline -> MaxCiphertextBytes n <= payloadInlineMaxBytes (ap_secrets a)) /\
   (forall n, 0 <= n <= most -> MaxCiphertextBytes n <=
      if s3_Enabled (cfg_S3 cfg) then maxObjectBytes (ap_secrets a) else payloadInlineMaxBytes (ap_secrets a))) /\
  (MaxCiphertextBytes 0 = cfg_PayloadInlineMaxBytes cfg ->
   inline = cfg_PayloadInlineMaxBytes cfg /\ (s3_Enabled (cfg_S3 cfg) = false -> most = 268435456)).
Proof.
  intros Hl Hin Hmost Hf H. pose proof (Load_valid _ _ Hl) as V. destruct V as [Vin Vfile Vttl _ _ _ _].
  apply api_boot_ok in H as (inline & most & n & Ei & Em & [_ (objects & _ & Hst & Hrq) _ Hsv _] & _).
  apply api_secrets_ok in Hst. apply api_requests_ok in Hrq as (Hrq & _ & Httl).
  assert (E0 : MaxCiphertextBytes 0 = 4128) by reflexivity.
  destruct (max_plaintext_bound (cfg_PayloadInlineMaxBytes cfg) fuel ltac:(lia) Hf) as (x & Ex & Hx & _ & Hfit).
  specialize (Hfit ltac:(lia)). unfold EffectiveMaxFileBytes, EffectivePayloadInlineMaxBytes in *. rewrite Ex in Ei, Em.
  injection Ei as <-. cbn in Em. injection Em as <-.
  unfold NewRouter, api_router in Hsv. cbn in Hsv. injection Hsv as Hsv _. rewrite Hsv, Hst, Hrq. cbn.
  assert (Hpos : 4128 < cfg_PayloadInlineMaxBytes cfg -> 1 <= x).
  { intros Hlt. apply Hfit; [unfold max_exact; lia|]. change (MaxCiphertextBytes 1) with 4129. lia. }
  assert (Hzero : 4128 = cfg_PayloadInlineMaxBytes cfg -> x = 0).
  { intros Heq. assert (~ 1 <= x); [|lia]. rewrite <-Hfit by (unfold max_exact; lia). change (MaxCiphertextBytes 1) with 4129. lia. }
  assert (Hx2 : x <= max_exact).
  { destruct (Z.le_gt_cases x max_exact); [done|]. pose proof (proj2 (Hfit max_exact ltac:(unfold max_exact; lia)) ltac:(lia)) as Hbig.
    rewrite MaxCiphertextBytes_exact in Hbig by (unfold max_exact; lia). unfold age_size in Hbig. lia. }
  split_and!; [done|done|lia|lia|done| |].
  - rewrite E0. intros Hlt. specialize (Hpos Hlt). rewrite (proj2 (Z.leb_gt x 0)) by lia.
    set (most := if negb (s3_Enabled (cfg_S3 cfg)) && (x <? cfg_MaxFileBytes cfg) then x else cfg_MaxFileBytes cfg).
    assert (Hmp : 0 < most) by (unfold most; destruct (_ && _); lia).
    rewrite (proj2 (Z.leb_gt most 0)) by lia. split_and!; [lia|done| |].
    + intros k Hk. apply Hfit; lia.
    + intros k Hk. unfold most in *. destruct (s3_Enabled (cfg_S3 cfg)); cbn in *; [apply max_ciphertext_mono; lia|].
      apply Hfit; destruct (Z.ltb_spec x (cfg_MaxFileBytes cfg)); lia.
  - rewrite E0. intros Heq. specialize (Hzero Heq). subst x. split.
    + cbn. destruct (Z.leb_spec (cfg_PayloadInlineMaxBytes cfg) 0); [lia|done].
    + intros ->. cbn. destruct (Z.ltb_spec 0 (cfg_MaxFileBytes cfg)); [done|lia].
Qed.

(** A configuration that loads starts.  When the collaborators answer, the
    process built from a configuration [Load] accepted reaches its goroutines,
    from any database and any broker, provided that the lifetimes fit a
    [time.Duration] and the sizes are below 2^62: no constructor refuses it, and
    the loop that computes the advertised limits ends. *)
Theorem loaded_configuration_starts env fuel cfg (w : World (ApiDB * B)) :
  Load env = Ok cfg -> cfg_PayloadInlineMaxBytes cfg < max_exact - 1 -> cfg_MaxFileBytes cfg <= max_exact ->
  cfg_MaxTTLSeconds cfg <= 9223372036 -> cfg_PayloadInlineMaxBytes cfg / 2 ^ 20 + 65 <= Z.of_nat fuel ->
  answering -> exists a w', api_boot fuel cfg w = (Ok (Some a), w').
Proof.
  intros Hl Hin Hmost Httl Hf (Htr & Hsq & Hmi & Hna & Hjs & Hinfo & Hadd & Hupd).
  pose proof (Load_valid _ _ Hl) as [Vin Vfile Vttl _ _ _ Vs3]. destruct (Load_named _ _ Hl) as (Hdb & _ & Hurl & Hstream & Hsubj & _).
  assert (E0 : MaxCiphertextBytes 0 = 4128) by reflexivity.
  assert (Hobj : 0 < MaxCiphertextBytes (cfg_MaxFileBytes cfg)).
  { rewrite MaxCiphertextBytes_exact by lia. unfold age_size. lia. }
  unfold api_boot.
  erewrite bind_runs by (by apply step_runs). unfold open_database. rewrite bool_decide_false by done.
  erewrite bind_runs by (erewrite bind_runs by done; erewrite bind_runs by (by apply step_runs); by apply step_runs).
  assert (Hos : exists objects, object_store (D := ApiDB) (cfg_S3 cfg) = Ok objects).
  { unfold object_store, storage_New. destruct (s3_Enabled (cfg_S3 cfg)); [|eauto]. destruct (Vs3 eq_refl) as (? & ? & ? & ?).
    rewrite !bool_decide_false by done. cbn. eauto. }
  destruct Hos as [objects Hos]. rewrite Hos. erewrite bind_runs by done.
  unfold NewOutboxStore. rewrite bool_decide_false by done. erewrite bind_runs by done. cbv zeta.
  set (ob := store_enqueuer {| subject := cfg_NATSJobSubject cfg |}).
  assert (Hst : exists st, api_secrets cfg objects ob = Ok st).
  { unfold api_secrets, SecretStore.NewStore. cbn. destruct (Z.leb_spec (cfg_PayloadInlineMaxBytes cfg) 0); [lia|].
    destruct (Z.leb_spec (cfg_MinTTLSeconds cfg) 0); [lia|]. destruct (Z.ltb_spec (cfg_MaxTTLSeconds cfg) (cfg_MinTTLSeconds cfg)); [lia|].
    destruct (Z.leb_spec (MaxCiphertextBytes (cfg_MaxFileBytes cfg)) 0); [lia|]. rewrite andb_false_r. eauto. }
  destruct Hst as [st Hst]. rewrite Hst. erewrite bind_runs by done.
  assert (Hrq : exists rq, api_requests cfg objects ob = Ok rq).
  { unfold api_requests, RequestStore.NewStore. cbn. change (Z.quot (2 ^ 63 - 1) Second) with 9223372036.
    match goal with |- context [if ?c then _ else _] => assert (Hc : c = false); [|rewrite Hc; eauto] end.
    rewrite !orb_false_iff. change (strlen ageMagic) with 22.
    split_and!; rewrite ?Z.leb_gt, ?Z.ltb_ge; (done || lia || by apply andb_false_r). }
  destruct Hrq as [rq Hrq].
  match goal with |- context [bind (on_fst seed_uploads) _ ?v] => destruct (seed_runs v) as [v1 E1]; erewrite bind_runs by exact E1 end.
  unfold ConnectNATS. rewrite bool_decide_false by done. erewrite bind_runs by (erewrite bind_runs by done; by apply step_runs).
  erewrite bind_runs by (by apply step_runs).
  match goal with |- context [bind (on_snd (EnsureStream ?x ?y)) _ ?v] => destruct (EnsureStream_runs x y v) as [v2 E2]; [done..|]; erewrite bind_runs by exact E2 end.
  rewrite Hrq. erewrite bind_runs by done. cbv zeta.
  destruct (max_plaintext_bound (cfg_PayloadInlineMaxBytes cfg) fuel ltac:(lia) Hf) as (x & Ex & _).
  unfold EffectiveMaxFileBytes, EffectivePayloadInlineMaxBytes. rewrite Ex. cbn [mbind option_bind].
  eauto.
Qed.
End api_theorems.

(** ** How it ends *)
Section ending.
Context {ENV : Env} {CODEC : EventCodec} {RC : RequestCodec} {DATES : SqliteDate} {BROKER : Broker} {SIG : Signals}.

Lemma loop_never_fatal body rounds (w w' : World ApiDB) r msg next : total body -> ticking body rounds w = (r, w') -> loop_fatal msg r next = next.
Proof. intros Ht H. by apply ticking_ok in H as (b & -> & _). Qed.

(** The API fails only with its server.  Whichever goroutine ends first, and
    whatever failed in the rounds of the publisher and the reaper, the process
    stops cleanly unless serving failed with an error other than having been
    closed, and then it exits with that error. *)
Theorem api_fails_only_serving (first : first_end) server (p : OutboxPublisher) limit (rp : Reaper) n1 n2 (w1 w2 : World ApiDB) r1 r2 w1' w2' :
  RunOutboxPublisher p limit n1 w1 = (r1, w1') -> RunReaper rp n2 w2 = (r2, w2') ->
  api_exit first server r1 r2 = match server with ServeFailed => Fatal "serve api" | _ => Stopped end.
Proof.
  intros H1 H2. pose proof (fun msg next => loop_never_fatal _ _ _ _ _ msg next (attempt_total _) H1) as E1.
  pose proof (fun msg next => loop_never_fatal _ _ _ _ _ msg next (attempt_total _) H2) as E2.
  unfold api_exit. destruct first, server; rewrite ?E1, ?E2; cbn; by rewrite ?E1, ?E2.
Qed.
End ending.

(** ** The worker process *)
Section worker_laws.
Context {ENV : Env} {CODEC : EventCodec} {API : Internal} {AWS : S3} {PF : Platform} {B : Type} {JS : JetStream B}.

Lemma worker_boot_idle cfg (w w' : World (WorkerDB * B)) r : worker_boot cfg w = (r, w') -> only_ticks w w'.
Proof.
  intros E. assert (H : respects only_ticks (worker_boot (B := B) cfg)).
  { unfold worker_boot. pose proof @ticks_tracing. pose proof @ticks_database. pose proof @ticks_connect. pose proof @ticks_consumer. solve_respects. }
  specialize (H w). by rewrite E in H.
Qed.

Lemma worker_boot_ok cfg (w w' : World (WorkerDB * B)) p opts : worker_boot cfg w = (Ok (p, opts), w') ->
  only_ticks w w' /\ HandlerSpec (handler p) /\ (forall k, acknowledger p = Some k -> HandlerSpec k) /\ maxAttempts p = DefaultMaxAttempts.
Proof.
  unfold worker_boot. intros H.
  apply bind_ok in H as (? & w1 & H1 & H). apply ticks_ok in H1; [|apply ticks_tracing].
  apply bind_ok in H as (? & w2 & H2 & H). apply ticks_ok in H2; [|apply ticks_database].
  apply bind_ok in H as (? & w3 & H3 & H). apply ticks_ok in H3; [|apply ticks_connect].
  apply bind_ok in H as (? & w4 & H4 & H). apply ticks_ok in H4; [|apply ticks_consumer].
  apply bind_ok in H as (? & w5 & [_ ->]%lift_ok & H). apply bind_ok in H as (objects & w6 & [Ho ->]%lift_ok & H).
  apply bind_ok in H as (pr & w7 & [Hp ->]%lift_ok & H). apply bind_ok in H as (os & w8 & [_ ->]%lift_ok & H).
  injection H as <- <- <-. unfold NewProcessor in Hp. cbn in Hp. injection Hp as <-. cbn. split_and!.
  - etrans; [exact H1|]. etrans; [exact H2|]. etrans; [exact H3|exact H4].
  - apply HandleJob_spec. intros o ->. unfold object_store in Ho. destruct (s3_Enabled _); [|done].
    destruct (storage_New _); [|done]. injection Ho as <-. apply _.
  - intros k [= <-]. apply _.
  - done.
Qed.

(** C21: A worker acknowledges only what succeeded.  However long the worker process
    runs and whatever the broker delivers and whatever fails, from a receipt
    database any number of workers left behind: every message it acknowledged
    belongs to a job whose receipt is in state succeeded when it ends, and what
    it did to its database are steps of the receipt store. *)
Theorem worker_acknowledges_only_success cfg rounds (w w' : World (WorkerDB * B)) r :
  rtc (wstep DefaultMaxAttempts) empty_worker_db (db w).1 -> worker_main cfg rounds w = (r, w') ->
  rtc (wstep DefaultMaxAttempts) (db w).1 (db w').1 /\
  exists tl, trace w' = trace w ++ tl /\ forall payload, EffAck payload ∈ tl -> job_succeeded payload (db w').1.
Proof.
  intros H0 H. unfold worker_main, bind in H. destruct (worker_boot cfg w) as [[[p opts]|e] w1] eqn:E.
  - apply worker_boot_ok in E as ((D1 & _ & T1) & Hh & Ha & Hm). rewrite <-D1, <-T1 in *.
    by apply (Run_acknowledges p DefaultMaxAttempts Hm Ha) in H.
  - injection H as _ <-. apply worker_boot_idle in E as (D1 & _ & T1). rewrite D1, T1. split; [done|].
    exists []. rewrite app_nil_r. split; [done|]. intros payload Hp. by apply not_elem_of_nil in Hp.
Qed.
End worker_laws.
