(* ===== verification/ServiceWitnesses.v ===== *)
(** * The processes at work

    A platform that answers, a bucket behind the SDK, the broker in memory and
    two configurations; the theorems about starting, publishing and consuming
    applied to processes that run on them. *)

From S2P Require Import Prelude GoStrings World GoTime Codec Schema AgeFormat Outbox ObjectStorage SecretStore SecretProofs RequestStore RequestFrames Reaper Lifecycle HttpApi Config ConfigProofs Worker WorkerProofs ConsumerProofs JetStream Loops Service Witnesses.
Import Concrete Scenario Memory.
#[local] Open Scope Z_scope.

Module Running.

(** ** Collaborators *)
#[export] Instance aws : S3 := {|
  ListObjectsV2 _ _ _ _ := S3Ok (MkListOutput [] false "");
  HeadObject _ _ := S3Err NotFound;
  GetObject _ _ := S3Err NoSuchKey;
  DeleteObject _ _ := S3Ok tt;
  PutObject _ _ _ := S3Ok tt;
  PresignPutObject _ key _ _ := S3Ok ("https://bucket/" +:+ key, "PUT");
  spool_ok _ := true;
  FormatInt _ := "";
|}.
#[export] Instance platform : Platform := {|
  tracing_ok _ _ _ := true; sqlite_ok _ _ := true; migrate_ok _ := true;
  nats_ok _ _ := true; jetstream_ok _ := true; nats_up _ := true;
|}.
#[export] Instance running : Signals := {| ctx_err _ := false; done_chosen _ := false |}.

(** A production configuration, and the smallest that loads. *)
Definition production (name : string) : string :=
  if bool_decide (name = "FLICK_STORAGE_LARGE_BACKEND") then "s3"
  else if bool_decide (name = "FLICK_S3_BUCKET") then "flick"
  else if bool_decide (name = "FLICK_S3_ACCESS_KEY_ID") then "id"
  else if bool_decide (name = "FLICK_S3_SECRET_ACCESS_KEY") then "secret"
  else if bool_decide (name = "FLICK_INTERNAL_TOKEN") then "internal" else "".
Definition smallest (name : string) : string := if bool_decide (name = "FLICK_PAYLOAD_INLINE_MAX_BYTES") then "4128" else "".
Definition no_config : Config := MkConfig "" "" "" "" "" "" "" "" "" "" "" "" 0 0 0 0 0 0 0 0 0 false 0 [] (MkS3 false "" "" "" "" "" false).
Definition configured (env : string -> string) : Config := value no_config (Load env).
Lemma production_loads : Load production = Ok (configured production).
Proof. by vm_compute. Qed.
Lemma smallest_loads : Load smallest = Ok (configured smallest).
Proof. by vm_compute. Qed.

(** ** The API process *)
Definition cold : World (ApiDB * Memory.broker) := MkWorld (db uploaded, other) 0 0 [].
Definition booted (o : result (option ApiProcess)) : bool := match o with Ok (Some _) => true | _ => false end.

Lemma boots env : booted (api_boot 66 (configured env) cold).1 = true ->
  exists a w', api_boot 66 (configured env) cold = (Ok (Some a), w').
Proof. destruct (api_boot 66 (configured env) cold) as [[[a|]|] w']; intros H; (discriminate H || eauto). Qed.

Lemma booting_refines_restart_witness : exists a w', api_boot 66 (configured production) cold = (Ok (Some a), w') /\
  StoreSpec (ap_secrets a) /\ OptionsSpec (ap_requests a) /\ (db w').1 = db uploaded /\
  history (ap_secrets a) (ap_requests a) (store_enqueuer (ap_outbox a)) (ap_reaper a) (MkSys (api_world cold) []) [] (MkSys (api_world w') []).
Proof.
  destruct (boots production) as (a & w' & E); [by vm_compute|]. exists a, w'.
  destruct (booting_refines_restart 66 (configured production) cold w' a [] E) as (H1 & H2 & _ & _ & _ & _ & _ & _ & _ & H3 & H4).
  split; [exact E|]. split; [exact H1|]. split; [exact H2|]. split; [exact H3|].
  destruct H4 as [[[n Hn] _]|H4]; [discriminate Hn|exact H4].
Defined.

Lemma advertised_limits_accepted_witness :
  (exists a w', api_boot 66 (configured production) cold = (Ok (Some a), w') /\ 0 < sv_advertisedInlineMaxBytes (ap_server a) /\
     forall n, 0 <= n <= sv_maxFileBytes (ap_server a) -> MaxCiphertextBytes n <= maxObjectBytes (ap_secrets a)) /\
  (exists a w', api_boot 66 (configured smallest) cold = (Ok (Some a), w') /\ sv_advertisedInlineMaxBytes (ap_server a) = 4128 /\
     sv_maxFileBytes (ap_server a) = 268435456).
Proof.
  split.
  - destruct (boots production) as (a & w' & E); [by vm_compute|]. exists a, w'. split; [exact E|].
    destruct (advertised_limits_accepted production 66 (configured production) cold w' a production_loads) as (_ & _ & _ & H & _);
      [by vm_compute|by vm_compute|by vm_compute|exact E|].
    destruct H as (H1 & _ & _ & H2); [by vm_compute|]. split; [exact H1|]. exact H2.
  - destruct (boots smallest) as (a & w' & E); [by vm_compute|]. exists a, w'. split; [exact E|].
    destruct (advertised_limits_accepted smallest 66 (configured smallest) cold w' a smallest_loads) as (_ & _ & _ & _ & H);
      [by vm_compute|by vm_compute|by vm_compute|exact E|].
    destruct H as [H1 H2]; [by vm_compute|]. split; [exact H1|]. by apply H2.
Defined.

Lemma collaborators_answer : answering (B := Memory.broker).
Proof.
  split_and!; try done; [|intros t c b; eexists; reflexivity..].
  intros t s b. cbn. unfold answer. destruct (b_streams b !! s); eauto.
Qed.
Lemma loaded_configuration_starts_witness : exists a w', api_boot 66 (configured smallest) cold = (Ok (Some a), w').
Proof.
  apply (loaded_configuration_starts smallest 66 (configured smallest) cold smallest_loads);
    [by vm_compute|by vm_compute|by vm_compute|by vm_compute|exact collaborators_answer].
Defined.

(** ** The publisher *)
Definition willing : Broker := {| js_publish _ _ _ := None; otel_inject _ := ∅ |}.
(** A clock that stops after a hundred seconds. *)
Definition short_clock : Env.
Proof.
  refine {| clk := fun t => epoch + Z.of_nat (Nat.min t 100) * Second; db_fault := fun _ => false;
            rand_bytes := fun t n => @rand_bytes env t n |}.
  apply (@rand_bytes_len env).
Defined.
#[export] Instance short_faultless : NoFaults (ENV := short_clock).
Proof. done. Defined.
Definition due_world : World ApiDB := MkWorld (db OutboxWitness.w1) 20 0 [].
Definition job1 : outbox_row := default (OutboxWitness.row epoch) (t_outbox (db OutboxWitness.w1) !! "j1").

Lemma short_clock_sane n : (20 <= n)%nat ->
  zero_time < clk (Env := short_clock) n /\ four_digit_year (clk (Env := short_clock) n) = true /\
  o_next_attempt job1 + Second <= clk (Env := short_clock) n.
Proof.
  intros Hn. cbn [clk short_clock]. assert (H : forallb (fun k => (zero_time <? epoch + Z.of_nat k * Second) && four_digit_year (epoch + Z.of_nat k * Second) &&
    (o_next_attempt job1 + Second <=? epoch + Z.of_nat k * Second)) (seq 20 81) = true) by (by vm_compute).
  rewrite forallb_forall in H. specialize (H (Nat.min n 100)). rewrite in_seq in H. specialize (H ltac:(lia)).
  rewrite !andb_true_iff, Z.ltb_lt, Z.leb_le in H. tauto.
Qed.

Lemma due_jobs_published_witness : exists w' row',
  RunOutboxPublisher (ENV := short_clock) (BROKER := willing) (NewOutboxPublisher 0) 1 2 due_world = (Ok false, w') /\
  t_outbox (db w') !! "j1" = Some row' /\ o_state row' = OutboxPublished /\ EffPublish (o_subject job1) (o_payload job1) ∈ trace w'.
Proof.
  apply (due_jobs_published (ENV := short_clock) (BROKER := willing) (NewOutboxPublisher 0) 1 2 due_world "j1" job1).
  - reflexivity.
  - reflexivity.
  - reflexivity.
  - exact short_clock_sane.
  - reflexivity.
  - intros id r Hr.
    assert (H : map_Forall (fun _ r => is_ok (decodeJobEvent (o_payload r)) && outbox_check r && negb (bool_decide (o_subject r = "")) &&
      negb (bool_decide (o_payload r = "")) = true) (t_outbox (db due_world))) by (apply (bool_decide_unpack _); vm_compute; exact I).
    apply H in Hr. rewrite !andb_true_iff, !negb_true_iff, !bool_decide_eq_false in Hr. destruct Hr as [[[H1 H2] H3] H4].
    apply is_ok_true in H1. exact (conj H1 (conj H2 (conj H3 H4))).
  - intros id r Hr Hp. apply OutboxWitness.w1_no_published in Hr. rewrite Hr in Hp. discriminate Hp.
  - by vm_compute.
  - by vm_compute.
  - by vm_compute.
  - by vm_compute.
Defined.

Lemma api_fails_only_serving_witness :
  api_exit PublisherFirst ServeClosed (RunOutboxPublisher (NewOutboxPublisher 0) 0 3 due_world).1 (RunReaper reaper 2 due_world).1 = Stopped /\
  api_exit SignalFirst ServeFailed (RunOutboxPublisher (NewOutboxPublisher 0) 0 3 due_world).1 (RunReaper reaper 2 due_world).1 = Fatal "serve api".
Proof.
  split.
  - exact (api_fails_only_serving PublisherFirst ServeClosed (NewOutboxPublisher 0) 0 reaper 3 2 due_world due_world _ _ _ _ (surjective_pairing _) (surjective_pairing _)).
  - exact (api_fails_only_serving SignalFirst ServeFailed (NewOutboxPublisher 0) 0 reaper 3 2 due_world due_world _ _ _ _ (surjective_pairing _) (surjective_pairing _)).
Defined.

(** ** The worker *)
Definition loaded : Memory.broker := MkBroker (b_streams other) ∅ batch.
Definition idle_worker : World (WorkerDB * Memory.broker) := MkWorld (empty_worker_db, loaded) 0 0 [].
Definition worked : result bool * World (WorkerDB * Memory.broker) := worker_main (configured production) 2 idle_worker.
Lemma worker_acknowledges_only_success_witness :
  length (trace worked.2) = 4%nat /\
  exists tl, trace worked.2 = [] ++ tl /\ forall payload, EffAck payload ∈ tl -> job_succeeded payload (db worked.2).1.
Proof.
  split; [by vm_compute|].
  destruct (worker_acknowledges_only_success (configured production) 2 idle_worker worked.2 worked.1) as [_ H].
  - apply rtc_refl.
  - apply surjective_pairing.
  - exact H.
Defined.
End Running.
